(* ===== verification/_CoqProject ===== *)
-Q . S2P
Prelude.v
GoStrings.v
Types.v
Merge.v
GoHeap.v
DeepCopy.v
StringPool.v
Api.v
DomainSecrets.v
ResUtils.v
Store.v
Lru.v
MessageCache.v
Routes.v
Secrets.v
HttpFilters.v
Clusters.v
FilterChains.v
SnapshotCache.v
Mixer.v
Updater.v
Rebuild.v
MainBuilder.v
Frame.v
Webhooks.v
Admission.v
Metrics.v
Controllers.v
WebhookCert.v
Watch.v
InitCert.v
Startup.v
GrpcAuth.v
GrpcLists.v
GrpcVirtualService.v
GrpcTemplate.v
GrpcExamples.v
Clients.v
Rest.v
Overview.v
FileWatcher.v
Manifests.v
RestServer.v
StaticConfig.v
ApiServer.v
GrpcClients.v
