(* ===== verification/Prelude.v ===== *)
(** * Verification of the envoy-xds-controller

    The controller watches Kubernetes custom resources (virtual services,
    templates, listeners, clusters, routes, HTTP filters, access logs, policies,
    tracings) and TLS secrets, keeps them in an in-memory store, builds Envoy
    configuration from them and serves it to Envoy nodes over xDS.  Admission
    webhooks check the objects before the API server stores them; a gRPC API edits
    virtual services for a user interface, and a REST API shows what is served.

    ** The parts and the files that model them

    - [Prelude.v]: Go errors and [(value, error)] results, the state and error
      monad [stM], generic lemmas on lists and maps, tactics and the hint
      database [go].
    - [GoStrings.v]: the functions of [strings] and [strconv] the code uses.
    - [Types.v]: the custom resources ([api/v1alpha1/*_types.go]), object
      metadata, [internal/helpers], and the Envoy messages as records of the
      fields the controller touches plus an opaque rest.
    - [GoHeap.v]: Go memory: values, cells and types, the statements of which deep
      copies are made, and when they are deep; [DeepCopy.v]: the generated
      [api/v1alpha1/zz_generated.deepcopy.go] over it.
    - [Merge.v]: [internal/merge/merge.go], the merge of a template and a service
      as JSON documents.
    - [StringPool.v]: [internal/store/string_pool.go]; concurrent [Intern] calls
      are a transition system whose steps are the critical sections.
    - [Api.v]: the methods of the custom resources ([api/v1alpha1/*_methods.go]).
    - [DomainSecrets.v]: [internal/store/domain_secrets.go], the index from
      domains to TLS secrets and the choice of the best secret.
    - [ResUtils.v]: [internal/xds/resbuilder/utils/helpers.go].
    - [Store.v]: [internal/store/virtualservice_status.go] (Module [Status]) and
      [internal/store/optimized.go] (Modules [Index] and [Store]): all operations
      of the store, its secondary indices, [Copy] and the initial load.
    - The resource builder ([internal/xds/resbuilder]): [Lru.v] ([utils/lru.go]),
      [Routes.v], [Secrets.v], [HttpFilters.v], [Clusters.v] and [FilterChains.v]
      (the builders in the directories of these names, with the caches of the
      process and the decoding of access logs).  [MessageCache.v]: the caches of
      messages ([filters/lru_cache.go], [clusters/lru_cache.go]) and the pool of
      slices ([utils/pools.go]) on a heap of messages and arrays.
    - [SnapshotCache.v]: [internal/xds/cache/wrapper.go] over an interface of the
      go-control-plane cache (classes [SnapshotAPI], [CacheAPI]; Module
      [MapCache] is an instance).
    - [Mixer.v]: [internal/xds/updater/mixer.go].
    - [Updater.v]: [internal/xds/updater/updater.go] and the files with the
      [Apply*]/[Delete*] methods of each kind.
    - [Rebuild.v]: the theorems on the updater, for every resource builder.
    - [MainBuilder.v]: [main_builder/builder.go] and [resbuilder/builder.go], the
      composition of the builders, and the theorem that joins the builder and the
      updater.
    - [Frame.v]: what the build of a service reads of the store, and that it gives
      the same result from two stores that agree on it.
    - [Webhooks.v]: [internal/webhook/v1alpha1], the three checks of every kind.
    - [Admission.v]: the theorems on the webhooks, joined with the store, the
      builder and the updater.
    - [Metrics.v]: the Prometheus metrics ([resbuilder/utils/metrics.go] and
      [internal/webhook/v1alpha1/metrics.go]) and the caches, builds and checks that
      record them.
    - [Controllers.v]: the reconcile loops of [internal/controller] and histories of
      changes and requests.
    - [WebhookCert.v]: [webhook_controller.go] of the same directory, the certificate
      of the webhook server; [InitCert.v]: [cmd/init-cert], which makes the first one.
    - [Watch.v]: the [SetupWithManager] methods of that directory: event filters,
      watches and work queues.
    - [Startup.v]: [cmd/main.go], the set-up of the process and the start of its
      servers, with the theorem on the whole program.
    - The gRPC API ([internal/grpcapi]): [GrpcAuth.v] (the authorizer, the
      middleware, access groups and permissions), [GrpcLists.v] (the listings and
      the verification of domains), [GrpcVirtualService.v] ([virtualservice/]),
      [GrpcTemplate.v] ([virtualservicetemplate.go]); [GrpcExamples.v] has the
      concrete requests that show their theorems apply.
    - [Clients.v]: [internal/xds/clients] and [internal/xds/callbacks.go].
    - The REST API ([internal/xds/api/v1]): [Rest.v] (access control and handlers)
      and [Overview.v] (the overview of a node and its cache); [RestServer.v] is the
      engine: the middleware, the routes of [handlers.go] and whole requests.
    - The API server ([internal/xds/api/server.go]): [FileWatcher.v]
      ([internal/filewatcher], with the paths of [path/filepath]), [StaticConfig.v]
      (the lists that follow a file) and [ApiServer.v] (the gRPC services behind
      their middleware, the assembly of the servers and the debug server of
      [cmd/main.go], the xDS server of [internal/xds/server.go]); [GrpcClients.v]: the
      generated clients of the gRPC services ([pkg/api/grpc]).
    - [Manifests.v]: [cmd/client], the check of manifests for duplicates.

    ** How code becomes definitions

    A Go struct is a record, a pointer that may be nil an [option], a map a
    [gmap] (an [option] of one where nil is tested for), a set of keys a [gset],
    a slice a [list].  A method that changes its receiver returns the new value;
    every method of the store and of the snapshot cache runs under the
    receiver's mutex, so a history of calls is a list of operations ([Store.op],
    [Mixer.op]).  The string pool locks twice per call, so its two critical
    sections are separate steps of threads ([StringPool.step]).  A function that
    returns an error returns a [result].  Go's map iteration order is
    unspecified: a loop whose order can be observed takes the order as an argument
    (also those that collect names, in [ResUtils] and [SnapshotCache]), and the
    theorems hold for every order.  The caches of the process are states that
    a call takes, with its instant, and returns.  A pointer that the store shares
    with a caller who writes through it is written back to every index
    ([GrpcVirtualService.write_back], [Controllers.assign_stored]); where aliasing
    is the point, pointers, arrays and slices are explicit ([MessageCache.mem],
    [GoJson.memory], [GoHeap.heap]).  The updater takes the resource
    builder as a function from services to results, because each service is built
    once per rebuild; [MainBuilder.built_by] says that the function holds results
    of the modelled builder, each from an arbitrary state of the caches.  Integers of the snapshot versions wrap at
    64 bits ([GoStrings.wrap64]).

    Code outside the repository is an argument or a class: JSON and
    [text/template] ([Api.JsonLib]), protobuf decoding and validation
    ([ProtoMessage]), packing and unpacking of [Any] messages ([HttpFilters.FilterLib],
    [Clusters.ClusterLib], [FilterChains.ChainLib]), SHA-256 ([Sha256]), PEM and X.509 decoding, the snapshot cache of
    go-control-plane, the Kubernetes client ([Store.Client], [Webhooks.Client],
    [GrpcVirtualService.Client]), the policy engine and the tokens of the gRPC API
    ([GrpcAuth]), decoding for the REST API ([Rest.RestLib], [Rest.CertLib],
    [Overview.OverviewLib]), the router of the REST framework ([RestServer.Router]), the
    CORS middleware of both servers, of which the model has what it does with a
    preflight request ([RestServer.Cors], [ApiServer.GrpcCors]), the certificate
    library with its laws ([WebhookCert.CertManager], [WebhookCert.CertLaws]), the inference of procedures ([ApiServer.Authn]), the deep copies of the Kubernetes
    types ([DeepCopy.K8sTypes]), YAML ([Manifests.YamlLib]), the file
    system and its events, the context ([ctx n] is the answer to the n-th poll of
    [ctx.Err()]).

    ** What the theorems show

    The specification side of a theorem is stated apart from the code it is about:
    [Controllers.carries] says which fields of an object the store must have (and
    not that the code's own comparison answers yes), [MainBuilder.serves] which
    listeners, routes, clusters and secrets a node must be served and with which
    contents, [MainBuilder.uses] and [Clusters.needs] what a service refers to,
    [Merge.merges] what a merge must give, [DomainSecrets.grade] which certificate is
    better, [Rebuild.innermost] which error a status reports,
    [GrpcVirtualService.describes] and [updates] every field of a service that is
    sent, [StaticConfig.touches] and [moved] which events concern a file.

    - The whole program ([Startup.v]): from the start of the process and through any
      history of changes that are reconciled in the end, the store carries what the
      API server holds, and every node is served what its services, as they are on
      the server, refer to.
    - No partial updates and what is served ([Rebuild.v]): a failing service
      blocks the commit and still gets its status; after a success every node is served exactly what was
      mixed for it; rebuilding without changes keeps all versions, whatever the
      iteration orders ([Mixer.v] proves [Mix] independent of them); versions
      count changes; a domain is served once per node; statuses; soundness of the
      light validation; re-applying an object is a no-op.
    - The store ([Store.v]): after every history of operations the UID index,
      the template index, the Envoy-name index and the domain index agree with
      the stored objects; loading from the API server equals applying the
      objects one by one, and is all or nothing.
    - Secrets ([DomainSecrets.v], [Store.v]): the chosen secret is the best one,
      the wildcard fallback, and the expiry of a chain is the earliest one.
    - Templates ([Merge.v], [Api.v]): the merge follows the options at every path,
      arrays, deletion and replacement, idempotence; node IDs, extra fields and
      namespaces.
    - The string pool ([StringPool.v]): every interleaving of calls is correct.
    - The resource builder: routes with the root route last and the fallback host
      ([Routes.v]); discovery partitions the domains among the secrets
      ([Secrets.v]); filters with the router last and bounded staleness of the
      cache ([HttpFilters.v]); every cluster routed to is found ([Clusters.v]);
      one chain per secret, covering every domain ([FilterChains.v]); the LRU cache
      refines an abstract one ([Lru.v]); the resources of a service are closed
      under references, and after a rebuild every node is served everything its
      services refer to ([MainBuilder.v]).
    - Admission ([Admission.v]): an admitted deletion changes neither the build of
      any service that keeps to its namespace nor, end to end, any snapshot; secrets
      in use cannot be deleted, and only those; an admitted cluster keeps the index
      by Envoy name exact, which is the assumption of the store; an admitted service
      builds together with all others.
    - The controllers ([Controllers.v]): once every change has been reconciled, in any
      order and with any failures in between, the store agrees with the API server
      and the snapshots are those of a rebuild from it; statuses are published; the
      webhooks are trusted and their certificate is renewed in time
      ([WebhookCert.v]).  With the watches and queues of [Watch.v] this holds whenever
      the queue is empty, for all objects but secrets that the event filter hides, and
      the queue does become empty once changes and failures stop: no status update keeps
      the controllers busy for ever.
    - Deep copies ([DeepCopy.v]): a copy has the data of the original and shares no
      memory with it, for every type of the API.
    - Metrics ([Metrics.v]): recording changes no result; the counters of a cache are
      exact in every interleaving of its users, and those of the webhook tell what was
      answered.
    - The gRPC API: what is created or updated is what the request asks for, with
      objects the user may list, and it builds; reading a created service back; the
      preview of a template is what a creation gives; which domains and names are
      accepted; permissions and listings show exactly what the policy grants.
    - The REST API: a node is shown only to users whose groups may see it (an
      example shows that the resource versions are not protected); secrets are
      shown without their keys; the overview is consistent with the snapshot and
      never older than its time to live.  The engine ([RestServer.v]): what a user is
      answered, over any history of requests, does not depend on nodes that the
      access control list keeps from the user.
    - The API server: with authentication enabled no request passes either server
      without a verified token (CORS preflights are answered before that, without
      reaching a handler), and a gRPC call is authorized under the action of
      the procedure it reaches ([ApiServer.v]); the generated clients reach exactly the
      procedures they are named after ([GrpcClients.v]); the lists of nodes and access groups
      follow their file ([StaticConfig.v]).
    - The message caches ([MessageCache.v]): whatever callers do to messages they share
      with a cache, it behaves as a cache of values.
    - The tools: what [init-cert] leaves for the controller ([InitCert.v]), and that the
      client finds exactly the duplicates ([Manifests.v]).
    - The clients ([Clients.v]): the registry holds for every stream what was announced
      on it, whatever the other streams do.

    Some theorems describe behaviour that departs from the documentation (lost
    index entries, versions that grow without a change, nested deletion, stale RBAC
    filters, a repeated wildcard host), and so do examples (references from other
    namespaces, unchecked permissions, writes to shared objects); their comments say
    so.

    ** Fuel

    [DomainSecrets.minNotAfter_loop] runs on the length of the data, which is
    enough because each decoded block consumes input; [Merge.mergeMaps] recurses
    on the size of the documents; [ResUtils.findClusterNamesWithDepth] has the
    depth limit of the source; [Rest.parsePEM] runs on the length of the data too
    ([Rest.parsePEM_total]).

    ** Not modelled

    Logging, the CORS headers of replies that reach a handler and the recovery of the
    REST server, whose panics are the replies [Rest.Crash]; the libraries behind the parameters
    above; the flag library of the client; the registration of webhooks with the
    manager beyond its errors; the pool of cluster slices, which has no users; the
    generated protobuf messages, imports ([import_filters.gen.go]) and API documents
    ([docs.go]), which have no operations of the program; test utilities. *)

From stdpp Require Export prelude gmap strings list fin_maps sorting pretty.

Set Default Goal Selector "!".
Set Warnings "-register-all".

Declare Scope go_scope.
Delimit Scope go_scope with go.
Open Scope stdpp_scope.

(** ** Go errors

    A Go [error] value is modelled by how it was built: [errors.New] and
    [fmt.Errorf] without a [%w] verb give [ErrNew], [fmt.Errorf("...: %w", e)]
    gives [ErrWrap], [multierr.Combine] of several errors gives [ErrMulti].
    [ErrPanic] is a run-time panic on its way up the stack, which no [Errorf]
    wraps.  [go_Error] is the [Error()] method, [go_Unwrap] is [errors.Unwrap]. *)
Inductive error : Type :=
| ErrNew (msg : string)
| ErrWrap (prefix : string) (inner : error)
| ErrMulti (errs : list error)
| ErrPanic (what : string).

(** [fmt.Errorf("<prefix>: %w", inner).Error()]; multierr joins with ["; "]. *)
Fixpoint go_Error (e : error) : string :=
  match e with
  | ErrNew m => m
  | ErrWrap p i => p +:+ ": " +:+ go_Error i
  | ErrMulti es => String.concat "; " (map go_Error es)
  | ErrPanic w => w
  end.

(** [errors.Unwrap]: only a single-[%w] error has an inner error. *)
Definition go_Unwrap (e : error) : option error :=
  match e with
  | ErrWrap _ i => Some i
  | _ => None
  end.

(** ** Results of fallible Go functions: [(value, error)] pairs *)
Inductive result (A : Type) : Type :=
| Ok (a : A)
| Err (e : error).
Arguments Ok {A} a.
Arguments Err {A} e.

Global Instance result_ret : MRet result := λ A a, Ok a.
Global Instance result_bind : MBind result := λ A B f m,
  match m with Ok a => f a | Err e => Err e end.
Global Instance result_fmap : FMap result := λ A B f m,
  match m with Ok a => Ok (f a) | Err e => Err e end.

Definition is_ok {A} (r : result A) : bool :=
  match r with Ok _ => true | Err _ => false end.

(** [if err != nil { return nil, fmt.Errorf("<prefix>: %w", err) }] *)
Definition wrap_err {A} (prefix : string) (r : result A) : result A :=
  match r with
  | Ok a => Ok a
  | Err (ErrPanic w) => Err (ErrPanic w)
  | Err e => Err (ErrWrap prefix e)
  end.

(** The panic of a nil pointer dereference. *)
Definition nil_deref : error :=
  ErrPanic "runtime error: invalid memory address or nil pointer dereference".

(** A guard [if cond { return err }]. *)
Definition fail_if (cond : bool) (e : error) : result unit :=
  if cond then Err e else Ok tt.

(** [for _, x := range xs { y, err := f(x); if err != nil { return err }; ys = append(ys, y) }] *)
Fixpoint map_result {A B} (f : A → result B) (l : list A) : result (list B) :=
  match l with
  | [] => Ok []
  | x :: l => y ← f x; ys ← map_result f l; Ok (y :: ys)
  end.

(** A loop over a slice that threads a state and may return early with an error. *)
Fixpoint fold_result {A S} (f : S → A → result S) (s : S) (l : list A) : result S :=
  match l with
  | [] => Ok s
  | x :: l => s' ← f s x; fold_result f s' l
  end.

(** ** Fallible code with state

    A method that may fail and changes a state: the state survives an error. *)
Definition stM (S A : Type) : Type := S → result A * S.
Global Instance stM_ret S : MRet (stM S) := λ A a s, (Ok a, s).
Global Instance stM_bind S : MBind (stM S) := λ A B f m s,
  match m s with
  | (Ok a, s) => f a s
  | (Err e, s) => (Err e, s)
  end.
Definition lift {S A} (r : result A) : stM S A := λ s, (r, s).
Definition wrap_st {S A} (prefix : string) (m : stM S A) : stM S A :=
  λ s, (wrap_err prefix (m s).1, (m s).2).
(** [if cond { xs, err := m; if err != nil { return err }; ... }] *)
Definition when {S A} (cond : bool) (m : stM S (list A)) : stM S (list A) :=
  if cond then m else mret [].

(** ** Sorting: [sort.Slice] with a comparison of a string key *)
Definition key_le {A} (key : A → string) (x y : A) : Prop := String.le (key x) (key y).
Global Instance key_le_dec {A} (key : A → string) : RelDecision (key_le key).
Proof. intros x y. unfold key_le. apply _. Defined.

Definition sort_by_key {A} (key : A → string) (l : list A) : list A :=
  merge_sort (key_le key) l.

(** The entries of an association list rebuilt one by one into a fresh map: the
    [for k, v := range m { fresh[k] = v }] idiom. *)
Definition copy_map `{Countable K} {V} (m : gmap K V) : gmap K V :=
  map_fold (λ k v acc, <[k := v]> acc) ∅ m.

(** [for i, x := range l { if p(x) { idxs = append(idxs, i) } }] *)
Fixpoint indexes_from {A} (n : nat) (p : A → bool) (l : list A) : list nat :=
  match l with
  | [] => []
  | x :: l => if p x then n :: indexes_from (S n) p l else indexes_from (S n) p l
  end.
Definition indexes {A} (p : A → bool) (l : list A) : list nat := indexes_from 0 p l.

(** [x := l[i]; l = append(l[:i], l[i+1:]...); l = append(l, x)] *)
Definition move_to_end {A} (i : nat) (l : list A) : list A :=
  (take i l ++ drop (S i) l) ++ option_list (l !! i).

(** [map[K]V] read with the zero value for an absent key. *)
Definition map_get_default `{Countable K} {V} (d : V) (m : gmap K V) (k : K) : V :=
  default d (m !! k).

(** ** Tactics *)
(** Case analysis on every [match]/[if]/[decide] of the goal, with the equations
    substituted. *)
Ltac cases :=
  repeat (case_match || case_decide || case_bool_decide); simplify_eq/=.

(** Destructs a chain of [result] binds in a hypothesis. *)
Ltac ok_inv H :=
  repeat match type of H with
  | mbind _ ?r = Ok _ => destruct r eqn:?; cbn in H; [|discriminate H]
  | (match ?r with Ok _ => _ | Err _ => _ end) = Ok _ =>
      destruct r eqn:?; cbn in H; [|discriminate H]
  end; simplify_eq/=.

Create HintDb go.

(** ** Generic lemmas *)
Lemma bind_Ok {A B} (f : A → result B) (a : A) : (Ok a ≫= f) = f a.
Proof. reflexivity. Qed.

Lemma bind_Ok_inv {A B} (f : A → result B) (m : result A) b :
  (m ≫= f) = Ok b → ∃ a, m = Ok a ∧ f a = Ok b.
Proof. destruct m; cbn; [eauto|discriminate]. Qed.

Lemma wrap_err_Ok {A} (p : string) (r : result A) a : wrap_err p r = Ok a ↔ r = Ok a.
Proof. destruct r as [|[]]; cbn; split; congruence. Qed.

Lemma Ok_pair_inv {A B} (a a' : A) (b b' : B) : Ok (a, b) = Ok (a', b') → a = a' ∧ b = b'.
Proof. by intros [= -> ->]. Qed.

Lemma fail_if_inv b e u : fail_if b e = Ok u → b = false.
Proof. by destruct b. Qed.

Lemma stM_bind_Ok {S A B} (f : A → stM S B) (m : stM S A) s b s' :
  (m ≫= f) s = (Ok b, s') ↔ ∃ a s1, m s = (Ok a, s1) ∧ f a s1 = (Ok b, s').
Proof. unfold mbind, stM_bind. destruct (m s) as [[a|e] s1]; naive_solver. Qed.

Lemma lift_Ok {S A} (r : result A) (s s' : S) a : lift r s = (Ok a, s') ↔ r = Ok a ∧ s' = s.
Proof. unfold lift. naive_solver. Qed.

Lemma wrap_st_Ok {S A} p (m : stM S A) s a s' : wrap_st p m s = (Ok a, s') ↔ m s = (Ok a, s').
Proof.
  unfold wrap_st. destruct (m s) as [r s1]. cbn. destruct (wrap_err p r) as [x|e] eqn:Hr.
  - apply wrap_err_Ok in Hr as ->. done.
  - split; [done|]. intros [= -> ->]. done.
Qed.

Lemma map_result_ext {A B} (f g : A → result B) l :
  (∀ x, x ∈ l → f x = g x) → map_result f l = map_result g l.
Proof.
  induction l as [|x l IH]; intros Hfg; [done|]. cbn. rewrite Hfg by left.
  rewrite IH; [done|]. intros y Hy. apply Hfg. by right.
Qed.

Lemma map_result_Ok {A B} (f : A → result B) l ys :
  map_result f l = Ok ys ↔ Forall2 (λ x y, f x = Ok y) l ys.
Proof.
  revert ys. induction l as [|x l IH]; intros ys; cbn.
  - split; [intros [= <-]; constructor|by inversion 1].
  - split.
    + intros H. apply bind_Ok_inv in H as (y & Hy & H).
      apply bind_Ok_inv in H as (ys' & Hys & [= <-]).
      constructor; [done|]. by apply IH.
    + inversion 1 as [|? y ? ys' Hy Hys]; subst. rewrite Hy; cbn.
      apply IH in Hys. by rewrite Hys.
Qed.

(** Every element of a mapped slice has its image, and conversely. *)
Lemma Forall2_impl_elem {A B} (P Q : A → B → Prop) l k :
  Forall2 P l k → (∀ x y, x ∈ l → y ∈ k → P x y → Q x y) → Forall2 Q l k.
Proof.
  induction 1 as [|x y l k Hxy _ IH]; intros HQ; constructor; [apply HQ; [left|left|done]|].
  apply IH. intros x' y' Hx Hy. apply HQ; by right.
Qed.
Lemma Forall2_elem_l {A B} (P : A → B → Prop) l k x :
  Forall2 P l k → x ∈ l → ∃ y, y ∈ k ∧ P x y.
Proof.
  intros H [i Hi]%list_elem_of_lookup. destruct (Forall2_lookup_l _ _ _ _ _ H Hi) as (y & Hy & HP).
  exists y. split; [by eapply list_elem_of_lookup_2|done].
Qed.
Lemma Forall2_elem_r {A B} (P : A → B → Prop) l k y :
  Forall2 P l k → y ∈ k → ∃ x, x ∈ l ∧ P x y.
Proof.
  intros H [i Hi]%list_elem_of_lookup. destruct (Forall2_lookup_r _ _ _ _ _ H Hi) as (x & Hx & HP).
  exists x. split; [by eapply list_elem_of_lookup_2|done].
Qed.

Lemma elem_of_concat {A} (x : A) ls : x ∈ concat ls ↔ ∃ l, x ∈ l ∧ l ∈ ls.
Proof.
  induction ls as [|l ls IH]; cbn; [|rewrite elem_of_app, IH].
  - split; [by intros ?%not_elem_of_nil|by intros (? & _ & ?%not_elem_of_nil)].
  - setoid_rewrite elem_of_cons. naive_solver.
Qed.

Lemma fold_result_app {A S} (f : S → A → result S) s l1 l2 :
  fold_result f s (l1 ++ l2) = s' ← fold_result f s l1; fold_result f s' l2.
Proof.
  revert s. induction l1 as [|x l1 IH]; intros s; cbn; [done|].
  destruct (f s x); cbn; [apply IH|done].
Qed.

Lemma fold_result_inv {A S} (P : S → Prop) (f : S → A → result S) l s s' :
  P s → (∀ s x s', x ∈ l → P s → f s x = Ok s' → P s') →
  fold_result f s l = Ok s' → P s'.
Proof.
  intros Hs Hf. revert s Hs. induction l as [|x l IH]; intros s Hs H; cbn in H.
  - by simplify_eq.
  - apply bind_Ok_inv in H as (s1 & H1 & H). eapply IH; [|eapply Hf, H1|done]; auto.
    + intros; eapply Hf; eauto. set_solver.
    + set_solver.
Qed.

Lemma map_fold_ext' `{Countable K} {V B} (f g : K → V → B → B) (b : B) (m : gmap K V) :
  (∀ k v r, f k v r = g k v r) → map_fold f b m = map_fold g b m.
Proof.
  intros Hfg. rewrite !map_fold_foldr. induction (map_to_list m) as [|[k v] l IH]; [done|].
  cbn. by rewrite IH, Hfg.
Qed.

Lemma copy_map_id `{Countable K} {V} (m : gmap K V) : copy_map m = m.
Proof.
  unfold copy_map. apply (map_fold_weak_ind (λ r m, r = m)); [done|].
  intros i x m' r _ ->. done.
Qed.

(** [sort.Slice] by name permutes its input ... *)
Lemma sort_by_key_perm {A} (key : A → string) l : sort_by_key key l ≡ₚ l.
Proof. apply merge_sort_Permutation. Qed.

Global Instance key_le_total {A} (key : A → string) : Total (key_le key).
Proof. intros x y. unfold key_le. apply (total String.le). Qed.
Global Instance key_le_trans {A} (key : A → string) : Transitive (key_le key).
Proof. intros x y z. unfold key_le. apply transitivity. Qed.

Lemma sort_by_key_sorted {A} (key : A → string) l :
  StronglySorted (key_le key) (sort_by_key key l).
Proof. apply StronglySorted_merge_sort; apply _. Qed.

(** ... and, when the names are pairwise distinct, its result does not depend on
    the order of the input: any sorting algorithm, stable or not, gives the same
    slice. *)
Lemma sort_by_key_unique {A} (key : A → string) (l1 l2 : list A) :
  l1 ≡ₚ l2 → NoDup (key <$> l1) → sort_by_key key l1 = sort_by_key key l2.
Proof.
  intros Hp Hnd. eapply StronglySorted_unique_strong;
    [|apply sort_by_key_sorted..|by rewrite !sort_by_key_perm].
  intros x y Hx Hy Hxy Hyx. rewrite sort_by_key_perm in Hx. rewrite sort_by_key_perm, <-Hp in Hy.
  assert (key x = key y) as Hk by (by apply (anti_symm String.le)).
  apply list_elem_of_lookup in Hx as [i Hi]. apply list_elem_of_lookup in Hy as [j Hj].
  assert (i = j) as ->; [|congruence].
  eapply NoDup_lookup; [exact Hnd| |]; rewrite list_lookup_fmap.
  - by rewrite Hi.
  - rewrite Hj; cbn. by rewrite Hk.
Qed.

(** ** Moving the one matching element to the end *)
Lemma length_indexes {A} n (p : A → bool) l :
  length (indexes_from n p l) = length (filter p l).
Proof.
  revert n. induction l as [|x l IH]; intros n; [done|]. cbn [indexes_from].
  destruct (p x) eqn:Hp.
  - rewrite filter_cons_True by (cbn; rewrite Hp; exact I). cbn. by rewrite IH.
  - rewrite filter_cons_False by (cbn; rewrite Hp; exact id). by rewrite IH.
Qed.

Lemma indexes_from_S {A} n (p : A → bool) l :
  indexes_from (S n) p l = S <$> indexes_from n p l.
Proof.
  revert n. induction l as [|x l IH]; intros n; [done|]. cbn [indexes_from].
  destruct (p x); cbn; by rewrite IH.
Qed.

Lemma filter_none {A} (P : A → Prop) `{∀ x, Decision (P x)} (l : list A) :
  length (filter P l) = 0 → filter (λ x, ¬ P x) l = l ∧ filter P l = [].
Proof.
  intros Hl. apply nil_length_inv in Hl. split; [|done].
  induction l as [|x l IH]; [done|]. destruct (decide (P x)) as [Hp|Hp].
  - by rewrite filter_cons_True in Hl.
  - rewrite filter_cons_False in Hl by done. rewrite filter_cons_True by done. by rewrite IH.
Qed.

(** A single match is moved behind all other elements, which keep their order. *)
Lemma move_to_end_spec {A} (p : A → bool) (l : list A) i :
  indexes p l = [i] → move_to_end i l = filter (λ x, ¬ p x) l ++ filter p l.
Proof.
  unfold indexes, move_to_end. revert i. induction l as [|x l IH]; intros i Hi; [done|].
  cbn [indexes_from] in Hi. destruct (p x) eqn:Hp.
  - injection Hi as <- Hi. apply (f_equal length) in Hi. rewrite length_indexes in Hi. cbn in Hi.
    apply filter_none in Hi as [Hn Hf]. rewrite filter_cons_False by (cbn; rewrite Hp; intros Hx; by apply Hx).
    rewrite filter_cons_True by (cbn; rewrite Hp; exact I). cbn. by rewrite Hn, Hf.
  - rewrite indexes_from_S in Hi. destruct (indexes_from 0 p l) as [|j [|]] eqn:Hj; cbn in Hi; try done.
    injection Hi as <-. rewrite filter_cons_True by (cbn; rewrite Hp; exact id).
    rewrite filter_cons_False by (cbn; rewrite Hp; exact id). cbn. by rewrite <-(IH j).
Qed.

(** A match in the last place is where it belongs. *)
Lemma move_last_id {A} (l : list A) i : i = length l - 1 → move_to_end i l = l.
Proof.
  intros ->. unfold move_to_end. destruct l as [|x l] using rev_ind; [done|].
  rewrite length_app. cbn. replace (length l + 1 - 1) with (length l) by lia.
  rewrite take_app_length, drop_ge by (rewrite length_app; cbn; lia).
  by rewrite lookup_app_r, Nat.sub_diag, app_nil_r by lia.
Qed.

#[export] Hint Resolve sort_by_key_perm sort_by_key_sorted copy_map_id : go.
