(* ===== verification/GoStrings.v ===== *)
(** * Go's [strings], [strconv] and [fmt] functions used by the controller

    A Go [string] is a byte sequence: [String.string] over 8-bit [ascii].  The
    file models the functions of the standard library the sources call, with the
    separators and verbs they are called with, and proves the laws the
    components rely on (split/join and print/parse round trips). *)

From Stdlib Require SpecFloat.
From S2P Require Import Prelude.
From Stdlib Require Import Ascii.
From Stdlib Require String.

Module GoStrings.

(** The one-byte separators and patterns of the sources. *)
Definition dot : ascii := "."%char.
Definition comma : ascii := ","%char.
Definition star : ascii := "*"%char.
Definition dash : ascii := "-"%char.

(** [strings.Split(s, sep)] for a one-byte separator: never the empty list. *)
Fixpoint Split (c : ascii) (s : string) : list string :=
  match s with
  | EmptyString => [""]
  | String a s' =>
      if decide (a = c) then "" :: Split c s'
      else match Split c s' with
           | [] => [String a ""]
           | p :: ps => String a p :: ps
           end
  end.

(** [strings.Join(parts, sep)] for a one-byte separator. *)
Fixpoint Join (c : ascii) (parts : list string) : string :=
  match parts with
  | [] => ""
  | [p] => p
  | p :: ps => p +:+ String c (Join c ps)
  end.

Fixpoint rev_string_app (s acc : string) : string :=
  match s with
  | EmptyString => acc
  | String a s' => rev_string_app s' (String a acc)
  end.
Definition rev_string (s : string) : string := rev_string_app s "".

(** White space of [unicode.IsSpace], as UTF-8 byte sequences: the six ASCII
    spaces; U+0085 and U+00A0; U+1680, U+2000..U+200A, U+2028, U+2029, U+202F,
    U+205F and U+3000. *)
Definition space1 (a : ascii) : bool := Ascii.is_space a.
Definition space2 (a b : ascii) : bool :=
  (Ascii.eqb a "194" && (Ascii.eqb b "133" || Ascii.eqb b "160"))%char.
Definition space3 (a b c : ascii) : bool :=
  let n := nat_of_ascii c in
  ((Ascii.eqb a "225" && Ascii.eqb b "154" && Ascii.eqb c "128")
  || (Ascii.eqb a "226" && Ascii.eqb b "128"
      && ((128 <=? n)%nat && (n <=? 138)%nat
          || Ascii.eqb c "168" || Ascii.eqb c "169" || Ascii.eqb c "175"))
  || (Ascii.eqb a "226" && Ascii.eqb b "129" && Ascii.eqb c "159")
  || (Ascii.eqb a "227" && Ascii.eqb b "128" && Ascii.eqb c "128"))%char.

(** Strip a longest prefix of white-space sequences. *)
Fixpoint trim_prefix (p2 : ascii → ascii → bool) (p3 : ascii → ascii → ascii → bool)
    (s : string) : string :=
  match s with
  | EmptyString => ""
  | String a s1 =>
      if space1 a then trim_prefix p2 p3 s1
      else match s1 with
           | EmptyString => s
           | String b s2 =>
               if p2 a b then trim_prefix p2 p3 s2
               else match s2 with
                    | EmptyString => s
                    | String c s3 => if p3 a b c then trim_prefix p2 p3 s3 else s
                    end
           end
  end.

(** [strings.TrimSpace]. *)
Definition TrimSpace (s : string) : string :=
  let l := trim_prefix space2 space3 s in
  rev_string (trim_prefix (λ a b, space2 b a) (λ a b c, space3 c b a) (rev_string l)).

(** [strings.Index(s, c)] for one byte; [None] is Go's [-1]. *)
Fixpoint Index (c : ascii) (s : string) : option nat :=
  match s with
  | EmptyString => None
  | String a s' => if decide (a = c) then Some 0 else S <$> Index c s'
  end.

(** [strings.Count(s, c)] for one byte. *)
Fixpoint Count (c : ascii) (s : string) : nat :=
  match s with
  | EmptyString => 0
  | String a s' => (if decide (a = c) then 1 else 0) + Count c s'
  end.

(** [strconv.ParseBool]: [None] is a syntax error. *)
Definition ParseBool (s : string) : option bool :=
  if decide (s ∈ ["1"; "t"; "T"; "true"; "TRUE"; "True"]) then Some true
  else if decide (s ∈ ["0"; "f"; "F"; "false"; "FALSE"; "False"]) then Some false
  else None.

(** [strings.ReplaceAll(s, old, new)] for one-byte strings. *)
Fixpoint ReplaceAll (old new : ascii) (s : string) : string :=
  match s with
  | EmptyString => ""
  | String a s' => String (if decide (a = old) then new else a) (ReplaceAll old new s')
  end.

(** [strings.ToLower] on the bytes ['A'..'Z']; the sources only compare the
    result with ASCII keywords. *)
Definition lower_ascii (a : ascii) : ascii :=
  let n := nat_of_ascii a in
  if ((65 <=? n) && (n <=? 90))%nat then ascii_of_nat (n + 32) else a.
Fixpoint ToLower (s : string) : string :=
  match s with
  | EmptyString => ""
  | String a s' => String (lower_ascii a) (ToLower s')
  end.

(** [s[i]] and [s[i:]] as used after a length check. *)
Fixpoint byte_at (s : string) (i : nat) : option ascii :=
  match s, i with
  | EmptyString, _ => None
  | String a _, O => Some a
  | String _ s', S i => byte_at s' i
  end.
Fixpoint drop_bytes (i : nat) (s : string) : string :=
  match i, s with
  | O, _ => s
  | S i, String _ s' => drop_bytes i s'
  | S _, EmptyString => ""
  end.

(** [fmt.Sprintf("%d", n)] and [strconv.Itoa]. *)
Definition Itoa (z : Z) : string := pretty z.

(** [float64(n)] of an integer, rounded to the nearest double. *)
Definition float64 (z : Z) : SpecFloat.spec_float := SpecFloat.binary_normalize 53 1024 z 0 false.

(** 64-bit two's complement wrap-around of Go's [int]. *)
Definition wrap64 (z : Z) : Z := ((z + 2 ^ 63) `mod` 2 ^ 64 - 2 ^ 63)%Z.

(** [strconv.Atoi] with the error discarded ([v, _ := strconv.Atoi(s)]): an
    optional sign and decimal digits; a syntax error gives 0 and a value out of
    the range of [int] gives the nearest bound. *)
Fixpoint digits (s : string) (acc : Z) : option Z :=
  match s with
  | EmptyString => Some acc
  | String a s' =>
      match Ascii.is_nat a with
      | Some d => digits s' (acc * 10 + Z.of_nat d)%Z
      | None => None
      end
  end.
Definition digits1 (s : string) : option Z :=
  match s with EmptyString => None | _ => digits s 0 end.
Definition clamp64 (z : Z) : Z := Z.max (- 2 ^ 63) (Z.min (2 ^ 63 - 1) z).
Definition Atoi (s : string) : Z :=
  match s with
  | String "-" s' => match digits1 s' with Some v => clamp64 (- v) | None => 0%Z end
  | String "+" s' => match digits1 s' with Some v => clamp64 v | None => 0%Z end
  | _ => match digits1 s with Some v => clamp64 v | None => 0%Z end
  end.

(** A string with no occurrence of a byte. *)
Definition free_of (c : ascii) (s : string) : Prop := Index c s = None.
Global Instance free_of_dec c s : Decision (free_of c s).
Proof. unfold free_of. apply _. Defined.

(** ** Laws *)

Lemma str_app_cons a s t : String a s +:+ t = String a (s +:+ t).
Proof. reflexivity. Qed.

Lemma free_of_cons c a s : free_of c (String a s) ↔ a ≠ c ∧ free_of c s.
Proof.
  unfold free_of; cbn. case_decide; [split; [done|by intros []]|].
  rewrite fmap_None. tauto.
Qed.

Lemma Split_not_nil c s : Split c s ≠ [].
Proof. destruct s as [|a s]; cbn; [done|]. case_decide; [done|]. by case_match. Qed.

(** The parts of a split contain no separator. *)
Lemma Split_free c s : Forall (free_of c) (Split c s).
Proof.
  induction s as [|a s IH]; cbn; [by constructor|].
  case_decide; [by constructor|].
  destruct (Split c s) as [|p ps]; [by repeat constructor; apply free_of_cons|].
  inv IH. constructor; [|done]. by apply free_of_cons.
Qed.

(** [Join] undoes [Split]. *)
Lemma Join_Split c s : Join c (Split c s) = s.
Proof.
  induction s as [|a s IH]; cbn; [done|]. pose proof (Split_not_nil c s) as Hn.
  case_decide; subst.
  - destruct (Split c s) as [|p ps]; [done|]. cbn in *. by rewrite IH.
  - destruct (Split c s) as [|p ps]; [done|].
    destruct ps; cbn in *; by rewrite <-IH, ?str_app_cons.
Qed.

Lemma Split_free_id c s : free_of c s → Split c s = [s].
Proof.
  induction s as [|a s IH]; cbn; [done|]. rewrite free_of_cons. intros [Ha Hs].
  rewrite decide_False by done. by rewrite IH.
Qed.

Lemma Split_app c s t : free_of c s → Split c (s +:+ String c t) = s :: Split c t.
Proof.
  induction s as [|a s IH].
  - intros _. change ("" +:+ String c t) with (String c t). cbn. by rewrite decide_True.
  - rewrite free_of_cons. intros [Ha Hs]. rewrite str_app_cons. cbn.
    rewrite decide_False by done. by rewrite IH.
Qed.

(** [Split] undoes [Join] on parts free of the separator. *)
Lemma Split_Join c ps : ps ≠ [] → Forall (free_of c) ps → Split c (Join c ps) = ps.
Proof.
  induction ps as [|p ps IH]; [done|]. intros _ Hall. inv Hall.
  destruct ps as [|q qs]; [by apply Split_free_id|].
  change (Join c (p :: q :: qs)) with (p +:+ String c (Join c (q :: qs))).
  rewrite Split_app by done. by rewrite IH.
Qed.

Lemma ReplaceAll_free old new s : old ≠ new → free_of old (ReplaceAll old new s).
Proof.
  intros Hne. induction s as [|a s IH]; [done|]. cbn. apply free_of_cons.
  split; [|done]. by case_decide.
Qed.

(** *** Print/parse round trip of decimal numbers *)
Lemma is_nat_pretty_char x :
  (x < 10)%N → Ascii.is_nat (pretty_N_char x) = Some (N.to_nat x).
Proof.
  intros. assert (x = 0 ∨ x = 1 ∨ x = 2 ∨ x = 3 ∨ x = 4 ∨ x = 5 ∨ x = 6 ∨ x = 7
    ∨ x = 8 ∨ x = 9)%N as Hd by lia.
  by destruct_or! Hd; subst.
Qed.

Lemma digits_pretty_go x s : digits (pretty_N_go x s) 0 = digits s (Z.of_N x).
Proof.
  revert s. induction (N.lt_wf_0 x) as [x _ IH]; intros s.
  destruct (decide (x = 0)%N) as [->|Hx]; [done|].
  rewrite pretty_N_go_step by lia.
  rewrite IH by (apply N.div_lt; lia). cbn.
  rewrite is_nat_pretty_char by (apply N.mod_lt; lia). f_equal.
  pose proof (N.div_mod x 10). lia.
Qed.

Lemma pretty_N_digits1 (x : N) : digits1 (pretty x) = Some (Z.of_N x).
Proof.
  unfold pretty, pretty_N. case_decide; [by subst|].
  pose proof (digits_pretty_go x "") as Hd. unfold digits1.
  destruct (pretty_N_go x "") eqn:He; [|exact Hd].
  cbn in Hd. injection Hd as Hd. lia.
Qed.

Lemma pretty_N_head (x : N) c s : pretty x = String c s → c ≠ "-"%char ∧ c ≠ "+"%char.
Proof.
  intros He. pose proof (pretty_N_digits1 x) as Hd. rewrite He in Hd. cbn in Hd.
  split; intros ->; cbn in Hd; discriminate.
Qed.

(** [strconv.Atoi(strconv.Itoa(n)) = n] for a non-negative [int]. *)
Lemma Atoi_Itoa z : (0 ≤ z < 2 ^ 63)%Z → Atoi (Itoa z) = z.
Proof.
  intros Hz. assert (Itoa z = pretty (Z.to_N z)) as ->.
  { unfold Itoa. by destruct z as [|p|p]; [done|..|lia]. }
  pose proof (pretty_N_digits1 (Z.to_N z)) as Hd.
  pose proof (pretty_N_head (Z.to_N z)) as Hh.
  unfold Atoi. destruct (pretty (Z.to_N z)) as [|a s]; [done|].
  specialize (Hh _ _ eq_refl) as [Hm Hp].
  assert (clamp64 (Z.of_N (Z.to_N z)) = z) as Hc by (unfold clamp64; lia).
  rewrite Hd, Hc. destruct a as [[][][][][][][][]]; try done; by exfalso.
Qed.

Lemma wrap64_small z : (- 2 ^ 63 ≤ z < 2 ^ 63)%Z → wrap64 z = z.
Proof. intros. unfold wrap64. rewrite Z.mod_small; lia. Qed.

End GoStrings.
