(* ===== verification/Types.v ===== *)
(** * Data of the controller

    The custom resources of [api/v1alpha1], the Kubernetes objects the controller
    stores, and the Envoy messages it assembles.  Records keep the source's
    fields; an Envoy message (generated code of go-control-plane) has the fields
    the controller reads or writes and one opaque field for everything else,
    which the controller carries along unchanged.  A Go pointer field that may be
    [nil] is an [option]; a Go map that may be [nil] and is tested for it is an
    [option] too. *)

From S2P Require Import Prelude GoStrings.

(** ** [internal/helpers] *)
Module Helpers.

Record NamespacedName := mkNN { Namespace : string; Name : string }.

Definition String (n : NamespacedName) : string :=
  if decide (Namespace n = "") then "default/" +:+ Name n
  else Namespace n +:+ "/" +:+ Name n.

Definition GetNamespace (ns : option string) (defaultNs : string) : string :=
  match ns with Some n => n | None => defaultNs end.

Definition BoolFromPtr (b : option bool) : bool :=
  match b with Some b => b | None => false end.

Global Instance NamespacedName_eq_dec : EqDecision NamespacedName.
Proof. solve_decision. Defined.
Global Instance NamespacedName_countable : Countable NamespacedName :=
  inj_countable' (λ n, (Namespace n, Name n)) (λ p, mkNN p.1 p.2)
    ltac:(by intros []).

End Helpers.

Abbreviation NN := Helpers.NamespacedName.

(** ** Kubernetes object metadata ([metav1.ObjectMeta]) *)
Record ObjectMeta := mkMeta {
  Name : string;
  Namespace : string;
  UID : string;
  Generation : Z;
  Annotations : option (gmap string string);
  Labels : option (gmap string string)
}.

(** [m[k]] on a possibly nil map, with the [ok] flag as the option. *)
Definition nilmap_get (m : option (gmap string string)) (k : string) : option string :=
  m ≫= (.!! k).

(** The object's key in the store. *)
Definition nn_of (m : ObjectMeta) : NN :=
  Helpers.mkNN (Namespace m) (Name m).

(** ** [runtime.RawExtension] and the references of [shared_types.go] *)
Record RawExtension := mkRaw { Raw : option string; Object : option string }.
Global Instance RawExtension_eq_dec : EqDecision RawExtension.
Proof. solve_decision. Defined.
(** The bytes handed to an unmarshaller: a nil slice is an empty one. *)
Definition raw_bytes (r : RawExtension) : string := default "" (Raw r).

Record ResourceRef := mkRef { refName : string; refNamespace : option string }.
Global Instance ResourceRef_eq_dec : EqDecision ResourceRef.
Proof. solve_decision. Defined.

(** ** [api/v1alpha1]: the specification shared by VirtualService and its template *)
Record TlsConfig := mkTls { SecretRef : option ResourceRef; AutoDiscovery : option bool }.

Record RBACSpec := mkRBAC {
  Action : string;
  Policies : gmap string RawExtension;
  AdditionalPolicies : list ResourceRef
}.

Record CommonSpec := mkCommon {
  VirtualHostRaw : option RawExtension;
  ListenerRef : option ResourceRef;
  TlsCfg : option TlsConfig;
  AccessLog : option RawExtension;
  AccessLogs : list RawExtension;
  AccessLogConfigRef : option ResourceRef;
  AccessLogConfigRefs : list ResourceRef;
  AdditionalHttpFilters : list ResourceRef;
  AdditionalRoutes : list ResourceRef;
  HTTPFilters : list RawExtension;
  UseRemoteAddress : option bool;
  UpgradeConfigs : option (list RawExtension);
  RBAC : option RBACSpec;
  XFFNumTrustedHops : option Z;
  TracingRef : option ResourceRef;
  TracingRaw : option RawExtension;
  Http2ProtocolOptions : option RawExtension
}.

Definition empty_common : CommonSpec :=
  mkCommon None None None None [] None [] [] [] [] None None None None None None None.

Inductive Modifier :=
| ModifierMerge | ModifierReplace | ModifierDelete | ModifierOther (s : string).
Global Instance Modifier_eq_dec : EqDecision Modifier.
Proof. solve_decision. Defined.
Record TemplateOpts := mkTOpt { Field : string; Mod : Modifier }.
Global Instance TemplateOpts_eq_dec : EqDecision TemplateOpts.
Proof. solve_decision. Defined.

Record VSSpec := mkVSSpec {
  Common : CommonSpec;
  Template : option ResourceRef;
  TemplateOptions : list TemplateOpts;
  ExtraFields : gmap string string
}.

Record VSObjStatus := mkVSObjStatus { stMessage : string; stInvalid : bool }.

Record VirtualService := mkVS {
  vs_meta : ObjectMeta;
  vs_spec : VSSpec;
  vs_status : VSObjStatus
}.

Record ExtraField := mkEF {
  efName : string; efDescription : string; efType : string;
  efRequired : bool; efEnum : list string; efDefault : string
}.
Global Instance ExtraField_eq_dec : EqDecision ExtraField.
Proof. solve_decision. Defined.

Record VirtualServiceTemplate := mkVST {
  vst_meta : ObjectMeta;
  vst_common : CommonSpec;
  vst_extraFields : list ExtraField
}.

Record Listener := mkListener { l_meta : ObjectMeta; l_spec : option RawExtension }.
Record Cluster := mkCluster { c_meta : ObjectMeta; c_spec : option RawExtension }.
Record Route := mkRoute { r_meta : ObjectMeta; r_spec : list RawExtension }.
Record HttpFilter := mkHttpFilter { hf_meta : ObjectMeta; hf_spec : list RawExtension }.
Record AccessLogConfig := mkALC { alc_meta : ObjectMeta; alc_spec : option RawExtension }.
Record Policy := mkPolicy { p_meta : ObjectMeta; p_spec : option RawExtension }.
Record Tracing := mkTracing { t_meta : ObjectMeta; t_spec : option RawExtension }.
(** [corev1.Secret]: only metadata and [Data] are used. *)
Record Secret := mkSecret { s_meta : ObjectMeta; s_data : option (gmap string string) }.

(** Objects stored under their name: the metadata they carry. *)
Class HasMeta (R : Type) := meta : R → ObjectMeta.
Global Instance vs_has_meta : HasMeta VirtualService := vs_meta.
Global Instance vst_has_meta : HasMeta VirtualServiceTemplate := vst_meta.
Global Instance l_has_meta : HasMeta Listener := l_meta.
Global Instance c_has_meta : HasMeta Cluster := c_meta.
Global Instance r_has_meta : HasMeta Route := r_meta.
Global Instance hf_has_meta : HasMeta HttpFilter := hf_meta.
Global Instance alc_has_meta : HasMeta AccessLogConfig := alc_meta.
Global Instance p_has_meta : HasMeta Policy := p_meta.
Global Instance t_has_meta : HasMeta Tracing := t_meta.
Global Instance s_has_meta : HasMeta Secret := s_meta.

(** [obj.Name = ...] and the like: the object with other metadata. *)
Class SetMeta (R : Type) `{!HasMeta R} := {
  with_meta : R → ObjectMeta → R;
  meta_with_meta r m : meta (with_meta r m) = m;
  with_meta_id r : with_meta r (meta r) = r
}.
Ltac solve_set_meta := intros []; reflexivity.
Global Program Instance vs_set_meta : SetMeta VirtualService :=
  {| with_meta r m := mkVS m (vs_spec r) (vs_status r) |}.
Solve All Obligations with solve_set_meta.
Global Program Instance vst_set_meta : SetMeta VirtualServiceTemplate :=
  {| with_meta r m := mkVST m (vst_common r) (vst_extraFields r) |}.
Solve All Obligations with solve_set_meta.
Global Program Instance l_set_meta : SetMeta Listener :=
  {| with_meta r m := mkListener m (l_spec r) |}.
Solve All Obligations with solve_set_meta.
Global Program Instance c_set_meta : SetMeta Cluster :=
  {| with_meta r m := mkCluster m (c_spec r) |}.
Solve All Obligations with solve_set_meta.
Global Program Instance r_set_meta : SetMeta Route :=
  {| with_meta r m := mkRoute m (r_spec r) |}.
Solve All Obligations with solve_set_meta.
Global Program Instance hf_set_meta : SetMeta HttpFilter :=
  {| with_meta r m := mkHttpFilter m (hf_spec r) |}.
Solve All Obligations with solve_set_meta.
Global Program Instance alc_set_meta : SetMeta AccessLogConfig :=
  {| with_meta r m := mkALC m (alc_spec r) |}.
Solve All Obligations with solve_set_meta.
Global Program Instance p_set_meta : SetMeta Policy :=
  {| with_meta r m := mkPolicy m (p_spec r) |}.
Solve All Obligations with solve_set_meta.
Global Program Instance t_set_meta : SetMeta Tracing :=
  {| with_meta r m := mkTracing m (t_spec r) |}.
Solve All Obligations with solve_set_meta.
Global Program Instance s_set_meta : SetMeta Secret :=
  {| with_meta r m := mkSecret m (s_data r) |}.
Solve All Obligations with solve_set_meta.

(** [m.Name = n; m.Namespace = ns], and the other metadata fields the code assigns. *)
Definition rename_meta (m : ObjectMeta) (n ns : string) : ObjectMeta :=
  mkMeta n ns (UID m) (Generation m) (Annotations m) (Labels m).
Definition set_annotations (m : ObjectMeta) (a : option (gmap string string)) : ObjectMeta :=
  mkMeta (Name m) (Namespace m) (UID m) (Generation m) a (Labels m).
Definition set_labels (m : ObjectMeta) (l : option (gmap string string)) : ObjectMeta :=
  mkMeta (Name m) (Namespace m) (UID m) (Generation m) (Annotations m) l.

Definition key {R} `{!HasMeta R} (r : R) : NN := nn_of (meta r).
Definition uid {R} `{!HasMeta R} (r : R) : string := UID (meta r).

(** ** Envoy messages (go-control-plane) *)
Module Envoy.

Record AnyPb := mkAny { TypeUrl : string; Value : string }.
Global Instance AnyPb_eq_dec : EqDecision AnyPb.
Proof. solve_decision. Defined.

Record SocketAddress := mkSA { Address : string; PortValue : Z }.
Global Instance SocketAddress_eq_dec : EqDecision SocketAddress.
Proof. solve_decision. Defined.

(** [core.v3.Address]: the oneof holds a socket address or something else. *)
Record AddressV3 := mkAddr { GetSocketAddress : option SocketAddress }.
Global Instance AddressV3_eq_dec : EqDecision AddressV3.
Proof. solve_decision. Defined.

(** A network filter or listener filter. *)
Record Filter := mkFilter { filterName : string; filterTypedConfig : option AnyPb }.
Global Instance Filter_eq_dec : EqDecision Filter.
Proof. solve_decision. Defined.

Record FilterChain := mkFC {
  fcName : string;
  fcFilters : list Filter;
  fcServerNames : option (list string);
  fcTransportSocket : option AnyPb;
  fcRest : string
}.
Global Instance FilterChain_eq_dec : EqDecision FilterChain.
Proof. solve_decision. Defined.

Record ListenerV3 := mkLV3 {
  lName : string;
  lAddress : option AddressV3;
  lListenerFilters : list Filter;
  lFilterChains : list FilterChain;
  lRest : string
}.
Global Instance ListenerV3_eq_dec : EqDecision ListenerV3.
Proof. solve_decision. Defined.

Record ClusterV3 := mkCV3 { cName : string; cRest : string }.
Global Instance ClusterV3_eq_dec : EqDecision ClusterV3.
Proof. solve_decision. Defined.

Inductive PathSpecifier :=
| Prefix (p : string) | Path (p : string) | OtherPath (rest : string).
Global Instance PathSpecifier_eq_dec : EqDecision PathSpecifier.
Proof. solve_decision. Defined.

Inductive ClusterSpecifier :=
| SpecCluster (c : string)
| SpecWeighted (cs : option (list string))
| SpecOther (rest : string).
Global Instance ClusterSpecifier_eq_dec : EqDecision ClusterSpecifier.
Proof. solve_decision. Defined.

Inductive RouteActionOneof :=
| ActRoute (spec : option ClusterSpecifier) (rest : string)
| ActDirectResponse (status : Z) (rest : string)
| ActRedirect (rest : string)
| ActOther (rest : string).
Global Instance RouteActionOneof_eq_dec : EqDecision RouteActionOneof.
Proof. solve_decision. Defined.

Record RouteV3 := mkRV3 {
  rMatch : option PathSpecifier;
  rAction : option RouteActionOneof;
  rRest : string
}.
Global Instance RouteV3_eq_dec : EqDecision RouteV3.
Proof. solve_decision. Defined.

Record VirtualHost := mkVH {
  vhName : string; vhDomains : list string; vhRoutes : list RouteV3; vhRest : string
}.
Global Instance VirtualHost_eq_dec : EqDecision VirtualHost.
Proof. solve_decision. Defined.

Record RouteConfiguration := mkRC { rcName : string; rcVirtualHosts : list VirtualHost }.
Global Instance RouteConfiguration_eq_dec : EqDecision RouteConfiguration.
Proof. solve_decision. Defined.

(** [tlsv3.Secret] with an inline certificate and key. *)
Record SecretV3 := mkSV3 { sName : string; sCertificateChain : string; sPrivateKey : string }.
Global Instance SecretV3_eq_dec : EqDecision SecretV3.
Proof. solve_decision. Defined.

(** [hcmv3.HttpFilter]. *)
Record HttpFilterV3 := mkHF3 { hfName : string; hfTypedConfig : option AnyPb; hfRest : string }.
Global Instance HttpFilterV3_eq_dec : EqDecision HttpFilterV3.
Proof. solve_decision. Defined.

(** [accesslogv3.AccessLog], [HttpConnectionManager_Tracing],
    [HttpConnectionManager_UpgradeConfig]. *)
Record AccessLogV3 := mkAL3 { alName : string; alTypedConfig : option AnyPb; alRest : string }.
Global Instance AccessLogV3_eq_dec : EqDecision AccessLogV3.
Proof. solve_decision. Defined.
Record TracingV3 := mkTR3 { trContent : string }.
Global Instance TracingV3_eq_dec : EqDecision TracingV3.
Proof. solve_decision. Defined.
Record UpgradeConfigV3 := mkUC3 { ucContent : string }.
Global Instance UpgradeConfigV3_eq_dec : EqDecision UpgradeConfigV3.
Proof. solve_decision. Defined.
(** [corev3.Http2ProtocolOptions]; a wrapped integer may be absent. *)
Record Http2OptionsV3 := mkH2 {
  MaxConcurrentStreams : option Z;
  InitialStreamWindowSize : option Z;
  InitialConnectionWindowSize : option Z;
  h2Rest : string
}.
Global Instance Http2OptionsV3_eq_dec : EqDecision Http2OptionsV3.
Proof. solve_decision. Defined.

(** [hcmv3.HttpConnectionManager] with routes from RDS over ADS. *)
Record HCM := mkHCM {
  hcmStatPrefix : string;
  hcmRouteConfigName : string;
  hcmUseRemoteAddress : bool;
  hcmUpgradeConfigs : list UpgradeConfigV3;
  hcmHttpFilters : list HttpFilterV3;
  hcmHttp2ProtocolOptions : option Http2OptionsV3;
  hcmTracing : option TracingV3;
  hcmXffNumTrustedHops : Z;
  hcmAccessLog : list AccessLogV3;
  hcmRest : string
}.
Global Instance HCM_eq_dec : EqDecision HCM.
Proof. solve_decision. Defined.

(** [tlsv3.DownstreamTlsContext]: one SDS secret over ADS, and the protocols. *)
Record DownstreamTlsContext := mkDTC { sdsSecretName : string; AlpnProtocols : list string }.
Global Instance DownstreamTlsContext_eq_dec : EqDecision DownstreamTlsContext.
Proof. solve_decision. Defined.

(** [types.Resource]: the messages of the four xDS types the controller serves. *)
Inductive Resource :=
| ResListener (l : ListenerV3)
| ResCluster (c : ClusterV3)
| ResRoute (r : RouteConfiguration)
| ResSecret (s : SecretV3).
Global Instance Resource_eq_dec : EqDecision Resource.
Proof. solve_decision. Defined.

(** [cache.GetResourceName]: the [name] field. *)
Definition GetResourceName (r : Resource) : string :=
  match r with
  | ResListener l => lName l
  | ResCluster c => cName c
  | ResRoute r => rcName r
  | ResSecret s => sName s
  end.

Inductive ResType := ListenerType | ClusterType | RouteType | SecretType.
Global Instance ResType_eq_dec : EqDecision ResType.
Proof. solve_decision. Defined.
Global Instance ResType_countable : Countable ResType :=
  inj_countable
    (λ t, match t with ListenerType => 0 | ClusterType => 1 | RouteType => 2 | SecretType => 3 end)
    (λ n, match n with 0 => Some ListenerType | 1 => Some ClusterType | 2 => Some RouteType
          | 3 => Some SecretType | _ => None end)
    ltac:(by intros []).

End Envoy.

(** ** Protobuf messages as the controller uses them

    [protojson.Unmarshal] and the generated [ValidateAll] methods are code of
    other modules: a message type comes with the two functions. *)
Class ProtoMessage (M : Type) := {
  pb_unmarshal : string → result M;
  pb_validate : M → option error
}.

(** [fmt.Sprintf("%x", sha256.Sum256(...))] of the bytes written to a hasher. *)
Class Sha256 := sha256_hex : string → string.

(** [m.ValidateAll()] as a result. *)
Definition pb_check {M} `{!ProtoMessage M} (m : M) : result M :=
  match pb_validate m with None => Ok m | Some e => Err e end.

Lemma pb_check_Ok {M} `{!ProtoMessage M} (m m' : M) : pb_check m = Ok m' ↔ m' = m ∧ pb_validate m = None.
Proof. unfold pb_check. destruct (pb_validate m); split; naive_solver. Qed.
