(* ===== verification/Merge.v ===== *)
(** * JSON values and [internal/merge]

    [merge.JSONRawMessages] merges the JSON of a VirtualService over the JSON of
    its template.  A value read by [encoding/json] into [any] is one of the
    constructors of [json]; a [map[string]any] is a [gmap].  A [float64] is
    carried by its bit pattern: two decoded numbers have the same JSON text
    exactly when they are the same [float64], and the same holds structurally
    for arrays and (key-sorted) objects, so that comparing [json.Marshal] texts,
    as [mergeArrays] does, is comparing values.

    Go iterates over maps in an unspecified order.  The folds below fix one
    order; [mergeMaps_lookup] and [delete_all_perm] show that the result does
    not depend on it. *)

From S2P Require Import Prelude GoStrings.

Set Warnings "-register-all".

Module Merge.

Inductive json : Type :=
| JNull
| JBool (b : bool)
| JNum (bits : Z)
| JStr (s : string)
| JArr (l : list json)
| JObj (m : gmap string json).

Abbreviation jmap := (gmap string json).

(** The number of constructors of a value, for inductions on nested values. *)
Fixpoint jsize (j : json) : nat :=
  match j with
  | JArr l => S (list_sum (jsize <$> l))
  | JObj m => S (map_fold (λ _ v n, jsize v + n) 0 m)
  | _ => 1
  end.

Global Instance json_eq_dec : EqDecision json.
Proof.
  refine (fix go (x y : json) : Decision (x = y) :=
    match x, y with
    | JNull, JNull => left _
    | JBool a, JBool b => cast_if (decide (a = b))
    | JNum a, JNum b => cast_if (decide (a = b))
    | JStr a, JStr b => cast_if (decide (a = b))
    | JArr a, JArr b => cast_if (@decide (a = b) (@list_eq_dec json go a b))
    | JObj a, JObj b => cast_if (@decide (a = b) (@gmap_eq_dec string _ _ json go a b))
    | _, _ => right _
    end); clear go; abstract congruence.
Defined.

Inductive OperationType := OperationMerge | OperationReplace | OperationDelete.

Record Opt := mkOpt { Path : string; Operation : OperationType }.

Record parsedOpts := mkParsed { opt_replace : gset string; opt_delete : gset string }.

Definition parseOpt (o : parsedOpts) (opt : Opt) : parsedOpts :=
  match Operation opt with
  | OperationReplace => mkParsed ({[Path opt]} ∪ opt_replace o) (opt_delete o)
  | OperationDelete => mkParsed (opt_replace o) ({[Path opt]} ∪ opt_delete o)
  | OperationMerge => o
  end.

Definition parseOpts (opts : list Opt) : parsedOpts :=
  foldl parseOpt (mkParsed ∅ ∅) opts.

Definition buildPath (currentPath newSegment : string) : string :=
  if decide (currentPath = "") then newSegment
  else currentPath +:+ "." +:+ newSegment.

Fixpoint deleteRecursive (m : jmap) (keys : list string) : jmap :=
  match keys with
  | [] => m
  | [k] => delete k m
  | k :: rest =>
      match m !! k with
      | Some (JObj nextMap) => <[k := JObj (deleteRecursive nextMap rest)]> m
      | _ => m
      end
  end.

Definition deleteKey (m : jmap) (key : string) : jmap :=
  deleteRecursive m (GoStrings.Split GoStrings.dot key).

(** [mergeArrays]: decoded arrays are never nil, so the two nil tests of the
    source do not fire; every element marshals. *)
Definition mergeArrays (a b : list json) (opts : parsedOpts) (path : string) : list json :=
  if decide (path ∈ opt_replace opts) then b
  else a ++ filter (λ itemB, itemB ∉ a) b.

(** The loop [for key := range opts.delete { deleteKey(result, key) }] in one
    order of the keys. *)
Definition delete_all (result : jmap) (keys : list string) : jmap :=
  foldl deleteKey result keys.

(** [mergeMaps(a, b, opts, currentPath)], with the second map given as the
    value that holds it. *)
Fixpoint mergeMaps (a : jmap) (b : json) (opts : parsedOpts) (currentPath : string) : jmap :=
  match b with
  | JObj bm =>
      let result :=
        map_fold (λ k v result,
          let keyPath := buildPath currentPath k in
          match result !! k with
          | Some existingValue =>
              match v with
              | JObj _ =>
                  match existingValue with
                  | JObj existingMap =>
                      if decide (keyPath ∈ opt_replace opts) then <[k := v]> result
                      else <[k := JObj (mergeMaps existingMap v opts keyPath)]> result
                  | _ => <[k := v]> result
                  end
              | JArr newVal =>
                  match existingValue with
                  | JArr existingArray =>
                      <[k := JArr (mergeArrays existingArray newVal opts keyPath)]> result
                  | _ => <[k := v]> result
                  end
              | _ => <[k := v]> result
              end
          | None => <[k := v]> result
          end) a bm in
      delete_all result (elements (opt_delete opts))
  | _ => a
  end.

(** [parseJSON] after decoding: a document that is not an object (or does not
    parse) gives an empty map; [null] leaves the nil map. *)
Definition parseJSON (data : option json) : jmap :=
  match data with Some (JObj m) => m | _ => ∅ end.

(** [JSONRawMessages] on decoded documents ([None]: the text does not parse);
    the result is the document that [json.Marshal] prints. *)
Definition JSONRawMessages (a b : option json) (opts : list Opt) : json :=
  JObj (mergeMaps (parseJSON a) (JObj (parseJSON b)) (parseOpts opts) "").

(** ** Reading a value at a path of keys *)
Fixpoint lookup_path (m : jmap) (keys : list string) : option json :=
  match keys with
  | [] => Some (JObj m)
  | [k] => m !! k
  | k :: rest =>
      match m !! k with
      | Some (JObj next) => lookup_path next rest
      | _ => None
      end
  end.

(** What the loop of [mergeMaps] stores for a key present on both sides. *)
Definition merge_value (opts : parsedOpts) (keyPath : string) (va vb : json) : json :=
  match vb, va with
  | JObj _, JObj am =>
      if decide (keyPath ∈ opt_replace opts) then vb
      else JObj (mergeMaps am vb opts keyPath)
  | JArr lb, JArr la => JArr (mergeArrays la lb opts keyPath)
  | _, _ => vb
  end.

(** One iteration of the loop. *)
Definition merge_step (opts : parsedOpts) (currentPath k : string) (v : json) (result : jmap) : jmap :=
  <[k := from_option (λ va, merge_value opts (buildPath currentPath k) va v) v (result !! k)]> result.

(** ** Inductions on values *)
Lemma jsize_lookup m k v : m !! k = Some v → jsize v < jsize (JObj m).
Proof.
  change (jsize (JObj m)) with (S (map_fold (λ _ v n, jsize v + n) 0 m)).
  cut (m !! k = Some v → jsize v ≤ map_fold (λ _ v n, jsize v + n) 0 m).
  { intros Hle Hk. specialize (Hle Hk). lia. }
  apply (map_fold_weak_ind (λ r (m' : jmap), m' !! k = Some v → jsize v ≤ r)).
  - by rewrite lookup_empty.
  - intros i x m' r Hi IH. destruct (decide (i = k)) as [->|].
    + rewrite lookup_insert_eq. intros [= ->]. lia.
    + rewrite lookup_insert_ne by done. intros Hm. specialize (IH Hm). lia.
Qed.

(** ** The merge loop, key by key *)
Lemma mergeMaps_JObj a bm opts path :
  mergeMaps a (JObj bm) opts path =
  delete_all (map_fold (merge_step opts path) a bm) (elements (opt_delete opts)).
Proof.
  cbn. f_equal. apply map_fold_ext'. intros k v r. unfold merge_step, merge_value.
  by destruct (r !! k) as [va|]; destruct v; try destruct va; cbn; try case_decide.
Qed.

Definition merge_lookup (opts : parsedOpts) (path : string) (a bm : jmap) (k : string) : option json :=
  match bm !! k with
  | None => a !! k
  | Some vb => Some (from_option (λ va, merge_value opts (buildPath path k) va vb) vb (a !! k))
  end.

(** The loop, in whatever order it visits the keys, stores [merge_lookup]. *)
Lemma merge_fold_lookup opts path a bm k :
  map_fold (merge_step opts path) a bm !! k = merge_lookup opts path a bm k.
Proof.
  unfold merge_lookup. revert k.
  apply (map_fold_weak_ind (λ (r : jmap) (m' : jmap), ∀ k, r !! k =
    match m' !! k with
    | None => a !! k
    | Some vb => Some (from_option (λ va, merge_value opts (buildPath path k) va vb) vb (a !! k))
    end)).
  - intros k. by rewrite lookup_empty.
  - intros i x m' r Hi IH k. unfold merge_step. destruct (decide (i = k)) as [->|].
    + rewrite !lookup_insert_eq. by rewrite IH, Hi.
    + by rewrite !lookup_insert_ne.
Qed.

(** ** Deletion of paths *)
#[local] Arguments deleteRecursive : simpl never.

Lemma deleteRecursive_lookup m k rest j :
  deleteRecursive m (k :: rest) !! j =
  if decide (j = k) then
    match rest with
    | [] => None
    | _ => (λ v, match v with JObj nm => JObj (deleteRecursive nm rest) | _ => v end) <$> m !! j
    end
  else m !! j.
Proof.
  unfold deleteRecursive; fold deleteRecursive.
  destruct rest as [|r rest]; cbn.
  - case_decide; [subst; by rewrite lookup_delete_eq|by rewrite lookup_delete_ne].
  - case_decide as Hj; [subst j|].
    + destruct (m !! k) as [v|] eqn:Hk; cbn.
      * destruct v; cbn; try (by rewrite Hk). by rewrite lookup_insert_eq.
      * by rewrite Hk.
    + destruct (m !! k) as [[]|]; try done. by rewrite lookup_insert_ne.
Qed.

Lemma deleteRecursive_comm p q m :
  deleteRecursive (deleteRecursive m p) q = deleteRecursive (deleteRecursive m q) p.
Proof.
  revert q m. induction p as [|k p IH]; intros [|k' q] m; try done.
  apply map_eq. intros j. rewrite !deleteRecursive_lookup.
  case_decide; case_decide; try done.
  destruct p as [|p0 p], q as [|q0 q]; try done.
  destruct (m !! j) as [[]|]; try done. cbn. do 2 f_equal. apply IH.
Qed.

Lemma delete_all_perm m l1 l2 : l1 ≡ₚ l2 → delete_all m l1 = delete_all m l2.
Proof.
  intros Hp. unfold delete_all. revert m. induction Hp; intros m; cbn; auto.
  - unfold deleteKey. by rewrite deleteRecursive_comm.
  - by rewrite IHHp1.
Qed.

(** A deleted path reads as absent, and stays absent under further deletions. *)
Lemma lookup_path_deleted m p : p ≠ [] → lookup_path (deleteRecursive m p) p = None.
Proof.
  revert m. induction p as [|k p IH]; intros m Hp; [done|].
  destruct p as [|k' p]; cbn [lookup_path]; rewrite deleteRecursive_lookup, decide_True by done;
    [done|].
  destruct (m !! k) as [[]|]; try done. cbn [fmap option_fmap option_map]. by apply IH.
Qed.

Lemma lookup_path_delete_mono m p q :
  lookup_path m p = None → lookup_path (deleteRecursive m q) p = None.
Proof.
  revert m q. induction p as [|k p IH]; intros m [|k' q] Hm; try done.
  destruct p as [|k1 p]; cbn [lookup_path] in *; rewrite deleteRecursive_lookup.
  - case_decide; [|done]. by rewrite Hm; destruct q.
  - case_decide; [|done]. destruct q as [|q0 q]; [done|].
    destruct (m !! k) as [[]|]; try done. by apply IH.
Qed.

Lemma lookup_path_delete_all m ks p :
  lookup_path m p = None → lookup_path (delete_all m ks) p = None.
Proof.
  unfold delete_all. revert m. induction ks as [|k ks IH]; intros m Hm; cbn; [done|].
  apply IH. by apply lookup_path_delete_mono.
Qed.

Lemma lookup_path_delete_all_in m ks k :
  k ∈ ks → lookup_path (delete_all m ks) (GoStrings.Split GoStrings.dot k) = None.
Proof.
  intros [l1 [l2 ->]]%list_elem_of_split. unfold delete_all. rewrite foldl_app. cbn.
  apply lookup_path_delete_all, lookup_path_deleted, GoStrings.Split_not_nil.
Qed.

Lemma parseOpts_from o opts p :
  (p ∈ opt_delete (foldl parseOpt o opts) ↔ p ∈ opt_delete o ∨ mkOpt p OperationDelete ∈ opts) ∧
  (p ∈ opt_replace (foldl parseOpt o opts) ↔ p ∈ opt_replace o ∨ mkOpt p OperationReplace ∈ opts).
Proof.
  revert o. induction opts as [|[q op] opts IH]; intros o; cbn [foldl]; [set_solver|].
  destruct (IH (parseOpt o (mkOpt q op))) as [-> ->]. rewrite !elem_of_cons.
  destruct op; cbn; set_solver.
Qed.

Lemma parseOpts_delete opts p :
  p ∈ opt_delete (parseOpts opts) ↔ mkOpt p OperationDelete ∈ opts.
Proof. unfold parseOpts. rewrite (proj1 (parseOpts_from _ opts p)). cbn. set_solver. Qed.

Lemma parseOpts_replace opts p :
  p ∈ opt_replace (parseOpts opts) ↔ mkOpt p OperationReplace ∈ opts.
Proof. unfold parseOpts. rewrite (proj2 (parseOpts_from _ opts p)). cbn. set_solver. Qed.

Lemma delete_all_nil m : delete_all m [] = m.
Proof. reflexivity. Qed.

Lemma mergeMaps_no_delete a bm opts path k :
  opt_delete opts = ∅ →
  mergeMaps a (JObj bm) opts path !! k = merge_lookup opts path a bm k.
Proof.
  intros Hd. rewrite mergeMaps_JObj, Hd, elements_empty, delete_all_nil.
  apply merge_fold_lookup.
Qed.

Lemma buildPath_root k : buildPath "" k = k.
Proof. reflexivity. Qed.

Lemma filter_not_in_self (l : list json) : filter (λ x, x ∉ l) l = [].
Proof.
  destruct (filter (λ x, x ∉ l) l) as [|x xs] eqn:He; [done|].
  assert (x ∈ filter (λ x, x ∉ l) l) as Hx by (rewrite He; left).
  by apply list_elem_of_filter in Hx as [].
Qed.

(** ** Properties of the merge *)

(** A path as the options write it: its keys joined by dots, without leading empty ones. *)
Fixpoint dotted (p : list string) : string :=
  match p with "" :: p => dotted p | _ => String.concat "." p end.

(** The merged value at a path, for the values of the template and of the service there:
    a value that one side lacks is that of the other; two objects are merged field by field and
    two lists by appending what the template's list does not contain, unless the path is
    marked [replace]; the service's value is taken in all other cases. *)
Inductive merges (opts : list Opt) : list string → option json → option json → option json → Prop :=
| merges_template p va : merges opts p va None va
| merges_service p vb : merges opts p None (Some vb) (Some vb)
| merges_replace p va vb :
    mkOpt (dotted p) OperationReplace ∈ opts → merges opts p (Some va) (Some vb) (Some vb)
| merges_objects p ma mb m :
    mkOpt (dotted p) OperationReplace ∉ opts →
    (∀ k, merges opts (p ++ [k]) (ma !! k) (mb !! k) (m !! k)) →
    merges opts p (Some (JObj ma)) (Some (JObj mb)) (Some (JObj m))
| merges_lists p la lb :
    mkOpt (dotted p) OperationReplace ∉ opts →
    merges opts p (Some (JArr la)) (Some (JArr lb)) (Some (JArr (la ++ filter (λ x, x ∉ la) lb)))
| merges_other p va vb :
    (∀ ma mb, ¬ (va = JObj ma ∧ vb = JObj mb)) → (∀ la lb, ¬ (va = JArr la ∧ vb = JArr lb)) →
    merges opts p (Some va) (Some vb) (Some vb).

Lemma string_app_assoc (a b c : string) : (a +:+ b) +:+ c = a +:+ (b +:+ c).
Proof. induction a as [|x a IH]; [done|]. exact (f_equal (String x) IH). Qed.
Lemma concat_snoc x p k : String.concat "." ((x :: p) ++ [k]) = String.concat "." (x :: p) +:+ "." +:+ k.
Proof.
  revert x. induction p as [|y p IH]; intros x; [done|].
  change (x +:+ "." +:+ String.concat "." ((y :: p) ++ [k]) = (x +:+ "." +:+ String.concat "." (y :: p)) +:+ "." +:+ k).
  rewrite IH. by rewrite !string_app_assoc.
Qed.
Lemma dotted_snoc p k : dotted (p ++ [k]) = buildPath (dotted p) k.
Proof.
  induction p as [|x p IH]; [by destruct k|]. destruct x as [|c x]; [exact IH|].
  change (String.concat "." ((String c x :: p) ++ [k]) = buildPath (String.concat "." (String c x :: p)) k).
  rewrite concat_snoc. unfold buildPath. rewrite decide_False; [done|]. by destruct p.
Qed.
(** What the loop stores follows the rules. *)
Lemma merge_value_merges opts p va vb : opt_delete (parseOpts opts) = ∅ →
  merges opts p (Some va) (Some vb) (Some (merge_value (parseOpts opts) (dotted p) va vb)).
Proof.
  intros Hd. revert p va. remember (jsize vb) as n eqn:Hn. revert vb Hn.
  induction (Nat.lt_wf_0 n) as [n _ IH]. intros vb -> p va.
  destruct vb as [| | | |lb|mb], va as [| | | |la|ma]; cbn [merge_value];
    try (apply merges_other; intros ?? [??]; congruence).
  - unfold mergeArrays. case_decide as Hr; rewrite parseOpts_replace in Hr; [by apply merges_replace|by apply merges_lists].
  - case_decide as Hr; rewrite parseOpts_replace in Hr; [by apply merges_replace|]. apply merges_objects; [done|].
    intros k. rewrite mergeMaps_no_delete by done. unfold merge_lookup.
    destruct (mb !! k) as [v|] eqn:Hk; [|apply merges_template].
    destruct (ma !! k) as [w|]; cbn; [|apply merges_service]. rewrite <-dotted_snoc.
    eapply IH; [|done]. by eapply jsize_lookup.
Qed.

(** C38. The merge of a template and a service follows the template options.  Without [delete]
    options every field of the result is the one that the rules of [merges] give: a field
    of one side only is kept, two objects are merged recursively, two lists are joined by
    appending the elements that the template's list lacks, a field whose path is
    marked [replace] (an object, a list or anything else) is the service's, and otherwise the
    service's value is taken.  A field that a [delete] option names, by the keys of
    its path, is not in the result, whatever the other options are. *)
Theorem merge_follows_options (a b : jmap) (opts : list Opt) :
  ∃ m, JSONRawMessages (Some (JObj a)) (Some (JObj b)) opts = JObj m ∧
  ((∀ p, mkOpt p OperationDelete ∉ opts) → ∀ k, merges opts [k] (a !! k) (b !! k) (m !! k)) ∧
  ∀ p, mkOpt p OperationDelete ∈ opts → lookup_path m (GoStrings.Split GoStrings.dot p) = None.
Proof.
  eexists. split; [reflexivity|]. split.
  - intros Hd k. assert (opt_delete (parseOpts opts) = ∅) as He.
    { apply set_eq. intros p. rewrite parseOpts_delete. set_solver. }
    rewrite mergeMaps_no_delete by done. unfold merge_lookup. cbn [parseJSON].
    destruct (b !! k) as [vb|]; [|apply merges_template].
    destruct (a !! k) as [va|]; cbn; [|apply merges_service].
    assert (buildPath "" k = dotted [k]) as -> by (by destruct k). by apply merge_value_merges.
  - intros p Hp. rewrite mergeMaps_JObj. apply lookup_path_delete_all_in.
    by rewrite elem_of_elements, parseOpts_delete.
Qed.

Example merge_follows_options_example :
  JSONRawMessages (Some (JObj {["l" := JArr [JNum 1]; "o" := JObj {["x" := JNum 1; "l" := JArr [JNum 1]]}]}))
    (Some (JObj {["l" := JArr [JNum 2; JNum 1]; "o" := JObj {["l" := JArr [JNum 2]]}]})) [mkOpt "o.l" OperationReplace]
  = JObj {["l" := JArr [JNum 1; JNum 2]; "o" := JObj {["x" := JNum 1; "l" := JArr [JNum 2]]}]}.
Proof. by vm_compute. Qed.

(** A [delete] option removes the field at its path from the merged document,
    whatever the template, the service and the other options are. *)
Theorem delete_option_removes (a b : option json) (opts : list Opt) (p : string) :
  mkOpt p OperationDelete ∈ opts →
  ∃ m, JSONRawMessages a b opts = JObj m
       ∧ lookup_path m (GoStrings.Split GoStrings.dot p) = None.
Proof.
  intros Hp. eexists; split; [reflexivity|].
  rewrite mergeMaps_JObj. apply lookup_path_delete_all_in.
  by rewrite elem_of_elements, parseOpts_delete.
Qed.

Lemma delete_option_removes_witness :
  ∃ m, JSONRawMessages (Some (JObj {["r" := JObj {["x" := JNum 1]}]})) None
         [mkOpt "r.x" OperationDelete] = JObj m ∧ lookup_path m ["r"; "x"] = None.
Proof.
  apply (delete_option_removes _ _ [mkOpt "r.x" OperationDelete] "r.x"). left.
Defined.

(** A [replace] option on a top-level field makes the service's value of that
    field the merged value, whatever the template holds there. *)
Theorem replace_option_takes_service (a : option json) (bm : jmap) (opts : list Opt)
    (k : string) (vb : json) :
  mkOpt k OperationReplace ∈ opts → (∀ p, mkOpt p OperationDelete ∉ opts) →
  bm !! k = Some vb →
  ∃ m, JSONRawMessages a (Some (JObj bm)) opts = JObj m ∧ m !! k = Some vb.
Proof.
  intros Hr Hd Hb. eexists; split; [reflexivity|].
  rewrite mergeMaps_no_delete.
  - unfold merge_lookup. cbn [parseJSON]. rewrite Hb, buildPath_root. f_equal.
    assert (k ∈ opt_replace (parseOpts opts)) by (by rewrite parseOpts_replace).
    destruct (parseJSON a !! k) as [va|]; [|done]. cbn. unfold merge_value, mergeArrays.
    by destruct vb, va; rewrite ?decide_True.
  - apply set_eq. intros p. rewrite parseOpts_delete. set_solver.
Qed.

Lemma replace_option_takes_service_witness :
  ∃ m, JSONRawMessages (Some (JObj {["l" := JArr [JNum 1]]}))
         (Some (JObj {["l" := JArr [JNum 2]]})) [mkOpt "l" OperationReplace] = JObj m
       ∧ m !! "l" = Some (JArr [JNum 2]).
Proof.
  apply (replace_option_takes_service _ _ [mkOpt "l" OperationReplace] "l").
  - left.
  - intros p. rewrite list_elem_of_singleton. discriminate.
  - reflexivity.
Defined.

(** Merging arrays keeps the template's array as a prefix and appends, in
    order, exactly those elements of the service's array that the template's
    array does not contain. *)
Theorem mergeArrays_spec (a b : list json) (opts : parsedOpts) (path : string) :
  path ∉ opt_replace opts →
  ∃ new, mergeArrays a b opts path = a ++ new
    ∧ new `sublist_of` b
    ∧ ∀ x, x ∈ new ↔ x ∈ b ∧ x ∉ a.
Proof.
  intros Hp. unfold mergeArrays. rewrite decide_False by done.
  exists (filter (λ x, x ∉ a) b). split; [done|]. split.
  - apply sublist_filter.
  - intros x. rewrite list_elem_of_filter. tauto.
Qed.

Lemma mergeArrays_spec_witness :
  ∃ new, mergeArrays [JNum 1] [JNum 2; JNum 1] (mkParsed ∅ ∅) "l" = [JNum 1] ++ new
    ∧ new `sublist_of` [JNum 2; JNum 1]
    ∧ ∀ x, x ∈ new ↔ x ∈ [JNum 2; JNum 1] ∧ x ∉ [JNum 1].
Proof. apply (mergeArrays_spec [JNum 1]). set_solver. Defined.

(** Merging a document with itself changes nothing (at any depth, when no
    field is deleted). *)
Theorem merge_idempotent (a : jmap) (opts : parsedOpts) (path : string) :
  opt_delete opts = ∅ → mergeMaps a (JObj a) opts path = a.
Proof.
  intros Hd. revert path. remember (jsize (JObj a)) as n eqn:Hn.
  revert a Hn. induction (Nat.lt_wf_0 n) as [n _ IH]. intros a -> path.
  apply map_eq. intros k. rewrite mergeMaps_no_delete by done. unfold merge_lookup.
  destruct (a !! k) as [v|] eqn:Hk; [|done]. cbn. f_equal.
  destruct v as [| | | |l|m]; try done; cbn.
  - unfold mergeArrays. case_decide; [done|].
    by rewrite filter_not_in_self, app_nil_r.
  - case_decide; [done|]. f_equal. eapply IH; [|done]. by eapply jsize_lookup.
Qed.

Lemma merge_idempotent_witness :
  mergeMaps {["a" := JArr [JNum 1; JNum 1]]} (JObj {["a" := JArr [JNum 1; JNum 1]]})
    (mkParsed {["x"]} ∅) "" = {["a" := JArr [JNum 1; JNum 1]]}.
Proof. apply (merge_idempotent {["a" := JArr [JNum 1; JNum 1]]}). reflexivity. Defined.

(** A [delete] option for a plain field name is not confined to the top level
    its path names: the field of that name is also removed from every object
    that is merged one level down, although its path there is different. *)
Theorem delete_option_hits_nested (am bm : jmap) (opts : list Opt) (k f : string) (ma mb : jmap) :
  mkOpt f OperationDelete ∈ opts → GoStrings.free_of GoStrings.dot f →
  mkOpt k OperationReplace ∉ opts →
  am !! k = Some (JObj ma) → bm !! k = Some (JObj mb) →
  ∃ m, JSONRawMessages (Some (JObj am)) (Some (JObj bm)) opts = JObj m
       ∧ lookup_path m [k; f] = None.
Proof.
  intros Hdel Hf Hr Ha Hb. eexists; split; [reflexivity|].
  rewrite mergeMaps_JObj. apply lookup_path_delete_all. cbn [lookup_path parseJSON].
  rewrite merge_fold_lookup. unfold merge_lookup. rewrite Ha, Hb, buildPath_root. cbn.
  rewrite decide_False by (by rewrite parseOpts_replace).
  change (lookup_path (mergeMaps ma (JObj mb) (parseOpts opts) k) [f] = None).
  rewrite mergeMaps_JObj. rewrite <-(GoStrings.Split_free_id _ _ Hf).
  apply lookup_path_delete_all_in. by rewrite elem_of_elements, parseOpts_delete.
Qed.

Lemma delete_option_hits_nested_witness :
  ∃ m, JSONRawMessages
         (Some (JObj {["virtualHost" := JObj {["name" := JStr "tmpl"]}]}))
         (Some (JObj {["virtualHost" := JObj {["name" := JStr "svc"]}]}))
         [mkOpt "name" OperationDelete] = JObj m
       ∧ lookup_path m ["virtualHost"; "name"] = None.
Proof.
  apply (delete_option_hits_nested _ _ [mkOpt "name" OperationDelete] "virtualHost" "name"
           {["name" := JStr "tmpl"]} {["name" := JStr "svc"]}).
  - left.
  - reflexivity.
  - rewrite list_elem_of_singleton. discriminate.
  - reflexivity.
  - reflexivity.
Defined.

End Merge.
