(* ===== verification/GoHeap.v ===== *)
(** * Go memory and deep copies of it

    The memory behind Go values: structs hold their fields, pointers, slices and
    maps refer to cells of a heap.  A Go type ([ty]) says how the value of a variable
    is read: [denote] is the data behind it with the addresses forgotten, [reach] the
    cells it is made of.  The statements of which controller-gen composes a
    [DeepCopyInto] are operations on this memory; [Copies] says that a function is a
    deep copy and [Stores] that a statement on a field or an element is one, and the
    lemmas give both for every statement and loop. *)
From S2P Require Import Prelude.

Module GoHeap.

(** Cells are allocated one by one; [fresh] picks an address not in use. *)
Abbreviation loc := positive.

(** Values without references: strings, numbers and booleans. *)
Inductive kind := KString | KNum | KBool.
Inductive atom := AStr (s : string) | ANum (n : Z) | ABool (b : bool).

(** The value of a variable.  A slice is the address of its array with the index of
    its first element and its length; [None] is nil. *)
Inductive val :=
| VAtom (a : atom)
| VStruct (fields : gmap string val)
| VPtr (p : option loc)
| VSlice (s : option (loc * nat * nat))
| VMap (m : option loc).

(** The cells: a variable, an array and a map with string keys. *)
Inductive obj := OVal (v : val) | OArr (vs : list val) | OMap (m : gmap string val).

Abbreviation heap := (gmap loc obj).

(** Types; none of the types of the API is recursive. *)
Inductive ty :=
| TAtom (k : kind)
| TStruct (fields : list (string * ty))
| TPtr (t : ty)
| TSlice (t : ty)
| TMap (t : ty).

Definition zero_atom (k : kind) : atom :=
  match k with KString => AStr "" | KNum => ANum 0 | KBool => ABool false end.

(** The zero value of a type, which [new(T)], [make] and [var] leave. *)
Fixpoint zero (T : ty) : val :=
  match T with
  | TAtom k => VAtom (zero_atom k)
  | TStruct fs => VStruct (list_to_map ((λ '(n, T'), (n, zero T')) <$> fs))
  | TPtr _ => VPtr None
  | TSlice _ => VSlice None
  | TMap _ => VMap None
  end.

Definition kind_of (a : atom) : kind :=
  match a with AStr _ => KString | ANum _ => KNum | ABool _ => KBool end.
Global Instance kind_eq_dec : EqDecision kind.
Proof. solve_decision. Defined.

(** [x == nil] *)
Definition is_nil (v : val) : bool :=
  match v with VPtr None | VSlice None | VMap None => true | _ => false end.

(** A type whose values hold no references. *)
Fixpoint flat (T : ty) : bool :=
  match T with
  | TAtom _ => true
  | TStruct fs => forallb (λ '(n, T'), flat T') fs
  | TPtr _ | TSlice _ | TMap _ => false
  end.

(** The elements of a slice: [None] when the array does not have them. *)
Definition slice_of (h : heap) (s : loc * nat * nat) : option (list val) :=
  match h !! s.1.1 with
  | Some (OArr vs) =>
      if decide (s.1.2 + s.2 ≤ length vs) then Some (take s.2 (drop s.1.2 vs)) else None
  | _ => None
  end.

(** What a variable holds, without addresses. *)
Inductive tree :=
| NBad
| NNil
| NAtom (a : atom)
| NStruct (fields : list (string * tree))
| NPtr (t : tree)
| NSlice (ts : list tree)
| NMap (m : gmap string tree).

Fixpoint denote (h : heap) (T : ty) (v : val) : tree :=
  match T, v with
  | TAtom _, VAtom a => NAtom a
  | TStruct fs, VStruct vs =>
      NStruct ((λ '(n, T'), (n, match vs !! n with
                               | Some v' => denote h T' v' | None => NBad end)) <$> fs)
  | TPtr _, VPtr None | TSlice _, VSlice None | TMap _, VMap None => NNil
  | TPtr T', VPtr (Some l) =>
      match h !! l with Some (OVal v') => NPtr (denote h T' v') | _ => NBad end
  | TSlice T', VSlice (Some s) =>
      match slice_of h s with Some vs => NSlice (denote h T' <$> vs) | None => NBad end
  | TMap T', VMap (Some l) =>
      match h !! l with Some (OMap m) => NMap (denote h T' <$> m) | _ => NBad end
  | _, _ => NBad
  end.

(** The variable holds a value of the type, and no reference in it dangles. *)
Fixpoint has_type (h : heap) (T : ty) (v : val) : bool :=
  match T, v with
  | TAtom k, VAtom a => bool_decide (kind_of a = k)
  | TStruct fs, VStruct vs =>
      forallb (λ '(n, T'), match vs !! n with Some v' => has_type h T' v' | None => false end) fs
  | TPtr _, VPtr None | TSlice _, VSlice None | TMap _, VMap None => true
  | TPtr T', VPtr (Some l) =>
      match h !! l with Some (OVal v') => has_type h T' v' | _ => false end
  | TSlice T', VSlice (Some s) =>
      match slice_of h s with Some vs => forallb (has_type h T') vs | None => false end
  | TMap T', VMap (Some l) =>
      match h !! l with
      | Some (OMap m) => forallb (λ kv, has_type h T' kv.2) (map_to_list m)
      | _ => false
      end
  | _, _ => false
  end.

(** The cells behind a variable. *)
Fixpoint reach (h : heap) (T : ty) (v : val) : gset loc :=
  match T, v with
  | TStruct fs, VStruct vs =>
      ⋃ ((λ '(n, T'), match vs !! n with Some v' => reach h T' v' | None => ∅ end) <$> fs)
  | TPtr T', VPtr (Some l) =>
      {[l]} ∪ match h !! l with Some (OVal v') => reach h T' v' | _ => ∅ end
  | TSlice T', VSlice (Some s) =>
      {[s.1.1]} ∪ match slice_of h s with Some vs => ⋃ (reach h T' <$> vs) | None => ∅ end
  | TMap T', VMap (Some l) =>
      {[l]} ∪ match h !! l with
              | Some (OMap m) => ⋃ ((λ kv, reach h T' kv.2) <$> map_to_list m)
              | _ => ∅
              end
  | _, _ => ∅
  end.

(** ** Statements on the memory *)

Abbreviation M := (stM heap).

(** A new cell, as [new] and [make] give one. *)
Definition alloc (o : obj) : M loc := λ h,
  let l := fresh (dom h) in (Ok l, <[l := o]> h).
Definition load (l : loc) : M obj := λ h,
  (match h !! l with Some o => Ok o | None => Err nil_deref end, h).
Definition store (l : loc) (o : obj) : M () := λ h, (Ok (), <[l := o]> h).

(** What [in] points to: [*in] of a pointer to a variable. *)
Definition deref (v : val) : M val :=
  match v with
  | VPtr (Some l) => o ← load l; match o with OVal x => mret x | _ => lift (Err nil_deref) end
  | _ => lift (Err nil_deref)
  end.

(** A statement that sets one field or one element: from the value of [in] and the
    present value of [out] to the new value of [out]. *)
Abbreviation stmt := (val → val → M val).

(** [out.F = in.F] *)
Definition assign : stmt := λ v _, mret v.
(** [in.F.DeepCopyInto(&out.F)] *)
Definition into (c : val → M val) : stmt := λ v _, c v.
(** [if in.F != nil { in, out := &in.F, &out.F; ... }] *)
Definition if_set (c : val → M val) : stmt := λ v out,
  if is_nil v then mret out else c v.

(** [*out = new(T); c( *in, *out )], where [c] sets the variable that [out] points to. *)
Definition new_copy (T : ty) (c : val → M val) (v : val) : M val :=
  l ← alloc (OVal (zero T));
  x ← deref v;
  y ← c x;
  _ ← store l (OVal y);
  mret (VPtr (Some l)).

(** The loops [for i := range *in] and [for key, val := range *in]: [put] writes the
    element that the body [s] has made into the new array or map at [l]. *)
Fixpoint range_loop {K} (put : K → val → obj → obj) (s : stmt) (T : ty) (l : loc)
    (items : list (K * val)) : M () :=
  match items with
  | [] => mret ()
  | (k, v) :: items =>
      x ← s v (zero T);
      o ← load l;
      _ ← store l (put k x o);
      range_loop put s T l items
  end.

Definition put_elem (i : nat) (x : val) (o : obj) : obj :=
  match o with OArr vs => OArr (<[i := x]> vs) | o => o end.
Definition put_key (k : string) (x : val) (o : obj) : obj :=
  match o with OMap m => OMap (<[k := x]> m) | o => o end.

Definition load_slice (v : val) : M (list val) := λ h,
  (match v with
   | VSlice (Some s) => match slice_of h s with Some vs => Ok vs | None => Err nil_deref end
   | _ => Err nil_deref
   end, h).
Definition load_map (v : val) : M (gmap string val) := λ h,
  (match v with
   | VMap (Some l) => match h !! l with Some (OMap m) => Ok m | _ => Err nil_deref end
   | _ => Err nil_deref
   end, h).

(** [*out = make([]T, len( *in )); for i := range *in { s }] *)
Definition make_each (T : ty) (s : stmt) (v : val) : M val :=
  vs ← load_slice v;
  l ← alloc (OArr (replicate (length vs) (zero T)));
  _ ← range_loop put_elem s T l (imap pair vs);
  mret (VSlice (Some (l, 0, length vs))).

(** [*out = make([]T, len( *in )); copy( *out, *in )] *)
Definition make_copy (T : ty) (v : val) : M val :=
  vs ← load_slice v;
  l ← alloc (OArr (replicate (length vs) (zero T)));
  _ ← store l (OArr vs);
  mret (VSlice (Some (l, 0, length vs))).

(** The order of [range] over a map is unspecified: it is any enumeration of the
    entries, and may differ from loop to loop. *)
Class MapRange := range : heap → gmap string val → list (string * val).
Class MapRangeOk `{MapRange} : Prop := range_perm h m : range h m ≡ₚ map_to_list m.

Definition entries `{MapRange} (m : gmap string val) : M (list (string * val)) :=
  λ h, (Ok (range h m), h).

(** [*out = make(map[string]T, len( *in )); for key, val := range *in { s }] *)
Definition make_map `{MapRange} (T : ty) (s : stmt) (v : val) : M val :=
  m ← load_map v;
  l ← alloc (OMap ∅);
  items ← entries m;
  _ ← range_loop put_key s T l items;
  mret (VMap (Some l)).

Definition struct_fields (v : val) : M (gmap string val) :=
  match v with VStruct vs => mret vs | _ => lift (Err nil_deref) end.
Definition field (n : string) (vs : gmap string val) : M val :=
  match vs !! n with Some v => mret v | None => lift (Err nil_deref) end.

Fixpoint set_fields (steps : list (string * stmt)) (vs out : gmap string val)
    : M (gmap string val) :=
  match steps with
  | [] => mret out
  | (n, s) :: steps =>
      v ← field n vs;
      o ← field n out;
      x ← s v o;
      set_fields steps vs (<[n := x]> out)
  end.

(** [*out = *in] and then the statements on the fields, in their order. *)
Definition struct_copy (steps : list (string * stmt)) (v : val) : M val :=
  vs ← struct_fields v;
  out ← set_fields steps vs vs;
  mret (VStruct out).

(** [func (in *T) DeepCopy() *T] *)
Definition DeepCopy (T : ty) (c : val → M val) (p : val) : M val :=
  if is_nil p then mret (VPtr None) else new_copy T c p.

(** [func (in *T) DeepCopyObject() runtime.Object]: the nil interface and not an
    interface that holds a nil pointer. *)
Definition DeepCopyObject (T : ty) (c : val → M val) (p : val) : M (option val) :=
  r ← DeepCopy T c p;
  mret (if is_nil r then None else Some r).

(** ** Deep copies *)

(** [v'] in the later memory [h'] is a deep copy of [v] in [h]. *)
Definition copied (h h' : heap) (T : ty) (v v' : val) : Prop :=
  has_type h' T v' ∧ denote h' T v' = denote h T v ∧ reach h' T v' ## dom h.

Class Copies (c : val → M val) (T : ty) : Prop :=
  copies h v : has_type h T v → ∃ v' h', c v h = (Ok v', h') ∧ h ⊆ h' ∧ copied h h' T v v'.

(** The same for a statement, on an [out] that [*out = *in] or [make] has set. *)
Class Stores (s : stmt) (T : ty) : Prop :=
  stores h v out : has_type h T v → out = v ∨ out = zero T →
    ∃ v' h', s v out h = (Ok v', h') ∧ h ⊆ h' ∧ copied h h' T v v'.

(** ** The data depends on the cells behind it only *)

Section ty_ind.
Context (P : ty → Prop) (Hatom : ∀ k, P (TAtom k))
  (Hstruct : ∀ fs, Forall (λ f, P f.2) fs → P (TStruct fs))
  (Hptr : ∀ t, P t → P (TPtr t)) (Hslice : ∀ t, P t → P (TSlice t))
  (Hmap : ∀ t, P t → P (TMap t)).
Fixpoint ty_nested_ind (t : ty) : P t :=
  match t with
  | TAtom k => Hatom k
  | TStruct fs => Hstruct fs ((fix go l : Forall (λ f, P f.2) l :=
      match l with [] => Forall_nil_2 _ | f :: l => Forall_cons_2 _ _ _ (ty_nested_ind f.2) (go l) end) fs)
  | TPtr t => Hptr t (ty_nested_ind t)
  | TSlice t => Hslice t (ty_nested_ind t)
  | TMap t => Hmap t (ty_nested_ind t)
  end.
End ty_ind.

(** Two memories that agree on the cells of [X]. *)
Definition agree (X : gset loc) (h h' : heap) : Prop := ∀ l, l ∈ X → h' !! l = h !! l.

Lemma agree_mono X Y h h' : Y ⊆ X → agree X h h' → agree Y h h'.
Proof. intros HY HX l Hl. by apply HX, HY. Qed.

Lemma forallb_ext_in {A} (f g : A → bool) l :
  (∀ x, x ∈ l → f x = g x) → forallb f l = forallb g l.
Proof.
  induction l as [|x l IH]; intros H; [done|]. simpl.
  rewrite H, IH by set_solver. done.
Qed.

Lemma union_list_fmap_ext {A} (f g : A → gset loc) l :
  (∀ x, x ∈ l → f x = g x) → ⋃ (f <$> l) = ⋃ (g <$> l).
Proof. intros H. f_equal. by apply list_fmap_ext; intros; apply H, list_elem_of_lookup_2 with i. Qed.

Lemma union_list_fmap_subseteq {A} (f : A → gset loc) l x : x ∈ l → f x ⊆ ⋃ (f <$> l).
Proof.
  intros Hx y Hy. apply elem_of_union_list. exists (f x). split; [|done].
  by apply list_elem_of_fmap_2.
Qed.

Lemma union_list_fmap_all {A} (f : A → gset loc) l X :
  ⋃ (f <$> l) ⊆ X ↔ Forall (λ x, f x ⊆ X) l.
Proof.
  rewrite Forall_forall. split.
  - intros H x Hx. etrans; [by apply (union_list_fmap_subseteq f l x Hx)|done].
  - intros H y (Y & (x & -> & Hx)%list_elem_of_fmap & Hy)%elem_of_union_list. by apply (H x).
Qed.

Lemma union_list_fmap_disjoint {A} (f : A → gset loc) l (X : gset loc) :
  ⋃ (f <$> l) ## X ↔ Forall (λ x, f x ## X) l.
Proof.
  rewrite Forall_forall. split.
  - intros H x Hx. pose proof (union_list_fmap_subseteq f l x Hx). set_solver.
  - intros H y (Y & (x & -> & Hx)%list_elem_of_fmap & Hy)%elem_of_union_list. by apply (H x).
Qed.

(** What the three readings of a variable give in two memories. *)
Definition same (h h' : heap) (T : ty) (v : val) : Prop :=
  denote h' T v = denote h T v ∧ has_type h' T v = has_type h T v ∧ reach h' T v = reach h T v.

Lemma same_list h h' T vs :
  (∀ v, v ∈ vs → same h h' T v) →
  denote h' T <$> vs = denote h T <$> vs ∧
  forallb (has_type h' T) vs = forallb (has_type h T) vs ∧
  ⋃ (reach h' T <$> vs) = ⋃ (reach h T <$> vs).
Proof.
  intros H. split_and!.
  - apply list_fmap_ext. intros i v Hi. by apply H, list_elem_of_lookup_2 with i.
  - apply forallb_ext_in. intros v Hv. by apply H.
  - apply union_list_fmap_ext. intros v Hv. by apply H.
Qed.

Lemma same_struct h h' fs vs :
  (∀ n T v, (n, T) ∈ fs → vs !! n = Some v → same h h' T v) →
  same h h' (TStruct fs) (VStruct vs).
Proof.
  intros H. unfold same; simpl. split_and!.
  - f_equal. apply list_fmap_ext. intros i [n T] Hi. apply list_elem_of_lookup_2 in Hi.
    destruct (vs !! n) as [v|] eqn:Hv; [|done]. by rewrite (proj1 (H _ _ _ Hi Hv)).
  - apply forallb_ext_in. intros [n T] Hi. destruct (vs !! n) as [v|] eqn:Hv; [|done].
    by apply (H _ _ _ Hi Hv).
  - apply union_list_fmap_ext. intros [n T] Hi. destruct (vs !! n) as [v|] eqn:Hv; [|done].
    by apply (H _ _ _ Hi Hv).
Qed.

Lemma same_map h h' T (m : gmap string val) :
  (∀ k v, m !! k = Some v → same h h' T v) →
  denote h' T <$> m = denote h T <$> m ∧
  forallb (λ kv, has_type h' T kv.2) (map_to_list m) =
    forallb (λ kv, has_type h T kv.2) (map_to_list m) ∧
  ⋃ ((λ kv, reach h' T kv.2) <$> map_to_list m) = ⋃ ((λ kv, reach h T kv.2) <$> map_to_list m).
Proof.
  intros H. split_and!.
  - apply map_fmap_ext. intros k v Hk. by apply (H k).
  - apply forallb_ext_in. intros [k v] Hk%elem_of_map_to_list. by apply (H k).
  - apply union_list_fmap_ext. intros [k v] Hk%elem_of_map_to_list. by apply (H k).
Qed.

Lemma slice_of_agree h h' s : h' !! s.1.1 = h !! s.1.1 → slice_of h' s = slice_of h s.
Proof. unfold slice_of. by intros ->. Qed.

(** A variable reads the same in two memories that agree on the cells behind it. *)
Lemma frame T : ∀ h h' v, agree (reach h T v) h h' → same h h' T v.
Proof.
  induction T as [k|fs IH|T IH|T IH|T IH] using ty_nested_ind; intros h h' v Ha.
  - done.
  - destruct v as [|vs| | |]; try done. apply same_struct. intros n T v Hn Hv.
    rewrite Forall_forall in IH. apply (IH _ Hn). simpl in Ha. eapply agree_mono, Ha.
    intros l Hl. eapply (union_list_fmap_subseteq _ _ (n, T)); [done|]. simpl. by rewrite Hv.
  - destruct v as [| |[l|]| |]; try done. simpl in Ha. unfold same; simpl.
    rewrite (Ha l) by set_solver. destruct (h !! l) as [[v'| |]|]; try done.
    destruct (IH h h' v') as (-> & -> & ->); [|done]. eapply agree_mono, Ha. set_solver.
  - destruct v as [| | |[s|]|]; try done. simpl in Ha. unfold same; simpl.
    rewrite (slice_of_agree h h') by (apply Ha; set_solver).
    destruct (slice_of h s) as [vs|]; [|done].
    destruct (same_list h h' T vs) as (-> & -> & ->); [|done].
    intros v Hv. apply IH. eapply agree_mono, Ha.
    etrans; [by apply (union_list_fmap_subseteq (reach h T))|]. set_solver.
  - destruct v as [| | | |[l|]]; try done. simpl in Ha. unfold same; simpl.
    rewrite (Ha l) by set_solver. destruct (h !! l) as [[| |m]|]; try done.
    destruct (same_map h h' T m) as (-> & -> & ->); [|done].
    intros k v Hv. apply IH. eapply agree_mono, Ha.
    apply elem_of_map_to_list in Hv.
    pose proof (union_list_fmap_subseteq (λ kv, reach h T kv.2) (map_to_list m) (k, v) Hv).
    set_solver.
Qed.

(** Every cell behind a value of the type is in use. *)
Lemma reach_dom T : ∀ h v, has_type h T v → reach h T v ⊆ dom h.
Proof.
  induction T as [k|fs IH|T IH|T IH|T IH] using ty_nested_ind; intros h v Hv.
  - done.
  - destruct v as [|vs| | |]; try done. simpl in *. apply union_list_fmap_all.
    apply forallb_True in Hv. rewrite Forall_forall in IH, Hv. apply Forall_forall.
    intros [n T] Hn. specialize (Hv _ Hn). specialize (IH _ Hn h). simpl in *.
    destruct (vs !! n); [by apply IH|done].
  - destruct v as [| |[l|]| |]; try done. simpl in *.
    destruct (h !! l) as [[v'| |]|] eqn:Hl; try done.
    apply elem_of_dom_2 in Hl. specialize (IH h v' Hv). set_solver.
  - destruct v as [| | |[s|]|]; try done. simpl in *.
    destruct (slice_of h s) as [vs|] eqn:Hs; [|done].
    assert (s.1.1 ∈ dom h) by (unfold slice_of in Hs; apply elem_of_dom; destruct (h !! s.1.1); by eauto).
    apply union_subseteq. split; [set_solver|]. apply union_list_fmap_all.
    apply forallb_True in Hv. eapply Forall_impl; [exact Hv|]. intros v. apply IH.
  - destruct v as [| | | |[l|]]; try done. simpl in *.
    destruct (h !! l) as [[| |m]|] eqn:Hl; try done. apply elem_of_dom_2 in Hl.
    apply union_subseteq. split; [set_solver|]. apply union_list_fmap_all.
    apply forallb_True in Hv. eapply Forall_impl; [exact Hv|]. intros kv. apply IH.
Qed.

(** A value keeps its meaning when memory is allocated. *)
Lemma same_subseteq h h' T v : has_type h T v → h ⊆ h' → same h h' T v.
Proof.
  intros Hv Hh. apply frame. intros l Hl%(reach_dom _ _ _ Hv)%elem_of_dom.
  destruct Hl as [o Ho]. rewrite Ho. by eapply lookup_weaken.
Qed.

(** A type without references has no cells behind it. *)
Lemma flat_reach T : ∀ h v, flat T → reach h T v = ∅.
Proof.
  induction T as [k|fs IH|T IH|T IH|T IH] using ty_nested_ind; intros h v Hf; try done.
  destruct v as [|vs| | |]; try done. simpl in *. apply empty_union_list_L, Forall_fmap.
  apply forallb_True in Hf. rewrite Forall_forall in *. intros [n T] Hn. simpl.
  destruct (vs !! n); [|done]. apply (IH _ Hn). exact (Hf _ Hn).
Qed.

(** ** Deep copies compose *)

Lemma alloc_spec o h :
  ∃ l, alloc o h = (Ok l, <[l := o]> h) ∧ h !! l = None ∧ h ⊆ <[l := o]> h.
Proof.
  exists (fresh (dom h)). assert (h !! fresh (dom h) = None) as Hl.
  { apply not_elem_of_dom, is_fresh. }
  split_and!; [done..|]. by apply insert_subseteq.
Qed.

Lemma copied_flat h h' T v : flat T → has_type h T v → h ⊆ h' → copied h h' T v v.
Proof.
  intros Hf Hv Hh. destruct (same_subseteq h h' T v Hv Hh) as (Hd & Ht & Hr).
  unfold copied. rewrite Hd, Ht, (flat_reach T h' v Hf). split_and!; [done..|]. set_solver.
Qed.

(** A copy stays one when memory is allocated later on ... *)
Lemma copied_mono h h1 h2 T v v' : copied h h1 T v v' → h1 ⊆ h2 → copied h h2 T v v'.
Proof.
  intros (Ht & Hd & Hr) Hh. destruct (same_subseteq h1 h2 T v' Ht Hh) as (Hd' & Ht' & Hr').
  unfold copied. by rewrite Hd', Ht', Hr'.
Qed.

(** ... and when cells that are not behind it are written. *)
Lemma copied_agree h h1 h2 T v v' :
  copied h h1 T v v' → agree (reach h1 T v') h1 h2 → copied h h2 T v v'.
Proof.
  intros (Ht & Hd & Hr) Ha. destruct (frame T h1 h2 v' Ha) as (Hd' & Ht' & Hr').
  unfold copied. by rewrite Hd', Ht', Hr'.
Qed.

Lemma copied_from h0 h h' T v v' :
  h0 ⊆ h → has_type h0 T v → copied h h' T v v' → copied h0 h' T v v'.
Proof.
  intros Hh Hv (Ht & Hd & Hr). destruct (same_subseteq h0 h T v Hv Hh) as (Hd' & Ht' & Hr').
  split_and!; [done|by rewrite Hd|]. apply subseteq_dom in Hh. set_solver.
Qed.

Lemma has_type_mono h h' T v : h ⊆ h' → has_type h T v → has_type h' T v.
Proof. intros Hh Hv. by rewrite (proj1 (proj2 (same_subseteq h h' T v Hv Hh))). Qed.

(** A copying of a pointer, slice or map that is not nil. *)
Class CopiesSet (c : val → M val) (T : ty) : Prop :=
  copies_set h v : has_type h T v → is_nil v = false →
    ∃ v' h', c v h = (Ok v', h') ∧ h ⊆ h' ∧ copied h h' T v v'.

Lemma nil_zero h T v : has_type h T v → is_nil v → v = zero T ∧ reach h T v = ∅.
Proof. destruct T, v as [| |[]|[]|[]]; try done. Qed.

Global Instance assign_stores T : TCEq (flat T) true → Stores assign T.
Proof.
  intros Hf%TCEq_eq h v out Hv _. exists v, h. split_and!; [done..|].
  apply copied_flat; [by rewrite Hf|done..].
Qed.

Global Instance mret_copies T : TCEq (flat T) true → Copies mret T.
Proof.
  intros Hf%TCEq_eq h v Hv. exists v, h. split_and!; [done..|].
  apply copied_flat; [by rewrite Hf|done..].
Qed.

Global Instance into_stores c T : Copies c T → Stores (into c) T.
Proof. intros Hc h v out Hv _. by apply Hc. Qed.

Global Instance if_set_stores c T : CopiesSet c T → Stores (if_set c) T.
Proof.
  intros Hc h v out Hv Hout. unfold if_set. destruct (is_nil v) eqn:Hn; [|by apply Hc].
  destruct (nil_zero h T v Hv) as [Hz Hr]; [by rewrite Hn|].
  assert (out = v) as -> by (destruct Hout; congruence).
  exists v, h. split_and!; [done..|]. split_and!; [done..|]. rewrite Hr. set_solver.
Qed.

Lemma bind_ok {A B} (m : M A) (f : A → M B) h a h' :
  m h = (Ok a, h') → (m ≫= f) h = f a h'.
Proof. intros Hm. unfold mbind, stM_bind. by rewrite Hm. Qed.

Lemma bind_ret {A B} (f : A → M B) a h : ((mret a : M A) ≫= f) h = f a h.
Proof. done. Qed.

Lemma deref_val l x h : h !! l = Some (OVal x) → deref (VPtr (Some l)) h = (Ok x, h).
Proof. intros Hl. unfold deref, mbind, stM_bind, load. by rewrite Hl. Qed.

Lemma store_fresh_subseteq (h h' : heap) l o : h !! l = None → h ⊆ h' → h ⊆ <[l := o]> h'.
Proof. intros. by apply insert_subseteq_r. Qed.

(** Writing a cell that was allocated before the copy was made. *)
Lemma copied_store h h1 h2 T v v' l o :
  is_Some (h1 !! l) → h ⊆ h1 → has_type h T v → copied h1 h2 T v v' →
  copied h (<[l := o]> h2) T v v'.
Proof.
  intros Hl Hh Hv Hc. apply (copied_from h h1); [done..|]. eapply copied_agree; [done|].
  intros l' Hl'. rewrite lookup_insert_ne; [done|]. intros ->.
  apply elem_of_dom in Hl. destruct Hc as (_ & _ & Hr). set_solver.
Qed.

Global Instance new_copy_copies T c : Copies c T → CopiesSet (new_copy T c) (TPtr T).
Proof.
  intros Hc h v Hv Hn. destruct v as [| |[l0|]| |]; try done. simpl in Hv.
  destruct (h !! l0) as [[x| |]|] eqn:Hl0; try done.
  destruct (alloc_spec (OVal (zero T)) h) as (l & Ha & Hl & Hsub).
  set (h1 := <[l := OVal (zero T)]> h) in *.
  destruct (Hc h1 x) as (y & h2 & Hy & Hh2 & Hcp); [by apply (has_type_mono h)|].
  apply (copied_store h h1 h2 T x y l (OVal y)) in Hcp as (Ht & Hd & Hr); [|by subst h1; simplify_map_eq|done..].
  exists (VPtr (Some l)), (<[l := OVal y]> h2). split_and!.
  - unfold new_copy. rewrite (bind_ok _ _ _ _ _ Ha).
    rewrite (bind_ok _ _ _ _ _ (deref_val l0 x h1 (lookup_weaken _ _ _ _ Hl0 Hsub))).
    by rewrite (bind_ok _ _ _ _ _ Hy).
  - apply store_fresh_subseteq; [done|]. by etrans.
  - unfold copied; simpl. rewrite Hl0, lookup_insert_eq. split_and!; [done|by rewrite Hd|].
    apply not_elem_of_dom in Hl. set_solver.
Qed.

Global Instance DeepCopy_copies T c : Copies c T → Copies (DeepCopy T c) (TPtr T).
Proof.
  intros Hc h v Hv. unfold DeepCopy. destruct (is_nil v) eqn:Hn.
  - destruct (nil_zero h _ v Hv) as [-> _]; [by rewrite Hn|]. exists (VPtr None), h.
    split_and!; [done..|]. split_and!; [done..|]. simpl. set_solver.
  - by apply new_copy_copies.
Qed.

(** ** Structs

    The statements come in the order of the fields; a field without one holds no
    references. *)
Inductive Covers : list (string * stmt) → list (string * ty) → Prop :=
| covers_nil : Covers [] []
| covers_step n s T steps fs :
    Stores s T → Covers steps fs → Covers ((n, s) :: steps) ((n, T) :: fs)
| covers_skip n T steps fs :
    TCEq (flat T) true → Covers steps fs → Covers steps ((n, T) :: fs).
Existing Class Covers.
Global Existing Instances covers_nil.
Global Existing Instance covers_step | 1.
Global Existing Instance covers_skip | 2.

Lemma set_fields_spec h0 steps fs : Covers steps fs → NoDup fs.*1 → ∀ h vs out,
  h0 ⊆ h →
  (∀ n T, (n, T) ∈ fs → ∃ v, vs !! n = Some v ∧ out !! n = Some v ∧ has_type h0 T v) →
  ∃ out' h', set_fields steps vs out h = (Ok out', h') ∧ h ⊆ h' ∧
    (∀ n T, (n, T) ∈ fs → ∃ v v', vs !! n = Some v ∧ out' !! n = Some v' ∧ copied h0 h' T v v') ∧
    (∀ n, n ∉ fs.*1 → out' !! n = out !! n).
Proof.
  induction 1 as [|n s T steps fs Hs Hc IH|n T steps fs Hf Hc IH]; intros Hnd h vs out Hh Hfs.
  - exists out, h. split_and!; [done..|set_solver|done].
  - apply NoDup_cons in Hnd as [Hn Hnd].
    destruct (Hfs n T) as (v & Hv & Hov & Ht); [set_solver|].
    destruct (Hs h v v) as (x & h1 & Hx & Hh1 & Hcp); [by apply (has_type_mono h0)|by left|].
    destruct (IH Hnd h1 vs (<[n := x]> out)) as (out' & h' & Hset & Hh' & Hall & Hrest); [by etrans|..].
    { intros n' T' Hin. rewrite lookup_insert_ne; [apply Hfs; set_solver|].
      intros ->. apply Hn, list_elem_of_fmap. by exists (n', T'). }
    exists out', h'. split_and!.
    + simpl. unfold field. rewrite Hv, Hov. by rewrite !bind_ret, (bind_ok _ _ _ _ _ Hx).
    + by etrans.
    + intros n' T' [[= -> ->]|Hin]%elem_of_cons; [|by apply Hall].
      exists v, x. split_and!; [done|by rewrite Hrest, lookup_insert_eq|].
      eapply copied_mono; [|done]. by apply (copied_from h0 h).
    + intros n' Hn'. rewrite Hrest by set_solver. rewrite lookup_insert_ne; [done|set_solver].
  - apply NoDup_cons in Hnd as [Hn Hnd]. apply TCEq_eq in Hf.
    destruct (Hfs n T) as (v & Hv & Hov & Ht); [set_solver|].
    destruct (IH Hnd h vs out) as (out' & h' & Hset & Hh' & Hall & Hrest); [done|set_solver|].
    exists out', h'. split_and!; [done..| |set_solver].
    intros n' T' [[= -> ->]|Hin]%elem_of_cons; [|by apply Hall].
    exists v, v. split_and!; [done|by rewrite Hrest|].
    apply copied_flat; [by rewrite Hf|done|by etrans].
Qed.

Lemma copied_struct h h' fs vs vs' :
  (∀ n T, (n, T) ∈ fs → ∃ v v', vs !! n = Some v ∧ vs' !! n = Some v' ∧ copied h h' T v v') →
  copied h h' (TStruct fs) (VStruct vs) (VStruct vs').
Proof.
  intros H. unfold copied; simpl. split_and!.
  - apply forallb_True, Forall_forall. intros [n T] Hn.
    destruct (H n T Hn) as (v & v' & _ & -> & ? & _). done.
  - f_equal. apply list_fmap_ext. intros i [n T] Hn%list_elem_of_lookup_2.
    destruct (H n T Hn) as (v & v' & -> & -> & _ & Hd & _). by rewrite Hd.
  - apply union_list_fmap_disjoint, Forall_forall. intros [n T] Hn.
    destruct (H n T Hn) as (v & v' & _ & -> & _ & _ & Hr). done.
Qed.

Lemma struct_copy_copies steps fs :
  NoDup fs.*1 → Covers steps fs → Copies (struct_copy steps) (TStruct fs).
Proof.
  intros Hnd Hc h v Hv. destruct v as [|vs| | |]; try done. simpl in Hv.
  apply forallb_True in Hv. rewrite Forall_forall in Hv.
  destruct (set_fields_spec h steps fs Hc Hnd h vs vs) as (out & h' & Hset & Hh & Hall & _); [done|..].
  { intros n T Hn. specialize (Hv _ Hn). simpl in Hv. destruct (vs !! n) as [v|]; [|done]. eauto. }
  exists (VStruct out), h'. split_and!; [|done|by apply copied_struct].
  unfold struct_copy, struct_fields. by rewrite bind_ret, (bind_ok _ _ _ _ _ Hset).
Qed.

(** ** Loops over slices and maps *)

Lemma range_loop_spec {K} (put : K → val → obj → obj) s T h0 l :
  Stores s T → h0 !! l = None → ∀ items h o,
  h0 ⊆ h → h !! l = Some o → Forall (λ kv, has_type h0 T kv.2) items →
  ∃ xs h', range_loop put s T l items h = (Ok (), h') ∧ h0 ⊆ h' ∧
    h' !! l = Some (foldl (λ o kx, put kx.1 kx.2 o) o (zip items.*1 xs)) ∧
    (∀ l' o', l' ≠ l → h !! l' = Some o' → h' !! l' = Some o') ∧
    Forall2 (λ kv x, copied h0 h' T kv.2 x ∧ l ∉ reach h' T x) items xs.
Proof.
  intros Hs Hl0. induction items as [|[k v] items IH]; intros h o Hh Hl Hts.
  - exists [], h. split_and!; [done..|naive_solver|done].
  - apply Forall_cons in Hts as [Ht Hts]. simpl in Ht.
    destruct (Hs h v (zero T)) as (x & h1 & Hx & Hh1 & Hcp); [by apply (has_type_mono h0)|by right|].
    pose proof (lookup_weaken _ _ _ _ Hl Hh1) as Hl1.
    destruct (IH (<[l := put k x o]> h1) (put k x o)) as (xs & h' & Hrun & Hh' & Hl' & Hkeep & Hall).
    { apply store_fresh_subseteq; [done|by etrans]. }
    { by rewrite lookup_insert_eq. }
    { done. }
    assert (l ∉ reach h1 T x) as Hlx.
    { destruct Hcp as (_ & _ & Hr). apply elem_of_dom_2 in Hl. set_solver. }
    assert (agree (reach h1 T x) h1 h') as Hag.
    { intros l' Hl''. assert (l' ≠ l) by set_solver.
      destruct (proj1 (elem_of_dom _ _) (reach_dom _ _ _ (proj1 Hcp) _ Hl'')) as [o' Ho'].
      rewrite Ho'. apply Hkeep; [done|]. by rewrite lookup_insert_ne. }
    exists (x :: xs), h'. split_and!; [|done|done|..].
    + simpl. rewrite (bind_ok _ _ _ _ _ Hx). unfold load, store, mbind, stM_bind at 1.
      by rewrite Hl1.
    + intros l' o' Hne Ho'. apply Hkeep; [done|]. rewrite lookup_insert_ne by done.
      by eapply lookup_weaken.
    + constructor; [|done]. simpl. split.
      * apply (copied_from h0 h); [done..|]. by apply (copied_agree h h1).
      * by rewrite (proj2 (proj2 (frame T h1 h' x Hag))).
Qed.

(** Filling a new array from left to right. *)
Lemma fill_array (vs xs ys : list val) :
  length xs = length ys →
  foldl (λ o kx, put_elem kx.1 kx.2 o) (OArr (vs ++ xs)) (zip (seq (length vs) (length ys)) ys) =
  OArr (vs ++ ys).
Proof.
  revert vs xs. induction ys as [|y ys IH]; intros vs [|x xs] Hlen; try done.
  simpl. rewrite insert_app_r_alt by lia. rewrite Nat.sub_diag; simpl.
  rewrite (assoc_L (++) vs [y] xs : vs ++ y :: xs = (vs ++ [y]) ++ xs).
  specialize (IH (vs ++ [y]) xs). rewrite length_app in IH; simpl in IH.
  rewrite Nat.add_1_r in IH. rewrite IH by (simpl in Hlen; lia). by rewrite <-(assoc_L (++)).
Qed.

(** Filling a new map, in any order. *)
Lemma fill_map (kxs : list (string * val)) m :
  NoDup kxs.*1 → (∀ k, k ∈ kxs.*1 → m !! k = None) →
  foldl (λ o kx, put_key kx.1 kx.2 o) (OMap m) kxs = OMap (list_to_map kxs ∪ m).
Proof.
  revert m. induction kxs as [|[k x] kxs IH]; intros m Hnd Hm; simpl.
  - by rewrite (left_id_L ∅ (∪)).
  - apply NoDup_cons in Hnd as [Hk Hnd]. rewrite IH; [|done|].
    + f_equal. rewrite <-insert_union_r, insert_union_l; [done|]. by apply not_elem_of_list_to_map.
    + intros k' Hk'. rewrite lookup_insert_ne by set_solver. apply Hm. set_solver.
Qed.

Lemma load_slice_ok h T v : has_type h (TSlice T) v → is_nil v = false →
  ∃ s vs, v = VSlice (Some s) ∧ slice_of h s = Some vs ∧ Forall (has_type h T) vs ∧
    load_slice v h = (Ok vs, h).
Proof.
  destruct v as [| | |[s|]|]; try done. simpl. intros Hv _.
  destruct (slice_of h s) as [vs|] eqn:Hs; [|done]. exists s, vs.
  apply forallb_True in Hv. split_and!; [done..|]. unfold load_slice. by rewrite Hs.
Qed.

(** A slice over a whole new array. *)
Lemma copied_slice h h' T s vs l xs :
  slice_of h s = Some vs → h !! l = None → h' !! l = Some (OArr xs) →
  Forall2 (copied h h' T) vs xs →
  copied h h' (TSlice T) (VSlice (Some s)) (VSlice (Some (l, 0, length vs))).
Proof.
  intros Hs Hl Hl' Hall. pose proof (Forall2_length _ _ _ Hall) as Hlen.
  assert (slice_of h' (l, 0, length vs) = Some xs) as Hs'.
  { unfold slice_of; simpl. rewrite Hl', decide_True by lia. by rewrite drop_0, take_ge by lia. }
  unfold copied; simpl. rewrite Hs, Hs'. split_and!.
  - apply forallb_True. eapply Forall2_Forall_r; [exact Hall|]. apply Forall_forall. by intros v _ x [].
  - f_equal. symmetry. clear -Hall. induction Hall as [|v x vs xs (_ & Hd & _) _ IH]; [done|].
    simpl. by f_equal.
  - apply not_elem_of_dom in Hl. apply disjoint_union_l. split; [set_solver|].
    apply union_list_fmap_disjoint. eapply Forall2_Forall_r; [exact Hall|].
    apply Forall_forall. by intros v _ x (_ & _ & ?).
Qed.

Global Instance make_copy_copies T :
  TCEq (flat T) true → CopiesSet (make_copy T) (TSlice T).
Proof.
  intros Hf%TCEq_eq h v Hv Hn.
  destruct (load_slice_ok h T v Hv Hn) as (s & vs & -> & Hs & Hts & Hld).
  destruct (alloc_spec (OArr (replicate (length vs) (zero T))) h) as (l & Ha & Hl & Hsub).
  set (h1 := <[l := _]> h) in *.
  assert (h ⊆ <[l := OArr vs]> h1) as Hsub' by (by apply store_fresh_subseteq).
  exists (VSlice (Some (l, 0, length vs))), (<[l := OArr vs]> h1). split_and!; [|done|].
  - unfold make_copy. by rewrite (bind_ok _ _ _ _ _ Hld), (bind_ok _ _ _ _ _ Ha).
  - apply (copied_slice h _ T s vs l vs); [done|done|by rewrite lookup_insert_eq|].
    apply Forall2_same_length_lookup_2; [done|]. intros i v x Hv1 Hx. simplify_eq.
    rewrite Forall_lookup in Hts. apply copied_flat; [by rewrite Hf|by eapply Hts|done].
Qed.

Lemma imap_pair_fst (vs : list val) n : (imap (λ i, pair (n + i)) vs).*1 = seq n (length vs).
Proof.
  revert n. induction vs as [|v vs IH]; intros n; [done|]. simpl. f_equal; [lia|].
  rewrite <-(IH (S n)). f_equal. apply imap_ext. intros i x _. simpl. by rewrite Nat.add_succ_r.
Qed.
Lemma imap_pair_snd (vs : list val) : (imap pair vs).*2 = vs.
Proof. rewrite fmap_imap. rewrite <-(list_fmap_id vs) at 2. apply (imap_const id vs). Qed.

Global Instance make_each_copies T s : Stores s T → CopiesSet (make_each T s) (TSlice T).
Proof.
  intros Hst h v Hv Hn.
  destruct (load_slice_ok h T v Hv Hn) as (s' & vs & -> & Hs & Hts & Hld).
  destruct (alloc_spec (OArr (replicate (length vs) (zero T))) h) as (l & Ha & Hl & Hsub).
  set (h1 := <[l := _]> h) in *.
  destruct (range_loop_spec put_elem s T h l Hst Hl (imap pair vs) h1 (OArr (replicate (length vs) (zero T))))
    as (xs & h' & Hrun & Hh' & Hl' & _ & Hall); [done|by subst h1; simplify_map_eq|..].
  { apply (Forall_fmap snd (has_type h T)). by rewrite imap_pair_snd. }
  assert (Forall2 (copied h h' T) vs xs) as Hall'.
  { rewrite <-(imap_pair_snd vs). apply Forall2_fmap_l. eapply Forall2_impl; [exact Hall|]. by intros ?? []. }
  exists (VSlice (Some (l, 0, length vs))), h'. split_and!; [|done|].
  - unfold make_each. by rewrite (bind_ok _ _ _ _ _ Hld), (bind_ok _ _ _ _ _ Ha), (bind_ok _ _ _ _ _ Hrun).
  - apply (copied_slice h h' T s' vs l xs); [done..| |done]. rewrite Hl'. f_equal.
    rewrite (imap_pair_fst vs 0 : (imap pair vs).*1 = seq 0 (length vs)). pose proof (Forall2_length _ _ _ Hall') as Hlen. rewrite Hlen.
    apply (fill_array [] (replicate (length xs) (zero T)) xs). by rewrite length_replicate.
Qed.

Lemma load_map_ok h T v : has_type h (TMap T) v → is_nil v = false →
  ∃ l m, v = VMap (Some l) ∧ h !! l = Some (OMap m) ∧
    (∀ k x, m !! k = Some x → has_type h T x) ∧ load_map v h = (Ok m, h).
Proof.
  destruct v as [| | | |[l|]]; try done. simpl. intros Hv _.
  destruct (h !! l) as [[| |m]|] eqn:Hl; try done. exists l, m. split_and!; [done..| |].
  - intros k x Hk. apply forallb_True in Hv. rewrite Forall_forall in Hv.
    apply (Hv (k, x)). by apply elem_of_map_to_list.
  - unfold load_map. by rewrite Hl.
Qed.

(** A new map whose entries are copies of those of another one. *)
Lemma copied_map h h' T l0 l m (items : list (string * val)) xs :
  h !! l0 = Some (OMap m) → h !! l = None → items ≡ₚ map_to_list m →
  h' !! l = Some (OMap (list_to_map (zip items.*1 xs))) →
  Forall2 (λ kv x, copied h h' T kv.2 x) items xs →
  copied h h' (TMap T) (VMap (Some l0)) (VMap (Some l)).
Proof.
  intros Hl0 Hl Hp Hl' Hall. unfold copied; simpl. rewrite Hl0, Hl'.
  assert (∀ kx, kx ∈ map_to_list (list_to_map (zip items.*1 xs) : gmap string val) →
    ∃ v, copied h h' T v kx.2) as Hin.
  { intros [k x] Hk%elem_of_map_to_list%elem_of_list_to_map_2.
    apply list_elem_of_lookup in Hk as [i Hi]. rewrite lookup_zip_with in Hi.
    apply bind_Some in Hi as (k' & _ & Hi). apply bind_Some in Hi as (x' & Hx & [= -> ->]).
    destruct (Forall2_lookup_r _ _ _ _ _ Hall Hx) as ([k' v] & _ & Hc). by exists v. }
  split_and!.
  - apply forallb_True, Forall_forall. intros kx Hk. by destruct (Hin _ Hk) as (v & ? & _).
  - f_equal. rewrite <-(list_to_map_to_list m).
    rewrite <-(list_to_map_proper items (map_to_list m)); [|by rewrite Hp; apply NoDup_fst_map_to_list|done].
    rewrite <-!list_to_map_fmap. f_equal.
    clear -Hall. induction Hall as [|[k v] x items xs (_ & Hd & _) _ IH]; [done|]. simpl. by f_equal; [f_equal|].
  - apply not_elem_of_dom in Hl. apply disjoint_union_l. split; [set_solver|].
    apply union_list_fmap_disjoint, Forall_forall. intros kx Hk. by destruct (Hin _ Hk) as (v & _ & _ & ?).
Qed.

Global Instance make_map_copies `{MapRangeOk} T s : Stores s T → CopiesSet (make_map T s) (TMap T).
Proof.
  intros Hst h v Hv Hn.
  destruct (load_map_ok h T v Hv Hn) as (l0 & m & -> & Hl0 & Hts & Hld).
  destruct (alloc_spec (OMap ∅) h) as (l & Ha & Hl & Hsub). set (h1 := <[l := OMap ∅]> h) in *.
  pose proof (range_perm h1 m) as Hp.
  destruct (range_loop_spec put_key s T h l Hst Hl (range h1 m) h1 (OMap ∅))
    as (xs & h' & Hrun & Hh' & Hl' & _ & Hall); [done|by subst h1; simplify_map_eq|..].
  { rewrite Hp. apply Forall_forall. intros [k x] Hk%elem_of_map_to_list. by apply (Hts k). }
  exists (VMap (Some l)), h'. split_and!; [|done|].
  - unfold make_map. rewrite (bind_ok _ _ _ _ _ Hld), (bind_ok _ _ _ _ _ Ha).
    rewrite (bind_ok (entries m) _ h1 (range h1 m) h1 eq_refl). by rewrite (bind_ok _ _ _ _ _ Hrun).
  - apply (copied_map h h' T l0 l m (range h1 m) xs); [done..| |].
    + pose proof (Forall2_length _ _ _ Hall) as Hlen. rewrite Hl', fill_map; [|..].
      * by rewrite (right_id_L ∅ (∪)).
      * rewrite fst_zip by (rewrite length_fmap; lia). rewrite Hp. apply NoDup_fst_map_to_list.
      * intros k _. apply lookup_empty.
    + eapply Forall2_impl; [exact Hall|]. by intros ?? [].
Qed.

(** ** What a deep copy is for

    The original and its copy have no cell in common: whatever is written to the
    cells of the one, or to cells allocated later, the other keeps its data. *)
Lemma copied_isolated h h' T v v' : has_type h T v → h ⊆ h' → copied h h' T v v' →
  (∀ h'', agree (dom h) h' h'' → denote h'' T v = denote h T v) ∧
  (∀ h'', agree (dom h' ∖ dom h) h' h'' → denote h'' T v' = denote h T v).
Proof.
  intros Hv Hh (Ht & Hd & Hr). pose proof (reach_dom _ _ _ Hv) as Hdom. split; intros h'' Ha.
  - apply frame. intros l Hl%Hdom. rewrite (Ha l Hl). apply elem_of_dom in Hl as [o Ho].
    rewrite Ho. by eapply lookup_weaken.
  - rewrite <-Hd. apply frame. intros l Hl. apply Ha.
    pose proof (reach_dom _ _ _ Ht). set_solver.
Qed.

End GoHeap.
