(* ===== verification/DeepCopy.v ===== *)
(** * The generated deep copies of the custom resources

    [api/v1alpha1/zz_generated.deepcopy.go], the methods that controller-gen writes for
    every type of the API, over the memory of [GoHeap]: each [T_X] is the Go type [X]
    with its fields in order, each [X_DeepCopyInto] the method of this name, statement by
    statement, [X_DeepCopy] and [X_DeepCopyObject] the methods that allocate.  The
    controller relies on these copies wherever it changes an object that the store
    or an informer shares: the status updates ([updater.go]), the build of a service
    from a template ([main_builder/builder.go], [optimized.go]) and the reconcile loop
    of virtual services.

    The types of the Kubernetes libraries and their own deep copies are the parameters
    [K8sTypes]; [K8sCopies] states what their documentation promises. *)
From S2P Require Import Prelude GoHeap.

Module DeepCopy.
Import GoHeap.

(** [metav1.TypeMeta], [metav1.ObjectMeta], [metav1.ListMeta], [runtime.RawExtension]
    and the [DeepCopyInto] of the last three. *)
Class K8sTypes := {
  T_TypeMeta : ty;
  T_ObjectMeta : ty;
  T_ListMeta : ty;
  T_RawExtension : ty;
  ObjectMeta_DeepCopyInto : val → M val;
  ListMeta_DeepCopyInto : val → M val;
  RawExtension_DeepCopyInto : val → M val;
}.

(** A [TypeMeta] holds two strings; the other methods copy deeply. *)
Class K8sCopies `{K8sTypes} : Prop := {
  TypeMeta_flat :: TCEq (flat T_TypeMeta) true;
  ObjectMeta_copies :: Copies ObjectMeta_DeepCopyInto T_ObjectMeta;
  ListMeta_copies :: Copies ListMeta_DeepCopyInto T_ListMeta;
  RawExtension_copies :: Copies RawExtension_DeepCopyInto T_RawExtension;
}.

Section deepcopy.
Context `{K8sTypes, MapRange}.

(** A pointer field, a field [[]*T], and their statements: [new] and a copy of what
    the pointer refers to, once or for every element that is not nil. *)
Definition ptr_field (T : ty) (c : val → M val) : stmt := if_set (new_copy T c).
Definition ptrs_field (T : ty) (c : val → M val) : stmt :=
  if_set (make_each (TPtr T) (ptr_field T c)).
(** [*out = new(T); **out = **in] for a type of atoms. *)
Definition atom_field (k : kind) : stmt := ptr_field (TAtom k) mret.

Definition T_ResourceRef : ty := TStruct [
  ("Name", TAtom KString);
  ("Namespace", TPtr (TAtom KString))].
Definition ResourceRef_DeepCopyInto : val → M val := struct_copy [
  ("Namespace", atom_field KString)].
Definition ResourceRef_DeepCopy : val → M val := DeepCopy T_ResourceRef ResourceRef_DeepCopyInto.

Definition T_AccessLogConfigStatus : ty := TStruct [].
Definition AccessLogConfigStatus_DeepCopyInto : val → M val := struct_copy [].
Definition AccessLogConfigStatus_DeepCopy : val → M val := DeepCopy T_AccessLogConfigStatus AccessLogConfigStatus_DeepCopyInto.

Definition T_AccessLogConfig : ty := TStruct [
  ("TypeMeta", T_TypeMeta);
  ("ObjectMeta", T_ObjectMeta);
  ("Spec", TPtr T_RawExtension);
  ("Status", T_AccessLogConfigStatus)].
Definition AccessLogConfig_DeepCopyInto : val → M val := struct_copy [
  ("TypeMeta", assign);
  ("ObjectMeta", into ObjectMeta_DeepCopyInto);
  ("Spec", ptr_field T_RawExtension RawExtension_DeepCopyInto);
  ("Status", assign)].
Definition AccessLogConfig_DeepCopy : val → M val := DeepCopy T_AccessLogConfig AccessLogConfig_DeepCopyInto.
Definition AccessLogConfig_DeepCopyObject : val → M (option val) :=
  DeepCopyObject T_AccessLogConfig AccessLogConfig_DeepCopyInto.

Definition T_AccessLogConfigList : ty := TStruct [
  ("TypeMeta", T_TypeMeta);
  ("ListMeta", T_ListMeta);
  ("Items", TSlice T_AccessLogConfig)].
Definition AccessLogConfigList_DeepCopyInto : val → M val := struct_copy [
  ("TypeMeta", assign);
  ("ListMeta", into ListMeta_DeepCopyInto);
  ("Items", if_set (make_each T_AccessLogConfig (into AccessLogConfig_DeepCopyInto)))].
Definition AccessLogConfigList_DeepCopy : val → M val := DeepCopy T_AccessLogConfigList AccessLogConfigList_DeepCopyInto.
Definition AccessLogConfigList_DeepCopyObject : val → M (option val) :=
  DeepCopyObject T_AccessLogConfigList AccessLogConfigList_DeepCopyInto.

Definition T_ClusterStatus : ty := TStruct [].
Definition ClusterStatus_DeepCopyInto : val → M val := struct_copy [].
Definition ClusterStatus_DeepCopy : val → M val := DeepCopy T_ClusterStatus ClusterStatus_DeepCopyInto.

Definition T_Cluster : ty := TStruct [
  ("TypeMeta", T_TypeMeta);
  ("ObjectMeta", T_ObjectMeta);
  ("Spec", TPtr T_RawExtension);
  ("Status", T_ClusterStatus)].
Definition Cluster_DeepCopyInto : val → M val := struct_copy [
  ("TypeMeta", assign);
  ("ObjectMeta", into ObjectMeta_DeepCopyInto);
  ("Spec", ptr_field T_RawExtension RawExtension_DeepCopyInto);
  ("Status", assign)].
Definition Cluster_DeepCopy : val → M val := DeepCopy T_Cluster Cluster_DeepCopyInto.
Definition Cluster_DeepCopyObject : val → M (option val) :=
  DeepCopyObject T_Cluster Cluster_DeepCopyInto.

Definition T_ClusterList : ty := TStruct [
  ("TypeMeta", T_TypeMeta);
  ("ListMeta", T_ListMeta);
  ("Items", TSlice T_Cluster)].
Definition ClusterList_DeepCopyInto : val → M val := struct_copy [
  ("TypeMeta", assign);
  ("ListMeta", into ListMeta_DeepCopyInto);
  ("Items", if_set (make_each T_Cluster (into Cluster_DeepCopyInto)))].
Definition ClusterList_DeepCopy : val → M val := DeepCopy T_ClusterList ClusterList_DeepCopyInto.
Definition ClusterList_DeepCopyObject : val → M (option val) :=
  DeepCopyObject T_ClusterList ClusterList_DeepCopyInto.

Definition T_ExtraField : ty := TStruct [
  ("Name", TAtom KString);
  ("Description", TAtom KString);
  ("Type", TAtom KString);
  ("Required", TAtom KBool);
  ("Enum", TSlice (TAtom KString));
  ("Default", TAtom KString)].
Definition ExtraField_DeepCopyInto : val → M val := struct_copy [
  ("Enum", if_set (make_copy (TAtom KString)))].
Definition ExtraField_DeepCopy : val → M val := DeepCopy T_ExtraField ExtraField_DeepCopyInto.

Definition T_HttpFilterStatus : ty := TStruct [].
Definition HttpFilterStatus_DeepCopyInto : val → M val := struct_copy [].
Definition HttpFilterStatus_DeepCopy : val → M val := DeepCopy T_HttpFilterStatus HttpFilterStatus_DeepCopyInto.

Definition T_HttpFilter : ty := TStruct [
  ("TypeMeta", T_TypeMeta);
  ("ObjectMeta", T_ObjectMeta);
  ("Spec", TSlice (TPtr T_RawExtension));
  ("Status", T_HttpFilterStatus)].
Definition HttpFilter_DeepCopyInto : val → M val := struct_copy [
  ("TypeMeta", assign);
  ("ObjectMeta", into ObjectMeta_DeepCopyInto);
  ("Spec", ptrs_field T_RawExtension RawExtension_DeepCopyInto);
  ("Status", assign)].
Definition HttpFilter_DeepCopy : val → M val := DeepCopy T_HttpFilter HttpFilter_DeepCopyInto.
Definition HttpFilter_DeepCopyObject : val → M (option val) :=
  DeepCopyObject T_HttpFilter HttpFilter_DeepCopyInto.

Definition T_HttpFilterList : ty := TStruct [
  ("TypeMeta", T_TypeMeta);
  ("ListMeta", T_ListMeta);
  ("Items", TSlice T_HttpFilter)].
Definition HttpFilterList_DeepCopyInto : val → M val := struct_copy [
  ("TypeMeta", assign);
  ("ListMeta", into ListMeta_DeepCopyInto);
  ("Items", if_set (make_each T_HttpFilter (into HttpFilter_DeepCopyInto)))].
Definition HttpFilterList_DeepCopy : val → M val := DeepCopy T_HttpFilterList HttpFilterList_DeepCopyInto.
Definition HttpFilterList_DeepCopyObject : val → M (option val) :=
  DeepCopyObject T_HttpFilterList HttpFilterList_DeepCopyInto.

Definition T_ListenerStatus : ty := TStruct [].
Definition ListenerStatus_DeepCopyInto : val → M val := struct_copy [].
Definition ListenerStatus_DeepCopy : val → M val := DeepCopy T_ListenerStatus ListenerStatus_DeepCopyInto.

Definition T_Listener : ty := TStruct [
  ("TypeMeta", T_TypeMeta);
  ("ObjectMeta", T_ObjectMeta);
  ("Spec", TPtr T_RawExtension);
  ("Status", T_ListenerStatus)].
Definition Listener_DeepCopyInto : val → M val := struct_copy [
  ("TypeMeta", assign);
  ("ObjectMeta", into ObjectMeta_DeepCopyInto);
  ("Spec", ptr_field T_RawExtension RawExtension_DeepCopyInto);
  ("Status", assign)].
Definition Listener_DeepCopy : val → M val := DeepCopy T_Listener Listener_DeepCopyInto.
Definition Listener_DeepCopyObject : val → M (option val) :=
  DeepCopyObject T_Listener Listener_DeepCopyInto.

Definition T_ListenerList : ty := TStruct [
  ("TypeMeta", T_TypeMeta);
  ("ListMeta", T_ListMeta);
  ("Items", TSlice T_Listener)].
Definition ListenerList_DeepCopyInto : val → M val := struct_copy [
  ("TypeMeta", assign);
  ("ListMeta", into ListMeta_DeepCopyInto);
  ("Items", if_set (make_each T_Listener (into Listener_DeepCopyInto)))].
Definition ListenerList_DeepCopy : val → M val := DeepCopy T_ListenerList ListenerList_DeepCopyInto.
Definition ListenerList_DeepCopyObject : val → M (option val) :=
  DeepCopyObject T_ListenerList ListenerList_DeepCopyInto.

Definition T_PolicyStatus : ty := TStruct [].
Definition PolicyStatus_DeepCopyInto : val → M val := struct_copy [].
Definition PolicyStatus_DeepCopy : val → M val := DeepCopy T_PolicyStatus PolicyStatus_DeepCopyInto.

Definition T_Policy : ty := TStruct [
  ("TypeMeta", T_TypeMeta);
  ("ObjectMeta", T_ObjectMeta);
  ("Spec", TPtr T_RawExtension);
  ("Status", T_PolicyStatus)].
Definition Policy_DeepCopyInto : val → M val := struct_copy [
  ("TypeMeta", assign);
  ("ObjectMeta", into ObjectMeta_DeepCopyInto);
  ("Spec", ptr_field T_RawExtension RawExtension_DeepCopyInto);
  ("Status", assign)].
Definition Policy_DeepCopy : val → M val := DeepCopy T_Policy Policy_DeepCopyInto.
Definition Policy_DeepCopyObject : val → M (option val) :=
  DeepCopyObject T_Policy Policy_DeepCopyInto.

Definition T_PolicyList : ty := TStruct [
  ("TypeMeta", T_TypeMeta);
  ("ListMeta", T_ListMeta);
  ("Items", TSlice T_Policy)].
Definition PolicyList_DeepCopyInto : val → M val := struct_copy [
  ("TypeMeta", assign);
  ("ListMeta", into ListMeta_DeepCopyInto);
  ("Items", if_set (make_each T_Policy (into Policy_DeepCopyInto)))].
Definition PolicyList_DeepCopy : val → M val := DeepCopy T_PolicyList PolicyList_DeepCopyInto.
Definition PolicyList_DeepCopyObject : val → M (option val) :=
  DeepCopyObject T_PolicyList PolicyList_DeepCopyInto.

Definition T_RouteStatus : ty := TStruct [].
Definition RouteStatus_DeepCopyInto : val → M val := struct_copy [].
Definition RouteStatus_DeepCopy : val → M val := DeepCopy T_RouteStatus RouteStatus_DeepCopyInto.

Definition T_Route : ty := TStruct [
  ("TypeMeta", T_TypeMeta);
  ("ObjectMeta", T_ObjectMeta);
  ("Spec", TSlice (TPtr T_RawExtension));
  ("Status", T_RouteStatus)].
Definition Route_DeepCopyInto : val → M val := struct_copy [
  ("TypeMeta", assign);
  ("ObjectMeta", into ObjectMeta_DeepCopyInto);
  ("Spec", ptrs_field T_RawExtension RawExtension_DeepCopyInto);
  ("Status", assign)].
Definition Route_DeepCopy : val → M val := DeepCopy T_Route Route_DeepCopyInto.
Definition Route_DeepCopyObject : val → M (option val) :=
  DeepCopyObject T_Route Route_DeepCopyInto.

Definition T_RouteList : ty := TStruct [
  ("TypeMeta", T_TypeMeta);
  ("ListMeta", T_ListMeta);
  ("Items", TSlice T_Route)].
Definition RouteList_DeepCopyInto : val → M val := struct_copy [
  ("TypeMeta", assign);
  ("ListMeta", into ListMeta_DeepCopyInto);
  ("Items", if_set (make_each T_Route (into Route_DeepCopyInto)))].
Definition RouteList_DeepCopy : val → M val := DeepCopy T_RouteList RouteList_DeepCopyInto.
Definition RouteList_DeepCopyObject : val → M (option val) :=
  DeepCopyObject T_RouteList RouteList_DeepCopyInto.

Definition T_TemplateOpts : ty := TStruct [
  ("Field", TAtom KString);
  ("Modifier", TAtom KString)].
Definition TemplateOpts_DeepCopyInto : val → M val := struct_copy [].
Definition TemplateOpts_DeepCopy : val → M val := DeepCopy T_TemplateOpts TemplateOpts_DeepCopyInto.

Definition T_TlsConfig : ty := TStruct [
  ("SecretRef", TPtr T_ResourceRef);
  ("AutoDiscovery", TPtr (TAtom KBool))].
Definition TlsConfig_DeepCopyInto : val → M val := struct_copy [
  ("SecretRef", ptr_field T_ResourceRef ResourceRef_DeepCopyInto);
  ("AutoDiscovery", atom_field KBool)].
Definition TlsConfig_DeepCopy : val → M val := DeepCopy T_TlsConfig TlsConfig_DeepCopyInto.

Definition T_TracingStatus : ty := TStruct [].
Definition TracingStatus_DeepCopyInto : val → M val := struct_copy [].
Definition TracingStatus_DeepCopy : val → M val := DeepCopy T_TracingStatus TracingStatus_DeepCopyInto.

Definition T_Tracing : ty := TStruct [
  ("TypeMeta", T_TypeMeta);
  ("ObjectMeta", T_ObjectMeta);
  ("Spec", TPtr T_RawExtension);
  ("Status", T_TracingStatus)].
Definition Tracing_DeepCopyInto : val → M val := struct_copy [
  ("TypeMeta", assign);
  ("ObjectMeta", into ObjectMeta_DeepCopyInto);
  ("Spec", ptr_field T_RawExtension RawExtension_DeepCopyInto);
  ("Status", assign)].
Definition Tracing_DeepCopy : val → M val := DeepCopy T_Tracing Tracing_DeepCopyInto.
Definition Tracing_DeepCopyObject : val → M (option val) :=
  DeepCopyObject T_Tracing Tracing_DeepCopyInto.

Definition T_TracingList : ty := TStruct [
  ("TypeMeta", T_TypeMeta);
  ("ListMeta", T_ListMeta);
  ("Items", TSlice T_Tracing)].
Definition TracingList_DeepCopyInto : val → M val := struct_copy [
  ("TypeMeta", assign);
  ("ListMeta", into ListMeta_DeepCopyInto);
  ("Items", if_set (make_each T_Tracing (into Tracing_DeepCopyInto)))].
Definition TracingList_DeepCopy : val → M val := DeepCopy T_TracingList TracingList_DeepCopyInto.
Definition TracingList_DeepCopyObject : val → M (option val) :=
  DeepCopyObject T_TracingList TracingList_DeepCopyInto.

Definition T_VirtualServiceRBACSpec : ty := TStruct [
  ("Action", TAtom KString);
  ("Policies", TMap (TPtr T_RawExtension));
  ("AdditionalPolicies", TSlice (TPtr T_ResourceRef))].
Definition VirtualServiceRBACSpec_DeepCopyInto : val → M val := struct_copy [
  ("Policies", if_set (make_map (TPtr T_RawExtension) (ptr_field T_RawExtension RawExtension_DeepCopyInto)));
  ("AdditionalPolicies", ptrs_field T_ResourceRef ResourceRef_DeepCopyInto)].
Definition VirtualServiceRBACSpec_DeepCopy : val → M val := DeepCopy T_VirtualServiceRBACSpec VirtualServiceRBACSpec_DeepCopyInto.

Definition T_VirtualServiceCommonSpec : ty := TStruct [
  ("VirtualHost", TPtr T_RawExtension);
  ("Listener", TPtr T_ResourceRef);
  ("TlsConfig", TPtr T_TlsConfig);
  ("AccessLog", TPtr T_RawExtension);
  ("AccessLogs", TSlice (TPtr T_RawExtension));
  ("AccessLogConfig", TPtr T_ResourceRef);
  ("AccessLogConfigs", TSlice (TPtr T_ResourceRef));
  ("AdditionalHttpFilters", TSlice (TPtr T_ResourceRef));
  ("AdditionalRoutes", TSlice (TPtr T_ResourceRef));
  ("HTTPFilters", TSlice (TPtr T_RawExtension));
  ("UseRemoteAddress", TPtr (TAtom KBool));
  ("UpgradeConfigs", TSlice (TPtr T_RawExtension));
  ("RBAC", TPtr T_VirtualServiceRBACSpec);
  ("XFFNumTrustedHops", TPtr (TAtom KNum));
  ("TracingRef", TPtr T_ResourceRef);
  ("Tracing", TPtr T_RawExtension);
  ("Http2ProtocolOptions", TPtr T_RawExtension)].
Definition VirtualServiceCommonSpec_DeepCopyInto : val → M val := struct_copy [
  ("VirtualHost", ptr_field T_RawExtension RawExtension_DeepCopyInto);
  ("Listener", ptr_field T_ResourceRef ResourceRef_DeepCopyInto);
  ("TlsConfig", ptr_field T_TlsConfig TlsConfig_DeepCopyInto);
  ("AccessLog", ptr_field T_RawExtension RawExtension_DeepCopyInto);
  ("AccessLogs", ptrs_field T_RawExtension RawExtension_DeepCopyInto);
  ("AccessLogConfig", ptr_field T_ResourceRef ResourceRef_DeepCopyInto);
  ("AccessLogConfigs", ptrs_field T_ResourceRef ResourceRef_DeepCopyInto);
  ("AdditionalHttpFilters", ptrs_field T_ResourceRef ResourceRef_DeepCopyInto);
  ("AdditionalRoutes", ptrs_field T_ResourceRef ResourceRef_DeepCopyInto);
  ("HTTPFilters", ptrs_field T_RawExtension RawExtension_DeepCopyInto);
  ("UseRemoteAddress", atom_field KBool);
  ("UpgradeConfigs", ptrs_field T_RawExtension RawExtension_DeepCopyInto);
  ("RBAC", ptr_field T_VirtualServiceRBACSpec VirtualServiceRBACSpec_DeepCopyInto);
  ("XFFNumTrustedHops", atom_field KNum);
  ("TracingRef", ptr_field T_ResourceRef ResourceRef_DeepCopyInto);
  ("Tracing", ptr_field T_RawExtension RawExtension_DeepCopyInto);
  ("Http2ProtocolOptions", ptr_field T_RawExtension RawExtension_DeepCopyInto)].
Definition VirtualServiceCommonSpec_DeepCopy : val → M val := DeepCopy T_VirtualServiceCommonSpec VirtualServiceCommonSpec_DeepCopyInto.

Definition T_VirtualServiceSpec : ty := TStruct [
  ("VirtualServiceCommonSpec", T_VirtualServiceCommonSpec);
  ("Template", TPtr T_ResourceRef);
  ("TemplateOptions", TSlice T_TemplateOpts);
  ("ExtraFields", TMap (TAtom KString))].
Definition VirtualServiceSpec_DeepCopyInto : val → M val := struct_copy [
  ("VirtualServiceCommonSpec", into VirtualServiceCommonSpec_DeepCopyInto);
  ("Template", ptr_field T_ResourceRef ResourceRef_DeepCopyInto);
  ("TemplateOptions", if_set (make_copy T_TemplateOpts));
  ("ExtraFields", if_set (make_map (TAtom KString) assign))].
Definition VirtualServiceSpec_DeepCopy : val → M val := DeepCopy T_VirtualServiceSpec VirtualServiceSpec_DeepCopyInto.

Definition T_VirtualServiceStatus : ty := TStruct [
  ("Message", TAtom KString);
  ("Invalid", TAtom KBool);
  ("UsedSecrets", TSlice T_ResourceRef);
  ("LastAppliedHash", TPtr (TAtom KNum))].
Definition VirtualServiceStatus_DeepCopyInto : val → M val := struct_copy [
  ("UsedSecrets", if_set (make_each T_ResourceRef (into ResourceRef_DeepCopyInto)));
  ("LastAppliedHash", atom_field KNum)].
Definition VirtualServiceStatus_DeepCopy : val → M val := DeepCopy T_VirtualServiceStatus VirtualServiceStatus_DeepCopyInto.

Definition T_VirtualService : ty := TStruct [
  ("TypeMeta", T_TypeMeta);
  ("ObjectMeta", T_ObjectMeta);
  ("Spec", T_VirtualServiceSpec);
  ("Status", T_VirtualServiceStatus)].
Definition VirtualService_DeepCopyInto : val → M val := struct_copy [
  ("TypeMeta", assign);
  ("ObjectMeta", into ObjectMeta_DeepCopyInto);
  ("Spec", into VirtualServiceSpec_DeepCopyInto);
  ("Status", into VirtualServiceStatus_DeepCopyInto)].
Definition VirtualService_DeepCopy : val → M val := DeepCopy T_VirtualService VirtualService_DeepCopyInto.
Definition VirtualService_DeepCopyObject : val → M (option val) :=
  DeepCopyObject T_VirtualService VirtualService_DeepCopyInto.

Definition T_VirtualServiceList : ty := TStruct [
  ("TypeMeta", T_TypeMeta);
  ("ListMeta", T_ListMeta);
  ("Items", TSlice T_VirtualService)].
Definition VirtualServiceList_DeepCopyInto : val → M val := struct_copy [
  ("TypeMeta", assign);
  ("ListMeta", into ListMeta_DeepCopyInto);
  ("Items", if_set (make_each T_VirtualService (into VirtualService_DeepCopyInto)))].
Definition VirtualServiceList_DeepCopy : val → M val := DeepCopy T_VirtualServiceList VirtualServiceList_DeepCopyInto.
Definition VirtualServiceList_DeepCopyObject : val → M (option val) :=
  DeepCopyObject T_VirtualServiceList VirtualServiceList_DeepCopyInto.

Definition T_VirtualServiceTemplateSpec : ty := TStruct [
  ("VirtualServiceCommonSpec", T_VirtualServiceCommonSpec);
  ("ExtraFields", TSlice (TPtr T_ExtraField))].
Definition VirtualServiceTemplateSpec_DeepCopyInto : val → M val := struct_copy [
  ("VirtualServiceCommonSpec", into VirtualServiceCommonSpec_DeepCopyInto);
  ("ExtraFields", ptrs_field T_ExtraField ExtraField_DeepCopyInto)].
Definition VirtualServiceTemplateSpec_DeepCopy : val → M val := DeepCopy T_VirtualServiceTemplateSpec VirtualServiceTemplateSpec_DeepCopyInto.

Definition T_VirtualServiceTemplateStatus : ty := TStruct [].
Definition VirtualServiceTemplateStatus_DeepCopyInto : val → M val := struct_copy [].
Definition VirtualServiceTemplateStatus_DeepCopy : val → M val := DeepCopy T_VirtualServiceTemplateStatus VirtualServiceTemplateStatus_DeepCopyInto.

Definition T_VirtualServiceTemplate : ty := TStruct [
  ("TypeMeta", T_TypeMeta);
  ("ObjectMeta", T_ObjectMeta);
  ("Spec", T_VirtualServiceTemplateSpec);
  ("Status", T_VirtualServiceTemplateStatus)].
Definition VirtualServiceTemplate_DeepCopyInto : val → M val := struct_copy [
  ("TypeMeta", assign);
  ("ObjectMeta", into ObjectMeta_DeepCopyInto);
  ("Spec", into VirtualServiceTemplateSpec_DeepCopyInto);
  ("Status", assign)].
Definition VirtualServiceTemplate_DeepCopy : val → M val := DeepCopy T_VirtualServiceTemplate VirtualServiceTemplate_DeepCopyInto.
Definition VirtualServiceTemplate_DeepCopyObject : val → M (option val) :=
  DeepCopyObject T_VirtualServiceTemplate VirtualServiceTemplate_DeepCopyInto.

Definition T_VirtualServiceTemplateList : ty := TStruct [
  ("TypeMeta", T_TypeMeta);
  ("ListMeta", T_ListMeta);
  ("Items", TSlice T_VirtualServiceTemplate)].
Definition VirtualServiceTemplateList_DeepCopyInto : val → M val := struct_copy [
  ("TypeMeta", assign);
  ("ListMeta", into ListMeta_DeepCopyInto);
  ("Items", if_set (make_each T_VirtualServiceTemplate (into VirtualServiceTemplate_DeepCopyInto)))].
Definition VirtualServiceTemplateList_DeepCopy : val → M val := DeepCopy T_VirtualServiceTemplateList VirtualServiceTemplateList_DeepCopyInto.
Definition VirtualServiceTemplateList_DeepCopyObject : val → M (option val) :=
  DeepCopyObject T_VirtualServiceTemplateList VirtualServiceTemplateList_DeepCopyInto.

(** Every type of the file with its method. *)
Definition generated : list (ty * (val → M val)) := [
  (T_ResourceRef, ResourceRef_DeepCopy);
  (T_AccessLogConfigStatus, AccessLogConfigStatus_DeepCopy);
  (T_AccessLogConfig, AccessLogConfig_DeepCopy);
  (T_AccessLogConfigList, AccessLogConfigList_DeepCopy);
  (T_ClusterStatus, ClusterStatus_DeepCopy);
  (T_Cluster, Cluster_DeepCopy);
  (T_ClusterList, ClusterList_DeepCopy);
  (T_ExtraField, ExtraField_DeepCopy);
  (T_HttpFilterStatus, HttpFilterStatus_DeepCopy);
  (T_HttpFilter, HttpFilter_DeepCopy);
  (T_HttpFilterList, HttpFilterList_DeepCopy);
  (T_ListenerStatus, ListenerStatus_DeepCopy);
  (T_Listener, Listener_DeepCopy);
  (T_ListenerList, ListenerList_DeepCopy);
  (T_PolicyStatus, PolicyStatus_DeepCopy);
  (T_Policy, Policy_DeepCopy);
  (T_PolicyList, PolicyList_DeepCopy);
  (T_RouteStatus, RouteStatus_DeepCopy);
  (T_Route, Route_DeepCopy);
  (T_RouteList, RouteList_DeepCopy);
  (T_TemplateOpts, TemplateOpts_DeepCopy);
  (T_TlsConfig, TlsConfig_DeepCopy);
  (T_TracingStatus, TracingStatus_DeepCopy);
  (T_Tracing, Tracing_DeepCopy);
  (T_TracingList, TracingList_DeepCopy);
  (T_VirtualServiceRBACSpec, VirtualServiceRBACSpec_DeepCopy);
  (T_VirtualServiceCommonSpec, VirtualServiceCommonSpec_DeepCopy);
  (T_VirtualServiceSpec, VirtualServiceSpec_DeepCopy);
  (T_VirtualServiceStatus, VirtualServiceStatus_DeepCopy);
  (T_VirtualService, VirtualService_DeepCopy);
  (T_VirtualServiceList, VirtualServiceList_DeepCopy);
  (T_VirtualServiceTemplateSpec, VirtualServiceTemplateSpec_DeepCopy);
  (T_VirtualServiceTemplateStatus, VirtualServiceTemplateStatus_DeepCopy);
  (T_VirtualServiceTemplate, VirtualServiceTemplate_DeepCopy);
  (T_VirtualServiceTemplateList, VirtualServiceTemplateList_DeepCopy)].

(** ** Every generated method is a deep copy *)

Context `{!K8sCopies, !MapRangeOk}.

Local Ltac struct :=
  apply struct_copy_copies; [apply (bool_decide_unpack _); vm_compute; exact I | apply _].

Global Instance ResourceRef_copies : Copies ResourceRef_DeepCopyInto T_ResourceRef.
Proof. struct. Qed.
Global Instance AccessLogConfigStatus_copies : Copies AccessLogConfigStatus_DeepCopyInto T_AccessLogConfigStatus.
Proof. struct. Qed.
Global Instance AccessLogConfig_copies : Copies AccessLogConfig_DeepCopyInto T_AccessLogConfig.
Proof. struct. Qed.
Global Instance AccessLogConfigList_copies : Copies AccessLogConfigList_DeepCopyInto T_AccessLogConfigList.
Proof. struct. Qed.
Global Instance ClusterStatus_copies : Copies ClusterStatus_DeepCopyInto T_ClusterStatus.
Proof. struct. Qed.
Global Instance Cluster_copies : Copies Cluster_DeepCopyInto T_Cluster.
Proof. struct. Qed.
Global Instance ClusterList_copies : Copies ClusterList_DeepCopyInto T_ClusterList.
Proof. struct. Qed.
Global Instance ExtraField_copies : Copies ExtraField_DeepCopyInto T_ExtraField.
Proof. struct. Qed.
Global Instance HttpFilterStatus_copies : Copies HttpFilterStatus_DeepCopyInto T_HttpFilterStatus.
Proof. struct. Qed.
Global Instance HttpFilter_copies : Copies HttpFilter_DeepCopyInto T_HttpFilter.
Proof. struct. Qed.
Global Instance HttpFilterList_copies : Copies HttpFilterList_DeepCopyInto T_HttpFilterList.
Proof. struct. Qed.
Global Instance ListenerStatus_copies : Copies ListenerStatus_DeepCopyInto T_ListenerStatus.
Proof. struct. Qed.
Global Instance Listener_copies : Copies Listener_DeepCopyInto T_Listener.
Proof. struct. Qed.
Global Instance ListenerList_copies : Copies ListenerList_DeepCopyInto T_ListenerList.
Proof. struct. Qed.
Global Instance PolicyStatus_copies : Copies PolicyStatus_DeepCopyInto T_PolicyStatus.
Proof. struct. Qed.
Global Instance Policy_copies : Copies Policy_DeepCopyInto T_Policy.
Proof. struct. Qed.
Global Instance PolicyList_copies : Copies PolicyList_DeepCopyInto T_PolicyList.
Proof. struct. Qed.
Global Instance RouteStatus_copies : Copies RouteStatus_DeepCopyInto T_RouteStatus.
Proof. struct. Qed.
Global Instance Route_copies : Copies Route_DeepCopyInto T_Route.
Proof. struct. Qed.
Global Instance RouteList_copies : Copies RouteList_DeepCopyInto T_RouteList.
Proof. struct. Qed.
Global Instance TemplateOpts_copies : Copies TemplateOpts_DeepCopyInto T_TemplateOpts.
Proof. struct. Qed.
Global Instance TlsConfig_copies : Copies TlsConfig_DeepCopyInto T_TlsConfig.
Proof. struct. Qed.
Global Instance TracingStatus_copies : Copies TracingStatus_DeepCopyInto T_TracingStatus.
Proof. struct. Qed.
Global Instance Tracing_copies : Copies Tracing_DeepCopyInto T_Tracing.
Proof. struct. Qed.
Global Instance TracingList_copies : Copies TracingList_DeepCopyInto T_TracingList.
Proof. struct. Qed.
Global Instance VirtualServiceRBACSpec_copies : Copies VirtualServiceRBACSpec_DeepCopyInto T_VirtualServiceRBACSpec.
Proof. struct. Qed.
Global Instance VirtualServiceCommonSpec_copies : Copies VirtualServiceCommonSpec_DeepCopyInto T_VirtualServiceCommonSpec.
Proof. struct. Qed.
Global Instance VirtualServiceSpec_copies : Copies VirtualServiceSpec_DeepCopyInto T_VirtualServiceSpec.
Proof. struct. Qed.
Global Instance VirtualServiceStatus_copies : Copies VirtualServiceStatus_DeepCopyInto T_VirtualServiceStatus.
Proof. struct. Qed.
Global Instance VirtualService_copies : Copies VirtualService_DeepCopyInto T_VirtualService.
Proof. struct. Qed.
Global Instance VirtualServiceList_copies : Copies VirtualServiceList_DeepCopyInto T_VirtualServiceList.
Proof. struct. Qed.
Global Instance VirtualServiceTemplateSpec_copies : Copies VirtualServiceTemplateSpec_DeepCopyInto T_VirtualServiceTemplateSpec.
Proof. struct. Qed.
Global Instance VirtualServiceTemplateStatus_copies : Copies VirtualServiceTemplateStatus_DeepCopyInto T_VirtualServiceTemplateStatus.
Proof. struct. Qed.
Global Instance VirtualServiceTemplate_copies : Copies VirtualServiceTemplate_DeepCopyInto T_VirtualServiceTemplate.
Proof. struct. Qed.
Global Instance VirtualServiceTemplateList_copies : Copies VirtualServiceTemplateList_DeepCopyInto T_VirtualServiceTemplateList.
Proof. struct. Qed.

Lemma generated_copies : Forall (λ g, Copies g.2 (TPtr g.1)) generated.
Proof. repeat constructor; apply DeepCopy_copies, _. Qed.

(** [DeepCopyObject] gives the copy in an interface, and the nil interface for nil. *)
Lemma DeepCopyObject_spec T c h p : Copies c T → has_type h (TPtr T) p →
  ∃ p' h', DeepCopyObject T c p h = (Ok (if is_nil p then None else Some p'), h') ∧
    h ⊆ h' ∧ copied h h' (TPtr T) p p'.
Proof.
  intros Hc Hp. destruct (DeepCopy_copies T c Hc h p Hp) as (p' & h' & Hrun & Hh & Hcp).
  exists p', h'. split_and!; [|done..]. unfold DeepCopyObject. rewrite (bind_ok _ _ _ _ _ Hrun).
  assert (is_nil p' = is_nil p) as ->; [|by destruct (is_nil p)].
  destruct Hcp as (Ht & Hd & _). destruct p as [| |[l|]| |], p' as [| |[l'|]| |]; try done; simpl in *.
  by destruct (h !! l) as [[]|].
Qed.

(** C18. Every type of the API has a deep copy: [DeepCopy] of a well-typed object
    never panics, allocates only, and gives an object with the same data, where nil stays
    nil and empty slices and maps stay empty.  Whatever is written afterwards to memory that
    existed before leaves the data of the copy alone, and whatever is written to the
    memory of the copy, or to memory allocated later, leaves the data of the original alone;
    for every iteration order of the maps. *)
Theorem deep_copy_isolated T c : (T, c) ∈ generated → ∀ h p, has_type h (TPtr T) p →
  ∃ p' h', c p h = (Ok p', h') ∧ h ⊆ h' ∧ denote h' (TPtr T) p' = denote h (TPtr T) p ∧
    (∀ h'', agree (dom h) h' h'' → denote h'' (TPtr T) p = denote h (TPtr T) p) ∧
    (∀ h'', agree (dom h' ∖ dom h) h' h'' → denote h'' (TPtr T) p' = denote h (TPtr T) p).
Proof.
  intros Hin h p Hp. pose proof generated_copies as Hall. rewrite Forall_forall in Hall.
  destruct (Hall _ Hin h p Hp) as (p' & h' & Hrun & Hh & Hcp).
  destruct (copied_isolated h h' (TPtr T) p p' Hp Hh Hcp) as [Ho Hc].
  exists p', h'. split_and!; [done..| |done|done]. apply Hcp.
Qed.

End deepcopy.

(** ** An object of every kind of field *)
Module Examples.

Local Abbreviation str s := (VAtom (AStr s)).
Local Abbreviation bytes := (TSlice (TAtom KNum)).
Local Instance order : MapRange := λ _ m, map_to_list m.
Local Instance order_ok : MapRangeOk.
Proof. by intros h m. Qed.
Local Instance k8s : K8sTypes := {|
  T_TypeMeta := TStruct [("Kind", TAtom KString); ("APIVersion", TAtom KString)];
  T_ObjectMeta := TStruct [("Name", TAtom KString); ("Labels", TMap (TAtom KString))];
  T_ListMeta := TStruct [("ResourceVersion", TAtom KString)];
  T_RawExtension := TStruct [("Raw", bytes)];
  ObjectMeta_DeepCopyInto := struct_copy [("Labels", if_set (make_map (TAtom KString) assign))];
  ListMeta_DeepCopyInto := struct_copy [];
  RawExtension_DeepCopyInto := struct_copy [("Raw", if_set (make_copy (TAtom KNum)))];
|}.
Local Instance k8s_ok : K8sCopies.
Proof.
  split; [by apply TCEq_eq|..];
    (apply struct_copy_copies; [apply (bool_decide_unpack _); vm_compute; exact I|]); apply _.
Qed.

(** A service with a template in another namespace, two policies, of which one is nil,
    an empty list of routes, extra fields and a used secret. *)
Definition fields (l : list (string * val)) : val := VStruct (list_to_map l).
Definition common : val :=
  VStruct (<["RBAC" := VPtr (Some 4)]> (<["AdditionalRoutes" := VSlice (Some (8, 0%nat, 0%nat))]>
    (match zero T_VirtualServiceCommonSpec with VStruct vs => vs | _ => ∅ end)))%positive.
Definition mem : heap := list_to_map [
  (1, OVal (fields [("TypeMeta", zero T_TypeMeta);
    ("ObjectMeta", fields [("Name", str "vs"); ("Labels", VMap None)]);
    ("Spec", fields [("VirtualServiceCommonSpec", common); ("Template", VPtr (Some 2));
       ("TemplateOptions", VSlice None); ("ExtraFields", VMap (Some 10))]);
    ("Status", fields [("Message", str ""); ("Invalid", VAtom (ABool false));
       ("UsedSecrets", VSlice (Some (9, 1%nat, 1%nat))); ("LastAppliedHash", VPtr None)])]));
  (2, OVal (fields [("Name", str "t"); ("Namespace", VPtr (Some 3))]));
  (3, OVal (str "other"));
  (4, OVal (fields [("Action", str "ALLOW"); ("Policies", VMap (Some 5)); ("AdditionalPolicies", VSlice None)]));
  (5, OMap {["a" := VPtr (Some 6); "b" := VPtr None]});
  (6, OVal (fields [("Raw", VSlice (Some (7, 0%nat, 2%nat)))]));
  (7, OArr [VAtom (ANum 123); VAtom (ANum 125); VAtom (ANum 0)]);
  (8, OArr []);
  (9, OArr [fields [("Name", str "gone"); ("Namespace", VPtr None)];
            fields [("Name", str "s"); ("Namespace", VPtr (Some 3))]]);
  (10, OMap {["k" := str "v"]})]%positive.

(** The service has its type; after a write through the map of the copy the
    original still has its extra field. *)
Lemma deep_copy_isolated_witness :
  let T := TPtr T_VirtualService in
  has_type mem T (VPtr (Some 1%positive)) ∧
  ∃ p' h', VirtualService_DeepCopy (VPtr (Some 1%positive)) mem = (Ok p', h') ∧ mem ⊆ h' ∧
    denote h' T p' = denote mem T (VPtr (Some 1%positive)) ∧
    (∀ h'', agree (dom mem) h' h'' →
       denote h'' T (VPtr (Some 1%positive)) = denote mem T (VPtr (Some 1%positive))) ∧
    (∀ h'', agree (dom h' ∖ dom mem) h' h'' →
       denote h'' T p' = denote mem T (VPtr (Some 1%positive))).
Proof.
  split; [by vm_compute|].
  apply (deep_copy_isolated T_VirtualService VirtualService_DeepCopy); [|by vm_compute].
  unfold generated. by repeat (apply elem_of_cons; first [by left|right]).
Defined.

(** Eleven cells: the nil entries stay nil, and the array of used secrets is as long
    as the slice. *)
Example copy_cells :
  let '(_, h') := VirtualService_DeepCopy (VPtr (Some 1%positive)) mem in
  size h' = 21.
Proof. by vm_compute. Qed.

End Examples.
End DeepCopy.
