(* ===== verification/StringPool.v ===== *)
(** * [internal/store/string_pool.go]

    The string interning pool shared by a store and its copies, as a sequential
    component and as a transition system whose steps are the critical sections
    of concurrent [Intern] calls. *)

From S2P Require Import Prelude GoStrings Types.

Module StringPool.

(** [atomic.AddUint64(&c, 1)]. *)
Definition inc_u64 (n : Z) : Z := ((n + 1) `mod` 2 ^ 64)%Z.

Record t := mkPool { pool : gmap string string; hits : Z; misses : Z }.

Definition NewStringPool : t := mkPool ∅ 0 0.

(** The sections of [Intern] under the read lock and under the write lock. *)
Definition intern_hit (sp : t) : t := mkPool (pool sp) (inc_u64 (hits sp)) (misses sp).
Definition intern_add (sp : t) (s : string) : t :=
  mkPool (<[s := s]> (pool sp)) (hits sp) (inc_u64 (misses sp)).

Definition intern_slow (sp : t) (s : string) : string * t :=
  match pool sp !! s with
  | Some interned => (interned, intern_hit sp)
  | None => (s, intern_add sp s)
  end.

Definition Intern (sp : t) (s : string) : string * t :=
  if decide (s = "") then ("", sp)
  else match pool sp !! s with
       | Some interned => (interned, intern_hit sp)
       | None => intern_slow sp s
       end.

Definition InternUID (sp : t) (uid : string) : string * t :=
  if decide (uid = "") then (uid, sp) else Intern sp uid.

Definition defaultNamespace : string := "default".

Definition InternNamespace (sp : t) (ns : string) : string * t :=
  if decide (ns = defaultNamespace ∨ ns = "") then (ns, sp) else Intern sp ns.

Definition Size (sp : t) : nat := size (pool sp).

Definition Clear (sp : t) : t := mkPool ∅ (hits sp) (misses sp).

(** [GetStats]: a string takes its bytes and a header of 16; the counters are
    unsigned, their sum wraps, and the ratio is computed in double precision. *)
Record StringPoolStats := mkStats {
  UniqueStrings : nat; MemoryBytes : Z; Hits : Z; Misses : Z; HitRatio : SpecFloat.spec_float
}.
Definition GetStats (sp : t) : StringPoolStats :=
  let memoryBytes := map_fold (λ s _ n, GoStrings.wrap64 (n + (Z.of_nat (String.length s) + 16))) 0%Z (pool sp) in
  let total := ((hits sp + misses sp) `mod` 2 ^ 64)%Z in
  let hitRatio := if decide (0 < total)%Z then SpecFloat.SFdiv 53 1024 (GoStrings.float64 (hits sp)) (GoStrings.float64 total) else GoStrings.float64 0 in
  mkStats (size (pool sp)) memoryBytes (hits sp) (misses sp) hitRatio.

(** [Cleanup(maxSize)]: [order] is the order in which the loop ranges over the
    pool's entries.  Returns the number of removed strings. *)
Definition Cleanup (sp : t) (order : list (string * string)) (maxSize : Z) : Z * t :=
  if decide (Z.of_nat (size (pool sp)) ≤ maxSize)%Z then (0%Z, sp)
  else
    let kept := take (Z.to_nat (maxSize `quot` 2)) order in
    let newPool := foldl (λ m kv, <[kv.1 := kv.2]> m) ∅ kept in
    ((Z.of_nat (size (pool sp)) - Z.of_nat (size newPool))%Z,
     mkPool newPool (hits sp) (misses sp)).

(** ** Concurrent callers

    A goroutine inside [Intern(s)] is before its read-locked check, between the
    failed check and the write lock, or has returned. *)
Inductive thread :=
| TStart (s : string)
| TSlow (s : string)
| TDone (s r : string).
#[export] Instance thread_eq_dec : EqDecision thread.
Proof. solve_decision. Defined.

Record config := mkConfig { cpool : t; threads : list thread }.

(** The steps of the callers of [Intern]. *)
Inductive call_step : config → config → Prop :=
| step_empty sp ts i :
    ts !! i = Some (TStart "") →
    call_step (mkConfig sp ts) (mkConfig sp (<[i := TDone "" ""]> ts))
| step_fast_hit sp ts i s r :
    ts !! i = Some (TStart s) → s ≠ "" → pool sp !! s = Some r →
    call_step (mkConfig sp ts) (mkConfig (intern_hit sp) (<[i := TDone s r]> ts))
| step_fast_miss sp ts i s :
    ts !! i = Some (TStart s) → s ≠ "" → pool sp !! s = None →
    call_step (mkConfig sp ts) (mkConfig sp (<[i := TSlow s]> ts))
| step_slow sp ts i s :
    ts !! i = Some (TSlow s) →
    call_step (mkConfig sp ts)
         (mkConfig (intern_slow sp s).2 (<[i := TDone s (intern_slow sp s).1]> ts)).
(** Those, and the steps that remove strings. *)
Inductive step : config → config → Prop :=
| step_call c c' : call_step c c' → step c c'
| step_clear sp ts :
    step (mkConfig sp ts) (mkConfig (Clear sp) ts)
| step_cleanup sp ts order maxSize :
    order ≡ₚ map_to_list (pool sp) →
    step (mkConfig sp ts) (mkConfig (Cleanup sp order maxSize).2 ts).

(** ** Invariant of the pool: every entry maps a string to itself *)
Definition pool_ok (sp : t) : Prop := ∀ s r, pool sp !! s = Some r → r = s.

Definition thread_ok (t : thread) : Prop :=
  match t with TStart _ => True | TSlow s => s ≠ "" | TDone s r => r = s end.

(** Returned calls that went through the pool. *)
Definition counted (t : thread) : Z :=
  match t with TDone s _ => if decide (s = "") then 0 else 1 | _ => 0 end.
Definition completed (ts : list thread) : Z := foldr (λ t n, (counted t + n)%Z) 0%Z ts.

Lemma pool_ok_insert sp s : pool_ok sp → pool_ok (intern_add sp s).
Proof.
  intros Hok k r. cbn. rewrite lookup_insert. case_decide; [by intros [= <-]|apply Hok].
Qed.

Lemma intern_slow_ok sp s :
  pool_ok sp → (intern_slow sp s).1 = s ∧ pool_ok (intern_slow sp s).2.
Proof.
  intros Hok. unfold intern_slow. destruct (pool sp !! s) as [r|] eqn:Hs; cbn.
  - split; [by apply Hok|exact Hok].
  - split; [done|by apply pool_ok_insert].
Qed.

Lemma Intern_ok sp s : pool_ok sp → (Intern sp s).1 = s ∧ pool_ok (Intern sp s).2.
Proof.
  intros Hok. unfold Intern. case_decide; [by subst|].
  destruct (pool sp !! s) as [r|] eqn:Hs; [|by apply intern_slow_ok].
  split; [by apply Hok|exact Hok].
Qed.

Lemma InternUID_ok sp s : pool_ok sp → (InternUID sp s).1 = s ∧ pool_ok (InternUID sp s).2.
Proof. intros. unfold InternUID. case_decide; [by subst|by apply Intern_ok]. Qed.

Lemma InternNamespace_ok sp s :
  pool_ok sp → (InternNamespace sp s).1 = s ∧ pool_ok (InternNamespace sp s).2.
Proof. intros. unfold InternNamespace. case_decide; [done|by apply Intern_ok]. Qed.

Lemma foldl_insert_ind (P : string → string → Prop) (l : list (string * string)) (m : gmap string string) :
  (∀ s r, m !! s = Some r → P s r) → Forall (λ kv, P kv.1 kv.2) l →
  ∀ s r, foldl (λ m kv, <[kv.1 := kv.2]> m) m l !! s = Some r → P s r.
Proof.
  revert m. induction l as [|[k v] l IH]; intros m Hm Hl; [done|]. inv Hl. cbn in *.
  apply IH; [|done]. intros s r. rewrite lookup_insert. case_decide; [by intros [= <-]; subst|apply Hm].
Qed.
(** [Cleanup] keeps entries of the pool. *)
Lemma Cleanup_keeps sp order maxSize s r :
  order ≡ₚ map_to_list (pool sp) → pool (Cleanup sp order maxSize).2 !! s = Some r → pool sp !! s = Some r.
Proof.
  intros Hp. unfold Cleanup. case_decide; [done|]. cbn.
  apply (foldl_insert_ind (λ s r, pool sp !! s = Some r)); [by intros ??; rewrite lookup_empty|].
  apply Forall_take. rewrite Hp. apply Forall_forall. by intros [k v] Hkv%elem_of_map_to_list.
Qed.
Lemma Cleanup_ok sp order maxSize :
  order ≡ₚ map_to_list (pool sp) → pool_ok sp → pool_ok (Cleanup sp order maxSize).2.
Proof. intros Hp Hok s r Hs. apply Hok. by eapply Cleanup_keeps. Qed.

#[export] Hint Resolve Intern_ok InternUID_ok InternNamespace_ok pool_ok_insert : go.

Lemma counted_range t : (0 ≤ counted t ≤ 1)%Z.
Proof. destruct t; cbn; try case_decide; lia. Qed.

Lemma completed_insert ts i t t' :
  ts !! i = Some t → completed (<[i := t']> ts) = (completed ts - counted t + counted t')%Z.
Proof.
  unfold completed. revert i.
  induction ts as [|t0 ts IH]; intros [|i] Hi; simplify_eq/=; [lia|].
  rewrite (IH _ Hi). lia.
Qed.

Lemma completed_insert_same ts i t t' :
  ts !! i = Some t → counted t' = counted t → completed (<[i := t']> ts) = completed ts.
Proof. intros Hi Hc. rewrite (completed_insert _ _ _ _ Hi). lia. Qed.

Lemma inc_u64_sum_l a b n :
  ((a + b) `mod` 2 ^ 64 = n `mod` 2 ^ 64 →
   (inc_u64 a + b) `mod` 2 ^ 64 = (n + 1) `mod` 2 ^ 64)%Z.
Proof.
  intros H. unfold inc_u64. rewrite Z.add_mod_idemp_l by lia.
  replace (a + 1 + b)%Z with (a + b + 1)%Z by lia.
  by rewrite <-Z.add_mod_idemp_l, H, Z.add_mod_idemp_l.
Qed.

(** The argument of a call. *)
Definition arg (t : thread) : string := match t with TStart s | TSlow s | TDone s _ => s end.
Definition pool_args (ss : list string) (sp : t) : Prop := ∀ s r, pool sp !! s = Some r → s ∈ ss ∧ s ≠ "".

Definition config_inv (c : config) : Prop :=
  pool_ok (cpool c) ∧ Forall thread_ok (threads c)
  ∧ ((hits (cpool c) + misses (cpool c)) `mod` 2 ^ 64 = completed (threads c) `mod` 2 ^ 64)%Z.

Lemma config_inv_done sp' ts i t s r :
  ts !! i = Some t → counted t = 0%Z → s ≠ "" → r = s →
  pool_ok sp' → Forall thread_ok ts →
  ((hits sp' + misses sp') `mod` 2 ^ 64 = (completed ts + 1) `mod` 2 ^ 64)%Z →
  config_inv (mkConfig sp' (<[i := TDone s r]> ts)).
Proof.
  intros Hi Hc Hs -> Hp Hts Hn. split; [done|]. cbn. split; [by apply Forall_insert|].
  rewrite (completed_insert _ _ _ _ Hi), Hc, Hn. cbn. rewrite decide_False by done. f_equal. lia.
Qed.

Lemma intern_slow_count sp s n :
  ((hits sp + misses sp) `mod` 2 ^ 64 = n `mod` 2 ^ 64 →
   (hits (intern_slow sp s).2 + misses (intern_slow sp s).2) `mod` 2 ^ 64 = (n + 1) `mod` 2 ^ 64)%Z.
Proof.
  intros H. unfold intern_slow. destruct (pool sp !! s); cbn; [by apply inc_u64_sum_l|].
  rewrite (Z.add_comm (hits sp)). apply inc_u64_sum_l. by rewrite Z.add_comm.
Qed.

Lemma config_inv_call c c' : config_inv c → call_step c c' → config_inv c'.
Proof.
  intros (Hp & Hts & Hn) Hst. destruct Hst; cbn in *.
  - split; [done|]. cbn [threads cpool]. split; [by apply Forall_insert|].
    by rewrite (completed_insert_same _ _ _ _ H).
  - eapply config_inv_done; try done; [by apply Hp|]. by apply inc_u64_sum_l.
  - split; [done|]. cbn [threads cpool]. split; [by apply Forall_insert|].
    by rewrite (completed_insert_same _ _ _ _ H).
  - pose proof (Forall_lookup_1 _ _ _ _ Hts H) as Hs. cbn in Hs.
    destruct (intern_slow_ok sp s Hp) as [Hr Hp'].
    eapply config_inv_done; try done. by apply intern_slow_count.
Qed.
Lemma config_inv_step c c' : config_inv c → step c c' → config_inv c'.
Proof.
  intros Hc Hst. destruct Hst as [c1 c2 Hst|sp ts|sp ts order maxSize Ho];
    [exact (config_inv_call c1 c2 Hc Hst)|..]; destruct Hc as (Hp & Hts & Hn).
  - split; [by intros ??; cbn; rewrite lookup_empty|]. done.
  - split; [by apply Cleanup_ok|]. split; [done|]. unfold Cleanup. case_decide; done.
Qed.

(** Calls keep their arguments, and the pool holds arguments of calls only. *)
Lemma arg_insert (ts : list thread) i t t' : ts !! i = Some t → arg t' = arg t → arg <$> <[i := t']> ts = arg <$> ts.
Proof.
  intros Hi Ha. rewrite list_fmap_insert, Ha. apply list_insert_id. by rewrite list_lookup_fmap, Hi.
Qed.
Lemma pool_args_slow ss sp s : s ∈ ss → s ≠ "" → pool_args ss sp → pool_args ss (intern_slow sp s).2.
Proof.
  intros Hs Hne Hp. unfold intern_slow. destruct (pool sp !! s); [exact Hp|].
  intros k r. cbn. rewrite lookup_insert. case_decide; [by intros _; subst|apply Hp].
Qed.
Lemma call_args c c' : config_inv c → pool_args (arg <$> threads c) (cpool c) → call_step c c' →
  arg <$> threads c' = arg <$> threads c ∧ pool_args (arg <$> threads c) (cpool c').
Proof.
  intros (_ & Hts & _) Hp Hst. destruct Hst as [sp ts i Hi|sp ts i s r Hi|sp ts i s Hi|sp ts i s Hi]; cbn in *;
    (rewrite (arg_insert ts i _ _ Hi) by done; split; [done|]); try exact Hp.
  apply pool_args_slow; [|exact (Forall_lookup_1 _ _ _ _ Hts Hi)|done].
  apply list_elem_of_fmap. exists (TSlow s). split; [done|]. by apply list_elem_of_lookup; exists i.
Qed.
Lemma step_args c c' : config_inv c → pool_args (arg <$> threads c) (cpool c) → step c c' →
  arg <$> threads c' = arg <$> threads c ∧ pool_args (arg <$> threads c) (cpool c').
Proof.
  intros Hi Hp Hst. destruct Hst as [c1 c2 Hst|sp ts|sp ts order maxSize Ho]; [by apply call_args|..]; (split; [done|]); cbn in *.
  - by intros s r; cbn; rewrite lookup_empty.
  - intros s r Hs. eapply Hp, Cleanup_keeps; [exact Ho|exact Hs].
Qed.

(** What callers do to the pool: strings are only added, each when it is missed, and a call
    that returns leaves its string there. *)
Record grows (c c' : config) : Prop := {
  gr_pool : pool (cpool c) ⊆ pool (cpool c');
  gr_done i s r : threads c' !! i = Some (TDone s r) → threads c !! i ≠ Some (TDone s r) → s ≠ "" →
    pool (cpool c') !! s = Some s;
  gr_misses : (misses (cpool c') `mod` 2 ^ 64 =
    (misses (cpool c) + (Z.of_nat (size (pool (cpool c'))) - Z.of_nat (size (pool (cpool c))))) `mod` 2 ^ 64)%Z
}.
Lemma pool_grows_refl c : grows c c.
Proof. split; [done|done|]. f_equal. lia. Qed.
Lemma pool_grows_trans c1 c2 c3 : grows c1 c2 → grows c2 c3 → grows c1 c3.
Proof.
  intros [P1 D1 M1] [P2 D2 M2]. split.
  - by etrans.
  - intros i s r H3 H1 Hne. destruct (decide (threads c2 !! i = Some (TDone s r))) as [H2|H2].
    + eapply lookup_weaken; [by eapply D1|done].
    + by eapply D2.
  - rewrite M2, <-Z.add_mod_idemp_l, M1, Z.add_mod_idemp_l by lia. f_equal. lia.
Qed.
Lemma grows_add sp ts i s t : ts !! i = Some t → pool_ok sp →
  grows (mkConfig sp ts) (mkConfig (intern_slow sp s).2 (<[i := TDone s (intern_slow sp s).1]> ts)).
Proof.
  intros Hi Hok. assert (pool (intern_slow sp s).2 !! s = Some s) as Hs.
  { unfold intern_slow. destruct (pool sp !! s) as [r|] eqn:E; cbn; [|apply lookup_insert_eq].
    rewrite E. f_equal. by apply Hok. }
  split; cbn.
  - unfold intern_slow. destruct (pool sp !! s) eqn:E; [done|]. by apply insert_subseteq.
  - intros j s' r Hj Hn _. destruct (decide (i = j)) as [<-|Hne].
    + rewrite list_lookup_insert_eq in Hj by (by eapply lookup_lt_Some). by injection Hj as <- _.
    + by rewrite list_lookup_insert_ne in Hj.
  - unfold intern_slow. destruct (pool sp !! s) eqn:E; cbn; [f_equal; lia|].
    rewrite map_size_insert_None by done. unfold inc_u64. rewrite Z.mod_mod by lia. f_equal. lia.
Qed.
Lemma call_grows c c' : config_inv c → call_step c c' → grows c c'.
Proof.
  intros (Hok & _) Hst. destruct Hst as [sp ts i Hi|sp ts i s r Hi Hne Hr|sp ts i s Hi|sp ts i s Hi]; [..|by eapply grows_add];
    cbn in Hok; (split; cbn; [done| |f_equal; lia]).
  - intros j s r Hj Hn Hs. destruct (decide (i = j)) as [<-|Hij]; [|by rewrite list_lookup_insert_ne in Hj].
    rewrite list_lookup_insert_eq in Hj by (by eapply lookup_lt_Some). by injection Hj as <- _.
  - intros j s' r' Hj Hn _. destruct (decide (i = j)) as [<-|Hij]; [|by rewrite list_lookup_insert_ne in Hj].
    rewrite list_lookup_insert_eq in Hj by (by eapply lookup_lt_Some). injection Hj as <- _.
    by rewrite (Hok _ _ Hr) in Hr.
  - intros j s' r Hj Hn _. destruct (decide (i = j)) as [<-|Hij]; [|by rewrite list_lookup_insert_ne in Hj].
    by rewrite list_lookup_insert_eq in Hj by (by eapply lookup_lt_Some).
Qed.

Lemma config_inv_initial ss : config_inv (mkConfig NewStringPool (TStart <$> ss)).
Proof.
  split; [by intros ??; cbn; rewrite lookup_empty|]. cbn. split.
  - apply Forall_fmap, Forall_true. done.
  - f_equal. induction ss; cbn; [done|]. lia.
Qed.

(** C33. Interning by concurrent callers, in any interleaving of the critical sections of
    their calls with each other, with [Clear] and with [Cleanup]: a call that has returned
    has returned its own argument; every entry of the pool maps the argument of some call
    to itself; hits and misses together count (modulo 2^64) the returned calls
    with a non-empty argument.  While nothing is removed ([c] to [c']), strings stay in the pool, a call
    that returns leaves its argument there, and the misses (modulo 2^64) are exactly the
    strings that were added, so that each is added once and every other call is a hit. *)
Theorem concurrent_intern_correct (ss : list string) (c c' : config) :
  rtc step (mkConfig NewStringPool (TStart <$> ss)) c → rtc call_step c c' →
  (∀ i s r, threads c' !! i = Some (TDone s r) → ss !! i = Some s ∧ r = s) ∧
  (∀ s r, pool (cpool c') !! s = Some r → r = s ∧ s ∈ ss ∧ s ≠ "") ∧
  ((hits (cpool c') + misses (cpool c')) `mod` 2 ^ 64 = completed (threads c') `mod` 2 ^ 64)%Z ∧
  grows c c'.
Proof.
  intros Hrtc Hcalls.
  assert (config_inv c ∧ arg <$> threads c = ss ∧ pool_args ss (cpool c)) as (Hinv & Harg & Hpool).
  { remember (mkConfig NewStringPool (TStart <$> ss)) as c0 eqn:Hc0.
    assert (config_inv c0 ∧ arg <$> threads c0 = ss ∧ pool_args ss (cpool c0)) as Hi.
    { subst c0. split_and!; [apply config_inv_initial| |by intros ??; cbn; rewrite lookup_empty].
      cbn. rewrite <-list_fmap_compose. by apply list_fmap_id. }
    clear Hc0 Hcalls. induction Hrtc as [|x y z Hst _ IH]; [done|]. apply IH. destruct Hi as (Hi & <- & Hp).
    destruct (step_args _ _ Hi Hp Hst). by split; [eapply config_inv_step|]. }
  assert (config_inv c' ∧ arg <$> threads c' = ss ∧ pool_args ss (cpool c') ∧ grows c c') as (Hinv' & Harg' & Hpool' & Hg).
  { clear Hrtc. induction Hcalls as [|x y z Hst _ IH]; [split_and!; auto using pool_grows_refl|].
    subst ss. destruct (call_args _ _ Hinv Hpool Hst) as [Ha Hp]. pose proof (config_inv_call _ _ Hinv Hst) as Hi.
    destruct (IH Hi Ha Hp) as (? & ? & ? & Hg). split_and!; try done.
    eapply pool_grows_trans; [by apply call_grows|done]. }
  destruct Hinv' as (Hok & Hts & Hn). split_and!; [| |done|done].
  - intros i s r Hi. split; [|exact (Forall_lookup_1 _ _ _ _ Hts Hi)]. rewrite <-Harg'. by rewrite list_lookup_fmap, Hi.
  - intros s r Hs. split; [by apply Hok|by eapply Hpool'].
Qed.

(** Two callers miss the same string; the second finds what the first added. *)
Lemma concurrent_intern_correct_witness :
  let c := mkConfig NewStringPool (TStart <$> ["a"; "a"]) in
  let c' := mkConfig (mkPool {["a" := "a"]} 1 1) [TDone "a" "a"; TDone "a" "a"] in
  rtc call_step c c' ∧ completed (threads c') = 2%Z ∧ grows c c'.
Proof.
  intros c c'. assert (rtc call_step c c') as Hr.
  { eapply rtc_l; [eapply (step_fast_miss _ _ 0 "a"); done|].
    eapply rtc_l; [eapply (step_fast_miss _ _ 1 "a"); done|].
    eapply rtc_l; [eapply (step_slow _ _ 1 "a"); done|].
    eapply rtc_l; [eapply (step_slow _ _ 0 "a"); done|]. apply rtc_refl. }
  split; [exact Hr|]. split; [vm_compute; reflexivity|].
  exact (proj2 (proj2 (proj2 (concurrent_intern_correct ["a"; "a"] c c' (rtc_refl _ _) Hr)))).
Defined.

End StringPool.
