(* ===== verification/Api.v ===== *)
(** * [api/v1alpha1]: methods of the custom resources

    Node IDs and labels in the metadata, namespace defaulting ([NormalizeSpec]),
    instantiation of a template ([FillFromTemplate]), the equality tests that
    decide whether an update triggers a rebuild, and the decoding of the raw
    specifications.  The reflection-driven JSON encoder and [text/template] are
    the functions of [JsonLib]. *)

From S2P Require Import Prelude GoStrings Types Merge.

Module Api.

Definition AnnotationNodeIDs : string := "envoy.kaasops.io/node-id".
Definition AnnotationEditable : string := "envoy.kaasops.io/editable".
Definition LabelAccessGroup : string := "exc-access-group".
Definition LabelName : string := "exc-name".
Definition AnnotationSecretDomains : string := "envoy.kaasops.io/domains".
Definition annotationDescription : string := "envoy.kaasops.io/description".
Definition GeneralAccessGroup : string := "general".
Definition annotationAutogenFilename : string := "envoy.kaasops.io/auto-generated-filename".

Definition ErrSpecNil : error := ErrNew "spec is nil".
Definition ErrInvalidAnnotationAutogenFilenameValue : error :=
  ErrNew "envoy.kaasops.io/auto-generated-filename annotation value must be true or false".
Definition ErrInvalidAccessLogConfigType : error :=
  ErrNew "access log config type must be of type file".

(** ** Libraries *)
Class JsonLib := {
  (** [json.Marshal] of a [VirtualServiceCommonSpec]. *)
  json_Marshal : CommonSpec → result string;
  (** [json.Unmarshal] into a generic value; [None] on a syntax error. *)
  json_value : string → option Merge.json;
  (** [json.Unmarshal(json.Marshal(v), &spec)]: decoding into an existing struct. *)
  json_Unmarshal : Merge.json → CommonSpec → result CommonSpec;
  template_Parse : string → result string;
  template_Execute : string → gmap string string → result string
}.

(** ** Metadata *)

(** The loop of [GetNodeIDs]: [keys] is the set of entries already seen. *)
Fixpoint dedup_entries (keys : gset string) (entries : list string) : list string :=
  match entries with
  | [] => []
  | e :: es =>
      let e := GoStrings.TrimSpace e in
      if decide (e ∈ keys) then dedup_entries keys es
      else e :: dedup_entries ({[e]} ∪ keys) es
  end.

Definition GetNodeIDs (vs : VirtualService) : list string :=
  let nodeIDsAnnotation := default "" (nilmap_get (Annotations (meta vs)) AnnotationNodeIDs) in
  if decide (nodeIDsAnnotation = "") then []
  else dedup_entries ∅ (GoStrings.Split GoStrings.comma nodeIDsAnnotation).

(** [None] is the panic of an assignment to a nil map. *)
Definition SetNodeIDs (vs : VirtualService) (nodeIDs : list string) : option VirtualService :=
  let annotations := Annotations (meta vs) in
  if decide (length nodeIDs = 0) then
    Some (with_meta vs (set_annotations (meta vs) (delete AnnotationNodeIDs <$> annotations)))
  else match annotations with
       | None => None
       | Some a =>
           Some (with_meta vs (set_annotations (meta vs)
             (Some (<[AnnotationNodeIDs := GoStrings.Join GoStrings.comma nodeIDs]> a))))
       end.

Definition GetLabelName (vs : VirtualService) : string :=
  match nilmap_get (Labels (meta vs)) LabelName with
  | Some name => name
  | None => Name (meta vs)
  end.

(** [labels := obj.GetLabels(); if len(labels) == 0 { labels = make(...) }] *)
Definition or_make (m : option (gmap string string)) : gmap string string :=
  match m with Some m => if decide (size m = 0) then ∅ else m | None => ∅ end.

Definition SetLabelName (vs : VirtualService) (name : string) : VirtualService :=
  with_meta vs (set_labels (meta vs) (Some (<[LabelName := name]> (or_make (Labels (meta vs)))))).

Definition GetAccessGroup {R} `{!HasMeta R} (r : R) : string :=
  let accessGroup := default "" (nilmap_get (Labels (meta r)) LabelAccessGroup) in
  if decide (accessGroup = "") then GeneralAccessGroup else accessGroup.

Definition SetAccessGroup (vs : VirtualService) (accessGroup : string) : VirtualService :=
  with_meta vs (set_labels (meta vs)
    (Some (<[LabelAccessGroup := accessGroup]> (or_make (Labels (meta vs)))))).

Definition FormatBool (b : bool) : string := if b then "true" else "false".

Definition SetEditable (vs : VirtualService) (editable : bool) : VirtualService :=
  with_meta vs (set_annotations (meta vs)
    (Some (<[AnnotationEditable := FormatBool editable]> (or_make (Annotations (meta vs)))))).

Definition IsEditable (vs : VirtualService) : bool :=
  match nilmap_get (Annotations (meta vs)) AnnotationEditable with
  | Some editable => bool_decide (editable = "true")
  | None => false
  end.

Definition GetDescription {R} `{!HasMeta R} (r : R) : string :=
  default "" (nilmap_get (Annotations (meta r)) annotationDescription).

Definition SetDescription (vs : VirtualService) (description : string) : VirtualService :=
  with_meta vs (set_annotations (meta vs)
    (Some (<[annotationDescription := description]> (default ∅ (Annotations (meta vs)))))).

Definition UpdateStatus (vs : VirtualService) (invalid : bool) (message : string) : VirtualService :=
  mkVS (vs_meta vs) (vs_spec vs) (mkVSObjStatus message invalid).

Definition IsStatusInvalid (vs : option VirtualService) : bool :=
  match vs with None => false | Some vs => stInvalid (vs_status vs) end.

Definition GetListenerNamespacedName (vs : VirtualService) : result NN :=
  match ListenerRef (Common (vs_spec vs)) with
  | None => Err (ErrNew "listener is nil")
  | Some l => Ok (Helpers.mkNN (Helpers.GetNamespace (refNamespace l) (Namespace (meta vs))) (refName l))
  end.

(** ** Namespace defaulting *)

(** [if ref.Namespace == nil { ref.Namespace = &ns }] *)
Definition default_ref_ns (ns : string) (r : ResourceRef) : ResourceRef :=
  match refNamespace r with Some _ => r | None => mkRef (refName r) (Some ns) end.

(** A common specification with other references. *)
Definition set_refs (c : CommonSpec) (listener alc : option ResourceRef)
    (alcs filters routes : list ResourceRef) (tracing : option ResourceRef) : CommonSpec :=
  mkCommon (VirtualHostRaw c) listener (TlsCfg c) (AccessLog c) (AccessLogs c) alc alcs filters
    routes (HTTPFilters c) (UseRemoteAddress c) (UpgradeConfigs c) (RBAC c) (XFFNumTrustedHops c)
    tracing (TracingRaw c) (Http2ProtocolOptions c).

Definition VS_NormalizeSpec (vs : VirtualService) : VirtualService :=
  let ns := Namespace (meta vs) in
  let sp := vs_spec vs in
  let c := Common sp in
  mkVS (vs_meta vs)
    (mkVSSpec
      (set_refs c (ListenerRef c) (AccessLogConfigRef c) (AccessLogConfigRefs c)
        (AdditionalHttpFilters c) (AdditionalRoutes c) (default_ref_ns ns <$> TracingRef c))
      (default_ref_ns ns <$> Template sp) (TemplateOptions sp) (ExtraFields sp))
    (vs_status vs).

Definition VST_NormalizeSpec (vst : VirtualServiceTemplate) : VirtualServiceTemplate :=
  let ns := Namespace (meta vst) in
  let c := vst_common vst in
  mkVST (vst_meta vst)
    (set_refs c (default_ref_ns ns <$> ListenerRef c) (default_ref_ns ns <$> AccessLogConfigRef c)
      (default_ref_ns ns <$> AccessLogConfigRefs c) (default_ref_ns ns <$> AdditionalHttpFilters c)
      (default_ref_ns ns <$> AdditionalRoutes c) (default_ref_ns ns <$> TracingRef c))
    (vst_extraFields vst).

(** ** Templates *)

(** The checks on one field declared by the template. *)
Definition check_extra_field (extra : gmap string string) (field : ExtraField) : result unit :=
  _ ← (if efRequired field then
         match extra !! efName field with
         | Some value => fail_if (bool_decide (value = ""))
             (ErrNew ("required extra field '" +:+ efName field +:+ "' is missing or empty"))
         | None => Err (ErrNew ("required extra field '" +:+ efName field +:+ "' is missing or empty"))
         end
       else Ok tt);
  if decide (efType field = "enum") then
    match extra !! efName field with
    | Some value =>
        fail_if (negb (bool_decide (value ∈ efEnum field)))
          (ErrNew ("extra field '" +:+ efName field +:+ "' has invalid value '" +:+ value +:+ "'"))
    | None => Ok tt
    end
  else Ok tt.

(** The validation block of [FillFromTemplate]; [order] is the order in which
    the map of extra fields is iterated. *)
Definition check_extra_fields (order : list string) (extra : gmap string string)
    (fields : list ExtraField) : result unit :=
  if decide (0 < length fields) then
    _ ← map_result (check_extra_field extra) fields;
    _ ← map_result (λ fieldName, fail_if (negb (bool_decide (fieldName ∈ efName <$> fields)))
          (ErrNew ("extra field '" +:+ fieldName +:+ "' is not defined in the template"))) order;
    Ok tt
  else Ok tt.

Definition convert_opt (opt : TemplateOpts) : result Merge.Opt :=
  if decide (Field opt = "") then Err (ErrNew "template option field is empty")
  else match Mod opt with
       | ModifierMerge => Ok (Merge.mkOpt (Field opt) Merge.OperationMerge)
       | ModifierReplace => Ok (Merge.mkOpt (Field opt) Merge.OperationReplace)
       | ModifierDelete => Ok (Merge.mkOpt (Field opt) Merge.OperationDelete)
       | ModifierOther _ => Err (ErrNew "template option modifier is invalid")
       end.

Section templates.
Context `{JsonLib}.

Definition FillFromTemplate (vs : VirtualService) (vst : VirtualServiceTemplate)
    (templateOpts : list TemplateOpts) (order : list string) : result VirtualService :=
  let vst := VST_NormalizeSpec vst in
  let sp := vs_spec vs in
  _ ← check_extra_fields order (ExtraFields sp) (vst_extraFields vst);
  baseData ← json_Marshal (vst_common vst);
  baseData ←
    (if decide (0 < size (ExtraFields sp) ∧ 0 < length (vst_extraFields vst)) then
       tmpl ← wrap_err "failed to parse template" (template_Parse baseData);
       wrap_err "failed to execute template" (template_Execute tmpl (ExtraFields sp))
     else Ok baseData);
  svcData ← json_Marshal (Common sp);
  tOpts ← map_result convert_opt templateOpts;
  let mergedData := Merge.JSONRawMessages (json_value baseData) (json_value svcData) tOpts in
  common ← json_Unmarshal mergedData (Common sp);
  Ok (mkVS (vs_meta vs) (mkVSSpec common (Template sp) (TemplateOptions sp) (ExtraFields sp))
        (vs_status vs)).

(** ** Equality tests *)
Definition Common_IsEqual (a b : CommonSpec) : bool :=
  match json_Marshal a, json_Marshal b with
  | Ok x, Ok y => bool_decide (x = y)
  | _, _ => false
  end.

Definition VS_IsEqual (vs other : option VirtualService) : bool :=
  match vs, other with
  | None, None => true
  | Some vs, Some other =>
      if decide (default "" (nilmap_get (Annotations (meta vs)) AnnotationNodeIDs) ≠
                 default "" (nilmap_get (Annotations (meta other)) AnnotationNodeIDs)) then false
      else if negb (Common_IsEqual (Common (vs_spec vs)) (Common (vs_spec other))) then false
      else if decide (Template (vs_spec vs) ≠ Template (vs_spec other)) then false
      else if decide (TemplateOptions (vs_spec vs) ≠ TemplateOptions (vs_spec other)) then false
      else if decide (size (ExtraFields (vs_spec vs)) ≠ size (ExtraFields (vs_spec other))) then false
      else forallb (λ kv : string * string,
             bool_decide (ExtraFields (vs_spec other) !! kv.1 = Some kv.2))
             (map_to_list (ExtraFields (vs_spec vs)))
  | _, _ => false
  end.

Definition VST_IsEqual (vst other : option VirtualServiceTemplate) : bool :=
  match vst, other with
  | None, None => true
  | Some vst, Some other =>
      Common_IsEqual (vst_common vst) (vst_common other)
      && bool_decide (vst_extraFields vst = vst_extraFields other)
  | _, _ => false
  end.
End templates.

(** [bytes.Equal]: a nil slice equals an empty one. *)
Definition bytes_Equal (a b : option string) : bool := bool_decide (default "" a = default "" b).

(** The pattern of [Cluster.IsEqual] and [Policy.IsEqual] on the specifications. *)
Definition spec_IsEqual (a b : option RawExtension) : bool :=
  match a, b with
  | None, None => true
  | Some a, Some b =>
      match Raw a, Raw b with
      | None, None => true
      | Some x, Some y => bool_decide (x = y)
      | _, _ => false
      end
  | _, _ => false
  end.

Definition Cluster_IsEqual (c other : option Cluster) : bool :=
  match c, other with
  | None, None => true
  | Some c, Some other => spec_IsEqual (c_spec c) (c_spec other)
  | _, _ => false
  end.

Definition Policy_IsEqual (p other : option Policy) : bool :=
  match p, other with
  | None, None => true
  | Some p, Some other => spec_IsEqual (p_spec p) (p_spec other)
  | _, _ => false
  end.

(** [Listener.IsEqual] and [Tracing.IsEqual]: a missing specification or nil
    bytes are never equal to anything. *)
Definition strict_IsEqual (a b : option RawExtension) : bool :=
  match a ≫= Raw, b ≫= Raw with
  | Some x, Some y => bool_decide (x = y)
  | _, _ => false
  end.

Definition Listener_IsEqual (l other : option Listener) : bool :=
  match l, other with
  | None, None => true
  | Some l, Some other => strict_IsEqual (l_spec l) (l_spec other)
  | _, _ => false
  end.

Definition Tracing_IsEqual (t other : option Tracing) : bool :=
  match t, other with
  | None, None => true
  | Some t, Some other => strict_IsEqual (t_spec t) (t_spec other)
  | _, _ => false
  end.

(** [other.Spec[i]] is only read for [i < len(r.Spec) = len(other.Spec)]. *)
Definition Route_IsEqual (r other : option Route) : bool :=
  match r, other with
  | None, None => true
  | Some r, Some other =>
      if decide (length (r_spec r) ≠ length (r_spec other)) then false
      else forallb (λ p : RawExtension * RawExtension, bytes_Equal (Raw p.2) (Raw p.1))
             (zip (r_spec r) (r_spec other))
  | _, _ => false
  end.

Definition HttpFilter_IsEqual `{JsonLib} (h other : option HttpFilter) : bool :=
  match h, other with
  | None, None => true
  | Some h, Some other =>
      if decide (length (hf_spec h) ≠ length (hf_spec other)) then false
      else forallb (λ p : RawExtension * RawExtension,
             match json_value (raw_bytes p.1), json_value (raw_bytes p.2) with
             | Some x, Some y => bool_decide (x = y)
             | _, _ => false
             end) (zip (hf_spec h) (hf_spec other))
  | _, _ => false
  end.

Definition AccessLogConfig_IsEqual (a other : option AccessLogConfig) : bool :=
  match a, other with
  | None, None => true
  | Some a, Some other =>
      if decide (nilmap_get (Annotations (meta a)) annotationAutogenFilename ≠
                 nilmap_get (Annotations (meta other)) annotationAutogenFilename) then false
      else match alc_spec a, alc_spec other with
           | None, None => true
           | Some x, Some y => bytes_Equal (Raw x) (Raw y)
           | _, _ => false
           end
  | _, _ => false
  end.

(** ** Decoding of the raw specifications *)
Section decoding.
Context {M : Type} `{!ProtoMessage M}.

Definition unmarshal_spec (spec : option RawExtension) : result M :=
  match spec with
  | None => Err ErrSpecNil
  | Some r => pb_unmarshal (raw_bytes r)
  end.

Definition unmarshal_specs (specs : list RawExtension) : result (list M) :=
  if decide (length specs = 0) then Err ErrSpecNil
  else map_result (λ r, pb_unmarshal (raw_bytes r)) specs.

(** [for _, m := range ms { if err := m.ValidateAll(); err != nil { return nil, err } }] *)
Definition validate_all (ms : list M) : result (list M) := map_result pb_check ms.
End decoding.

Definition Cluster_UnmarshalV3 `{!ProtoMessage Envoy.ClusterV3} (c : Cluster)
  : result Envoy.ClusterV3 := unmarshal_spec (c_spec c).
Definition Cluster_UnmarshalV3AndValidate `{!ProtoMessage Envoy.ClusterV3} (c : Cluster)
  : result Envoy.ClusterV3 := m ← Cluster_UnmarshalV3 c; pb_check m.

Definition Listener_UnmarshalV3 `{!ProtoMessage Envoy.ListenerV3} (l : Listener)
  : result Envoy.ListenerV3 := unmarshal_spec (l_spec l).
(** Returns a nil listener also on success. *)
Definition Listener_UnmarshalV3AndValidate `{!ProtoMessage Envoy.ListenerV3} (l : Listener)
  : option Envoy.ListenerV3 * option error :=
  match Listener_UnmarshalV3 l with
  | Err e => (None, Some e)
  | Ok m => (None, pb_validate m)
  end.

Definition Route_UnmarshalV3 `{!ProtoMessage Envoy.RouteV3} (r : Route)
  : result (list Envoy.RouteV3) := unmarshal_specs (r_spec r).
Definition Route_UnmarshalV3AndValidate `{!ProtoMessage Envoy.RouteV3} (r : Route)
  : result (list Envoy.RouteV3) := ms ← Route_UnmarshalV3 r; validate_all ms.

Definition HttpFilter_UnmarshalV3 `{!ProtoMessage Envoy.HttpFilterV3} (h : HttpFilter)
  : result (list Envoy.HttpFilterV3) := unmarshal_specs (hf_spec h).
Definition HttpFilter_UnmarshalV3AndValidate `{!ProtoMessage Envoy.HttpFilterV3} (h : HttpFilter)
  : result (list Envoy.HttpFilterV3) := ms ← HttpFilter_UnmarshalV3 h; validate_all ms.

(** [rbacv3.Policy] and [HttpConnectionManager_Tracing] are carried along whole. *)
Definition Policy_UnmarshalV3 {M} `{!ProtoMessage M} (p : Policy) : result M :=
  unmarshal_spec (p_spec p).
Definition Policy_UnmarshalV3AndValidate {M} `{!ProtoMessage M} (p : Policy) : result M :=
  m ← Policy_UnmarshalV3 p; pb_check m.

Definition Tracing_UnmarshalV3 {M} `{!ProtoMessage M} (t : Tracing) : result M :=
  unmarshal_spec (t_spec t).
(** On a validation error the decoded message is returned beside it. *)
Definition Tracing_UnmarshalV3AndValidate {M} `{!ProtoMessage M} (t : Tracing)
  : option M * option error :=
  match Tracing_UnmarshalV3 t with
  | Err e => (None, Some e)
  | Ok m => (Some m, pb_validate m)
  end.

(** ** Node IDs *)
Lemma dedup_entries_spec keys es :
  NoDup (dedup_entries keys es) ∧
  ∀ e, e ∈ dedup_entries keys es ↔ (e ∉ keys) ∧ e ∈ (GoStrings.TrimSpace <$> es).
Proof.
  revert keys. induction es as [|e es IH]; intros keys; cbn.
  - split; [constructor|]. set_solver.
  - case_decide as Hk.
    + destruct (IH keys) as [Hnd Hin]. split; [done|]. intros x. rewrite Hin. set_solver.
    + destruct (IH ({[GoStrings.TrimSpace e]} ∪ keys)) as [Hnd Hin]. split.
      * constructor; [|done]. rewrite Hin. set_solver.
      * intros x. rewrite !elem_of_cons, Hin.
        destruct (decide (x = GoStrings.TrimSpace e)); set_solver.
Qed.

Lemma dedup_entries_id keys es :
  NoDup es → Forall (λ e, GoStrings.TrimSpace e = e) es → (∀ e, e ∈ es → e ∉ keys) →
  dedup_entries keys es = es.
Proof.
  revert keys. induction es as [|e es IH]; intros keys Hnd Htrim Hk; [done|].
  apply NoDup_cons in Hnd as [He Hnd]. apply Forall_cons in Htrim as [Ht Htrim]. cbn.
  rewrite Ht, decide_False by set_solver. f_equal. apply IH; [done..|set_solver].
Qed.

(** The node IDs of a service are pairwise distinct, and they are exactly
    the trimmed comma-separated entries of its annotation. *)
Theorem GetNodeIDs_spec vs :
  NoDup (GetNodeIDs vs) ∧
  ∀ n, n ∈ GetNodeIDs vs ↔
    ∃ a e, nilmap_get (Annotations (meta vs)) AnnotationNodeIDs = Some a ∧ a ≠ "" ∧
      e ∈ GoStrings.Split GoStrings.comma a ∧ n = GoStrings.TrimSpace e.
Proof.
  unfold GetNodeIDs. destruct (nilmap_get _ _) as [a|]; cbn.
  2:{ split; [constructor|]. set_solver. }
  case_decide as Ha; [subst; split; [constructor|]; set_solver|].
  destruct (dedup_entries_spec ∅ (GoStrings.Split GoStrings.comma a)) as [Hnd Hin].
  split; [done|]. intros n. rewrite Hin, list_elem_of_fmap. set_solver.
Qed.

(** [GetNodeIDs] reads back what [SetNodeIDs] wrote, for distinct trimmed
    node IDs without commas on a service whose annotations map is allocated. *)
Theorem SetNodeIDs_GetNodeIDs vs ids :
  Annotations (meta vs) ≠ None → NoDup ids → ids ≠ [""] →
  Forall (λ e, GoStrings.TrimSpace e = e ∧ GoStrings.free_of GoStrings.comma e) ids →
  ∃ vs', SetNodeIDs vs ids = Some vs' ∧ GetNodeIDs vs' = ids.
Proof.
  intros Hann Hnd Hne Hall. unfold SetNodeIDs.
  destruct (Annotations (meta vs)) as [a|] eqn:Ha; [|done].
  destruct ids as [|x ids]; cbn [length].
  - eexists; split; [by rewrite decide_True|]. unfold GetNodeIDs. rewrite meta_with_meta. cbn.
    unfold nilmap_get. cbn. by rewrite lookup_delete_eq.
  - eexists; split; [by rewrite decide_False|]. unfold GetNodeIDs. rewrite meta_with_meta.
    cbn -[GoStrings.Join]. rewrite lookup_insert_eq. cbn -[GoStrings.Join].
    apply Forall_and in Hall as [Htrim Hfree].
    assert (GoStrings.Split GoStrings.comma (GoStrings.Join GoStrings.comma (x :: ids))
      = x :: ids) as Hs by (by apply GoStrings.Split_Join).
    rewrite decide_False.
    + rewrite Hs. by apply dedup_entries_id; [..|set_solver].
    + intros He. rewrite He in Hs. cbn in Hs. by destruct Hne.
Qed.

Definition ex_vs (a : option (gmap string string)) : VirtualService :=
  mkVS (mkMeta "vs" "ns" "u1" 0 a None) (mkVSSpec empty_common None [] ∅) (mkVSObjStatus "" false).

Lemma SetNodeIDs_GetNodeIDs_witness :
  ∃ vs', SetNodeIDs (ex_vs (Some ∅)) ["n1"; "*"; "n2"] = Some vs' ∧
    GetNodeIDs vs' = ["n1"; "*"; "n2"].
Proof.
  apply SetNodeIDs_GetNodeIDs.
  - discriminate.
  - apply (bool_decide_unpack _). vm_compute. exact I.
  - discriminate.
  - repeat constructor; vm_compute; reflexivity.
Defined.

(** ** Namespace defaulting *)
Lemma default_ref_ns_idem ns ns' r : default_ref_ns ns' (default_ref_ns ns r) = default_ref_ns ns r.
Proof. unfold default_ref_ns. by destruct r as [? [?|]]. Qed.

Lemma default_ref_ns_opt_idem ns (o : option ResourceRef) :
  (default_ref_ns ns <$> (default_ref_ns ns <$> o)) = (default_ref_ns ns <$> o).
Proof. destruct o; cbn; [|done]. by rewrite default_ref_ns_idem. Qed.

Lemma default_ref_ns_list_idem ns (l : list ResourceRef) :
  default_ref_ns ns <$> (default_ref_ns ns <$> l) = default_ref_ns ns <$> l.
Proof. rewrite <-list_fmap_compose. apply list_fmap_ext. intros i r _. apply default_ref_ns_idem. Qed.

(** The references of a common specification, in the order of the fields. *)
Definition common_refs (c : CommonSpec) : list ResourceRef :=
  option_list (ListenerRef c) ++ option_list (AccessLogConfigRef c) ++ AccessLogConfigRefs c ++
  AdditionalHttpFilters c ++ AdditionalRoutes c ++ option_list (TracingRef c).

Lemma common_refs_norm ns vst :
  Namespace (meta vst) = ns →
  common_refs (vst_common (VST_NormalizeSpec vst)) =
  default_ref_ns ns <$> common_refs (vst_common vst).
Proof.
  intros <-. unfold common_refs. rewrite !fmap_app.
  assert (∀ o : option ResourceRef, option_list (default_ref_ns (Namespace (meta vst)) <$> o)
    = default_ref_ns (Namespace (meta vst)) <$> option_list o) as Ho by (by intros []).
  by rewrite <-!Ho.
Qed.

(** Normalizing a template makes every reference explicit: a reference
    without a namespace gets the template's own, one with a namespace is kept, in
    the same order, and normalizing again changes nothing. *)
Theorem VST_NormalizeSpec_explicit vst :
  common_refs (vst_common (VST_NormalizeSpec vst)) =
    (λ r, mkRef (refName r) (Some (Helpers.GetNamespace (refNamespace r) (Namespace (meta vst)))))
      <$> common_refs (vst_common vst) ∧
  VST_NormalizeSpec (VST_NormalizeSpec vst) = VST_NormalizeSpec vst.
Proof.
  split.
  - rewrite (common_refs_norm _ _ eq_refl). apply list_fmap_ext. intros i [? [?|]] _; done.
  - unfold VST_NormalizeSpec, set_refs. cbn.
    by rewrite !default_ref_ns_opt_idem, !default_ref_ns_list_idem.
Qed.

(** ** Extra fields of a template *)
Definition extra_field_ok (extra : gmap string string) (f : ExtraField) : Prop :=
  (efRequired f = true → ∃ v, extra !! efName f = Some v ∧ v ≠ "") ∧
  (efType f = "enum" → ∀ v, extra !! efName f = Some v → v ∈ efEnum f).

Lemma fail_if_Ok b e : fail_if b e = Ok tt ↔ b = false.
Proof. by destruct b. Qed.

Lemma check_extra_field_ok extra f : check_extra_field extra f = Ok tt ↔ extra_field_ok extra f.
Proof.
  unfold check_extra_field, extra_field_ok.
  assert (∀ (r : result unit) (k : result unit),
    (r ≫= λ _, k) = Ok tt ↔ r = Ok tt ∧ k = Ok tt) as Hbind.
  { intros [[]|] ?; cbn; naive_solver. }
  rewrite Hbind. clear Hbind. f_equiv.
  - destruct (efRequired f); [|naive_solver].
    destruct (extra !! efName f) as [v|]; [|naive_solver].
    rewrite fail_if_Ok, bool_decide_eq_false. naive_solver.
  - destruct (decide (efType f = "enum")); [|naive_solver].
    destruct (extra !! efName f) as [v|]; [|naive_solver].
    rewrite fail_if_Ok, negb_false_iff, bool_decide_eq_true. naive_solver.
Qed.

Lemma map_result_unit_Ok {A} (f : A → result unit) l us :
  map_result f l = Ok us → Forall (λ x, f x = Ok tt) l.
Proof.
  rewrite map_result_Ok. induction 1 as [|x [] l us' ? ? ?]; by constructor.
Qed.

Lemma map_result_unit_Ok' {A} (f : A → result unit) l :
  Forall (λ x, f x = Ok tt) l → map_result f l = Ok (replicate (length l) tt).
Proof. intros Hall. apply map_result_Ok. induction Hall; by constructor. Qed.

(** The extra fields of a service pass the template's checks exactly when
    every required field has a non-empty value, every given enum field has one of
    the declared values, and no undeclared field is given; a template that
    declares no extra fields checks nothing.  The iteration order over the
    service's fields does not matter. *)
Theorem check_extra_fields_spec order extra fields :
  order ≡ₚ (map_to_list extra).*1 →
  check_extra_fields order extra fields = Ok tt ↔
  fields = [] ∨
  (Forall (extra_field_ok extra) fields ∧ ∀ k, is_Some (extra !! k) → k ∈ efName <$> fields).
Proof.
  intros Hp. assert (∀ k, k ∈ order ↔ is_Some (extra !! k)) as Hk.
  { intros k. rewrite Hp, list_elem_of_fmap. split.
    - intros ([? v] & -> & Hin). exists v. by apply elem_of_map_to_list.
    - intros [v Hv]. exists (k, v). split; [done|]. by apply elem_of_map_to_list. }
  unfold check_extra_fields. case_decide as Hl; [|destruct fields; cbn in *; [naive_solver|lia]].
  split.
  - intros H. right.
    apply bind_Ok_inv in H as (us & H1%map_result_unit_Ok & H).
    apply bind_Ok_inv in H as (us' & H2%map_result_unit_Ok & _). split.
    + eapply Forall_impl; [exact H1|]. intros f. apply check_extra_field_ok.
    + intros k Hs%Hk. apply (proj1 (Forall_forall _ _) H2) in Hs.
      by apply fail_if_Ok, negb_false_iff, bool_decide_eq_true in Hs.
  - intros [->|[Hf Hd]]; [cbn in Hl; lia|].
    rewrite (map_result_unit_Ok' (check_extra_field extra)).
    2:{ eapply Forall_impl; [exact Hf|]. intros f. apply check_extra_field_ok. }
    cbn. rewrite map_result_unit_Ok'; [done|]. apply Forall_forall. intros k Hin%Hk%Hd.
    by apply fail_if_Ok, negb_false_iff, bool_decide_eq_true.
Qed.

Definition ex_fields : list ExtraField :=
  [mkEF "host" "" "string" true [] ""; mkEF "mode" "" "enum" false ["a"; "b"] "a"].

Lemma check_extra_fields_spec_witness :
  check_extra_fields ["mode"; "host"] {[ "host" := "h"; "mode" := "b" ]} ex_fields = Ok tt.
Proof.
  apply check_extra_fields_spec.
  - apply (bool_decide_unpack _). vm_compute. exact I.
  - right. split.
    + apply Forall_cons; split; [split; cbn|apply Forall_cons; split; [split; cbn|apply Forall_nil_2]].
      * intros _. exists "h". vm_compute. split; [reflexivity|discriminate].
      * discriminate.
      * discriminate.
      * intros _ v Hv. vm_compute in Hv. injection Hv as <-. right. left.
    + intros k [v Hv]. destruct (decide (k = "host")) as [->|H1]; [left|].
      destruct (decide (k = "mode")) as [->|H2]; [right; left|].
      rewrite lookup_insert_ne, lookup_singleton_ne in Hv by congruence. discriminate Hv.
Defined.

End Api.
