(* ===== verification/DomainSecrets.v ===== *)
(** * [internal/store/domain_secrets.go]

    The index from domains to TLS secrets, certificate validity, and the
    selection of the best secret for a domain.  A [time.Time] is a number of
    nanoseconds since Go's zero time, so that [IsZero] is equality with 0;
    [time.Now()] is an argument [now].  PEM decoding and X.509 parsing are an
    argument of [ParseCertificateNotAfter]. *)

From S2P Require Import Prelude GoStrings Types.
From Stdlib Require String.

Module DomainSecrets.

Abbreviation Time := Z.
Definition IsZero (t : Time) : bool := bool_decide (t = 0%Z).
Definition After (t u : Time) : bool := bool_decide (u < t)%Z.
Definition Before (t u : Time) : bool := bool_decide (t < u)%Z.

(** Go's [<] on strings: byte-wise lexicographic. *)
Definition str_less (a b : string) : bool := bool_decide (¬ String.le b a).

(** [ValidateDomainPattern]: the empty string means valid. *)
Definition ValidateDomainPattern (domain : string) : string :=
  if decide (domain = "") then "empty domain"
  else match GoStrings.Index GoStrings.star domain with
       | None => ""
       | Some asteriskIdx =>
           if decide (asteriskIdx ≠ 0) then "wildcard (*) must be at the start of domain"
           else if decide (String.length domain < 3) then "wildcard domain too short"
           else if decide (GoStrings.byte_at domain 1 ≠ Some GoStrings.dot) then
             "wildcard must be followed by dot (e.g., *.example.com, not *example.com)"
           else if decide (1 < GoStrings.Count GoStrings.star domain) then
             "multiple wildcards not allowed"
           else
             let rest := GoStrings.drop_bytes 2 domain in
             if decide (rest = "" ∨ rest = ".") then
               "wildcard domain must have at least one label after *."
             else ""
       end.

Record SecretDomainEntry := mkEntry { eNN : NN; NotAfter : Time }.
Global Instance SecretDomainEntry_eq_dec : EqDecision SecretDomainEntry.
Proof. solve_decision. Defined.

Abbreviation Index := (gmap string (gmap NN SecretDomainEntry)).

Definition NewDomainSecretsIndex : Index := ∅.

(** [idx.Add(domain, entry)]. *)
Definition Add (idx : Index) (domain : string) (entry : SecretDomainEntry) : Index :=
  let set := default ∅ (idx !! domain) in
  <[domain := <[eNN entry := entry]> set]> idx.

(** [idx.Remove(domain, nn)]: empty maps are cleaned up. *)
Definition Remove (idx : Index) (domain : string) (nn : NN) : Index :=
  match idx !! domain with
  | None => idx
  | Some set =>
      let set' := delete nn set in
      if decide (size set' = 0) then delete domain idx else <[domain := set']> idx
  end.

Inductive validityPriority :=
| validityNotFound | validityExpired | validityUnknown | validityValid.
Global Instance validityPriority_eq_dec : EqDecision validityPriority.
Proof. solve_decision. Defined.

(** The [iota] values. *)
Definition priority (v : validityPriority) : nat :=
  match v with
  | validityNotFound => 0 | validityExpired => 1 | validityUnknown => 2 | validityValid => 3
  end.

Definition getValidityFromEntry (entry : SecretDomainEntry) (now : Time) : validityPriority :=
  if IsZero (NotAfter entry) then validityUnknown
  else if After (NotAfter entry) now then validityValid
  else validityExpired.

Record candidateEntry := mkCand { nn : NN; validity : validityPriority; isSameNs : bool }.

(** The comparison function given to [sort.Slice]. *)
Definition cand_less (i j : candidateEntry) : bool :=
  if decide (validity i ≠ validity j) then bool_decide (priority (validity j) < priority (validity i))
  else if decide (isSameNs i ≠ isSameNs j) then isSameNs i
  else if decide (Helpers.Namespace (nn i) ≠ Helpers.Namespace (nn j)) then
    str_less (Helpers.Namespace (nn i)) (Helpers.Namespace (nn j))
  else str_less (Helpers.Name (nn i)) (Helpers.Name (nn j)).

Definition cand_le (i j : candidateEntry) : Prop := cand_less j i = false.
Global Instance cand_le_dec : RelDecision cand_le.
Proof. intros i j. unfold cand_le. apply _. Defined.

(** The loop that collects the candidates, over the entries in the order
    [order] the map is iterated. *)
Definition candidates (order : list (NN * SecretDomainEntry)) (preferredNamespace : string)
    (secrets : gmap NN Secret) (now : Time) : list candidateEntry :=
  omap (λ e : NN * SecretDomainEntry,
    match secrets !! e.1 with
    | None => None
    | Some _ => Some (mkCand e.1 (getValidityFromEntry e.2 now)
                       (bool_decide (Helpers.Namespace e.1 = preferredNamespace)))
    end) order.

Definition select_best (cs : list candidateEntry) (secrets : gmap NN Secret)
  : option Secret * validityPriority :=
  match merge_sort cand_le cs with
  | [] => (None, validityNotFound)
  | best :: _ => (secrets !! nn best, validity best)
  end.

Definition GetBestSecretWithValidity (idx : Index) (domain preferredNamespace : string)
    (secrets : gmap NN Secret) (now : Time) : option Secret * validityPriority :=
  match idx !! domain with
  | None => (None, validityNotFound)
  | Some entries =>
      match map_to_list entries with
      | [] => (None, validityNotFound)
      | [(nn, entry)] =>
          match secrets !! nn with
          | None => (None, validityNotFound)
          | Some secret => (Some secret, getValidityFromEntry entry now)
          end
      | order => select_best (candidates order preferredNamespace secrets now) secrets
      end
  end.

Definition GetBestSecret (idx : Index) (domain preferredNamespace : string)
    (secrets : gmap NN Secret) (now : Time) : option Secret :=
  (GetBestSecretWithValidity idx domain preferredNamespace secrets now).1.

Definition GetAnySecret (idx : Index) (domain : string) (secrets : gmap NN Secret)
    (now : Time) : option Secret :=
  GetBestSecret idx domain "" secrets now.

(** ** Certificate expiry

    [pem.Decode] finds the next PEM block of the input and returns it with the
    rest of the input; [x509.ParseCertificate] gives the certificate, of which
    only [NotAfter] is used. *)
Record PemBlock := mkPem { BlockType : string; BlockBytes : string }.

Definition TLSCertKey : string := "tls.crt".

Section certificates.
Context (pem_Decode : string → option (PemBlock * string)).
Context (x509_ParseCertificate : string → result Time).

(** The body of the loop on one block. *)
Definition minNotAfter_step (m : Time) (b : PemBlock) : Time :=
  if decide (BlockType b ≠ "CERTIFICATE") then m
  else match x509_ParseCertificate (BlockBytes b) with
       | Err _ => m
       | Ok na => if IsZero m || Before na m then na else m
       end.

(** The loop; every round consumes input, so the input's length bounds the
    number of rounds. *)
Fixpoint minNotAfter_loop (fuel : nat) (rest : string) (m : Time) : option Time :=
  match fuel with
  | 0 => None
  | S fuel =>
      match pem_Decode rest with
      | None => Some m
      | Some (block, remaining) => minNotAfter_loop fuel remaining (minNotAfter_step m block)
      end
  end.

Definition ParseCertificateNotAfter (secret : option Secret) : option Time :=
  match secret with
  | None => Some 0%Z
  | Some s =>
      match nilmap_get (s_data s) TLSCertKey with
      | None => Some 0%Z
      | Some certData =>
          if decide (certData = "") then Some 0%Z
          else minNotAfter_loop (S (String.length certData)) certData 0%Z
      end
  end.

(** The blocks of an input, in order. *)
Inductive pem_blocks : string → list PemBlock → Prop :=
| pem_nil s : pem_Decode s = None → pem_blocks s []
| pem_cons s b r bs : pem_Decode s = Some (b, r) → pem_blocks r bs → pem_blocks s (b :: bs).

(** The expiry times of the certificates among the blocks. *)
Definition cert_times (bs : list PemBlock) : list Time :=
  omap (λ b, if decide (BlockType b = "CERTIFICATE") then
               match x509_ParseCertificate (BlockBytes b) with Ok t => Some t | Err _ => None end
             else None) bs.


Lemma minNotAfter_fold bs m :
  foldl minNotAfter_step m bs =
  foldl (λ m t, if IsZero m || Before t m then t else m) m (cert_times bs).
Proof using Type.
  revert m. induction bs as [|b bs IH]; intros m; [done|].
  cbn [foldl]. rewrite IH. unfold minNotAfter_step, cert_times. cbn [omap list_omap].
  destruct (decide (BlockType b = "CERTIFICATE")) as [Hb|Hb].
  - rewrite decide_False by (by intros ?).
    by destruct (x509_ParseCertificate (BlockBytes b)).
  - by rewrite decide_True by done.
Qed.

(** Without a zero time among them, the sentinel is never mistaken for one. *)
Lemma fold_min_nonzero ts m :
  m ≠ 0%Z → 0%Z ∉ ts →
  let r := foldl (λ m t, if IsZero m || Before t m then t else m) m ts in
  r ∈ m :: ts ∧ ∀ u, u ∈ m :: ts → (r ≤ u)%Z.
Proof using Type.
  revert m. induction ts as [|t ts IH]; intros m Hm Hts; cbn [foldl].
  - split; [set_solver|]. intros u [->|Hu]%elem_of_cons; [lia|by apply not_elem_of_nil in Hu].
  - apply not_elem_of_cons in Hts as [Ht Hts].
    assert (IsZero m = false) as -> by (by unfold IsZero; apply bool_decide_eq_false).
    cbn [orb]. destruct (Before t m) eqn:Hb; unfold Before in Hb;
      [apply bool_decide_eq_true in Hb|apply bool_decide_eq_false in Hb].
    + destruct (IH t (not_eq_sym Ht) Hts) as [Hin Hall]. split; [set_solver|].
      intros u [->|Hu]%elem_of_cons; [specialize (Hall t ltac:(set_solver)); lia|by apply Hall].
    + destruct (IH m Hm Hts) as [Hin Hall]. split; [set_solver|].
      intros u [->|[->|Hu]%elem_of_cons]%elem_of_cons; [apply Hall; set_solver| |apply Hall; set_solver].
      specialize (Hall m ltac:(set_solver)). lia.
Qed.

(** [pem.Decode] returns the unconsumed suffix of its input. *)
Hypothesis pem_Decode_shorter : ∀ s b r,
  pem_Decode s = Some (b, r) → String.length r < String.length s.

Lemma pem_blocks_total s : ∃ bs, pem_blocks s bs.
Proof using pem_Decode_shorter.
  remember (String.length s) as n eqn:Hn. revert s Hn.
  induction (lt_wf n) as [n _ IH]. intros s ->.
  destruct (pem_Decode s) as [[b r]|] eqn:Hd; [|by exists []; constructor].
  destruct (IH (String.length r) (pem_Decode_shorter _ _ _ Hd) r eq_refl) as [bs Hbs].
  exists (b :: bs). by econstructor.
Qed.

Lemma minNotAfter_loop_spec fuel s bs m :
  pem_blocks s bs → String.length s < fuel →
  minNotAfter_loop fuel s m = Some (foldl minNotAfter_step m bs).
Proof using pem_Decode_shorter.
  intros Hb. revert fuel m. induction Hb as [s Hd|s b r bs Hd _ IH]; intros [|fuel] m Hf; try lia.
  - cbn. by rewrite Hd.
  - cbn. rewrite Hd. apply IH. apply pem_Decode_shorter in Hd. lia.
Qed.

(** C32. [ParseCertificateNotAfter] terminates on every secret.  It is the zero time when
    there is no secret, no [tls.crt] or an empty one, and when no block of [tls.crt] is a
    certificate that parses; otherwise, if none of these certificates expires at the zero
    time itself, it is the earliest of their expiry times.  Other blocks and
    certificates that do not parse are skipped. *)
Theorem ParseCertificateNotAfter_earliest (secret : option Secret) :
  ∃ t, ParseCertificateNotAfter secret = Some t ∧
  (secret = None → t = 0%Z) ∧
  ∀ s, secret = Some s →
    match nilmap_get (s_data s) TLSCertKey with
    | None | Some "" => t = 0%Z
    | Some certData =>
        ∃ bs, pem_blocks certData bs ∧ (cert_times bs = [] → t = 0%Z) ∧
          (cert_times bs ≠ [] → 0%Z ∉ cert_times bs →
           t ∈ cert_times bs ∧ ∀ u, u ∈ cert_times bs → (t ≤ u)%Z)
    end.
Proof using pem_Decode_shorter.
  destruct secret as [s|]; [|by exists 0%Z]. unfold ParseCertificateNotAfter.
  destruct (nilmap_get (s_data s) TLSCertKey) as [certData|] eqn:Hd.
  2:{ exists 0%Z. split_and!; [done..|]. intros s' [= <-]. by rewrite Hd. }
  destruct certData as [|a certData].
  { exists 0%Z. split_and!; [done..|]. intros s' [= <-]. by rewrite Hd. }
  rewrite decide_False by done. destruct (pem_blocks_total (String a certData)) as [bs Hbs].
  rewrite (minNotAfter_loop_spec _ _ bs) by (done || lia).
  eexists. split_and!; [done..|]. intros s' [= <-]. rewrite Hd. exists bs. split; [done|].
  rewrite minNotAfter_fold. destruct (cert_times bs) as [|t ts]; [done|].
  split; [done|]. intros _ Hz. apply not_elem_of_cons in Hz as [Ht Hz]. cbn [foldl].
  by apply fold_min_nonzero.
Qed.

End certificates.

(** ** The order on candidates *)
Lemma str_less_spec a b : str_less a b = true ↔ String.le a b ∧ a ≠ b.
Proof.
  unfold str_less. rewrite bool_decide_eq_true. split.
  - intros Hn. destruct (total String.le a b) as [H|H]; [|done].
    split; [done|]. by intros ->.
  - intros [Hab Hne] Hba. apply Hne. by apply (anti_symm String.le).
Qed.

Lemma str_less_false a b : str_less a b = false ↔ String.le b a.
Proof.
  unfold str_less. rewrite bool_decide_eq_false. split; [apply dec_stable|by intros ??].
Qed.

Lemma priority_inj v w : priority v = priority w → v = w.
Proof. by destruct v, w. Qed.

(** [i] is sorted before or with [j]. *)
Lemma cand_le_spec i j :
  cand_le i j ↔
  priority (validity j) < priority (validity i) ∨
  (validity i = validity j ∧
   ((isSameNs i = true ∧ isSameNs j = false) ∨
    (isSameNs i = isSameNs j ∧
     (str_less (Helpers.Namespace (nn i)) (Helpers.Namespace (nn j)) = true ∨
      (Helpers.Namespace (nn i) = Helpers.Namespace (nn j) ∧
       String.le (Helpers.Name (nn i)) (Helpers.Name (nn j))))))).
Proof.
  unfold cand_le, cand_less. destruct (decide (validity j ≠ validity i)) as [Hv|Hv].
  { rewrite bool_decide_eq_false. split.
    - intros Hn. left. assert (priority (validity j) ≠ priority (validity i)); [|lia].
      intros He%priority_inj. by apply Hv.
    - intros [Hlt|[He _]]; [lia|]. by destruct Hv. }
  apply dec_stable in Hv. rewrite Hv.
  destruct (decide (isSameNs j ≠ isSameNs i)) as [Hs|Hs].
  { destruct (isSameNs i) eqn:Hi, (isSameNs j) eqn:Hj; try done.
    - split; [by auto|done].
    - split; [done|]. intros [?|[_ [[]|[]]]]; [lia|done..]. }
  apply dec_stable in Hs.
  destruct (decide (Helpers.Namespace (nn j) ≠ Helpers.Namespace (nn i))) as [Hn|Hn].
  - rewrite str_less_false. rewrite str_less_spec. split.
    + intros Hle. right. split; [done|]. right. split; [done|]. left.
      split; [done|]. by intros He; apply Hn.
    + intros [?|[_ [[? ?]|[_ [[? ?]|[? ?]]]]]]; [lia|congruence|done|congruence].
  - apply dec_stable in Hn. rewrite str_less_false, str_less_spec. split.
    + intros Hle. right. split; [done|]. right. split; [done|]. by right.
    + intros [?|[_ [[? ?]|[_ [[? ?]|[? ?]]]]]]; [lia|congruence|congruence|done].
Qed.

Global Instance cand_le_total : Total cand_le.
Proof.
  intros i j. rewrite !cand_le_spec, !str_less_spec.
  destruct (decide (validity i = validity j)) as [Hv|Hv].
  2:{ assert (priority (validity i) ≠ priority (validity j)) by (by intros He%priority_inj).
      destruct (decide (priority (validity i) < priority (validity j))); [right|left]; left; lia. }
  destruct (isSameNs i), (isSameNs j); [|by auto 6..|].
  all: destruct (total String.le (Helpers.Namespace (nn i)) (Helpers.Namespace (nn j))),
    (decide (Helpers.Namespace (nn i) = Helpers.Namespace (nn j))),
    (total String.le (Helpers.Name (nn i)) (Helpers.Name (nn j))); naive_solver.
Qed.

Lemma str_less_trans a b c : str_less a b = true → str_less b c = true → str_less a c = true.
Proof.
  rewrite !str_less_spec. intros [H1 Hn1] [H2 Hn2]. split; [by transitivity b|].
  intros ->. apply Hn1. by apply (anti_symm String.le).
Qed.

Global Instance cand_le_trans : Transitive cand_le.
Proof.
  intros i j k. rewrite !cand_le_spec.
  intros [H1|[E1 H1]] [H2|[E2 H2]].
  - left; lia.
  - left. by rewrite <-E2.
  - left. by rewrite E1.
  - right. split; [congruence|].
    destruct H1 as [[? ?]|[S1 H1]], H2 as [[? ?]|[S2 H2]].
    + left; congruence.
    + left; split; congruence.
    + left; split; congruence.
    + right. split; [congruence|].
      destruct H1 as [N1|[N1 H1]], H2 as [N2|[N2 H2]].
      * left. by eapply str_less_trans.
      * left. by rewrite <-N2.
      * left. by rewrite N1.
      * right. split; [congruence|]. by transitivity (Helpers.Name (nn j)).
Qed.

Lemma cand_le_antisym i j : cand_le i j → cand_le j i → i = j.
Proof.
  rewrite !cand_le_spec. intros H1 H2.
  assert (validity i = validity j) as Hv by (destruct H1 as [|[]], H2 as [|[]]; [lia|congruence..]).
  destruct H1 as [H1|[_ H1]]; [rewrite Hv in H1; lia|].
  destruct H2 as [H2|[_ H2]]; [rewrite Hv in H2; lia|].
  assert (isSameNs i = isSameNs j) as Hs by (destruct H1 as [[]|[]], H2 as [[]|[]]; congruence).
  destruct H1 as [[]|[_ H1]]; [congruence|]. destruct H2 as [[]|[_ H2]]; [congruence|].
  rewrite !str_less_spec in H1, H2.
  assert (Helpers.Namespace (nn i) = Helpers.Namespace (nn j)) as Hns.
  { destruct H1 as [[L1 _]|[]]; [|done]. destruct H2 as [[L2 _]|[]]; [|done].
    by apply (anti_symm String.le). }
  destruct H1 as [[]|[_ L1]]; [done|]. destruct H2 as [[]|[_ L2]]; [done|].
  pose proof (anti_symm String.le _ _ L1 L2) as Hnm.
  destruct i as [[]], j as [[]]; cbn in *; congruence.
Qed.

Global Instance cand_le_anti : AntiSymm (=) cand_le.
Proof. exact cand_le_antisym. Qed.

(** ** Selection *)
Lemma select_best_perm cs cs' secrets :
  cs ≡ₚ cs' → select_best cs secrets = select_best cs' secrets.
Proof.
  intros Hp. unfold select_best.
  assert (merge_sort cand_le cs = merge_sort cand_le cs') as ->; [|done].
  apply (StronglySorted_unique cand_le);
    [apply StronglySorted_merge_sort; apply _..|by rewrite !merge_sort_Permutation].
Qed.

Lemma select_best_min cs best rest :
  merge_sort cand_le cs = best :: rest →
  best ∈ cs ∧ ∀ c, c ∈ cs → cand_le best c.
Proof.
  intros He. pose proof (StronglySorted_merge_sort cand_le cs) as Hs.
  rewrite He in Hs. apply StronglySorted_cons in Hs as [Hall _].
  assert (best :: rest ≡ₚ cs) as Hp by (by rewrite <-He, merge_sort_Permutation).
  split; [rewrite <-Hp; left|]. intros c. rewrite <-Hp. intros [->|Hc]%elem_of_cons.
  - destruct (total cand_le best best); done.
  - by apply (proj1 (Forall_forall _ _) Hall).
Qed.

Lemma elem_of_candidates order ns secrets now c :
  c ∈ candidates order ns secrets now ↔
  ∃ e s, (nn c, e) ∈ order ∧ secrets !! nn c = Some s ∧
    c = mkCand (nn c) (getValidityFromEntry e now)
          (bool_decide (Helpers.Namespace (nn c) = ns)).
Proof.
  unfold candidates. rewrite list_elem_of_omap. split.
  - intros ([k e] & He & Hc). cbn in Hc. destruct (secrets !! k) as [s|] eqn:Hk; [|done].
    injection Hc as <-. cbn. by exists e, s.
  - intros (e & s & He & Hs & Hc). exists (nn c, e). split; [done|]. cbn.
    rewrite Hs. by rewrite <-Hc.
Qed.

(** What [GetBestSecretWithValidity] computes, without its single-entry fast
    path: the best candidate in any iteration order. *)
Lemma GetBest_reference idx domain ns secrets now entries order :
  idx !! domain = Some entries → order ≡ₚ map_to_list entries →
  GetBestSecretWithValidity idx domain ns secrets now =
  select_best (candidates order ns secrets now) secrets.
Proof.
  intros Hd Hp. unfold GetBestSecretWithValidity. rewrite Hd.
  rewrite (select_best_perm _ (candidates (map_to_list entries) ns secrets now)).
  - destruct (map_to_list entries) as [|[k e] [|? ?]]; [done| |done].
    unfold candidates. cbn. destruct (secrets !! k) as [s|] eqn:Hk; cbn; [|done].
    unfold select_best. cbn. by rewrite Hk.
  - unfold candidates. by rewrite Hp.
Qed.

(** ** What the best secret is

    Three grades of an entry: its certificate has expired, its expiry is unknown, it is
    still valid. *)
Definition grade (now : Time) (e : SecretDomainEntry) : nat :=
  if decide (NotAfter e = 0%Z) then 1 else if decide (now < NotAfter e)%Z then 2 else 0.
Definition str_before (a b : string) : Prop := String.le a b ∧ a ≠ b.
(** The better grade first; of two with the same grade one of the preferred namespace, if only one is;
    then the alphabet. *)
Definition preferred (ns : string) (now : Time) (a b : NN * SecretDomainEntry) : Prop :=
  grade now b.2 < grade now a.2 ∨
  grade now a.2 = grade now b.2 ∧
  ((Helpers.Namespace a.1 = ns ∧ Helpers.Namespace b.1 ≠ ns) ∨
   ((Helpers.Namespace a.1 = ns ↔ Helpers.Namespace b.1 = ns) ∧
    (str_before (Helpers.Namespace a.1) (Helpers.Namespace b.1) ∨
     Helpers.Namespace a.1 = Helpers.Namespace b.1 ∧ str_before (Helpers.Name a.1) (Helpers.Name b.1)))).

Definition as_cand (ns : string) (now : Time) (x : NN * SecretDomainEntry) : candidateEntry :=
  mkCand x.1 (getValidityFromEntry x.2 now) (bool_decide (Helpers.Namespace x.1 = ns)).
Lemma grade_priority now e : priority (getValidityFromEntry e now) = S (grade now e).
Proof.
  unfold getValidityFromEntry, grade, IsZero, After. repeat case_decide; repeat case_bool_decide; first [done|lia].
Qed.
Lemma cand_le_preferred ns now a b : a.1 ≠ b.1 →
  cand_le (as_cand ns now a) (as_cand ns now b) → preferred ns now a b.
Proof.
  intros Hne. rewrite cand_le_spec. unfold preferred, str_before. cbn [as_cand nn validity isSameNs].
  rewrite !grade_priority. intros [Hlt|(Hv & Hrest)]; [left; lia|right].
  assert (grade now a.2 = grade now b.2) as Hg by (apply (f_equal priority) in Hv; rewrite !grade_priority in Hv; lia).
  split; [done|]. destruct Hrest as [[Ha Hb]|[Hs Hrest]].
  - left. by rewrite bool_decide_eq_true in Ha; rewrite bool_decide_eq_false in Hb.
  - right. split; [repeat case_bool_decide; naive_solver|]. rewrite str_less_spec in Hrest.
    destruct Hrest as [?|[Hns Hle]]; [by left|right]. split; [done|]. split; [done|]. intros Hnm.
    apply Hne. destruct a as [[]], b as [[]]. cbn in *. congruence.
Qed.
Lemma in_candidates entries ns secrets now x :
  entries !! x.1 = Some x.2 → is_Some (secrets !! x.1) →
  as_cand ns now x ∈ candidates (map_to_list entries) ns secrets now.
Proof. intros He [s Hs]. apply elem_of_candidates. exists x.2, s. by rewrite elem_of_map_to_list. Qed.
Lemma candidates_in entries ns secrets now c : c ∈ candidates (map_to_list entries) ns secrets now →
  ∃ x, entries !! x.1 = Some x.2 ∧ is_Some (secrets !! x.1) ∧ c = as_cand ns now x.
Proof.
  intros (e & s & He & Hs & Hc)%elem_of_candidates. rewrite elem_of_map_to_list in He. by exists (nn c, e).
Qed.

(** C31. The secret selected for a domain is the best of those that the index has for the
    domain and the store still holds: no other one is preferred to it, where a valid
    certificate is preferred to one of unknown expiry and that to an expired one, then a
    secret of the given namespace to one of another, then the alphabetically first
    namespace and name.  The validity reported is that of its entry.  Nothing is found
    exactly when there is no such secret. *)
Theorem GetBestSecretWithValidity_best idx domain ns secrets now :
  let held x := default ∅ (idx !! domain) !! x.1 = Some x.2 ∧ is_Some (secrets !! x.1) in
  (∃ x s v, held x ∧ secrets !! x.1 = Some s ∧
     GetBestSecretWithValidity idx domain ns secrets now = (Some s, v) ∧
     v = match grade now x.2 with 0 => validityExpired | 1 => validityUnknown | _ => validityValid end ∧
     ∀ y, held y → y.1 ≠ x.1 → preferred ns now x y) ∨
  (∀ x, ¬ held x) ∧ GetBestSecretWithValidity idx domain ns secrets now = (None, validityNotFound).
Proof.
  cbn. destruct (idx !! domain) as [entries|] eqn:Hd; cbn.
  2:{ right. unfold GetBestSecretWithValidity. rewrite Hd. split; [|done]. intros x [Hx _]. by rewrite lookup_empty in Hx. }
  rewrite (GetBest_reference _ _ _ _ _ _ _ Hd (Permutation_refl _)).
  set (cs := candidates _ _ _ _). unfold select_best.
  destruct (merge_sort cand_le cs) as [|best rest] eqn:Hs.
  - right. split; [|done]. intros x [He Hx].
    assert (cs ≡ₚ []) as Hp by (by rewrite <-Hs, merge_sort_Permutation).
    pose proof (in_candidates entries ns secrets now x He Hx) as Hin. fold cs in Hin. rewrite Hp in Hin.
    by apply not_elem_of_nil in Hin.
  - left. destruct (select_best_min _ _ _ Hs) as [(x & He & [s Hx] & ->)%candidates_in Hmin].
    exists x, s, (getValidityFromEntry x.2 now). cbn [as_cand nn validity]. rewrite Hx. split_and!; [done..| |].
    + pose proof (grade_priority now x.2) as Hg.
      destruct (getValidityFromEntry x.2 now); cbn in Hg; destruct (grade now x.2) as [|[|[|]]]; done.
    + intros y [Hy Hys] Hne. apply cand_le_preferred; [done|]. by apply Hmin, in_candidates.
Qed.

Definition ex_meta (ns name : string) : ObjectMeta := mkMeta name ns "" 0 None None.
Definition ex_secret (ns name : string) : Secret := mkSecret (ex_meta ns name) None.
Definition ex_secrets : gmap NN Secret :=
  {[ Helpers.mkNN "a" "x" := ex_secret "a" "x"; Helpers.mkNN "b" "y" := ex_secret "b" "y";
     Helpers.mkNN "c" "z" := ex_secret "c" "z" ]}.
Definition ex_idx : Index :=
  Add (Add (Add NewDomainSecretsIndex "d.io" (mkEntry (Helpers.mkNN "a" "x") 5))
    "d.io" (mkEntry (Helpers.mkNN "b" "y") 20)) "d.io" (mkEntry (Helpers.mkNN "c" "z") 20).

Example best_is_preferred :
  GetBestSecretWithValidity ex_idx "d.io" "c" ex_secrets 10 = (Some (ex_secret "c" "z"), validityValid) ∧
  GetBestSecretWithValidity ex_idx "d.io" "" ex_secrets 10 = (Some (ex_secret "b" "y"), validityValid) ∧
  GetBestSecretWithValidity (Add ex_idx "d.io" (mkEntry (Helpers.mkNN "c" "z") 0)) "d.io" "a" ex_secrets 30 =
    (Some (ex_secret "c" "z"), validityUnknown).
Proof. by vm_compute. Qed.

(** A chain of three blocks: a key, a certificate expiring at 30 and one at 20,
    with one byte of input per block. *)
Definition ex_pem (s : string) : option (PemBlock * string) :=
  match s with
  | EmptyString => None
  | String a r =>
      let b := String a EmptyString in
      Some (mkPem (if decide (b = "k") then "PRIVATE KEY" else "CERTIFICATE") b, r)
  end.
Definition ex_x509 (s : string) : result Time :=
  if decide (s = "b") then Ok 20%Z
  else if decide (s = "a") then Ok 30%Z else Err (ErrNew "malformed certificate").

Lemma ParseCertificateNotAfter_earliest_witness :
  let s := mkSecret (ex_meta "a" "x") (Some {[ TLSCertKey := "kaxb" ]}) in
  ParseCertificateNotAfter ex_pem ex_x509 (Some s) = Some 20%Z ∧
  ∃ t bs, ParseCertificateNotAfter ex_pem ex_x509 (Some s) = Some t ∧ pem_blocks ex_pem "kaxb" bs ∧
    (cert_times ex_x509 bs ≠ [] → 0%Z ∉ cert_times ex_x509 bs →
     t ∈ cert_times ex_x509 bs ∧ ∀ u, u ∈ cert_times ex_x509 bs → (t ≤ u)%Z).
Proof.
  set (s := mkSecret (ex_meta "a" "x") (Some {[ TLSCertKey := "kaxb" ]})).
  split; [vm_compute; reflexivity|].
  destruct (ParseCertificateNotAfter_earliest ex_pem ex_x509) with (secret := Some s) as (t & Ht & _ & Hs).
  { intros s' b r H. destruct s'; cbn in H; [discriminate H|]. injection H as _ <-. cbn. lia. }
  specialize (Hs s eq_refl).
  replace (nilmap_get (s_data s) TLSCertKey) with (Some "kaxb") in Hs by (vm_compute; reflexivity).
  destruct Hs as (bs & Hbs & _ & Hmin). exists t, bs. split; [exact Ht|]. split; [exact Hbs|exact Hmin].
Defined.

(** An expiry at the zero time is taken for the initial value: the certificate after it
    replaces it, and its expiry is returned although it is the latest. *)
Example zero_expiry_is_forgotten :
  let x509 s := if decide (s = "a") then Ok 10%Z else if decide (s = "z") then Ok 0%Z else Ok 20%Z in
  ParseCertificateNotAfter ex_pem x509 (Some (mkSecret (ex_meta "a" "x") (Some {[ TLSCertKey := "azb" ]}))) = Some 20%Z.
Proof. by vm_compute. Qed.

(** ** The index as a relation between domains and secrets *)
Definition entry_at (idx : Index) (d : string) (n : NN) : option SecretDomainEntry :=
  idx !! d ≫= (.!! n).

(** No domain is kept without secrets. *)
Definition no_empty (idx : Index) : Prop := ∀ d m, idx !! d = Some m → m ≠ ∅.

Lemma index_ext a b :
  no_empty a → no_empty b → (∀ d n, entry_at a d n = entry_at b d n) → a = b.
Proof.
  intros Ha Hb Hab. apply map_eq. intros d. specialize (Hab d). unfold entry_at in Hab.
  destruct (a !! d) as [ma|] eqn:Hda, (b !! d) as [mb|] eqn:Hdb; cbn in Hab.
  - f_equal. by apply map_eq.
  - exfalso. apply (Ha d ma Hda), map_eq. intros n. by rewrite Hab, lookup_empty.
  - exfalso. apply (Hb d mb Hdb), map_eq. intros n. by rewrite <-Hab, lookup_empty.
  - done.
Qed.

Lemma entry_at_empty d n : entry_at NewDomainSecretsIndex d n = None.
Proof. unfold entry_at, NewDomainSecretsIndex. by rewrite lookup_empty. Qed.

Lemma entry_at_Add idx d e d' n :
  entry_at (Add idx d e) d' n =
  if decide (d = d' ∧ eNN e = n) then Some e else entry_at idx d' n.
Proof.
  unfold entry_at, Add. destruct (decide (d = d')) as [->|Hd].
  - rewrite lookup_insert_eq. cbn. destruct (decide (eNN e = n)) as [<-|Hn].
    + rewrite lookup_insert_eq. by rewrite decide_True.
    + rewrite lookup_insert_ne by done. rewrite decide_False by naive_solver.
      by destruct (idx !! d') as [m|]; cbn; [|rewrite lookup_empty].
  - rewrite lookup_insert_ne by done. by rewrite decide_False by naive_solver.
Qed.

Lemma entry_at_Remove idx d n0 d' n :
  entry_at (Remove idx d n0) d' n =
  if decide (d = d' ∧ n0 = n) then None else entry_at idx d' n.
Proof.
  unfold entry_at, Remove. destruct (idx !! d) as [m|] eqn:Hm.
  2:{ case_decide as H; [|done]. destruct H as [-> ->]. by rewrite Hm. }
  destruct (decide (d = d')) as [->|Hd].
  - rewrite Hm. cbn. assert (delete n0 m !! n = if decide (d' = d' ∧ n0 = n) then None else m !! n) as <-.
    { destruct (decide (n0 = n)) as [->|].
      - by rewrite lookup_delete_eq, decide_True.
      - rewrite lookup_delete_ne by done. by rewrite decide_False by tauto. }
    case_decide as Hs.
    + rewrite lookup_delete_eq. cbn. apply map_size_empty_iff in Hs. by rewrite Hs, lookup_empty.
    + by rewrite lookup_insert_eq.
  - rewrite (decide_False (P:=d = d' ∧ n0 = n)) by naive_solver. case_decide.
    + by rewrite lookup_delete_ne.
    + by rewrite lookup_insert_ne.
Qed.

Lemma no_empty_Add idx d e : no_empty idx → no_empty (Add idx d e).
Proof.
  intros Hne d' m. unfold Add. rewrite lookup_insert_Some.
  intros [[_ <-]|[_ H]]; [apply insert_non_empty|by eapply Hne].
Qed.

Lemma no_empty_Remove idx d n : no_empty idx → no_empty (Remove idx d n).
Proof.
  intros Hne d' m. unfold Remove. destruct (idx !! d) as [m0|] eqn:Hm; [|apply Hne].
  case_decide as Hs; [rewrite lookup_delete_Some; intros []; by eapply Hne|].
  rewrite lookup_insert_Some. intros [[_ <-]|[_ H]]; [|by eapply Hne].
  intros He. apply Hs. rewrite He. apply map_size_empty.
Qed.

Lemma no_empty_New : no_empty NewDomainSecretsIndex.
Proof. intros d m. unfold NewDomainSecretsIndex. by rewrite lookup_empty. Qed.

(** ** Domain patterns *)
Lemma Index_None c s : GoStrings.Index c s = None ↔ GoStrings.Count c s = 0.
Proof.
  induction s as [|a s IH]; cbn; [done|]. case_decide; [done|].
  rewrite fmap_None. done.
Qed.

Lemma Index_0 c s : GoStrings.Index c s = Some 0 → ∃ s', s = String c s'.
Proof. destruct s as [|a s]; cbn; [done|]. case_decide; [naive_solver|by destruct (GoStrings.Index c s)]. Qed.

(** [ValidateDomainPattern] accepts exactly the non-empty domains without an
    asterisk and the wildcards [*.rest] where [rest] has no asterisk and is
    neither empty nor a single dot. *)
Theorem ValidateDomainPattern_spec domain :
  ValidateDomainPattern domain = "" ↔
  domain ≠ "" ∧
  (GoStrings.Count GoStrings.star domain = 0 ∨
   ∃ rest, domain = String GoStrings.star (String GoStrings.dot rest) ∧
     rest ≠ "" ∧ rest ≠ "." ∧ GoStrings.Count GoStrings.star rest = 0).
Proof.
  unfold ValidateDomainPattern. case_decide as H0; [naive_solver|].
  destruct (GoStrings.Index GoStrings.star domain) as [i|] eqn:Hi.
  2:{ apply Index_None in Hi. naive_solver. }
  assert (GoStrings.Count GoStrings.star domain ≠ 0) as Hc by (rewrite <-Index_None, Hi; done).
  case_decide as H1.
  { split; [done|]. intros [_ [?|(rest & -> & _)]]; [done|]. cbn in Hi. naive_solver. }
  assert (i = 0) as -> by lia. destruct (Index_0 _ _ Hi) as [s ->].
  destruct s as [|b rest].
  { split; [done|]. intros [_ [?|(rest & ? & _)]]; [done|naive_solver]. }
  destruct (decide (b = GoStrings.dot)) as [->|Hb].
  2:{ split; [repeat case_decide; try done; cbn in *; congruence|].
      intros [_ [?|(r & ? & _)]]; naive_solver. }
  cbn [GoStrings.byte_at GoStrings.drop_bytes GoStrings.Count String.length].
  rewrite (decide_True (P:=GoStrings.star = GoStrings.star)) by done.
  rewrite (decide_False (P:=GoStrings.dot = GoStrings.star)) by done.
  rewrite (decide_False (P:=Some GoStrings.dot ≠ _)) by (by intros ?).
  split.
  - intros Hv. split; [done|]. right. exists rest. repeat case_decide; try done.
    split_and!; [done|naive_solver..|lia].
  - intros [_ [?|(r & [= <-] & Hr & Hr' & Hs)]]; [lia|].
    rewrite decide_False by (destruct rest; [done|cbn; lia]).
    rewrite decide_False by lia. by rewrite decide_False by naive_solver.
Qed.

End DomainSecrets.
