(* ===== verification/ResUtils.v ===== *)
(** * [internal/xds/resbuilder/utils/helpers.go] *)

From S2P Require Import Prelude GoStrings Types Merge.

Module ResUtils.
Import Envoy.

Definition TLSInspectorTypeURL : string :=
  "type.googleapis.com/envoy.extensions.filters.listener.tls_inspector.v3.TlsInspector".
Definition HTTPSPort : Z := 443.

Definition IsTLSListener (xdsListener : option ListenerV3) : bool :=
  match xdsListener with
  | None => false
  | Some l =>
      existsb (λ f, match filterTypedConfig f with
                    | Some tc => bool_decide (TypeUrl tc = TLSInspectorTypeURL)
                    | None => false
                    end) (lListenerFilters l)
  end.

Definition ListenerHasPort443 (xdsListener : option ListenerV3) : bool :=
  match (l ← xdsListener; a ← lAddress l; GetSocketAddress a) with
  | Some sa => bool_decide (PortValue sa = HTTPSPort)
  | None => false
  end.

(** The loop of [CheckAllDomainsUnique]. *)
Fixpoint check_unique_loop (seen : gset string) (domains : list string) : result unit :=
  match domains with
  | [] => Ok tt
  | d :: ds =>
      if decide (d = "") then check_unique_loop seen ds
      else if decide (d ∈ seen) then Err (ErrNew ("duplicate domain found: " +:+ d))
      else check_unique_loop ({[d]} ∪ seen) ds
  end.

Definition CheckAllDomainsUnique (domains : list string) : result unit :=
  if decide (length domains ≤ 1) then Ok tt else check_unique_loop ∅ domains.

Definition maxRecursionDepth : nat := 50.

(** [findClusterNamesWithDepth]; [fuel] is [maxRecursionDepth - depth], [mord] the order in
    which Go ranges over the fields of an object. *)
Fixpoint findClusterNamesWithDepth (mord : gmap string Merge.json → list (string * Merge.json)) (data : Merge.json) (clusterField : string) (fuel : nat)
  : list string :=
  match fuel with
  | 0 => []
  | S fuel =>
      match data with
      | Merge.JObj m =>
          concat ((λ kv : string * Merge.json,
            if decide (kv.1 = clusterField) then
              match kv.2 with
              | Merge.JStr str => if decide (str ≠ "") then [str] else []
              | _ => []
              end
            else findClusterNamesWithDepth mord kv.2 clusterField fuel) <$> mord m)
      | Merge.JArr l =>
          concat ((λ item, findClusterNamesWithDepth mord item clusterField fuel) <$> l)
      | _ => []
      end
  end.

Definition FindClusterNames (mord : gmap string Merge.json → list (string * Merge.json)) (data : Merge.json)
    (clusterField : string) : list string :=
  findClusterNamesWithDepth mord data clusterField maxRecursionDepth.

Definition GetWildcardDomain (domain : string) : string :=
  if decide (domain = "") then ""
  else match GoStrings.Split GoStrings.dot domain with
       | [] | [_] => ""
       | _ :: rest =>
           if existsb (λ p, bool_decide (p ≠ "")) rest
           then GoStrings.Join GoStrings.dot ("*" :: rest) else ""
       end.

(** ** Properties *)

(** The name under which an object is known to Envoy. *)
Definition printed (n : NN) : string :=
  match Helpers.Namespace n with "" => "default" | ns => ns end +:+ "/" +:+ Helpers.Name n.
Lemma String_printed n : Helpers.String n = printed n.
Proof. unfold Helpers.String, printed. case_decide as E; [by rewrite E|]. by destruct (Helpers.Namespace n). Qed.

(** A listener looks into TLS handshakes; it listens on port 443. *)
Definition inspects_tls (l : ListenerV3) : Prop :=
  ∃ f tc, f ∈ lListenerFilters l ∧ filterTypedConfig f = Some tc ∧
    TypeUrl tc = "type.googleapis.com/envoy.extensions.filters.listener.tls_inspector.v3.TlsInspector".
Definition on_port_443 (l : ListenerV3) : Prop :=
  ∃ a sa, lAddress l = Some a ∧ GetSocketAddress a = Some sa ∧ PortValue sa = 443%Z.
Lemma IsTLSListener_spec l : IsTLSListener (Some l) = true ↔ inspects_tls l.
Proof.
  unfold IsTLSListener, inspects_tls. rewrite existsb_exists. setoid_rewrite <-list_elem_of_In. split.
  - intros (f & Hf & Ht). destruct (filterTypedConfig f) as [tc|] eqn:Htc; [|done].
    apply bool_decide_eq_true in Ht. by exists f, tc.
  - intros (f & tc & Hf & Htc & Ht). exists f. split; [done|]. rewrite Htc. by apply bool_decide_eq_true.
Qed.
Lemma ListenerHasPort443_spec l : ListenerHasPort443 (Some l) = true ↔ on_port_443 l.
Proof.
  unfold ListenerHasPort443, on_port_443. cbn. destruct (lAddress l) as [a|]; cbn; [|naive_solver].
  destruct (GetSocketAddress a) as [sa|] eqn:Ha; cbn; [|naive_solver].
  rewrite bool_decide_eq_true. unfold HTTPSPort. naive_solver.
Qed.

(** A route sends requests to a cluster: its only one, or one of its weighted ones. *)
Inductive routes_to (route : RouteV3) (c : string) : Prop :=
| to_cluster rest : rAction route = Some (ActRoute (Some (SpecCluster c)) rest) → routes_to route c
| to_weighted cs rest :
    rAction route = Some (ActRoute (Some (SpecWeighted (Some cs))) rest) → c ∈ cs → routes_to route c.

(** Some path of at most [n] containers leads from [j] to the name. *)
Inductive cluster_at (field : string) : nat → Merge.json → string → Prop :=
| at_field n m s : m !! field = Some (Merge.JStr s) → s ≠ "" → cluster_at field (S n) (Merge.JObj m) s
| at_key n m k v s : m !! k = Some v → k ≠ field → cluster_at field n v s →
    cluster_at field (S n) (Merge.JObj m) s
| at_item n l v s : v ∈ l → cluster_at field n v s → cluster_at field (S n) (Merge.JArr l) s.

(** [FindClusterNames] finds exactly the non-empty strings stored under the
    cluster field within the first 50 levels of nesting (the value of a matching
    key is not searched further). *)
Theorem FindClusterNames_spec mord data field s : (∀ m, mord m ≡ₚ map_to_list m) →
  s ∈ FindClusterNames mord data field ↔ cluster_at field maxRecursionDepth data s.
Proof.
  intros Hord.
  unfold FindClusterNames. generalize maxRecursionDepth as n. intros n.
  revert data. induction n as [|n IH]; intros data.
  { cbn. split; [by intros ?%not_elem_of_nil|inversion 1]. }
  destruct data as [| | | |l|m]; cbn [findClusterNamesWithDepth];
    try (split; [by intros ?%not_elem_of_nil|inversion 1]); rewrite list_elem_of_In, in_concat;
    setoid_rewrite <-list_elem_of_In; setoid_rewrite list_elem_of_fmap.
  - split.
    + intros (names & (v & -> & Hv) & Hs). econstructor; [done|]. by apply IH.
    + inversion 1; subst. eexists; split; [by eexists|]. by apply IH.
  - split.
    + intros (names & ([k v] & -> & Hv) & Hs). rewrite Hord, elem_of_map_to_list in Hv. cbn in Hs. case_decide; subst.
      * destruct v; try by apply not_elem_of_nil in Hs. case_decide; [|by apply not_elem_of_nil in Hs].
        apply list_elem_of_singleton in Hs as ->. by econstructor.
      * eapply at_key; [done..|]. by apply IH.
    + inversion 1; subst.
      * eexists; split; [exists (field, Merge.JStr s); split; [done|by rewrite Hord; apply elem_of_map_to_list]|].
        cbn. rewrite !decide_True by done. by left.
      * eexists; split; [eexists (_, _); split; [done|by rewrite Hord; apply elem_of_map_to_list]|].
        cbn. rewrite decide_False by done. by apply IH.
Qed.

Lemma check_unique_loop_spec seen ds :
  check_unique_loop seen ds = Ok tt ↔
  NoDup (filter (λ d, d ≠ "") ds) ∧ ∀ d, d ∈ ds → d ≠ "" → d ∉ seen.
Proof.
  revert seen. induction ds as [|d ds IH]; intros seen.
  { cbn. split; [intros _; split; [constructor|set_solver]|done]. }
  cbn [check_unique_loop]. rewrite filter_cons. destruct (decide (d = "")) as [->|Hd].
  { rewrite decide_False by (by intros ?). rewrite IH. set_solver. }
  rewrite (decide_True (P:=d ≠ "")) by done. case_decide as Hs.
  { split; [done|]. intros [_ H]. exfalso. by apply (H d (list_elem_of_here _ _) Hd). }
  rewrite IH, NoDup_cons, list_elem_of_filter. split; set_solver.
Qed.

(** [CheckAllDomainsUnique] accepts a list exactly when its non-empty domains are
    pairwise distinct. *)
Lemma CheckAllDomainsUnique_Ok domains :
  CheckAllDomainsUnique domains = Ok tt ↔ NoDup (filter (λ d, d ≠ "") domains).
Proof.
  unfold CheckAllDomainsUnique. case_decide as Hl.
  - split; [|done]. intros _. apply NoDup_filter.
    destruct domains as [|? [|]]; cbn in Hl; [constructor|apply NoDup_singleton|lia].
  - rewrite check_unique_loop_spec. set_solver.
Qed.

(** The wildcard of a domain replaces its first label by an asterisk; it
    exists exactly when a non-empty label follows the first dot, and it covers
    every domain that differs in the first label only. *)
Theorem GetWildcardDomain_spec label rest :
  GoStrings.free_of GoStrings.dot label →
  GetWildcardDomain (label +:+ String GoStrings.dot rest) =
    (if existsb (λ p, bool_decide (p ≠ "")) (GoStrings.Split GoStrings.dot rest)
     then String GoStrings.star (String GoStrings.dot rest) else "").
Proof.
  intros Hfree. unfold GetWildcardDomain.
  rewrite decide_False by (destruct label; discriminate).
  rewrite GoStrings.Split_app by done.
  pose proof (GoStrings.Split_not_nil GoStrings.dot rest).
  pose proof (GoStrings.Join_Split GoStrings.dot rest) as Hj.
  destruct (GoStrings.Split GoStrings.dot rest) as [|p ps]; [done|].
  destruct (existsb _ _); [|done].
  change (GoStrings.Join GoStrings.dot ("*" :: p :: ps))
    with ("*" +:+ String GoStrings.dot (GoStrings.Join GoStrings.dot (p :: ps))).
  by rewrite Hj.
Qed.

Lemma GetWildcardDomain_spec_witness :
  GetWildcardDomain "api.example.com" = "*.example.com".
Proof.
  apply (GetWildcardDomain_spec "api" "example.com"). vm_compute; reflexivity.
Defined.

End ResUtils.
