(* ===== verification/Store.v ===== *)
(** * [internal/store]: the optimized store

    [Status] is the status storage of [virtualservice_status.go]; [Index] is the
    pair of maps (by name and by UID) the store keeps per kind; [Store] is
    [optimized.go].  The mutexes make every method atomic: a method is a
    function on the store's state.  The store's objects are pointers, but the
    store never mutates an object it holds (interning returns equal strings), so
    an object is a value.  [Copy] shares the string pool, whose content cannot be
    observed through the store. *)

From S2P Require Import Prelude GoStrings Types StringPool Api DomainSecrets ResUtils.

(** ** [virtualservice_status.go] *)
Module Status.

Record VirtualServiceStatus := mkStatus { Invalid : bool; Message : string }.
Global Instance VirtualServiceStatus_eq_dec : EqDecision VirtualServiceStatus.
Proof. solve_decision. Defined.

Abbreviation t := (gmap NN VirtualServiceStatus).

Definition NewStatusStorage : t := ∅.
Definition SetStatus (s : t) (nn : NN) (invalid : bool) (message : string) : t :=
  <[nn := mkStatus invalid message]> s.
Definition GetStatus (s : t) (nn : NN) : VirtualServiceStatus :=
  map_get_default (mkStatus false "") s nn.
Definition ApplyStatusToVS (s : t) (vs : VirtualService) : VirtualService :=
  let status := GetStatus s (key vs) in
  mkVS (vs_meta vs) (vs_spec vs) (mkVSObjStatus (Message status) (Invalid status)).
Definition DeleteStatus (s : t) (nn : NN) : t := delete nn s.
Definition SetStatuses (s : t) (statuses : t) : t :=
  map_fold (λ nn status acc, <[nn := status]> acc) s statuses.
Definition GetAllStatuses (s : t) : t := copy_map s.
Definition Copy (s : t) : t := copy_map s.

End Status.

(** ** One kind of resource: by name and by UID *)
Module Index.

Record t (R : Type) := mkIdx { items : gmap NN R; byUID : gmap string R }.
Arguments mkIdx {R} items byUID.
Arguments items {R} t.
Arguments byUID {R} t.

Section index.
Context {R : Type} `{!HasMeta R} `{!SetMeta R}.

Definition empty : t R := mkIdx ∅ ∅.

(** [key := ...; if old := m[key]; old != nil { delete(byUID, old.UID) };
    m[key] = r; byUID[uid] = r] *)
Definition set (ix : t R) (r : R) (u : string) : t R :=
  let byUID' := match items ix !! key r with
                | Some old => delete (uid old) (byUID ix)
                | None => byUID ix
                end in
  mkIdx (<[key r := r]> (items ix)) (<[u := r]> byUID').

(** Initial loading: the two assignments without the removal. *)
Definition fill (ix : t R) (r : R) (u : string) : t R :=
  mkIdx (<[key r := r]> (items ix)) (<[u := r]> (byUID ix)).

(** [if r := m[name]; r != nil { delete(m, name); delete(byUID, r.UID) }] *)
Definition del (ix : t R) (name : NN) : t R :=
  match items ix !! name with
  | Some r => mkIdx (delete name (items ix)) (delete (uid r) (byUID ix))
  | None => ix
  end.

Definition copy (ix : t R) : t R := mkIdx (copy_map (items ix)) (copy_map (byUID ix)).

(** The UID index is the inverse of the objects' UIDs. *)
Record ok (ix : t R) : Prop := {
  ok_key k r : items ix !! k = Some r → key r = k;
  ok_uid u r : byUID ix !! u = Some r ↔ items ix !! key r = Some r ∧ uid r = u
}.

(** UIDs identify names: [own u] is the name of the object with UID [u]. *)
Definition wf (own : string → NN) (ix : t R) : Prop :=
  ok ix ∧ ∀ k r, items ix !! k = Some r → own (uid r) = k.

Lemma wf_empty own : wf own empty.
Proof.
  split; [split|]; cbn; [intros ??; by rewrite lookup_empty| |intros ??; by rewrite lookup_empty].
  intros u r. rewrite !lookup_empty. naive_solver.
Qed.

Lemma wf_set own ix r :
  wf own ix → own (uid r) = key r → wf own (set ix r (uid r)).
Proof.
  intros [[Hk Hu] Hown] Hr. unfold set. split; [split|]; cbn.
  - intros k r'. rewrite lookup_insert_Some. intros [[<- <-]|[_ H]]; [done|]. by apply Hk.
  - intros u r'. rewrite !lookup_insert_Some.
    assert (match items ix !! key r with
            | Some old => delete (uid old) (byUID ix)
            | None => byUID ix
            end !! u = Some r' ↔
            (items ix !! key r' = Some r' ∧ uid r' = u ∧ key r' ≠ key r)) as ->.
    { destruct (items ix !! key r) as [old|] eqn:Hold.
      - rewrite lookup_delete_Some, Hu. split.
        + intros [Hne [Hi Hu']]. split_and!; [done..|]. intros He. rewrite He in Hi. naive_solver.
        + intros (Hi & Hu' & Hne). split_and!; [|done..]. intros He.
          apply Hown in Hi as Hi'. apply Hown in Hold as Hold'. congruence.
      - rewrite Hu. split; [|naive_solver]. intros [Hi Hu']. split_and!; [done..|]. congruence. }
    split.
    + intros [[<- <-]|[Hne (Hi & Hu' & Hk')]]; [by auto|]. by auto.
    + intros [[[Hk' <-]|[Hk' Hi]] Hu']; [by left|]. right. split; [|by auto].
      intros He. apply Hown in Hi. congruence.
  - intros k r'. rewrite lookup_insert_Some. intros [[<- <-]|[_ H]]; [done|]. by apply Hown.
Qed.

Lemma wf_del own ix name : wf own ix → wf own (del ix name).
Proof.
  intros [[Hk Hu] Hown]. unfold del. destruct (items ix !! name) as [r|] eqn:Hr; [|done].
  split; [split|]; cbn.
  - intros k r'. rewrite lookup_delete_Some. naive_solver.
  - intros u r'. rewrite !lookup_delete_Some, Hu. split; [|intros [[Hne Hi] <-]].
    + intros [Hne [Hi <-]]. split_and!; [|done..]. intros He. rewrite <-He in Hi. congruence.
    + split_and!; [|done..]. intros He. apply Hown in Hr, Hi. congruence.
  - intros k r'. rewrite lookup_delete_Some. naive_solver.
Qed.

Lemma wf_uid own ix : wf own ix →
  ∀ u r, byUID ix !! u = Some r ↔ items ix !! key r = Some r ∧ uid r = u.
Proof. intros [Hok _]. apply ok_uid, Hok. Qed.

Lemma fill_set ix r u : items ix !! key r = None → fill ix r u = set ix r u.
Proof. intros Hn. unfold fill, set. by rewrite Hn. Qed.

Lemma items_set ix r u : items (set ix r u) = <[key r := r]> (items ix).
Proof. done. Qed.

Lemma items_del ix name : items (del ix name) = delete name (items ix).
Proof. unfold del. destruct (items ix !! name) eqn:H; [done|]. by rewrite delete_id. Qed.
End index.
End Index.
#[export] Hint Resolve Index.wf_empty Index.wf_set Index.wf_del : go.

(** ** [optimized.go] *)
Module Store.
Import DomainSecrets.

Record OptimizedStore := mkStore {
  stringPool : StringPool.t;
  virtualServices : Index.t VirtualService;
  listeners : Index.t Listener;
  clusters : Index.t Cluster;
  templateToVS : gmap NN (list VirtualService);
  virtualServiceTemplates : Index.t VirtualServiceTemplate;
  routes : Index.t Route;
  httpFilters : Index.t HttpFilter;
  accessLogs : Index.t AccessLogConfig;
  secrets : gmap NN Secret;
  policies : Index.t Policy;
  tracings : Index.t Tracing;
  specClusters : gmap string Cluster;
  domainSecretsIndex : DomainSecrets.Index;
  nodeDomains : gmap string (gset string);
  vsStatusStorage : Status.t
}.

Definition set_stringPool (v : StringPool.t) (s : OptimizedStore) : OptimizedStore :=
  mkStore v (virtualServices s) (listeners s) (clusters s) (templateToVS s) (virtualServiceTemplates s) (routes s) (httpFilters s) (accessLogs s) (secrets s) (policies s) (tracings s) (specClusters s) (domainSecretsIndex s) (nodeDomains s) (vsStatusStorage s).
Definition set_virtualServices (v : Index.t VirtualService) (s : OptimizedStore) : OptimizedStore :=
  mkStore (stringPool s) v (listeners s) (clusters s) (templateToVS s) (virtualServiceTemplates s) (routes s) (httpFilters s) (accessLogs s) (secrets s) (policies s) (tracings s) (specClusters s) (domainSecretsIndex s) (nodeDomains s) (vsStatusStorage s).
Definition set_listeners (v : Index.t Listener) (s : OptimizedStore) : OptimizedStore :=
  mkStore (stringPool s) (virtualServices s) v (clusters s) (templateToVS s) (virtualServiceTemplates s) (routes s) (httpFilters s) (accessLogs s) (secrets s) (policies s) (tracings s) (specClusters s) (domainSecretsIndex s) (nodeDomains s) (vsStatusStorage s).
Definition set_clusters (v : Index.t Cluster) (s : OptimizedStore) : OptimizedStore :=
  mkStore (stringPool s) (virtualServices s) (listeners s) v (templateToVS s) (virtualServiceTemplates s) (routes s) (httpFilters s) (accessLogs s) (secrets s) (policies s) (tracings s) (specClusters s) (domainSecretsIndex s) (nodeDomains s) (vsStatusStorage s).
Definition set_templateToVS (v : gmap NN (list VirtualService)) (s : OptimizedStore) : OptimizedStore :=
  mkStore (stringPool s) (virtualServices s) (listeners s) (clusters s) v (virtualServiceTemplates s) (routes s) (httpFilters s) (accessLogs s) (secrets s) (policies s) (tracings s) (specClusters s) (domainSecretsIndex s) (nodeDomains s) (vsStatusStorage s).
Definition set_virtualServiceTemplates (v : Index.t VirtualServiceTemplate) (s : OptimizedStore) : OptimizedStore :=
  mkStore (stringPool s) (virtualServices s) (listeners s) (clusters s) (templateToVS s) v (routes s) (httpFilters s) (accessLogs s) (secrets s) (policies s) (tracings s) (specClusters s) (domainSecretsIndex s) (nodeDomains s) (vsStatusStorage s).
Definition set_routes (v : Index.t Route) (s : OptimizedStore) : OptimizedStore :=
  mkStore (stringPool s) (virtualServices s) (listeners s) (clusters s) (templateToVS s) (virtualServiceTemplates s) v (httpFilters s) (accessLogs s) (secrets s) (policies s) (tracings s) (specClusters s) (domainSecretsIndex s) (nodeDomains s) (vsStatusStorage s).
Definition set_httpFilters (v : Index.t HttpFilter) (s : OptimizedStore) : OptimizedStore :=
  mkStore (stringPool s) (virtualServices s) (listeners s) (clusters s) (templateToVS s) (virtualServiceTemplates s) (routes s) v (accessLogs s) (secrets s) (policies s) (tracings s) (specClusters s) (domainSecretsIndex s) (nodeDomains s) (vsStatusStorage s).
Definition set_accessLogs (v : Index.t AccessLogConfig) (s : OptimizedStore) : OptimizedStore :=
  mkStore (stringPool s) (virtualServices s) (listeners s) (clusters s) (templateToVS s) (virtualServiceTemplates s) (routes s) (httpFilters s) v (secrets s) (policies s) (tracings s) (specClusters s) (domainSecretsIndex s) (nodeDomains s) (vsStatusStorage s).
Definition set_secrets (v : gmap NN Secret) (s : OptimizedStore) : OptimizedStore :=
  mkStore (stringPool s) (virtualServices s) (listeners s) (clusters s) (templateToVS s) (virtualServiceTemplates s) (routes s) (httpFilters s) (accessLogs s) v (policies s) (tracings s) (specClusters s) (domainSecretsIndex s) (nodeDomains s) (vsStatusStorage s).
Definition set_policies (v : Index.t Policy) (s : OptimizedStore) : OptimizedStore :=
  mkStore (stringPool s) (virtualServices s) (listeners s) (clusters s) (templateToVS s) (virtualServiceTemplates s) (routes s) (httpFilters s) (accessLogs s) (secrets s) v (tracings s) (specClusters s) (domainSecretsIndex s) (nodeDomains s) (vsStatusStorage s).
Definition set_tracings (v : Index.t Tracing) (s : OptimizedStore) : OptimizedStore :=
  mkStore (stringPool s) (virtualServices s) (listeners s) (clusters s) (templateToVS s) (virtualServiceTemplates s) (routes s) (httpFilters s) (accessLogs s) (secrets s) (policies s) v (specClusters s) (domainSecretsIndex s) (nodeDomains s) (vsStatusStorage s).
Definition set_specClusters (v : gmap string Cluster) (s : OptimizedStore) : OptimizedStore :=
  mkStore (stringPool s) (virtualServices s) (listeners s) (clusters s) (templateToVS s) (virtualServiceTemplates s) (routes s) (httpFilters s) (accessLogs s) (secrets s) (policies s) (tracings s) v (domainSecretsIndex s) (nodeDomains s) (vsStatusStorage s).
Definition set_domainSecretsIndex (v : DomainSecrets.Index) (s : OptimizedStore) : OptimizedStore :=
  mkStore (stringPool s) (virtualServices s) (listeners s) (clusters s) (templateToVS s) (virtualServiceTemplates s) (routes s) (httpFilters s) (accessLogs s) (secrets s) (policies s) (tracings s) (specClusters s) v (nodeDomains s) (vsStatusStorage s).
Definition set_nodeDomains (v : gmap string (gset string)) (s : OptimizedStore) : OptimizedStore :=
  mkStore (stringPool s) (virtualServices s) (listeners s) (clusters s) (templateToVS s) (virtualServiceTemplates s) (routes s) (httpFilters s) (accessLogs s) (secrets s) (policies s) (tracings s) (specClusters s) (domainSecretsIndex s) v (vsStatusStorage s).
Definition set_vsStatusStorage (v : Status.t) (s : OptimizedStore) : OptimizedStore :=
  mkStore (stringPool s) (virtualServices s) (listeners s) (clusters s) (templateToVS s) (virtualServiceTemplates s) (routes s) (httpFilters s) (accessLogs s) (secrets s) (policies s) (tracings s) (specClusters s) (domainSecretsIndex s) (nodeDomains s) v.

(** [nonempty map] of a store without objects. *)
Definition NewOptimizedStore : OptimizedStore :=
  mkStore StringPool.NewStringPool Index.empty Index.empty Index.empty ∅ Index.empty Index.empty
    Index.empty Index.empty ∅ Index.empty Index.empty ∅ NewDomainSecretsIndex ∅
    Status.NewStatusStorage.

(** [obj.Name = pool.Intern(obj.Name); obj.Namespace = pool.InternNamespace(obj.Namespace);
    uid := pool.InternUID(obj.UID)] *)
Definition intern_name {R} `{!HasMeta R} `{!SetMeta R} (sp : StringPool.t) (r : R)
  : R * StringPool.t :=
  let '(n, sp) := StringPool.Intern sp (Name (meta r)) in
  let '(ns, sp) := StringPool.InternNamespace sp (Namespace (meta r)) in
  (with_meta r (rename_meta (meta r) n ns), sp).
Definition intern_obj {R} `{!HasMeta R} `{!SetMeta R} (sp : StringPool.t) (r : R)
  : R * string * StringPool.t :=
  let '(r, sp) := intern_name sp r in
  let '(u, sp) := StringPool.InternUID sp (UID (meta r)) in
  (r, u, sp).

(** The template a service refers to. *)
Definition templateKey (vs : VirtualService) : option NN :=
  match Template (vs_spec vs) with
  | None => None
  | Some t => Some (Helpers.mkNN (default (Namespace (meta vs)) (refNamespace t)) (refName t))
  end.

Definition updateTemplateIndex (ix : gmap NN (list VirtualService)) (vs : VirtualService)
  : gmap NN (list VirtualService) :=
  match templateKey vs with
  | None => ix
  | Some templateKey =>
      let vsList := default [] (ix !! templateKey) in
      if existsb (λ existing, bool_decide (uid existing = uid vs)) vsList then ix
      else <[templateKey := vsList ++ [vs]]> ix
  end.

(** [append(vsList[:i], vsList[i+1:]...)] at the first [i] with the UID. *)
Fixpoint remove_first (u : string) (l : list VirtualService) : option (list VirtualService) :=
  match l with
  | [] => None
  | v :: l => if decide (uid v = u) then Some l else cons v <$> remove_first u l
  end.

Definition removeFromTemplateIndex (ix : gmap NN (list VirtualService)) (vs : VirtualService)
  : gmap NN (list VirtualService) :=
  match templateKey vs with
  | None => ix
  | Some templateKey =>
      match remove_first (uid vs) (default [] (ix !! templateKey)) with
      | Some l => <[templateKey := l]> ix
      | None => ix
      end
  end.

(** *** Virtual services *)
Definition SetVirtualService (s : OptimizedStore) (vs : VirtualService) : OptimizedStore :=
  let '(vs, u, sp) := intern_obj (stringPool s) vs in
  let ix := match Index.items (virtualServices s) !! key vs with
            | Some old => removeFromTemplateIndex (templateToVS s) old
            | None => templateToVS s
            end in
  set_stringPool sp
    (set_templateToVS (updateTemplateIndex ix vs)
      (set_virtualServices (Index.set (virtualServices s) vs u) s)).

Definition GetVirtualService (s : OptimizedStore) (name : NN) : option VirtualService :=
  Index.items (virtualServices s) !! name.

Definition DeleteVirtualServiceStatus (s : OptimizedStore) (nn : NN) : OptimizedStore :=
  set_vsStatusStorage (Status.DeleteStatus (vsStatusStorage s) nn) s.

Definition DeleteVirtualService (s : OptimizedStore) (name : NN) : OptimizedStore :=
  match Index.items (virtualServices s) !! name with
  | Some vs =>
      DeleteVirtualServiceStatus
        (set_templateToVS (removeFromTemplateIndex (templateToVS s) vs)
          (set_virtualServices (Index.del (virtualServices s) name) s)) name
  | None => s
  end.

Definition GetVirtualServicesByTemplate (s : OptimizedStore) (templateName : NN)
  : list VirtualService := default [] (templateToVS s !! templateName).
Definition GetVirtualServicesByTemplateNN := GetVirtualServicesByTemplate.

Definition SetVirtualServiceStatus (s : OptimizedStore) (nn : NN) (invalid : bool)
    (message : string) : OptimizedStore :=
  set_vsStatusStorage (Status.SetStatus (vsStatusStorage s) nn invalid message) s.
Definition GetVirtualServiceStatus (s : OptimizedStore) (nn : NN) : Status.VirtualServiceStatus :=
  Status.GetStatus (vsStatusStorage s) nn.
Definition GetVirtualServiceWithStatus (s : OptimizedStore) (nn : NN) : option VirtualService :=
  Status.ApplyStatusToVS (vsStatusStorage s) <$> Index.items (virtualServices s) !! nn.

(** *** Kinds with a name and a UID index *)

Definition SetListener (s : OptimizedStore) (listener : Listener) : OptimizedStore :=
  let '(listener, uid, sp) := intern_obj (stringPool s) listener in
  set_stringPool sp (set_listeners (Index.set (listeners s) listener uid) s).
Definition GetListener (s : OptimizedStore) (name : NN) : option Listener :=
  Index.items (listeners s) !! name.
Definition DeleteListener (s : OptimizedStore) (name : NN) : OptimizedStore :=
  set_listeners (Index.del (listeners s) name) s.

Definition SetVirtualServiceTemplate (s : OptimizedStore) (vst : VirtualServiceTemplate) : OptimizedStore :=
  let '(vst, uid, sp) := intern_obj (stringPool s) vst in
  set_stringPool sp (set_virtualServiceTemplates (Index.set (virtualServiceTemplates s) vst uid) s).
Definition GetVirtualServiceTemplate (s : OptimizedStore) (name : NN) : option VirtualServiceTemplate :=
  Index.items (virtualServiceTemplates s) !! name.
Definition DeleteVirtualServiceTemplate (s : OptimizedStore) (name : NN) : OptimizedStore :=
  set_virtualServiceTemplates (Index.del (virtualServiceTemplates s) name) s.

Definition SetRoute (s : OptimizedStore) (route : Route) : OptimizedStore :=
  let '(route, uid, sp) := intern_obj (stringPool s) route in
  set_stringPool sp (set_routes (Index.set (routes s) route uid) s).
Definition GetRoute (s : OptimizedStore) (name : NN) : option Route :=
  Index.items (routes s) !! name.
Definition DeleteRoute (s : OptimizedStore) (name : NN) : OptimizedStore :=
  set_routes (Index.del (routes s) name) s.

Definition SetHTTPFilter (s : OptimizedStore) (filter : HttpFilter) : OptimizedStore :=
  let '(filter, uid, sp) := intern_obj (stringPool s) filter in
  set_stringPool sp (set_httpFilters (Index.set (httpFilters s) filter uid) s).
Definition GetHTTPFilter (s : OptimizedStore) (name : NN) : option HttpFilter :=
  Index.items (httpFilters s) !! name.
Definition DeleteHTTPFilter (s : OptimizedStore) (name : NN) : OptimizedStore :=
  set_httpFilters (Index.del (httpFilters s) name) s.

Definition SetAccessLog (s : OptimizedStore) (accessLog : AccessLogConfig) : OptimizedStore :=
  let '(accessLog, uid, sp) := intern_obj (stringPool s) accessLog in
  set_stringPool sp (set_accessLogs (Index.set (accessLogs s) accessLog uid) s).
Definition GetAccessLog (s : OptimizedStore) (name : NN) : option AccessLogConfig :=
  Index.items (accessLogs s) !! name.
Definition DeleteAccessLog (s : OptimizedStore) (name : NN) : OptimizedStore :=
  set_accessLogs (Index.del (accessLogs s) name) s.

Definition SetPolicy (s : OptimizedStore) (policy : Policy) : OptimizedStore :=
  let '(policy, uid, sp) := intern_obj (stringPool s) policy in
  set_stringPool sp (set_policies (Index.set (policies s) policy uid) s).
Definition GetPolicy (s : OptimizedStore) (name : NN) : option Policy :=
  Index.items (policies s) !! name.
Definition DeletePolicy (s : OptimizedStore) (name : NN) : OptimizedStore :=
  set_policies (Index.del (policies s) name) s.

Definition SetTracing (s : OptimizedStore) (tracing : Tracing) : OptimizedStore :=
  let '(tracing, uid, sp) := intern_obj (stringPool s) tracing in
  set_stringPool sp (set_tracings (Index.set (tracings s) tracing uid) s).
Definition GetTracing (s : OptimizedStore) (name : NN) : option Tracing :=
  Index.items (tracings s) !! name.
Definition DeleteTracing (s : OptimizedStore) (name : NN) : OptimizedStore :=
  set_tracings (Index.del (tracings s) name) s.

Definition IsExistingVirtualService (s : OptimizedStore) (name : NN) : bool :=
  bool_decide (is_Some (Index.items (virtualServices s) !! name)).
Definition MapVirtualServices (s : OptimizedStore) : gmap NN VirtualService :=
  copy_map (Index.items (virtualServices s)).
Definition GetVirtualServiceByUID (s : OptimizedStore) (uid : string) : option VirtualService :=
  Index.byUID (virtualServices s) !! uid.

Definition IsExistingVirtualServiceTemplate (s : OptimizedStore) (name : NN) : bool :=
  bool_decide (is_Some (Index.items (virtualServiceTemplates s) !! name)).
Definition MapVirtualServiceTemplates (s : OptimizedStore) : gmap NN VirtualServiceTemplate :=
  copy_map (Index.items (virtualServiceTemplates s)).
Definition GetVirtualServiceTemplateByUID (s : OptimizedStore) (uid : string) : option VirtualServiceTemplate :=
  Index.byUID (virtualServiceTemplates s) !! uid.

Definition IsExistingListener (s : OptimizedStore) (name : NN) : bool :=
  bool_decide (is_Some (Index.items (listeners s) !! name)).
Definition MapListeners (s : OptimizedStore) : gmap NN Listener :=
  copy_map (Index.items (listeners s)).
Definition GetListenerByUID (s : OptimizedStore) (uid : string) : option Listener :=
  Index.byUID (listeners s) !! uid.

Definition IsExistingRoute (s : OptimizedStore) (name : NN) : bool :=
  bool_decide (is_Some (Index.items (routes s) !! name)).
Definition MapRoutes (s : OptimizedStore) : gmap NN Route :=
  copy_map (Index.items (routes s)).
Definition GetRouteByUID (s : OptimizedStore) (uid : string) : option Route :=
  Index.byUID (routes s) !! uid.

Definition IsExistingCluster (s : OptimizedStore) (name : NN) : bool :=
  bool_decide (is_Some (Index.items (clusters s) !! name)).
Definition MapClusters (s : OptimizedStore) : gmap NN Cluster :=
  copy_map (Index.items (clusters s)).
Definition GetClusterByUID (s : OptimizedStore) (uid : string) : option Cluster :=
  Index.byUID (clusters s) !! uid.

Definition IsExistingHTTPFilter (s : OptimizedStore) (name : NN) : bool :=
  bool_decide (is_Some (Index.items (httpFilters s) !! name)).
Definition MapHTTPFilters (s : OptimizedStore) : gmap NN HttpFilter :=
  copy_map (Index.items (httpFilters s)).
Definition GetHTTPFilterByUID (s : OptimizedStore) (uid : string) : option HttpFilter :=
  Index.byUID (httpFilters s) !! uid.

Definition IsExistingAccessLog (s : OptimizedStore) (name : NN) : bool :=
  bool_decide (is_Some (Index.items (accessLogs s) !! name)).
Definition MapAccessLogs (s : OptimizedStore) : gmap NN AccessLogConfig :=
  copy_map (Index.items (accessLogs s)).
Definition GetAccessLogByUID (s : OptimizedStore) (uid : string) : option AccessLogConfig :=
  Index.byUID (accessLogs s) !! uid.

Definition IsExistingPolicy (s : OptimizedStore) (name : NN) : bool :=
  bool_decide (is_Some (Index.items (policies s) !! name)).
Definition MapPolicies (s : OptimizedStore) : gmap NN Policy :=
  copy_map (Index.items (policies s)).

Definition IsExistingTracing (s : OptimizedStore) (name : NN) : bool :=
  bool_decide (is_Some (Index.items (tracings s) !! name)).
Definition MapTracings (s : OptimizedStore) : gmap NN Tracing :=
  copy_map (Index.items (tracings s)).

(** *** Clusters *)
Section clusters.
Context `{!ProtoMessage Envoy.ClusterV3}.

(** [if v3, err := c.UnmarshalV3(); err == nil { delete(specClusters, v3.Name) }] *)
Definition drop_spec (m : gmap string Cluster) (c : Cluster) : gmap string Cluster :=
  match Api.Cluster_UnmarshalV3 c with
  | Ok v3 => delete (Envoy.cName v3) m
  | Err _ => m
  end.
Definition add_spec (m : gmap string Cluster) (c : Cluster) : gmap string Cluster :=
  match Api.Cluster_UnmarshalV3 c with
  | Ok v3 => <[Envoy.cName v3 := c]> m
  | Err _ => m
  end.

Definition SetCluster (s : OptimizedStore) (cluster : Cluster) : OptimizedStore :=
  let '(cluster, u, sp) := intern_obj (stringPool s) cluster in
  let spec := match Index.items (clusters s) !! key cluster with
              | Some old => drop_spec (specClusters s) old
              | None => specClusters s
              end in
  set_stringPool sp
    (set_specClusters (add_spec spec cluster)
      (set_clusters (Index.set (clusters s) cluster u) s)).

Definition GetCluster (s : OptimizedStore) (name : NN) : option Cluster :=
  Index.items (clusters s) !! name.

Definition DeleteCluster (s : OptimizedStore) (name : NN) : OptimizedStore :=
  match Index.items (clusters s) !! name with
  | Some cluster =>
      set_specClusters (drop_spec (specClusters s) cluster)
        (set_clusters (Index.del (clusters s) name) s)
  | None => s
  end.

Definition GetSpecCluster (s : OptimizedStore) (name : string) : option Cluster :=
  specClusters s !! name.
Definition MapSpecClusters (s : OptimizedStore) : gmap string Cluster := copy_map (specClusters s).
End clusters.

(** *** Secrets and the domain index *)
Section secrets.
Context (pem_Decode : string → option (PemBlock * string)).
Context (x509_ParseCertificate : string → result Time).

(** The loop of [ParseCertificateNotAfter] never runs out of its fuel
    ([ParseCertificateNotAfter_earliest]). *)
Definition notAfter_of (secret : Secret) : Time :=
  default 0%Z (ParseCertificateNotAfter pem_Decode x509_ParseCertificate (Some secret)).

(** The trimmed non-empty entries of the domains annotation. *)
Definition secret_domains (secret : Secret) : list string :=
  match nilmap_get (Annotations (meta secret)) Api.AnnotationSecretDomains with
  | None => []
  | Some a => filter (λ d, d ≠ "") (GoStrings.TrimSpace <$> GoStrings.Split GoStrings.comma a)
  end.

Definition addDomainSecretsForSecretWithNotAfter (idx : Index) (secret : Secret) (notAfter : Time)
  : Index :=
  foldl (λ idx domain, Add idx domain (mkEntry (key secret) notAfter)) idx (secret_domains secret).

Definition removeDomainSecretsForSecret (idx : Index) (secret : Secret) : Index :=
  foldl (λ idx domain, Remove idx domain (key secret)) idx (secret_domains secret).

(** The rebuild, ranging over the secrets in the order [order]. *)
Definition rebuild_index (order : list Secret) : Index :=
  foldl (λ idx secret, addDomainSecretsForSecretWithNotAfter idx secret (notAfter_of secret))
    NewDomainSecretsIndex order.
Definition updateDomainSecretsMap (s : OptimizedStore) : OptimizedStore :=
  set_domainSecretsIndex (rebuild_index (map_to_list (secrets s)).*2) s.

Definition SetSecret (s : OptimizedStore) (secret : Secret) : OptimizedStore :=
  let notAfter := notAfter_of secret in
  let '(secret, sp) := intern_name (stringPool s) secret in
  let idx := match secrets s !! key secret with
             | Some oldSecret => removeDomainSecretsForSecret (domainSecretsIndex s) oldSecret
             | None => domainSecretsIndex s
             end in
  set_stringPool sp
    (set_domainSecretsIndex (addDomainSecretsForSecretWithNotAfter idx secret notAfter)
      (set_secrets (<[key secret := secret]> (secrets s)) s)).

Definition GetSecret (s : OptimizedStore) (name : NN) : option Secret := secrets s !! name.

Definition DeleteSecret (s : OptimizedStore) (name : NN) : OptimizedStore :=
  match secrets s !! name with
  | Some secret =>
      set_secrets (delete name (secrets s))
        (set_domainSecretsIndex (removeDomainSecretsForSecret (domainSecretsIndex s) secret) s)
  | None => s
  end.

Definition IsExistingSecret (s : OptimizedStore) (name : NN) : bool :=
  bool_decide (is_Some (secrets s !! name)).
Definition MapSecrets (s : OptimizedStore) : gmap NN Secret := copy_map (secrets s).
End secrets.

Section lookup.
Context (now : Time).

Definition GetDomainSecret (s : OptimizedStore) (domain : string) : option Secret :=
  GetAnySecret (domainSecretsIndex s) domain (secrets s) now.
Definition GetDomainSecretForNamespace (s : OptimizedStore) (domain preferredNamespace : string)
  : option Secret :=
  GetBestSecret (domainSecretsIndex s) domain preferredNamespace (secrets s) now.

Definition validityToString (v : validityPriority) : string :=
  match v with
  | validityValid => "valid" | validityExpired => "expired"
  | validityUnknown => "unknown" | validityNotFound => "not_found"
  end.

Record SecretLookupResult := mkLookup {
  lSecret : option Secret;
  UsedWildcard : bool;
  FallbackReason : string;
  ExactSecretName : string;
  ExactValidity : string;
  WildcardSecretName : string;
  WildcardValidity : string
}.

Definition secret_name (s : option Secret) : string :=
  match s with
  | Some s => Namespace (meta s) +:+ "/" +:+ Name (meta s)
  | None => ""
  end.

Definition GetDomainSecretWithWildcardFallbackInfo (s : OptimizedStore)
    (domain preferredNamespace : string) : SecretLookupResult :=
  let '(exactSecret, exactValidity) :=
    GetBestSecretWithValidity (domainSecretsIndex s) domain preferredNamespace (secrets s) now in
  let exactV := validityToString exactValidity in
  let exactN := secret_name exactSecret in
  if decide (exactSecret ≠ None ∧ exactValidity = validityValid) then
    mkLookup exactSecret false "" exactN exactV "" (validityToString validityNotFound)
  else
    let wildcardDomain := ResUtils.GetWildcardDomain domain in
    if decide (wildcardDomain = "") then
      mkLookup exactSecret false "" exactN exactV "" (validityToString validityNotFound)
    else
      let '(wildcardSecret, wildcardValidity) :=
        GetBestSecretWithValidity (domainSecretsIndex s) wildcardDomain preferredNamespace
          (secrets s) now in
      let wildV := validityToString wildcardValidity in
      let wildN := secret_name wildcardSecret in
      match exactSecret with
      | None =>
          mkLookup wildcardSecret (bool_decide (wildcardSecret ≠ None)) "" exactN exactV wildN wildV
      | Some _ =>
          if decide (wildcardSecret ≠ None ∧ wildcardValidity = validityValid) then
            mkLookup wildcardSecret true exactV exactN exactV wildN wildV
          else mkLookup exactSecret false "" exactN exactV wildN wildV
      end.

Definition GetDomainSecretWithWildcardFallback (s : OptimizedStore)
    (domain preferredNamespace : string) : option Secret :=
  lSecret (GetDomainSecretWithWildcardFallbackInfo s domain preferredNamespace).

Definition MapDomainSecretsForNamespace (s : OptimizedStore) (preferredNamespace : string)
  : gmap string Secret :=
  map_fold (λ domain _ result,
    match GetBestSecret (domainSecretsIndex s) domain preferredNamespace (secrets s) now with
    | Some secret => <[domain := secret]> result
    | None => result
    end) ∅ (domainSecretsIndex s).
Definition MapDomainSecrets (s : OptimizedStore) : gmap string Secret :=
  map_fold (λ domain _ result,
    match GetAnySecret (domainSecretsIndex s) domain (secrets s) now with
    | Some secret => <[domain := secret]> result
    | None => result
    end) ∅ (domainSecretsIndex s).
End lookup.

Definition GetStringPoolStats (s : OptimizedStore) : StringPool.StringPoolStats := StringPool.GetStats (stringPool s).

(** *** Node domains *)

(** [for d := range domains { fresh[d] = struct{}{} }] *)
Definition copy_set (domains : gset string) : gset string :=
  set_fold (λ d acc, {[d]} ∪ acc) ∅ domains.
(** The deep copy of an index. *)
Definition copy_nodes (idx : gmap string (gset string)) : gmap string (gset string) :=
  map_fold (λ nodeID domains acc, <[nodeID := copy_set domains]> acc) ∅ idx.

Definition ReplaceNodeDomainsIndex (s : OptimizedStore) (idx : gmap string (gset string))
  : OptimizedStore := set_nodeDomains (copy_nodes idx) s.
Definition GetNodeDomainsIndex (s : OptimizedStore) : gmap string (gset string) :=
  copy_nodes (nodeDomains s).
Definition GetNodeDomainsForNodes (s : OptimizedStore) (nodeIDs : list string)
  : gmap string (gset string) * list string :=
  foldl (λ acc nodeID,
    match nodeDomains s !! nodeID with
    | Some domains => (<[nodeID := copy_set domains]> acc.1, acc.2)
    | None => (acc.1, acc.2 ++ [nodeID])
    end) (∅, []) nodeIDs.

(** *** [Copy] *)
Definition Copy (s : OptimizedStore) : OptimizedStore :=
  mkStore (stringPool s) (Index.copy (virtualServices s)) (Index.copy (listeners s))
    (Index.copy (clusters s)) (copy_map (templateToVS s))
    (Index.copy (virtualServiceTemplates s)) (Index.copy (routes s)) (Index.copy (httpFilters s))
    (Index.copy (accessLogs s)) (copy_map (secrets s)) (Index.copy (policies s))
    (Index.copy (tracings s)) (copy_map (specClusters s))
    (map_fold (λ domain entries acc, <[domain := copy_map entries]> acc) ∅ (domainSecretsIndex s))
    (copy_nodes (nodeDomains s)) (Status.Copy (vsStatusStorage s)).

(** *** Initial loading *)
Record resourceResult := mkRes {
  res_accessLogs : list AccessLogConfig;
  res_clusters : list Cluster;
  res_listeners : list Listener;
  res_routes : list Route;
  res_vs : list VirtualService;
  res_vst : list VirtualServiceTemplate;
  res_httpFilters : list HttpFilter;
  res_policies : list Policy;
  res_tracings : list Tracing;
  res_secrets : list Secret
}.

(** The answers of [cl.List] to the ten loaders; the secrets are those the label
    selector matches. *)
Record Client := mkClient {
  list_vs : result (list VirtualService);
  list_listeners : result (list Listener);
  list_clusters : result (list Cluster);
  list_accessLogs : result (list AccessLogConfig);
  list_routes : result (list Route);
  list_vst : result (list VirtualServiceTemplate);
  list_httpFilters : result (list HttpFilter);
  list_policies : result (list Policy);
  list_tracings : result (list Tracing);
  list_secrets : result (list Secret)
}.

(** The errors of the loaders that fail. *)
Definition load_errors (cl : Client) : list error :=
  let err {A} (what : string) (r : result A) : list error :=
    match r with Ok _ => [] | Err e => [ErrWrap what e] end in
  err "loading VirtualServices" (list_vs cl) ++ err "loading Listeners" (list_listeners cl) ++
  err "loading Clusters" (list_clusters cl) ++ err "loading AccessLogConfigs" (list_accessLogs cl) ++
  err "loading Routes" (list_routes cl) ++ err "loading VirtualServiceTemplates" (list_vst cl) ++
  err "loading HttpFilters" (list_httpFilters cl) ++ err "loading Policies" (list_policies cl) ++
  err "loading Tracings" (list_tracings cl) ++ err "loading Secrets" (list_secrets cl).

(** [errgroup.Wait] returns the error of the goroutine that failed first:
    [first] chooses it among the errors of the failing loaders. *)
Definition loadResourcesConcurrently (first : list error → error) (cl : Client)
  : result resourceResult :=
  match list_accessLogs cl, list_clusters cl, list_listeners cl, list_routes cl, list_vs cl,
        list_vst cl, list_httpFilters cl, list_policies cl, list_tracings cl, list_secrets cl with
  | Ok a, Ok c, Ok l, Ok r, Ok v, Ok t, Ok h, Ok p, Ok tr, Ok se =>
      Ok (mkRes a c l r v t h p tr se)
  | _, _, _, _, _, _, _, _, _, _ => Err (first (load_errors cl))
  end.

(** One round of a loading loop: intern, then the two assignments. *)
Definition fill_one {R} `{!HasMeta R} `{!SetMeta R}
    (st : Index.t R * StringPool.t) (r : R) : Index.t R * StringPool.t :=
  let '(r, u, sp) := intern_obj st.2 r in (Index.fill st.1 r u, sp).
Definition fill_all {R} `{!HasMeta R} `{!SetMeta R}
    (st : Index.t R * StringPool.t) (rs : list R) : Index.t R * StringPool.t := foldl fill_one st rs.

(** The loading loop of a kind with the fields [getf] and [setf]. *)
Definition fill_kind {R} `{!HasMeta R} `{!SetMeta R} (getf : OptimizedStore → Index.t R)
    (setf : Index.t R → OptimizedStore → OptimizedStore) (s : OptimizedStore) (rs : list R)
  : OptimizedStore :=
  let '(ix, sp) := fill_all (getf s, stringPool s) rs in set_stringPool sp (setf ix s).

Definition fill_vs (s : OptimizedStore) (vs : VirtualService) : OptimizedStore :=
  let '(vs, u, sp) := intern_obj (stringPool s) (Api.VS_NormalizeSpec vs) in
  set_stringPool sp
    (set_templateToVS (updateTemplateIndex (templateToVS s) vs)
      (set_virtualServices (Index.fill (virtualServices s) vs u) s)).

Definition fill_cluster `{!ProtoMessage Envoy.ClusterV3} (s : OptimizedStore) (cluster : Cluster)
  : OptimizedStore :=
  let '(cluster, u, sp) := intern_obj (stringPool s) cluster in
  set_stringPool sp
    (set_specClusters (add_spec (specClusters s) cluster)
      (set_clusters (Index.fill (clusters s) cluster u) s)).

Definition fill_secret (s : OptimizedStore) (secret : Secret) : OptimizedStore :=
  let '(secret, sp) := intern_name (stringPool s) secret in
  set_stringPool sp (set_secrets (<[key secret := secret]> (secrets s)) s).

Section fill.
Context `{!ProtoMessage Envoy.ClusterV3}.
Context (pem_Decode : string → option (PemBlock * string)).
Context (x509_ParseCertificate : string → result Time).

Definition fill_store (s : OptimizedStore) (agg : resourceResult) : OptimizedStore :=
  let s := fill_kind accessLogs set_accessLogs s (res_accessLogs agg) in
  let s := foldl fill_vs s (res_vs agg) in
  let s := fill_kind listeners set_listeners s (res_listeners agg) in
  let s := foldl fill_cluster s (res_clusters agg) in
  let s := fill_kind routes set_routes s (res_routes agg) in
  let s := fill_kind virtualServiceTemplates set_virtualServiceTemplates s
             (Api.VST_NormalizeSpec <$> res_vst agg) in
  let s := fill_kind httpFilters set_httpFilters s (res_httpFilters agg) in
  let s := fill_kind policies set_policies s (res_policies agg) in
  let s := fill_kind tracings set_tracings s (res_tracings agg) in
  let s := foldl fill_secret s (res_secrets agg) in
  updateDomainSecretsMap pem_Decode x509_ParseCertificate s.

(** [FillFromKubernetes]; [None] is a nil client. *)
Definition FillFromKubernetes (first : list error → error) (s : OptimizedStore)
    (cl : option Client) : OptimizedStore * option error :=
  match cl with
  | None => (s, None)
  | Some cl =>
      match loadResourcesConcurrently first cl with
      | Err e => (s, Some e)
      | Ok aggregated => (fill_store s aggregated, None)
      end
  end.
End fill.

(** ** Interning does not change the objects *)
Lemma intern_name_ok {R} `{!HasMeta R} `{!SetMeta R} sp (r : R) :
  StringPool.pool_ok sp →
  (intern_name sp r).1 = r ∧ StringPool.pool_ok (intern_name sp r).2.
Proof.
  intros Hok. unfold intern_name.
  destruct (StringPool.Intern_ok sp (Name (meta r)) Hok) as [H1 Hok1].
  destruct (StringPool.Intern sp (Name (meta r))) as [n sp1]; cbn in *.
  destruct (StringPool.InternNamespace_ok sp1 (Namespace (meta r)) Hok1) as [H2 Hok2].
  destruct (StringPool.InternNamespace sp1 (Namespace (meta r))) as [ns sp2]; cbn in *.
  split; [|done]. subst. assert (rename_meta (meta r) (Name (meta r)) (Namespace (meta r)) = meta r)
    as -> by (by destruct (meta r)). apply with_meta_id.
Qed.

Lemma intern_obj_ok {R} `{!HasMeta R} `{!SetMeta R} sp (r : R) :
  StringPool.pool_ok sp →
  ∃ sp', intern_obj sp r = (r, uid r, sp') ∧ StringPool.pool_ok sp'.
Proof.
  intros Hok. unfold intern_obj. destruct (intern_name_ok sp r Hok) as [Hr Hok1].
  destruct (intern_name sp r) as [r' sp1]; cbn in *. subst r'.
  destruct (StringPool.InternUID_ok sp1 (UID (meta r)) Hok1) as [Hu Hok2].
  destruct (StringPool.InternUID sp1 (UID (meta r))) as [u sp2]; cbn in *. subst. by exists sp2.
Qed.

(** ** The template index *)
Definition vs_of_template (ix : gmap NN (list VirtualService)) (t : NN) : list VirtualService :=
  default [] (ix !! t).

(** The services listed for a template are, without repetition, exactly the
    stored services that refer to it. *)
Definition template_index_ok (m : gmap NN VirtualService) (ix : gmap NN (list VirtualService)) : Prop :=
  ∀ t, NoDup (uid <$> vs_of_template ix t) ∧
    ∀ vs, vs ∈ vs_of_template ix t ↔ m !! key vs = Some vs ∧ templateKey vs = Some t.

Lemma remove_first_spec u l l' :
  NoDup (uid <$> l) → remove_first u l = Some l' →
  NoDup (uid <$> l') ∧ ∀ v, v ∈ l' ↔ v ∈ l ∧ uid v ≠ u.
Proof.
  revert l'. induction l as [|x l IH]; intros l' Hnd Hr; cbn in Hr; [done|].
  cbn in Hnd. apply NoDup_cons in Hnd as [Hx Hnd]. case_decide as Hu.
  - simplify_eq. split; [done|]. intros v. rewrite elem_of_cons. split.
    + intros Hv. split; [by right|]. intros He. apply Hx. rewrite <-He. by apply list_elem_of_fmap_2.
    + naive_solver.
  - apply fmap_Some in Hr as (l1 & Hr & ->). destruct (IH _ Hnd Hr) as [Hnd1 Hin]. split.
    + cbn. apply NoDup_cons. split; [|done]. rewrite list_elem_of_fmap. intros (v & Hv & Hl1).
      apply Hx. rewrite Hv. apply list_elem_of_fmap_2. by apply Hin.
    + intros v. rewrite !elem_of_cons, Hin. naive_solver.
Qed.

Lemma remove_first_None u l : remove_first u l = None ↔ ∀ v, v ∈ l → uid v ≠ u.
Proof.
  induction l as [|x l IH]; cbn; [split; [by intros _ ? ?%not_elem_of_nil|done]|].
  case_decide; [split; [done|]|].
  - intros Hn. destruct (Hn x); [by left|done].
  - rewrite fmap_None, IH. setoid_rewrite elem_of_cons. naive_solver.
Qed.

Lemma vs_of_template_insert ix t t' l :
  vs_of_template (<[t := l]> ix) t' = if decide (t = t') then l else vs_of_template ix t'.
Proof. unfold vs_of_template. rewrite lookup_insert. by case_decide. Qed.

Lemma template_index_remove own m ix old :
  (∀ k r, m !! k = Some r → own (uid r) = k) →
  template_index_ok m ix → m !! key old = Some old →
  template_index_ok (delete (key old) m) (removeFromTemplateIndex ix old).
Proof.
  intros Hown Hok Hold.
  assert (∀ vs, m !! key vs = Some vs → uid vs ≠ uid old ↔ key vs ≠ key old) as Hiff.
  { intros vs Hvs. split; intros Hne He; apply Hne.
    - rewrite He in Hvs. congruence.
    - apply Hown in Hvs, Hold. congruence. }
  unfold removeFromTemplateIndex.
  destruct (templateKey old) as [tk|] eqn:Htk.
  2:{ intros t. destruct (Hok t) as [Hnd Hin]. split; [done|]. intros vs.
      rewrite Hin, lookup_delete_Some. split; [|naive_solver].
      intros [Hvs Ht]. split_and!; [|done..]. intros He. rewrite <-He in Hvs. congruence. }
  fold (vs_of_template ix tk). destruct (Hok tk) as [Hndk Hink].
  destruct (remove_first (uid old) (vs_of_template ix tk)) as [l|] eqn:Hr.
  - destruct (remove_first_spec _ _ _ Hndk Hr) as [Hnd' Hin'].
    intros t. rewrite vs_of_template_insert. case_decide as Ht.
    + subst t. split; [done|]. intros vs. rewrite Hin', Hink, lookup_delete_Some.
      split; [intros [[Hv ?] ?%Hiff]|intros [[? Hv] ?]]; auto. split; [done|]. by apply Hiff.
    + destruct (Hok t) as [Hnd Hin]. split; [done|]. intros vs.
      rewrite Hin, lookup_delete_Some. split; [|naive_solver].
      intros [Hvs Htv]. split_and!; [|done..]. intros He. rewrite <-He in Hvs. congruence.
  - rewrite remove_first_None in Hr. exfalso. by apply (Hr old); [apply Hink|].
Qed.

Lemma template_index_update own m ix vs :
  (∀ k r, m !! k = Some r → own (uid r) = k) → own (uid vs) = key vs →
  template_index_ok m ix → m !! key vs = None →
  template_index_ok (<[key vs := vs]> m) (updateTemplateIndex ix vs).
Proof.
  intros Hown Hvs Hok Hnone.
  assert (∀ t v, v ∈ vs_of_template ix t → uid v ≠ uid vs ∧ key v ≠ key vs) as Hfresh.
  { intros t v [Hv _]%Hok. apply Hown in Hv as Ho. split; congruence. }
  assert (∀ v, (<[key vs := vs]> m) !! key v = Some v ↔ v = vs ∨ m !! key v = Some v) as Hlk.
  { intros v. rewrite lookup_insert_Some. split; [naive_solver|]. intros [->|Hv]; [by left|].
    right. split; [congruence|done]. }
  unfold updateTemplateIndex. destruct (templateKey vs) as [tk|] eqn:Htk.
  2:{ intros t. destruct (Hok t) as [Hnd Hin]. split; [done|]. intros v.
      rewrite Hin, Hlk. naive_solver. }
  fold (vs_of_template ix tk).
  assert (existsb (λ existing, bool_decide (uid existing = uid vs)) (vs_of_template ix tk) = false)
    as ->.
  { apply not_true_iff_false. rewrite existsb_exists. intros (v & Hv%list_elem_of_In & He%bool_decide_eq_true).
      by apply Hfresh in Hv as [? _]. }
  intros t. rewrite vs_of_template_insert. case_decide as Ht.
  - subst t. destruct (Hok tk) as [Hnd Hin]. split.
    + rewrite fmap_app. apply NoDup_app. split_and!; [done| |apply NoDup_singleton].
      intros u (v & -> & Hv)%list_elem_of_fmap Hu. apply list_elem_of_singleton in Hu.
      by apply Hfresh in Hv as [? _].
    + intros v. rewrite elem_of_app, list_elem_of_singleton, Hin, Hlk. naive_solver.
  - destruct (Hok t) as [Hnd Hin]. split; [done|]. intros v. rewrite Hin, Hlk. naive_solver.
Qed.

(** ** The domain index *)
Section domain_index.
Context (pem_Decode : string → option (PemBlock * string)).
Context (x509_ParseCertificate : string → result Time).
Let notAfter := notAfter_of pem_Decode x509_ParseCertificate.

(** What the index should hold for a domain and a secret's name. *)
Definition domain_entry (m : gmap NN Secret) (d : string) (n : NN) : option SecretDomainEntry :=
  match m !! n with
  | Some secret =>
      if decide (d ∈ secret_domains secret) then Some (mkEntry n (notAfter secret)) else None
  | None => None
  end.

Definition domain_index_ok (m : gmap NN Secret) (idx : Index) : Prop :=
  no_empty idx ∧ ∀ d n, entry_at idx d n = domain_entry m d n.

Lemma entry_at_adds idx (e : SecretDomainEntry) ds d n :
  entry_at (foldl (λ idx domain, Add idx domain e) idx ds) d n =
  if decide (d ∈ ds ∧ eNN e = n) then Some e else entry_at idx d n.
Proof using Type.
  revert idx. induction ds as [|x ds IH]; intros idx; cbn [foldl].
  - by rewrite decide_False by (by intros [?%not_elem_of_nil _]).
  - rewrite IH, entry_at_Add.
    destruct (decide (d ∈ ds ∧ eNN e = n)) as [[? ?]|Hn].
    + rewrite decide_True; [done|]. split; [by right|done].
    + destruct (decide (x = d ∧ eNN e = n)) as [[-> ?]|Hx].
      * rewrite decide_True; [done|]. split; [by left|done].
      * rewrite decide_False; [done|]. rewrite elem_of_cons. naive_solver.
Qed.

Lemma entry_at_removes idx n0 ds d n :
  entry_at (foldl (λ idx domain, Remove idx domain n0) idx ds) d n =
  if decide (d ∈ ds ∧ n0 = n) then None else entry_at idx d n.
Proof using Type.
  revert idx. induction ds as [|x ds IH]; intros idx; cbn [foldl].
  - by rewrite decide_False by (by intros [?%not_elem_of_nil _]).
  - rewrite IH, entry_at_Remove.
    destruct (decide (d ∈ ds ∧ n0 = n)) as [[? ?]|Hn].
    + rewrite decide_True; [done|]. split; [by right|done].
    + destruct (decide (x = d ∧ n0 = n)) as [[-> ?]|Hx].
      * rewrite decide_True; [done|]. split; [by left|done].
      * rewrite decide_False; [done|]. rewrite elem_of_cons. naive_solver.
Qed.

Lemma foldl_no_empty {A} (f : Index → A → Index) idx l :
  (∀ idx x, no_empty idx → no_empty (f idx x)) → no_empty idx → no_empty (foldl f idx l).
Proof using Type. intros Hf. revert idx. induction l; cbn; auto. Qed.

Lemma domain_index_add m idx secret :
  domain_index_ok m idx → m !! key secret = None →
  domain_index_ok (<[key secret := secret]> m)
    (addDomainSecretsForSecretWithNotAfter idx secret (notAfter secret)).
Proof using Type.
  intros [Hne Hidx] Hn. split.
  { apply foldl_no_empty; [|done]. intros. by apply no_empty_Add. }
  intros d n. unfold addDomainSecretsForSecretWithNotAfter. rewrite entry_at_adds, Hidx.
  unfold domain_entry. destruct (decide (key secret = n)) as [<-|Hk]; cbn.
  - rewrite lookup_insert_eq, Hn.
    destruct (decide (d ∈ secret_domains secret)) as [Hd|Hd].
    + by rewrite decide_True.
    + by rewrite decide_False by tauto.
  - rewrite lookup_insert_ne by done. by rewrite decide_False by tauto.
Qed.

Lemma domain_index_remove m idx secret :
  domain_index_ok m idx → m !! key secret = Some secret →
  domain_index_ok (delete (key secret) m) (removeDomainSecretsForSecret idx secret).
Proof using Type.
  intros [Hne Hidx] Hs. split.
  { apply foldl_no_empty; [|done]. intros. by apply no_empty_Remove. }
  intros d n. unfold removeDomainSecretsForSecret. rewrite entry_at_removes, Hidx.
  unfold domain_entry. destruct (decide (key secret = n)) as [<-|Hk]; cbn.
  - rewrite lookup_delete_eq, Hs.
    destruct (decide (d ∈ secret_domains secret)) as [Hd|Hd].
    + by rewrite decide_True.
    + by rewrite decide_False by tauto.
  - rewrite lookup_delete_ne by done. by rewrite decide_False by tauto.
Qed.

Lemma domain_index_unique m idx idx' :
  domain_index_ok m idx → domain_index_ok m idx' → idx = idx'.
Proof using Type. intros [H1 E1] [H2 E2]. apply index_ext; [done..|]. intros. by rewrite E1, E2. Qed.

Lemma domain_index_rebuild_list m idx order :
  domain_index_ok m idx → NoDup (key <$> order) → (∀ s, s ∈ order → m !! key s = None) →
  domain_index_ok (foldl (λ m s, <[key s := s]> m) m order)
    (foldl (λ idx s, addDomainSecretsForSecretWithNotAfter idx s (notAfter s)) idx order).
Proof using Type.
  revert m idx. induction order as [|s order IH]; intros m idx Hok Hnd Hf; cbn; [done|].
  cbn in Hnd. apply NoDup_cons in Hnd as [Hs Hnd]. apply IH; [|done|].
  - apply domain_index_add; [done|]. apply Hf. by left.
  - intros s' Hs'. rewrite lookup_insert_ne; [apply Hf; by right|].
    intros He. apply Hs. rewrite He. by apply list_elem_of_fmap_2.
Qed.

Lemma foldl_insert_values (m : gmap NN Secret) order :
  (∀ k s, m !! k = Some s → key s = k) → order ≡ₚ (map_to_list m).*2 →
  foldl (λ m s, <[key s := s]> m) ∅ order = m ∧ NoDup (key <$> order).
Proof using Type.
  intros Hkey Hp.
  assert ((λ s, (key s, s)) <$> order ≡ₚ map_to_list m) as Hp'.
  { rewrite Hp, <-list_fmap_compose.
    assert ((λ s, (key s, s)) ∘ snd <$> map_to_list m = map_to_list m) as ->; [|done].
    rewrite <-(list_fmap_id (map_to_list m)) at 2. apply list_fmap_ext. intros i [k s] Hi. cbn.
    apply list_elem_of_lookup_2, elem_of_map_to_list, Hkey in Hi. by rewrite Hi. }
  assert (NoDup (key <$> order)) as Hnd.
  { pose proof (NoDup_fst_map_to_list m) as H. rewrite <-Hp', <-list_fmap_compose in H. exact H. }
  split; [|done].
  assert (∀ (l : list Secret) (m0 : gmap NN Secret), foldl (λ m s, <[key s := s]> m) m0 l =
    list_to_map (reverse ((λ s, (key s, s)) <$> l)) ∪ m0) as Hfold.
  { induction l as [|s l IH]; intros m0; [symmetry; apply (left_id_L ∅ (∪))|].
    cbn [foldl]. rewrite IH, fmap_cons, reverse_cons, list_to_map_app.
    rewrite <-(assoc_L (∪)). f_equal. cbn.
    by rewrite insert_empty, insert_union_singleton_l. }
  rewrite Hfold, (right_id_L ∅ (∪)). rewrite <-(list_to_map_to_list m) at 1.
  apply list_to_map_proper.
  - rewrite reverse_Permutation, <-list_fmap_compose. exact Hnd.
  - by rewrite reverse_Permutation.
Qed.

Lemma domain_index_empty : domain_index_ok ∅ NewDomainSecretsIndex.
Proof using Type.
  split; [apply no_empty_New|]. intros d n. rewrite entry_at_empty. unfold domain_entry.
  by rewrite lookup_empty.
Qed.

Lemma domain_index_rebuild m order :
  (∀ k s, m !! k = Some s → key s = k) → order ≡ₚ (map_to_list m).*2 →
  domain_index_ok m (rebuild_index pem_Decode x509_ParseCertificate order).
Proof using Type.
  intros Hkey Hp. destruct (foldl_insert_values m order Hkey Hp) as [Hm Hnd].
  rewrite <-Hm at 1. apply domain_index_rebuild_list; [apply domain_index_empty|done|].
  intros. apply lookup_empty.
Qed.
End domain_index.

(** ** The index of clusters by the name of their Envoy cluster *)
Section spec_index.
Context `{!ProtoMessage Envoy.ClusterV3}.

Definition spec_name (c : Cluster) : option string :=
  match Api.Cluster_UnmarshalV3 c with Ok v3 => Some (Envoy.cName v3) | Err _ => None end.

Definition spec_index_ok (m : gmap NN Cluster) (ix : gmap string Cluster) : Prop :=
  ∀ n c, ix !! n = Some c ↔ m !! key c = Some c ∧ spec_name c = Some n.

(** Envoy cluster names identify the resources that define them. *)
Definition specs_owned (spec_own : string → NN) (m : gmap NN Cluster) : Prop :=
  ∀ k c n, m !! k = Some c → spec_name c = Some n → spec_own n = k.

Lemma drop_spec_alt ix c :
  drop_spec ix c = match spec_name c with Some n => delete n ix | None => ix end.
Proof. unfold drop_spec, spec_name. by destruct (Api.Cluster_UnmarshalV3 c). Qed.
Lemma add_spec_alt ix c :
  add_spec ix c = match spec_name c with Some n => <[n := c]> ix | None => ix end.
Proof. unfold add_spec, spec_name. by destruct (Api.Cluster_UnmarshalV3 c). Qed.

Lemma spec_index_drop own m ix old :
  specs_owned own m → spec_index_ok m ix → m !! key old = Some old →
  spec_index_ok (delete (key old) m) (drop_spec ix old).
Proof.
  intros Hown Hok Hold n c. rewrite drop_spec_alt. unfold spec_index_ok in Hok.
  assert (spec_name old = Some n → m !! key c = Some c → spec_name c = Some n → key old = key c) as Hk.
  { intros Ho Hc Hn. rewrite <-(Hown _ _ _ Hold Ho). by apply (Hown _ _ _ Hc Hn). }
  destruct (spec_name old) as [no|] eqn:Hno.
  - rewrite !lookup_delete_Some, Hok. split.
    + intros (Hne & Hc & Hn). split_and!; [|done..]. intros He. rewrite <-He in Hc. congruence.
    + intros [[Hne Hc] Hn]. split_and!; [|done..]. intros ->. by apply Hne, Hk.
  - rewrite lookup_delete_Some, Hok. split.
    + intros [Hc Hn]. split_and!; [|done..]. intros He. rewrite <-He in Hc. congruence.
    + tauto.
Qed.

Lemma spec_index_add own m ix c0 :
  specs_owned own (<[key c0 := c0]> m) → spec_index_ok m ix → m !! key c0 = None →
  spec_index_ok (<[key c0 := c0]> m) (add_spec ix c0).
Proof.
  intros Hown Hok Hnone n c. rewrite add_spec_alt. unfold spec_index_ok in Hok.
  assert ((<[key c0 := c0]> m) !! key c = Some c ↔ c = c0 ∨ m !! key c = Some c) as Hlk.
  { rewrite lookup_insert_Some. split; [naive_solver|]. intros [->|Hc]; [by left|].
    right. split; [congruence|done]. }
  destruct (spec_name c0) as [n0|] eqn:Hn0.
  - rewrite lookup_insert_Some, Hok, Hlk. split; [naive_solver|].
    intros [[->|Hc] Hn]; [left; split; congruence|]. right. split; [|done]. intros ->.
    assert (own n = key c0) by (eapply Hown; [apply lookup_insert_eq|done]).
    assert (own n = key c); [|congruence]. eapply Hown; [|done]. by apply Hlk; right.
  - rewrite Hok, Hlk. naive_solver.
Qed.
End spec_index.

(** ** Histories of the store *)
Inductive op :=
| OSetVirtualService (vs : VirtualService) | ODeleteVirtualService (n : NN)
| OSetListener (l : Listener) | ODeleteListener (n : NN)
| OSetCluster (c : Cluster) | ODeleteCluster (n : NN)
| OSetVirtualServiceTemplate (t : VirtualServiceTemplate) | ODeleteVirtualServiceTemplate (n : NN)
| OSetRoute (r : Route) | ODeleteRoute (n : NN)
| OSetHTTPFilter (h : HttpFilter) | ODeleteHTTPFilter (n : NN)
| OSetAccessLog (a : AccessLogConfig) | ODeleteAccessLog (n : NN)
| OSetPolicy (p : Policy) | ODeletePolicy (n : NN)
| OSetTracing (t : Tracing) | ODeleteTracing (n : NN)
| OSetSecret (s : Secret) | ODeleteSecret (n : NN)
| OSetStatus (n : NN) (invalid : bool) (message : string)
| OReplaceNodeDomains (idx : gmap string (gset string))
| OCopy.

Section history.
Context `{!ProtoMessage Envoy.ClusterV3}.
Context (pem_Decode : string → option (PemBlock * string)).
Context (x509_ParseCertificate : string → result Time).

(** One operation; [OCopy] continues with the copy. *)
Definition exec (s : OptimizedStore) (o : op) : OptimizedStore :=
  match o with
  | OSetVirtualService vs => SetVirtualService s vs
  | ODeleteVirtualService n => DeleteVirtualService s n
  | OSetListener l => SetListener s l
  | ODeleteListener n => DeleteListener s n
  | OSetCluster c => SetCluster s c
  | ODeleteCluster n => DeleteCluster s n
  | OSetVirtualServiceTemplate t => SetVirtualServiceTemplate s t
  | ODeleteVirtualServiceTemplate n => DeleteVirtualServiceTemplate s n
  | OSetRoute r => SetRoute s r
  | ODeleteRoute n => DeleteRoute s n
  | OSetHTTPFilter h => SetHTTPFilter s h
  | ODeleteHTTPFilter n => DeleteHTTPFilter s n
  | OSetAccessLog a => SetAccessLog s a
  | ODeleteAccessLog n => DeleteAccessLog s n
  | OSetPolicy p => SetPolicy s p
  | ODeletePolicy n => DeletePolicy s n
  | OSetTracing t => SetTracing s t
  | ODeleteTracing n => DeleteTracing s n
  | OSetSecret se => SetSecret pem_Decode x509_ParseCertificate s se
  | ODeleteSecret n => DeleteSecret s n
  | OSetStatus n i m => SetVirtualServiceStatus s n i m
  | OReplaceNodeDomains idx => ReplaceNodeDomainsIndex s idx
  | OCopy => Copy s
  end.

(** Kubernetes never gives a UID to two names, and two clusters of the
    admitted configuration do not define the same Envoy cluster. *)
Definition allowed (own spec_own : string → NN) (o : op) : Prop :=
  match o with
  | OSetVirtualService r => own (uid r) = key r
  | OSetListener r => own (uid r) = key r
  | OSetCluster r => own (uid r) = key r ∧ ∀ n, spec_name r = Some n → spec_own n = key r
  | OSetVirtualServiceTemplate r => own (uid r) = key r
  | OSetRoute r => own (uid r) = key r
  | OSetHTTPFilter r => own (uid r) = key r
  | OSetAccessLog r => own (uid r) = key r
  | OSetPolicy r => own (uid r) = key r
  | OSetTracing r => own (uid r) = key r
  | _ => True
  end.

(** The part of the invariant that needs no assumption on the objects. *)
Record base (s : OptimizedStore) : Prop := {
  wf_pool : StringPool.pool_ok (stringPool s);
  wf_secret_keys : ∀ k se, secrets s !! k = Some se → key se = k;
  wf_domains : domain_index_ok pem_Decode x509_ParseCertificate (secrets s) (domainSecretsIndex s)
}.

Record wf (own spec_own : string → NN) (s : OptimizedStore) : Prop := {
  wf_base : base s;
  wf_vs : Index.wf own (virtualServices s);
  wf_listeners : Index.wf own (listeners s);
  wf_clusters : Index.wf own (clusters s);
  wf_vst : Index.wf own (virtualServiceTemplates s);
  wf_routes : Index.wf own (routes s);
  wf_httpFilters : Index.wf own (httpFilters s);
  wf_accessLogs : Index.wf own (accessLogs s);
  wf_policies : Index.wf own (policies s);
  wf_tracings : Index.wf own (tracings s);
  wf_templates : template_index_ok (Index.items (virtualServices s)) (templateToVS s);
  wf_spec_own : specs_owned spec_own (Index.items (clusters s));
  wf_spec : spec_index_ok (Index.items (clusters s)) (specClusters s)
}.

Lemma copy_set_id (X : gset string) : copy_set X = X.
Proof.
  unfold copy_set. apply (set_fold_ind_L (λ acc Y, acc = Y)); [done|]. by intros ??? _ ->.
Qed.

Lemma map_fold_copy {K V} `{Countable K} (f : V → V) (m : gmap K V) :
  (∀ v, f v = v) → map_fold (λ k v acc, <[k := f v]> acc) ∅ m = m.
Proof.
  intros Hf. rewrite <-(copy_map_id m) at 2. apply map_fold_ext'. intros. by rewrite Hf.
Qed.

Lemma copy_nodes_id idx : copy_nodes idx = idx.
Proof. apply map_fold_copy, copy_set_id. Qed.

Lemma Index_copy_id {R} (ix : Index.t R) : Index.copy ix = ix.
Proof. destruct ix. unfold Index.copy. cbn. by rewrite !copy_map_id. Qed.

Lemma Copy_id s : Copy s = s.
Proof.
  destruct s. unfold Copy. cbn. rewrite !Index_copy_id, !copy_map_id, copy_nodes_id.
  f_equal; [apply map_fold_copy, copy_map_id|apply copy_map_id].
Qed.

(** *** Preservation *)
Ltac open_intern r :=
  let sp := fresh "sp" in let Hi := fresh "Hi" in let Hp := fresh "Hp" in
  match goal with
  | H : base ?s |- context [intern_obj (stringPool ?s) r] =>
      destruct (intern_obj_ok (stringPool s) r (wf_pool _ H)) as (sp & Hi & Hp);
      rewrite Hi
  end.
(** Closes the fields of the invariant an operation does not touch. *)
Ltac base_rest H := destruct H; constructor; cbn; auto with go.
Ltac wf_rest H := destruct H; constructor; cbn; auto with go.

Lemma base_new : base NewOptimizedStore.
Proof.
  constructor; cbn.
  - intros ? ?. cbn. by rewrite lookup_empty.
  - intros ? ?. by rewrite lookup_empty.
  - apply domain_index_empty.
Qed.

Lemma base_SetSecret s se : base s → base (SetSecret pem_Decode x509_ParseCertificate s se).
Proof.
  intros Hb. unfold SetSecret.
  destruct (intern_name_ok (stringPool s) se (wf_pool _ Hb)) as [Hse Hp].
  destruct (intern_name (stringPool s) se) as [se' sp]; cbn in *. subst se'.
  pose proof (wf_secret_keys _ Hb) as Hk. pose proof (wf_domains _ Hb) as Hok.
  constructor; cbn; [done| |].
  { intros k se'. rewrite lookup_insert_Some. intros [[<- <-]|[_ H]]; [done|]. by apply Hk. }
  destruct (secrets s !! key se) as [old|] eqn:Hold; [|by apply domain_index_add].
  apply Hk in Hold as Hko. rewrite <-insert_delete_eq.
  apply domain_index_add; [|apply lookup_delete_eq].
  rewrite <-Hko in Hold |- *. by apply domain_index_remove.
Qed.

Lemma base_DeleteSecret s n : base s → base (DeleteSecret s n).
Proof.
  intros Hb. unfold DeleteSecret. destruct (secrets s !! n) as [se|] eqn:Hse; [|done].
  pose proof (wf_secret_keys _ Hb) as Hk. apply Hk in Hse as Hkey. subst n.
  pose proof (domain_index_remove _ _ _ _ _ (wf_domains _ Hb) Hse) as Ht.
  constructor; cbn; [apply Hb| |done].
  intros k se'. rewrite lookup_delete_Some. intros []. by apply Hk.
Qed.

Lemma base_exec s o : base s → base (exec s o).
Proof.
  intros Hb. destruct o as [vs|n|l| |c|n|t| |r| |h| |a| |p| |t| |se| | | |]; cbn.
  all: try (unfold SetVirtualService, SetCluster, SetListener, SetVirtualServiceTemplate, SetRoute,
    SetHTTPFilter, SetAccessLog, SetPolicy, SetTracing; match goal with
      | |- context [intern_obj _ ?r] => open_intern r; by base_rest Hb end).
  all: try by base_rest Hb.
  - unfold DeleteVirtualService. case_match; [by base_rest Hb|done].
  - unfold DeleteCluster. case_match; [by base_rest Hb|done].
  - by apply base_SetSecret.
  - by apply base_DeleteSecret.
  - by rewrite Copy_id.
Qed.

Lemma base_history ops s : base s → base (foldl exec s ops).
Proof. revert s. induction ops as [|o ops IH]; intros s Hb; cbn; [done|]. by apply IH, base_exec. Qed.

(** Whatever is found under an Envoy cluster name defines a cluster of that name. *)
Definition spec_named (s : OptimizedStore) : Prop :=
  ∀ n c, GetSpecCluster s n = Some c → spec_name c = Some n.

Lemma add_spec_named m c n c' :
  (∀ n c, m !! n = Some c → spec_name c = Some n) →
  add_spec m c !! n = Some c' → spec_name c' = Some n.
Proof.
  intros Hm. rewrite add_spec_alt. destruct (spec_name c) as [n0|] eqn:Hc; [|apply Hm].
  intros [[<- <-]|[_ ?]]%lookup_insert_Some; [done|by apply Hm].
Qed.
Lemma drop_spec_named m c n c' :
  (∀ n c, m !! n = Some c → spec_name c = Some n) →
  drop_spec m c !! n = Some c' → spec_name c' = Some n.
Proof.
  intros Hm. rewrite drop_spec_alt. destruct (spec_name c); [|apply Hm].
  intros [_ ?]%lookup_delete_Some. by apply Hm.
Qed.

Lemma spec_named_exec s o : spec_named s → spec_named (exec s o).
Proof.
  intros Hs. destruct o as [vs|n|l| |c|n|t| |r| |h| |a| |p| |t| |se| | | |]; cbn; try done.
  all: try (unfold SetVirtualService, SetListener, SetVirtualServiceTemplate, SetRoute,
    SetHTTPFilter, SetAccessLog, SetPolicy, SetTracing, SetSecret; repeat case_match; done).
  - unfold DeleteVirtualService. by case_match.
  - unfold SetCluster. destruct (intern_obj _ _) as [[c' u] sp]. intros n c''. cbn.
    apply add_spec_named. intros n' c3. case_match; [by apply drop_spec_named|apply Hs].
  - unfold DeleteCluster. case_match; [|done]. intros n' c'. cbn. by apply drop_spec_named.
  - unfold DeleteSecret. by case_match.
  - by rewrite Copy_id.
Qed.
Lemma spec_named_history ops : spec_named (foldl exec NewOptimizedStore ops).
Proof.
  assert (∀ s, spec_named s → spec_named (foldl exec s ops)) as Hf.
  { induction ops as [|o ops IH]; intros s Hs; cbn; [done|]. by apply IH, spec_named_exec. }
  apply Hf. intros n c Hc. change ((∅ : gmap string Cluster) !! n = Some c) in Hc.
  by rewrite lookup_empty in Hc.
Qed.

Lemma wf_new own spec_own : wf own spec_own NewOptimizedStore.
Proof.
  constructor; cbn; auto with go.
  - apply base_new.
  - intros t. split; [constructor|]. intros vs. cbn. rewrite lookup_empty.
    split; [by intros ?%not_elem_of_nil|naive_solver].
  - intros ? ? ?. cbn. by rewrite lookup_empty.
  - intros ? ?. cbn. rewrite !lookup_empty. naive_solver.
Qed.

Lemma wf_SetVirtualService own spec_own s vs :
  own (uid vs) = key vs → wf own spec_own s → wf own spec_own (SetVirtualService s vs).
Proof.
  intros Hvs Hwf. pose proof (base_exec s (OSetVirtualService vs) (wf_base _ _ _ Hwf)) as Hb'.
  cbn in Hb'. unfold SetVirtualService in Hb' |- *. pose proof (wf_base _ _ _ Hwf) as Hb.
  revert Hb'. open_intern vs. intros Hb'.
  assert (template_index_ok (<[key vs := vs]> (Index.items (virtualServices s)))
    (updateTemplateIndex match Index.items (virtualServices s) !! key vs with
      | Some old => removeFromTemplateIndex (templateToVS s) old
      | None => templateToVS s end vs)) as Ht; [|by wf_rest Hwf].
  destruct (wf_vs _ _ _ Hwf) as [[Hk _] Hown]. pose proof (wf_templates _ _ _ Hwf) as Hok.
  destruct (Index.items (virtualServices s) !! key vs) as [old|] eqn:Hold.
  - apply Hk in Hold as Hko. rewrite <-Hko in Hold |- *.
    rewrite <-insert_delete_eq. rewrite Hko. apply (template_index_update own).
    + intros k r. rewrite lookup_delete_Some. intros []. by apply Hown.
    + done.
    + rewrite <-Hko. by apply (template_index_remove own).
    + apply lookup_delete_eq.
  - by apply (template_index_update own).
Qed.

Lemma wf_DeleteVirtualService own spec_own s n :
  wf own spec_own s → wf own spec_own (DeleteVirtualService s n).
Proof.
  intros Hwf. pose proof (base_exec s (ODeleteVirtualService n) (wf_base _ _ _ Hwf)) as Hb'.
  cbn in Hb'. unfold DeleteVirtualService in Hb' |- *.
  destruct (Index.items (virtualServices s) !! n) as [vs|] eqn:Hvs; [|done].
  destruct (wf_vs _ _ _ Hwf) as [[Hk _] Hown]. pose proof (wf_templates _ _ _ Hwf) as Hok.
  apply Hk in Hvs as Hkey. subst n.
  pose proof (template_index_remove own _ _ _ Hown Hok Hvs) as Ht.
  rewrite <-Index.items_del in Ht. by wf_rest Hwf.
Qed.

Lemma wf_SetCluster own spec_own s c :
  own (uid c) = key c → (∀ n, spec_name c = Some n → spec_own n = key c) →
  wf own spec_own s → wf own spec_own (SetCluster s c).
Proof.
  intros Hc Hspec Hwf. pose proof (base_exec s (OSetCluster c) (wf_base _ _ _ Hwf)) as Hb'.
  cbn in Hb'. unfold SetCluster in Hb' |- *. pose proof (wf_base _ _ _ Hwf) as Hb.
  revert Hb'. open_intern c. intros Hb'.
  destruct (wf_clusters _ _ _ Hwf) as [[Hk _] _]. pose proof (wf_spec _ _ _ Hwf) as Hok.
  pose proof (wf_spec_own _ _ _ Hwf) as Hso.
  assert (specs_owned spec_own (<[key c := c]> (Index.items (clusters s)))) as Hso'.
  { intros k c' n. rewrite lookup_insert_Some. intros [[<- <-]|[_ H]]; [apply Hspec|by eapply Hso]. }
  assert (spec_index_ok (<[key c := c]> (Index.items (clusters s)))
    (add_spec match Index.items (clusters s) !! key c with
      | Some old => drop_spec (specClusters s) old
      | None => specClusters s end c)) as Ht; [|by wf_rest Hwf].
  destruct (Index.items (clusters s) !! key c) as [old|] eqn:Hold.
  - apply Hk in Hold as Hko. rewrite <-insert_delete_eq in Hso' |- *.
    apply (spec_index_add spec_own); [done| |apply lookup_delete_eq].
    rewrite <-Hko in Hold |- *. by apply (spec_index_drop spec_own).
  - by apply (spec_index_add spec_own).
Qed.

Lemma wf_DeleteCluster own spec_own s n :
  wf own spec_own s → wf own spec_own (DeleteCluster s n).
Proof.
  intros Hwf. pose proof (base_exec s (ODeleteCluster n) (wf_base _ _ _ Hwf)) as Hb'.
  cbn in Hb'. unfold DeleteCluster in Hb' |- *.
  destruct (Index.items (clusters s) !! n) as [c|] eqn:Hc; [|done].
  destruct (wf_clusters _ _ _ Hwf) as [[Hk _] _]. pose proof (wf_spec_own _ _ _ Hwf) as Hso.
  apply Hk in Hc as Hkey. subst n.
  pose proof (spec_index_drop spec_own _ _ _ Hso (wf_spec _ _ _ Hwf) Hc) as Ht.
  assert (specs_owned spec_own (delete (key c) (Index.items (clusters s)))) as Hso'.
  { intros k c' n. rewrite lookup_delete_Some. intros []. by eapply Hso. }
  rewrite <-Index.items_del in Ht, Hso'. by wf_rest Hwf.
Qed.

Lemma wf_same own spec_own s s' :
  wf own spec_own s → base s' →
  virtualServices s' = virtualServices s → listeners s' = listeners s → clusters s' = clusters s →
  virtualServiceTemplates s' = virtualServiceTemplates s → routes s' = routes s →
  httpFilters s' = httpFilters s → accessLogs s' = accessLogs s → policies s' = policies s →
  tracings s' = tracings s → templateToVS s' = templateToVS s → specClusters s' = specClusters s →
  wf own spec_own s'.
Proof.
  intros [] Hb E1 E2 E3 E4 E5 E6 E7 E8 E9 E10 E11.
  constructor; rewrite ?E1, ?E2, ?E3, ?E4, ?E5, ?E6, ?E7, ?E8, ?E9, ?E10, ?E11; done.
Qed.

Lemma wf_SetSecret own spec_own s se :
  wf own spec_own s → wf own spec_own (SetSecret pem_Decode x509_ParseCertificate s se).
Proof.
  intros Hwf. apply (wf_same _ _ s); [done|by apply base_SetSecret, Hwf|..].
  all: unfold SetSecret; by destruct (intern_name _ _).
Qed.

Lemma wf_DeleteSecret own spec_own s n :
  wf own spec_own s → wf own spec_own (DeleteSecret s n).
Proof.
  intros Hwf. apply (wf_same _ _ s); [done|by apply base_DeleteSecret, Hwf|..].
  all: unfold DeleteSecret; by case_match.
Qed.

Lemma wf_exec own spec_own s o :
  allowed own spec_own o → wf own spec_own s → wf own spec_own (exec s o).
Proof.
  intros Ha Hwf. pose proof (base_exec s o (wf_base _ _ _ Hwf)) as Hb'.
  pose proof (wf_base _ _ _ Hwf) as Hb. destruct o as
    [vs| |l| |c| |t| |r| |h| |a| |p| |t| |se| | | |]; cbn in Ha, Hb' |- *.
  all: try (revert Hb'; unfold SetListener, SetVirtualServiceTemplate, SetRoute, SetHTTPFilter, SetAccessLog,
    SetPolicy, SetTracing; match goal with
      | |- context [intern_obj _ ?r] => open_intern r; intros Hb'; by wf_rest Hwf end).
  all: try by wf_rest Hwf.
  - by apply wf_SetVirtualService.
  - by apply wf_DeleteVirtualService.
  - destruct Ha. by apply wf_SetCluster.
  - by apply wf_DeleteCluster.
  - by apply wf_SetSecret.
  - by apply wf_DeleteSecret.
  - by rewrite Copy_id.
Qed.

Lemma wf_history own spec_own ops s :
  Forall (allowed own spec_own) ops → wf own spec_own s → wf own spec_own (foldl exec s ops).
Proof.
  intros Hall. revert s. induction Hall as [|o ops Ho _ IH]; intros s Hwf; cbn; [done|].
  apply IH. by apply wf_exec.
Qed.
End history.


(** ** Initial loading is the same as one update per object *)
Section loading.
Context `{!ProtoMessage Envoy.ClusterV3}.
Context (pem_Decode : string → option (PemBlock * string)).
Context (x509_ParseCertificate : string → result Time).

(** The updates for the loaded objects, in the order of the loading loops. *)
Definition load_ops (agg : resourceResult) : list op :=
  (OSetAccessLog <$> res_accessLogs agg) ++
  (OSetVirtualService <$> (Api.VS_NormalizeSpec <$> res_vs agg)) ++
  (OSetListener <$> res_listeners agg) ++
  (OSetCluster <$> res_clusters agg) ++
  (OSetRoute <$> res_routes agg) ++
  (OSetVirtualServiceTemplate <$> (Api.VST_NormalizeSpec <$> res_vst agg)) ++
  (OSetHTTPFilter <$> res_httpFilters agg) ++
  (OSetPolicy <$> res_policies agg) ++
  (OSetTracing <$> res_tracings agg) ++
  (OSetSecret <$> res_secrets agg).

(** The API server lists a name once per kind. *)
Record distinct_names (agg : resourceResult) : Prop := {
  dn_accessLogs : NoDup (key <$> res_accessLogs agg);
  dn_vs : NoDup (key <$> res_vs agg);
  dn_listeners : NoDup (key <$> res_listeners agg);
  dn_clusters : NoDup (key <$> res_clusters agg);
  dn_routes : NoDup (key <$> res_routes agg);
  dn_vst : NoDup (key <$> res_vst agg);
  dn_httpFilters : NoDup (key <$> res_httpFilters agg);
  dn_policies : NoDup (key <$> res_policies agg);
  dn_tracings : NoDup (key <$> res_tracings agg);
  dn_secrets : NoDup (key <$> res_secrets agg)
}.

(** A loading loop that only touches one index and the pool. *)
Section stage.
Context {R : Type} `{!HasMeta R} `{!SetMeta R}.
Context (getf : OptimizedStore → Index.t R) (setf : Index.t R → OptimizedStore → OptimizedStore).
Hypothesis get_set : ∀ v s sp, getf (set_stringPool sp (setf v s)) = v.
Hypothesis set_set : ∀ v w s sp sp',
  set_stringPool sp (setf v (set_stringPool sp' (setf w s))) = set_stringPool sp (setf v s).
Hypothesis set_get : ∀ s, set_stringPool (stringPool s) (setf (getf s) s) = s.

Definition set_generic (s : OptimizedStore) (r : R) : OptimizedStore :=
  let '(r, u, sp) := intern_obj (stringPool s) r in
  set_stringPool sp (setf (Index.set (getf s) r u) s).

Lemma stage_ok s rs :
  StringPool.pool_ok (stringPool s) → NoDup (key <$> rs) →
  (∀ r, r ∈ rs → Index.items (getf s) !! key r = None) →
  ∃ ix sp, fill_kind getf setf s rs = set_stringPool sp (setf ix s) ∧ StringPool.pool_ok sp ∧
    foldl set_generic s rs = set_stringPool sp (setf ix s).
Proof using get_set set_set set_get.
  intros Hp Hnd Habs.
  assert (∃ ix sp, fill_all (getf s, stringPool s) rs = (ix, sp) ∧ StringPool.pool_ok sp ∧
    foldl set_generic s rs = set_stringPool sp (setf ix s)) as (ix & sp & H1 & H2 & H3).
  2:{ exists ix, sp. unfold fill_kind. by rewrite H1. }
  revert s Hp Hnd Habs. unfold fill_all.
  induction rs as [|r rs IH]; intros s Hp Hnd Habs; cbn [foldl].
  { exists (getf s), (stringPool s). by rewrite set_get. }
  cbn in Hnd. apply NoDup_cons in Hnd as [Hr Hnd].
  destruct (intern_obj_ok (stringPool s) r Hp) as (sp & Hi & Hp').
  assert (set_generic s r = set_stringPool sp (setf (Index.set (getf s) r (uid r)) s)) as Hs
    by (unfold set_generic; by rewrite Hi).
  assert (fill_one (getf s, stringPool s) r = (Index.set (getf s) r (uid r), sp)) as Hf.
  { unfold fill_one. cbn. rewrite Hi. rewrite Index.fill_set; [done|]. apply Habs. by left. }
  rewrite Hs, Hf. destruct (IH (set_stringPool sp (setf (Index.set (getf s) r (uid r)) s)))
    as (ix & sp' & H1 & H2 & H3).
  - done.
  - done.
  - intros r' Hr'. rewrite get_set. cbn. rewrite lookup_insert_ne; [apply Habs; by right|].
    intros He. apply Hr. rewrite He. by apply list_elem_of_fmap_2.
  - rewrite get_set in H1. exists ix, sp'. split_and!; [done..|]. by rewrite H3, set_set.
Qed.
End stage.

Lemma stage_vs s vss :
  StringPool.pool_ok (stringPool s) → NoDup (key <$> vss) →
  (∀ vs, vs ∈ vss → Index.items (virtualServices s) !! key vs = None) →
  ∃ V T sp, StringPool.pool_ok sp ∧
    foldl fill_vs s vss = set_stringPool sp (set_templateToVS T (set_virtualServices V s)) ∧
    foldl SetVirtualService s (Api.VS_NormalizeSpec <$> vss) = foldl fill_vs s vss.
Proof.
  revert s. induction vss as [|vs vss IH]; intros s Hp Hnd Habs.
  { exists (virtualServices s), (templateToVS s), (stringPool s). by destruct s. }
  cbn in Hnd. apply NoDup_cons in Hnd as [Hr Hnd]. rewrite fmap_cons. cbn [foldl].
  destruct (intern_obj_ok (stringPool s) (Api.VS_NormalizeSpec vs) Hp) as (sp & Hi & Hp').
  assert (SetVirtualService s (Api.VS_NormalizeSpec vs) = fill_vs s vs) as ->.
  { unfold SetVirtualService, fill_vs. rewrite Hi. rewrite Index.fill_set.
    - change (key (Api.VS_NormalizeSpec vs)) with (key vs). rewrite (Habs vs); [done|by left].
    - apply (Habs vs). by left. }
  destruct (IH (fill_vs s vs)) as (V & T & sp' & H1 & H2 & H3).
  - unfold fill_vs. by rewrite Hi.
  - done.
  - intros vs' Hvs'. unfold fill_vs. rewrite Hi. cbn. rewrite lookup_insert_ne; [apply Habs; by right|].
    intros He. apply Hr. change (key (Api.VS_NormalizeSpec vs)) with (key vs) in He.
    rewrite He. by apply list_elem_of_fmap_2.
  - exists V, T, sp'. split_and!; [done| |by rewrite H3]. rewrite H2. unfold fill_vs. by rewrite Hi.
Qed.

Lemma stage_clusters s cs :
  StringPool.pool_ok (stringPool s) → NoDup (key <$> cs) →
  (∀ c, c ∈ cs → Index.items (clusters s) !! key c = None) →
  ∃ V T sp, StringPool.pool_ok sp ∧
    foldl fill_cluster s cs = set_stringPool sp (set_specClusters T (set_clusters V s)) ∧
    foldl SetCluster s cs = foldl fill_cluster s cs.
Proof.
  revert s. induction cs as [|c cs IH]; intros s Hp Hnd Habs; cbn [foldl].
  { exists (clusters s), (specClusters s), (stringPool s). by destruct s. }
  cbn in Hnd. apply NoDup_cons in Hnd as [Hr Hnd].
  destruct (intern_obj_ok (stringPool s) c Hp) as (sp & Hi & Hp').
  assert (SetCluster s c = fill_cluster s c) as ->.
  { unfold SetCluster, fill_cluster. rewrite Hi. rewrite Index.fill_set.
    - rewrite (Habs c); [done|by left].
    - apply Habs. by left. }
  destruct (IH (fill_cluster s c)) as (V & T & sp' & H1 & H2 & H3).
  - unfold fill_cluster. by rewrite Hi.
  - done.
  - intros c' Hc'. unfold fill_cluster. rewrite Hi. cbn. rewrite lookup_insert_ne; [apply Habs; by right|].
    intros He. apply Hr. rewrite He. by apply list_elem_of_fmap_2.
  - exists V, T, sp'. split_and!; [done| |by rewrite H3]. rewrite H2. unfold fill_cluster. by rewrite Hi.
Qed.

Let SetSec := SetSecret pem_Decode x509_ParseCertificate.
Let dom_ok := domain_index_ok pem_Decode x509_ParseCertificate.

Lemma stage_secrets s i ses :
  StringPool.pool_ok (stringPool s) → NoDup (key <$> ses) →
  (∀ se, se ∈ ses → secrets s !! key se = None) →
  (∀ k se, secrets s !! k = Some se → key se = k) → dom_ok (secrets s) i →
  ∃ M I sp, foldl fill_secret s ses = set_stringPool sp (set_secrets M s) ∧
    foldl SetSec (set_domainSecretsIndex i s) ses =
      set_domainSecretsIndex I (set_stringPool sp (set_secrets M s)) ∧
    (∀ k se, M !! k = Some se → key se = k) ∧ dom_ok M I.
Proof.
  revert s i. induction ses as [|se ses IH]; intros s i Hp Hnd Habs Hk Hd; cbn [foldl].
  { exists (secrets s), i, (stringPool s). by destruct s. }
  cbn in Hnd. apply NoDup_cons in Hnd as [Hr Hnd].
  destruct (intern_name_ok (stringPool s) se Hp) as [Hi Hp'].
  destruct (intern_name (stringPool s) se) as [se' sp] eqn:Hin; cbn in Hi, Hp'. subst se'.
  assert (secrets s !! key se = None) as Hse by (apply Habs; by left).
  set (i' := addDomainSecretsForSecretWithNotAfter i se
               (notAfter_of pem_Decode x509_ParseCertificate se)).
  assert (fill_secret s se = set_stringPool sp (set_secrets (<[key se := se]> (secrets s)) s)) as Hf
    by (unfold fill_secret; by rewrite Hin).
  assert (SetSec (set_domainSecretsIndex i s) se = set_domainSecretsIndex i' (fill_secret s se)) as ->.
  { rewrite Hf. unfold SetSec, SetSecret. cbn -[secret_domains]. rewrite Hin, Hse. done. }
  destruct (IH (fill_secret s se) i') as (M & I & sp' & H1 & H2 & H3 & H4).
  - by rewrite Hf.
  - done.
  - intros se' Hse'. rewrite Hf. cbn. rewrite lookup_insert_ne; [apply Habs; by right|].
    intros He. apply Hr. rewrite He. by apply list_elem_of_fmap_2.
  - rewrite Hf. cbn. intros k se'. rewrite lookup_insert_Some.
    intros [[<- <-]|[_ H]]; [done|]. by apply Hk.
  - rewrite Hf. cbn. by apply domain_index_add.
  - exists M, I, sp'. rewrite H1, H2, Hf. by split_and!.
Qed.

Lemma foldl_exec_fmap {A} (f : A → op) s l :
  foldl (exec pem_Decode x509_ParseCertificate) s (f <$> l) =
  foldl (λ s x, exec pem_Decode x509_ParseCertificate s (f x)) s l.
Proof. revert s. induction l as [|x l IH]; intros s; [done|]. rewrite fmap_cons. cbn. by rewrite IH. Qed.

(** Runs one loading loop of [fill_store] next to the corresponding updates. *)
Ltac run_stage getf setf rs Hp Hnd :=
  match goal with
  | |- context [fill_kind getf setf ?s rs] =>
      let ix := fresh "ix" in let sp' := fresh "sp" in
      let H1 := fresh in let H2 := fresh in let H3 := fresh in
      destruct (stage_ok getf setf (λ _ _ _, eq_refl) (λ _ _ _ _ _, eq_refl)
        ltac:(intros [];reflexivity) s rs Hp Hnd) as (ix & sp' & H1 & H2 & H3);
      [intros; apply lookup_empty|];
      rewrite H1; clear H1;
      match goal with
      | |- context [foldl ?F s rs] =>
          change (foldl F s rs) with (foldl (set_generic getf setf) s rs); rewrite H3
      end; clear H3 Hp; rename H2 into Hp
  end.

Lemma fill_store_ops agg :
  distinct_names agg →
  fill_store pem_Decode x509_ParseCertificate NewOptimizedStore agg =
  foldl (exec pem_Decode x509_ParseCertificate) NewOptimizedStore (load_ops agg).
Proof.
  intros [Ha Hv Hl Hc Hr Ht Hh Hpo Htr Hs]. unfold load_ops, fill_store.
  rewrite !foldl_app, !foldl_exec_fmap.
  assert (StringPool.pool_ok (stringPool NewOptimizedStore)) as Hp.
  { intros ? ?. cbn. by rewrite lookup_empty. }
  change (λ s x, exec pem_Decode x509_ParseCertificate s (OSetVirtualService x))
    with SetVirtualService.
  change (λ s x, exec pem_Decode x509_ParseCertificate s (OSetCluster x)) with SetCluster.
  change (λ s x, exec pem_Decode x509_ParseCertificate s (OSetSecret x)) with SetSec.
  run_stage accessLogs set_accessLogs (res_accessLogs agg) Hp Ha.
  match goal with |- context [foldl fill_vs ?s _] =>
    destruct (stage_vs s (res_vs agg) Hp Hv) as (V & T & sp1 & Hp1 & E1 & E2);
      [intros; apply lookup_empty|] end.
  rewrite E2, E1. clear E1 E2 Hp.
  run_stage listeners set_listeners (res_listeners agg) Hp1 Hl.
  match goal with |- context [foldl fill_cluster ?s _] =>
    destruct (stage_clusters s (res_clusters agg) Hp1 Hc) as (C & SC & sp2 & Hp2 & E1 & E2);
      [intros; apply lookup_empty|] end.
  rewrite E2, E1. clear E1 E2 Hp1.
  run_stage routes set_routes (res_routes agg) Hp2 Hr.
  assert (NoDup (key <$> (Api.VST_NormalizeSpec <$> res_vst agg))) as Ht'
    by (by rewrite <-list_fmap_compose).
  run_stage virtualServiceTemplates set_virtualServiceTemplates
    (Api.VST_NormalizeSpec <$> res_vst agg) Hp2 Ht'.
  run_stage httpFilters set_httpFilters (res_httpFilters agg) Hp2 Hh.
  run_stage policies set_policies (res_policies agg) Hp2 Hpo.
  run_stage tracings set_tracings (res_tracings agg) Hp2 Htr.
  match goal with |- context [foldl fill_secret ?s _] =>
    destruct (stage_secrets s NewDomainSecretsIndex (res_secrets agg) Hp2 Hs)
      as (M & I & spz & E1 & E2 & Hk & Hd);
      [intros; apply lookup_empty|intros ? ?; cbn; by rewrite lookup_empty
      |apply domain_index_empty|] end.
  rewrite E1. unfold updateDomainSecretsMap.
  etransitivity; [|symmetry; exact E2]. f_equal.
  eapply domain_index_unique; [|exact Hd]. by apply domain_index_rebuild.
Qed.

(** Loading the lists from the API server into an empty store gives exactly
    the store that one [Set] call per listed object gives (indices, string pool
    and rebuilt domain index included), provided a list names no object twice. *)
Theorem fill_store_as_updates agg :
  distinct_names agg →
  fill_store pem_Decode x509_ParseCertificate NewOptimizedStore agg =
  foldl (exec pem_Decode x509_ParseCertificate) NewOptimizedStore (load_ops agg).
Proof using Type. apply fill_store_ops. Qed.
End loading.

(** ** Theorems on the store *)
Section theorems.
Context `{!ProtoMessage Envoy.ClusterV3}.
Context (pem_Decode : string → option (PemBlock * string)).
Context (x509_ParseCertificate : string → result Time).
Local Abbreviation run := (foldl (exec pem_Decode x509_ParseCertificate) NewOptimizedStore).

(** ** What a history leaves behind

    An operation writes an object under its name, removes it, or leaves the kind alone;
    the last one counts. *)
Abbreviation write R := (option (NN * option R))%type.
Definition apply_write {R} (w : write R) (n : NN) (cur : option R) : option R :=
  match w with Some (n', v) => if decide (n' = n) then v else cur | None => cur end.
Definition latest {R} (writes : op → write R) (ops : list op) (n : NN) : option R :=
  foldl (λ cur o, apply_write (writes o) n cur) None ops.
Definition writes_virtual_services (o : op) : write VirtualService :=
  match o with OSetVirtualService r => Some (key r, Some r) | ODeleteVirtualService n => Some (n, None) | _ => None end.
Definition writes_listeners (o : op) : write Listener :=
  match o with OSetListener r => Some (key r, Some r) | ODeleteListener n => Some (n, None) | _ => None end.
Definition writes_clusters (o : op) : write Cluster :=
  match o with OSetCluster r => Some (key r, Some r) | ODeleteCluster n => Some (n, None) | _ => None end.
Definition writes_templates (o : op) : write VirtualServiceTemplate :=
  match o with OSetVirtualServiceTemplate r => Some (key r, Some r) | ODeleteVirtualServiceTemplate n => Some (n, None) | _ => None end.
Definition writes_routes (o : op) : write Route :=
  match o with OSetRoute r => Some (key r, Some r) | ODeleteRoute n => Some (n, None) | _ => None end.
Definition writes_http_filters (o : op) : write HttpFilter :=
  match o with OSetHTTPFilter r => Some (key r, Some r) | ODeleteHTTPFilter n => Some (n, None) | _ => None end.
Definition writes_access_logs (o : op) : write AccessLogConfig :=
  match o with OSetAccessLog r => Some (key r, Some r) | ODeleteAccessLog n => Some (n, None) | _ => None end.
Definition writes_policies (o : op) : write Policy :=
  match o with OSetPolicy r => Some (key r, Some r) | ODeletePolicy n => Some (n, None) | _ => None end.
Definition writes_tracings (o : op) : write Tracing :=
  match o with OSetTracing r => Some (key r, Some r) | ODeleteTracing n => Some (n, None) | _ => None end.
Definition writes_secrets (o : op) : write Secret :=
  match o with OSetSecret r => Some (key r, Some r) | ODeleteSecret n => Some (n, None) | _ => None end.

Lemma latest_run {R} (get : OptimizedStore → NN → option R) (writes : op → write R) ops n :
  (∀ s o, StringPool.pool_ok (stringPool s) → get (exec pem_Decode x509_ParseCertificate s o) n = apply_write (writes o) n (get s n)) →
  get NewOptimizedStore n = None → get (run ops) n = latest writes ops n.
Proof using Type.
  intros Hex Hnew. unfold latest. induction ops as [|o ops IH] using rev_ind; [done|].
  rewrite !foldl_app. cbn [foldl]. rewrite Hex, IH; [done|].
  apply (base_history pem_Decode x509_ParseCertificate ops NewOptimizedStore (base_new _ _)).
Qed.
Lemma index_set_items {R} `{!HasMeta R} (ix : Index.t R) r u n :
  Index.items (Index.set ix r u) !! n = apply_write (Some (key r, Some r)) n (Index.items ix !! n).
Proof using Type. cbn. by rewrite lookup_insert. Qed.
Lemma index_del_items {R} `{!HasMeta R} (ix : Index.t R) n' n :
  Index.items (Index.del ix n') !! n = apply_write (Some (n', None)) n (Index.items ix !! n).
Proof using Type.
  unfold Index.del. cbn. destruct (Index.items ix !! n') as [r|] eqn:Hr; cbn; [by rewrite lookup_delete|].
  case_decide; [by subst|done].
Qed.
Ltac written :=
  intros; apply latest_run; [|done];
  let s := fresh "s" in let o := fresh "o" in let Hp := fresh "Hp" in
  intros s o Hp; destruct o as [r|?|r|?|r|?|r|?|r|?|r|?|r|?|r|?|r|?|r|?|?|?|]; cbn [exec apply_write]; try reflexivity;
  unfold SetVirtualService, SetListener, SetCluster, SetVirtualServiceTemplate, SetRoute, SetHTTPFilter, SetAccessLog,
    SetPolicy, SetTracing, SetSecret;
  lazymatch goal with
  | |- context [intern_obj ?sp ?r] => destruct (intern_obj_ok sp r Hp) as (? & -> & ?)
  | |- context [intern_name ?sp ?r] =>
      let Hr := fresh in destruct (intern_name_ok sp r Hp) as [Hr ?]; destruct (intern_name sp r); cbn in Hr; subst
  | _ => unfold DeleteVirtualService, DeleteCluster, DeleteSecret
  end;
  first [reflexivity|exact (index_set_items _ _ _ _)|exact (index_del_items _ _ _)|solve [unfold GetSecret; cbn; by rewrite lookup_insert]
    |match goal with |- context [match ?m !! ?k with _ => _ end] => destruct (m !! k) eqn:? end;
     first [reflexivity|solve [cbn; case_decide; [by subst|done]]|exact (index_del_items _ _ _)|solve [unfold GetSecret; cbn; by rewrite lookup_delete]]
    |exact (f_equal (lookup _) (copy_map_id _))].
Lemma held_virtual_services ops n : GetVirtualService (run ops) n = latest writes_virtual_services ops n.
Proof using Type. written. Qed.
Lemma held_listeners ops n : GetListener (run ops) n = latest writes_listeners ops n.
Proof using Type. written. Qed.
Lemma held_clusters ops n : GetCluster (run ops) n = latest writes_clusters ops n.
Proof using Type. written. Qed.
Lemma held_templates ops n : GetVirtualServiceTemplate (run ops) n = latest writes_templates ops n.
Proof using Type. written. Qed.
Lemma held_routes ops n : GetRoute (run ops) n = latest writes_routes ops n.
Proof using Type. written. Qed.
Lemma held_http_filters ops n : GetHTTPFilter (run ops) n = latest writes_http_filters ops n.
Proof using Type. written. Qed.
Lemma held_access_logs ops n : GetAccessLog (run ops) n = latest writes_access_logs ops n.
Proof using Type. written. Qed.
Lemma held_policies ops n : GetPolicy (run ops) n = latest writes_policies ops n.
Proof using Type. written. Qed.
Lemma held_tracings ops n : GetTracing (run ops) n = latest writes_tracings ops n.
Proof using Type. written. Qed.
Lemma held_secrets ops n : GetSecret (run ops) n = latest writes_secrets ops n.
Proof using Type. written. Qed.

Lemma templateKey_spec vs t : templateKey vs = Some t ↔
  ∃ ref, Template (vs_spec vs) = Some ref ∧ Helpers.Name t = refName ref ∧
    Helpers.Namespace t = match refNamespace ref with Some ns => ns | None => Namespace (meta vs) end.
Proof using Type.
  unfold templateKey. destruct (Template (vs_spec vs)) as [ref|]; [|split; [done|by intros (? & ? & _)]].
  split; [intros [= <-]; by exists ref; destruct (refNamespace ref)|].
  intros (ref' & [= <-] & Hn & Hs). destruct t as [ns n]. cbn in Hn, Hs. subst. by destruct (refNamespace ref).
Qed.
Lemma spec_name_spec c n : spec_name c = Some n ↔ ∃ v3, Api.Cluster_UnmarshalV3 c = Ok v3 ∧ Envoy.cName v3 = n.
Proof using Type. unfold spec_name. destruct (Api.Cluster_UnmarshalV3 c) as [v|]; split; [intros [= <-]; by exists v|by intros (? & [= <-] & <-)|done|by intros (? & ? & _)]. Qed.

(** C23. The store over any history of updates, deletions and copies.  Under every name it
    holds the object that the last operation on that name stored, for all ten kinds.
    If moreover every UID is only ever used by objects of one name and every Envoy cluster name
    only ever defined by clusters of one name, every secondary lookup agrees with the stored
    objects: looking up by UID gives exactly the stored object with that UID, for all seven kinds
    with such a lookup; the services listed for a template are, each once, exactly the stored
    services that refer to it, in their own namespace where the reference has none; and the lookup
    by Envoy name finds exactly the stored cluster that defines it. *)
Theorem lookups_consistent ops :
  let s := run ops in
  ((∀ n, GetVirtualService s n = latest writes_virtual_services ops n) ∧
   (∀ n, GetListener s n = latest writes_listeners ops n) ∧
   (∀ n, GetCluster s n = latest writes_clusters ops n) ∧
   (∀ n, GetVirtualServiceTemplate s n = latest writes_templates ops n) ∧
   (∀ n, GetRoute s n = latest writes_routes ops n) ∧
   (∀ n, GetHTTPFilter s n = latest writes_http_filters ops n) ∧
   (∀ n, GetAccessLog s n = latest writes_access_logs ops n) ∧
   (∀ n, GetPolicy s n = latest writes_policies ops n) ∧
   (∀ n, GetTracing s n = latest writes_tracings ops n) ∧
   (∀ n, GetSecret s n = latest writes_secrets ops n)) ∧
  ((∃ own spec_own, Forall (allowed own spec_own) ops) →
  ((∀ u r, GetVirtualServiceByUID s u = Some r ↔ GetVirtualService s (key r) = Some r ∧ uid r = u) ∧
   (∀ u r, GetListenerByUID s u = Some r ↔ GetListener s (key r) = Some r ∧ uid r = u) ∧
   (∀ u r, GetClusterByUID s u = Some r ↔ GetCluster s (key r) = Some r ∧ uid r = u) ∧
   (∀ u r, GetVirtualServiceTemplateByUID s u = Some r ↔
      GetVirtualServiceTemplate s (key r) = Some r ∧ uid r = u) ∧
   (∀ u r, GetRouteByUID s u = Some r ↔ GetRoute s (key r) = Some r ∧ uid r = u) ∧
   (∀ u r, GetHTTPFilterByUID s u = Some r ↔ GetHTTPFilter s (key r) = Some r ∧ uid r = u) ∧
   (∀ u r, GetAccessLogByUID s u = Some r ↔ GetAccessLog s (key r) = Some r ∧ uid r = u)) ∧
  (∀ t, NoDup (GetVirtualServicesByTemplate s t) ∧
     ∀ vs, vs ∈ GetVirtualServicesByTemplate s t ↔
       GetVirtualService s (key vs) = Some vs ∧
       ∃ ref, Template (vs_spec vs) = Some ref ∧ Helpers.Name t = refName ref ∧
         Helpers.Namespace t = match refNamespace ref with Some ns => ns | None => Namespace (meta vs) end) ∧
  (∀ n c, GetSpecCluster s n = Some c ↔ GetCluster s (key c) = Some c ∧
     ∃ v3, Api.Cluster_UnmarshalV3 c = Ok v3 ∧ Envoy.cName v3 = n)).
Proof using Type.
  intros s. split.
  { split_and!; [apply held_virtual_services|apply held_listeners|apply held_clusters|apply held_templates|apply held_routes
      |apply held_http_filters|apply held_access_logs|apply held_policies|apply held_tracings|apply held_secrets]. }
  intros (own & spec_own & Hall). destruct (wf_history pem_Decode x509_ParseCertificate own spec_own ops
    NewOptimizedStore Hall (wf_new _ _ _ _)). split; [split_and!; by eapply Index.wf_uid|]. split.
  - intros t. destruct (wf_templates0 t) as [Hnd Hin]. split; [by eapply NoDup_fmap_1|]. intros vs.
    rewrite <-templateKey_spec. exact (Hin vs).
  - intros n c. rewrite <-spec_name_spec. apply wf_spec0.
Qed.

(** C12. The domain index maintained by [SetSecret] and [DeleteSecret] is, after
    any history, the index a full rebuild from the stored secrets gives, in
    whatever order the rebuild ranges over them. *)
Theorem domain_index_incremental ops order :
  let s := run ops in
  order ≡ₚ (map_to_list (secrets s)).*2 →
  domainSecretsIndex s = rebuild_index pem_Decode x509_ParseCertificate order.
Proof using Type.
  intros s Hp. destruct (base_history pem_Decode x509_ParseCertificate ops NewOptimizedStore
    (base_new _ _)) as [_ Hk Hd].
  eapply domain_index_unique; [exact Hd|]. by apply domain_index_rebuild.
Qed.

(** Two clusters that define the same Envoy cluster share one index entry:
    deleting the one set last leaves the other stored but no longer found by its
    Envoy cluster name. *)
Theorem shared_spec_name_lost c1 c2 n :
  key c1 ≠ key c2 → spec_name c1 = Some n → spec_name c2 = Some n →
  let s := run [OSetCluster c1; OSetCluster c2; ODeleteCluster (key c2)] in
  GetCluster s (key c1) = Some c1 ∧ GetSpecCluster s n = None.
Proof using Type.
  intros Hne H1 H2 s.
  assert (∀ s c, StringPool.pool_ok (stringPool s) → ∃ sp spec, StringPool.pool_ok sp ∧
    SetCluster s c = set_stringPool sp (set_specClusters spec
      (set_clusters (Index.set (clusters s) c (uid c)) s))) as Hset.
  { intros s0 c Hp. unfold SetCluster.
    destruct (intern_obj_ok (stringPool s0) c Hp) as (sp & -> & Hp'). by do 2 eexists. }
  subst s. cbn [foldl exec].
  destruct (Hset NewOptimizedStore c1) as (sp & spec & Hp & ->).
  { intros ? ?. cbn. by rewrite lookup_empty. }
  match goal with |- context [SetCluster ?s c2] =>
    destruct (Hset s c2 Hp) as (sp' & spec' & _ & ->) end.
  unfold GetCluster, GetSpecCluster, DeleteCluster. cbn.
  rewrite lookup_insert_eq. cbn. rewrite drop_spec_alt, H2, lookup_delete_eq.
  split; [|done]. unfold Index.del. cbn. rewrite lookup_insert_eq. cbn.
  rewrite lookup_delete_ne, lookup_insert_ne by done. by rewrite lookup_insert_eq.
Qed.

(** [FillFromKubernetes] either loads every kind or leaves the store as it
    was: if a loader fails, its store is unchanged and the error is that of a
    failing loader; without a failure there is no error. *)
Theorem FillFromKubernetes_all_or_nothing first s cl :
  (∀ l, l ≠ [] → first l ∈ l) →
  let '(s', err) := FillFromKubernetes pem_Decode x509_ParseCertificate first s (Some cl) in
  match err with
  | Some e => s' = s ∧ e ∈ load_errors cl
  | None => load_errors cl = [] ∧ ∃ agg, s' = fill_store pem_Decode x509_ParseCertificate s agg ∧
      list_vs cl = Ok (res_vs agg) ∧ list_secrets cl = Ok (res_secrets agg) ∧
      list_clusters cl = Ok (res_clusters agg) ∧ list_listeners cl = Ok (res_listeners agg)
  end.
Proof using Type.
  intros Hfirst. unfold FillFromKubernetes, loadResourcesConcurrently.
  destruct cl as [[] [] [] [] [] [] [] [] [] []]; cbn.
  1: { split; [done|]. by eexists. }
  all: split; [done|]; apply Hfirst; discriminate.
Qed.

End theorems.

(** The wildcard fallback: a valid exact secret is taken; otherwise a valid
    wildcard secret; otherwise the exact one if there is one, and else the
    wildcard's.  So a valid secret is returned whenever either lookup has one,
    and something is returned whenever either lookup finds something. *)
Theorem wildcard_fallback_choice now s domain ns :
  let '(e, ev) := GetBestSecretWithValidity (domainSecretsIndex s) domain ns (secrets s) now in
  let '(w, wv) :=
    if decide (ResUtils.GetWildcardDomain domain = "") then (None, validityNotFound)
    else GetBestSecretWithValidity (domainSecretsIndex s) (ResUtils.GetWildcardDomain domain) ns
           (secrets s) now in
  let r := GetDomainSecretWithWildcardFallbackInfo now s domain ns in
  (e ≠ None → ev = validityValid → lSecret r = e ∧ UsedWildcard r = false) ∧
  (w ≠ None → (e = None ∨ ev ≠ validityValid ∧ wv = validityValid) →
     lSecret r = w ∧ UsedWildcard r = true) ∧
  (e ≠ None → ev ≠ validityValid → (w = None ∨ wv ≠ validityValid) →
     lSecret r = e ∧ UsedWildcard r = false) ∧
  (lSecret r = None ↔ e = None ∧ w = None) ∧
  (UsedWildcard r = true → FallbackReason r = "" ↔ e = None).
Proof.
  unfold GetDomainSecretWithWildcardFallbackInfo.
  destruct (GetBestSecretWithValidity (domainSecretsIndex s) domain ns (secrets s) now) as [e ev].
  destruct (decide (ResUtils.GetWildcardDomain domain = "")) as [Hw|Hw].
  - destruct (decide (e ≠ None ∧ ev = validityValid)) as [[]|]; cbn; [naive_solver|].
    split_and!; [naive_solver|naive_solver|done|naive_solver|done].
  - destruct (GetBestSecretWithValidity (domainSecretsIndex s) (ResUtils.GetWildcardDomain domain)
      ns (secrets s) now) as [w wv].
    destruct (decide (e ≠ None ∧ ev = validityValid)) as [[]|Hne]; cbn.
    { split_and!; naive_solver. }
    destruct e as [e|]; cbn.
    + destruct (decide (w ≠ None ∧ wv = validityValid)) as [[? ->]|]; cbn; split_and!; try naive_solver.
      intros _. split; [|done]. destruct ev; cbn; try done.
    + split_and!; try naive_solver. intros Hn _. split; [done|]. by apply bool_decide_eq_true.
Qed.

(** ** Concrete histories *)
Module Examples.
Definition proto : ProtoMessage Envoy.ClusterV3 :=
  {| pb_unmarshal s := if decide (s = "") then Err (ErrNew "syntax error") else Ok (Envoy.mkCV3 s "");
     pb_validate _ := None |}.
Local Existing Instance proto.
Definition pem (s : string) : option (PemBlock * string) := None.
Definition x509 (s : string) : result Time := Err (ErrNew "malformed").
Definition m (ns name uid : string) (a : option (gmap string string)) : ObjectMeta :=
  mkMeta name ns uid 1 a None.
Definition vs (name uid : string) (t : option ResourceRef) : VirtualService :=
  mkVS (m "ns" name uid None) (mkVSSpec empty_common t [] ∅) (mkVSObjStatus "" false).
Definition cluster (name uid spec : string) : Cluster :=
  mkCluster (m "ns" name uid None) (Some (mkRaw (Some spec) None)).
Definition secret (ns name domains : string) : Secret :=
  mkSecret (m ns name "" (Some {[ Api.AnnotationSecretDomains := domains ]})) None.

Definition own (u : string) : NN :=
  Helpers.mkNN "ns" (if decide (u = "u1") then "a" else if decide (u = "u2") then "b" else "c").
Definition spec_own (n : string) : NN :=
  Helpers.mkNN "ns" (if decide (n = "up") then "c" else "d").

Definition ops : list op :=
  [OSetVirtualService (vs "a" "u1" (Some (mkRef "t" None)));
   OSetVirtualService (vs "b" "u2" (Some (mkRef "t" (Some "ns"))));
   OSetVirtualService (vs "a" "u1" (Some (mkRef "t2" None)));
   OSetCluster (cluster "c" "u3" "up"); OCopy; ODeleteVirtualService (Helpers.mkNN "ns" "z");
   OSetSecret (secret "ns" "s1" "a.io, b.io"); OSetSecret (secret "ns" "s1" "b.io");
   OSetSecret (secret "ns2" "s2" "b.io")].
Abbreviation final := (foldl (exec pem x509) NewOptimizedStore ops).

Lemma ops_allowed : Forall (allowed own spec_own) ops.
Proof.
  unfold ops. repeat (apply Forall_cons; split; [|]); [..|apply Forall_nil_2]; cbn; try exact I;
    try (vm_compute; reflexivity).
  split; [vm_compute; reflexivity|]. intros n Hn. vm_compute in Hn. injection Hn as <-.
  vm_compute; reflexivity.
Qed.
End Examples.
#[local] Existing Instance Examples.proto.

Lemma lookups_consistent_witness :
  GetVirtualServiceByUID Examples.final "u2" =
    Some (Examples.vs "b" "u2" (Some (mkRef "t" (Some "ns")))) ∧
  Examples.vs "a" "u1" (Some (mkRef "t2" None)) ∈
    GetVirtualServicesByTemplate Examples.final (Helpers.mkNN "ns" "t2") ∧
  GetSpecCluster Examples.final "up" = Some (Examples.cluster "c" "u3" "up").
Proof.
  destruct (proj2 (lookups_consistent Examples.pem Examples.x509 Examples.ops)
    (ex_intro _ Examples.own (ex_intro _ Examples.spec_own Examples.ops_allowed))) as ((Hu & _) & Ht & Hc).
  split; [apply Hu; vm_compute; split; reflexivity|]. split.
  - apply Ht. split; [vm_compute; reflexivity|]. exists (mkRef "t2" None). vm_compute. by split_and!.
  - apply Hc. split; [vm_compute; reflexivity|]. eexists. split; vm_compute; reflexivity.
Defined.

Lemma domain_index_incremental_witness :
  domainSecretsIndex Examples.final =
  rebuild_index Examples.pem Examples.x509
    [Examples.secret "ns2" "s2" "b.io"; Examples.secret "ns" "s1" "b.io"].
Proof.
  apply (domain_index_incremental Examples.pem Examples.x509 Examples.ops).
  vm_compute. apply Permutation_swap || reflexivity.
Defined.

Lemma shared_spec_name_lost_witness :
  GetSpecCluster (foldl (exec Examples.pem Examples.x509) NewOptimizedStore
    [OSetCluster (Examples.cluster "c" "u3" "up"); OSetCluster (Examples.cluster "d" "u4" "up");
     ODeleteCluster (Helpers.mkNN "ns" "d")]) "up" = None.
Proof.
  apply (shared_spec_name_lost Examples.pem Examples.x509 (Examples.cluster "c" "u3" "up")
    (Examples.cluster "d" "u4" "up")); vm_compute; [discriminate|reflexivity|reflexivity].
Defined.

Definition ex_agg : resourceResult :=
  mkRes [] [Examples.cluster "c" "u3" "up"] [] []
    [Examples.vs "a" "u1" (Some (mkRef "t" None)); Examples.vs "b" "u2" None] [] [] [] []
    [Examples.secret "ns" "s1" "a.io,b.io"].

Lemma fill_store_as_updates_witness :
  fill_store Examples.pem Examples.x509 NewOptimizedStore ex_agg =
  foldl (exec Examples.pem Examples.x509) NewOptimizedStore (load_ops ex_agg).
Proof.
  apply (fill_store_as_updates Examples.pem Examples.x509 ex_agg).
  constructor; apply (bool_decide_unpack _); vm_compute; exact I.
Defined.

Definition ex_client : Client :=
  mkClient (Ok []) (Ok []) (Err (ErrNew "timeout")) (Ok []) (Ok []) (Ok []) (Ok []) (Ok []) (Ok [])
    (Err (ErrNew "forbidden")).

Lemma FillFromKubernetes_all_or_nothing_witness :
  (FillFromKubernetes Examples.pem Examples.x509 (λ l, default (ErrNew "") (head l))
    NewOptimizedStore (Some ex_client)).2 = Some (ErrWrap "loading Clusters" (ErrNew "timeout")) ∧
  ErrWrap "loading Clusters" (ErrNew "timeout") ∈ load_errors ex_client.
Proof.
  split; [reflexivity|].
  refine (proj2 (FillFromKubernetes_all_or_nothing Examples.pem Examples.x509
    (λ l, default (ErrNew "") (head l)) NewOptimizedStore ex_client _)).
  intros [|e l] Hl; [destruct (Hl eq_refl)|left].
Defined.

End Store.
