(* ===== verification/Lru.v ===== *)
(** * [internal/xds/resbuilder/utils/lru.go]: the LRU cache with a time to live

    The cache is a doubly linked list ([container/list]) of items, most recently
    used first, and a map from keys to list elements.  The model keeps both: an
    element is a number, [elems] holds the item each element points to, [ll] is
    the list from front to back.  [Spec] is the abstract cache, an ordered list
    of items; the theorems show that the pair of list and map behaves like it.
    [time.Now()] and [time.Since] take the instant of the call as an argument.
    [clusters/lru_cache.go] and [filters/lru_cache.go] are instances. *)

From S2P Require Import Prelude GoStrings Types.

Module Lru.

(** An instant or a duration in nanoseconds. *)
Abbreviation Time := Z.

Record LRUCacheItem (V : Type) := mkItem { Key : string; Value : V; Timestamp : Time }.
Arguments mkItem {V} Key Value Timestamp.
Arguments Key {V} _.
Arguments Value {V} _.
Arguments Timestamp {V} _.

Record LRUCache (V : Type) := mkLRU {
  capacity : Z;
  ttl : Time;
  ll : list nat;
  elems : gmap nat (LRUCacheItem V);
  cache : gmap string nat;
  next : nat
}.
Arguments mkLRU {V} capacity ttl ll elems cache next.
Arguments capacity {V} _.
Arguments ttl {V} _.
Arguments ll {V} _.
Arguments elems {V} _.
Arguments cache {V} _.
Arguments next {V} _.

Section ops.
Context {V : Type}.
Implicit Types (c : LRUCache V) (k : string) (v : V) (now : Time).

Definition NewTypedLRUCache (capacity : Z) (ttl : Time) : LRUCache V :=
  mkLRU capacity ttl [] ∅ ∅ 0.

(** *** [container/list] *)
Definition list_Remove c (e : nat) : LRUCache V :=
  mkLRU (capacity c) (ttl c) (filter (.≠ e) (ll c)) (delete e (elems c)) (cache c) (next c).
Definition list_MoveToFront c (e : nat) : LRUCache V :=
  mkLRU (capacity c) (ttl c) (e :: filter (.≠ e) (ll c)) (elems c) (cache c) (next c).
Definition list_PushFront c (item : LRUCacheItem V) : nat * LRUCache V :=
  (next c, mkLRU (capacity c) (ttl c) (next c :: ll c) (<[next c := item]> (elems c)) (cache c)
             (S (next c))).
(** [element.Value = item] *)
Definition set_elem c (e : nat) (item : LRUCacheItem V) : LRUCache V :=
  mkLRU (capacity c) (ttl c) (ll c) (<[e := item]> (elems c)) (cache c) (next c).
Definition set_cache c (m : gmap string nat) : LRUCache V :=
  mkLRU (capacity c) (ttl c) (ll c) (elems c) m (next c).

(** *** The methods *)
Definition expired c now (item : LRUCacheItem V) : bool :=
  bool_decide (now - Timestamp item > ttl c)%Z.

Definition Get c now k : option V * LRUCache V :=
  match cache c !! k with
  | None => (None, c)
  | Some element =>
      match elems c !! element with
      | None => (None, c)
      | Some item =>
          if bool_decide (0 < ttl c)%Z && expired c now item then
            let c := list_Remove c element in
            (None, set_cache c (delete k (cache c)))
          else (Some (Value item), list_MoveToFront c element)
      end
  end.

Definition evictOldest c : LRUCache V :=
  match last (ll c) with
  | None => c
  | Some oldest =>
      match elems c !! oldest with
      | None => c
      | Some item => list_Remove (set_cache c (delete (Key item) (cache c))) oldest
      end
  end.

Definition Set_ c now k v : LRUCache V :=
  match cache c !! k with
  | Some element =>
      match elems c !! element with
      | None => c
      | Some item => set_elem (list_MoveToFront c element) element (mkItem (Key item) v now)
      end
  | None =>
      let c := if bool_decide (capacity c ≤ Z.of_nat (length (ll c)))%Z then evictOldest c else c in
      let '(element, c) := list_PushFront c (mkItem k v now) in
      set_cache c (<[k := element]> (cache c))
  end.

Definition Remove c k : LRUCache V :=
  match cache c !! k with
  | Some element =>
      let c := list_Remove c element in set_cache c (delete k (cache c))
  | None => c
  end.

Definition Clear c : LRUCache V := mkLRU (capacity c) (ttl c) [] ∅ ∅ (next c).
Definition Len c : nat := length (ll c).

(** The body of the loop of [RemoveExpired], from the back to the front. *)
Definition remove_expired_step now (st : LRUCache V * nat) (e : nat) : LRUCache V * nat :=
  let '(c, removed) := st in
  match elems c !! e with
  | None => (c, removed)
  | Some item =>
      if expired c now item then
        let c := list_Remove c e in
        (set_cache c (delete (Key item) (cache c)), S removed)
      else (c, removed)
  end.
Definition RemoveExpired c now : nat * LRUCache V :=
  if bool_decide (ttl c ≤ 0)%Z then (0, c)
  else let '(c, removed) := foldl (remove_expired_step now) (c, 0) (reverse (ll c)) in (removed, c).
End ops.

(** ** The abstract cache *)
Module Spec.
Section spec.
Context {V : Type}.
Implicit Types (s : list (LRUCacheItem V)) (k : string) (v : V) (now : Time).

(** Items in the order of last use; [find] is the item of a key. *)
Definition find s k : option (LRUCacheItem V) := head (filter (λ i, Key i = k) s).
Definition remove s k : list (LRUCacheItem V) := filter (λ i, Key i ≠ k) s.

Definition Get (ttl : Time) s now k : option V * list (LRUCacheItem V) :=
  match find s k with
  | None => (None, s)
  | Some item =>
      if decide (0 < ttl ∧ now - Timestamp item > ttl)%Z then (None, remove s k)
      else (Some (Value item), item :: remove s k)
  end.
Definition Set_ (capacity : Z) s now k v : list (LRUCacheItem V) :=
  match find s k with
  | Some _ => mkItem k v now :: remove s k
  | None =>
      mkItem k v now ::
      (if decide (capacity ≤ Z.of_nat (length s))%Z then removelast s else s)
  end.
Definition RemoveExpired (ttl : Time) s now : nat * list (LRUCacheItem V) :=
  if decide (ttl ≤ 0)%Z then (0, s)
  else (length (filter (λ i, now - Timestamp i > ttl)%Z s), filter (λ i, ¬ (now - Timestamp i > ttl))%Z s).
End spec.
End Spec.

(** ** The invariant of the list and the map *)
Section invariant.
Context {V : Type}.
Implicit Types (c : LRUCache V) (k : string) (v : V) (now : Time).

Record ok c : Prop := {
  ok_nodup : NoDup (ll c);
  ok_elems e : is_Some (elems c !! e) ↔ e ∈ ll c;
  ok_fresh e : e ∈ ll c → e < next c;
  ok_cache k e : cache c !! k = Some e ↔ ∃ i, elems c !! e = Some i ∧ Key i = k
}.

(** The items from the front to the back. *)
Definition abs c : list (LRUCacheItem V) := omap (elems c !!.) (ll c).

Lemma ok_keys c e1 e2 i1 i2 :
  ok c → elems c !! e1 = Some i1 → elems c !! e2 = Some i2 → Key i1 = Key i2 → e1 = e2.
Proof.
  intros Hok H1 H2 Hk. assert (cache c !! Key i1 = Some e1) as E1 by (apply ok_cache; eauto).
  assert (cache c !! Key i1 = Some e2) as E2 by (apply ok_cache; eauto). congruence.
Qed.

Lemma ok_item c e : ok c → e ∈ ll c → ∃ i, elems c !! e = Some i.
Proof. intros Hok He. by apply ok_elems in He as [i Hi]; [eauto|]. Qed.

(** The items of a part of the list. *)
Lemma omap_delete (m : gmap nat (LRUCacheItem V)) e (l : list nat) :
  omap (delete e m !!.) (filter (.≠ e) l) = omap (m !!.) (filter (.≠ e) l).
Proof.
  induction l as [|x l IH]; [done|]. destruct (decide (x = e)) as [->|Hne].
  - rewrite filter_cons_False by tauto. done.
  - rewrite filter_cons_True by done. cbn. rewrite lookup_delete_ne by done. by rewrite IH.
Qed.

Lemma abs_remove_part c e i (l : list nat) :
  ok c → elems c !! e = Some i → (∀ x, x ∈ l → x ∈ ll c) →
  omap (elems c !!.) (filter (.≠ e) l) = Spec.remove (omap (elems c !!.) l) (Key i).
Proof.
  intros Hok Hi. induction l as [|x l IH]; intros Hl; [done|]. cbn -[filter].
  destruct (ok_item c x Hok) as [j Hj]; [apply Hl; left|]. rewrite Hj.
  assert (∀ x, x ∈ l → x ∈ ll c) as Hl' by (intros; apply Hl; by right).
  unfold Spec.remove in *. destruct (decide (x = e)) as [->|Hne].
  - rewrite (filter_cons_False (.≠ e)) by tauto. rewrite IH by done.
    assert (j = i) as -> by congruence. by rewrite (filter_cons_False (λ i0, Key i0 ≠ Key i)) by tauto.
  - rewrite (filter_cons_True (.≠ e)) by done. cbn -[filter]. rewrite Hj, IH by done.
    rewrite (filter_cons_True (λ i0, Key i0 ≠ Key i)); [done|].
    intros Hk. by eapply Hne, ok_keys.
Qed.

Lemma abs_remove c e i :
  ok c → elems c !! e = Some i →
  omap (elems c !!.) (filter (.≠ e) (ll c)) = Spec.remove (abs c) (Key i).
Proof. intros. by apply abs_remove_part. Qed.

Lemma elem_of_abs c i : ok c → i ∈ abs c ↔ ∃ e, elems c !! e = Some i.
Proof.
  intros Hok. unfold abs. rewrite list_elem_of_omap. split; [naive_solver|].
  intros [e He]. exists e. split; [apply ok_elems; eauto|done].
Qed.

Lemma filter_unique {A} (P : A → Prop) `{∀ x, Decision (P x)} (l : list A) x :
  x ∈ l → P x → (∀ y, y ∈ l → P y → y = x) → head (filter P l) = Some x.
Proof.
  intros Hx Hp Hu. destruct (filter P l) as [|y l'] eqn:Hf; cbn.
  - assert (x ∈ filter P l) as Hin by (by apply list_elem_of_filter).
    rewrite Hf in Hin. by apply not_elem_of_nil in Hin.
  - assert (y ∈ filter P l) as Hy by (rewrite Hf; left).
    apply list_elem_of_filter in Hy as [??]. f_equal. by apply Hu.
Qed.

Lemma find_abs c k : ok c → Spec.find (abs c) k = cache c !! k ≫= (elems c !!.).
Proof.
  intros Hok. unfold Spec.find. destruct (cache c !! k) as [e|] eqn:Hc; cbn.
  - apply ok_cache in Hc as (i & Hi & Hk); [|done]. rewrite Hi. apply filter_unique; [|done|].
    + by apply elem_of_abs; eauto.
    + intros j [e' Hj]%elem_of_abs Hkj; [|done].
      assert (e' = e) as -> by (eapply ok_keys; [done..|congruence]). congruence.
  - destruct (filter (λ i, Key i = k) (abs c)) as [|j l] eqn:Hf; [done|].
    assert (j ∈ filter (λ i, Key i = k) (abs c)) as Hj by (rewrite Hf; left).
    apply list_elem_of_filter in Hj as [Hk [e He]%elem_of_abs]; [|done].
    assert (cache c !! k = Some e) by (apply ok_cache; eauto). congruence.
Qed.

(** *** The four ways the pair of list and map changes *)
Lemma drop_ok c e i :
  ok c → elems c !! e = Some i →
  let c' := set_cache (list_Remove c e) (delete (Key i) (cache c)) in
  ok c' ∧ abs c' = Spec.remove (abs c) (Key i).
Proof.
  intros Hok Hi. split; [split; cbn|].
  - apply NoDup_filter, Hok.
  - intros x. rewrite list_elem_of_filter, <-(ok_elems _ Hok), lookup_delete_is_Some. naive_solver.
  - intros x [_ Hx]%list_elem_of_filter. by apply Hok.
  - intros k x. rewrite lookup_delete_Some, (ok_cache _ Hok). split.
    + intros (Hne & j & Hj & Hk). exists j. split; [|done]. apply lookup_delete_Some.
      split; [|done]. intros ->. congruence.
    + intros (j & [Hne Hj]%lookup_delete_Some & Hk). split; [|eauto]. intros <-.
      apply Hne. by eapply ok_keys.
  - unfold abs. cbn. rewrite omap_delete. by apply abs_remove.
Qed.

Lemma move_ok c e i :
  ok c → elems c !! e = Some i →
  ok (list_MoveToFront c e) ∧ abs (list_MoveToFront c e) = i :: Spec.remove (abs c) (Key i).
Proof.
  intros Hok Hi. assert (e ∈ ll c) as He by (apply ok_elems; eauto). split; [split; cbn|].
  - constructor; [rewrite list_elem_of_filter; tauto|apply NoDup_filter, Hok].
  - intros x. rewrite elem_of_cons, list_elem_of_filter, (ok_elems _ Hok).
    destruct (decide (x = e)); naive_solver.
  - intros x [->|[_ Hx]%list_elem_of_filter]%elem_of_cons; by apply Hok.
  - apply Hok.
  - unfold abs. cbn. rewrite Hi. f_equal. by apply abs_remove.
Qed.

(** [item.Value = value; item.Timestamp = time.Now()] on the front element. *)
Lemma set_front_ok c e i j l :
  ok c → elems c !! e = Some i → Key j = Key i → ll c = e :: l →
  ok (set_elem c e j) ∧ abs (set_elem c e j) = j :: drop 1 (abs c).
Proof.
  intros Hok Hi Hk Hl. split; [split; cbn|].
  - apply Hok.
  - intros x. rewrite lookup_insert_is_Some, (ok_elems _ Hok).
    destruct (decide (e = x)) as [->|]; [rewrite Hl; set_solver|naive_solver].
  - apply Hok.
  - intros k x. rewrite (ok_cache _ Hok). destruct (decide (e = x)) as [->|Hne].
    + rewrite lookup_insert_eq. naive_solver congruence.
    + by rewrite lookup_insert_ne.
  - unfold abs. cbn. rewrite Hl. cbn. rewrite lookup_insert_eq, Hi. f_equal. cbn.
    assert (e ∉ l) as Hn by (apply ok_nodup in Hok; rewrite Hl in Hok; by inversion Hok).
    clear -Hn. induction l as [|x l IH]; [done|]. apply not_elem_of_cons in Hn as [??]. cbn.
    rewrite lookup_insert_ne by done. by rewrite IH.
Qed.

Lemma push_ok c k v now :
  ok c → cache c !! k = None →
  let '(e, c1) := list_PushFront c (mkItem k v now) in
  let c' := set_cache c1 (<[k := e]> (cache c1)) in
  ok c' ∧ abs c' = mkItem k v now :: abs c.
Proof.
  intros Hok Hk. cbn.
  assert (next c ∉ ll c) as Hn by (intros Hn; apply ok_fresh in Hn; [lia|done]).
  assert (∀ e i, elems c !! e = Some i → Key i ≠ k ∧ e ≠ next c) as Hne.
  { intros e i He. split.
    - intros Hki. assert (cache c !! k = Some e) by (apply ok_cache; eauto). congruence.
    - intros ->. apply Hn. apply ok_elems; eauto. }
  split; [split; cbn|].
  - constructor; [done|apply Hok].
  - intros x. rewrite lookup_insert_is_Some, elem_of_cons, (ok_elems _ Hok).
    destruct (decide (next c = x)); naive_solver.
  - intros x [->|Hx]%elem_of_cons; [lia|]. apply ok_fresh in Hx; [lia|done].
  - intros k' x. destruct (decide (k = k')) as [<-|Hkk].
    + rewrite lookup_insert_eq. split.
      * intros [= <-]. rewrite lookup_insert_eq. eauto.
      * intros (i & [[<- _]|[_ Hi]]%lookup_insert_Some & Hki); [done|]. by apply Hne in Hi as [? _].
    + rewrite lookup_insert_ne by done. rewrite (ok_cache _ Hok). split.
      * intros (i & Hi & Hki). exists i. split; [|done]. rewrite lookup_insert_ne; [done|].
        intros <-. by apply Hne in Hi as [_ ?].
      * intros (i & [[_ <-]|[_ Hi]]%lookup_insert_Some & Hki); [done|eauto].
  - unfold abs. cbn. rewrite lookup_insert_eq. f_equal.
    clear -Hn. induction (ll c) as [|x l IH]; [done|]. apply not_elem_of_cons in Hn as [??]. cbn.
    rewrite lookup_insert_ne by done. by rewrite IH.
Qed.
End invariant.

(** ** Refinement: histories of calls *)
Inductive op (V : Type) :=
| OGet (now : Time) (k : string) | OSet (now : Time) (k : string) (v : V)
| ORemove (k : string) | OClear | OLen | ORemoveExpired (now : Time).
Arguments OGet {V} now k.
Arguments OSet {V} now k v.
Arguments ORemove {V} k.
Arguments OClear {V}.
Arguments OLen {V}.
Arguments ORemoveExpired {V} now.

(** What a call returns: the value found, a number, or nothing. *)
Inductive response (V : Type) := RValue (v : option V) | RNum (n : nat) | RUnit.
Arguments RValue {V} v.
Arguments RNum {V} n.
Arguments RUnit {V}.

Section refinement.
Context {V : Type}.
Implicit Types (c : LRUCache V) (s : list (LRUCacheItem V)) (o : op V).

Definition exec c o : response V * LRUCache V :=
  match o with
  | OGet now k => let '(v, c) := Get c now k in (RValue v, c)
  | OSet now k v => (RUnit, Set_ c now k v)
  | ORemove k => (RUnit, Remove c k)
  | OClear => (RUnit, Clear c)
  | OLen => (RNum (Len c), c)
  | ORemoveExpired now => let '(n, c) := RemoveExpired c now in (RNum n, c)
  end.
Definition spec_exec (capacity : Z) (ttl : Time) s o : response V * list (LRUCacheItem V) :=
  match o with
  | OGet now k => let '(v, s) := Spec.Get ttl s now k in (RValue v, s)
  | OSet now k v => (RUnit, Spec.Set_ capacity s now k v)
  | ORemove k => (RUnit, Spec.remove s k)
  | OClear => (RUnit, [])
  | OLen => (RNum (length s), s)
  | ORemoveExpired now => let '(n, s) := Spec.RemoveExpired ttl s now in (RNum n, s)
  end.

(** The responses of a history. *)
Fixpoint run c (ops : list (op V)) : list (response V) * LRUCache V :=
  match ops with
  | [] => ([], c)
  | o :: ops => let '(r, c) := exec c o in let '(rs, c) := run c ops in (r :: rs, c)
  end.
Fixpoint spec_run (capacity : Z) (ttl : Time) s (ops : list (op V))
  : list (response V) * list (LRUCacheItem V) :=
  match ops with
  | [] => ([], s)
  | o :: ops =>
      let '(r, s) := spec_exec capacity ttl s o in
      let '(rs, s) := spec_run capacity ttl s ops in (r :: rs, s)
  end.

(** The simulation relation. *)
Record sim (cap : Z) (t : Time) c s : Prop := {
  sim_ok : ok c; sim_abs : abs c = s; sim_capacity : capacity c = cap; sim_ttl : ttl c = t
}.

Lemma filter_all {A} (P : A → Prop) `{∀ x, Decision (P x)} (l : list A) :
  (∀ x, x ∈ l → P x) → filter P l = l.
Proof.
  induction l as [|x l IH]; intros Hall; [done|].
  rewrite filter_cons_True by (apply Hall; left). f_equal. apply IH. intros; apply Hall; by right.
Qed.

Lemma abs_length c : ok c → length (abs c) = length (ll c).
Proof.
  intros Hok. unfold abs. assert (∀ e, e ∈ ll c → is_Some (elems c !! e)) as Hs
    by (intros e; apply ok_elems, Hok).
  induction (ll c) as [|e l IH]; [done|]. cbn. destruct (Hs e) as [i ->]; [left|]. cbn.
  rewrite IH; [done|]. intros; apply Hs; by right.
Qed.

Lemma Get_sim cap t c s now k :
  sim cap t c s →
  (Get c now k).1 = (Spec.Get t s now k).1 ∧ sim cap t (Get c now k).2 (Spec.Get t s now k).2.
Proof.
  intros [Hok <- <- <-]. unfold Get, Spec.Get. rewrite find_abs by done.
  destruct (cache c !! k) as [e|] eqn:Hc; cbn; [|done].
  destruct (elems c !! e) as [i|] eqn:Hi; cbn; [|done].
  assert (Key i = k) as Hk.
  { apply ok_cache in Hc as (j & Hj & <-); [|done]. congruence. }
  unfold expired. rewrite <-bool_decide_and. case_bool_decide.
  - rewrite decide_True by done. split; [done|]. cbn. subst k.
    destruct (drop_ok c e i Hok Hi) as [Hok' Ha]. by split.
  - rewrite decide_False by done. cbn. split; [done|]. subst k.
    destruct (move_ok c e i Hok Hi) as [Hok' Ha]. by split.
Qed.

Lemma evict_sim cap t c s : sim cap t c s → sim cap t (evictOldest c) (removelast s).
Proof.
  intros [Hok <- <- <-]. unfold evictOldest. destruct (last (ll c)) as [o|] eqn:Hl.
  2:{ apply last_None in Hl. unfold abs at 1. rewrite Hl. by split; [|unfold abs; rewrite Hl|..]. }
  apply last_Some in Hl as [l Hl]. destruct (ok_item c o Hok) as [i Hi]; [rewrite Hl; set_solver|].
  rewrite Hi. destruct (drop_ok c o i Hok Hi) as [Hok' Ha]. split; [exact Hok'| |done..].
  unfold abs. cbn. rewrite omap_delete, Hl.
  pose proof (ok_nodup _ Hok) as Hnd. rewrite Hl in Hnd. apply NoDup_app in Hnd as (_ & Hnd & _).
  assert (filter (.≠ o) (l ++ [o]) = l) as Hf.
  { rewrite filter_app, (filter_cons_False (.≠ o)) by tauto. cbn. rewrite app_nil_r.
    apply filter_all. intros x Hx ->. apply (Hnd o); set_solver. }
  rewrite Hf, omap_app. cbn. rewrite Hi. by rewrite removelast_last.
Qed.

Lemma evict_cache c k : ok c → cache c !! k = None → cache (evictOldest c) !! k = None.
Proof.
  intros Hok Hk. unfold evictOldest. destruct (last (ll c)) as [o|]; [|done].
  destruct (elems c !! o); [|done]. cbn. by rewrite lookup_delete_None; right.
Qed.

Lemma Set_sim cap t c s now k v :
  sim cap t c s → sim cap t (Set_ c now k v) (Spec.Set_ cap s now k v).
Proof.
  intros Hs. pose proof Hs as [Hok Ha Hcap Ht]. unfold Set_, Spec.Set_. rewrite <-Ha, find_abs by done.
  destruct (cache c !! k) as [e|] eqn:Hc; cbn.
  - pose proof Hc as (i & Hi & Hk)%ok_cache; [|done]. rewrite Hi.
    destruct (move_ok c e i Hok Hi) as [Hok1 Ha1].
    destruct (set_front_ok (list_MoveToFront c e) e i (mkItem (Key i) v now) _ Hok1 Hi eq_refl eq_refl)
      as [Hok2 Ha2]. split; [done| |done..]. rewrite Ha2, Ha1. cbn. by rewrite Hk.
  - assert (sim cap t (if bool_decide (capacity c ≤ Z.of_nat (length (ll c)))%Z then evictOldest c else c)
      (if decide (cap ≤ Z.of_nat (length (abs c)))%Z then removelast (abs c) else abs c) ∧
      cache (if bool_decide (capacity c ≤ Z.of_nat (length (ll c)))%Z then evictOldest c else c) !! k
        = None) as [Hs' Hn].
    { rewrite abs_length, <-Hcap by done. case_bool_decide as Hle.
      - rewrite decide_True by done. split; [|by apply evict_cache].
        apply evict_sim. by rewrite Ha, Hcap.
      - rewrite decide_False by done. split; [by rewrite Ha, Hcap|done]. }
    destruct Hs' as [Hok' Ha' Hcap' Ht']. rewrite <-Ha'.
    pose proof (push_ok _ k v now Hok' Hn) as Hp. cbn in Hp. destruct Hp as [Hok2 Ha2]. by split.
Qed.

Lemma Remove_sim cap t c s k : sim cap t c s → sim cap t (Remove c k) (Spec.remove s k).
Proof.
  intros [Hok <- <- <-]. unfold Remove. destruct (cache c !! k) as [e|] eqn:Hc.
  - apply ok_cache in Hc as (i & Hi & <-); [|done]. destruct (drop_ok c e i Hok Hi) as [Hok' Ha].
    by split.
  - split; [done| |done..]. unfold Spec.remove. symmetry. apply filter_all.
    intros i [e He]%elem_of_abs Hk; [|done].
    assert (cache c !! k = Some e) by (apply ok_cache; eauto). congruence.
Qed.

(** *** Removing the expired items *)
Definition stale (t : Time) (m : gmap nat (LRUCacheItem V)) (now : Time) (e : nat) : Prop :=
  match m !! e with Some i => (now - Timestamp i > t)%Z | None => False end.
#[local] Instance stale_dec t m now e : Decision (stale t m now e).
Proof. unfold stale. destruct (m !! e); apply _. Defined.

Lemma filter_ext_in {A} (P Q : A → Prop) `{∀ x, Decision (P x)} `{∀ x, Decision (Q x)} (l : list A) :
  (∀ x, x ∈ l → P x ↔ Q x) → filter P l = filter Q l.
Proof.
  induction l as [|x l IH]; intros Hpq; [done|].
  assert (filter P l = filter Q l) as E by (apply IH; intros; apply Hpq; by right).
  destruct (decide (P x)) as [Hp|Hp].
  - rewrite !filter_cons_True; [by rewrite E|apply Hpq; [left|done]|done].
  - rewrite !filter_cons_False; [done|rewrite <-Hpq; [done|left]|done].
Qed.

Lemma filter_filter_and {A} (P Q : A → Prop) `{∀ x, Decision (P x)} `{∀ x, Decision (Q x)} (l : list A) :
  filter P (filter Q l) = filter (λ x, P x ∧ Q x) l.
Proof. by rewrite list_filter_filter. Qed.

Lemma remove_expired_loop now l c n :
  ok c → NoDup l → (∀ e, e ∈ l → e ∈ ll c) →
  let '(c', n') := foldl (remove_expired_step now) (c, n) l in
  ok c' ∧ capacity c' = capacity c ∧ ttl c' = ttl c ∧
  ll c' = filter (λ e, e ∉ l ∨ ¬ stale (ttl c) (elems c) now e) (ll c) ∧
  (∀ e, e ∈ ll c' → elems c' !! e = elems c !! e) ∧
  n' = n + length (filter (stale (ttl c) (elems c) now) l).
Proof.
  revert c n. induction l as [|e l IH]; intros c n Hok Hnd Hl; cbn [foldl].
  { split_and!; [done|done|done| |done|cbn; lia]. symmetry. apply filter_all. intros. left. by apply not_elem_of_nil. }
  apply NoDup_cons in Hnd as [He Hnd].
  destruct (ok_item c e Hok) as [i Hi]; [apply Hl; left|]. cbn [remove_expired_step]. rewrite Hi.
  assert (bool_decide (stale (ttl c) (elems c) now e) = expired c now i) as Hse
    by (apply bool_decide_ext; unfold stale; by rewrite Hi).
  destruct (expired c now i) eqn:Hx.
  - apply bool_decide_eq_true in Hse.
    destruct (drop_ok c e i Hok Hi) as [Hok1 _].
    set (c1 := set_cache (list_Remove c e) (delete (Key i) (cache c))) in *.
    assert (∀ x, x ≠ e → stale (ttl c1) (elems c1) now x ↔ stale (ttl c) (elems c) now x) as Hst.
    { intros x Hne. unfold stale. cbn. by rewrite lookup_delete_ne by done. }
    specialize (IH c1 (S n) Hok1 Hnd). cbn [set_cache list_Remove cache].
    fold c1. destruct (foldl (remove_expired_step now) (c1, S n) l) as [c' n'].
    destruct IH as (Hok' & Hcap & Ht & Hll & Hel & Hn).
    { intros x Hx'. cbn. apply list_elem_of_filter. split; [by intros ->|]. apply Hl. by right. }
    split_and!; [done|done|done| | |].
    + rewrite Hll. cbn [c1 set_cache list_Remove ll]. rewrite filter_filter_and. apply filter_ext_in.
      intros x _. destruct (decide (x = e)) as [->|Hne]; [|rewrite Hst by done]; set_solver.
    + intros x Hx'. rewrite Hel by done. apply lookup_delete_ne. intros <-.
      rewrite Hll in Hx'. cbn [c1 set_cache list_Remove ll] in Hx'.
      rewrite !list_elem_of_filter in Hx'. tauto.
    + rewrite Hn, (filter_cons_True (stale _ _ _)) by done. cbn [length].
      rewrite (filter_ext_in _ (stale (ttl c) (elems c) now) l); [lia|].
      intros x Hx'. apply Hst. by intros ->.
  - apply bool_decide_eq_false in Hse. specialize (IH c n Hok Hnd).
    destruct (foldl (remove_expired_step now) (c, n) l) as [c' n'].
    destruct IH as (Hok' & Hcap & Ht & Hll & Hel & Hn); [intros; apply Hl; by right|].
    split_and!; [done|done|done| |done|].
    + rewrite Hll. apply filter_ext_in. intros x _.
      destruct (decide (x = e)) as [->|Hne]; set_solver.
    + by rewrite Hn, (filter_cons_False (stale _ _ _)) by done.
Qed.

Lemma abs_filter_stale c now :
  ok c →
  omap (elems c !!.) (filter (λ e, ¬ stale (ttl c) (elems c) now e) (ll c)) =
    filter (λ i, ¬ (now - Timestamp i > ttl c))%Z (abs c) ∧
  length (filter (stale (ttl c) (elems c) now) (ll c)) =
    length (filter (λ i, now - Timestamp i > ttl c)%Z (abs c)).
Proof.
  intros Hok. unfold abs. assert (∀ e, e ∈ ll c → is_Some (elems c !! e)) as Hs
    by (intros e; apply ok_elems, Hok).
  induction (ll c) as [|e l IH]; [done|]. destruct IH as [IH1 IH2]; [intros; apply Hs; by right|].
  destruct (Hs e) as [i Hi]; [left|]. cbn [omap list_omap]. rewrite Hi.
  assert (stale (ttl c) (elems c) now e ↔ (now - Timestamp i > ttl c)%Z) as Hst
    by (unfold stale; by rewrite Hi).
  destruct (decide (now - Timestamp i > ttl c)%Z) as [Hgt|Hgt].
  - rewrite (filter_cons_False (λ e, ¬ stale _ _ _ e)), (filter_cons_True (stale _ _ _)) by tauto.
    rewrite (filter_cons_False (λ i, ¬ (_ > _)%Z)), (filter_cons_True (λ i, (_ > _)%Z)) by tauto.
    cbn [length]. by rewrite IH1, IH2.
  - rewrite (filter_cons_True (λ e, ¬ stale _ _ _ e)), (filter_cons_False (stale _ _ _)) by tauto.
    rewrite (filter_cons_True (λ i, ¬ (_ > _)%Z)), (filter_cons_False (λ i, (_ > _)%Z)) by tauto.
    cbn [omap list_omap]. by rewrite Hi, IH1.
Qed.

Lemma RemoveExpired_sim cap t c s now :
  sim cap t c s →
  (RemoveExpired c now).1 = (Spec.RemoveExpired t s now).1 ∧
  sim cap t (RemoveExpired c now).2 (Spec.RemoveExpired t s now).2.
Proof.
  intros [Hok <- <- <-]. unfold RemoveExpired, Spec.RemoveExpired. case_bool_decide as Ht.
  { by rewrite decide_True. }
  rewrite decide_False by done.
  pose proof (remove_expired_loop now (reverse (ll c)) c 0 Hok) as Hloop.
  destruct (foldl (remove_expired_step now) (c, 0) (reverse (ll c))) as [c' n'].
  destruct Hloop as (Hok' & Hcap & Ht' & Hll & Hel & Hn).
  { rewrite reverse_Permutation. apply Hok. }
  { intros e. by rewrite reverse_Permutation. }
  destruct (abs_filter_stale c now Hok) as [Ha Hlen]. cbn. split.
  - rewrite Hn, <-Hlen. cbn. by rewrite (reverse_Permutation (ll c)).
  - split; [done| |done..]. rewrite <-Ha. unfold abs.
    rewrite (filter_ext_in _ (λ e, e ∉ reverse (ll c) ∨ ¬ stale (ttl c) (elems c) now e)), <-Hll.
    + clear -Hel. induction (ll c') as [|e l IH]; [done|]. cbn. rewrite Hel by left.
      rewrite IH; [done|]. intros; apply Hel; by right.
    + intros e He. rewrite reverse_Permutation. tauto.
Qed.

Lemma exec_sim cap t c s o :
  sim cap t c s →
  (exec c o).1 = (spec_exec cap t s o).1 ∧ sim cap t (exec c o).2 (spec_exec cap t s o).2.
Proof.
  intros Hs. destruct o as [now k|now k v|k| | |now]; cbn.
  - pose proof (Get_sim _ _ _ _ now k Hs). destruct (Get c now k), (Spec.Get t s now k); cbn in *.
    naive_solver.
  - split; [done|]. by apply Set_sim.
  - split; [done|]. by apply Remove_sim.
  - split; [done|]. destruct Hs as [Hok _ <- <-]. split; [|done..].
    split; cbn; [constructor|intros ?..].
    + rewrite lookup_empty, elem_of_nil. split; [by intros []|done].
    + by intros ?%not_elem_of_nil.
    + intros e. rewrite !lookup_empty. split; [done|]. by intros (? & ? & _).
  - split; [|done]. unfold Len. destruct Hs as [Hok <- _ _]. by rewrite abs_length.
  - pose proof (RemoveExpired_sim _ _ _ _ now Hs).
    destruct (RemoveExpired c now), (Spec.RemoveExpired t s now); cbn in *. naive_solver.
Qed.

Lemma run_sim cap t c s ops :
  sim cap t c s →
  (run c ops).1 = (spec_run cap t s ops).1 ∧ sim cap t (run c ops).2 (spec_run cap t s ops).2.
Proof.
  revert c s. induction ops as [|o ops IH]; intros c s Hs; cbn; [done|].
  destruct (exec_sim _ _ _ _ o Hs) as [Hr Hs1].
  destruct (exec c o) as [r c1], (spec_exec cap t s o) as [r' s1]. cbn in *. subst r'.
  destruct (IH c1 s1 Hs1) as [Hrs Hs2].
  destruct (run c1 ops), (spec_run cap t s1 ops). cbn in *. by subst.
Qed.

Lemma ok_new cap t : ok (NewTypedLRUCache cap t : LRUCache V).
Proof.
  split; cbn; [constructor|intros ?..].
  - rewrite lookup_empty, elem_of_nil. split; [by intros []|done].
  - by intros ?%not_elem_of_nil.
  - intros e. rewrite !lookup_empty. split; [done|]. by intros (? & ? & _).
Qed.
Lemma sim_new cap t : sim cap t (NewTypedLRUCache cap t) ([] : list (LRUCacheItem V)).
Proof. split; [apply ok_new|done..]. Qed.

(** *** Single calls, for the clients of a cache *)
Lemma Get_good c now k : ok c → ok (Get c now k).2 ∧ ttl (Get c now k).2 = ttl c.
Proof.
  intros Hok. assert (sim (capacity c) (ttl c) c (abs c)) as Hs by done.
  by destruct (Get_sim _ _ _ _ now k Hs) as [_ [? _ _ ?]].
Qed.
Lemma Set_good c now k v : ok c → ok (Set_ c now k v) ∧ ttl (Set_ c now k v) = ttl c.
Proof.
  intros Hok. assert (sim (capacity c) (ttl c) c (abs c)) as Hs by done.
  by destruct (Set_sim _ _ _ _ now k v Hs) as [? _ _ ?].
Qed.

Lemma find_Some s k i : Spec.find s k = Some i → i ∈ s ∧ Key i = k.
Proof.
  unfold Spec.find. intros Hf.
  assert (i ∈ filter (λ i, Key i = k) s) as Hi.
  { destruct (filter _ s); [done|]. injection Hf as ->. left. }
  by apply list_elem_of_filter in Hi as [??].
Qed.
Lemma elem_of_remove s k i : i ∈ Spec.remove s k ↔ i ∈ s ∧ Key i ≠ k.
Proof. unfold Spec.remove. rewrite list_elem_of_filter. tauto. Qed.
Lemma elem_of_removelast {A} (x : A) (l : list A) : x ∈ removelast l → x ∈ l.
Proof.
  induction l as [|y l IH]; [done|]. cbn. destruct l as [|z l]; [by intros ?%not_elem_of_nil|].
  intros [->|Hx]%elem_of_cons; [left|right]. by apply IH.
Qed.

(** A hit is an item of the cache that is not too old. *)
Lemma Get_hit c now k v :
  ok c → (Get c now k).1 = Some v →
  ∃ i, i ∈ abs c ∧ Key i = k ∧ Value i = v ∧ ((0 < ttl c)%Z → (now - Timestamp i ≤ ttl c)%Z).
Proof.
  intros Hok. assert (sim (capacity c) (ttl c) c (abs c)) as Hs by done.
  destruct (Get_sim _ _ _ _ now k Hs) as [-> _]. unfold Spec.Get.
  destruct (Spec.find (abs c) k) as [i|] eqn:Hf; [|done]. apply find_Some in Hf as [Hi Hk].
  case_decide; [done|]. intros [= <-]. exists i. split_and!; [done..|]. lia.
Qed.
Lemma Get_items c now k i : ok c → i ∈ abs (Get c now k).2 → i ∈ abs c.
Proof.
  intros Hok. assert (sim (capacity c) (ttl c) c (abs c)) as Hs by done.
  destruct (Get_sim _ _ _ _ now k Hs) as [_ [_ -> _ _]]. unfold Spec.Get.
  destruct (Spec.find (abs c) k) as [j|] eqn:Hf; [|done]. apply find_Some in Hf as [Hj _].
  case_decide; cbn; [by intros [? _]%elem_of_remove|].
  by intros [->|[? _]%elem_of_remove]%elem_of_cons.
Qed.
Lemma Set_items c now k v i : ok c → i ∈ abs (Set_ c now k v) → i = mkItem k v now ∨ i ∈ abs c.
Proof.
  intros Hok. assert (sim (capacity c) (ttl c) c (abs c)) as Hs by done.
  destruct (Set_sim _ _ _ _ now k v Hs) as [_ -> _ _]. unfold Spec.Set_.
  destruct (Spec.find (abs c) k) as [j|].
  - intros [->|[? _]%elem_of_remove]%elem_of_cons; auto.
  - intros [->|Hi]%elem_of_cons; [by left|right].
    revert Hi. case_decide; [apply elem_of_removelast|done].
Qed.
(** What was just stored is found until it expires. *)
Lemma Get_Set c now now' k v :
  ok c → (now' - now ≤ ttl c)%Z → (Get (Set_ c now k v) now' k).1 = Some v.
Proof.
  intros Hok Ht. assert (sim (capacity c) (ttl c) c (abs c)) as Hs by done.
  pose proof (Set_sim _ _ _ _ now k v Hs) as Hs'.
  destruct (Get_sim _ _ _ _ now' k Hs') as [-> _]. unfold Spec.Get.
  assert (Spec.find (Spec.Set_ (capacity c) (abs c) now k v) k = Some (mkItem k v now)) as ->.
  { unfold Spec.Set_, Spec.find at 1. destruct (Spec.find (abs c) k);
      rewrite (filter_cons_True (λ i, Key i = k)) by done; done. }
  cbn. rewrite decide_False by lia. done.
Qed.

(** C16. The LRU cache refines the abstract one: for every history of calls, the
    linked list with its map from keys to elements returns exactly what the
    ordered list of items returns, and ends with the same items in the same
    order. *)
Theorem lru_refines cap t (ops : list (op V)) :
  (run (NewTypedLRUCache cap t) ops).1 = (spec_run cap t [] ops).1 ∧
  abs (run (NewTypedLRUCache cap t) ops).2 = (spec_run cap t [] ops).2.
Proof.
  destruct (run_sim cap t (NewTypedLRUCache cap t) [] ops (sim_new cap t)) as [Hr [_ Ha _ _]]. done.
Qed.

(** ** What the cache guarantees *)
Lemma spec_run_state cap t s ops :
  (spec_run cap t s ops).2 = foldl (λ s o, (spec_exec cap t s o).2) s ops.
Proof.
  revert s. induction ops as [|o ops IH]; intros s; cbn; [done|].
  destruct (spec_exec cap t s o) as [r s1]. cbn. rewrite <-IH.
  by destruct (spec_run cap t s1 ops).
Qed.

Lemma find_None s k i : Spec.find s k = None → i ∈ s → Key i ≠ k.
Proof.
  unfold Spec.find. intros Hf Hi Hk.
  assert (i ∈ filter (λ i, Key i = k) s) as Hin by (by apply list_elem_of_filter).
  destruct (filter _ s); [by apply not_elem_of_nil in Hin|done].
Qed.
Lemma remove_length s k i : i ∈ s → Key i = k → length (Spec.remove s k) < length s.
Proof.
  intros Hi Hk. unfold Spec.remove. induction s as [|j s IH]; [by apply not_elem_of_nil in Hi|].
  assert (length (filter (λ i, Key i ≠ k) s) ≤ length s) by apply length_filter.
  destruct (decide (Key j = k)) as [Hj|Hj].
  - rewrite filter_cons_False by tauto. cbn. lia.
  - rewrite filter_cons_True by done. cbn. apply elem_of_cons in Hi as [->|Hi]; [done|].
    specialize (IH Hi). lia.
Qed.

Lemma spec_exec_bounded cap t s o :
  (Z.of_nat (length s) ≤ Z.max 1 cap)%Z →
  (Z.of_nat (length (spec_exec cap t s o).2) ≤ Z.max 1 cap)%Z.
Proof.
  intros Hs. assert (∀ k, length (Spec.remove s k) ≤ length s) as Hr by (intros; apply length_filter).
  destruct o as [now k|now k v|k| | |now]; cbn.
  - unfold Spec.Get. destruct (Spec.find s k) as [i|] eqn:Hf; [|done]. specialize (Hr k).
    apply find_Some in Hf as [Hi Hk]. pose proof (remove_length s k i Hi Hk).
    case_decide; cbn; lia.
  - unfold Spec.Set_. destruct (Spec.find s k) as [i|] eqn:Hf.
    + apply find_Some in Hf as [Hi Hk]. pose proof (remove_length s k i Hi Hk). cbn. lia.
    + case_decide; cbn; [|lia]. destruct s as [|j s]; [cbn; lia|].
      rewrite removelast_firstn_len, length_firstn. cbn in *. lia.
  - specialize (Hr k). lia.
  - lia.
  - lia.
  - unfold Spec.RemoveExpired. case_decide; cbn; [done|].
    assert (length (filter (λ i, ¬ (now - Timestamp i > t))%Z s) ≤ length s) by apply length_filter. lia.
Qed.

(** The cache is bounded: after any history it holds at most [capacity]
    items (one, for a capacity below one). *)
Theorem lru_bounded cap t (ops : list (op V)) :
  (Z.of_nat (Len (run (NewTypedLRUCache cap t) ops).2) ≤ Z.max 1 cap)%Z.
Proof.
  destruct (run_sim cap t (NewTypedLRUCache cap t) [] ops (sim_new cap t)) as [_ [Hok Ha _ _]].
  unfold Len. rewrite <-abs_length, Ha, spec_run_state by done.
  assert (∀ s, (Z.of_nat (length s) ≤ Z.max 1 cap)%Z →
    (Z.of_nat (length (foldl (λ s o, (spec_exec cap t s o).2) s ops)) ≤ Z.max 1 cap)%Z) as Hf.
  { clear. induction ops as [|o ops IH]; intros s Hs; cbn; [done|].
    by apply IH, spec_exec_bounded. }
  apply Hf. cbn. lia.
Qed.

(** The last call that stored under [k] stored [v] at time [t0], and nothing
    removed it since. *)
Definition forgets (k : string) (o : op V) : bool :=
  match o with OSet _ k' _ | ORemove k' => bool_decide (k' = k) | OClear => true | _ => false end.
Definition last_set (ops : list (op V)) (k : string) (v : V) (t0 : Time) : Prop :=
  ∃ ops1 ops2, ops = ops1 ++ OSet t0 k v :: ops2 ∧ ∀ o, o ∈ ops2 → forgets k o = false.

Lemma last_set_snoc ops o k v t0 :
  last_set ops k v t0 → forgets k o = false → last_set (ops ++ [o]) k v t0.
Proof.
  intros (l1 & l2 & -> & Hl2) Ho. exists l1, (l2 ++ [o]). split; [by rewrite <-app_assoc|].
  intros o' [?| ->%list_elem_of_singleton]%elem_of_app; auto.
Qed.

Lemma spec_items_last_set cap t ops i :
  i ∈ foldl (λ s o, (spec_exec cap t s o).2) [] ops →
  last_set ops (Key i) (Value i) (Timestamp i).
Proof.
  revert i. induction ops as [|o ops IH] using rev_ind; intros i; cbn; [by intros ?%not_elem_of_nil|].
  rewrite foldl_app. cbn. set (s := foldl _ [] ops) in *. intros Hi.
  destruct o as [now k|now k v|k| | |now]; cbn in Hi.
  - apply last_set_snoc; [|done]. apply IH. revert Hi. unfold Spec.Get.
    destruct (Spec.find s k) as [j|] eqn:Hf; [|done]. apply find_Some in Hf as [Hj _].
    case_decide; cbn; [by intros [? _]%elem_of_remove|].
    by intros [->|[? _]%elem_of_remove]%elem_of_cons.
  - assert ((i = mkItem k v now) ∨ (i ∈ s ∧ Key i ≠ k)) as [->|[His Hk]].
    { revert Hi. unfold Spec.Set_. destruct (Spec.find s k) as [j|] eqn:Hf.
      - intros [->|?%elem_of_remove]%elem_of_cons; auto.
      - intros [->|Hi]%elem_of_cons; [by left|right].
        assert (i ∈ s) by (revert Hi; case_decide; [apply elem_of_removelast|done]).
        split; [done|]. by eapply find_None. }
    + exists ops, []. split; [done|]. by intros ? ?%not_elem_of_nil.
    + apply last_set_snoc; [by apply IH|]. cbn. by apply bool_decide_eq_false.
  - apply elem_of_remove in Hi as [Hi Hk]. apply last_set_snoc; [by apply IH|]. cbn.
    by apply bool_decide_eq_false.
  - by apply not_elem_of_nil in Hi.
  - apply last_set_snoc; [by apply IH|done].
  - apply last_set_snoc; [|done]. apply IH. revert Hi. unfold Spec.RemoveExpired.
    case_decide; cbn; [done|]. by rewrite list_elem_of_filter; intros [_ ?].
Qed.

(** A hit is the last value stored: if [Get] finds a value after a history,
    that value was stored by the last call of [Set] for the key, nothing removed
    the key since, and (when a time to live is set) it is not older than that. *)
Theorem lru_hit_is_last_set cap t (ops : list (op V)) now k v :
  (Get (run (NewTypedLRUCache cap t) ops).2 now k).1 = Some v →
  ∃ t0, last_set ops k v t0 ∧ ((0 < t)%Z → (now - t0 ≤ t)%Z).
Proof.
  destruct (run_sim cap t (NewTypedLRUCache cap t) [] ops (sim_new cap t)) as [_ Hs].
  destruct (Get_sim _ _ _ _ now k Hs) as [-> _]. rewrite spec_run_state. unfold Spec.Get.
  destruct (Spec.find _ k) as [i|] eqn:Hf; [|done]. apply find_Some in Hf as [Hi Hk].
  case_decide as Hd; cbn; [done|]. intros [= <-]. exists (Timestamp i).
  rewrite <-Hk. split; [by eapply spec_items_last_set|]. lia.
Qed.
End refinement.

(** A cache of capacity two: the least recently used key is evicted. *)
Lemma lru_hit_is_last_set_witness :
  ∃ t0, last_set [OSet 1 "a" 10; OSet 2 "b" 20; OGet 3 "a"; OSet 4 "c" 30] "a" 10 t0 ∧
    ((0 < 100)%Z → (5 - t0 ≤ 100)%Z).
Proof.
  apply (lru_hit_is_last_set 2 100 [OSet 1 "a" 10; OSet 2 "b" 20; OGet 3 "a"; OSet 4 "c" 30] 5 "a" 10).
  vm_compute. reflexivity.
Defined.

End Lru.
