(* ===== verification/MessageCache.v ===== *)
(** * The caches of messages and their memory

    [filters/lru_cache.go] and [clusters/lru_cache.go] keep slices of pointers to
    Envoy messages in the LRU cache; callers get such slices and go on to change
    the messages.  [HttpFilters] and [Clusters] model the caches with values.  This
    file models what makes that right: the memory, with messages, the arrays behind
    slices, and the pool of slices of [utils/pools.go] through which one of the two
    caches copies.  The theorem is that a caller cannot tell the difference,
    whatever it does to the slices and messages it holds. *)

From S2P Require Import Prelude GoStrings Types Lru.

Module MessageCache.

(** ** Memory *)
(** A slice from the start of its array. *)
Record slice := mkSlice { arr : nat; len : nat; cap : nat }.
(** Messages, arrays of pointers ([None] is nil) and the slice variables the pool
    hands out; a location below [brk] is in use. *)
Record heap (M : Type) := mkHeap {
  msgs : gmap nat M; arrs : gmap nat (list (option nat)); hdrs : gmap nat slice; brk : nat
}.
Arguments mkHeap {M} msgs arrs hdrs brk.
Arguments msgs {M} _.
Arguments arrs {M} _.
Arguments hdrs {M} _.
Arguments brk {M} _.

(** Computations that change a state; [None] is a panic. *)
Definition mem (S A : Type) : Type := S → option (A * S).
Global Instance mem_ret S : MRet (mem S) := λ A a s, Some (a, s).
Global Instance mem_bind S : MBind (mem S) := λ A B f m s,
  match m s with Some (a, s) => f a s | None => None end.
Definition or_panic {S A} (o : option A) : mem S A := λ s, match o with Some a => Some (a, s) | None => None end.

Section memory.
Context {M : Type}.
(** The capacity [append] allocates when an array is full. *)
Context (grow : nat → nat).
Local Abbreviation heap := (heap M).

Definition new_msg (m : M) : mem heap nat := λ h,
  Some (brk h, mkHeap (<[brk h := m]> (msgs h)) (arrs h) (hdrs h) (S (brk h))).
Definition new_arr (cells : list (option nat)) : mem heap nat := λ h,
  Some (brk h, mkHeap (msgs h) (<[brk h := cells]> (arrs h)) (hdrs h) (S (brk h))).
Definition new_hdr (s : slice) : mem heap nat := λ h,
  Some (brk h, mkHeap (msgs h) (arrs h) (<[brk h := s]> (hdrs h)) (S (brk h))).
Definition load (p : nat) : mem heap M := λ h, m ← msgs h !! p; Some (m, h).
Definition assign (p : nat) (m : M) : mem heap unit := λ h,
  _ ← msgs h !! p; Some (tt, mkHeap (<[p := m]> (msgs h)) (arrs h) (hdrs h) (brk h)).
Definition cells (a : nat) : mem heap (list (option nat)) := λ h, cs ← arrs h !! a; Some (cs, h).
Definition put_cells (a : nat) (cs : list (option nat)) : mem heap unit := λ h,
  Some (tt, mkHeap (msgs h) (<[a := cs]> (arrs h)) (hdrs h) (brk h)).
Definition header (p : nat) : mem heap slice := λ h, s ← hdrs h !! p; Some (s, h).
Definition set_header (p : nat) (s : slice) : mem heap unit := λ h,
  Some (tt, mkHeap (msgs h) (arrs h) (<[p := s]> (hdrs h)) (brk h)).

(** [make([]*T, len, cap)], [s[i]], [append(s, c)] and [copy(dst, src)] *)
Definition make_slice (len cap : nat) : mem heap slice := a ← new_arr (replicate cap None); mret (mkSlice a len cap).
Definition index (s : slice) (i : nat) : mem heap (option nat) :=
  cs ← cells (arr s); or_panic (if decide (i < len s) then cs !! i else None).
Definition append (s : slice) (c : option nat) : mem heap slice :=
  cs ← cells (arr s);
  if decide (len s < cap s) then
    _ ← put_cells (arr s) (<[len s := c]> cs); mret (mkSlice (arr s) (S (len s)) (cap s))
  else
    a ← new_arr (take (len s) cs ++ c :: replicate (grow (len s) - S (len s)) None);
    mret (mkSlice a (S (len s)) (grow (len s))).
Definition copy (dst src : slice) : mem heap unit :=
  from ← cells (arr src); to ← cells (arr dst);
  let n := min (len dst) (len src) in put_cells (arr dst) (take n from ++ drop n to).
(** [proto.Clone]: nil gives nil. *)
Definition Clone (c : option nat) : mem heap (option nat) :=
  match c with None => mret None | Some p => m ← load p; q ← new_msg m; mret (Some q) end.

(** ** [pools.go]: [sync.Pool] hands out any slice it holds, or a new one *)
Definition store : Type := heap * list nat.
Definition on_heap {A} (m : mem heap A) : mem store A := λ s,
  match m s.1 with Some (a, h) => Some (a, (h, s.2)) | None => None end.
Definition GetHTTPFilterSlice (pick : option nat) : mem store nat := λ s,
  match pick ≫= (s.2 !!.) with
  | Some p => Some (p, (s.1, filter (.≠ p) s.2))
  | None => on_heap (t ← make_slice 0 8; new_hdr t) s
  end.
Definition pool_put (p : nat) : mem store unit := λ s, Some (tt, (s.1, p :: s.2)).
Definition PutHTTPFilterSlice (p : nat) : mem store unit :=
  t ← on_heap (header p);
  _ ← on_heap (set_header p (mkSlice (arr t) 0 (cap t)));
  pool_put p.

(** ** [lru_cache.go] *)
(** The loop that appends a clone of every filter to the slice [ptr] points to, from [i] on. *)
Fixpoint append_clones (filters : slice) (ptr i n : nat) : mem heap unit :=
  match n with
  | 0 => mret tt
  | S n =>
      c ← index filters i; q ← Clone c; t ← header ptr; t ← append t q; _ ← set_header ptr t;
      append_clones filters ptr (S i) n
  end.
(** A slice of the pool with the clones, and the new slice they are copied to. *)
Definition pooled_copy (pick : option nat) (filters : slice) : mem store (nat * slice) :=
  ptr ← GetHTTPFilterSlice pick;
  _ ← on_heap (append_clones filters ptr 0 (len filters));
  t ← on_heap (header ptr);
  final ← on_heap (make_slice (len t) (len t));
  _ ← on_heap (copy final t);
  mret (ptr, final).
Record cached := mkCached { mem_of : store; lru : Lru.LRUCache slice }.
Definition filters_Get (pick : option nat) (now : Lru.Time) (key : string) : mem cached (option slice) := λ c,
  match Lru.Get (lru c) now key with
  | (None, l) => Some (None, mkCached (mem_of c) l)
  | (Some filters, l) =>
      match (r ← pooled_copy pick filters; _ ← PutHTTPFilterSlice r.1; mret r.2) (mem_of c) with
      | Some (final, s) => Some (Some final, mkCached s l)
      | None => None
      end
  end.
Definition filters_Set (pick : option nat) (now : Lru.Time) (key : string) (filters : slice) : mem cached unit := λ c,
  match pooled_copy pick filters (mem_of c) with
  | None => None
  | Some ((ptr, permanent), s) =>
      let l := Lru.Set_ (lru c) now key permanent in
      match PutHTTPFilterSlice ptr s with Some (_, s) => Some (tt, mkCached s l) | None => None end
  end.

(** [for i, cl := range clusters { result[i] = proto.Clone(cl) }] *)
Fixpoint clone_into (src dst : slice) (i n : nat) : mem heap unit :=
  match n with
  | 0 => mret tt
  | S n =>
      c ← index src i; q ← Clone c; cs ← cells (arr dst); _ ← put_cells (arr dst) (<[i := q]> cs);
      clone_into src dst (S i) n
  end.
Definition direct_copy (src : slice) : mem store slice :=
  on_heap (dst ← make_slice (len src) (len src); _ ← clone_into src dst 0 (len src); mret dst).
Definition clusters_Get (now : Lru.Time) (key : string) : mem cached (option slice) := λ c,
  match Lru.Get (lru c) now key with
  | (None, l) => Some (None, mkCached (mem_of c) l)
  | (Some clusters, l) =>
      match direct_copy clusters (mem_of c) with Some (r, s) => Some (Some r, mkCached s l) | None => None end
  end.
Definition clusters_Set (now : Lru.Time) (key : string) (clusters : slice) : mem cached unit := λ c,
  match direct_copy clusters (mem_of c) with
  | Some (r, s) => Some (tt, mkCached s (Lru.Set_ (lru c) now key r))
  | None => None
  end.
End memory.

(** ** What the memory operations do *)
(** Evaluates a computation to its next look-up. *)
Ltac run_mem := unfold mbind, mem_bind, option_bind, mret, mem_ret; cbn.

Section facts.
Context {M : Type} (grow : nat → nat) (grow_gt : ∀ n, n < grow n).
Local Abbreviation heap := (heap M).
Local Abbreviation store := (store (M := M)).
Implicit Types (h : heap) (s t : slice) (c q : option nat).

(** The messages a slice gives access to. *)
Definition den h c : option M := c ≫= (msgs h !!.).
Definition contents h s : list (option nat) := take (len s) (default [] (arrs h !! arr s)).
Definition value h s : list (option M) := den h <$> contents h s.

Record hwf h : Prop := {
  hw_msgs p : is_Some (msgs h !! p) → p < brk h;
  hw_arrs p : is_Some (arrs h !! p) → p < brk h;
  hw_hdrs p : is_Some (hdrs h !! p) → p < brk h
}.
Definition readable h s : Prop :=
  ∃ cs, arrs h !! arr s = Some cs ∧ len s ≤ length cs ∧ ∀ p, Some p ∈ take (len s) cs → is_Some (msgs h !! p).
Definition owned h t : Prop := ∃ cs, arrs h !! arr t = Some cs ∧ len t ≤ cap t ∧ cap t = length cs.

(** What was in memory stays, but for the arrays in [X] (whose length stays) and the
    slice variables in [Y]. *)
Record grows (X Y : nat → Prop) h h' : Prop := {
  gr_wf : hwf h';
  gr_brk : brk h ≤ brk h';
  gr_msgs p m : msgs h !! p = Some m → msgs h' !! p = Some m;
  gr_arrs a cs : ¬ X a → arrs h !! a = Some cs → arrs h' !! a = Some cs;
  gr_len a cs : arrs h !! a = Some cs → ∃ cs', arrs h' !! a = Some cs' ∧ length cs' = length cs;
  gr_hdrs p t : ¬ Y p → hdrs h !! p = Some t → hdrs h' !! p = Some t
}.
Definition none : nat → Prop := λ _, False.
Lemma grows_trans (X X' Y Y' : nat → Prop) h1 h2 h3 : hwf h1 →
  (∀ a, X' a → X a ∨ brk h1 ≤ a) → (∀ p, Y' p → Y p ∨ brk h1 ≤ p) →
  grows X Y h1 h2 → grows X' Y' h2 h3 → grows X Y h1 h3.
Proof.
  intros Hw HX HY [] []. split; [done|lia|auto| | |].
  - intros a cs Ha Hcs. apply gr_arrs1; [|auto]. intros [?|Hle]%HX; [done|].
    assert (a < brk h1) by (apply (hw_arrs _ Hw); eauto). lia.
  - intros a cs Ha. destruct (gr_len0 a cs Ha) as (cs' & Ha' & E). destruct (gr_len1 a cs' Ha') as (cs'' & ? & ?).
    exists cs''. split; congruence.
  - intros p t Hp Ht. apply gr_hdrs1; [|auto]. intros [?|Hle]%HY; [done|].
    assert (p < brk h1) by (apply (hw_hdrs _ Hw); eauto). lia.
Qed.
Lemma grows_weaken (X X' Y Y' : nat → Prop) h h' :
  (∀ a, X a → X' a) → (∀ p, Y p → Y' p) → grows X Y h h' → grows X' Y' h h'.
Proof. intros HX HY []. split; auto. Qed.
Lemma grows_refl X Y h : hwf h → grows X Y h h.
Proof. intros Hw. split; eauto. Qed.

Lemma grows_old (X Y : nat → Prop) h h' : hwf h →
  grows (λ a, X a ∨ brk h ≤ a) (λ p, Y p ∨ brk h ≤ p) h h' → grows X Y h h'.
Proof.
  intros Hw []. split; auto.
  - intros a cs Hx Ha. assert (a < brk h) by (apply (hw_arrs _ Hw); eauto). apply gr_arrs0; [|done]. intros [?|?]; [done|lia].
  - intros p t Hy Hp. assert (p < brk h) by (apply (hw_hdrs _ Hw); eauto). apply gr_hdrs0; [|done]. intros [?|?]; [done|lia].
Qed.

Lemma den_grows X Y h h' c : grows X Y h h' → (∀ p, c = Some p → is_Some (msgs h !! p)) → den h' c = den h c.
Proof.
  intros Hg Hc. destruct c as [p|]; [|done]. destruct (Hc p eq_refl) as [m Hm]. cbn. by rewrite Hm, (gr_msgs _ _ _ _ Hg _ _ Hm).
Qed.
Lemma readable_grows X Y h h' s : grows X Y h h' → ¬ X (arr s) → readable h s →
  readable h' s ∧ contents h' s = contents h s ∧ value h' s = value h s.
Proof.
  intros Hg Hx (cs & Hcs & Hl & Hp). pose proof (gr_arrs _ _ _ _ Hg _ _ Hx Hcs) as Hcs'.
  assert (contents h' s = contents h s) as Hc by (unfold contents; by rewrite Hcs, Hcs'). split; [|split; [done|]].
  - exists cs. split; [done|]. split; [done|]. intros p Hin. destruct (Hp p Hin) as [m Hm]. exists m. by eapply gr_msgs.
  - unfold value. rewrite Hc. apply list_fmap_ext. intros i c Hi. eapply den_grows; [done|]. intros p ->. apply Hp.
    apply list_elem_of_lookup_2 in Hi. unfold contents in Hi. by rewrite Hcs in Hi.
Qed.
Lemma owned_grows X Y h h' t : grows X Y h h' → owned h t → owned h' t.
Proof. intros Hg (cs & Hcs & ? & ?). destruct (gr_len _ _ _ _ Hg _ _ Hcs) as (cs' & ? & ?). exists cs'. split_and!; congruence. Qed.

(** Allocation and assignment. *)
Lemma new_msg_grows h m : hwf h →
  grows none none h (mkHeap (<[brk h := m]> (msgs h)) (arrs h) (hdrs h) (S (brk h))).
Proof.
  intros Hw. assert (∀ p, is_Some (msgs h !! p) → p ≠ brk h) as Hf by (intros p ?%(hw_msgs _ Hw); lia).
  split; cbn; [split; cbn|lia| |auto|eauto|auto].
  - intros p. destruct (decide (p = brk h)) as [->|]; [lia|]. rewrite lookup_insert_ne by done. intros ?%(hw_msgs _ Hw). lia.
  - intros p ?%(hw_arrs _ Hw). lia.
  - intros p ?%(hw_hdrs _ Hw). lia.
  - intros p m' Hp. rewrite lookup_insert_ne; [done|]. apply not_eq_sym, Hf. eauto.
Qed.
Lemma new_arr_grows h cs : hwf h →
  grows none none h (mkHeap (msgs h) (<[brk h := cs]> (arrs h)) (hdrs h) (S (brk h))).
Proof.
  intros Hw. assert (∀ p x, arrs h !! p = Some x → brk h ≠ p) as Hf.
  { intros p x Hx. assert (p < brk h) by (apply (hw_arrs _ Hw); eauto). lia. }
  split; cbn; [split; cbn|lia|auto| | |auto].
  - intros p ?%(hw_msgs _ Hw). lia.
  - intros p. destruct (decide (p = brk h)) as [->|]; [lia|]. rewrite lookup_insert_ne by done. intros ?%(hw_arrs _ Hw). lia.
  - intros p ?%(hw_hdrs _ Hw). lia.
  - intros a cs' _ Hp. rewrite lookup_insert_ne by eauto. done.
  - intros a cs' Hp. exists cs'. rewrite lookup_insert_ne by eauto. done.
Qed.
Lemma new_hdr_grows h t : hwf h →
  grows none none h (mkHeap (msgs h) (arrs h) (<[brk h := t]> (hdrs h)) (S (brk h))).
Proof.
  intros Hw. split; cbn; [split; cbn|lia|auto|auto|eauto|].
  - intros p ?%(hw_msgs _ Hw). lia.
  - intros p ?%(hw_arrs _ Hw). lia.
  - intros p. destruct (decide (p = brk h)) as [->|]; [lia|]. rewrite lookup_insert_ne by done. intros ?%(hw_hdrs _ Hw). lia.
  - intros p t' _ Hp. assert (p < brk h) by (apply (hw_hdrs _ Hw); eauto). by rewrite lookup_insert_ne by lia.
Qed.
Lemma put_cells_grows h a cs cs' : hwf h → arrs h !! a = Some cs → length cs' = length cs →
  grows (.= a) none h (mkHeap (msgs h) (<[a := cs']> (arrs h)) (hdrs h) (brk h)).
Proof.
  intros [Hm Ha Hh] Hcs Hl. split; cbn; [split; cbn|lia|auto| | |auto]; [auto| |auto|..].
  - intros p. destruct (decide (p = a)) as [->|]; [intros _; apply Ha; eauto|]. rewrite lookup_insert_ne by done. apply Ha.
  - intros b cs2 Hb Hb2. by rewrite lookup_insert_ne by congruence.
  - intros b cs2 Hb. destruct (decide (b = a)) as [->|]; [rewrite lookup_insert_eq|rewrite lookup_insert_ne by done; eauto].
    exists cs'. split; [done|congruence].
Qed.
Lemma set_header_grows h p t t' : hwf h → hdrs h !! p = Some t →
  grows none (.= p) h (mkHeap (msgs h) (arrs h) (<[p := t']> (hdrs h)) (brk h)).
Proof.
  intros [Hm Ha Hh] Hp. split; cbn; [split; cbn|lia|auto|auto|eauto|]; [auto|auto|..].
  - intros x. destruct (decide (x = p)) as [->|]; [intros _; apply Hh; eauto|]. rewrite lookup_insert_ne by done. apply Hh.
  - intros x u Hx Hu. by rewrite lookup_insert_ne by congruence.
Qed.

Lemma Clone_spec h c : hwf h → (∀ p, c = Some p → is_Some (msgs h !! p)) →
  ∃ q h', Clone c h = Some (q, h') ∧ grows none none h h' ∧ arrs h' = arrs h ∧ hdrs h' = hdrs h ∧ den h' q = den h c ∧
    ∀ p, q = Some p → brk h ≤ p ∧ is_Some (msgs h' !! p).
Proof.
  intros Hw Hc. destruct c as [p|]; [|exists None, h; split_and!; [done|by apply grows_refl|done..]].
  destruct (Hc p eq_refl) as [m Hm]. unfold Clone, load. run_mem. rewrite Hm. do 2 eexists. split; [reflexivity|].
  split; [by apply new_msg_grows|]. split; [done|]. split; [done|]. cbn. rewrite ?Hm, lookup_insert_eq. split; [done|].
  intros ? [= <-]. rewrite lookup_insert_eq. eauto.
Qed.
Lemma append_spec h t q : hwf h → owned h t →
  ∃ t' h', append grow t q h = Some (t', h') ∧ grows (.= arr t) none h h' ∧ owned h' t' ∧ msgs h' = msgs h ∧ hdrs h' = hdrs h ∧
    contents h' t' = contents h t ++ [q] ∧ (arr t' = arr t ∨ brk h ≤ arr t').
Proof.
  intros Hw (cs & Hcs & Hl & Hcap). unfold append, cells. run_mem. rewrite Hcs. case_decide as Hd; run_mem.
  - do 2 eexists. split; [reflexivity|]. split; [eapply put_cells_grows; [done|done|by rewrite length_insert]|].
    split; [exists (<[len t := q]> cs); cbn; rewrite lookup_insert_eq, length_insert; split_and!; [done|lia|done]|].
    split; [done|]. split; [done|]. split; [|by left]. unfold contents. cbn. rewrite lookup_insert_eq, Hcs. cbn.
    rewrite (take_S_r _ _ q) by (apply list_lookup_insert_eq; lia). by rewrite take_insert_ge by lia.
  - do 2 eexists. split; [reflexivity|]. split; [eapply grows_weaken, new_arr_grows; [by intros ? []|done|done]|].
    pose proof (grow_gt (len t)). split.
    { eexists. cbn. rewrite lookup_insert_eq. split; [done|]. rewrite length_app, length_take, length_cons, length_replicate. lia. }
    split; [done|]. split; [done|]. split; [|right; cbn; lia]. unfold contents. cbn. rewrite lookup_insert_eq, Hcs. cbn.
    rewrite cons_middle, app_assoc, take_app_le by (rewrite length_app, length_take; cbn; lia).
    rewrite take_ge; [done|]. rewrite length_app, length_take. cbn. lia.
Qed.
Lemma index_readable h s i : readable h s → i < len s → ∃ c, contents h s !! i = Some c ∧ index s i h = Some (c, h) ∧
  ∀ p, c = Some p → is_Some (msgs h !! p).
Proof.
  intros (cs & Hcs & Hl & Hp) Hi. destruct (lookup_lt_is_Some_2 cs i) as [c Hc]; [lia|].
  assert (take (len s) cs !! i = Some c) as Ht by (by rewrite lookup_take_lt). exists c. split_and!.
  - unfold contents. by rewrite Hcs.
  - unfold index, cells. run_mem. rewrite Hcs, decide_True by done. unfold or_panic. by rewrite Hc.
  - intros p ->. apply Hp. by apply list_elem_of_lookup_2 in Ht.
Qed.
(** Pointers made after [h]. *)
Definition since (b : nat) (q : option nat) : Prop := ∀ p, q = Some p → b ≤ p.
Lemma since_le b b' q : b ≤ b' → since b' q → since b q.
Proof. intros ? Hs p Hp. specialize (Hs p Hp). lia. Qed.

(** The loop over the slice: the slice variable ends up with the clones appended. *)
Lemma append_clones_spec s ptr n : ∀ i h t, hwf h → readable h s → hdrs h !! ptr = Some t → owned h t → arr s ≠ arr t →
  i + n = len s →
  ∃ t' h' qs, append_clones grow s ptr i n h = Some (tt, h') ∧ grows (.= arr t) (.= ptr) h h' ∧
    hdrs h' !! ptr = Some t' ∧ owned h' t' ∧ contents h' t' = contents h t ++ qs ∧ length qs = n ∧
    (arr t' = arr t ∨ brk h ≤ arr t') ∧ Forall (since (brk h)) qs ∧ den h' <$> qs = drop i (value h s) ∧
    ∀ p, Some p ∈ qs → is_Some (msgs h' !! p).
Proof.
  induction n as [|n IH]; intros i h t Hw Hs Ht Ho Hne Hi; cbn [append_clones].
  - exists t, h, []. split_and!; try done; [by apply grows_refl|by rewrite app_nil_r|by left| |].
    + cbn. rewrite drop_ge; [done|]. unfold value, contents. destruct Hs as (cs & Hcs & Hl & _). rewrite length_fmap, length_take, Hcs. lia.
    + intros p Hp. by apply not_elem_of_nil in Hp.
  - destruct (index_readable h s i Hs) as (c & Hc & Hidx & Hcp); [lia|].
    destruct (Clone_spec h c Hw Hcp) as (q & h1 & Hq & Hg1 & Ha1 & Hh1 & Hden & Hfresh).
    assert (owned h1 t) as Ho1 by (by eapply owned_grows).
    destruct (append_spec h1 t q (gr_wf _ _ _ _ Hg1) Ho1) as (t2 & h2 & Happ & Hg2 & Ho2 & Hm2 & Hh2 & Hcont & Harr).
    set (h3 := mkHeap (msgs h2) (arrs h2) (<[ptr := t2]> (hdrs h2)) (brk h2)).
    assert (grows none (.= ptr) h2 h3) as Hg3 by (eapply set_header_grows; [apply Hg2|by rewrite Hh2, Hh1]).
    assert (grows (.= arr t) (.= ptr) h h3) as Hg.
    { apply (grows_trans _ none _ (.= ptr) _ h2); [done|by intros ? []|by left| |done].
      apply (grows_trans _ (.= arr t) _ none _ h1); [done|by left|by intros ? []| |done].
      by eapply grows_weaken; [| |exact Hg1]; intros ? []. }
    destruct (readable_grows _ _ _ _ s Hg Hne Hs) as (Hs3 & Hc3 & Hv3).
    assert (arr s ≠ arr t2) as Hne2.
    { destruct Harr as [->|Hf]; [done|]. destruct Hs as (cs & Hcs & _).
      assert (arr s < brk h) by (apply (hw_arrs _ Hw); eauto). pose proof (gr_brk _ _ _ _ Hg1). lia. }
    destruct (IH (S i) h3 t2) as (t' & h' & qs & Hrun & Hg' & Ht' & Ho' & Hcont' & Hlen & Harr' & Hsince & Hden' & Hin);
      [apply Hg3|done|apply lookup_insert_eq|exact (owned_grows _ _ _ _ _ Hg3 Ho2)|done|lia|].
    pose proof (gr_brk _ _ _ _ Hg1) as Hb1. pose proof (gr_brk _ _ _ _ Hg) as Hb3.
    exists t', h', (q :: qs). split_and!.
    + run_mem. rewrite Hidx. run_mem. rewrite Hq. unfold header. run_mem. rewrite Hh1, Ht. run_mem. rewrite Happ. exact Hrun.
    + apply (grows_trans _ (.= arr t2) _ (.= ptr) _ h3); [done| |by left|done|done]. intros ? ->. destruct Harr; [by left|right; lia].
    + done.
    + done.
    + rewrite Hcont', cons_middle, app_assoc. f_equal. transitivity (contents h2 t2); [done|]. rewrite Hcont. f_equal.
      unfold contents. by rewrite Ha1.
    + cbn. by rewrite Hlen.
    + destruct Harr', Harr; [left; congruence|right; lia..].
    + constructor; [intros p Hp; by apply Hfresh|]. eapply Forall_impl; [exact Hsince|]. intros x. by apply since_le.
    + rewrite fmap_cons, Hden', Hv3. rewrite (drop_S _ (den h c) i) by (unfold value; by rewrite list_lookup_fmap, Hc). f_equal.
      rewrite <-Hden. transitivity (den h3 q); [|unfold den; cbn; by rewrite Hm2].
      eapply den_grows; [exact Hg'|]. cbn. rewrite Hm2. apply Hfresh.
    + intros p [<-|Hp]%elem_of_cons; [|by apply Hin]. destruct (proj2 (Hfresh p eq_refl)) as [m Hm]. exists m.
      apply (gr_msgs _ _ _ _ Hg'). cbn. by rewrite Hm2.
Qed.

(** *** The pool *)
Definition pool_arr (st : store) (a : nat) : Prop := ∃ p t, p ∈ st.2 ∧ hdrs st.1 !! p = Some t ∧ arr t = a.
Record pwf (st : store) : Prop := {
  pw_heap : hwf st.1;
  pw_nodup : NoDup st.2;
  pw_slices p : p ∈ st.2 → ∃ t, hdrs st.1 !! p = Some t ∧ len t = 0 ∧ owned st.1 t
}.
(** [s'] is a copy of [s] that shares nothing with what was in memory. *)
Record copied (st : store) (s s' : slice) (st' : store) : Prop := {
  cp_wf : pwf st';
  cp_grows : grows (pool_arr st) (λ p, p ∈ st.2) st.1 st'.1;
  cp_pool a : pool_arr st' a → pool_arr st a ∨ brk st.1 ≤ a;
  cp_arr : brk st.1 ≤ arr s' ∧ ¬ pool_arr st' (arr s');
  cp_cells : arrs st'.1 !! arr s' = Some (contents st'.1 s');
  cp_len : len s' = length (contents st'.1 s');
  cp_since : Forall (since (brk st.1)) (contents st'.1 s');
  cp_read p : Some p ∈ contents st'.1 s' → is_Some (msgs st'.1 !! p);
  cp_value : value st'.1 s' = value st.1 s
}.
Definition copies (cp : slice → mem store slice) : Prop :=
  ∀ st s, pwf st → readable st.1 s → ¬ pool_arr st (arr s) → ∃ s' st', cp s st = Some (s', st') ∧ copied st s s' st'.

Lemma GetHTTPFilterSlice_spec pick st : pwf st →
  ∃ ptr t h1 pool1, GetHTTPFilterSlice pick st = Some (ptr, (h1, pool1)) ∧ grows none none st.1 h1 ∧
    hdrs h1 !! ptr = Some t ∧ len t = 0 ∧ owned h1 t ∧ NoDup pool1 ∧ (ptr ∉ pool1) ∧ (∀ p, p ∈ pool1 → p ∈ st.2) ∧
    (pool_arr st (arr t) ∨ brk st.1 ≤ arr t) ∧ (ptr ∈ st.2 ∨ brk st.1 ≤ ptr).
Proof.
  intros [Hw Hnd Hsl]. unfold GetHTTPFilterSlice. destruct (pick ≫= (st.2 !!.)) as [p|] eqn:Hp.
  - assert (p ∈ st.2) as Hin.
    { destruct pick as [i|]; [|done]. cbn in Hp. by apply list_elem_of_lookup_2 in Hp. }
    destruct (Hsl p Hin) as (t & Ht & Hl & Ho). exists p, t, st.1, (filter (.≠ p) st.2). split_and!; try done.
    + by apply grows_refl.
    + by apply NoDup_filter.
    + rewrite list_elem_of_filter. tauto.
    + intros x Hx. by apply list_elem_of_filter in Hx as [_ ?].
    + left. by exists p, t.
    + by left.
  - pose proof (new_arr_grows st.1 (replicate 8 None) Hw) as Hg1. set (h1 := mkHeap (msgs st.1) _ _ _) in Hg1.
    pose proof (new_hdr_grows h1 (mkSlice (brk st.1) 0 8) (gr_wf _ _ _ _ Hg1)) as Hg2. cbn in Hg2.
    exists (S (brk st.1)), (mkSlice (brk st.1) 0 8), (mkHeap (msgs h1) (arrs h1) (<[S (brk st.1) := mkSlice (brk st.1) 0 8]> (hdrs h1)) (S (S (brk st.1)))), st.2.
    split_and!; try done.
    + apply (grows_trans _ none _ none _ h1); try done; by intros ? [].
    + cbn. by rewrite lookup_insert_eq.
    + exists (replicate 8 None). cbn. rewrite lookup_insert_eq. split_and!; [done|lia|done].
    + intros Hin. destruct (Hsl _ Hin) as (t & Ht & _). assert (S (brk st.1) < brk st.1) by (apply (hw_hdrs _ Hw); eauto). lia.
    + right. cbn. lia.
    + right. lia.
Qed.

(** The slice the clones are copied to, before the pool gets its slice back. *)
Lemma pooled_copy_spec pick st s : pwf st → readable st.1 s → ¬ pool_arr st (arr s) →
  ∃ ptr t' final h4 pool1 qs, pooled_copy grow pick s st = Some ((ptr, final), (h4, pool1)) ∧
    grows (λ a, pool_arr st a ∨ brk st.1 ≤ a) (λ p, p ∈ st.2 ∨ brk st.1 ≤ p) st.1 h4 ∧
    hdrs h4 !! ptr = Some t' ∧ owned h4 t' ∧ (pool_arr st (arr t') ∨ brk st.1 ≤ arr t') ∧ arr t' < arr final ∧
    (ptr ∈ st.2 ∨ brk st.1 ≤ ptr) ∧ NoDup pool1 ∧ (ptr ∉ pool1) ∧ (∀ p, p ∈ pool1 → p ∈ st.2 ∧ hdrs h4 !! p = hdrs st.1 !! p) ∧
    brk st.1 ≤ arr final ∧ arrs h4 !! arr final = Some qs ∧ len final = length qs ∧ Forall (since (brk st.1)) qs ∧
    (∀ p, Some p ∈ qs → is_Some (msgs h4 !! p)) ∧ den h4 <$> qs = value st.1 s.
Proof.
  intros Hp Hs Hns. pose proof (pw_heap _ Hp) as Hw.
  destruct (GetHTTPFilterSlice_spec pick st Hp) as
    (ptr & t & h1 & pool1 & Hget & Hg1 & Ht & Hl & Ho & Hnd & Hnin & Hsub & Harr & Hptr).
  destruct (readable_grows _ _ _ _ s Hg1 (λ x, x) Hs) as (Hs1 & _ & Hv1).
  assert (arr s < brk st.1) as Hsb by (destruct Hs as (cs & Hcs & _); apply (hw_arrs _ Hw); eauto).
  assert (arr s ≠ arr t) as Hne by (destruct Harr as [Ha|?]; [intros E; apply Hns; by rewrite E|lia]).
  destruct (append_clones_spec s ptr (len s) 0 h1 t (gr_wf _ _ _ _ Hg1) Hs1 Ht Ho Hne eq_refl)
    as (t' & h2 & qs & Hrun & Hg2 & Ht' & Ho' & Hcont & Hlen & Harr' & Hsince & Hden & Hin).
  assert (contents h1 t = []) as Ht0 by (unfold contents; by rewrite Hl). rewrite Ht0, app_nil_l in Hcont.
  pose proof (gr_brk _ _ _ _ Hg1) as Hb1. pose proof (gr_brk _ _ _ _ Hg2) as Hb2.
  destruct Ho' as (cs & Hcs & Hl' & Hcap).
  assert (take (len t') cs = qs) as Hqs by (unfold contents in Hcont; by rewrite Hcs in Hcont).
  pose proof (new_arr_grows h2 (replicate (len t') None) (gr_wf _ _ _ _ Hg2)) as Hg3. set (h3 := mkHeap (msgs h2) _ _ _) in Hg3.
  assert (arr t' < brk h2) as Htb by (apply (hw_arrs _ (gr_wf _ _ _ _ Hg2)); eauto).
  assert (arrs h3 !! arr t' = Some cs) as Hcs3 by (apply (gr_arrs _ _ _ _ Hg3); [by intros []|done]).
  assert (length qs = len t') as Hlq by (rewrite <-Hqs, length_take; lia).
  assert (length qs = length (replicate (A := option nat) (len t') None)) as Hlr by (by rewrite length_replicate).
  pose proof (put_cells_grows h3 (brk h2) _ qs (gr_wf _ _ _ _ Hg3) (lookup_insert_eq _ _ _) Hlr) as Hg4. set (h4 := mkHeap (msgs h3) _ _ _) in Hg4.
  exists ptr, t', (mkSlice (brk h2) (len t') (len t')), h4, pool1, qs. split_and!.
  - unfold pooled_copy. run_mem. rewrite Hget. unfold on_heap, header, copy, cells. run_mem. rewrite Hrun. run_mem. rewrite Ht'.
    unfold make_slice, new_arr. run_mem. change (<[brk h2 := replicate (len t') None]> (arrs h2)) with (arrs h3). rewrite Hcs3. cbn [arrs h3]. rewrite lookup_insert_eq.
    rewrite Nat.min_id, drop_ge, app_nil_r, Hqs by (by rewrite length_replicate). reflexivity.
  - apply (grows_trans _ (.= brk h2) _ none _ h3); [done|intros ? ->; right; lia|by intros ? []| |exact Hg4].
    apply (grows_trans _ none _ none _ h2); [done|by intros ? []|by intros ? []| |exact Hg3].
    apply (grows_trans _ (.= arr t) _ (.= ptr) _ h1); [done|intros ? ->; by left|intros ? ->; by left| |exact Hg2].
    eapply grows_weaken; [| |exact Hg1]; by intros ? [].
  - exact Ht'.
  - exists cs. split; [|done]. cbn. rewrite lookup_insert_ne by lia. exact Hcs3.
  - destruct Harr' as [->|?]; [done|right; lia].
  - exact Htb.
  - done.
  - done.
  - done.
  - intros p Hin'. split; [by apply Hsub|]. destruct (pw_slices _ Hp p (Hsub p Hin')) as (tp & Htp & _). rewrite Htp.
    apply (gr_hdrs _ _ _ _ Hg2); [intros ->; done|]. apply (gr_hdrs _ _ _ _ Hg1); [by intros []|done].
  - cbn. lia.
  - apply lookup_insert_eq.
  - done.
  - eapply Forall_impl; [exact Hsince|]. intros x. by apply since_le.
  - exact Hin.
  - rewrite <-Hv1. exact Hden.
Qed.

Definition filters_copy (pick : option nat) (s : slice) : mem store slice :=
  r ← pooled_copy grow pick s; _ ← PutHTTPFilterSlice r.1; mret r.2.
(** Both caches copy. *)
Lemma filters_copies pick : copies (filters_copy pick).
Proof.
  intros st s Hp Hs Hns. destruct (pooled_copy_spec pick st s Hp Hs Hns) as
    (ptr & t & final & h4 & pool1 & qs & Hrun & Hg & Ht & Ho & Ha & Hlt & Hptr & Hnd & Hnin & Hpool & Hfr & Hqs & Hl & Hsince & Hread & Hval).
  pose proof (set_header_grows h4 ptr t (mkSlice (arr t) 0 (cap t)) (gr_wf _ _ _ _ Hg) Ht) as Hg5.
  set (h5 := mkHeap (msgs h4) _ _ _) in Hg5.
  assert (contents h5 final = qs) as Hc by (unfold contents; cbn; rewrite Hqs, Hl; by apply take_ge).
  assert (∀ p u, p ∈ ptr :: pool1 → hdrs h5 !! p = Some u →
    (p = ptr ∧ u = mkSlice (arr t) 0 (cap t)) ∨ (p ∈ st.2 ∧ hdrs st.1 !! p = Some u)) as Hcases.
  { intros p u Hin. destruct (decide (p = ptr)) as [->|Hne]; cbn.
    - rewrite lookup_insert_eq. intros [= <-]. by left.
    - apply elem_of_cons in Hin as [->|Hin]; [done|]. rewrite lookup_insert_ne by done. destruct (Hpool p Hin) as [? ->]. by right. }
  exists final, (h5, ptr :: pool1). split.
  { unfold filters_copy. run_mem. rewrite Hrun. unfold PutHTTPFilterSlice, on_heap, header. run_mem. rewrite Ht. reflexivity. }
  assert (∀ a, pool_arr (h5, ptr :: pool1) a → pool_arr st a ∨ brk st.1 ≤ a) as Hpa.
  { intros a (p & u & Hin & Hu & <-). destruct (Hcases p u Hin Hu) as [[-> ->]|[Hin' Hu']]; [done|]. left. by exists p, u. }
  assert (pwf (h5, ptr :: pool1)) as Hpw.
  { split; [apply Hg5|by constructor|]. cbn. intros p Hin. destruct (decide (p = ptr)) as [->|Hne].
    - exists (mkSlice (arr t) 0 (cap t)). rewrite lookup_insert_eq. split_and!; [done..|].
      destruct Ho as (cs & Hcs & ? & ?). exists cs. split_and!; [exact Hcs|cbn; lia|done].
    - apply elem_of_cons in Hin as [->|Hin]; [done|]. rewrite lookup_insert_ne by done. destruct (Hpool p Hin) as [Hin' ->].
      destruct (pw_slices _ Hp p Hin') as (u & Hu & Hlu & Hou). exists u. split_and!; [done..|].
      eapply owned_grows; [exact Hg5|]. by eapply owned_grows. }
  split; cbn [fst snd]; [exact Hpw| |exact Hpa| |by rewrite Hc|by rewrite Hc|by rewrite Hc|by rewrite Hc|].
  - apply grows_old; [apply Hp|]. apply (grows_trans _ none _ (.= ptr) _ h4); [apply Hp|by intros ? []|intros ? ->; by left|done|done].
  - split; [done|]. intros (p & u & Hin & Hu & E). destruct (Hcases p u Hin Hu) as [[-> ->]|[Hin' Hu']]; [cbn in E; lia|].
    destruct (pw_slices _ Hp p Hin') as (u' & Hu'' & _ & cs & Hcs & _). assert (u' = u) as -> by congruence.
    assert (arr u < brk st.1) by (apply (hw_arrs _ (pw_heap _ Hp)); eauto). lia.
  - unfold value. rewrite Hc. exact Hval.
Qed.
Lemma clone_into_spec s d n : ∀ i h qs, hwf h → readable h s → arr s ≠ arr d → i + n = len s → len d = len s →
  arrs h !! arr d = Some (qs ++ replicate n None) → length qs = i →
  ∃ h' rs, clone_into s d i n h = Some (tt, h') ∧ grows (.= arr d) none h h' ∧ hdrs h' = hdrs h ∧
    arrs h' !! arr d = Some (qs ++ rs) ∧ length rs = n ∧ Forall (since (brk h)) rs ∧
    den h' <$> rs = drop i (value h s) ∧ ∀ p, Some p ∈ rs → is_Some (msgs h' !! p).
Proof.
  induction n as [|n IH]; intros i h qs Hw Hs Hne Hi Hd Hqs Hl; cbn [clone_into].
  - exists h, []. split_and!; try done; [by apply grows_refl| |].
    + cbn. rewrite drop_ge; [done|]. unfold value, contents. destruct Hs as (cs & Hcs & Hls & _). rewrite length_fmap, length_take, Hcs. lia.
    + intros p Hp. by apply not_elem_of_nil in Hp.
  - destruct (index_readable h s i Hs) as (c & Hc & Hidx & Hcp); [lia|].
    destruct (Clone_spec h c Hw Hcp) as (q & h1 & Hq & Hg1 & Ha1 & Hh1 & Hden & Hfresh).
    assert (<[i := q]> (qs ++ replicate (S n) None) = (qs ++ [q]) ++ replicate n None) as Hins.
    { rewrite <-Hl, <-(Nat.add_0_r (length qs)), insert_app_r. cbn. by rewrite <-app_assoc. }
    pose proof (put_cells_grows h1 (arr d) (qs ++ replicate (S n) None) ((qs ++ [q]) ++ replicate n None) (gr_wf _ _ _ _ Hg1))
      as Hg2. set (h2 := mkHeap (msgs h1) _ _ _) in Hg2.
    rewrite Ha1 in Hg2. specialize (Hg2 Hqs ltac:(rewrite !length_app, !length_replicate; cbn; lia)).
    assert (grows (.= arr d) none h h2) as Hg.
    { apply (grows_trans _ (.= arr d) _ none _ h1); [done|by left|by intros ? []| |done].
      by eapply grows_weaken; [| |exact Hg1]; intros ? []. }
    destruct (readable_grows _ _ _ _ s Hg Hne Hs) as (Hs2 & _ & Hv2).
    destruct (IH (S i) h2 (qs ++ [q])) as (h' & rs & Hrun & Hg' & Hh' & Hrs & Hlen & Hsince & Hden' & Hin);
      [apply Hg2|done|done|lia|done|apply lookup_insert_eq|rewrite length_app; cbn; lia|].
    pose proof (gr_brk _ _ _ _ Hg) as Hb. exists h', (q :: rs). split_and!.
    + run_mem. rewrite Hidx. run_mem. rewrite Hq. unfold cells. run_mem. rewrite Ha1, Hqs. rewrite Hins. exact Hrun.
    + by apply (grows_trans _ (.= arr d) _ none _ h2); [done|by left|by intros ? []|..].
    + by rewrite Hh'.
    + by rewrite Hrs, <-app_assoc.
    + cbn. by rewrite Hlen.
    + constructor; [intros p Hp; by apply Hfresh|]. eapply Forall_impl; [exact Hsince|]. intros x. by apply since_le.
    + rewrite fmap_cons, Hden', Hv2. rewrite (drop_S _ (den h c) i) by (unfold value; by rewrite list_lookup_fmap, Hc). f_equal.
      rewrite <-Hden. change (den h1 q) with (den h2 q). eapply den_grows; [exact Hg'|]. apply Hfresh.
    + intros p [<-|Hp]%elem_of_cons; [|by apply Hin]. destruct (proj2 (Hfresh p eq_refl)) as [m Hm]. exists m.
      by apply (gr_msgs _ _ _ _ Hg').
Qed.
Lemma clusters_copies : copies direct_copy.
Proof.
  intros st s Hp Hs Hns. pose proof (pw_heap _ Hp) as Hw.
  assert (arr s < brk st.1) as Hsb by (destruct Hs as (cs & Hcs & _); apply (hw_arrs _ Hw); eauto).
  pose proof (new_arr_grows st.1 (replicate (len s) None) Hw) as Hg1. set (h1 := mkHeap (msgs st.1) _ _ _) in Hg1.
  set (d := mkSlice (brk st.1) (len s) (len s)).
  destruct (readable_grows _ _ _ _ s Hg1 (λ x, x) Hs) as (Hs1 & _ & Hv1).
  destruct (clone_into_spec s d (len s) 0 h1 [] (gr_wf _ _ _ _ Hg1) Hs1) as
    (h2 & rs & Hrun & Hg2 & Hh2 & Hrs & Hlen & Hsince & Hden & Hin); [cbn; lia|done|done|apply lookup_insert_eq|done|].
  rewrite app_nil_l in Hrs.
  assert (contents h2 d = rs) as Hc by (unfold contents; rewrite Hrs; cbn; apply take_ge; lia).
  assert (∀ a, pool_arr (h2, st.2) a ↔ pool_arr st a) as Hpa.
  { intros a. unfold pool_arr. cbn. rewrite Hh2. done. }
  exists d, (h2, st.2). split.
  { unfold direct_copy, on_heap, make_slice, new_arr. run_mem. fold h1 d. by rewrite Hrun. }
  assert (grows none none st.1 h2) as Hg.
  { apply grows_old; [done|]. apply (grows_trans _ (.= arr d) _ none _ h1); [done|intros ? ->; right; cbn; lia|by intros ? []| |done].
    by eapply grows_weaken; [| |exact Hg1]; intros ? []. }
  split; cbn [fst snd].
  - split; [apply Hg2|apply Hp|]. cbn. intros p Hpin. destruct (pw_slices _ Hp p Hpin) as (t & Ht & Hl & Ho). exists t.
    rewrite Hh2. split_and!; [done..|]. by eapply owned_grows.
  - by eapply grows_weaken; [| |exact Hg]; intros ? [].
  - intros a Ha. left. by apply Hpa.
  - split; [cbn; lia|]. rewrite Hpa. intros (p & t & Hpin & Ht & E). destruct (pw_slices _ Hp p Hpin) as (t' & Ht' & _ & cs & Hcs & _).
    assert (t' = t) as -> by congruence. assert (arr t < brk st.1) by (apply (hw_arrs _ Hw); eauto). cbn in E. lia.
  - by rewrite Hc.
  - by rewrite Hc.
  - rewrite Hc. eapply Forall_impl; [exact Hsince|]. intros x. apply since_le. cbn. lia.
  - by rewrite Hc.
  - unfold value at 1. rewrite Hc, <-Hv1. exact Hden.
Qed.
End facts.

(** ** The LRU cache does not look at its values *)
Section lru_map.
Context {A B : Type} (f : A → B).
Definition item_map (i : Lru.LRUCacheItem A) : Lru.LRUCacheItem B := Lru.mkItem (Lru.Key i) (f (Lru.Value i)) (Lru.Timestamp i).
Definition lru_map (c : Lru.LRUCache A) : Lru.LRUCache B :=
  Lru.mkLRU (Lru.capacity c) (Lru.ttl c) (Lru.ll c) (item_map <$> Lru.elems c) (Lru.cache c) (Lru.next c).
Lemma map_Get c now k : Lru.Get (lru_map c) now k = (f <$> (Lru.Get c now k).1, lru_map (Lru.Get c now k).2).
Proof.
  unfold Lru.Get. cbn. destruct (Lru.cache c !! k) as [e|]; [|done]. rewrite lookup_fmap.
  destruct (Lru.elems c !! e) as [i|]; [|done]. cbn. change (Lru.expired (lru_map c) now (item_map i)) with (Lru.expired c now i).
  destruct (_ && _); cbn; [|done]. unfold lru_map. cbn. by rewrite fmap_delete.
Qed.
Lemma map_evictOldest c : Lru.evictOldest (lru_map c) = lru_map (Lru.evictOldest c).
Proof.
  unfold Lru.evictOldest. cbn. destruct (last (Lru.ll c)) as [e|]; [|done]. rewrite lookup_fmap.
  destruct (Lru.elems c !! e) as [i|]; [|done]. unfold lru_map. cbn. by rewrite fmap_delete.
Qed.
Lemma map_Set c now k v : Lru.Set_ (lru_map c) now k (f v) = lru_map (Lru.Set_ c now k v).
Proof.
  unfold Lru.Set_. cbn. destruct (Lru.cache c !! k) as [e|].
  - rewrite lookup_fmap. destruct (Lru.elems c !! e) as [i|]; [|done]. unfold lru_map. cbn. by rewrite fmap_insert.
  - rewrite map_evictOldest. destruct (bool_decide _); unfold lru_map; cbn; by rewrite fmap_insert.
Qed.
Lemma map_Remove c k : Lru.Remove (lru_map c) k = lru_map (Lru.Remove c k).
Proof. unfold Lru.Remove. cbn. destruct (Lru.cache c !! k) as [e|]; [|done]. unfold lru_map. cbn. by rewrite fmap_delete. Qed.
Lemma map_RemoveExpired c now :
  Lru.RemoveExpired (lru_map c) now = ((Lru.RemoveExpired c now).1, lru_map (Lru.RemoveExpired c now).2).
Proof.
  unfold Lru.RemoveExpired. cbn. destruct (bool_decide _); [done|].
  assert (∀ l c n, foldl (Lru.remove_expired_step now) (lru_map c, n) l =
    (lru_map (foldl (Lru.remove_expired_step now) (c, n) l).1, (foldl (Lru.remove_expired_step now) (c, n) l).2)) as Hf.
  { induction l as [|e l IH]; intros c0 n; [done|]. cbn. rewrite lookup_fmap. destruct (Lru.elems c0 !! e) as [i|]; cbn; [|apply IH].
    change (Lru.expired (lru_map c0) now (item_map i)) with (Lru.expired c0 now i).
    destruct (Lru.expired c0 now i); [|apply IH]. rewrite <-IH. do 2 f_equal. unfold lru_map. cbn. by rewrite fmap_delete. }
  rewrite Hf. by destruct (foldl _ _ _).
Qed.
End lru_map.

(** The values a cache holds, and how the operations change them. *)
Definition holds {A} (c : Lru.LRUCache A) (v : A) : Prop := ∃ e i, Lru.elems c !! e = Some i ∧ Lru.Value i = v.
Lemma lru_map_ext {A B} (f g : A → B) c : (∀ v, holds c v → f v = g v) → lru_map f c = lru_map g c.
Proof.
  intros Hfg. unfold lru_map. f_equal. apply map_fmap_ext. intros e i Hi. unfold item_map. rewrite Hfg; [done|]. by exists e, i.
Qed.
Lemma holds_sub {A} (c c' : Lru.LRUCache A) v : Lru.elems c' ⊆ Lru.elems c → holds c' v → holds c v.
Proof. intros Hs (e & i & Hi & <-). exists e, i. split; [|done]. by eapply lookup_weaken. Qed.
Lemma Get_holds {A} (c : Lru.LRUCache A) now k :
  (∀ v, holds (Lru.Get c now k).2 v → holds c v) ∧ ∀ v, (Lru.Get c now k).1 = Some v → holds c v.
Proof.
  unfold Lru.Get. destruct (Lru.cache c !! k) as [e|]; [|done]. destruct (Lru.elems c !! e) as [i|] eqn:Hi; [|done].
  destruct (_ && _); cbn; (split; [intros v; apply holds_sub|]); [apply delete_subseteq|done|done|].
  intros v [= <-]. by exists e, i.
Qed.
Lemma evictOldest_sub {A} (c : Lru.LRUCache A) : Lru.elems (Lru.evictOldest c) ⊆ Lru.elems c.
Proof. unfold Lru.evictOldest. repeat case_match; try done. apply delete_subseteq. Qed.
Lemma Set_holds {A} (c : Lru.LRUCache A) now k x v : holds (Lru.Set_ c now k x) v → v = x ∨ holds c v.
Proof.
  unfold Lru.Set_. destruct (Lru.cache c !! k) as [e|].
  - destruct (Lru.elems c !! e) as [i|] eqn:Hi; [|by right]. intros (e' & i' & Hi' & <-). cbn in Hi'.
    apply lookup_insert_Some in Hi' as [[_ <-]|[_ Hi']]; [by left|right; by exists e', i'].
  - intros (e' & i' & Hi' & <-). cbn in Hi'. apply lookup_insert_Some in Hi' as [[_ <-]|[_ Hi']]; [by left|right].
    exists e', i'. split; [|done]. case_match; [|done]. eapply lookup_weaken; [done|apply evictOldest_sub].
Qed.
Lemma Remove_holds {A} (c : Lru.LRUCache A) k v : holds (Lru.Remove c k) v → holds c v.
Proof. unfold Lru.Remove. destruct (Lru.cache c !! k); [|done]. apply holds_sub. cbn. apply delete_subseteq. Qed.
Lemma RemoveExpired_holds {A} (c : Lru.LRUCache A) now v : holds (Lru.RemoveExpired c now).2 v → holds c v.
Proof.
  unfold Lru.RemoveExpired. destruct (bool_decide _); [done|]. destruct (foldl _ _ _) as [c' n] eqn:Hf. cbn. apply holds_sub.
  assert (∀ l (c : Lru.LRUCache A) n, Lru.elems (foldl (Lru.remove_expired_step now) (c, n) l).1 ⊆ Lru.elems c) as Hsub.
  { clear. induction l as [|e l IH]; intros c n; [done|]. cbn. destruct (Lru.elems c !! e) as [i|]; [|apply IH].
    destruct (Lru.expired c now i); [|apply IH]. etransitivity; [apply IH|]. cbn. apply delete_subseteq. }
  specialize (Hsub (reverse (Lru.ll c)) c 0). by rewrite Hf in Hsub.
Qed.

(** ** Callers *)
(** The two caches behind one interface: they copy what they return and what they
    store. *)
Section interface.
Context {M : Type}.
Local Abbreviation cached := (cached (M := M)).
Definition Get_with (cp : slice → mem (store (M := M)) slice) (now : Lru.Time) (key : string) : mem cached (option slice) := λ c,
  match Lru.Get (lru c) now key with
  | (None, l) => Some (None, mkCached (mem_of c) l)
  | (Some s, l) => match cp s (mem_of c) with Some (r, st) => Some (Some r, mkCached st l) | None => None end
  end.
Definition Set_with (cp : slice → mem (store (M := M)) slice) (now : Lru.Time) (key : string) (s : slice) : mem cached unit := λ c,
  match cp s (mem_of c) with Some (r, st) => Some (tt, mkCached st (Lru.Set_ (lru c) now key r)) | None => None end.
End interface.
Class CopyingCache (M : Type) := {
  cc_Get : option nat → Lru.Time → string → mem (cached (M := M)) (option slice);
  cc_Set : option nat → Lru.Time → string → slice → mem (cached (M := M)) unit;
  cc_copy : option nat → slice → mem (store (M := M)) slice;
  cc_copies pick : copies (cc_copy pick);
  cc_Get_copies pick now key c : cc_Get pick now key c = Get_with (cc_copy pick) now key c;
  cc_Set_copies pick now key s c : cc_Set pick now key s c = Set_with (cc_copy pick) now key s c
}.
Program Definition FilterCache {M} (grow : nat → nat) (grow_gt : ∀ n, n < grow n) : CopyingCache M := {|
  cc_Get := filters_Get grow; cc_Set := filters_Set grow; cc_copy := filters_copy grow
|}.
Next Obligation. intros. by apply filters_copies. Qed.
Next Obligation. done. Qed.
Next Obligation.
  intros. unfold filters_Set, Set_with, filters_copy. run_mem. destruct (pooled_copy grow pick s (mem_of c)) as [[[ptr r] st]|]; [|done].
  cbn. by destruct (PutHTTPFilterSlice ptr st) as [[? ?]|].
Qed.
Program Definition ClusterCache {M} : CopyingCache M := {|
  cc_Get _ := clusters_Get; cc_Set _ := clusters_Set; cc_copy _ := direct_copy
|}.
Next Obligation. intros. apply clusters_copies. Qed.
Next Obligation. done. Qed.
Next Obligation. done. Qed.

Section callers.
Context {M : Type} `{CC : !CopyingCache M}.
Local Abbreviation cached := (cached (M := M)).

(** The memory and the cache, and the messages and arrays that callers hold: those
    they made and those the cache gave them. *)
Record world := mkWorld { cache_of : cached; kmsgs : gset nat; karrs : gset nat }.
(** What callers do: make a message or change one they hold in any way; make an array
    or write to one they hold; call the cache. *)
Inductive action :=
| ANew (m : M) | AAssign (p : nat) (m : M) | AMake (n : nat) | AWrite (a i : nat) (c : option nat)
| AGet (pick : option nat) (now : Lru.Time) (key : string)
| ASet (pick : option nat) (now : Lru.Time) (key : string) (s : slice)
| ARemove (key : string) | AClear | ARemoveExpired (now : Lru.Time).
(** What the cache was asked and answered, with the messages at that moment. *)
Inductive event :=
| EGet (now : Lru.Time) (key : string) (r : option (list (option M)))
| ESet (now : Lru.Time) (key : string) (v : list (option M))
| ERemove (key : string) | EClear | ERemoveExpired (now : Lru.Time) (n : nat).

Local Abbreviation mem_heap w := (mem_of (cache_of w)).1.
Definition with_mem {A} (m : mem (heap M) A) (w : world) (f : A → cached → world) : option world :=
  match on_heap m (mem_of (cache_of w)) with Some (a, st) => Some (f a (mkCached st (lru (cache_of w)))) | None => None end.
Definition pointers (cs : list (option nat)) : gset nat := list_to_set (omap id cs).
Definition may_point (w : world) (c : option nat) : bool := match c with Some p => bool_decide (p ∈ kmsgs w) | None => true end.
(** An action on something the caller does not hold is none. *)
Definition act (w : world) (a : action) : option (world * list event) :=
  let quiet (o : option world) := match o with Some w => Some (w, []) | None => None end in
  let h := mem_heap w in
  match a with
  | ANew m => quiet (with_mem (new_msg m) w (λ p c, mkWorld c ({[ p ]} ∪ kmsgs w) (karrs w)))
  | AAssign p m =>
      if decide (p ∈ kmsgs w) then quiet (with_mem (assign p m) w (λ _ c, mkWorld c (kmsgs w) (karrs w))) else Some (w, [])
  | AMake n => quiet (with_mem (new_arr (replicate n None)) w (λ x c, mkWorld c (kmsgs w) ({[ x ]} ∪ karrs w)))
  | AWrite a i c =>
      if decide (a ∈ karrs w ∧ may_point w c = true) then
        quiet (with_mem (cs ← cells a; put_cells a (<[i := c]> cs)) w (λ _ c, mkWorld c (kmsgs w) (karrs w)))
      else Some (w, [])
  | AGet pick now key =>
      match cc_Get pick now key (cache_of w) with
      | None => None
      | Some (None, c) => Some (mkWorld c (kmsgs w) (karrs w), [EGet now key None])
      | Some (Some s, c) =>
          let h := (mem_of c).1 in
          Some (mkWorld c (pointers (contents h s) ∪ kmsgs w) ({[ arr s ]} ∪ karrs w), [EGet now key (Some (value h s))])
      end
  | ASet pick now key s =>
      if decide (arr s ∈ karrs w ∧ len s ≤ length (default [] (arrs h !! arr s))) then
        match cc_Set pick now key s (cache_of w) with
        | None => None
        | Some (_, c) => Some (mkWorld c (kmsgs w) (karrs w), [ESet now key (value h s)])
        end
      else Some (w, [])
  | ARemove key => Some (mkWorld (mkCached (mem_of (cache_of w)) (Lru.Remove (lru (cache_of w)) key)) (kmsgs w) (karrs w), [ERemove key])
  | AClear => Some (mkWorld (mkCached (mem_of (cache_of w)) (Lru.Clear (lru (cache_of w)))) (kmsgs w) (karrs w), [EClear])
  | ARemoveExpired now =>
      let '(n, l) := Lru.RemoveExpired (lru (cache_of w)) now in
      Some (mkWorld (mkCached (mem_of (cache_of w)) l) (kmsgs w) (karrs w), [ERemoveExpired now n])
  end.
Fixpoint acts (w : world) (l : list action) : option (world * list event) :=
  match l with
  | [] => Some (w, [])
  | a :: l =>
      match act w a with
      | None => None
      | Some (w, es) => match acts w l with Some (w, es') => Some (w, es ++ es') | None => None end
      end
  end.

(** The cache of values answers this way. *)
Fixpoint conforms (v : Lru.LRUCache (list (option M))) (es : list event) : Prop :=
  match es with
  | [] => True
  | EGet now key r :: es => (Lru.Get v now key).1 = r ∧ conforms (Lru.Get v now key).2 es
  | ESet now key x :: es => conforms (Lru.Set_ v now key x) es
  | ERemove key :: es => conforms (Lru.Remove v key) es
  | EClear :: es => conforms (Lru.Clear v) es
  | ERemoveExpired now n :: es => (Lru.RemoveExpired v now).1 = n ∧ conforms (Lru.RemoveExpired v now).2 es
  end.

(** *** The invariant: callers and cache share nothing *)
Record inv (w : world) (v : Lru.LRUCache (list (option M))) : Prop := {
  in_pool : pwf (mem_of (cache_of w));
  in_kmsgs p : p ∈ kmsgs w → is_Some (msgs (mem_heap w) !! p);
  in_karrs a : a ∈ karrs w → ¬ pool_arr (mem_of (cache_of w)) a ∧
    ∃ cs, arrs (mem_heap w) !! a = Some cs ∧ ∀ p, Some p ∈ cs → p ∈ kmsgs w;
  in_cached s : holds (lru (cache_of w)) s → readable (mem_heap w) s ∧ (arr s ∉ karrs w) ∧
    ¬ pool_arr (mem_of (cache_of w)) (arr s) ∧ ∀ p, Some p ∈ contents (mem_heap w) s → p ∉ kmsgs w;
  in_spec : v = lru_map (value (mem_heap w)) (lru (cache_of w))
}.
(** A step of the memory that leaves the cached slices alone. *)
Lemma inv_mem w v st' K A : inv w v → pwf st' →
  (∀ p, p ∈ K → is_Some (msgs st'.1 !! p)) →
  (∀ a, a ∈ A → ¬ pool_arr st' a ∧ ∃ cs, arrs st'.1 !! a = Some cs ∧ ∀ p, Some p ∈ cs → p ∈ K) →
  (∀ s, holds (lru (cache_of w)) s → readable st'.1 s ∧ contents st'.1 s = contents (mem_heap w) s ∧
     value st'.1 s = value (mem_heap w) s ∧ (arr s ∉ A) ∧ ¬ pool_arr st' (arr s) ∧
     ∀ p, Some p ∈ contents (mem_heap w) s → p ∉ K) →
  inv (mkWorld (mkCached st' (lru (cache_of w))) K A) v.
Proof.
  intros [Hp Hk Ha Hc ->] Hp' HK HA HS. split; cbn; [done..| |].
  - intros s Hs. destruct (HS s Hs) as (? & Hcont & ? & ? & ? & ?). by rewrite Hcont.
  - apply lru_map_ext. intros s Hs. symmetry. by apply HS.
Qed.
Lemma inv_lru w v l : inv w v → (∀ s, holds l s → holds (lru (cache_of w)) s) →
  inv (mkWorld (mkCached (mem_of (cache_of w)) l) (kmsgs w) (karrs w)) (lru_map (value (mem_heap w)) l).
Proof. intros [Hp Hk Ha Hc ->] Hl. split; cbn; auto. Qed.
Lemma pwf_grows (st : store (M := M)) (h' : heap M) X : pwf st → grows X none st.1 h' → hdrs h' = hdrs st.1 → pwf (h', st.2).
Proof.
  intros [Hw Hnd Hs] Hg Hh. split; [apply Hg|done|]. cbn. rewrite Hh. intros p Hp. destruct (Hs p Hp) as (t & Ht & Hl & Ho).
  exists t. split_and!; [done..|]. by eapply owned_grows.
Qed.
Lemma pool_arr_hdrs (st : store (M := M)) (h' : heap M) a : hdrs h' = hdrs st.1 → pool_arr (h', st.2) a ↔ pool_arr st a.
Proof. intros Hh. unfold pool_arr. cbn. by rewrite Hh. Qed.
Lemma contents_msgs (h : heap M) s p : readable h s → Some p ∈ contents h s → is_Some (msgs h !! p).
Proof. intros (cs & Hcs & _ & Hp) Hin. apply Hp. unfold contents in Hin. by rewrite Hcs in Hin. Qed.

(** A step that allocates: the callers hold a new message or a new array. *)
Lemma inv_alloc w v h' K A : inv w v → grows none none (mem_heap w) h' → hdrs h' = hdrs (mem_heap w) →
  (∀ p, p ∈ K → p ∈ kmsgs w ∨ brk (mem_heap w) ≤ p ∧ is_Some (msgs h' !! p)) → kmsgs w ⊆ K →
  (∀ a, a ∈ A → a ∈ karrs w ∨ brk (mem_heap w) ≤ a ∧ ∃ cs, arrs h' !! a = Some cs ∧ ∀ p, Some p ∈ cs → p ∈ K) →
  inv (mkWorld (mkCached (h', (mem_of (cache_of w)).2) (lru (cache_of w))) K A) v.
Proof.
  intros Hi Hg Hh HK HKs HA. pose proof Hi as [Hp Hk Ha Hc _]. pose proof (pw_heap _ Hp) as Hw.
  apply inv_mem; [done|by eapply pwf_grows|..]; cbn.
  - intros p [Hp1|[_ ?]]%HK; [|done]. destruct (Hk p Hp1) as [m Hm]. exists m. by eapply gr_msgs.
  - intros a Hain. rewrite pool_arr_hdrs by done. destruct (HA a Hain) as [Ha1|[Hf ?]].
    + destruct (Ha a Ha1) as (? & cs & Hcs & Hcp). split; [done|]. exists cs. split; [|intros p ?%Hcp; by apply HKs].
      apply (gr_arrs _ _ _ _ Hg); [by intros []|done].
    + split; [|done]. intros (q & t & Hq & Ht & <-). destruct (pw_slices _ Hp q Hq) as (t' & Ht' & _ & cs & Hcs & _).
      assert (t' = t) as -> by congruence. assert (arr t < brk (mem_heap w)) by (apply (hw_arrs _ Hw); eauto). lia.
  - intros s Hs. destruct (Hc s Hs) as (Hr & Hna & Hnp & Hnk).
    destruct (readable_grows _ _ _ _ s Hg (λ x, x) Hr) as (? & ? & ?). rewrite pool_arr_hdrs by done. split_and!; [done..| |done|].
    + intros [?|[Hf _]]%HA; [done|]. destruct Hr as (cs & Hcs & _).
      assert (arr s < brk (mem_heap w)) by (apply (hw_arrs _ Hw); eauto). lia.
    + intros p Hin [?|[Hf _]]%HK; [by eapply Hnk|].
      assert (p < brk (mem_heap w)) by (apply (hw_msgs _ Hw); by eapply contents_msgs). lia.
Qed.
(** A copy: what the callers hold and what the cache holds is as before, and the copy
    belongs to neither. *)
Lemma inv_copied w v s r st' : inv w v → copied (mem_of (cache_of w)) s r st' →
  inv (mkWorld (mkCached st' (lru (cache_of w))) (kmsgs w) (karrs w)) v ∧
  (arr r ∉ karrs w) ∧ (∀ p, Some p ∈ contents st'.1 r → p ∉ kmsgs w) ∧
  ∀ x, holds (lru (cache_of w)) x → arr x ≠ arr r ∧ ∀ p, Some p ∈ contents st'.1 x → Some p ∉ contents st'.1 r.
Proof.
  intros Hi Hcp. pose proof Hi as [Hp Hk Ha Hc _]. pose proof Hcp as [Hp' Hg Hpool [Hra Hrp] Hcells Hlen Hsince Hread _].
  pose proof (pw_heap _ Hp) as Hw. set (h := mem_heap w) in *.
  assert (∀ p, Some p ∈ contents st'.1 r → brk h ≤ p) as Hfresh.
  { intros p Hin. rewrite Forall_forall in Hsince. exact (Hsince _ Hin p eq_refl). }
  assert (∀ a, is_Some (arrs h !! a) → ¬ pool_arr (mem_of (cache_of w)) a → ¬ pool_arr st' a) as Hnp.
  { intros a ?%(hw_arrs _ Hw) Hn [?|?]%Hpool; [done|]. lia. }
  split_and!.
  - apply inv_mem; [done|done|..].
    + intros p Hpin. destruct (Hk p Hpin) as [m Hm]. exists m. by eapply gr_msgs.
    + intros a Hain. destruct (Ha a Hain) as (Hna & cs & Hcs & Hcsp). split; [apply Hnp; eauto|]. exists cs. split; [|done].
      by eapply gr_arrs.
    + intros x Hx. destruct (Hc x Hx) as (Hr & Hna & Hnpx & Hnk). destruct (readable_grows _ _ _ _ x Hg Hnpx Hr) as (? & ? & ?).
      split_and!; try done. apply Hnp; [|done]. destruct Hr as (cs & Hcs & _). eauto.
  - intros Hin. destruct (Ha _ Hin) as (_ & cs & Hcs & _). assert (arr r < brk h) by (apply (hw_arrs _ Hw); eauto). lia.
  - intros p Hin Hpk. specialize (Hfresh p Hin). assert (p < brk h) by (apply (hw_msgs _ Hw), Hk, Hpk). lia.
  - intros x Hx. destruct (Hc x Hx) as (Hr & _ & Hnpx & _). destruct (readable_grows _ _ _ _ x Hg Hnpx Hr) as (_ & Hcx & _). split.
    + intros E. destruct Hr as (cs & Hcs & _). assert (arr x < brk h) by (apply (hw_arrs _ Hw); eauto). lia.
    + intros p Hin Hin2%Hfresh. rewrite Hcx in Hin. apply contents_msgs in Hin; [|done]. apply (hw_msgs _ Hw) in Hin. lia.
Qed.
Lemma elem_of_take_sub {A} n (l : list A) x : x ∈ take n l → x ∈ l.
Proof. intros (i & ? & _)%elem_of_take. by eapply list_elem_of_lookup_2. Qed.
Lemma elem_of_insert_sub {A} (i : nat) (y : A) (l : list A) x : x ∈ <[i := y]> l → x = y ∨ x ∈ l.
Proof.
  intros (j & Hj)%list_elem_of_lookup_1. apply list_lookup_insert_Some in Hj as [(_ & <- & _)|[_ Hj]]; [by left|right].
  by eapply list_elem_of_lookup_2.
Qed.
Lemma pointers_spec cs p : p ∈ pointers cs ↔ Some p ∈ cs.
Proof. unfold pointers. rewrite elem_of_list_to_set, list_elem_of_omap. split; [intros (c & ? & ?); cbn in *; congruence|]. by exists (Some p). Qed.

(** Giving a copy to a caller. *)
Lemma inv_give w v s r st' : inv w v → copied (mem_of (cache_of w)) s r st' →
  inv (mkWorld (mkCached st' (lru (cache_of w))) (pointers (contents st'.1 r) ∪ kmsgs w) ({[ arr r ]} ∪ karrs w)) v.
Proof.
  intros Hi Hcp. destruct (inv_copied w v s r st' Hi Hcp) as ([Hp Hk Ha Hc Hsp] & Hra & Hrp & Hsep). cbn in *. split; cbn; [done|..|done].
  - intros p [Hin%pointers_spec|?]%elem_of_union; [|by apply Hk]. by eapply cp_read.
  - intros a [->%elem_of_singleton|Hin]%elem_of_union.
    + split; [exact (proj2 (cp_arr _ _ _ _ Hcp))|]. exists (contents st'.1 r). split; [exact (cp_cells _ _ _ _ Hcp)|].
      intros p Hin. apply elem_of_union_l. by apply pointers_spec.
    + destruct (Ha a Hin) as (? & cs & ? & Hcs). split; [done|]. exists cs. split; [done|]. intros p ?%Hcs. set_solver.
  - intros x Hx. destruct (Hc x Hx) as (? & ? & ? & Hnk). destruct (Hsep x Hx) as [Hne Hdis]. split_and!; [done|set_solver|done|].
    intros p Hin [Hin2%pointers_spec|?]%elem_of_union; [by eapply Hdis|by eapply Hnk].
Qed.
(** Storing a copy. *)
Lemma inv_keep w v s r st' now key : inv w v → copied (mem_of (cache_of w)) s r st' →
  inv (mkWorld (mkCached st' (Lru.Set_ (lru (cache_of w)) now key r)) (kmsgs w) (karrs w))
    (Lru.Set_ v now key (value (mem_heap w) s)).
Proof.
  intros Hi Hcp. destruct (inv_copied w v s r st' Hi Hcp) as ([Hp Hk Ha Hc Hsp] & Hra & Hrp & Hsep). cbn in *. split; cbn; [done|done|done|..].
  - intros x [->|Hx]%Set_holds; [|by apply Hc]. split_and!; [|done|exact (proj2 (cp_arr _ _ _ _ Hcp))|done].
    exists (contents st'.1 r). split; [exact (cp_cells _ _ _ _ Hcp)|]. rewrite (cp_len _ _ _ _ Hcp). split; [done|].
    intros p. rewrite take_ge by done. apply (cp_read _ _ _ _ Hcp).
  - rewrite Hsp, <-(cp_value _ _ _ _ Hcp). by rewrite map_Set.
Qed.
Lemma inv_assign w v p m : inv w v → p ∈ kmsgs w →
  inv (mkWorld (mkCached (mkHeap (<[p := m]> (msgs (mem_heap w))) (arrs (mem_heap w)) (hdrs (mem_heap w)) (brk (mem_heap w)),
    (mem_of (cache_of w)).2) (lru (cache_of w))) (kmsgs w) (karrs w)) v.
Proof.
  intros Hi Hpk. pose proof Hi as [Hp Hk Ha Hc _]. pose proof (Hk p Hpk) as Hm. pose proof (pw_heap _ Hp) as [Hw1 Hw2 Hw3].
  assert (∀ q, is_Some (<[p := m]> (msgs (mem_heap w)) !! q) ↔ is_Some (msgs (mem_heap w) !! q)) as Hdom.
  { intros q. rewrite lookup_insert_is_Some. destruct (decide (p = q)) as [->|]; naive_solver. }
  apply inv_mem; [done| |intros q Hq; cbn; by apply Hdom, Hk|done|].
  - split; [split; cbn; [intros q ?%Hdom; auto|done|done]|apply Hp|apply Hp].
  - intros s Hs. destruct (Hc s Hs) as (Hr & ? & ? & Hnk). destruct Hr as (cs & Hcs & Hl & Hps). split_and!; try done.
    + exists cs. split_and!; [done..|]. intros q Hq. cbn. apply Hdom, Hps, Hq.
    + unfold value. apply list_fmap_ext. intros i c Hic. apply list_elem_of_lookup_2 in Hic. destruct c as [q|]; [|done].
      cbn. rewrite lookup_insert_ne; [done|]. intros <-. by eapply Hnk.
Qed.
Lemma inv_write w v a i c cs : inv w v → a ∈ karrs w → may_point w c = true → arrs (mem_heap w) !! a = Some cs →
  inv (mkWorld (mkCached (mkHeap (msgs (mem_heap w)) (<[a := <[i := c]> cs]> (arrs (mem_heap w))) (hdrs (mem_heap w))
    (brk (mem_heap w)), (mem_of (cache_of w)).2) (lru (cache_of w))) (kmsgs w) (karrs w)) v.
Proof.
  intros Hi Hak Hpt Hcs. pose proof Hi as [Hp Hk Ha Hc _].
  pose proof (put_cells_grows (mem_heap w) a cs (<[i := c]> cs) (pw_heap _ Hp) Hcs ltac:(by rewrite length_insert)) as Hg.
  apply inv_mem; [done|by eapply pwf_grows|done|..].
  - intros b Hb. cbn. rewrite pool_arr_hdrs by done. destruct (Ha b Hb) as (? & cs' & Hcs' & Hps). split; [done|].
    destruct (decide (b = a)) as [->|]; [rewrite lookup_insert_eq|rewrite lookup_insert_ne by done; eauto].
    exists (<[i := c]> cs). split; [done|]. intros p Hin. assert (cs' = cs) as -> by congruence.
    apply elem_of_insert_sub in Hin as [<-|Hin]; [|by apply Hps]. by apply bool_decide_eq_true in Hpt.
  - intros s Hs. destruct (Hc s Hs) as (Hr & ? & ? & Hnk). rewrite pool_arr_hdrs by done.
    destruct (readable_grows _ _ _ _ s Hg) as (? & ? & ?); [intros E; congruence|done|]. done.
Qed.
Lemma inv_source w v s : inv w v → arr s ∈ karrs w → len s ≤ length (default [] (arrs (mem_heap w) !! arr s)) →
  readable (mem_heap w) s ∧ ¬ pool_arr (mem_of (cache_of w)) (arr s).
Proof.
  intros [Hp Hk Ha Hc _] Hs Hl. destruct (Ha _ Hs) as (Hnp & cs & Hcs & Hps). split; [|done]. exists cs. rewrite Hcs in Hl. split_and!; [done..|].
  intros p Hin. apply Hk, Hps. by eapply elem_of_take_sub.
Qed.

Lemma act_inv w v a : inv w v →
  ∃ w' es v', act w a = Some (w', es) ∧ inv w' v' ∧ ∀ es', conforms v' es' → conforms v (es ++ es').
Proof.
  intros Hi. pose proof Hi as [Hp Hk Ha Hc Hsp]. pose proof (pw_heap _ Hp) as Hw.
  destruct a as [m|p m|n|a i c|pick now key|pick now key s|key| |now]; cbn [act].
  - do 2 eexists. exists v. split; [reflexivity|]. split; [|done]. apply inv_alloc; [done|by apply new_msg_grows|done|..]; [|set_solver|by left].
    intros p [->%elem_of_singleton|?]%elem_of_union; [right; cbn; rewrite lookup_insert_eq; eauto|by left].
  - case_decide as Hd; [|by exists w, [], v]. unfold with_mem, on_heap, assign. destruct (Hk p Hd) as [m0 Hm]. run_mem. rewrite Hm.
    do 2 eexists. exists v. split; [reflexivity|]. split; [by apply inv_assign|done].
  - do 2 eexists. exists v. split; [reflexivity|]. split; [|done]. apply inv_alloc; [done|by apply new_arr_grows|done|by left|done|].
    intros b [->%elem_of_singleton|?]%elem_of_union; [right|by left]. cbn. rewrite lookup_insert_eq. split; [done|].
    eexists. split; [done|]. intros p [? _]%elem_of_replicate. done.
  - case_decide as Hd; [|by exists w, [], v]. destruct Hd as [Hak Hpt]. destruct (Ha a Hak) as (_ & cs & Hcs & _).
    unfold with_mem, on_heap, cells. run_mem. rewrite Hcs. do 2 eexists. exists v. split; [reflexivity|]. split; [by apply inv_write|done].
  - rewrite cc_Get_copies. unfold Get_with. pose proof (map_Get (value (mem_heap w)) (lru (cache_of w)) now key) as Hget. rewrite <-Hsp in Hget.
    destruct (Get_holds (lru (cache_of w)) now key) as [Hl Hr]. pose proof (inv_lru w v _ Hi Hl) as Hi'.
    destruct (Lru.Get (lru (cache_of w)) now key) as [[s|] l]; cbn in Hget, Hi'.
    + destruct (Hc s (Hr s eq_refl)) as (Hread & _ & Hnp & _).
      destruct (cc_copies pick (mem_of (cache_of w)) s Hp Hread Hnp) as (r & st' & Hrun & Hcp). rewrite Hrun.
      do 3 eexists. split; [reflexivity|]. split; [exact (inv_give _ _ s r st' Hi' Hcp)|]. intros es' He. cbn [app conforms].
      rewrite Hget. cbn. split; [|done]. by rewrite (cp_value _ _ _ _ Hcp).
    + do 3 eexists. split; [reflexivity|]. split; [exact Hi'|]. intros es' He. cbn [app conforms]. by rewrite Hget.
  - case_decide as Hd; [|by exists w, [], v]. destruct Hd as [Hs Hl]. destruct (inv_source w v s Hi Hs Hl) as [Hread Hnp].
    rewrite cc_Set_copies. unfold Set_with.
    destruct (cc_copies pick (mem_of (cache_of w)) s Hp Hread Hnp) as (r & st' & Hrun & Hcp). rewrite Hrun.
    do 3 eexists. split; [reflexivity|]. split; [exact (inv_keep w v s r st' now key Hi Hcp)|]. done.
  - do 3 eexists. split; [reflexivity|]. split; [eapply inv_lru; [exact Hi|]; intros s; apply Remove_holds|]. cbn. by rewrite Hsp, map_Remove.
  - do 3 eexists. split; [reflexivity|]. split; [eapply inv_lru; [exact Hi|]; intros s (e & i & Hei & _); cbn in Hei; by rewrite lookup_empty in Hei|].
    cbn. rewrite Hsp. unfold lru_map, Lru.Clear. cbn. by rewrite fmap_empty.
  - pose proof (map_RemoveExpired (value (mem_heap w)) (lru (cache_of w)) now) as Hre. rewrite <-Hsp in Hre.
    pose proof (RemoveExpired_holds (lru (cache_of w)) now) as Hl. destruct (Lru.RemoveExpired (lru (cache_of w)) now) as [n l]. cbn in Hre, Hl.
    do 3 eexists. split; [reflexivity|]. split; [eapply inv_lru; [exact Hi|exact Hl]|]. intros es' He. cbn. rewrite Hre. done.
Qed.
Definition empty_world (capacity : Z) (ttl : Lru.Time) : world :=
  mkWorld (mkCached (mkHeap ∅ ∅ ∅ 0, []) (Lru.NewTypedLRUCache capacity ttl)) ∅ ∅.
Lemma empty_inv capacity ttl : inv (empty_world capacity ttl) (Lru.NewTypedLRUCache capacity ttl).
Proof.
  split; cbn; try set_solver.
  - split; cbn; [split; cbn; intros p [? Hp]; by rewrite lookup_empty in Hp|constructor|set_solver].
  - intros s (e & i & Hei & _). cbn in Hei. by rewrite lookup_empty in Hei.
Qed.
Lemma acts_conform l : ∀ w v, inv w v → ∃ w' es, acts w l = Some (w', es) ∧ conforms v es.
Proof.
  induction l as [|a l IH]; intros w v Hi; [by exists w, []|]. cbn [acts].
  destruct (act_inv w v a Hi) as (w1 & es1 & v1 & -> & Hi1 & Hconf). destruct (IH w1 v1 Hi1) as (w2 & es2 & -> & Hes).
  exists w2, (es1 ++ es2). split; [done|]. by apply Hconf.
Qed.
End callers.
Arguments action M : clear implicits.
Arguments event M : clear implicits.

(** C17. The caches of messages are caches of values: whatever sequence of calls is
    made, and whatever the callers do in between to the messages and arrays they
    made or got from the cache, the calls do not panic, and every look-up gives what
    a cache of immutable values would give that had stored the messages as they were
    when they were passed in.  It holds for the cache of filters, for any behaviour
    of the pool of slices, and for the cache of clusters. *)
Theorem caches_isolated {M} (grow : nat → nat) (grow_gt : ∀ n, n < grow n) capacity ttl (l : list (action M)) :
  (∃ w es, acts (CC := FilterCache grow grow_gt) (empty_world capacity ttl) l = Some (w, es) ∧
     conforms (Lru.NewTypedLRUCache capacity ttl) es) ∧
  (∃ w es, acts (CC := ClusterCache) (empty_world capacity ttl) l = Some (w, es) ∧
     conforms (Lru.NewTypedLRUCache capacity ttl) es).
Proof. split; eapply acts_conform, empty_inv. Qed.

(** ** Examples *)
Module Examples.
Definition double (n : nat) : nat := S (2 * n).
Lemma double_gt n : n < double n.
Proof. unfold double. lia. Qed.
(** A message is made and cached; the caller changes it, and changes the one it gets
    from the cache; then another list is cached through the same pooled slice. *)
Definition calls : list (action string) :=
  [AMake 1; ANew "a"; AWrite 0 0 (Some 1); ASet None 0 "k" (mkSlice 0 1 1); AAssign 1 "changed";
   AGet (Some 0) 1 "k"; AAssign 6 "changed"; ASet (Some 0) 2 "k2" (mkSlice 0 1 1); AGet (Some 0) 3 "k"].
Definition answers : list (event string) :=
  [ESet 0 "k" [Some "a"]; EGet 1 "k" (Some [Some "a"]); ESet 2 "k2" [Some "changed"]; EGet 3 "k" (Some [Some "a"])].
(** Storing the slice of the pool itself, as an earlier version did. *)
Definition pooled_Set (pick : option nat) (now : Lru.Time) (key : string) (filters : slice) : mem (cached (M := string)) unit := λ c,
  match (r ← pooled_copy double pick filters; t ← on_heap (header r.1); _ ← PutHTTPFilterSlice r.1; mret t) (mem_of c) with
  | Some (t, s) => Some (tt, mkCached s (Lru.Set_ (lru c) now key t))
  | None => None
  end.
Definition two_calls : mem (cached (M := string)) (option slice) :=
  _ ← pooled_Set None 0 "k" (mkSlice 0 1 1); _ ← pooled_Set (Some 0) 1 "k2" (mkSlice 1 1 1); filters_Get double (Some 0) 2 "k".
Definition two_lists : cached :=
  mkCached (mkHeap {[ 2 := "a"; 3 := "b" ]} {[ 0 := [Some 2]; 1 := [Some 3] ]} ∅ 4, []) (Lru.NewTypedLRUCache 10 0).
End Examples.
Import Examples.
Lemma caches_isolated_witness :
  ∃ w, acts (CC := FilterCache double double_gt) (empty_world 10 0) calls = Some (w, answers) ∧
    conforms (Lru.NewTypedLRUCache 10 0) answers.
Proof.
  destruct (proj1 (caches_isolated double double_gt 10 0 calls)) as (w & es & Hrun & Hes). exists w.
  assert (es = answers) as ->; [|split; [exact Hrun|exact Hes]].
  assert ((snd <$> acts (CC := FilterCache double double_gt) (empty_world 10 0) calls) = Some answers) as Hc by (vm_compute; reflexivity).
  rewrite Hrun in Hc. cbn in Hc. injection Hc as ->. reflexivity.
Defined.
(** Then the second list overwrites the first one in the cache. *)
Example pooled_slice_corrupts :
  (λ r : option slice * cached, (λ s, value (mem_of r.2).1 s) <$> r.1) <$> two_calls two_lists = Some (Some [Some "b"]).
Proof. vm_compute. reflexivity. Qed.
End MessageCache.
