(* ===== verification/Routes.v ===== *)
(** * [internal/xds/resbuilder/routes/builder.go]: route configurations

    The virtual host of a service with its additional routes, the position of
    the root route, and the fallback virtual host of TLS listeners. *)

From S2P Require Import Prelude GoStrings Types Merge Api ResUtils StringPool DomainSecrets Store.

Module Routes.
Import Envoy.

Section routes.
Context `{!ProtoMessage VirtualHost} `{!ProtoMessage RouteV3} `{!ProtoMessage RouteConfiguration}.
(** The builder's field [store]. *)
Context (store : Store.OptimizedStore).

(** The loop over the weighted clusters. *)
Definition check_weighted (name : string) : result unit :=
  fail_if (bool_decide (name ≠ "") && bool_decide (Store.GetSpecCluster store name = None))
    (ErrNew ("weighted cluster " +:+ name +:+ " not found")).

Definition validateRouteClusterReferences (route : RouteV3) : result unit :=
  match rAction route with
  | Some (ActRoute (Some (SpecCluster c)) _) =>
      fail_if (bool_decide (c ≠ "") && bool_decide (Store.GetSpecCluster store c = None))
        (ErrNew ("cluster " +:+ c +:+ " not found"))
  | Some (ActRoute (Some (SpecWeighted (Some cs))) _) => _ ← map_result check_weighted cs; Ok tt
  | _ => Ok tt
  end.

(** One specification of a referenced route, with its index. *)
Definition build_route (namespace routeName : string) (p : nat * RawExtension) : result RouteV3 :=
  let at_ := namespace +:+ "/" +:+ routeName +:+ "[" +:+ GoStrings.Itoa (Z.of_nat p.1) +:+ "]" in
  r ← wrap_err ("failed to unmarshal route " +:+ at_) (pb_unmarshal (raw_bytes p.2));
  _ ← wrap_err ("invalid cluster reference in route " +:+ at_) (validateRouteClusterReferences r);
  Ok r.
Definition buildRoutesFromSpec (routeSpecs : list RawExtension) (namespace routeName : string)
  : result (list RouteV3) :=
  map_result (build_route namespace routeName) (imap pair routeSpecs).

Definition routes_of_ref (vsNamespace : string) (routeRef : ResourceRef) : result (list RouteV3) :=
  let routeRefNs := Helpers.GetNamespace (refNamespace routeRef) vsNamespace in
  match Store.GetRoute store (Helpers.mkNN routeRefNs (refName routeRef)) with
  | None => Err (ErrNew ("route " +:+ routeRefNs +:+ "/" +:+ refName routeRef +:+ " not found"))
  | Some route => buildRoutesFromSpec (r_spec route) routeRefNs (refName routeRef)
  end.
Definition buildAdditionalRoutes (routeRefs : list ResourceRef) (vsNamespace : string)
  : result (list RouteV3) :=
  ls ← map_result (routes_of_ref vsNamespace) routeRefs; Ok (concat ls).

(** [rMatch] is [None] when [route.Match] is nil. *)
Definition isRootRoute (route : RouteV3) : bool :=
  match rMatch route with
  | Some (Prefix p) => bool_decide (p = "/")
  | Some (Path p) => bool_decide (p = "/")
  | _ => false
  end.

Definition findRootRouteIndexes (routes : list RouteV3) : list nat := indexes isRootRoute routes.

Definition set_routes (vh : VirtualHost) (rs : list RouteV3) : VirtualHost :=
  mkVH (vhName vh) (vhDomains vh) rs (vhRest vh).
Definition set_name (vh : VirtualHost) (n : string) : VirtualHost :=
  mkVH n (vhDomains vh) (vhRoutes vh) (vhRest vh).

Definition moveRouteToEnd (vh : VirtualHost) (index : nat) : VirtualHost :=
  set_routes vh (move_to_end index (vhRoutes vh)).

Definition reorderRoutes (vh : VirtualHost) : result VirtualHost :=
  if decide (length (vhRoutes vh) ≤ 1) then Ok vh
  else
    match findRootRouteIndexes (vhRoutes vh) with
    | [] => Ok vh
    | [rootIndex] =>
        if decide (rootIndex ≠ length (vhRoutes vh) - 1) then Ok (moveRouteToEnd vh rootIndex) else Ok vh
    | _ => Err (ErrNew "multiple root routes found")
    end.

Definition BuildVirtualHost (vs : VirtualService) (nn : NN) : result VirtualHost :=
  match VirtualHostRaw (Common (vs_spec vs)) with
  | None => Err (ErrNew "virtual host is empty")
  | Some raw =>
      vh ← wrap_err "failed to unmarshal virtual host" (pb_unmarshal (raw_bytes raw));
      let vh := set_name vh (Helpers.String nn) in
      vh ← (if decide (0 < length (AdditionalRoutes (Common (vs_spec vs)))) then
              rs ← wrap_err "failed to build additional routes"
                     (buildAdditionalRoutes (AdditionalRoutes (Common (vs_spec vs)))
                        (Namespace (meta vs)));
              Ok (set_routes vh (vhRoutes vh ++ rs))
            else Ok vh);
      vh ← wrap_err "failed to reorder routes" (reorderRoutes vh);
      vh ← wrap_err "failed to validate virtual host" (pb_check vh);
      _ ← ResUtils.CheckAllDomainsUnique (vhDomains vh);
      Ok vh
  end.

Definition BuildFallbackVirtualHost : VirtualHost :=
  mkVH "421vh" ["*"] [mkRV3 (Some (Prefix "/")) (Some (ActDirectResponse 421 "")) ""] "".

Definition AddFallbackVirtualHostIfNeeded (rc : RouteConfiguration) (vh : VirtualHost)
    (isTLSListener hasPort443 : bool) : RouteConfiguration :=
  if isTLSListener && negb (bool_decide (vhDomains vh = ["*"])) && hasPort443
  then mkRC (rcName rc) (rcVirtualHosts rc ++ [BuildFallbackVirtualHost])
  else rc.

Definition BuildRouteConfiguration (vs : VirtualService) (xdsListener : ListenerV3) (nn : NN)
  : result (VirtualHost * RouteConfiguration) :=
  vh ← BuildVirtualHost vs nn;
  rc ← wrap_err "failed to validate route configuration" (pb_check (mkRC (Helpers.String nn) [vh]));
  Ok (vh, AddFallbackVirtualHostIfNeeded rc vh (ResUtils.IsTLSListener (Some xdsListener))
            (ResUtils.ListenerHasPort443 (Some xdsListener))).

(** ** Properties *)

Lemma fail_unless_cluster c e :
  fail_if (bool_decide (c ≠ "") && bool_decide (Store.GetSpecCluster store c = None)) e = Ok tt ↔
  (c ≠ "" → is_Some (Store.GetSpecCluster store c)).
Proof.
  unfold fail_if. rewrite <-bool_decide_and, <-not_eq_None_Some. case_bool_decide; naive_solver.
Qed.

(** Every cluster that the route sends requests to is in the store. *)
Definition clusters_known (r : RouteV3) : Prop :=
  ∀ c, ResUtils.routes_to r c → c ≠ "" → is_Some (Store.GetSpecCluster store c).
Lemma validateRouteClusterReferences_spec r : validateRouteClusterReferences r = Ok tt → clusters_known r.
Proof.
  unfold validateRouteClusterReferences. intros Hv c [rest Ha|cs rest Ha Hin] Hc; rewrite Ha in Hv.
  - by apply fail_unless_cluster in Hv.
  - destruct (map_result check_weighted cs) as [us|] eqn:Hr; [|done].
    apply map_result_Ok in Hr. apply list_elem_of_lookup in Hin as [i Hi].
    eapply Forall2_lookup_l in Hr as ([] & _ & Hr); [|done]. by apply fail_unless_cluster in Hr.
Qed.

Lemma set_routes_id vh : set_routes vh (vhRoutes vh) = vh.
Proof. by destruct vh. Qed.

(** The routes with the root routes behind the others. *)
Definition root_last (rs : list RouteV3) : list RouteV3 :=
  filter (λ r, ¬ isRootRoute r) rs ++ filter isRootRoute rs.

Lemma reorder_alt vh :
  reorderRoutes vh =
  (if decide (1 < length (filter isRootRoute (vhRoutes vh)))
   then Err (ErrNew "multiple root routes found")
   else Ok (set_routes vh (root_last (vhRoutes vh)))).
Proof.
  unfold reorderRoutes, findRootRouteIndexes, root_last.
  pose proof (length_indexes 0 isRootRoute (vhRoutes vh)) as Hlen. fold (indexes isRootRoute (vhRoutes vh)) in Hlen.
  case_decide as Hl.
  { assert (length (filter isRootRoute (vhRoutes vh)) ≤ length (vhRoutes vh)) by apply length_filter.
    rewrite decide_False by lia. f_equal. rewrite <-(set_routes_id vh) at 1. f_equal.
    destruct (vhRoutes vh) as [|r [|]]; [done| |cbn in Hl; lia].
    destruct (decide (isRootRoute r)) as [Hr|Hr].
    - rewrite filter_cons_False, filter_cons_True by (done || tauto). done.
    - rewrite filter_cons_True, filter_cons_False by (done || tauto). done. }
  destruct (indexes isRootRoute (vhRoutes vh)) as [|i [|j l]] eqn:Hi; cbn in Hlen; rewrite <-Hlen.
  - rewrite decide_False by lia. symmetry in Hlen. apply filter_none in Hlen as [Hn Hf].
    rewrite Hf, app_nil_r. f_equal. rewrite <-(set_routes_id vh) at 1. by f_equal.
  - rewrite (decide_False (P := 1 < _)) by lia. unfold moveRouteToEnd. rewrite <-(move_to_end_spec _ _ _ Hi).
    case_decide as Hd; [done|]. rewrite (move_last_id _ _ Hd). by rewrite set_routes_id.
  - by rewrite decide_True by lia.
Qed.

(** The root route (prefix or path [/]) is tried last: reordering fails
    exactly when there are several root routes, and otherwise moves the root
    route, if any, behind all other routes, which keep their order. *)
Theorem reorderRoutes_spec vh :
  (reorderRoutes vh = Err (ErrNew "multiple root routes found") ∧
     1 < length (filter isRootRoute (vhRoutes vh))) ∨
  (reorderRoutes vh =
     Ok (set_routes vh (filter (λ r, ¬ isRootRoute r) (vhRoutes vh) ++ filter isRootRoute (vhRoutes vh))) ∧
   length (filter isRootRoute (vhRoutes vh)) ≤ 1).
Proof.
  rewrite reorder_alt. case_decide; [by left|right]. split; [done|lia].
Qed.

(** The routes of a reference: the specifications of the route resource it names, decoded. *)
Definition referenced (ns : string) (ref : ResourceRef) (rs : list RouteV3) : Prop :=
  ∃ route, Store.GetRoute store (Helpers.mkNN (match refNamespace ref with Some n => n | None => ns end) (refName ref)) = Some route ∧
    Forall2 (λ spec r, pb_unmarshal (raw_bytes spec) = Ok r ∧ clusters_known r) (r_spec route) rs.
Lemma build_route_Ok ns name p r :
  build_route ns name p = Ok r → pb_unmarshal (raw_bytes p.2) = Ok r ∧ clusters_known r.
Proof.
  unfold build_route. intros H. apply bind_Ok_inv in H as (r' & H1%wrap_err_Ok & H).
  apply bind_Ok_inv in H as ([] & H2%wrap_err_Ok & [= <-]). split; [done|].
  by apply validateRouteClusterReferences_spec.
Qed.
Lemma routes_of_ref_Ok ns ref rs : routes_of_ref ns ref = Ok rs → referenced ns ref rs.
Proof.
  unfold routes_of_ref, referenced. change (Helpers.GetNamespace (refNamespace ref) ns) with
    (match refNamespace ref with Some n => n | None => ns end).
  destruct (Store.GetRoute _ _) as [route|]; [|done]. intros H%map_result_Ok. exists route. split; [done|].
  apply Forall2_same_length_lookup in H as [Hlen Hi]. rewrite length_imap in Hlen.
  apply Forall2_same_length_lookup. split; [done|]. intros i sp r Hsp Hr.
  eapply (build_route_Ok _ _ (i, sp) r), Hi; [|done]. by rewrite list_lookup_imap, Hsp.
Qed.
Lemma buildAdditionalRoutes_Ok refs ns rs :
  buildAdditionalRoutes refs ns = Ok rs → ∃ groups, rs = concat groups ∧ Forall2 (referenced ns) refs groups.
Proof.
  unfold buildAdditionalRoutes. intros H. apply bind_Ok_inv in H as (ls & Hls & [= <-]).
  exists ls. split; [done|]. apply map_result_Ok in Hls. eapply Forall2_impl; [exact Hls|].
  intros ref l. apply routes_of_ref_Ok.
Qed.

(** What a successfully built virtual host is: the decoded host under the name of
    the service, followed by the routes of the references, root route last. *)
Lemma BuildVirtualHost_Ok vs nn vh :
  BuildVirtualHost vs nn = Ok vh →
  ∃ raw base extra,
    VirtualHostRaw (Common (vs_spec vs)) = Some raw ∧ pb_unmarshal (raw_bytes raw) = Ok base ∧
    buildAdditionalRoutes (AdditionalRoutes (Common (vs_spec vs))) (Namespace (meta vs)) = Ok extra ∧
    vh = mkVH (Helpers.String nn) (vhDomains base) (root_last (vhRoutes base ++ extra)) (vhRest base) ∧
    length (filter isRootRoute (vhRoutes base ++ extra)) ≤ 1 ∧
    pb_validate vh = None ∧ NoDup (filter (λ d, d ≠ "") (vhDomains vh)).
Proof.
  unfold BuildVirtualHost. destruct (VirtualHostRaw _) as [raw|]; [|done]. intros H.
  apply bind_Ok_inv in H as (base & Hbase%wrap_err_Ok & H).
  apply bind_Ok_inv in H as (vh1 & H1 & H).
  apply bind_Ok_inv in H as (vh2 & H2%wrap_err_Ok & H).
  apply bind_Ok_inv in H as (vh3 & H3%wrap_err_Ok & H).
  apply bind_Ok_inv in H as ([] & H4%ResUtils.CheckAllDomainsUnique_Ok & [= <-]).
  apply pb_check_Ok in H3 as [-> Hv].
  assert (∃ extra, buildAdditionalRoutes (AdditionalRoutes (Common (vs_spec vs)))
      (Namespace (meta vs)) = Ok extra ∧
    vh1 = set_routes (set_name base (Helpers.String nn)) (vhRoutes base ++ extra)) as (extra & He & ->).
  { case_decide as Hl.
    - apply bind_Ok_inv in H1 as (extra & He%wrap_err_Ok & [= <-]). eauto.
    - injection H1 as <-. exists []. destruct (AdditionalRoutes _); [|cbn in Hl; lia].
      rewrite app_nil_r. split; [done|]. by destruct base. }
  rewrite reorder_alt in H2. case_decide as Hr; [done|]. injection H2 as <-.
  exists raw, base, extra. split_and!; [done..| |done|done]. cbn in Hr. lia.
Qed.

(** The route configuration holds the virtual host, and perhaps the fallback. *)
Lemma BuildRouteConfiguration_hosts vs l nn vh rc :
  BuildRouteConfiguration vs l nn = Ok (vh, rc) →
  rcName rc = Helpers.String nn ∧
  (rcVirtualHosts rc = [vh] ∨ rcVirtualHosts rc = [vh; BuildFallbackVirtualHost]).
Proof.
  unfold BuildRouteConfiguration. intros H. apply bind_Ok_inv in H as (vh' & _ & H).
  apply bind_Ok_inv in H as (rc' & [-> _]%wrap_err_Ok%pb_check_Ok & H).
  apply Ok_pair_inv in H as [-> <-]. unfold AddFallbackVirtualHostIfNeeded.
  destruct (_ && _ && _); cbn; auto.
Qed.

(** The route matches everything or the root path. *)
Definition is_root (r : RouteV3) : Prop := rMatch r = Some (Prefix "/") ∨ rMatch r = Some (Path "/").
#[export] Instance is_root_dec r : Decision (is_root r).
Proof. unfold is_root. apply _. Defined.
Lemma isRootRoute_spec r : isRootRoute r = true ↔ is_root r.
Proof.
  unfold isRootRoute, is_root. destruct (rMatch r) as [[]|]; rewrite ?bool_decide_eq_true; naive_solver.
Qed.

(** C29. A route configuration that is built without an error is named after the service.
    Its first virtual host has that name too, the domains of the service, of which no non-empty one
    is repeated, and the rest of its specification; its routes are those of the specification
    followed, reference by reference, by all routes of the route resources that the service refers to
    (in its own namespace where the reference has none), with the root route, of which there is
    at most one, behind the others.  Every cluster that a referenced route sends requests to
    is in the store.  Exactly for listeners with a TLS inspector on port 443, unless
    the service serves only the wildcard domain, a second virtual host answers 421 to all other
    requests; there are no further ones. *)
Theorem BuildRouteConfiguration_spec vs l nn vh rc :
  BuildRouteConfiguration vs l nn = Ok (vh, rc) →
  let fallback := mkVH "421vh" ["*"] [mkRV3 (Some (Prefix "/")) (Some (ActDirectResponse 421 "")) ""] "" in
  rcName rc = ResUtils.printed nn ∧ vhName vh = ResUtils.printed nn ∧
  NoDup (filter (λ d, d ≠ "") (vhDomains vh)) ∧
  (∃ raw base groups,
    VirtualHostRaw (Common (vs_spec vs)) = Some raw ∧ pb_unmarshal (raw_bytes raw) = Ok base ∧
    vhDomains vh = vhDomains base ∧ vhRest vh = vhRest base ∧
    Forall2 (referenced (Namespace (meta vs))) (AdditionalRoutes (Common (vs_spec vs))) groups ∧
    let all := vhRoutes base ++ concat groups in
    vhRoutes vh = filter (λ r, ¬ is_root r) all ++ filter is_root all ∧ length (filter is_root all) ≤ 1) ∧
  (ResUtils.inspects_tls l ∧ ResUtils.on_port_443 l ∧ vhDomains vh ≠ ["*"] → rcVirtualHosts rc = [vh; fallback]) ∧
  (¬ (ResUtils.inspects_tls l ∧ ResUtils.on_port_443 l ∧ vhDomains vh ≠ ["*"]) → rcVirtualHosts rc = [vh]).
Proof.
  unfold BuildRouteConfiguration. intros H. apply bind_Ok_inv in H as (vh' & Hvh & H).
  apply bind_Ok_inv in H as (rc' & [-> _]%wrap_err_Ok%pb_check_Ok & H).
  apply Ok_pair_inv in H as [-> <-].
  apply BuildVirtualHost_Ok in Hvh as (raw & base & extra & Hraw & Hbase & Hadd & -> & Hone & _ & Hnd).
  apply buildAdditionalRoutes_Ok in Hadd as (groups & -> & Hgroups).
  unfold AddFallbackVirtualHostIfNeeded. cbn [vhDomains vhName vhRoutes vhRest]. rewrite <-ResUtils.String_printed.
  split_and!; [by destruct (_ && _)|done|done| | |].
  - exists raw, base, groups. split_and!; [done..| |].
    + unfold root_last. f_equal; apply list_filter_iff; intros r; by rewrite <-isRootRoute_spec, <-Is_true_true.
    + erewrite list_filter_iff; [exact Hone|]. intros r. by rewrite <-isRootRoute_spec, <-Is_true_true.
  - rewrite <-ResUtils.IsTLSListener_spec, <-ResUtils.ListenerHasPort443_spec. intros (-> & -> & Hd).
    by rewrite bool_decide_eq_false_2.
  - rewrite <-ResUtils.IsTLSListener_spec, <-ResUtils.ListenerHasPort443_spec. intros Hno.
    destruct (ResUtils.IsTLSListener (Some l)), (ResUtils.ListenerHasPort443 (Some l));
      case_bool_decide; cbn; try done. by destruct Hno.
Qed.

(** The fallback host can repeat the wildcard domain: when a service lists
    the wildcard beside another domain on a TLS listener on port 443, the route
    configuration has two virtual hosts for the domain [*]. *)
Theorem fallback_repeats_wildcard vs l nn vh rc :
  BuildRouteConfiguration vs l nn = Ok (vh, rc) →
  ResUtils.IsTLSListener (Some l) = true → ResUtils.ListenerHasPort443 (Some l) = true →
  "*" ∈ vhDomains vh → length (vhDomains vh) ≠ 1 →
  ∃ h1 h2, rcVirtualHosts rc = [h1; h2] ∧ "*" ∈ vhDomains h1 ∧ "*" ∈ vhDomains h2.
Proof.
  unfold BuildRouteConfiguration. intros H Ht Hp Hw Hl.
  apply bind_Ok_inv in H as (vh' & Hvh & H).
  apply bind_Ok_inv in H as (rc' & [-> _]%wrap_err_Ok%pb_check_Ok & H).
  apply Ok_pair_inv in H as [-> <-].
  exists vh, BuildFallbackVirtualHost. unfold AddFallbackVirtualHostIfNeeded.
  rewrite Ht, Hp, bool_decide_eq_false_2 by (by intros E; rewrite E in Hl).
  split; [done|]. split; [done|left].
Qed.


End routes.

(** ** A virtual host with a root route first *)
Module Examples.
Definition route (n p : string) : RouteV3 :=
  mkRV3 (Some (Prefix p)) (Some (ActRoute (Some (SpecCluster n)) "")) "".
Definition vh_pb : ProtoMessage VirtualHost :=
  {| pb_unmarshal s := Ok (mkVH "" ["*"; "a.io"] [route "c1" "/"; route "c2" "/api"] "");
     pb_validate _ := None |}.
Definition route_pb : ProtoMessage RouteV3 :=
  {| pb_unmarshal s := Ok (route "c1" "/x"); pb_validate _ := None |}.
Definition rc_pb : ProtoMessage RouteConfiguration :=
  {| pb_unmarshal s := Ok (mkRC s []); pb_validate _ := None |}.
Definition vs : VirtualService :=
  mkVS (mkMeta "a" "ns" "u" 1 None None)
    (mkVSSpec (mkCommon (Some (mkRaw (Some "vh") None)) None None None [] None [] [] [] [] None None None
       None None None None) None [] ∅) (mkVSObjStatus "" false).
Definition tls_listener : ListenerV3 :=
  mkLV3 "l" (Some (mkAddr (Some (mkSA "0.0.0.0" 443))))
    [mkFilter "tls" (Some (mkAny ResUtils.TLSInspectorTypeURL ""))] [] "".
Definition nn : NN := Helpers.mkNN "ns" "a".
End Examples.

Section witnesses.
#[local] Existing Instances Examples.vh_pb Examples.route_pb Examples.rc_pb.
Lemma BuildRouteConfiguration_spec_witness :
  ∃ vh rc, BuildRouteConfiguration Store.NewOptimizedStore Examples.vs Examples.tls_listener Examples.nn
             = Ok (vh, rc) ∧
    rcVirtualHosts rc = [vh; BuildFallbackVirtualHost] ∧
    vhRoutes vh = [Examples.route "c2" "/api"; Examples.route "c1" "/"].
Proof.
  eexists _, _. split; [vm_compute; reflexivity|].
  split; [|reflexivity].
  refine (proj1 (proj2 (proj2 (proj2 (proj2 (BuildRouteConfiguration_spec Store.NewOptimizedStore
    Examples.vs Examples.tls_listener Examples.nn _ _ _))))) _).
  - vm_compute. reflexivity.
  - split; [|split; [|discriminate]].
    + eexists _, _. split; [left|]. split; reflexivity.
    + eexists _, _. split; [reflexivity|]. split; reflexivity.
Defined.

Lemma fallback_repeats_wildcard_witness :
  ∃ vh rc h1 h2, BuildRouteConfiguration Store.NewOptimizedStore Examples.vs Examples.tls_listener
      Examples.nn = Ok (vh, rc) ∧
    rcVirtualHosts rc = [h1; h2] ∧ "*" ∈ vhDomains h1 ∧ "*" ∈ vhDomains h2.
Proof.
  destruct (BuildRouteConfiguration Store.NewOptimizedStore Examples.vs Examples.tls_listener Examples.nn)
    as [[vh rc]|] eqn:Hb; [|vm_compute in Hb; discriminate Hb].
  destruct (fallback_repeats_wildcard Store.NewOptimizedStore Examples.vs Examples.tls_listener
    Examples.nn vh rc Hb) as (h1 & h2 & H12).
  - reflexivity.
  - reflexivity.
  - vm_compute in Hb. injection Hb as <- <-. left.
  - vm_compute in Hb. injection Hb as <- <-. discriminate.
  - exists vh, rc, h1, h2. split; [reflexivity|exact H12].
Defined.
End witnesses.
End Routes.
