(* ===== verification/Secrets.v ===== *)
(** * [internal/xds/resbuilder/secrets/builder.go]: which secret serves which domain *)

From S2P Require Import Prelude GoStrings Types Api ResUtils StringPool DomainSecrets Store.

Module Secrets.

Definition SecretRefType : string := "secretRef".
Definition AutoDiscoveryType : string := "autoDiscovery".

Definition GetTLSType (tlsConfig : option TlsConfig) : result string :=
  match tlsConfig with
  | None => Err (ErrNew "TLS config is nil")
  | Some c =>
      let '(count, typ) := match SecretRef c with Some _ => (1, SecretRefType) | None => (0, "") end in
      let '(count, typ) :=
        match AutoDiscovery c with Some true => (S count, AutoDiscoveryType) | _ => (count, typ) end in
      match count with
      | 0 => Err (ErrNew "no TLS configuration specified")
      | 1 => Ok typ
      | _ => Err (ErrNew "multiple TLS configuration types specified (only one allowed)")
      end
  end.

Section secrets.
(** The builder's field [store], and the instant at which the secret of a domain
    is looked up. *)
Context (store : Store.OptimizedStore) (clock : string → DomainSecrets.Time).

Definition getSecretNameToDomainsViaSecretRef (secretRef : ResourceRef) (vsNamespace : string)
    (domains : list string) : gmap NN (list string) :=
  {[ Helpers.mkNN (default vsNamespace (refNamespace secretRef)) (refName secretRef) := domains ]}.

(** [b.store.GetDomainSecretWithWildcardFallbackInfo(domain, preferredNamespace).Secret] *)
Definition domain_secret (preferredNamespace domain : string) : option Secret :=
  Store.lSecret (Store.GetDomainSecretWithWildcardFallbackInfo (clock domain) store domain
    preferredNamespace).

Definition discover (preferredNamespace : string) (m : gmap NN (list string)) (domain : string)
  : result (gmap NN (list string)) :=
  match domain_secret preferredNamespace domain with
  | None => Err (ErrNew ("can't find secret for domain " +:+ domain))
  | Some secret =>
      let nn := Helpers.mkNN (Namespace (meta secret)) (Name (meta secret)) in
      Ok (<[nn := default [] (m !! nn) ++ [domain]]> m)
  end.
Definition getSecretNameToDomainsViaAutoDiscovery (domains : list string) (preferredNamespace : string)
  : result (gmap NN (list string)) :=
  fold_result (discover preferredNamespace) ∅ domains.

(** [TlsConfig.SecretRef] is non-nil for the first type; a nil one would panic. *)
Definition GetSecretNameToDomains (vs : VirtualService) (domains : list string)
  : result (gmap NN (list string)) :=
  match TlsCfg (Common (vs_spec vs)) with
  | None => Err (ErrNew "TLS configuration is missing in VirtualService")
  | Some c =>
      tlsType ← GetTLSType (Some c);
      if decide (tlsType = SecretRefType) then
        match SecretRef c with
        | Some ref => Ok (getSecretNameToDomainsViaSecretRef ref (Namespace (meta vs)) domains)
        | None => Err nil_deref
        end
      else if decide (tlsType = AutoDiscoveryType) then
        getSecretNameToDomainsViaAutoDiscovery domains (Namespace (meta vs))
      else Err (ErrNew ("unknown TLS type: " +:+ tlsType))
  end.

(** ** Properties *)

(** The secret chosen for a domain, by name. *)
Definition secret_of (ns domain : string) : option NN := key <$> domain_secret ns domain.

(** The lists a successful discovery ends with, from the lists it started with. *)
Lemma discover_fold ns m ds m' :
  fold_result (discover ns) m ds = Ok m' →
  (∀ d, d ∈ ds → is_Some (secret_of ns d)) ∧
  ∀ nn, default [] (m' !! nn) = default [] (m !! nn) ++ filter (λ d, secret_of ns d = Some nn) ds ∧
        (is_Some (m' !! nn) ↔ is_Some (m !! nn) ∨ ∃ d, d ∈ ds ∧ secret_of ns d = Some nn).
Proof using Type.
  revert m. induction ds as [|d ds IH]; intros m H; cbn in H.
  { injection H as <-. split; [by intros ? ?%not_elem_of_nil|]. intros nn. rewrite app_nil_r.
    split; [done|]. set_solver. }
  apply bind_Ok_inv in H as (m1 & H1 & H). unfold discover in H1.
  destruct (domain_secret ns d) as [s|] eqn:Hs; [|done]. injection H1 as <-.
  change (Helpers.mkNN (Namespace (meta s)) (Name (meta s))) with (key s) in H.
  assert (secret_of ns d = Some (key s)) as Hd by (unfold secret_of; by rewrite Hs).
  destruct (IH _ H) as [Hall Hm]. split.
  { intros d' [->|Hin]%elem_of_cons; [by rewrite Hd|by apply Hall]. }
  intros nn. destruct (Hm nn) as [E1 E2]. rewrite E1, E2. destruct (decide (key s = nn)) as [<-|Hne].
  - rewrite lookup_insert_eq, filter_cons_True by done. cbn. rewrite <-app_assoc. split; [done|].
    split; [|by left]. intros _. right. exists d. split; [left|done].
  - rewrite lookup_insert_ne by done. rewrite filter_cons_False by (rewrite Hd; congruence).
    split; [done|]. split; [|intros [?|(d' & [->|?]%elem_of_cons & ?)]; [by left|congruence|eauto]].
    intros [?|(d' & ? & ?)]; [by left|right]. exists d'. split; [by right|done].
Qed.

Lemma discover_fold_None ns m ds d :
  d ∈ ds → secret_of ns d = None → is_ok (fold_result (discover ns) m ds) = false.
Proof using Type.
  intros Hd Hn. destruct (fold_result (discover ns) m ds) as [m'|] eqn:H; [|done].
  apply discover_fold in H as [Hall _]. destruct (Hall d Hd) as [? He]. congruence.
Qed.

Lemma discover_total ns m ds :
  (∀ d, d ∈ ds → is_Some (secret_of ns d)) → is_ok (fold_result (discover ns) m ds) = true.
Proof using Type.
  revert m. induction ds as [|d ds IH]; intros m Hall; [done|]. cbn.
  destruct (Hall d) as [nn Hnn]; [left|]. unfold discover, secret_of in *.
  destruct (domain_secret ns d); [|done]. cbn. apply IH. intros; apply Hall; by right.
Qed.

(** Automatic discovery partitions the domains: it succeeds exactly when
    every domain has a secret, and then the list of a secret consists, in order,
    of exactly the domains for which that secret is chosen; secrets without
    domains are not listed. *)
Theorem auto_discovery_partition ns domains :
  (is_ok (getSecretNameToDomainsViaAutoDiscovery domains ns) = true ↔
     ∀ d, d ∈ domains → is_Some (secret_of ns d)) ∧
  ∀ m, getSecretNameToDomainsViaAutoDiscovery domains ns = Ok m →
    ∀ nn, m !! nn = (let ds := filter (λ d, secret_of ns d = Some nn) domains in
                     if decide (ds = []) then None else Some ds).
Proof using Type.
  unfold getSecretNameToDomainsViaAutoDiscovery. split; [split|].
  - intros Hok d Hd. destruct (secret_of ns d) eqn:Hs; [done|].
    by rewrite (discover_fold_None _ _ _ _ Hd Hs) in Hok.
  - apply discover_total.
  - intros m Hm nn. apply discover_fold in Hm as [_ Hm]. destruct (Hm nn) as [E1 E2].
    rewrite lookup_empty in E1, E2. cbn in E1. case_decide as Hn; cbn in *.
    + apply eq_None_not_Some. rewrite E2. intros [[? [=]]|(d & Hd & Hs)].
      assert (d ∈ filter (λ d, secret_of ns d = Some nn) domains) as Hin by (by apply list_elem_of_filter).
      rewrite Hn in Hin. by apply not_elem_of_nil in Hin.
    + destruct (m !! nn) as [l|] eqn:Hl; cbn in E1; [by subst|]. by subst.
Qed.
End secrets.

(** The type of a TLS configuration: exactly one of a secret reference and
    enabled automatic discovery must be given. *)
Lemma GetTLSType_alt c :
  GetTLSType (Some c) =
  match bool_decide (SecretRef c ≠ None), bool_decide (AutoDiscovery c = Some true) with
  | true, false => Ok SecretRefType
  | false, true => Ok AutoDiscoveryType
  | false, false => Err (ErrNew "no TLS configuration specified")
  | true, true => Err (ErrNew "multiple TLS configuration types specified (only one allowed)")
  end.
Proof. unfold GetTLSType. by destruct (SecretRef c), (AutoDiscovery c) as [[]|]. Qed.

End Secrets.
