(* ===== verification/HttpFilters.v ===== *)
(** * [internal/xds/resbuilder/filters]: the HTTP filters of a service

    [builder.go]: the RBAC filter, the inline filters and the referenced ones,
    the router last; results are kept in a global LRU cache ([lru_cache.go])
    under a hash of the configuration.  A call takes the cache and the instant
    and returns the cache. *)

From S2P Require Import Prelude GoStrings Types Merge Api ResUtils StringPool DomainSecrets Store Lru.

Module HttpFilters.
Import Envoy.

Definition TypeURLRouter : string :=
  "type.googleapis.com/envoy.extensions.filters.http.router.v3.Router".

(** [rbacv3.Policy], carried along whole, and [rbacFilter.RBAC{Rules: ...}]. *)
Record PolicyV3 := mkPV3 { pContent : string }.
Global Instance PolicyV3_eq_dec : EqDecision PolicyV3.
Proof. solve_decision. Defined.
Record RBACV3 := mkRBACV3 { rbacAction : Z; rbacPolicies : gmap string PolicyV3 }.

(** The libraries: [json.Marshal] of the RBAC specification, the generated table
    of actions, [Any.MarshalFrom]. *)
Class FilterLib := {
  json_Marshal_RBAC : RBACSpec → result string;
  RBAC_Action_value : gmap string Z;
  any_MarshalFrom : RBACV3 → result AnyPb
}.

(** ** [lru_cache.go] *)
Definition DefaultCacheCapacity : Z := 1000.
Definition DefaultCacheTTL : Lru.Time := (10 * 60 * 1000000000)%Z.
Abbreviation Cache := (Lru.LRUCache (list HttpFilterV3)).
Definition NewHTTPFilterLRUCache (capacity : Z) (ttl : Lru.Time) : Cache :=
  let capacity := if decide (capacity ≤ 0)%Z then DefaultCacheCapacity else capacity in
  let ttl := if decide (ttl ≤ 0)%Z then DefaultCacheTTL else ttl in
  Lru.NewTypedLRUCache capacity ttl.
Definition globalHTTPFilterCache : Cache := NewHTTPFilterLRUCache DefaultCacheCapacity DefaultCacheTTL.
(** Values are cloned on the way in and out; the model's values are immutable. *)
Definition cache_Get (c : Cache) (now : Lru.Time) (k : string) : option (list HttpFilterV3) * Cache :=
  Lru.Get c now k.
Definition cache_Set (c : Cache) (now : Lru.Time) (k : string) (filters : list HttpFilterV3) : Cache :=
  Lru.Set_ c now k filters.

(** ** [builder.go] *)
Section filters.
Context `{!Sha256} `{!FilterLib} `{!ProtoMessage HttpFilterV3} `{!ProtoMessage PolicyV3}.
(** The order in which Go visits the inline policies. *)
Context (pord : gmap string RawExtension → list (string * RawExtension)).

Definition ref_name (vs : VirtualService) (ref : ResourceRef) : NN :=
  Helpers.mkNN (Helpers.GetNamespace (refNamespace ref) (Namespace (meta vs))) (refName ref).

(** The bytes written to the hasher. *)
Definition cache_input (store : Store.OptimizedStore) (vs : VirtualService) : string :=
  let sp := Common (vs_spec vs) in
  match RBAC sp with
  | Some r => match json_Marshal_RBAC r with Ok d => d | Err _ => "" end
  | None => ""
  end +:+
  String.concat "" (raw_bytes <$> HTTPFilters sp) +:+
  String.concat "" ((λ ref,
    let nn := ref_name vs ref in
    Helpers.Namespace nn +:+ "/" +:+ Helpers.Name nn +:+
    match Store.GetHTTPFilter store nn with
    | Some hf => String.concat "" (raw_bytes <$> hf_spec hf)
    | None => ""
    end) <$> AdditionalHttpFilters sp).
Definition generateHTTPFiltersCacheKey (store : Store.OptimizedStore) (vs : VirtualService) : string :=
  sha256_hex (cache_input store vs).

Definition inline_policy (policies : gmap string PolicyV3) (p : string * RawExtension)
  : result (gmap string PolicyV3) :=
  policy ← wrap_err ("failed to unmarshal rbac policy " +:+ p.1) (pb_unmarshal (raw_bytes p.2));
  policy ← wrap_err ("failed to validate rbac policy " +:+ p.1) (pb_check policy);
  Ok (<[p.1 := policy]> policies).

Definition additional_policy (store : Store.OptimizedStore) (vs : VirtualService)
    (policies : gmap string PolicyV3) (ref : ResourceRef) : result (gmap string PolicyV3) :=
  let nn := ref_name vs ref in
  let at_ := Helpers.Namespace nn +:+ "/" +:+ refName ref in
  match Store.GetPolicy store nn with
  | None => Err (ErrNew ("rbac policy " +:+ at_ +:+ " not found"))
  | Some policy =>
      if decide (is_Some (policies !! Name (meta policy))) then
        Err (ErrNew ("policy '" +:+ Name (meta policy) +:+ "' already exist in RBAC"))
      else
        match p_spec policy with
        | None => Err nil_deref
        | Some raw =>
            rbacPolicy ← wrap_err ("failed to unmarshal rbac policy " +:+ at_)
                           (pb_unmarshal (raw_bytes raw));
            rbacPolicy ← wrap_err ("failed to validate rbac policy " +:+ at_) (pb_check rbacPolicy);
            Ok (<[Name (meta policy) := rbacPolicy]> policies)
        end
  end.

Definition BuildRBACFilter (store : Store.OptimizedStore) (vs : VirtualService)
  : result (option RBACV3) :=
  match RBAC (Common (vs_spec vs)) with
  | None => Ok None
  | Some rbac =>
      if decide (Action rbac = "") then Err (ErrNew "rbac action is empty")
      else match RBAC_Action_value !! Action rbac with
           | None => Err (ErrNew ("invalid rbac action " +:+ Action rbac))
           | Some action =>
               if decide (Policies rbac = ∅ ∧ AdditionalPolicies rbac = []) then
                 Err (ErrNew "rbac policies is empty")
               else
                 policies ← fold_result inline_policy ∅ (pord (Policies rbac));
                 policies ← fold_result (additional_policy store vs) policies (AdditionalPolicies rbac);
                 Ok (Some (mkRBACV3 action policies))
           end
  end.

(** The first filter, when RBAC is configured. *)
Definition rbac_filter (store : Store.OptimizedStore) (vs : VirtualService)
  : result (list HttpFilterV3) :=
  rbacF ← BuildRBACFilter store vs;
  match rbacF with
  | None => Ok []
  | Some r => tc ← any_MarshalFrom r; Ok [mkHF3 "exc.filters.http.rbac" (Some tc) ""]
  end.
Definition inline_filter (raw : RawExtension) : result HttpFilterV3 :=
  hf ← wrap_err "failed to unmarshal http filter" (pb_unmarshal (raw_bytes raw));
  wrap_err "failed to validate http filter" (pb_check hf).
Definition referenced_filters (store : Store.OptimizedStore) (vs : VirtualService) (ref : ResourceRef)
  : result (list HttpFilterV3) :=
  let nn := ref_name vs ref in
  match Store.GetHTTPFilter store nn with
  | None => Err (ErrNew ("http filter " +:+ Helpers.Namespace nn +:+ "/" +:+ refName ref +:+ " not found"))
  | Some hf => map_result (λ raw, f ← pb_unmarshal (raw_bytes raw); pb_check f) (hf_spec hf)
  end.

Definition is_router (f : HttpFilterV3) : bool :=
  match hfTypedConfig f with
  | Some tc => bool_decide (TypeUrl tc = TypeURLRouter)
  | None => false
  end.
Definition put_router_last (httpFilters : list HttpFilterV3) : result (list HttpFilterV3) :=
  match indexes is_router httpFilters with
  | [index] => if decide (index ≠ length httpFilters - 1) then Ok (move_to_end index httpFilters)
               else Ok httpFilters
  | [] => Ok httpFilters
  | _ => Err (ErrNew "multiple root router http filters")
  end.

(** [BuildHTTPFilters] after a cache miss. *)
Definition build_filters (store : Store.OptimizedStore) (vs : VirtualService)
  : result (list HttpFilterV3) :=
  let sp := Common (vs_spec vs) in
  first ← rbac_filter store vs;
  inline ← map_result inline_filter (HTTPFilters sp);
  refs ← map_result (referenced_filters store vs) (AdditionalHttpFilters sp);
  put_router_last (first ++ inline ++ concat refs).

Definition BuildHTTPFilters (store : Store.OptimizedStore) (c : Cache) (now : Lru.Time)
    (vs : VirtualService) : result (list HttpFilterV3) * Cache :=
  let cacheKey := generateHTTPFiltersCacheKey store vs in
  match cache_Get c now cacheKey with
  | (Some cached, c) => (Ok cached, c)
  | (None, c) =>
      match build_filters store vs with
      | Ok httpFilters => (Ok httpFilters, cache_Set c now cacheKey httpFilters)
      | Err e => (Err e, c)
      end
  end.

(** ** Properties *)
Lemma put_router_last_alt fs :
  put_router_last fs =
  (if decide (1 < length (filter is_router fs)) then Err (ErrNew "multiple root router http filters")
   else Ok (filter (λ f, ¬ is_router f) fs ++ filter is_router fs)).
Proof using Type.
  unfold put_router_last. pose proof (length_indexes 0 is_router fs) as Hlen.
  fold (indexes is_router fs) in Hlen.
  destruct (indexes is_router fs) as [|i [|j l]] eqn:Hi; cbn in Hlen; rewrite <-Hlen.
  - rewrite decide_False by lia. symmetry in Hlen. apply filter_none in Hlen as [-> ->].
    by rewrite app_nil_r.
  - rewrite (decide_False (P := 1 < _)) by lia. rewrite <-(move_to_end_spec _ _ _ Hi).
    case_decide as Hd; [done|]. by rewrite (move_last_id _ _ Hd).
  - by rewrite decide_True by lia.
Qed.

(** The order of the HTTP filters: a successful build yields the RBAC filter
    (if configured), the inline filters and the referenced ones in this order,
    except that the router filter, of which there is at most one, comes last. *)
Theorem build_filters_router_last store vs fs :
  build_filters store vs = Ok fs →
  ∃ first inline refs,
    rbac_filter store vs = Ok first ∧
    Forall2 (λ raw f, inline_filter raw = Ok f) (HTTPFilters (Common (vs_spec vs))) inline ∧
    Forall2 (λ ref l, referenced_filters store vs ref = Ok l)
      (AdditionalHttpFilters (Common (vs_spec vs))) refs ∧
    let all := first ++ inline ++ concat refs in
    fs = filter (λ f, ¬ is_router f) all ++ filter is_router all ∧
    length (filter is_router all) ≤ 1.
Proof using Type.
  unfold build_filters. intros Hb. apply bind_Ok_inv in Hb as (first & Hf & Hb).
  apply bind_Ok_inv in Hb as (inline & Hi%map_result_Ok & Hb).
  apply bind_Ok_inv in Hb as (refs & Hr%map_result_Ok & Hb).
  rewrite put_router_last_alt in Hb. case_decide; [done|]. injection Hb as <-.
  exists first, inline, refs. split_and!; [done..|lia].
Qed.

(** *** The cache *)
(** A build: the instant, the store and the service. *)
Definition call : Type := Lru.Time * Store.OptimizedStore * VirtualService.
Fixpoint run_calls (c : Cache) (calls : list call) : list (result (list HttpFilterV3)) * Cache :=
  match calls with
  | [] => ([], c)
  | (now, store, vs) :: calls =>
      let '(r, c) := BuildHTTPFilters store c now vs in
      let '(rs, c) := run_calls c calls in (r :: rs, c)
  end.

(** [fs] was computed by one of the calls, under the key [k], at time [t]. *)
Definition computed (calls : list call) (k : string) (fs : list HttpFilterV3) (t : Lru.Time) : Prop :=
  ∃ store vs, (t, store, vs) ∈ calls ∧ generateHTTPFiltersCacheKey store vs = k ∧
    build_filters store vs = Ok fs.

Lemma call_step calls c now store vs :
  Lru.ok c → Lru.ttl c = DefaultCacheTTL →
  (∀ i, i ∈ Lru.abs c → computed calls (Lru.Key i) (Lru.Value i) (Lru.Timestamp i)) →
  let '(r, c') := BuildHTTPFilters store c now vs in
  (Lru.ok c' ∧ Lru.ttl c' = DefaultCacheTTL ∧
   ∀ i, i ∈ Lru.abs c' → computed (calls ++ [(now, store, vs)]) (Lru.Key i) (Lru.Value i) (Lru.Timestamp i)) ∧
  ∀ fs, r = Ok fs → ∃ t, computed (calls ++ [(now, store, vs)]) (generateHTTPFiltersCacheKey store vs) fs t ∧
    (now - t ≤ DefaultCacheTTL)%Z.
Proof using Type.
  intros Hok Ht Hc. unfold BuildHTTPFilters, cache_Get, cache_Set.
  set (k := generateHTTPFiltersCacheKey store vs).
  assert (∀ i, i ∈ Lru.abs c →
    computed (calls ++ [(now, store, vs)]) (Lru.Key i) (Lru.Value i) (Lru.Timestamp i)) as Hc'.
  { intros i Hi. destruct (Hc i Hi) as (s & v & Hin & ?). exists s, v. split; [|done]. set_solver. }
  pose proof (Lru.Get_good c now k Hok) as [Hok1 Ht1].
  pose proof (Lru.Get_hit c now k) as Hhit. pose proof (λ i, Lru.Get_items c now k i Hok) as Hitems.
  destruct (Lru.Get c now k) as [[cached|] c1]; cbn in *.
  - split; [split_and!; [done|congruence|auto]|]. intros fs [= <-].
    destruct (Hhit cached Hok eq_refl) as (i & Hi & Hk & Hv & Hle). exists (Lru.Timestamp i).
    rewrite <-Hk, <-Hv. split; [by apply Hc'|]. rewrite Ht in Hle. apply Hle. done.
  - destruct (build_filters store vs) as [fs|e] eqn:Hb.
    + pose proof (Lru.Set_good c1 now k fs Hok1) as [Hok2 Ht2].
      assert (computed (calls ++ [(now, store, vs)]) k fs now) as Hnew.
      { exists store, vs. split; [set_solver|done]. }
      split.
      * split_and!; [done|congruence|]. intros i [->|Hi]%Lru.Set_items; [done|auto|done].
      * intros fs' [= <-]. exists now. split; [done|]. unfold DefaultCacheTTL. lia.
    + split; [split_and!; [done|congruence|auto]|]. done.
Qed.

Lemma run_calls_inv pre calls c :
  Lru.ok c → Lru.ttl c = DefaultCacheTTL →
  (∀ i, i ∈ Lru.abs c → computed pre (Lru.Key i) (Lru.Value i) (Lru.Timestamp i)) →
  let c' := (run_calls c calls).2 in
  Lru.ok c' ∧ Lru.ttl c' = DefaultCacheTTL ∧
  ∀ i, i ∈ Lru.abs c' → computed (pre ++ calls) (Lru.Key i) (Lru.Value i) (Lru.Timestamp i).
Proof using Type.
  revert pre c. induction calls as [|[[now store] vs] calls IH]; intros pre c Hok Ht Hc; cbn.
  { by rewrite app_nil_r. }
  pose proof (call_step pre c now store vs Hok Ht Hc) as Hs.
  destruct (BuildHTTPFilters store c now vs) as [r c1]. destruct Hs as [(Hok1 & Ht1 & Hc1) _].
  destruct (IH _ c1 Hok1 Ht1 Hc1) as (Hok2 & Ht2 & Hc2).
  destruct (run_calls c1 calls) as [rs c2]. cbn in *. split_and!; [done..|].
  intros i Hi. by rewrite (cons_middle _ pre), (app_assoc pre); apply Hc2.
Qed.

(** C30. Staleness is bounded: in any sequence of builds that starts with an empty
    cache, the filters returned by a build are the ones computed (then or
    earlier) by a build whose configuration has the same cache key and which is
    at most ten minutes old. *)
Theorem filter_cache_staleness calls now store vs fs :
  (BuildHTTPFilters store (run_calls globalHTTPFilterCache calls).2 now vs).1 = Ok fs →
  ∃ now0 store0 vs0, (now0, store0, vs0) ∈ calls ++ [(now, store, vs)] ∧
    generateHTTPFiltersCacheKey store0 vs0 = generateHTTPFiltersCacheKey store vs ∧
    build_filters store0 vs0 = Ok fs ∧ (now - now0 ≤ DefaultCacheTTL)%Z.
Proof using Type.
  intros Hb. destruct (run_calls_inv [] calls globalHTTPFilterCache) as (Hok & Ht & Hc).
  { apply Lru.ok_new. }
  { reflexivity. }
  { by intros i ?%not_elem_of_nil. }
  pose proof (call_step calls _ now store vs Hok Ht Hc) as Hs.
  destruct (BuildHTTPFilters store _ now vs) as [r c1]. cbn in Hb. destruct Hs as [_ Hs].
  destruct (Hs fs Hb) as (t & (s0 & v0 & Hin & Hk & Hf) & Hle). by exists t, s0, v0.
Qed.

(** The cache key leaves out the policies: when two builds agree on the RBAC
    specification and the inline filters, and refer to no further filters, the
    second one returns the filters of the first for ten minutes, whatever the
    policy resources the RBAC specification refers to (they may have been
    changed in between, or be those of another namespace). *)
Theorem filter_cache_ignores_policies store1 store2 vs1 vs2 c now1 now2 fs :
  Lru.ok c → Lru.ttl c = DefaultCacheTTL →
  RBAC (Common (vs_spec vs1)) = RBAC (Common (vs_spec vs2)) →
  HTTPFilters (Common (vs_spec vs1)) = HTTPFilters (Common (vs_spec vs2)) →
  AdditionalHttpFilters (Common (vs_spec vs1)) = [] → AdditionalHttpFilters (Common (vs_spec vs2)) = [] →
  (cache_Get c now1 (generateHTTPFiltersCacheKey store1 vs1)).1 = None →
  build_filters store1 vs1 = Ok fs → (now2 - now1 ≤ DefaultCacheTTL)%Z →
  (BuildHTTPFilters store2 (BuildHTTPFilters store1 c now1 vs1).2 now2 vs2).1 = Ok fs.
Proof using Type.
  intros Hok Ht Er Eh E1 E2 Hmiss Hb Hle.
  assert (generateHTTPFiltersCacheKey store2 vs2 = generateHTTPFiltersCacheKey store1 vs1) as Hk.
  { unfold generateHTTPFiltersCacheKey, cache_input. by rewrite Er, Eh, E1, E2. }
  unfold BuildHTTPFilters at 2. unfold cache_Get in *.
  pose proof (Lru.Get_good c now1 (generateHTTPFiltersCacheKey store1 vs1) Hok) as [Hok1 Ht1].
  destruct (Lru.Get c now1 (generateHTTPFiltersCacheKey store1 vs1)) as [m c1]. cbn in Hmiss, Hok1, Ht1.
  subst m. rewrite Hb. cbn [snd]. unfold BuildHTTPFilters, cache_Get, cache_Set. rewrite Hk.
  pose proof (Lru.Get_Set c1 now1 now2 (generateHTTPFiltersCacheKey store1 vs1) fs Hok1) as Hg.
  rewrite Ht1, Ht in Hg. specialize (Hg Hle).
  destruct (Lru.Get (Lru.Set_ _ _ _ _) now2 _) as [m c2]. cbn in Hg. by subst m.
Qed.
End filters.

(** ** A policy that changes from "deny" to "allow" *)
Module Examples.
Definition sha : Sha256 := λ s, s.
Definition lib : FilterLib :=
  {| json_Marshal_RBAC _ := Ok "{}";
     RBAC_Action_value := {[ "ALLOW" := 0%Z; "DENY" := 1%Z ]};
     any_MarshalFrom r := Ok (mkAny "rbac" (String.concat ";" (pContent <$> (map_to_list (rbacPolicies r)).*2))) |}.
Definition hf_pb : ProtoMessage HttpFilterV3 :=
  {| pb_unmarshal s := Ok (mkHF3 s (if decide (s = "router") then Some (mkAny TypeURLRouter "") else None) "");
     pb_validate _ := None |}.
Definition policy_pb : ProtoMessage PolicyV3 :=
  {| pb_unmarshal s := Ok (mkPV3 s); pb_validate _ := None |}.
Definition policy (content : string) : Policy :=
  mkPolicy (mkMeta "p" "ns" "up" 1 None None) (Some (mkRaw (Some content) None)).
Definition store1 : Store.OptimizedStore := Store.SetPolicy Store.NewOptimizedStore (policy "deny all").
Definition store2 : Store.OptimizedStore := Store.SetPolicy store1 (policy "allow all").
Definition raw (s : string) : RawExtension := mkRaw (Some s) None.
Definition vs (filters : list RawExtension) : VirtualService :=
  mkVS (mkMeta "a" "ns" "u" 1 None None)
    (mkVSSpec (mkCommon None None None None [] None [] [] [] filters None None
       (Some (mkRBAC "ALLOW" ∅ [mkRef "p" None])) None None None None) None [] ∅) (mkVSObjStatus "" false).
End Examples.

Section witnesses.
#[local] Existing Instances Examples.sha Examples.lib Examples.hf_pb Examples.policy_pb.
Local Abbreviation pord := (λ m : gmap string RawExtension, map_to_list m).

Lemma build_filters_router_last_witness :
  build_filters pord Examples.store1 (Examples.vs [Examples.raw "router"; Examples.raw "cors"]) =
    Ok [mkHF3 "exc.filters.http.rbac" (Some (mkAny "rbac" "deny all")) ""; mkHF3 "cors" None "";
        mkHF3 "router" (Some (mkAny TypeURLRouter "")) ""] ∧
  ∃ first, rbac_filter pord Examples.store1 (Examples.vs [Examples.raw "router"; Examples.raw "cors"]) = Ok first.
Proof.
  split; [vm_compute; reflexivity|].
  edestruct (build_filters_router_last pord Examples.store1
    (Examples.vs [Examples.raw "router"; Examples.raw "cors"])) as (first & inline & refs & Hf & _).
  - vm_compute. reflexivity.
  - exists first. exact Hf.
Defined.

(** Ten seconds after the policy changed the old filter is served. *)
Lemma filter_cache_ignores_policies_witness :
  let vs := Examples.vs [] in
  let old := [mkHF3 "exc.filters.http.rbac" (Some (mkAny "rbac" "deny all")) ""] in
  (BuildHTTPFilters pord Examples.store2
     (BuildHTTPFilters pord Examples.store1 globalHTTPFilterCache 0 vs).2 10000000000 vs).1 = Ok old ∧
  build_filters pord Examples.store2 vs
    = Ok [mkHF3 "exc.filters.http.rbac" (Some (mkAny "rbac" "allow all")) ""].
Proof.
  split; [|vm_compute; reflexivity].
  apply (filter_cache_ignores_policies pord Examples.store1 Examples.store2 (Examples.vs [])
    (Examples.vs []) globalHTTPFilterCache 0 10000000000).
  - apply Lru.ok_new.
  - reflexivity.
  - reflexivity.
  - reflexivity.
  - reflexivity.
  - reflexivity.
  - vm_compute. reflexivity.
  - vm_compute. reflexivity.
  - vm_compute. discriminate.
Defined.

Lemma filter_cache_staleness_witness :
  ∃ now0 store0 vs0,
    (now0, store0, vs0) ∈ [(0%Z, Examples.store1, Examples.vs [])] ++ [(10%Z, Examples.store2, Examples.vs [])] ∧
    build_filters pord store0 vs0
      = Ok [mkHF3 "exc.filters.http.rbac" (Some (mkAny "rbac" "deny all")) ""] ∧
    (10 - now0 ≤ DefaultCacheTTL)%Z.
Proof.
  destruct (filter_cache_staleness pord [(0%Z, Examples.store1, Examples.vs [])] 10 Examples.store2
    (Examples.vs []) [mkHF3 "exc.filters.http.rbac" (Some (mkAny "rbac" "deny all")) ""])
    as (now0 & store0 & vs0 & Hin & _ & Hb & Hle).
  - vm_compute. reflexivity.
  - exists now0, store0, vs0. split; [exact Hin|split; [exact Hb|exact Hle]].
Defined.
End witnesses.
End HttpFilters.
