(* ===== verification/Clusters.v ===== *)
(** * [internal/xds/resbuilder/clusters]: the clusters a service needs

    [builder.go]: the clusters of routes, OAuth2 filters and tracing, the last
    two through a global LRU cache ([lru_cache.go], [cache.go]); [extractor.go]:
    the clusters named in the filter chains of a listener.  A call that uses the
    cache takes it with the instant of the call and returns it. *)

From S2P Require Import Prelude GoStrings Types Merge Api ResUtils StringPool DomainSecrets Store Lru.

Module Clusters.
Import Envoy.

Definition TypeURLOAuth2 : string :=
  "type.googleapis.com/envoy.extensions.filters.http.oauth2.v3.OAuth2".
Definition HTTPConnectionManager : string := "envoy.filters.network.http_connection_manager".
Definition TCPProxy : string := "envoy.filters.network.tcp_proxy".

(** The libraries: decoding of [Any] messages (to a known type, or to whatever
    type is registered), [protojson] with proto names, and [encoding/json]. *)
Class ClusterLib := {
  Msg : Type;
  OAuth2Config : Type;
  any_UnmarshalNew : AnyPb → result Msg;
  protojson_Marshal : Msg → result string;
  protojson_Marshal_Tracing : TracingV3 → result string;
  any_To_HCM : AnyPb → result HCM;
  (** The cluster specifier of a decoded [tcpProxyv3.TcpProxy]. *)
  any_To_TcpProxy : AnyPb → result (option ClusterSpecifier);
  (** The field [Config] of a decoded [oauth2v3.OAuth2]. *)
  any_To_OAuth2 : AnyPb → result OAuth2Config;
  json_Marshal_OAuth2 : OAuth2Config → result string;
  json_Marshal_Object : string → result string;
  json_Unmarshal_any : string → result Merge.json;
  (** The order in which Go ranges over the fields of a decoded object. *)
  range_fields : gmap string Merge.json → list (string * Merge.json);
  range_fields_perm m : range_fields m ≡ₚ map_to_list m
}.

(** ** [lru_cache.go] and [cache.go] *)
Definition DefaultCacheCapacity : Z := 500.
Definition DefaultCacheTTL : Lru.Time := (5 * 60 * 1000000000)%Z.
Abbreviation Cache := (Lru.LRUCache (list ClusterV3)).
Definition NewClusterLRUCache (capacity : Z) (ttl : Lru.Time) : Cache :=
  let capacity := if decide (capacity ≤ 0)%Z then DefaultCacheCapacity else capacity in
  let ttl := if decide (ttl ≤ 0)%Z then DefaultCacheTTL else ttl in
  Lru.NewTypedLRUCache capacity ttl.
Definition globalClusterCache : Cache := NewClusterLRUCache DefaultCacheCapacity DefaultCacheTTL.
Definition cache_get (c : Cache) (now : Lru.Time) (k : string) : option (list ClusterV3) * Cache :=
  Lru.Get c now k.
Definition cache_set (c : Cache) (now : Lru.Time) (k : string) (clusters : list ClusterV3) : Cache :=
  Lru.Set_ c now k clusters.

(** The shape of the cached methods: [Ok None] is an early [return nil, nil]. *)
Definition cached (c : Cache) (now : Lru.Time) (k : string)
    (compute : result (option (list ClusterV3))) : result (list ClusterV3) * Cache :=
  match cache_get c now k with
  | (Some v, c) => (Ok v, c)
  | (None, c) =>
      match compute with
      | Ok (Some v) => (Ok v, cache_set c now k v)
      | Ok None => (Ok [], c)
      | Err e => (Err e, c)
      end
  end.

Section clusters.
Context {CL : ClusterLib} {SHA : Sha256} {PM : ProtoMessage ClusterV3}.
Context (store : Store.OptimizedStore).

(** ** [builder.go] *)
Definition getClusterByName (clusterName : string) : result ClusterV3 :=
  match Store.GetSpecCluster store clusterName with
  | None => Err (ErrNew ("cluster " +:+ clusterName +:+ " not found"))
  | Some cl =>
      wrap_err ("failed to unmarshal cluster " +:+ clusterName) (Api.Cluster_UnmarshalV3AndValidate cl)
  end.
Definition getClustersByNames (names : list string) : result (list ClusterV3) :=
  map_result getClusterByName names.

Definition extractClusterNamesFromRoute (route : RouteV3) : list string :=
  match rAction route with
  | None => []
  | Some (ActRoute spec _) =>
      match spec with
      | Some (SpecCluster c) => if decide (c ≠ "") then [c] else []
      | Some (SpecWeighted (Some cs)) => filter (λ c, c ≠ "") cs
      | _ => []
      end
  | Some (ActDirectResponse _ _) => []
  | Some (ActRedirect _) => []
  | Some (ActOther _) => []
  end.

Lemma extract_routes_to route c : c ∈ extractClusterNamesFromRoute route ↔ ResUtils.routes_to route c ∧ c ≠ "".
Proof using Type.
  unfold extractClusterNamesFromRoute. split.
  - destruct (rAction route) as [[[[c'|[cs|]|?]|] rest|? ?|?|?]|] eqn:Ha; try by intros ?%not_elem_of_nil.
    + case_decide; [|by intros ?%not_elem_of_nil]. intros ->%list_elem_of_singleton. split; [|done]. by econstructor.
    + intros [? ?]%list_elem_of_filter. split; [|done]. by eapply ResUtils.to_weighted.
  - intros [[rest ->|cs rest -> Hc] Hne]; [rewrite decide_True by done; by left|by apply list_elem_of_filter].
Qed.

Definition FromVirtualHostRoutes (virtualHost : VirtualHost) : result (list ClusterV3) :=
  let clusterNames := vhRoutes virtualHost ≫= extractClusterNamesFromRoute in
  if decide (length clusterNames = 0) then Ok [] else getClustersByNames clusterNames.

(** *** OAuth2 *)
Definition oauth2_configs (httpFilters : list HttpFilterV3) : list AnyPb :=
  filter (λ tc, TypeUrl tc = TypeURLOAuth2) (omap hfTypedConfig httpFilters).

Definition oauth2_names (tc : AnyPb) : result (list string) :=
  cfg ← wrap_err "failed to unmarshal oauth2 config" (any_To_OAuth2 tc);
  jsonData ← wrap_err "failed to marshal oauth2 config" (json_Marshal_OAuth2 cfg);
  data ← wrap_err "failed to unmarshal oauth2 config data" (json_Unmarshal_any jsonData);
  Ok (ResUtils.FindClusterNames range_fields data "Cluster").

(** [writeClusterGenerations]: the bytes written. *)
Definition writeClusterGenerations (clusterNames : list string) : string :=
  String.concat "" ((λ name,
    match Store.GetSpecCluster store name with
    | Some cl => name +:+ ":" +:+ GoStrings.Itoa (Generation (meta cl)) +:+ ","
    | None => ""
    end) <$> clusterNames).

Definition generateOAuth2CacheKey (httpFilters : list HttpFilterV3) : string :=
  let tcs := oauth2_configs httpFilters in
  let allClusterNames :=
    tcs ≫= (λ tc, match oauth2_names tc with Ok names => names | Err _ => [] end) in
  "oauth2_" +:+ sha256_hex (String.concat "" (Value <$> tcs) +:+ writeClusterGenerations allClusterNames).

Definition FromOAuth2HTTPFilters (c : Cache) (now : Lru.Time) (httpFilters : list HttpFilterV3)
  : result (list ClusterV3) * Cache :=
  cached c now (generateOAuth2CacheKey httpFilters)
    (ls ← map_result (λ tc, names ← oauth2_names tc; getClustersByNames names)
            (oauth2_configs httpFilters);
     Ok (Some (concat ls))).

(** *** Tracing *)
(** The JSON value of a raw extension: its bytes, or its object; [None] when it
    has neither.  The arguments are the three error messages. *)
Definition raw_data (e_raw e_marshal e_object : string) (tr : RawExtension)
  : result (option Merge.json) :=
  match Raw tr with
  | Some raw => data ← wrap_err e_raw (json_Unmarshal_any raw); Ok (Some data)
  | None =>
      match Object tr with
      | Some obj =>
          jsonData ← wrap_err e_marshal (json_Marshal_Object obj);
          data ← wrap_err e_object (json_Unmarshal_any jsonData);
          Ok (Some data)
      | None => Ok None
      end
  end.
Definition tracing_names (data : Merge.json) : list string :=
  ResUtils.FindClusterNames range_fields data "cluster_name" ++ ResUtils.FindClusterNames range_fields data "collector_cluster".
Definition tracing_clusters (data : option Merge.json) : result (option (list ClusterV3)) :=
  match data with
  | None => Ok None
  | Some data =>
      let allNames := tracing_names data in
      if decide (0 < length allNames) then cl ← getClustersByNames allNames; Ok (Some cl)
      else Ok (Some [])
  end.

Definition extractClusterNamesFromTracing (spec : option RawExtension) : list string :=
  match spec with
  | None => []
  | Some spec =>
      match raw_data "" "" "" spec with
      | Ok (Some data) => tracing_names data
      | _ => []
      end
  end.

Definition raw_bytes_or_object (tr : RawExtension) : string :=
  match Raw tr with
  | Some raw => raw
  | None => match Object tr with
            | Some obj => match json_Marshal_Object obj with Ok d => d | Err _ => "" end
            | None => ""
            end
  end.

Definition generateTracingRawCacheKey (tr : option RawExtension) : string :=
  match tr with
  | None => "tracing_raw_nil"
  | Some tr =>
      "tracing_raw_" +:+ sha256_hex (raw_bytes_or_object tr +:+
        writeClusterGenerations (extractClusterNamesFromTracing (Some tr)))
  end.

Definition FromTracingRaw (c : Cache) (now : Lru.Time) (tr : option RawExtension)
  : result (list ClusterV3) * Cache :=
  match tr with
  | None => (Ok [], c)
  | Some tr =>
      cached c now (generateTracingRawCacheKey (Some tr))
        (data ← raw_data "failed to unmarshal tracing raw data" "failed to marshal tracing object"
                   "failed to unmarshal tracing object data" tr;
         tracing_clusters data)
  end.

Definition tracing_ref (vs : VirtualService) (ref : ResourceRef) : NN :=
  Helpers.mkNN (Helpers.GetNamespace (refNamespace ref) (Namespace (meta vs))) (refName ref).

Definition generateTracingRefCacheKey (vs : VirtualService) : string :=
  match TracingRef (Common (vs_spec vs)) with
  | None => "tracing_ref_nil"
  | Some ref =>
      let nn := tracing_ref vs ref in
      "tracing_ref_" +:+ sha256_hex (Helpers.Namespace nn +:+ "/" +:+ Helpers.Name nn +:+
        match Store.GetTracing store nn with
        | Some tracing =>
            match t_spec tracing with Some sp => raw_bytes_or_object sp | None => "" end +:+
            writeClusterGenerations (extractClusterNamesFromTracing (t_spec tracing))
        | None => ""
        end)
  end.

Definition FromTracingRef (c : Cache) (now : Lru.Time) (vs : VirtualService)
  : result (list ClusterV3) * Cache :=
  match TracingRef (Common (vs_spec vs)) with
  | None => (Ok [], c)
  | Some ref =>
      let nn := tracing_ref vs ref in
      cached c now (generateTracingRefCacheKey vs)
        match Store.GetTracing store nn with
        | None => Err (ErrNew ("tracing " +:+ Helpers.Namespace nn +:+ "/" +:+ refName ref +:+ " not found"))
        | Some tracing =>
            match t_spec tracing with
            | None => Ok None
            | Some sp =>
                data ← raw_data "failed to unmarshal tracing spec raw" "failed to marshal tracing spec object"
                         "failed to unmarshal tracing spec object data" sp;
                tracing_clusters data
            end
        end
  end.

(** ** [extractor.go] *)
Record clusterExtractionResult := mkExtr { exName : string; isRequired : bool }.
#[global] Instance clusterExtractionResult_eq_dec : EqDecision clusterExtractionResult.
Proof. solve_decision. Defined.

Definition toRequiredResults (names : list string) : list clusterExtractionResult :=
  (λ n, mkExtr n true) <$> names.
Definition toOptionalResults (names : list string) : list clusterExtractionResult :=
  (λ n, mkExtr n false) <$> names.

(** The names under the given fields, one field after the other. *)
Definition find_fields (fields : list string) (data : Merge.json) : list string :=
  fields ≫= ResUtils.FindClusterNames range_fields data.

(** The loop of [removeDuplicateStrings]. *)
Fixpoint dedup_loop (seen : gset string) (l : list string) : list string :=
  match l with
  | [] => []
  | s :: l =>
      if decide ((s ∉ seen) ∧ s ≠ "") then s :: dedup_loop (({[s]} : gset string) ∪ seen) l else dedup_loop seen l
  end.
Definition removeDuplicateStrings (strings : list string) : list string := dedup_loop ∅ strings.

(** An unknown message type yields no names, also in the next two functions. *)
Definition extractClustersFromHTTPFilter (httpFilter : HttpFilterV3) : list string :=
  match hfTypedConfig httpFilter with
  | None => []
  | Some tc =>
      match (msg ← any_UnmarshalNew tc; jsonBytes ← protojson_Marshal msg; json_Unmarshal_any jsonBytes) with
      | Err _ => []
      | Ok data => find_fields ["cluster"; "cluster_name"; "token_cluster"; "authorization_cluster"] data
      end
  end.

Definition extractClustersFromAccessLog (accessLog : AccessLogV3) : result (list string) :=
  match alTypedConfig accessLog with
  | None => Ok []
  | Some tc =>
      match any_UnmarshalNew tc with
      | Err _ => Ok []
      | Ok msg =>
          jsonBytes ← wrap_err "failed to marshal access log config to JSON" (protojson_Marshal msg);
          data ← wrap_err "failed to unmarshal access log config" (json_Unmarshal_any jsonBytes);
          Ok (find_fields ["cluster_name"; "cluster"] data)
      end
  end.

Definition extractClustersFromTracing (tracing : TracingV3) : result (list string) :=
  jsonData ← wrap_err "failed to marshal tracing config" (protojson_Marshal_Tracing tracing);
  data ← wrap_err "failed to unmarshal tracing config" (json_Unmarshal_any jsonData);
  Ok (find_fields ["cluster_name"; "collector_cluster"] data).

Definition extractClustersFromHCMFilter (filter : Filter) : result (list string) :=
  match filterTypedConfig filter with
  | None => Ok []
  | Some tc =>
      hcm ← wrap_err "failed to unmarshal HCM config" (any_To_HCM tc);
      let names := hcmHttpFilters hcm ≫= extractClustersFromHTTPFilter in
      logNames ← map_result extractClustersFromAccessLog (hcmAccessLog hcm);
      tracingNames ← match hcmTracing hcm with
                     | Some tr => extractClustersFromTracing tr
                     | None => Ok []
                     end;
      Ok (names ++ concat logNames ++ tracingNames)
  end.

Definition extractClustersFromTCPProxyFilter (filter : Filter) : result (list string) :=
  match filterTypedConfig filter with
  | None => Ok []
  | Some tc =>
      spec ← wrap_err "failed to unmarshal TCP proxy config" (any_To_TcpProxy tc);
      Ok match spec with
         | Some (SpecCluster c) => if decide (c ≠ "") then [c] else []
         | Some (SpecWeighted (Some cs)) => list_filter (λ c, c ≠ "") _ cs
         | _ => []
         end
  end.

Definition extractClustersFromGenericFilter (filter : Filter) : result (list string) :=
  match filterTypedConfig filter with
  | None => Ok []
  | Some tc =>
      match any_UnmarshalNew tc with
      | Err _ => Ok []
      | Ok msg =>
          jsonBytes ← wrap_err "failed to marshal filter config to JSON" (protojson_Marshal msg);
          data ← wrap_err "failed to unmarshal JSON" (json_Unmarshal_any jsonBytes);
          Ok (removeDuplicateStrings
                (find_fields ["cluster"; "cluster_name"; "collector_cluster"] data))
      end
  end.

Definition extractClustersFromFilter (filter : Filter) : result (list clusterExtractionResult) :=
  if decide (filterName filter = HTTPConnectionManager) then
    names ← extractClustersFromHCMFilter filter; Ok (toRequiredResults names)
  else if decide (filterName filter = TCPProxy) then
    names ← extractClustersFromTCPProxyFilter filter; Ok (toRequiredResults names)
  else
    names ← extractClustersFromGenericFilter filter; Ok (toOptionalResults names).

(** [for i := range rs { if rs[i].name == name { rs[i].isRequired = true; break } }] *)
Fixpoint mark_first (name : string) (rs : list clusterExtractionResult) : list clusterExtractionResult :=
  match rs with
  | [] => []
  | r :: rs => if decide (exName r = name) then mkExtr (exName r) true :: rs else r :: mark_first name rs
  end.
Definition dedup_result (st : gmap string bool * list clusterExtractionResult)
    (r : clusterExtractionResult) : gmap string bool * list clusterExtractionResult :=
  let '(seen, unique) := st in
  if decide (exName r = "") then st
  else match seen !! exName r with
       | Some req =>
           if isRequired r && negb req then (<[exName r := true]> seen, mark_first (exName r) unique)
           else st
       | None => (<[exName r := isRequired r]> seen, unique ++ [r])
       end.
Definition removeDuplicateResults (results : list clusterExtractionResult)
  : list clusterExtractionResult := (foldl dedup_result (∅, []) results).2.

(** An optional cluster that is not in the store is skipped. *)
Definition resolve (r : clusterExtractionResult) : result (list ClusterV3) :=
  match Store.GetSpecCluster store (exName r) with
  | None => if isRequired r then Err (ErrNew ("cluster " +:+ exName r +:+ " not found")) else Ok []
  | Some cl =>
      x ← wrap_err ("failed to unmarshal cluster " +:+ exName r) (Api.Cluster_UnmarshalV3AndValidate cl);
      Ok [x]
  end.

Definition ExtractClustersFromFilterChains (filterChains : list FilterChain) : result (list ClusterV3) :=
  rs ← map_result (λ f, wrap_err ("failed to extract clusters from filter " +:+ filterName f)
                          (extractClustersFromFilter f)) (filterChains ≫= fcFilters);
  let results := concat rs in
  if decide (length results = 0) then Ok []
  else cls ← map_result resolve (removeDuplicateResults results); Ok (concat cls).

(** ** Clusters by name *)
Lemma unmarshal_validate_name cl c :
  Api.Cluster_UnmarshalV3AndValidate cl = Ok c → Store.spec_name cl = Some (cName c).
Proof using Type.
  unfold Api.Cluster_UnmarshalV3AndValidate, Store.spec_name. intros H.
  apply bind_Ok_inv in H as (m & Hm & [-> _]%pb_check_Ok). by rewrite Hm.
Qed.

Lemma getClusterByName_name n c :
  Store.spec_named store → getClusterByName n = Ok c → cName c = n.
Proof using Type.
  intros Hs. unfold getClusterByName. destruct (Store.GetSpecCluster store n) as [cl|] eqn:Hcl; [|done].
  rewrite wrap_err_Ok. intros H%unmarshal_validate_name. apply Hs in Hcl. congruence.
Qed.

Lemma getClustersByNames_names names cls :
  Store.spec_named store → getClustersByNames names = Ok cls → cName <$> cls = names.
Proof using Type.
  intros Hs. unfold getClustersByNames. rewrite map_result_Ok. induction 1 as [|n c ns cs Hn _ IH]; [done|].
  cbn. by rewrite IH, (getClusterByName_name _ _ Hs Hn).
Qed.

Lemma FromVirtualHostRoutes_names vh cls :
  Store.spec_named store → FromVirtualHostRoutes vh = Ok cls →
  cName <$> cls = vhRoutes vh ≫= extractClusterNamesFromRoute.
Proof using Type.
  intros Hs. unfold FromVirtualHostRoutes. cbn zeta. case_decide as Hl.
  - intros [= <-]. by apply nil_length_inv in Hl as ->.
  - by apply getClustersByNames_names.
Qed.

(** The clusters of a virtual host are, in the order of the routes, exactly
    those its routes forward to, single or weighted: a route to a cluster that is
    not in the store, or not valid, makes the call fail. *)
Theorem FromVirtualHostRoutes_complete vh cls :
  Store.spec_named store → FromVirtualHostRoutes vh = Ok cls →
  cName <$> cls = vhRoutes vh ≫= extractClusterNamesFromRoute ∧
  ∀ r n, r ∈ vhRoutes vh → n ∈ extractClusterNamesFromRoute r →
    ∃ cl c, Store.GetSpecCluster store n = Some cl ∧
      Api.Cluster_UnmarshalV3AndValidate cl = Ok c ∧ c ∈ cls ∧ cName c = n.
Proof using Type.
  intros Hs H. pose proof (FromVirtualHostRoutes_names _ _ Hs H) as Hn. split; [done|].
  intros r n Hr Hin. assert (n ∈ vhRoutes vh ≫= extractClusterNamesFromRoute) as Hall
    by (apply list_elem_of_bind; eauto).
  unfold FromVirtualHostRoutes in H. cbn zeta in H. case_decide as Hl.
  { apply nil_length_inv in Hl. rewrite Hl in Hall. by apply not_elem_of_nil in Hall. }
  unfold getClustersByNames in H. apply map_result_Ok in H.
  destruct (Forall2_elem_l _ _ _ _ H Hall) as (c & Hc & Hget).
  pose proof (getClusterByName_name _ _ Hs Hget) as Hcn. unfold getClusterByName in Hget.
  destruct (Store.GetSpecCluster store n) as [cl|] eqn:Hcl; [|done].
  apply wrap_err_Ok in Hget. exists cl, c. eauto.
Qed.

(** ** Deduplication *)
Lemma elem_name n b (rs : list clusterExtractionResult) : mkExtr n b ∈ rs → n ∈ exName <$> rs.
Proof using Type. intros Hin. apply list_elem_of_fmap. by exists (mkExtr n b). Qed.

Lemma mark_first_names name rs : exName <$> mark_first name rs = exName <$> rs.
Proof using Type. induction rs as [|r rs IH]; [done|]. cbn. case_decide; cbn; by rewrite ?IH. Qed.

Lemma mark_first_elem name rs n b : NoDup (exName <$> rs) →
  mkExtr n b ∈ mark_first name rs ↔
  (n ≠ name ∧ mkExtr n b ∈ rs) ∨ (n = name ∧ b = true ∧ name ∈ exName <$> rs).
Proof using Type.
  induction rs as [|r rs IH]; cbn; intros Hnd; [set_solver|].
  apply NoDup_cons in Hnd as [Hr Hnd]. specialize (IH Hnd). case_decide as Hd.
  - subst. rewrite !elem_of_cons. split.
    + intros [[= -> ->]|Hin]; [by eauto|]. left. split; [|eauto].
      intros ->. by apply Hr, (elem_name _ _ _ Hin).
    + intros [[Hne [<-|Hin]]|(-> & -> & _)]; [done|by eauto|by left].
  - rewrite !elem_of_cons, IH. destruct r as [rn rb]. cbn in *. naive_solver.
Qed.

(** What the two variables of the loop hold after the results [rs]. *)
Record dedup_ok (rs : list clusterExtractionResult)
    (st : gmap string bool * list clusterExtractionResult) : Prop := {
  do_seen : ∀ n b, st.1 !! n = Some b ↔ mkExtr n b ∈ st.2;
  do_names : NoDup (exName <$> st.2);
  do_elem : ∀ n, n ∈ exName <$> st.2 ↔ n ≠ "" ∧ n ∈ exName <$> rs;
  do_req : ∀ n, n ≠ "" → mkExtr n true ∈ st.2 ↔ mkExtr n true ∈ rs
}.

Lemma dedup_skip rs st r : dedup_ok rs st → exName r = "" → dedup_ok (rs ++ [r]) st.
Proof using Type.
  intros [H1 H2 H3 H4] Hr. split; [done..| |].
  - intros n. rewrite H3, fmap_app. set_solver.
  - intros n Hn. rewrite H4, elem_of_app, list_elem_of_singleton by done.
    split; [by left|]. intros [?| <-]; done.
Qed.

Lemma dedup_new rs seen u r : dedup_ok rs (seen, u) → exName r ≠ "" → seen !! exName r = None →
  dedup_ok (rs ++ [r]) (<[exName r := isRequired r]> seen, u ++ [r]).
Proof using Type.
  intros [H1 H2 H3 H4] Hr Hs. cbn in *. destruct r as [rn rb]. cbn in *.
  assert (rn ∉ exName <$> u) as Hnew.
  { intros ([n b] & Heq & Hin)%list_elem_of_fmap. cbn in Heq. subst. apply H1 in Hin. congruence. }
  split; cbn.
  - intros n b. rewrite lookup_insert_Some, elem_of_app, list_elem_of_singleton, H1. split.
    + intros [[-> ->]|[? ?]]; eauto.
    + intros [Hin|[= -> ->]]; [right|by left]. split; [|done].
      intros ->. by apply Hnew, (elem_name _ _ _ Hin).
  - rewrite fmap_app. apply NoDup_app. split; [done|split]; [|apply NoDup_singleton]. set_solver.
  - intros n. rewrite !fmap_app. set_solver.
  - intros n Hn. rewrite !elem_of_app, H4 by done. done.
Qed.

Lemma dedup_again rs seen u r req : dedup_ok rs (seen, u) → exName r ≠ "" →
  seen !! exName r = Some req → isRequired r && negb req = false → dedup_ok (rs ++ [r]) (seen, u).
Proof using Type.
  intros [H1 H2 H3 H4] Hr Hs Hb. cbn in *. destruct r as [rn rb]. cbn in *.
  apply H1 in Hs as Hin. split; cbn; [done..| |].
  - intros n. rewrite H3, fmap_app, elem_of_app. cbn. rewrite list_elem_of_singleton. split; [naive_solver|].
    intros [Hn [?| ->]]; [done|]. apply H3. by apply (elem_name _ _ _ Hin).
  - intros n Hn. rewrite elem_of_app, list_elem_of_singleton, H4 by done. split; [by left|].
    intros [?|[= <- <-]]; [done|]. apply H4; [done|]. by destruct req.
Qed.

Lemma dedup_mark rs seen u r : dedup_ok rs (seen, u) → exName r ≠ "" →
  seen !! exName r = Some false → isRequired r = true →
  dedup_ok (rs ++ [r]) (<[exName r := true]> seen, mark_first (exName r) u).
Proof using Type.
  intros [H1 H2 H3 H4] Hr Hs Hb. cbn in *. destruct r as [rn rb]. cbn in *. subst rb.
  assert (rn ∈ exName <$> u) as Hin by (apply H1 in Hs; by apply (elem_name _ _ _ Hs)).
  split; cbn.
  - intros n b. rewrite lookup_insert_Some, mark_first_elem, H1 by done. naive_solver.
  - by rewrite mark_first_names.
  - intros n. rewrite mark_first_names, H3, fmap_app. apply H3 in Hin. set_solver.
  - intros n Hn. rewrite mark_first_elem, elem_of_app, list_elem_of_singleton, H4 by done.
    destruct (decide (n = rn)) as [->|]; [by naive_solver|]. naive_solver.
Qed.

Lemma dedup_step rs st r : dedup_ok rs st → dedup_ok (rs ++ [r]) (dedup_result st r).
Proof using Type.
  intros H. unfold dedup_result. destruct st as [seen u]. case_decide; [by apply dedup_skip|].
  destruct (seen !! exName r) as [req|] eqn:Hs; [|by apply dedup_new].
  destruct (isRequired r && negb req) eqn:Hb; [|by eapply dedup_again].
  apply andb_true_iff in Hb as [? Hb]. destruct req; [done|]. by apply dedup_mark.
Qed.

Lemma dedup_fold rs : dedup_ok rs (foldl dedup_result (∅, []) rs).
Proof using Type.
  induction rs as [|r rs IH] using rev_ind.
  - split; cbn; [|constructor|set_solver..]. intros n b. rewrite lookup_empty. set_solver.
  - rewrite foldl_app. by apply dedup_step.
Qed.

Lemma dedup_results rs :
  NoDup (exName <$> removeDuplicateResults rs) ∧
  ∀ n b, mkExtr n b ∈ removeDuplicateResults rs ↔
    n ≠ "" ∧ n ∈ exName <$> rs ∧ b = bool_decide (mkExtr n true ∈ rs).
Proof using Type.
  destruct (dedup_fold rs) as [H1 H2 H3 H4]. unfold removeDuplicateResults. split; [done|].
  intros n b. split.
  - intros Hin. pose proof (elem_name _ _ _ Hin) as Hn. apply H3 in Hn as [Hne Hn].
    split; [done|]. split; [done|]. symmetry. specialize (H4 n Hne). destruct b.
    + by apply bool_decide_eq_true, H4.
    + apply bool_decide_eq_false. intros Ht%H4. apply H1 in Hin, Ht. congruence.
  - intros (Hne & Hn & ->). specialize (H4 n Hne). case_bool_decide as Ht; [by apply H4|].
    assert (n ∈ exName <$> (foldl dedup_result (∅, []) rs).2) as Hin by (by apply H3).
    apply list_elem_of_fmap in Hin as ([n' b] & Heq & Hin). cbn in Heq. subst n'.
    destruct b; [by apply H4 in Hin|done].
Qed.

(** Deduplication keeps one result per non-empty name, and the result is
    required exactly when some occurrence of the name is. *)
Theorem removeDuplicateResults_spec rs :
  NoDup (exName <$> removeDuplicateResults rs) ∧
  ∀ n b, mkExtr n b ∈ removeDuplicateResults rs ↔
    n ≠ "" ∧ n ∈ exName <$> rs ∧ b = bool_decide (mkExtr n true ∈ rs).
Proof using Type. apply dedup_results. Qed.

(** ** The filter chains of a listener *)
Lemma resolve_names r cls : Store.spec_named store → resolve r = Ok cls →
  cName <$> cls = [exName r] ∨ (cls = [] ∧ isRequired r = false ∧ Store.GetSpecCluster store (exName r) = None).
Proof using Type.
  intros Hs. unfold resolve. destruct (Store.GetSpecCluster store (exName r)) as [cl|] eqn:Hcl.
  - intros H. apply bind_Ok_inv in H as (c & Hc%wrap_err_Ok%unmarshal_validate_name & [= <-]).
    left. apply Hs in Hcl. cbn. congruence.
  - destruct (isRequired r); [done|]. intros [= <-]. by right.
Qed.

Lemma resolve_all_names rs ls : Store.spec_named store → Forall2 (λ r l, resolve r = Ok l) rs ls →
  sublist (cName <$> concat ls) (exName <$> rs).
Proof using Type.
  intros Hs. induction 1 as [|r l rs ls Hr _ IH]; [constructor|]. cbn. rewrite fmap_app.
  destruct (resolve_names _ _ Hs Hr) as [->|(-> & _)]; cbn; by constructor.
Qed.

(** The clusters taken from the filter chains of a listener have pairwise
    distinct names; every cluster found in the HTTP filters, access logs and
    tracing of a connection manager or in a TCP proxy is among them, so a missing
    one is an error; and only clusters that some filter names are. *)
Theorem ExtractClustersFromFilterChains_complete fcs cls :
  Store.spec_named store → ExtractClustersFromFilterChains fcs = Ok cls →
  NoDup (cName <$> cls) ∧
  (∀ f rs n, f ∈ fcs ≫= fcFilters → extractClustersFromFilter f = Ok rs → n ≠ "" →
     mkExtr n true ∈ rs → n ∈ cName <$> cls) ∧
  (∀ n, n ∈ cName <$> cls →
     ∃ f rs, f ∈ fcs ≫= fcFilters ∧ extractClustersFromFilter f = Ok rs ∧ n ∈ exName <$> rs).
Proof using Type.
  intros Hs H. unfold ExtractClustersFromFilterChains in H.
  apply bind_Ok_inv in H as (rss & Hrss%map_result_Ok & H). cbn zeta in H.
  assert (∃ ls, Forall2 (λ r l, resolve r = Ok l) (removeDuplicateResults (concat rss)) ls ∧ cls = concat ls)
    as (ls & Hls & ->).
  { case_decide as Hl.
    - injection H as <-. apply nil_length_inv in Hl. rewrite Hl. exists []. by split; [constructor|].
    - apply bind_Ok_inv in H as (ls & Hls%map_result_Ok & [= <-]). by exists ls. }
  destruct (dedup_results (concat rss)) as [Hnd Hel].
  pose proof (resolve_all_names _ _ Hs Hls) as Hsub.
  split; [by eapply sublist_NoDup|]. split.
  - intros f rs n Hf Hrs Hn Hin. destruct (Forall2_elem_l _ _ _ _ Hrss Hf) as (rs' & Hrs' & He%wrap_err_Ok).
    rewrite Hrs in He. injection He as <-.
    assert (mkExtr n true ∈ concat rss) as Hc by (apply elem_of_concat; eauto).
    assert (mkExtr n true ∈ removeDuplicateResults (concat rss)) as Hr.
    { apply Hel. split; [done|]. split; [by eapply elem_name|]. symmetry. by apply bool_decide_eq_true. }
    destruct (Forall2_elem_l _ _ _ _ Hls Hr) as (l & Hl & Hres).
    destruct (resolve_names _ _ Hs Hres) as [Hnm|(_ & [=] & _)]. cbn in Hnm.
    assert (n ∈ cName <$> l) as (c & -> & Hc')%list_elem_of_fmap by (rewrite Hnm; left).
    apply list_elem_of_fmap. exists c. split; [done|]. apply elem_of_concat. eauto.
  - intros n Hn. assert (n ∈ exName <$> removeDuplicateResults (concat rss)) as Hin
      by (by eapply elem_of_sublist).
    apply list_elem_of_fmap in Hin as ([m b] & -> & Hin). cbn in *.
    apply Hel in Hin as (_ & Hin & _). apply list_elem_of_fmap in Hin as (r & -> & Hin).
    apply elem_of_concat in Hin as (rs & Hr & Hrs).
    destruct (Forall2_elem_r _ _ _ _ Hrss Hrs) as (f & Hf & He%wrap_err_Ok).
    exists f, rs. split; [done|]. split; [done|]. apply list_elem_of_fmap. eauto.
Qed.

(** What is delivered under a name is the cluster that the store holds under it. *)
Definition from_store (cl : ClusterV3) : Prop :=
  ∃ obj, Store.GetSpecCluster store (cName cl) = Some obj ∧ Api.Cluster_UnmarshalV3AndValidate obj = Ok cl.

Lemma extracted_from_store fcs cls cl :
  Store.spec_named store → ExtractClustersFromFilterChains fcs = Ok cls → cl ∈ cls → from_store cl.
Proof using Type.
  intros Hs H Hcl. unfold ExtractClustersFromFilterChains in H. apply bind_Ok_inv in H as (rss & _ & H).
  cbn zeta in H. case_decide; [injection H as <-; by apply not_elem_of_nil in Hcl|].
  apply bind_Ok_inv in H as (ls & Hls%map_result_Ok & [= <-]). apply elem_of_concat in Hcl as (l & Hcl & Hl).
  destruct (Forall2_elem_r _ _ _ _ Hls Hl) as (r & _ & Hr). unfold resolve in Hr.
  destruct (Store.GetSpecCluster store (exName r)) as [obj|] eqn:Hobj; [|by destruct (isRequired r); simplify_eq; apply not_elem_of_nil in Hcl].
  apply bind_Ok_inv in Hr as (x & Hx%wrap_err_Ok & [= <-]). apply list_elem_of_singleton in Hcl as ->.
  pose proof (unmarshal_validate_name _ _ Hx) as Hn. pose proof (Hs _ _ Hobj) as Hn'.
  exists obj. split; [congruence|done].
Qed.

(** A filter of a listener cannot do without a cluster: a TCP proxy forwards to it, or it is
    named in an HTTP filter, an access log or the tracing of a connection manager, in one of the fields
    that name clusters there, at most 50 levels deep. *)
Definition decodes (tc : AnyPb) (data : Merge.json) : Prop :=
  ∃ msg s, any_UnmarshalNew tc = Ok msg ∧ protojson_Marshal msg = Ok s ∧ json_Unmarshal_any s = Ok data.
Inductive needs (f : Filter) (c : string) : Prop :=
| needs_proxy tc sp : filterName f = "envoy.filters.network.tcp_proxy" → filterTypedConfig f = Some tc →
    any_To_TcpProxy tc = Ok (Some sp) → (sp = SpecCluster c ∨ ∃ cs, sp = SpecWeighted (Some cs) ∧ c ∈ cs) → needs f c
| needs_filter tc h hf tc' data field :
    filterName f = "envoy.filters.network.http_connection_manager" → filterTypedConfig f = Some tc →
    any_To_HCM tc = Ok h → hf ∈ hcmHttpFilters h → hfTypedConfig hf = Some tc' → decodes tc' data →
    field ∈ ["cluster"; "cluster_name"; "token_cluster"; "authorization_cluster"] →
    ResUtils.cluster_at field 50 data c → needs f c
| needs_log tc h al tc' data field :
    filterName f = "envoy.filters.network.http_connection_manager" → filterTypedConfig f = Some tc →
    any_To_HCM tc = Ok h → al ∈ hcmAccessLog h → alTypedConfig al = Some tc' → decodes tc' data →
    field ∈ ["cluster"; "cluster_name"] → ResUtils.cluster_at field 50 data c → needs f c
| needs_tracing tc h tr s data field :
    filterName f = "envoy.filters.network.http_connection_manager" → filterTypedConfig f = Some tc →
    any_To_HCM tc = Ok h → hcmTracing h = Some tr → protojson_Marshal_Tracing tr = Ok s →
    json_Unmarshal_any s = Ok data →
    field ∈ ["cluster_name"; "collector_cluster"] → ResUtils.cluster_at field 50 data c → needs f c.

#[local] Arguments find_fields : simpl never.
Lemma Ok_fields fields data names : Ok (find_fields fields data) = Ok names → names = find_fields fields data.
Proof using Type. generalize (find_fields fields data). congruence. Qed.
Lemma find_fields_at fields field data c :
  field ∈ fields → ResUtils.cluster_at field 50 data c → c ∈ find_fields fields data.
Proof using Type.
  intros Hf Hc. unfold find_fields. apply list_elem_of_bind. exists field. split; [|done].
  by apply ResUtils.FindClusterNames_spec; [apply range_fields_perm|].
Qed.
Lemma hcm_names f tc h names c :
  filterTypedConfig f = Some tc → any_To_HCM tc = Ok h → extractClustersFromHCMFilter f = Ok names →
  ∃ logs tracing, map_result extractClustersFromAccessLog (hcmAccessLog h) = Ok logs ∧
    match hcmTracing h with Some tr => extractClustersFromTracing tr | None => Ok [] end = Ok tracing ∧
    (c ∈ names ↔ c ∈ hcmHttpFilters h ≫= extractClustersFromHTTPFilter ∨ c ∈ concat logs ∨ c ∈ tracing).
Proof using Type.
  unfold extractClustersFromHCMFilter. intros -> Hh H. rewrite Hh in H. cbn in H.
  apply bind_Ok_inv in H as (logs & Hl & H). apply bind_Ok_inv in H as (tr & Ht & [= <-]).
  exists logs, tr. by rewrite !elem_of_app.
Qed.
Lemma needs_required f rs c : needs f c → c ≠ "" → extractClustersFromFilter f = Ok rs → mkExtr c true ∈ rs.
Proof using Type.
  intros Hn Hc. unfold extractClustersFromFilter.
  assert (∀ names, c ∈ names → mkExtr c true ∈ toRequiredResults names) as Hreq.
  { intros names Hin. apply list_elem_of_fmap. by exists c. }
  destruct Hn as [tc sp -> Htc Hsp Hto|tc h hf tc' data field -> Htc Hh Hhf Htc' (m & s & Hm & Hs & Hd) Hf Hat
    |tc h al tc' data field -> Htc Hh Hal Htc' (m & s & Hm & Hs & Hd) Hf Hat|tc h tr s data field -> Htc Hh Htr Hs Hd Hf Hat].
  - rewrite decide_False, decide_True by done. intros H. apply bind_Ok_inv in H as (names & H & [= <-]). apply Hreq.
    unfold extractClustersFromTCPProxyFilter in H. rewrite Htc, Hsp in H. cbn in H. injection H as <-.
    destruct Hto as [->|(cs & -> & Hin)]; [rewrite decide_True by done; by left|by apply list_elem_of_filter].
  - rewrite decide_True by done. intros H. apply bind_Ok_inv in H as (names & H & [= <-]). apply Hreq.
    destruct (hcm_names _ _ _ _ c Htc Hh H) as (logs & tr & _ & _ & ->). left. apply list_elem_of_bind.
    exists hf. split; [|done]. unfold extractClustersFromHTTPFilter. rewrite Htc', Hm. cbn. rewrite Hs. cbn. rewrite Hd. by eapply find_fields_at.
  - rewrite decide_True by done. intros H. apply bind_Ok_inv in H as (names & H & [= <-]). apply Hreq.
    destruct (hcm_names _ _ _ _ c Htc Hh H) as (logs & tr & Hl%map_result_Ok & _ & ->). right; left.
    destruct (Forall2_elem_l _ _ _ _ Hl Hal) as (l & Hin & Hx). apply elem_of_concat. exists l. split; [|done].
    unfold extractClustersFromAccessLog in Hx. rewrite Htc', Hm, Hs in Hx. cbn in Hx. rewrite Hd in Hx. apply Ok_fields in Hx as ->.
    eapply find_fields_at; [|done]. set_solver.
  - rewrite decide_True by done. intros H. apply bind_Ok_inv in H as (names & H & [= <-]). apply Hreq.
    destruct (hcm_names _ _ _ _ c Htc Hh H) as (logs & names' & _ & Ht & ->). right; right.
    rewrite Htr in Ht. unfold extractClustersFromTracing in Ht. rewrite Hs in Ht. cbn in Ht. rewrite Hd in Ht. apply Ok_fields in Ht as ->.
    by eapply find_fields_at.
Qed.

(** The clusters of the chains of a listener. *)
Lemma extracted_clusters fcs cls :
  Store.spec_named store → ExtractClustersFromFilterChains fcs = Ok cls →
  NoDup (cName <$> cls) ∧ (∀ cl, cl ∈ cls → from_store cl) ∧
  ∀ fc f c, fc ∈ fcs → f ∈ fcFilters fc → needs f c → c ≠ "" → ∃ cl, cl ∈ cls ∧ cName cl = c.
Proof using Type.
  intros Hs H. destruct (ExtractClustersFromFilterChains_complete _ _ Hs H) as (Hnd & Hreq & _).
  split; [done|]. split; [intros cl; by eapply extracted_from_store|]. intros fc f c Hfc Hf Hn Hc.
  assert (f ∈ fcs ≫= fcFilters) as Hin by (apply list_elem_of_bind; by exists fc).
  pose proof H as Hx. unfold ExtractClustersFromFilterChains in Hx.
  apply bind_Ok_inv in Hx as (rss & Hrss%map_result_Ok & _).
  destruct (Forall2_elem_l _ _ _ _ Hrss Hin) as (rs & _ & Hrs%wrap_err_Ok).
  pose proof (Hreq f rs c Hin Hrs Hc (needs_required _ _ _ Hn Hc Hrs)) as Hc'.
  apply list_elem_of_fmap in Hc' as (cl & -> & ?). by exists cl.
Qed.

(** The clusters of the routes of a virtual host. *)
Lemma routed_clusters vh cls r c :
  Store.spec_named store → FromVirtualHostRoutes vh = Ok cls → r ∈ vhRoutes vh →
  ResUtils.routes_to r c → c ≠ "" → ∃ cl, cl ∈ cls ∧ cName cl = c ∧ from_store cl.
Proof using Type.
  intros Hs H Hr Hto Hc. destruct (FromVirtualHostRoutes_complete _ _ Hs H) as [_ Hall].
  destruct (Hall r c Hr) as (obj & cl & Hobj & Hcl & Hin & Hn); [by apply extract_routes_to|].
  exists cl. split; [done|]. split; [done|]. exists obj. by rewrite Hn.
Qed.
End clusters.

(** ** Witnesses *)
Module Examples.
(** A codec under which the bytes of a cluster are its name, and the value of a
    TCP proxy configuration is the name of its cluster. *)
Definition cl_pb : ProtoMessage ClusterV3 :=
  {| pb_unmarshal b := Ok (mkCV3 b ""); pb_validate _ := None |}.
Definition lib : ClusterLib :=
  {| Msg := string;
     OAuth2Config := string;
     any_UnmarshalNew a := Ok (Value a);
     protojson_Marshal m := Ok m;
     protojson_Marshal_Tracing t := Ok (trContent t);
     any_To_HCM _ := Err (ErrNew "mismatched message type");
     any_To_TcpProxy a := Ok (Some (SpecCluster (Value a)));
     any_To_OAuth2 a := Ok (Value a);
     json_Marshal_OAuth2 c := Ok c;
     json_Marshal_Object o := Ok o;
     json_Unmarshal_any s := Ok (Merge.JObj {[ "cluster" := Merge.JStr s ]});
     range_fields := map_to_list; range_fields_perm _ := Permutation_refl _ |}.
Definition cluster (n : string) : Cluster :=
  mkCluster (mkMeta n "ns" n 1 None None) (Some (mkRaw (Some n) None)).
Definition history : list Store.op :=
  [Store.OSetCluster (cluster "c1"); Store.OSetCluster (cluster "c2")].
Definition vh : VirtualHost :=
  mkVH "vh" ["a.com"]
    [mkRV3 (Some (Prefix "/a")) (Some (ActRoute (Some (SpecCluster "c1")) "")) "";
     mkRV3 (Some (Prefix "/")) (Some (ActRoute (Some (SpecWeighted (Some ["c2"; "c1"]))) "")) ""] "".
(** A TCP proxy to [c1], and a filter that mentions a cluster that does not exist. *)
Definition fcs : list FilterChain :=
  [mkFC "fc" [mkFilter TCPProxy (Some (mkAny "tcp" "c1")); mkFilter "other" (Some (mkAny "x" "c9"))]
     None None ""].
End Examples.

Section witnesses.
#[local] Existing Instances Examples.cl_pb Examples.lib.
Local Abbreviation st := (foldl (Store.exec (λ _, None) (λ _, Err (ErrNew "no certificate"))) Store.NewOptimizedStore Examples.history).

Lemma FromVirtualHostRoutes_complete_witness :
  FromVirtualHostRoutes st Examples.vh = Ok [mkCV3 "c1" ""; mkCV3 "c2" ""; mkCV3 "c1" ""] ∧
  cName <$> [mkCV3 "c1" ""; mkCV3 "c2" ""; mkCV3 "c1" ""] =
    vhRoutes Examples.vh ≫= extractClusterNamesFromRoute.
Proof.
  split; [vm_compute; reflexivity|].
  apply (FromVirtualHostRoutes_complete st Examples.vh [mkCV3 "c1" ""; mkCV3 "c2" ""; mkCV3 "c1" ""]).
  - apply Store.spec_named_history.
  - vm_compute. reflexivity.
Defined.

Lemma ExtractClustersFromFilterChains_complete_witness :
  ExtractClustersFromFilterChains st Examples.fcs = Ok [mkCV3 "c1" ""] ∧
  NoDup (cName <$> [mkCV3 "c1" ""]).
Proof.
  split; [vm_compute; reflexivity|].
  apply (ExtractClustersFromFilterChains_complete st Examples.fcs [mkCV3 "c1" ""]).
  - apply Store.spec_named_history.
  - vm_compute. reflexivity.
Defined.
End witnesses.
End Clusters.
