(* ===== verification/FilterChains.v ===== *)
(** * [internal/xds/resbuilder/filter_chains]: the filter chains of a service

    [params.go] and [builder.go]: the parameters of a chain (tracing, upgrades,
    access logs, TLS, HTTP/2) and the chains, one per TLS secret; and the decoding
    of an [AccessLogConfig] ([api/v1alpha1/accesslogconfig_methods.go]).

    The status of the service, which deprecated settings change, is the state of
    the calls that can change it. *)

From S2P Require Import Prelude GoStrings Types Api ResUtils StringPool DomainSecrets Store Secrets.

Module FilterChains.
Import Envoy.

Definition HTTPConnectionManager : string := "envoy.filters.network.http_connection_manager".

(** The libraries: [anypb.New] of the three messages that are packed here and
    [UnmarshalTo] of a file access log, whose path is all that is changed. *)
Record FileAccessLog := mkFile { filePath : string; fileRest : string }.
Class ChainLib := {
  any_New_HCM : HCM → result AnyPb;
  any_New_DownstreamTls : DownstreamTlsContext → result AnyPb;
  any_New_File : FileAccessLog → result AnyPb;
  any_To_File : AnyPb → result FileAccessLog
}.

(** ** [params.go] *)
Record FilterChainsParams := mkParams {
  VSName : string;
  pUseRemoteAddress : bool;
  pXFFNumTrustedHops : option Z;
  RouteConfigName : string;
  StatPrefix : string;
  pHTTPFilters : list HttpFilterV3;
  pUpgradeConfigs : list UpgradeConfigV3;
  pAccessLogs : list AccessLogV3;
  Domains : list string;
  DownstreamTLSContext : option Envoy.DownstreamTlsContext;
  SecretNameToDomains : gmap NN (list string);
  IsTLS : bool;
  pTracing : option TracingV3;
  pHttp2ProtocolOptions : option Http2OptionsV3
}.
(** [paramsCopy := *params] with its domains and TLS context set. *)
Definition with_tls (p : FilterChainsParams) (domains : list string) (ctx : Envoy.DownstreamTlsContext)
  : FilterChainsParams :=
  mkParams (VSName p) (pUseRemoteAddress p) (pXFFNumTrustedHops p) (RouteConfigName p) (StatPrefix p)
    (pHTTPFilters p) (pUpgradeConfigs p) (pAccessLogs p) domains (Some ctx) (SecretNameToDomains p)
    (IsTLS p) (pTracing p) (pHttp2ProtocolOptions p).

Section chains.
Context {CHL : ChainLib} {PA : ProtoMessage AccessLogV3} {PT : ProtoMessage TracingV3}
  {PU : ProtoMessage UpgradeConfigV3} {PH2 : ProtoMessage Http2OptionsV3}
  {PHCM : ProtoMessage HCM} {PFC : ProtoMessage FilterChain}.

(** ** [builder.go]: the chains *)
Definition default_http2 : Http2OptionsV3 := mkH2 (Some 100%Z) (Some 65536%Z) (Some 1048576%Z) "".

Definition connection_manager (params : FilterChainsParams) : HCM :=
  mkHCM (StatPrefix params) (RouteConfigName params) (pUseRemoteAddress params)
    (pUpgradeConfigs params) (pHTTPFilters params)
    match pHttp2ProtocolOptions params with
    | Some o => Some o
    | None => if IsTLS params then Some default_http2 else None
    end
    (pTracing params) (default 0%Z (pXFFNumTrustedHops params)) (pAccessLogs params) "".

Definition server_names (params : FilterChainsParams) : option (list string) :=
  if IsTLS params && bool_decide (0 < length (Domains params)) &&
     negb (bool_decide ("*" ∈ Domains params))
  then Some (Domains params) else None.

Definition buildFilterChain (params : FilterChainsParams) : result FilterChain :=
  hcm ← wrap_err "failed to validate HTTP connection manager" (pb_check (connection_manager params));
  pbst ← wrap_err "failed to marshal HTTP connection manager to Any" (any_New_HCM hcm);
  socket ← match DownstreamTLSContext params with
           | Some ctx =>
               scfg ← wrap_err "failed to marshal downstream TLS context to Any"
                        (any_New_DownstreamTls ctx);
               Ok (Some scfg)
           | None => Ok None
           end;
  wrap_err "failed to validate filter chain"
    (pb_check (mkFC (VSName params) [mkFilter HTTPConnectionManager (Some pbst)]
       (server_names params) socket "")).

Definition tls_context (secretName : NN) : Envoy.DownstreamTlsContext :=
  mkDTC (Helpers.String secretName) ["h2"; "http/1.1"].

(** [sord] is the order in which Go visits the secrets. *)
Definition BuildFilterChains (sord : gmap NN (list string) → list (NN * list string))
    (params : FilterChainsParams) : result (list FilterChain) :=
  if decide (0 < size (SecretNameToDomains params)) then
    map_result (λ p : NN * list string,
      wrap_err ("failed to build filter chain for domain [" +:+ String.concat " " p.2 +:+ "]")
        (buildFilterChain (with_tls params p.2 (tls_context p.1)))) (sord (SecretNameToDomains params))
  else
    fc ← wrap_err "failed to build filter chain" (buildFilterChain params); Ok [fc].

(** ** Tracing, upgrades, HTTP/2 *)
Definition unmarshalInlineTracing (tracingSpec : RawExtension) : result TracingV3 :=
  tracing ← wrap_err "failed to unmarshal tracing" (pb_unmarshal (raw_bytes tracingSpec));
  wrap_err "failed to validate tracing" (pb_check tracing).

Context (store : Store.OptimizedStore).

Definition resolveTracingRef (vs : VirtualService) (ref : ResourceRef) : result TracingV3 :=
  let tracingRefNs := Helpers.GetNamespace (refNamespace ref) (Namespace (meta vs)) in
  match Store.GetTracing store (Helpers.mkNN tracingRefNs (refName ref)) with
  | None => Err (ErrNew ("tracing " +:+ tracingRefNs +:+ "/" +:+ refName ref +:+ " not found"))
  | Some tr =>
      match Api.Tracing_UnmarshalV3AndValidate tr with
      | (_, Some err) => wrap_err "failed to unmarshal tracing" (Err err)
      | (Some trv3, None) => Ok trv3
      | (None, None) => Err nil_deref
      end
  end.

Definition configureTracing (vs : VirtualService) : result (option TracingV3) :=
  let sp := Common (vs_spec vs) in
  match TracingRaw sp, TracingRef sp with
  | Some _, Some _ => Err (ErrNew "only one of spec.tracing or spec.tracingRef may be set")
  | Some raw, None => t ← unmarshalInlineTracing raw; Ok (Some t)
  | None, Some ref => t ← resolveTracingRef vs ref; Ok (Some t)
  | None, None => Ok None
  end.

Definition configureUpgradeConfigs (vs : VirtualService) : result (list UpgradeConfigV3) :=
  match UpgradeConfigs (Common (vs_spec vs)) with
  | None => Ok []
  | Some ucs =>
      map_result (λ raw,
        uc ← wrap_err "failed to unmarshal upgrade config" (pb_unmarshal (raw_bytes raw));
        wrap_err "failed to validate upgrade config" (pb_check uc)) ucs
  end.

Definition configureHttp2ProtocolOptions (vs : VirtualService) : result (option Http2OptionsV3) :=
  match Http2ProtocolOptions (Common (vs_spec vs)) with
  | None => Ok None
  | Some raw =>
      h2opts ← wrap_err "failed to unmarshal http2ProtocolOptions" (pb_unmarshal (raw_bytes raw));
      h2opts ← wrap_err "failed to validate http2ProtocolOptions" (pb_check h2opts);
      Ok (Some h2opts)
  end.

(** ** Access logs *)
Definition ErrInvalidAnnotationAutogenFilenameValue : error :=
  ErrNew "envoy.kaasops.io/auto-generated-filename annotation value must be true or false".
Definition ErrInvalidAccessLogConfigType : error :=
  ErrNew "access log config type must be of type file".

(** The file name is the one given by [WithAccessLogFileName]. *)
Definition autogen_filename (accessLog : AccessLogV3) (filename : string) : result AccessLogV3 :=
  match alTypedConfig accessLog with
  | None => Err ErrInvalidAccessLogConfigType
  | Some tc =>
      match any_To_File tc with
      | Err _ => Err ErrInvalidAccessLogConfigType
      | Ok fileConfig =>
          a ← wrap_err "failed to marshal fileConfig to anypb"
                (any_New_File (mkFile (filePath fileConfig +:+ "/" +:+ filename +:+ ".log")
                   (fileRest fileConfig)));
          Ok (mkAL3 (alName accessLog) (Some a) (alRest accessLog))
      end
  end.
Definition AccessLogConfig_unmarshalV3 (a : AccessLogConfig) (filename : string) : result AccessLogV3 :=
  accessLog ← Api.unmarshal_spec (alc_spec a);
  match nilmap_get (Annotations (meta a)) Api.annotationAutogenFilename with
  | None => Ok accessLog
  | Some val =>
      match GoStrings.ParseBool val with
      | None => Err ErrInvalidAnnotationAutogenFilenameValue
      | Some enabled => if enabled then autogen_filename accessLog filename else Ok accessLog
      end
  end.
Definition AccessLogConfig_UnmarshalAndValidateV3 (a : AccessLogConfig) (filename : string)
  : result AccessLogV3 :=
  accessLog ← AccessLogConfig_unmarshalV3 a filename; pb_check accessLog.

Definition validateAccessLogConfiguration (vs : VirtualService) : result unit :=
  let sp := Common (vs_spec vs) in
  let count := (if AccessLog sp is Some _ then 1 else 0) + (if AccessLogConfigRef sp is Some _ then 1 else 0) +
    (if bool_decide (0 < length (AccessLogs sp)) then 1 else 0) +
    (if bool_decide (0 < length (AccessLogConfigRefs sp)) then 1 else 0) in
  fail_if (bool_decide (1 < count))
    (ErrNew "can't use accessLog, accessLogConfig, accessLogs and accessLogConfigs at the same time").

Definition hasAccessLogConfiguration (vs : VirtualService) : bool :=
  let sp := Common (vs_spec vs) in
  bool_decide (is_Some (AccessLog sp)) || bool_decide (is_Some (AccessLogConfigRef sp)) ||
  bool_decide (0 < length (AccessLogs sp)) || bool_decide (0 < length (AccessLogConfigRefs sp)).

Definition inline_log (raw : RawExtension) : result AccessLogV3 :=
  accessLog ← wrap_err "failed to unmarshal accessLog" (pb_unmarshal (raw_bytes raw));
  pb_check accessLog.

(** [vs.UpdateStatus(invalid, message)] *)
Definition UpdateStatus (invalid : bool) (message : string) : stM VSObjStatus unit :=
  λ _, (Ok tt, mkVSObjStatus message invalid).

Definition log_of_ref (vs : VirtualService) (ref : ResourceRef) : result AccessLogV3 :=
  let accessLogNs := Helpers.GetNamespace (refNamespace ref) (Namespace (meta vs)) in
  match Store.GetAccessLog store (Helpers.mkNN accessLogNs (refName ref)) with
  | None => Err (ErrNew ("can't find accessLogConfig " +:+ accessLogNs +:+ "/" +:+ refName ref))
  | Some accessLogConfig => AccessLogConfig_UnmarshalAndValidateV3 accessLogConfig (Name (meta vs))
  end.

Definition processDeprecatedAccessLog (raw : RawExtension) : stM VSObjStatus (list AccessLogV3) :=
  _ ← UpdateStatus false "accessLog is deprecated, use accessLogs instead";
  l ← lift (inline_log raw); mret [l].
Definition processDeprecatedAccessLogConfig (vs : VirtualService) (ref : ResourceRef)
  : stM VSObjStatus (list AccessLogV3) :=
  _ ← UpdateStatus false "accessLogConfig is deprecated, use accessLogConfigs instead";
  l ← lift (log_of_ref vs ref); mret [l].
Definition processInlineAccessLogs (accessLogSpecs : list RawExtension) : result (list AccessLogV3) :=
  map_result inline_log accessLogSpecs.
Definition processAccessLogConfigRefs (vs : VirtualService) : result (list AccessLogV3) :=
  map_result (log_of_ref vs) (AccessLogConfigRefs (Common (vs_spec vs))).

Definition configureAccessLogs (vs : VirtualService) : stM VSObjStatus (list AccessLogV3) :=
  let sp := Common (vs_spec vs) in
  _ ← lift (validateAccessLogConfiguration vs);
  if negb (hasAccessLogConfiguration vs) then mret []
  else
    l1 ← match AccessLog sp with Some raw => processDeprecatedAccessLog raw | None => mret [] end;
    l2 ← match AccessLogConfigRef sp with
         | Some ref => processDeprecatedAccessLogConfig vs ref
         | None => mret []
         end;
    l3 ← when (bool_decide (0 < length (AccessLogs sp))) (lift (processInlineAccessLogs (AccessLogs sp)));
    l4 ← when (bool_decide (0 < length (AccessLogConfigRefs sp))) (lift (processAccessLogConfigRefs vs));
    mret (l1 ++ l2 ++ l3 ++ l4).

(** ** TLS *)
Definition validateTLSConfiguration (vs : VirtualService) (listenerIsTLS : bool) : result unit :=
  match listenerIsTLS, TlsCfg (Common (vs_spec vs)) with
  | true, None => Err (ErrNew "tls listener not configured, virtual service has not tls config")
  | false, Some _ => Err (ErrNew "listener is not tls, virtual service has tls config")
  | _, _ => Ok tt
  end.

(** The secrets written to [params]; [clock] as in [Secrets.v]. *)
Definition configureTLS (clock : string → DomainSecrets.Time) (vs : VirtualService)
    (listenerIsTLS : bool) (virtualHost : VirtualHost) : result (gmap NN (list string)) :=
  _ ← validateTLSConfiguration vs listenerIsTLS;
  match TlsCfg (Common (vs_spec vs)) with
  | None => Ok ∅
  | Some c =>
      _ ← Secrets.GetTLSType (Some c);
      Secrets.GetSecretNameToDomains store clock vs (vhDomains virtualHost)
  end.

Definition BuildFilterChainParams (clock : string → DomainSecrets.Time) (vs : VirtualService) (nn : NN)
    (httpFilters : list HttpFilterV3) (listenerIsTLS : bool) (virtualHost : VirtualHost)
  : stM VSObjStatus FilterChainsParams :=
  tracing ← lift (configureTracing vs);
  upgradeConfigs ← lift (configureUpgradeConfigs vs);
  accessLogs ← configureAccessLogs vs;
  secretNameToDomains ← lift (configureTLS clock vs listenerIsTLS virtualHost);
  h2opts ← lift (configureHttp2ProtocolOptions vs);
  mret (mkParams (Helpers.String nn)
    (Helpers.BoolFromPtr (UseRemoteAddress (Common (vs_spec vs))))
    (XFFNumTrustedHops (Common (vs_spec vs))) (Helpers.String nn)
    (GoStrings.ReplaceAll GoStrings.dot GoStrings.dash (Helpers.String nn)) httpFilters upgradeConfigs accessLogs
    [] None secretNameToDomains listenerIsTLS tracing h2opts).

(** ** Conflicts *)
Definition conflicts (vs : VirtualService) : list (bool * string) :=
  let sp := Common (vs_spec vs) in
  [(bool_decide (is_Some (VirtualHostRaw sp)), "virtual host is set, but filter chains are found in listener");
   (bool_decide (0 < length (AdditionalRoutes sp)), "additional routes are set, but filter chains are found in listener");
   (bool_decide (0 < length (HTTPFilters sp)), "http filters are set, but filter chains are found in listener");
   (bool_decide (0 < length (AdditionalHttpFilters sp)), "additional http filters are set, but filter chains are found in listener");
   (bool_decide (is_Some (TlsCfg sp)), "tls config is set, but filter chains are found in listener");
   (bool_decide (is_Some (RBAC sp)), "rbac is set, but filter chains are found in listener");
   (bool_decide (is_Some (UseRemoteAddress sp)), "use remote address is set, but filter chains are found in listener");
   (bool_decide (is_Some (XFFNumTrustedHops sp)), "xff_num_trusted_hops is set, but filter chains are found in listener");
   (bool_decide (is_Some (UpgradeConfigs sp)), "upgrade configs is set, but filter chains are found in listener");
   (bool_decide (is_Some (AccessLog sp)), "access log is set, but filter chains are found in listener");
   (bool_decide (is_Some (AccessLogConfigRef sp)), "access log config is set, but filter chains are found in listener");
   (bool_decide (0 < length (AccessLogs sp)), "access logs are set, but filter chains are found in listener");
   (bool_decide (0 < length (AccessLogConfigRefs sp)), "access log configs are set, but filter chains are found in listener");
   (bool_decide (is_Some (Http2ProtocolOptions sp)), "http2 protocol options are set, but filter chains are found in listener")].
Definition CheckFilterChainsConflicts (vs : VirtualService) : result unit :=
  _ ← map_result (λ c : bool * string, fail_if c.1 (ErrNew ("conflict: " +:+ c.2))) (conflicts vs);
  Ok tt.

(** ** Properties *)

(** A chain as the parameters determine it. *)
Record chain_of (params : FilterChainsParams) (fc : FilterChain) : Prop := {
  co_name : fcName fc = VSName params;
  co_filter : ∃ pbst, any_New_HCM (connection_manager params) = Ok pbst ∧
                fcFilters fc = [mkFilter HTTPConnectionManager (Some pbst)];
  co_names : fcServerNames fc = server_names params;
  co_socket : match DownstreamTLSContext params with
              | Some ctx => ∃ scfg, any_New_DownstreamTls ctx = Ok scfg ∧ fcTransportSocket fc = Some scfg
              | None => fcTransportSocket fc = None
              end
}.

Lemma buildFilterChain_Ok params fc : buildFilterChain params = Ok fc → chain_of params fc.
Proof using Type.
  unfold buildFilterChain. intros H.
  apply bind_Ok_inv in H as (hcm & [-> _]%wrap_err_Ok%pb_check_Ok & H).
  apply bind_Ok_inv in H as (pbst & Hp%wrap_err_Ok & H).
  apply bind_Ok_inv in H as (socket & Hs & [-> _]%wrap_err_Ok%pb_check_Ok).
  split; cbn; [done|by exists pbst|done|]. destruct (DownstreamTLSContext params) as [ctx|].
  - apply bind_Ok_inv in Hs as (scfg & Hs%wrap_err_Ok & [= <-]). by exists scfg.
  - by injection Hs as <-.
Qed.

(** The chains: one per secret, or a single one. *)
Lemma BuildFilterChains_Ok sord params fcs : BuildFilterChains sord params = Ok fcs →
  (SecretNameToDomains params = ∅ ∧ ∃ fc, fcs = [fc] ∧ chain_of params fc) ∨
  (SecretNameToDomains params ≠ ∅ ∧
   Forall2 (λ p fc, chain_of (with_tls params p.2 (tls_context p.1)) fc) (sord (SecretNameToDomains params)) fcs).
Proof using Type.
  unfold BuildFilterChains. case_decide as Hs.
  - intros H%map_result_Ok. right. split; [intros Hz; by rewrite Hz, map_size_empty in Hs; apply Nat.lt_irrefl in Hs|].
    eapply Forall2_impl; [exact H|]. cbn. intros p fc Hfc%wrap_err_Ok. by apply buildFilterChain_Ok.
  - intros H. apply bind_Ok_inv in H as (fc & Hfc%wrap_err_Ok%buildFilterChain_Ok & [= <-]). left.
    split; [|eauto]. apply map_size_empty_iff. lia.
Qed.

(** *** TLS *)
(** On success the secrets cover the domains, and nothing else. *)
Lemma configureTLS_Ok clock vs tls vh m : configureTLS clock vs tls vh = Ok m →
  tls = bool_decide (is_Some (TlsCfg (Common (vs_spec vs)))) ∧
  (tls = false → m = ∅) ∧
  (tls = true → ∀ d, d ∈ vhDomains vh → ∃ nn ds, m !! nn = Some ds ∧ d ∈ ds) ∧
  (∀ nn ds d, m !! nn = Some ds → d ∈ ds → d ∈ vhDomains vh).
Proof using Type.
  unfold configureTLS, validateTLSConfiguration. intros H. apply bind_Ok_inv in H as ([] & Hv & H).
  destruct (TlsCfg (Common (vs_spec vs))) as [c|] eqn:Hc; destruct tls; try done.
  - split; [done|]. split; [done|]. apply bind_Ok_inv in H as (typ & Ht & H).
    unfold Secrets.GetSecretNameToDomains in H. rewrite Hc in H. apply bind_Ok_inv in H as (typ' & _ & H).
    case_decide.
    + destruct (SecretRef c) as [ref|]; [|done]. injection H as <-.
      unfold Secrets.getSecretNameToDomainsViaSecretRef. split.
      * intros _ d Hd. eexists _, _. by rewrite lookup_singleton_eq.
      * by intros nn ds d [_ <-]%lookup_singleton_Some.
    + case_decide; [|done]. unfold Secrets.getSecretNameToDomainsViaAutoDiscovery in H.
      apply Secrets.discover_fold in H as [Hall Hm]. split.
      * intros _ d Hd. destruct (Hall d Hd) as [nn Hnn]. destruct (Hm nn) as [E1 E2].
        destruct (m !! nn) as [ds|] eqn:Hl.
        -- exists nn, ds. split; [done|]. rewrite lookup_empty in E1. cbn in E1. subst.
           by apply list_elem_of_filter.
        -- destruct E2 as [_ E2]. destruct E2 as [? [=]]. right. eauto.
      * intros nn ds d Hl Hd. destruct (Hm nn) as [E1 _]. rewrite Hl, lookup_empty in E1. cbn in E1. subst.
        by apply list_elem_of_filter in Hd as [_ ?].
  - injection H as <-. split; [done|]. split; [done|]. split; [done|].
    intros nn ds d Hl. by rewrite lookup_empty in Hl.
Qed.

(** The parameters a success determines. *)
Lemma BuildFilterChainParams_Ok clock vs nn hf tls vh st params st' :
  BuildFilterChainParams clock vs nn hf tls vh st = (Ok params, st') →
  VSName params = Helpers.String nn ∧ RouteConfigName params = Helpers.String nn ∧
  pHTTPFilters params = hf ∧ Domains params = [] ∧ DownstreamTLSContext params = None ∧
  IsTLS params = tls ∧ configureTLS clock vs tls vh = Ok (SecretNameToDomains params).
Proof using Type.
  unfold BuildFilterChainParams. rewrite stM_bind_Ok. intros (tr & s1 & _ & H).
  apply stM_bind_Ok in H as (uc & s2 & _ & H). apply stM_bind_Ok in H as (al & s3 & _ & H).
  apply stM_bind_Ok in H as (m & s4 & [Hm _]%lift_Ok & H).
  apply stM_bind_Ok in H as (h2 & s5 & _ & H). injection H as <- <-. done.
Qed.

(** *** The secret of a domain

    The service names one secret for all its domains, in its own namespace unless it says
    otherwise; or it asks for discovery, and the store looks for a secret of the domain. *)
Inductive chosen (clock : string → DomainSecrets.Time) (vs : VirtualService) (d : string) : NN → Prop :=
| chosen_by_reference c ref :
    TlsCfg (Common (vs_spec vs)) = Some c → SecretRef c = Some ref → AutoDiscovery c ≠ Some true →
    chosen clock vs d (Helpers.mkNN (match refNamespace ref with Some ns => ns | None => Namespace (meta vs) end) (refName ref))
| chosen_by_discovery c secret :
    TlsCfg (Common (vs_spec vs)) = Some c → SecretRef c = None → AutoDiscovery c = Some true →
    Store.lSecret (Store.GetDomainSecretWithWildcardFallbackInfo (clock d) store d (Namespace (meta vs))) = Some secret →
    chosen clock vs d (Helpers.mkNN (Namespace (meta secret)) (Name (meta secret))).
(** The domains that a secret is chosen for. *)
Definition domains_of (clock : string → DomainSecrets.Time) (vs : VirtualService) (vh : VirtualHost) (s : NN) (ds : list string) : Prop :=
  ds `sublist_of` vhDomains vh ∧ ∀ d, d ∈ ds ↔ d ∈ vhDomains vh ∧ chosen clock vs d s.
(** A chain asks the secret discovery service for a secret and speaks HTTP/2 and HTTP/1.1. *)
Definition presents (fc : FilterChain) (s : NN) : Prop :=
  ∃ a, any_New_DownstreamTls (mkDTC (ResUtils.printed s) ["h2"; "http/1.1"]) = Ok a ∧
    fcTransportSocket fc = Some a.
(** A chain hands connections to a connection manager with the given route configuration and filters. *)
Definition manages (fc : FilterChain) (route : string) (hf : list HttpFilterV3) : Prop :=
  ∃ h a, any_New_HCM h = Ok a ∧ fcFilters fc = [mkFilter "envoy.filters.network.http_connection_manager" (Some a)] ∧
    hcmRouteConfigName h = route ∧ hcmHttpFilters h = hf.

Lemma chain_of_manages params fc : chain_of params fc → manages fc (RouteConfigName params) (pHTTPFilters params).
Proof using Type. intros [_ (a & Ha & Hf) _ _]. by eexists _, a. Qed.
Lemma chain_of_presents params ds s fc : chain_of (with_tls params ds (tls_context s)) fc → presents fc s.
Proof using Type. intros [_ _ _ (a & Ha & Hs)]. exists a. by rewrite <-ResUtils.String_printed. Qed.

(** On success the map assigns to each secret the domains it is chosen for. *)
Lemma configureTLS_chosen clock vs vh m : configureTLS clock vs true vh = Ok m → vhDomains vh ≠ [] →
  (∀ d, d ∈ vhDomains vh → ∃ s, chosen clock vs d s) ∧
  (∀ s, is_Some (m !! s) ↔ ∃ d, d ∈ vhDomains vh ∧ chosen clock vs d s) ∧
  ∀ s ds, m !! s = Some ds → domains_of clock vs vh s ds.
Proof using Type.
  unfold configureTLS, validateTLSConfiguration. intros H Hne. apply bind_Ok_inv in H as ([] & Hv & H).
  destruct (TlsCfg (Common (vs_spec vs))) as [c|] eqn:Hc; [|done].
  apply bind_Ok_inv in H as (typ & _ & H). unfold Secrets.GetSecretNameToDomains in H. rewrite Hc in H.
  rewrite Secrets.GetTLSType_alt in H. destruct (SecretRef c) as [ref|] eqn:Href.
  - rewrite bool_decide_eq_true_2 in H by done. case_bool_decide as Hauto; [done|]. injection H as <-.
    unfold Secrets.getSecretNameToDomainsViaSecretRef.
    set (s0 := Helpers.mkNN (default (Namespace (meta vs)) (refNamespace ref)) (refName ref)).
    assert (∀ d s, chosen clock vs d s ↔ s = s0) as Hch.
    { intros d s. split; [intros [c' ref' ? ? ?|c' sec ? ? ?]; simplify_eq; by destruct (refNamespace ref)|].
      intros ->. unfold s0. replace (default (Namespace (meta vs)) (refNamespace ref)) with
        (match refNamespace ref with Some ns => ns | None => Namespace (meta vs) end) by (by destruct (refNamespace ref)).
      by eapply chosen_by_reference. }
    split_and!.
    + intros d _. exists s0. by apply Hch.
    + intros s. rewrite lookup_singleton_is_Some. setoid_rewrite Hch. split; [intros <-|naive_solver].
      destruct (vhDomains vh) as [|d l]; [done|]. exists d. split; [left|done].
    + intros s ds [<- <-]%lookup_singleton_Some. split; [done|]. intros d. rewrite Hch. naive_solver.
  - rewrite bool_decide_eq_false_2 in H by (by intros ?). case_bool_decide as Hauto; [|done].
    change (Secrets.getSecretNameToDomainsViaAutoDiscovery store clock (vhDomains vh) (Namespace (meta vs)) = Ok m) in H.
    assert (∀ d s, chosen clock vs d s ↔ Secrets.secret_of store clock (Namespace (meta vs)) d = Some s) as Hch.
    { intros d s. unfold Secrets.secret_of, Secrets.domain_secret. split.
      - intros [c' ref' ? ? ?|c' sec ? ? ? Hf]; simplify_eq. by rewrite Hf.
      - destruct (Store.lSecret _) as [sec|] eqn:Hf; [|done]. intros [= <-]. by eapply chosen_by_discovery. }
    destruct (Secrets.auto_discovery_partition store clock (Namespace (meta vs)) (vhDomains vh)) as [Hok Hm].
    specialize (Hm _ H). split_and!.
    + intros d Hd. rewrite H in Hok. destruct (proj1 Hok eq_refl d Hd) as [s Hs]. exists s. by apply Hch.
    + intros s. rewrite Hm. cbn. setoid_rewrite Hch. case_decide as Hnil; split.
      * intros [? Hx]. done.
      * intros (d & Hd & Hs). assert (d ∈ filter (λ d, Secrets.secret_of store clock (Namespace (meta vs)) d = Some s) (vhDomains vh))
          as Hin by by apply list_elem_of_filter. rewrite Hnil in Hin. by apply not_elem_of_nil in Hin.
      * intros _. destruct (filter _ _) as [|d l] eqn:Hf; [done|].
        assert (d ∈ filter (λ d, Secrets.secret_of store clock (Namespace (meta vs)) d = Some s) (vhDomains vh)) as Hin
          by (rewrite Hf; left). apply list_elem_of_filter in Hin. naive_solver.
      * intros _. by eexists.
    + intros s ds. rewrite Hm. cbn. case_decide; [done|]. intros [= <-]. split; [apply sublist_filter|].
      intros d. rewrite list_elem_of_filter, Hch. naive_solver.
Qed.

(** C15. The filter chains of a service whose virtual host has a domain.  Success implies that
    listener and service agree on TLS.  Every chain has the name of the service and a
    connection manager for its route configuration and HTTP filters.  With TLS
    every domain has a secret, the one the service refers to or the one that discovery in the
    store finds for the domain, and there is exactly one chain for each of these secrets: it asks
    for the secret by its namespace and name, and selects by server name exactly the domains of the virtual host
    that the secret is chosen for, in their order, unless the wildcard is among them, when
    it selects nothing.  Without TLS there is one chain that selects nothing and encrypts nothing. *)
Theorem chains_per_secret clock sord vs nn hf tls vh st params st' fcs :
  (∀ m, sord m ≡ₚ map_to_list m) → vhDomains vh ≠ [] →
  BuildFilterChainParams clock vs nn hf tls vh st = (Ok params, st') →
  BuildFilterChains sord params = Ok fcs →
  (tls = true ↔ is_Some (TlsCfg (Common (vs_spec vs)))) ∧
  (∀ fc, fc ∈ fcs → fcName fc = ResUtils.printed nn ∧ manages fc (ResUtils.printed nn) hf) ∧
  if tls then
    (∀ d, d ∈ vhDomains vh → ∃ s, chosen clock vs d s) ∧
    ∃ secrets, NoDup secrets ∧ (∀ s, s ∈ secrets ↔ ∃ d, d ∈ vhDomains vh ∧ chosen clock vs d s) ∧
      Forall2 (λ s fc, presents fc s ∧ ∃ ds, domains_of clock vs vh s ds ∧
        fcServerNames fc = if decide ("*" ∈ ds) then None else Some ds) secrets fcs
  else ∃ fc, fcs = [fc] ∧ fcTransportSocket fc = None ∧ fcServerNames fc = None.
Proof using Type.
  intros Hord Hne Hp Hb. apply BuildFilterChainParams_Ok in Hp as (Hvn & Hrn & Hhf & Hd & Hctx & Htls & Hc).
  rewrite ResUtils.String_printed in Hvn, Hrn. pose proof (configureTLS_Ok _ _ _ _ _ Hc) as (Hagree & Hfalse & _).
  apply BuildFilterChains_Ok in Hb. split_and!.
  - rewrite Hagree. apply bool_decide_eq_true.
  - intros fc Hfc. destruct Hb as [[_ (fc' & -> & Hco)]|[_ Hb]].
    + apply list_elem_of_singleton in Hfc as ->. split; [rewrite (co_name _ _ Hco); exact Hvn|].
      rewrite <-Hhf. pose proof (chain_of_manages _ _ Hco) as Hm. by rewrite Hrn in Hm.
    + destruct (Forall2_elem_r _ _ _ _ Hb Hfc) as (p & _ & Hco). split; [rewrite (co_name _ _ Hco); exact Hvn|].
      rewrite <-Hhf. pose proof (chain_of_manages _ _ Hco) as Hm. cbn in Hm. by rewrite Hrn in Hm.
  - destruct tls.
    + destruct (configureTLS_chosen _ _ _ _ Hc Hne) as (Hall & Hsec & Hdom). split; [done|].
      exists (sord (SecretNameToDomains params)).*1. split_and!.
      * rewrite Hord. apply NoDup_fst_map_to_list.
      * intros s. rewrite <-Hsec, Hord, list_elem_of_fmap. split.
        -- intros ([s' ds] & -> & Hin%elem_of_map_to_list). by exists ds.
        -- intros [ds Hds]. exists (s, ds). by rewrite elem_of_map_to_list.
      * destruct Hb as [[Hz _]|[_ Hb]].
        { destruct (vhDomains vh) as [|d l]; [done|]. destruct (Hall d ltac:(left)) as [s Hs].
          destruct (proj2 (Hsec s)) as [ds Hds]; [exists d; split; [left|done]|]. by rewrite Hz, lookup_empty in Hds. }
        apply Forall2_fmap_l. eapply Forall2_impl_elem; [exact Hb|]. intros [s ds] fc Hin _ Hco.
        rewrite Hord in Hin. apply elem_of_map_to_list in Hin. split; [by eapply chain_of_presents|].
        exists ds. split; [by apply Hdom|]. rewrite (co_names _ _ Hco). unfold server_names. cbn. rewrite Htls. cbn.
        destruct (Hdom s ds Hin) as [_ Hds]. destruct (proj1 (Hsec s)) as (d & Hdv & Hdc); [by exists ds|].
        assert (d ∈ ds) as Hdin by (by apply Hds).
        rewrite bool_decide_eq_true_2 by (destruct ds; [by apply not_elem_of_nil in Hdin|cbn; lia]).
        cbn. destruct (decide ("*" ∈ ds)) as [Hw|Hw]; [rewrite bool_decide_eq_true_2 by done|rewrite bool_decide_eq_false_2 by done]; done.
    + destruct Hb as [[_ (fc & -> & [_ _ Hn Hsock])]|[Hz _]]; [|by rewrite Hfalse in Hz].
      exists fc. rewrite Hctx in Hsock. split_and!; [done..|]. rewrite Hn. unfold server_names. by rewrite Hd, andb_false_r.
Qed.

(** *** Conflicts *)
(** A listener that brings its own filter chains leaves a service only its
    listener and its tracing: the check passes exactly when every other setting is
    absent. *)
Theorem CheckFilterChainsConflicts_spec vs :
  CheckFilterChainsConflicts vs = Ok tt ↔
  ∃ l tref traw, Common (vs_spec vs) =
    mkCommon None l None None [] None [] [] [] [] None None None None tref traw None.
Proof using Type.
  unfold CheckFilterChainsConflicts. destruct (Common (vs_spec vs)) eqn:Hc. split.
  - intros H. apply bind_Ok_inv in H as (us & Hus & _). apply map_result_Ok in Hus.
    unfold conflicts in Hus. rewrite Hc in Hus. cbn in Hus.
    repeat match goal with
    | H : Forall2 _ (_ :: _) _ |- _ => inversion_clear H
    | H : Forall2 _ [] _ |- _ => clear H
    | H : fail_if _ _ = Ok _ |- _ => apply fail_if_inv in H; cbn in H
    end.
    repeat match goal with
    | H : bool_decide (is_Some _) = false |- _ => apply bool_decide_eq_false, eq_None_not_Some in H; subst
    | H : bool_decide (0 < length ?l) = false |- _ =>
        apply bool_decide_eq_false, Nat.nlt_ge, Nat.le_0_r, nil_length_inv in H; subst
    end. by eexists _, _, _.
  - intros (l & tref & traw & [= -> -> -> -> -> -> -> -> -> -> -> -> -> -> -> -> ->]).
    unfold conflicts. by rewrite Hc.
Qed.

(** *** Access logs *)
Definition log_settings (sp : CommonSpec) : list bool :=
  [bool_decide (is_Some (AccessLog sp)); bool_decide (is_Some (AccessLogConfigRef sp));
   bool_decide (0 < length (AccessLogs sp)); bool_decide (0 < length (AccessLogConfigRefs sp))].

(** At most one of the four ways to configure access logs may be used, the
    logs are those of that one, and the status of the service changes exactly
    when it is one of the two deprecated ones. *)
Theorem configureAccessLogs_spec vs st logs st' :
  configureAccessLogs vs st = (Ok logs, st') →
  let sp := Common (vs_spec vs) in
  match log_settings sp with
  | [false; false; false; false] => logs = [] ∧ st' = st
  | [true; false; false; false] =>
      Forall2 (λ raw l, inline_log raw = Ok l) (option_list (AccessLog sp)) logs ∧
      st' = mkVSObjStatus "accessLog is deprecated, use accessLogs instead" false
  | [false; true; false; false] =>
      Forall2 (λ ref l, log_of_ref vs ref = Ok l) (option_list (AccessLogConfigRef sp)) logs ∧
      st' = mkVSObjStatus "accessLogConfig is deprecated, use accessLogConfigs instead" false
  | [false; false; true; false] => Forall2 (λ raw l, inline_log raw = Ok l) (AccessLogs sp) logs ∧ st' = st
  | [false; false; false; true] =>
      Forall2 (λ ref l, log_of_ref vs ref = Ok l) (AccessLogConfigRefs sp) logs ∧ st' = st
  | _ => False
  end.
Proof using Type.
  unfold configureAccessLogs, validateAccessLogConfiguration, hasAccessLogConfiguration, log_settings.
  destruct (Common (vs_spec vs)) as [? ? ? al als alr alrs] eqn:Hsp; cbn -[length].
  unfold processAccessLogConfigRefs. rewrite Hsp. cbn -[length].
  rewrite stM_bind_Ok. intros (u & s1 & [Hv ->]%lift_Ok & H).
  apply fail_if_inv, bool_decide_eq_false in Hv. revert Hv H.
  destruct al, alr, (bool_decide (0 < length als)), (bool_decide (0 < length alrs)); cbn; intros Hv H;
    try (exfalso; lia).
  all: unfold processDeprecatedAccessLog, processDeprecatedAccessLogConfig, UpdateStatus, lift,
    processInlineAccessLogs, mbind, mret, stM_bind, stM_ret in H; cbn in H.
  - destruct (inline_log _) as [x|] eqn:Hx; [|done]. injection H as <- <-. by repeat constructor.
  - destruct (log_of_ref _ _) as [x|] eqn:Hx; [|done]. injection H as <- <-. by repeat constructor.
  - destruct (map_result _ _) as [x|] eqn:Hx; [|done]. injection H as <- <-.
    rewrite app_nil_r. by apply map_result_Ok in Hx.
  - destruct (map_result _ _) as [x|] eqn:Hx; [|done]. injection H as <- <-. by apply map_result_Ok in Hx.
  - by injection H as <- <-.
Qed.
End chains.

(** ** Witnesses *)
Module Examples.
(** Any codec that accepts everything will do: a packed message is its name. *)
Definition lib : ChainLib :=
  {| any_New_HCM h := Ok (mkAny "hcm" (hcmRouteConfigName h));
     any_New_DownstreamTls c := Ok (mkAny "tls" (sdsSecretName c));
     any_New_File f := Ok (mkAny "file" (filePath f));
     any_To_File a := Ok (mkFile (Value a) "") |}.
Definition al_pb : ProtoMessage AccessLogV3 :=
  {| pb_unmarshal s := Ok (mkAL3 s None ""); pb_validate _ := None |}.
Definition tr_pb : ProtoMessage TracingV3 := {| pb_unmarshal s := Ok (mkTR3 s); pb_validate _ := None |}.
Definition uc_pb : ProtoMessage UpgradeConfigV3 := {| pb_unmarshal s := Ok (mkUC3 s); pb_validate _ := None |}.
Definition h2_pb : ProtoMessage Http2OptionsV3 :=
  {| pb_unmarshal s := Ok (mkH2 None None None s); pb_validate _ := None |}.
Definition hcm_pb : ProtoMessage HCM :=
  {| pb_unmarshal s := Ok (mkHCM s s false [] [] None None 0 [] ""); pb_validate _ := None |}.
Definition fc_pb : ProtoMessage FilterChain :=
  {| pb_unmarshal s := Ok (mkFC s [] None None ""); pb_validate _ := None |}.
Definition spec (tls : option TlsConfig) (log : option RawExtension) : CommonSpec :=
  mkCommon None (Some (mkRef "l" None)) tls log [] None [] [] [] [] None None None None None None None.
Definition vs (tls : option TlsConfig) (log : option RawExtension) : VirtualService :=
  mkVS (mkMeta "a" "ns" "u" 1 None None) (mkVSSpec (spec tls log) None [] ∅) (mkVSObjStatus "" false).
Definition vh : VirtualHost := mkVH "ns/a" ["a.com"; "b.com"] [] "".
Definition nn : NN := Helpers.mkNN "ns" "a".
(** The secret [ns/s] for both domains. *)
Definition tls : TlsConfig := mkTls (Some (mkRef "s" None)) None.
Definition secret : NN := Helpers.mkNN "ns" "s".
Definition params : FilterChainsParams :=
  mkParams "ns/a" false None "ns/a" "ns/a" [] [] [] [] None {[ secret := ["a.com"; "b.com"] ]} true None None.
End Examples.

Section witnesses.
#[local] Existing Instances Examples.lib Examples.al_pb Examples.tr_pb Examples.uc_pb Examples.h2_pb
  Examples.hcm_pb Examples.fc_pb.

Lemma chains_per_secret_witness :
  let fc := mkFC "ns/a" [mkFilter HTTPConnectionManager (Some (mkAny "hcm" "ns/a"))]
    (Some ["a.com"; "b.com"]) (Some (mkAny "tls" "ns/s")) "" in
  BuildFilterChains map_to_list Examples.params = Ok [fc] ∧
  ∃ secrets, Forall2 (λ s fc, presents fc s) secrets [fc].
Proof.
  intros fc. assert (BuildFilterChains map_to_list Examples.params = Ok [fc]) as Hfc by (vm_compute; reflexivity).
  split; [exact Hfc|].
  destruct (chains_per_secret Store.NewOptimizedStore (λ _, 0%Z) map_to_list
    (Examples.vs (Some Examples.tls) None) Examples.nn [] true Examples.vh (mkVSObjStatus "" false)
    Examples.params (mkVSObjStatus "" false) [fc]) as (_ & _ & _ & secrets & _ & _ & Hs).
  - intros m. reflexivity.
  - discriminate.
  - vm_compute. reflexivity.
  - exact Hfc.
  - exists secrets. eapply Forall2_impl; [exact Hs|]. intros s f [Hp _]. exact Hp.
Defined.

Lemma configureAccessLogs_spec_witness :
  configureAccessLogs Store.NewOptimizedStore (Examples.vs None (Some (mkRaw (Some "log") None)))
    (mkVSObjStatus "" false) =
    (Ok [mkAL3 "log" None ""], mkVSObjStatus "accessLog is deprecated, use accessLogs instead" false) ∧
  Forall2 (λ raw l, inline_log raw = Ok l) [mkRaw (Some "log") None] [mkAL3 "log" None ""].
Proof.
  split; [vm_compute; reflexivity|].
  apply (configureAccessLogs_spec Store.NewOptimizedStore (Examples.vs None (Some (mkRaw (Some "log") None)))
    (mkVSObjStatus "" false) [mkAL3 "log" None ""]
    (mkVSObjStatus "accessLog is deprecated, use accessLogs instead" false)).
  vm_compute. reflexivity.
Defined.
End witnesses.
End FilterChains.
