(* ===== verification/SnapshotCache.v ===== *)
(** * [internal/xds/cache/wrapper.go]

    The snapshot cache: the node IDs it has seen, wrapped around go-control-plane's
    cache.  The library's snapshots and cache are the interfaces [SnapshotAPI] and
    [CacheAPI]: their operations and the laws the controller relies on.  The
    wrapper's lock makes every method atomic. *)

From S2P Require Import Prelude GoStrings Types.
Import Envoy.

(** [cache.IndexResourcesByName]: a later resource replaces an earlier one of the
    same name. *)
Definition index_by_name (rs : list Resource) : gmap string Resource :=
  foldl (λ m r, <[GetResourceName r := r]> m) ∅ rs.

(** ** [cache.Snapshot] *)
Class SnapshotAPI := {
  Snapshot : Type;
  (** [&cache.Snapshot{}] *)
  EmptySnapshot : Snapshot;
  (** [snapshot.Resources[index] = cache.NewResources(version, items)] *)
  SetResources : Snapshot → ResType → string → list Resource → Snapshot;
  GetVersion : Snapshot → ResType → string;
  GetResources : Snapshot → ResType → gmap string Resource;
  (** [cache.NewSnapshot(version, resources)] *)
  NewSnapshot : string → gmap ResType (list Resource) → result Snapshot;
  (** [snapshot.Consistent()] *)
  Consistent : Snapshot → option error;
  (** The orders in which Go ranges over a map of resources and over the node IDs. *)
  range_resources : gmap string Resource → list (string * Resource);
  range_nodes : gset string → list string;
  range_resources_perm m : range_resources m ≡ₚ map_to_list m;
  range_nodes_perm X : range_nodes X ≡ₚ elements X;
  GetVersion_empty t : GetVersion EmptySnapshot t = "";
  GetResources_empty t : GetResources EmptySnapshot t = ∅;
  GetVersion_set s t v rs t' :
    GetVersion (SetResources s t v rs) t' = if decide (t = t') then v else GetVersion s t';
  GetResources_set s t v rs t' :
    GetResources (SetResources s t v rs) t' =
    if decide (t = t') then index_by_name rs else GetResources s t';
  NewSnapshot_spec v m : ∃ s, NewSnapshot v m = Ok s ∧ ∀ t,
    GetVersion s t = match m !! t with Some _ => v | None => "" end ∧
    GetResources s t = match m !! t with Some rs => index_by_name rs | None => ∅ end
}.

(** ** [cache.SnapshotCache] of the library: a snapshot is stored before the open
    watches are answered, which may fail. *)
Class CacheAPI `{SnapshotAPI} := {
  Cache : Type;
  NewCache : Cache;
  cache_set : Cache → string → Snapshot → Cache * option error;
  cache_get : Cache → string → result Snapshot;
  cache_clear : Cache → string → Cache;
  cache_get_new n : is_ok (cache_get NewCache n) = false;
  cache_get_set c n s n' :
    cache_get (cache_set c n s).1 n' = if decide (n = n') then Ok s else cache_get c n';
  cache_get_clear c n n' :
    n ≠ n' → cache_get (cache_clear c n) n' = cache_get c n';
  cache_get_clear_eq c n : is_ok (cache_get (cache_clear c n) n) = false
}.

Module SnapshotCache.
Section wrapper.
Context `{CacheAPI}.

Record t := mkSC { inner : Cache; nodeIDs : gset string }.

Definition NewSnapshotCache : t := mkSC NewCache ∅.

Definition listener_of (r : Resource) : option ListenerV3 :=
  match r with ResListener l => Some l | _ => None end.

(** The listeners of a snapshot, in the iteration order of the resource map. *)
Definition getListenersFromSnapshot (snapshot : Snapshot) : list ListenerV3 :=
  omap listener_of (range_resources (GetResources snapshot ListenerType)).*2.

(** [fmt.Sprintf("%s:%d", host, port)] with the zero values of nil messages. *)
Definition hostPort (l : ListenerV3) : string :=
  match (a ← lAddress l; GetSocketAddress a) with
  | Some sa => Address sa +:+ ":" +:+ GoStrings.Itoa (PortValue sa)
  | None => "" +:+ ":" +:+ GoStrings.Itoa 0
  end.

Fixpoint check_addresses (addressListener : gmap string string) (ls : list ListenerV3)
  : result unit :=
  match ls with
  | [] => Ok tt
  | l :: ls =>
      match addressListener !! hostPort l with
      | Some existListener =>
          Err (ErrNew ("'" +:+ lName l +:+ "' has duplicate address '" +:+ hostPort l +:+
                 "' as existing listener '" +:+ existListener +:+ "'"))
      | None => check_addresses (<[hostPort l := lName l]> addressListener) ls
      end
  end.

Definition validateCache (snapshot : Snapshot) : result unit :=
  check_addresses ∅ (getListenersFromSnapshot snapshot).

Definition SetSnapshot (c : t) (nodeID : string) (snapshot : Snapshot) : t * option error :=
  let c := mkSC (inner c) ({[nodeID]} ∪ nodeIDs c) in
  match validateCache snapshot with
  | Err e => (c, Some (ErrWrap "snapshot is invalid" e))
  | Ok _ =>
      let '(inner', err) := cache_set (inner c) nodeID snapshot in
      (mkSC inner' (nodeIDs c), err)
  end.

Definition GetSnapshot (c : t) (nodeID : string) : result Snapshot := cache_get (inner c) nodeID.

Definition ClearSnapshot (c : t) (nodeID : string) : t :=
  mkSC (cache_clear (inner c) nodeID) (nodeIDs c ∖ {[nodeID]}).

Definition GetNodeIDsAsMap (c : t) : gset string := nodeIDs c.
Definition GetNodeIDs (c : t) : list string := range_nodes (nodeIDs c).

(** The values of one resource type, in the iteration order of the map. *)
Definition resources_of (c : t) (nodeID : string) (typ : ResType) : result (list Resource) :=
  snapshot ← GetSnapshot c nodeID; Ok (range_resources (GetResources snapshot typ)).*2.

Definition GetClusters (c : t) (nodeID : string) : result (list ClusterV3) :=
  (λ data : list Resource, omap (λ r, match r with ResCluster x => Some x | _ => None end) data)
    <$> resources_of c nodeID ClusterType.
Definition GetSecrets (c : t) (nodeID : string) : result (list SecretV3) :=
  (λ data : list Resource, omap (λ r, match r with ResSecret x => Some x | _ => None end) data)
    <$> resources_of c nodeID SecretType.
Definition GetRouteConfigurations (c : t) (nodeID : string) : result (list RouteConfiguration) :=
  (λ data : list Resource, omap (λ r, match r with ResRoute x => Some x | _ => None end) data)
    <$> resources_of c nodeID RouteType.
Definition GetListeners (c : t) (nodeID : string) : result (list ListenerV3) :=
  snapshot ← GetSnapshot c nodeID; Ok (getListenersFromSnapshot snapshot).

Definition GetVersions (c : t) (nodeID : string) : result (gmap string string) :=
  snapshot ← GetSnapshot c nodeID;
  Ok {[ "clusters" := GetVersion snapshot ClusterType; "routes" := GetVersion snapshot RouteType;
        "listeners" := GetVersion snapshot ListenerType; "secrets" := GetVersion snapshot SecretType ]}.

(** Per-resource hashes: deterministic marshalling and SHA-256 are arguments. *)
Section hashes.
Context (marshal : Resource → result string) (sha256_hex : string → string).
Record ResourceVersion := mkRV { rvName : string; rvVersion : string }.
Record ResourceVersions := mkRVs {
  rvClusters : list ResourceVersion; rvListeners : list ResourceVersion;
  rvRoutes : list ResourceVersion; rvSecrets : list ResourceVersion
}.
Definition computeResourceHash (msg : Resource) : string :=
  match marshal msg with Err _ => "error" | Ok data => sha256_hex data end.
Definition computeResourceVersions (resources : gmap string Resource) : list ResourceVersion :=
  (λ p, mkRV p.1 (computeResourceHash p.2)) <$> range_resources resources.
Definition GetResourceVersions (c : t) (nodeID : string) : result ResourceVersions :=
  snapshot ← GetSnapshot c nodeID;
  Ok (mkRVs (computeResourceVersions (GetResources snapshot ClusterType))
        (computeResourceVersions (GetResources snapshot ListenerType))
        (computeResourceVersions (GetResources snapshot RouteType))
        (computeResourceVersions (GetResources snapshot SecretType))).
End hashes.

(** ** Lemmas *)
Lemma range_resources_empty : range_resources ∅ = [].
Proof using Type. apply Permutation_nil. by rewrite range_resources_perm, map_to_list_empty. Qed.
Lemma elem_of_range_resources m k r : (k, r) ∈ range_resources m ↔ m !! k = Some r.
Proof using Type. by rewrite range_resources_perm, elem_of_map_to_list. Qed.
Lemma elem_of_GetNodeIDs c n : n ∈ GetNodeIDs c ↔ n ∈ nodeIDs c.
Proof using Type. unfold GetNodeIDs. by rewrite range_nodes_perm, elem_of_elements. Qed.

Lemma check_addresses_spec m ls :
  check_addresses m ls = Ok tt ↔
  NoDup (hostPort <$> ls) ∧ ∀ l, l ∈ ls → m !! hostPort l = None.
Proof using Type.
  revert m. induction ls as [|l ls IH]; intros m; cbn [check_addresses].
  { split; [|done]. split; [constructor|]. by intros ? ?%not_elem_of_nil. }
  rewrite fmap_cons, NoDup_cons. destruct (m !! hostPort l) as [x|] eqn:Hl.
  { split; [done|]. intros [_ Hn]. rewrite Hn in Hl; [done|left]. }
  rewrite IH. split.
  - intros [Hnd Hn]. split; [split; [|done]|].
    + rewrite list_elem_of_fmap. intros (l' & He & Hl'). specialize (Hn l' Hl').
      by rewrite <-He, lookup_insert_eq in Hn.
    + intros l' [->|Hl']%elem_of_cons; [done|]. specialize (Hn l' Hl').
      by apply lookup_insert_None in Hn as [? _].
  - intros [[Hh Hnd] Hn]. split; [done|]. intros l' Hl'. rewrite lookup_insert_ne; [apply Hn; by right|].
    intros He. apply Hh. rewrite He. by apply list_elem_of_fmap_2.
Qed.

(** A snapshot is accepted exactly when its listeners have distinct addresses. *)
Lemma validateCache_spec snapshot :
  validateCache snapshot = Ok tt ↔ NoDup (hostPort <$> getListenersFromSnapshot snapshot).
Proof using Type.
  unfold validateCache. rewrite check_addresses_spec. setoid_rewrite lookup_empty. naive_solver.
Qed.

(** [SetSnapshot] stores the snapshot exactly when no two listeners of the
    snapshot share an address and port; a rejected snapshot leaves the node's
    previous snapshot and every other node's snapshot in place.  The node is
    remembered in both cases. *)
Theorem SetSnapshot_spec c nodeID snapshot :
  let '(c', err) := SetSnapshot c nodeID snapshot in
  nodeIDs c' = {[nodeID]} ∪ nodeIDs c ∧
  (NoDup (hostPort <$> getListenersFromSnapshot snapshot) →
     ∀ n, GetSnapshot c' n = if decide (nodeID = n) then Ok snapshot else GetSnapshot c n) ∧
  (¬ NoDup (hostPort <$> getListenersFromSnapshot snapshot) →
     (∀ n, GetSnapshot c' n = GetSnapshot c n) ∧
     ∃ e, err = Some (ErrWrap "snapshot is invalid" e)).
Proof using Type.
  unfold SetSnapshot. destruct (validateCache snapshot) as [[]|e] eqn:Hv.
  - apply validateCache_spec in Hv.
    pose proof (λ n, cache_get_set (inner c) nodeID snapshot n) as Hget.
    cbn. destruct (cache_set (inner c) nodeID snapshot) as [inner' err]. split; [done|].
    split; [by intros _|by intros ?].
  - assert (¬ NoDup (hostPort <$> getListenersFromSnapshot snapshot)) as Hn.
    { intros Hnd%validateCache_spec. congruence. }
    split; [done|]. split; [done|]. intros _. split; [done|]. by eexists.
Qed.
End wrapper.
End SnapshotCache.

(** ** Instances of the library interfaces as finite maps *)
Module MapCache.
Record snap := mkSnap { versions : gmap ResType string; items : gmap ResType (gmap string Resource) }.
Global Program Instance api : SnapshotAPI := {|
  Snapshot := snap;
  EmptySnapshot := mkSnap ∅ ∅;
  SetResources s t v rs := mkSnap (<[t := v]> (versions s)) (<[t := index_by_name rs]> (items s));
  GetVersion s t := default "" (versions s !! t);
  GetResources s t := default ∅ (items s !! t);
  NewSnapshot v m := Ok (mkSnap ((λ _, v) <$> m) (index_by_name <$> m));
  Consistent _ := None;
  range_resources := map_to_list;
  range_nodes := elements
|}.
Ltac solve_api :=
  intros; cbn; rewrite ?lookup_insert;
  first [ by case_decide | done
        | eexists; split; [done|]; let t := fresh in intros t; cbn; rewrite !lookup_fmap;
          match goal with |- context [?m !! t] => by destruct (m !! t) end ].
Solve All Obligations with solve_api.

Global Program Instance cache : CacheAPI := {|
  Cache := gmap string snap;
  NewCache := ∅;
  cache_set c n s := (<[n := s]> c, None);
  cache_get c n := match c !! n with
    | Some s => Ok s
    | None => Err (ErrNew ("no snapshot found for node " +:+ n)) end;
  cache_clear c n := delete n c
|}.
Solve All Obligations with
  intros; cbn; rewrite ?lookup_insert, ?lookup_delete_eq, ?lookup_delete_ne by done;
  by try case_decide.
End MapCache.
