(* ===== verification/Mixer.v ===== *)
(** * [internal/xds/updater/mixer.go]

    The mixer collects the resources of the virtual services per node and
    assembles the listeners.  Go ranges over its maps in a random order: [Mix]
    takes the order in which the listener entries are visited.  A nil listener
    (a reference to a listener that is not in the store) is a nil-pointer panic,
    the value [nil_deref]. *)

From S2P Require Import Prelude GoStrings Types StringPool Api DomainSecrets ResUtils Store.
Import Envoy.

Module Mixer.

Record t := mkMixer {
  listeners : gmap NN (gmap string (list FilterChain));
  data : gmap string (gmap ResType (list Resource));
  nodeIDs : gset string
}.

Definition NewMixer : t := mkMixer ∅ ∅ ∅.

Definition Add (m : t) (nodeID : string) (resourceType : ResType) (resource : Resource) : t :=
  match data m !! nodeID with
  | Some resources =>
      mkMixer (listeners m)
        (<[nodeID := <[resourceType := default [] (resources !! resourceType) ++ [resource]]>
             resources]> (data m))
        (nodeIDs m)
  | None =>
      mkMixer (listeners m) (<[nodeID := {[ resourceType := [resource] ]}]> (data m))
        ({[nodeID]} ∪ nodeIDs m)
  end.

Definition AddListenerParams (m : t) (listenerNN : NN) (fcs : list FilterChain) (nodeID : string) : t :=
  let perNode := default ∅ (listeners m !! listenerNN) in
  mkMixer
    (<[listenerNN := <[nodeID := default [] (perNode !! nodeID) ++ fcs]> perNode]> (listeners m))
    (data m) ({[nodeID]} ∪ nodeIDs m).

Definition sortFilterChains (fcs : list FilterChain) : list FilterChain := sort_by_key fcName fcs.
Definition sortResources (resources : list Resource) : list Resource :=
  sort_by_key GetResourceName resources.

(** The entries the two nested listener loops visit. *)
Definition entry : Type := NN * string * list FilterChain.
Definition listener_entries (m : t) : list entry :=
  map_to_list (listeners m) ≫= (λ p : NN * gmap string (list FilterChain),
    (λ q : string * list FilterChain, (p.1, q.1, q.2)) <$> map_to_list p.2).

Abbreviation ResMap := (gmap ResType (list Resource)).

Section mix.
Context `{!ProtoMessage ListenerV3}.
Context (store : Store.OptimizedStore).

(** The body of the listener loops: the listener served to the node. *)
Definition build_listener (e : entry) : result ListenerV3 :=
  let '(listenerNN, nodeID, fcs) := e in
  match Store.GetListener store listenerNN with
  | None => Err nil_deref
  | Some listener =>
      lv3 ← Api.Listener_UnmarshalV3 listener;
      Ok (mkLV3 (Helpers.String listenerNN) (lAddress lv3) (lListenerFilters lv3)
            (sortFilterChains fcs) (lRest lv3))
  end.

Definition mix_listener (result : gmap string ResMap) (e : entry) : Prelude.result (gmap string ResMap) :=
  lv3 ← build_listener e;
  let nodeID := e.1.2 in
  match result !! nodeID with
  | Some resources =>
      Ok (<[nodeID := <[ListenerType := default [] (resources !! ListenerType) ++ [ResListener lv3]]>
             resources]> result)
  | None => Ok (<[nodeID := {[ ListenerType := [ResListener lv3] ]}]> result)
  end.

(** The body of the loop over [m.data]. *)
Definition mix_data (nodeID : string) (resources : ResMap) (result : gmap string ResMap)
  : gmap string ResMap :=
  let cur := default ∅ (result !! nodeID) in
  let get t := default [] (resources !! t) in
  <[nodeID := <[RouteType := get RouteType]> (<[ClusterType := get ClusterType]>
      (<[SecretType := get SecretType]> cur))]> result.

Definition Mix (m : t) (order : list entry) : result (gmap string ResMap) :=
  result ← fold_result mix_listener ∅ order;
  let result := map_fold mix_data result (data m) in
  Ok ((λ resMap : ResMap, sortResources <$> resMap) <$> result).
End mix.

(** ** Histories of the mixer *)
Inductive op :=
| OAdd (nodeID : string) (typ : ResType) (r : Resource)
| OParams (nn : NN) (fcs : list FilterChain) (nodeID : string).
Definition exec (m : t) (o : op) : t :=
  match o with
  | OAdd n typ r => Add m n typ r
  | OParams nn fcs n => AddListenerParams m nn fcs n
  end.

(** What a history added for a node and a type, and for a listener and a node. *)
Definition added (ops : list op) (node : string) (typ : ResType) : list Resource :=
  omap (λ o, match o with
    | OAdd n t' r => if decide (n = node ∧ t' = typ) then Some r else None
    | OParams _ _ _ => None end) ops.
Definition touched (node : string) (o : op) : Prop :=
  match o with OAdd n _ _ => n = node | OParams _ _ _ => False end.
Definition params (ops : list op) (nn : NN) (node : string) : list (list FilterChain) :=
  omap (λ o, match o with
    | OParams nn' fcs n => if decide (nn' = nn ∧ n = node) then Some fcs else None
    | OAdd _ _ _ => None end) ops.

Definition res_of (m : t) (node : string) (typ : ResType) : list Resource :=
  default [] (data m !! node ≫= (.!! typ)).
Definition fcs_of (m : t) (nn : NN) (node : string) : option (list FilterChain) :=
  listeners m !! nn ≫= (.!! node).

Lemma res_of_Add m n t' r node typ :
  res_of (Add m n t' r) node typ =
  res_of m node typ ++ (if decide (n = node ∧ t' = typ) then [r] else []).
Proof.
  unfold res_of, Add. destruct (data m !! n) as [rs|] eqn:Hn; cbn.
  - destruct (decide (n = node)) as [<-|Hne].
    + rewrite lookup_insert_eq, Hn. cbn. destruct (decide (t' = typ)) as [<-|Ht].
      * rewrite lookup_insert_eq, decide_True by done. done.
      * rewrite lookup_insert_ne, decide_False by tauto. by rewrite app_nil_r.
    + rewrite lookup_insert_ne, decide_False by tauto. by rewrite app_nil_r.
  - destruct (decide (n = node)) as [<-|Hne].
    + rewrite lookup_insert_eq, Hn. cbn. destruct (decide (t' = typ)) as [<-|Ht].
      * rewrite lookup_singleton_eq, decide_True by done. done.
      * by rewrite lookup_singleton_ne, decide_False by tauto.
    + rewrite lookup_insert_ne, decide_False by tauto. by rewrite app_nil_r.
Qed.

Lemma run_res ops m node typ :
  res_of (foldl exec m ops) node typ = res_of m node typ ++ added ops node typ.
Proof.
  revert m. induction ops as [|o ops IH]; intros m; cbn [foldl]; [by rewrite app_nil_r|].
  rewrite IH. destruct o as [n t' r|nn fcs n]; [|done]. cbn [exec]. rewrite res_of_Add.
  unfold added. cbn [omap list_omap]. rewrite <-app_assoc. by case_decide.
Qed.

Lemma run_data_dom ops m node :
  is_Some (data (foldl exec m ops) !! node) ↔
  is_Some (data m !! node) ∨ Exists (touched node) ops.
Proof.
  revert m. induction ops as [|o ops IH]; intros m; cbn [foldl].
  { rewrite Exists_nil. tauto. }
  rewrite IH, Exists_cons. destruct o as [n t' r|nn fcs n]; cbn; [|tauto].
  assert (is_Some (data (Add m n t' r) !! node) ↔ is_Some (data m !! node) ∨ n = node) as ->; [|tauto].
  unfold Add. destruct (data m !! n) as [rs|] eqn:Hn; cbn; rewrite lookup_insert_is_Some';
    destruct (decide (n = node)) as [<-|]; rewrite ?Hn; naive_solver.
Qed.

Lemma run_params ops m nn node :
  fcs_of (foldl exec m ops) nn node =
  match params ops nn node with
  | [] => fcs_of m nn node
  | ps => Some (default [] (fcs_of m nn node) ++ concat ps)
  end.
Proof.
  revert m. induction ops as [|o ops IH]; intros m; [done|]. cbn [foldl]. rewrite IH.
  destruct o as [n t' r|nn' fcs n].
  - assert (fcs_of (exec m (OAdd n t' r)) nn node = fcs_of m nn node) as ->; [|done].
    unfold fcs_of. cbn. unfold Add. by destruct (data m !! n).
  - assert (fcs_of (exec m (OParams nn' fcs n)) nn node =
      if decide (nn' = nn ∧ n = node) then Some (default [] (fcs_of m nn node) ++ fcs)
      else fcs_of m nn node) as ->.
    { unfold fcs_of. cbn. destruct (decide (nn' = nn)) as [<-|Hne].
      - rewrite lookup_insert_eq. cbn. destruct (decide (n = node)) as [<-|].
        + rewrite lookup_insert_eq, decide_True by done.
          destruct (listeners m !! nn') as [pn|]; cbn; [done|by rewrite lookup_empty].
        + rewrite lookup_insert_ne, decide_False by tauto.
          destruct (listeners m !! nn') as [pn|]; cbn; [done|by rewrite lookup_empty].
      - by rewrite lookup_insert_ne, decide_False by tauto. }
    unfold params. cbn [omap list_omap]. fold (params ops nn node). case_decide as Hd; [|done].
    cbn. destruct (params ops nn node) as [|p ps]; cbn; [by rewrite app_nil_r|].
    by rewrite <-app_assoc.
Qed.

(** ** Lists *)
Lemma fmap_bind {A B C} (f : B → C) (g : A → list B) (l : list A) :
  f <$> (l ≫= g) = l ≫= (λ x, f <$> g x).
Proof. induction l as [|x l IH]; [done|]. cbn. rewrite fmap_app. by f_equal. Qed.

Lemma bind_ext_in {A B} (f g : A → list B) (l : list A) :
  (∀ x, x ∈ l → f x = g x) → l ≫= f = l ≫= g.
Proof.
  induction l as [|x l IH]; intros Hfg; [done|]. cbn. f_equal; [apply Hfg; by left|].
  apply IH. intros. apply Hfg. by right.
Qed.

Lemma bind_ext {A B} (f g : A → list B) (l : list A) : (∀ x, f x = g x) → l ≫= f = l ≫= g.
Proof. intros. by apply bind_ext_in. Qed.

Lemma bind_perm_in {A B} (f g : A → list B) (l : list A) :
  (∀ x, x ∈ l → f x ≡ₚ g x) → l ≫= f ≡ₚ l ≫= g.
Proof.
  induction l as [|x l IH]; intros Hfg; [done|]. cbn.
  rewrite Hfg by (by left). rewrite IH; [done|]. intros. apply Hfg. by right.
Qed.

(** ** The nodes of a mixer *)
Definition op_node (o : op) : string :=
  match o with OAdd n _ _ => n | OParams _ _ n => n end.
Definition nodes_ok (m : t) : Prop := ∀ n, is_Some (data m !! n) → n ∈ nodeIDs m.

Lemma nodes_ok_new : nodes_ok NewMixer.
Proof. intros n. cbn. rewrite lookup_empty. by intros [? ?]. Qed.

Lemma nodes_exec m o :
  nodes_ok m → nodes_ok (exec m o) ∧ nodeIDs (exec m o) = {[op_node o]} ∪ nodeIDs m.
Proof.
  intros Hok. destruct o as [n typ r|nn fcs n]; cbn.
  - unfold Add. destruct (data m !! n) as [rs|] eqn:Hn; cbn.
    + assert (n ∈ nodeIDs m) as Hin by (apply Hok; rewrite Hn; by eexists).
      split; [|set_solver]. intros n'. cbn. rewrite lookup_insert_is_Some. intros [<-|[_ ?]]; [done|].
      by apply Hok.
    + split; [|done]. intros n'. cbn. rewrite lookup_insert_is_Some.
      intros [<-|[_ Hs]]; [set_solver|]. apply Hok in Hs. set_solver.
  - split; [|done]. intros n' Hs. cbn in *. apply Hok in Hs. set_solver.
Qed.

Lemma nodes_ok_run m ops : nodes_ok m → nodes_ok (foldl exec m ops).
Proof. revert m. induction ops as [|o ops IH]; intros m Hok; cbn; [done|]. by apply IH, nodes_exec. Qed.

Lemma nodeIDs_run m ops :
  nodes_ok m → nodeIDs (foldl exec m ops) = nodeIDs m ∪ list_to_set (op_node <$> ops).
Proof.
  revert m. induction ops as [|o ops IH]; intros m Hok; cbn [foldl]; [set_solver|].
  destruct (nodes_exec m o Hok) as [Hok' Hn]. rewrite (IH _ Hok'), Hn. set_solver.
Qed.

(** ** What [Mix] computes *)
Section mix_spec.
Context `{!ProtoMessage ListenerV3}.
Context (store : Store.OptimizedStore).

Definition norm (e : entry) : entry := (e.1.1, e.1.2, sortFilterChains e.2).

(** The listeners built for a node, in the order visited. *)
Definition built (order : list entry) (node : string) : list Resource :=
  omap (λ e : entry, if decide (e.1.2 = node) then
          match build_listener store e with Ok l => Some (ResListener l) | Err _ => None end
        else None) order.

Lemma fold_mix_ok order r0 :
  (∃ r, fold_result (mix_listener store) r0 order = Ok r) ↔
  Forall (λ e, is_ok (build_listener store e) = true) order.
Proof.
  revert r0. induction order as [|e order IH]; intros r0.
  { split; [constructor|]. by exists r0. }
  cbn [fold_result]. rewrite Forall_cons.
  assert (mix_listener store r0 e =
    match build_listener store e with
    | Ok l => Ok (<[e.1.2 := match r0 !! e.1.2 with
        | Some rs => <[ListenerType := default [] (rs !! ListenerType) ++ [ResListener l]]> rs
        | None => {[ ListenerType := [ResListener l] ]} end]> r0)
    | Err err => Err err end) as ->.
  { unfold mix_listener. destruct (build_listener store e); cbn; [|done]. by destruct (r0 !! e.1.2). }
  destruct (build_listener store e) as [l|err]; cbn -[fold_result].
  - rewrite IH. naive_solver.
  - split; [by intros [? ?]|naive_solver].
Qed.

Lemma fold_mix_lookup order r0 r1 node :
  fold_result (mix_listener store) r0 order = Ok r1 →
  r1 !! node = match built order node with
    | [] => r0 !! node
    | ls => Some (<[ListenerType := default [] (r0 !! node ≫= (.!! ListenerType)) ++ ls]>
                   (default ∅ (r0 !! node)))
    end.
Proof.
  revert r0. induction order as [|e order IH]; intros r0 Hr; [by injection Hr as <-|].
  cbn [fold_result] in Hr. apply bind_Ok_inv in Hr as (r' & He & Hr).
  rewrite (IH _ Hr). unfold built at 2. cbn [omap list_omap]. fold (built order node).
  unfold mix_listener in He. apply bind_Ok_inv in He as (l & -> & He).
  assert (r' !! node = if decide (e.1.2 = node) then
    Some (<[ListenerType := default [] (r0 !! node ≫= (.!! ListenerType)) ++ [ResListener l]]>
           (default ∅ (r0 !! node))) else r0 !! node) as ->.
  { destruct (decide (e.1.2 = node)) as [<-|Hne].
    - destruct (r0 !! e.1.2) as [rs|] eqn:Hrs; injection He as <-; rewrite lookup_insert_eq; done.
    - destruct (r0 !! e.1.2) as [rs|]; injection He as <-; by rewrite lookup_insert_ne. }
  destruct (decide (e.1.2 = node)); [|done].
  destruct (built order node) as [|x xs]; cbn; [done|].
  rewrite lookup_insert_eq. cbn. by rewrite <-app_assoc, insert_insert_eq.
Qed.

Definition mix3 (rs cur : ResMap) : ResMap :=
  let get t := default [] (rs !! t) in
  <[RouteType := get RouteType]> (<[ClusterType := get ClusterType]>
    (<[SecretType := get SecretType]> cur)).

Lemma mix_data_lookup (D R : gmap string ResMap) node :
  map_fold mix_data R D !! node =
  match D !! node with
  | Some rs => Some (mix3 rs (default ∅ (R !! node)))
  | None => R !! node
  end.
Proof.
  revert node. apply (map_fold_weak_ind (λ r m, ∀ node, r !! node = match m !! node with
    | Some rs => Some (mix3 rs (default ∅ (R !! node))) | None => R !! node end)).
  { intros node. by rewrite lookup_empty. }
  intros n rs D' r Hn IH node. unfold mix_data. destruct (decide (n = node)) as [<-|Hne].
  - rewrite !lookup_insert_eq, IH, Hn. done.
  - rewrite !lookup_insert_ne by done. apply IH.
Qed.

(** The resources of a node before sorting. *)
Definition node_resources (m : t) (order : list entry) (node : string) : option ResMap :=
  let L := match built order node with [] => None | ls => Some {[ ListenerType := ls ]} end in
  match data m !! node with
  | Some rs => Some (mix3 rs (default ∅ L))
  | None => L
  end.

Lemma Mix_lookup m order r node :
  Mix store m order = Ok r →
  r !! node = (λ rm : ResMap, sortResources <$> rm) <$> node_resources m order node.
Proof.
  intros Hm. unfold Mix in Hm. apply bind_Ok_inv in Hm as (r1 & Hr & Hm). injection Hm as <-.
  rewrite lookup_fmap, mix_data_lookup. f_equal. unfold node_resources.
  rewrite (fold_mix_lookup _ _ _ node Hr), lookup_empty. cbn.
  by destruct (built order node).
Qed.

Lemma elem_of_listener_entries m nn node fcs :
  (nn, node, fcs) ∈ listener_entries m ↔ fcs_of m nn node = Some fcs.
Proof.
  unfold listener_entries, fcs_of. rewrite list_elem_of_bind. split.
  - intros ([nn' pn] & Hin & Hp%elem_of_map_to_list). cbn in Hin.
    apply list_elem_of_fmap in Hin as ([n' f'] & [= -> -> ->] & Hq%elem_of_map_to_list).
    rewrite Hp. done.
  - destruct (listeners m !! nn) as [pn|] eqn:Hn; cbn; [|done]. intros Hq.
    exists (nn, pn). rewrite elem_of_map_to_list. split; [|done]. cbn.
    apply list_elem_of_fmap. exists (node, fcs). by rewrite elem_of_map_to_list.
Qed.

Lemma NoDup_listener_entries m : NoDup (listener_entries m).*1.
Proof.
  unfold listener_entries. rewrite fmap_bind. apply NoDup_bind.
  - intros [n1 p1] [n2 p2] [nn node] H1%elem_of_map_to_list H2%elem_of_map_to_list.
    cbn. rewrite <-!list_fmap_compose, !list_elem_of_fmap.
    intros (q1 & [= -> _] & _) (q2 & [= -> _] & _). congruence.
  - intros [n p] _. cbn. rewrite <-list_fmap_compose.
    change (NoDup ((pair n ∘ @fst string (list FilterChain)) <$> map_to_list p)).
    rewrite list_fmap_compose. apply NoDup_fmap_2; [intros ? ? [= ?]; done|].
    apply NoDup_fst_map_to_list.
  - apply NoDup_map_to_list.
Qed.
End mix_spec.

(** The names given to one node are pairwise distinct: resources of a type,
    filter chains of a listener, and listeners. *)
Record names_distinct (ops : list op) : Prop := {
  nd_resources node typ : NoDup (GetResourceName <$> added ops node typ);
  nd_chains nn node : NoDup (fcName <$> concat (params ops nn node));
  nd_listeners nn nn' node : params ops nn node ≠ [] → params ops nn' node ≠ [] →
    Helpers.String nn = Helpers.String nn' → nn = nn'
}.

Lemma concat_Permutation {A} (l1 l2 : list (list A)) : l1 ≡ₚ l2 → concat l1 ≡ₚ concat l2.
Proof.
  induction 1 as [|x l1 l2 _ IH|x y l|l1 l2 l3 _ IH1 _ IH2]; cbn; [done| | |by etrans].
  - by rewrite IH.
  - rewrite !app_assoc. apply Permutation_app_tail, Permutation_app_comm.
Qed.

Section determinism.
Context `{!ProtoMessage ListenerV3}.
Context (store : Store.OptimizedStore).
Context (ops1 ops2 : list op) (Hops : ops1 ≡ₚ ops2) (Hnames : names_distinct ops1).
Let m1 := foldl exec NewMixer ops1.
Let m2 := foldl exec NewMixer ops2.

Lemma fcs_of_run ops nn node :
  fcs_of (foldl exec NewMixer ops) nn node =
  match params ops nn node with [] => None | ps => Some (concat ps) end.
Proof using Type. rewrite run_params. unfold fcs_of. cbn. by rewrite lookup_empty. Qed.

Lemma res_of_run ops node typ : res_of (foldl exec NewMixer ops) node typ = added ops node typ.
Proof using Type. rewrite run_res. unfold res_of. cbn. by rewrite lookup_empty. Qed.

Lemma elem_of_added ops node typ r : r ∈ added ops node typ ↔ OAdd node typ r ∈ ops.
Proof using Type.
  unfold added. rewrite list_elem_of_omap. split.
  - intros ([n t' r'|] & Hin & Heq); [|done]. case_decide as Hc; [|done]. destruct Hc as [-> ->]. by injection Heq as ->.
  - intros Hin. exists (OAdd node typ r). split; [done|]. by rewrite decide_True.
Qed.
Lemma elem_of_params ops nn node fcs : fcs ∈ params ops nn node ↔ OParams nn fcs node ∈ ops.
Proof using Type.
  unfold params. rewrite list_elem_of_omap. split.
  - intros ([|nn' f n] & Hin & Heq); [done|]. case_decide as Hc; [|done]. destruct Hc as [-> ->]. by injection Heq as ->.
  - intros Hin. exists (OParams nn fcs node). split; [done|]. by rewrite decide_True.
Qed.
Lemma fcs_of_elem ops nn node all : fcs_of (foldl exec NewMixer ops) nn node = Some all →
  (∃ fcs, OParams nn fcs node ∈ ops) ∧ ∀ fcs fc, OParams nn fcs node ∈ ops → fc ∈ fcs → fc ∈ all.
Proof using Type.
  rewrite fcs_of_run. pose proof (elem_of_params ops nn node) as He.
  destruct (params ops nn node) as [|p ps] eqn:Hp; [done|]. intros [= <-]. split.
  - exists p. apply He. left.
  - intros fcs fc Hin%He Hfc. apply (elem_of_concat fc (p :: ps)). eauto.
Qed.

Lemma added_perm node typ : added ops1 node typ ≡ₚ added ops2 node typ.
Proof using Hops. unfold added. by rewrite Hops. Qed.
Lemma params_perm nn node : params ops1 nn node ≡ₚ params ops2 nn node.
Proof using Hops. unfold params. by rewrite Hops. Qed.

(** The entries of both mixers, with sorted filter chains, are the same set. *)
Lemma norm_entries_perm : norm <$> listener_entries m1 ≡ₚ norm <$> listener_entries m2.
Proof using Hops Hnames.
  assert (∀ m, NoDup (norm <$> listener_entries m)) as Hnd.
  { intros m. pose proof (NoDup_listener_entries m) as H. apply (NoDup_fmap_1 fst).
    rewrite <-list_fmap_compose. erewrite list_fmap_ext; [exact H|]. by intros ? [[] ] _. }
  assert (∀ ops ops', ops ≡ₚ ops' → names_distinct ops →
    ∀ e, e ∈ norm <$> listener_entries (foldl exec NewMixer ops) →
         e ∈ norm <$> listener_entries (foldl exec NewMixer ops')) as Hsub.
  { intros ops ops' Hp Hn e. rewrite !list_elem_of_fmap. intros ([[nn node] fcs] & -> & He).
    apply elem_of_listener_entries in He. rewrite fcs_of_run in He.
    assert (params ops nn node ≡ₚ params ops' nn node) as Hpp by (unfold params; by rewrite Hp).
    destruct (params ops nn node) as [|p ps] eqn:Hps; [done|]. injection He as <-.
    destruct (params ops' nn node) as [|p' ps'] eqn:Hps'; [by apply Permutation_nil_r in Hpp|].
    exists (nn, node, concat (p' :: ps')). split.
    - unfold norm. cbn [fst snd]. f_equal. apply sort_by_key_unique.
      + by apply (concat_Permutation (p :: ps)).
      + pose proof (nd_chains _ Hn nn node) as Hc. by rewrite Hps in Hc.
    - apply elem_of_listener_entries. by rewrite fcs_of_run, Hps'. }
  assert (names_distinct ops2) as Hnames2.
  { destruct Hnames as [H1 H2 H3]. split.
    - intros node typ. by rewrite <-added_perm.
    - intros nn node. rewrite <-(concat_Permutation _ _ (params_perm nn node)). done.
    - intros nn nn' node Ha Hb. apply (H3 nn nn' node).
      + intros He. apply Ha. apply Permutation_nil_r. by rewrite <-params_perm, He.
      + intros He. apply Hb. apply Permutation_nil_r. by rewrite <-params_perm, He. }
  apply NoDup_Permutation; [apply Hnd..|]. intros e. split; by apply Hsub.
Qed.

Lemma build_norm (e e' : entry) : norm e = norm e' → build_listener store e = build_listener store e'.
Proof using Type.
  destruct e as [[nn node] fcs], e' as [[nn' node'] fcs']. unfold norm. cbn [fst snd].
  intros [= -> -> Hf]. unfold build_listener. by rewrite Hf.
Qed.
(** [build_listener] with filter chains already sorted. *)
Definition build_sorted (e : entry) : result ListenerV3 :=
  let '(listenerNN, nodeID, fcs) := e in
  match Store.GetListener store listenerNN with
  | None => Err nil_deref
  | Some listener =>
      lv3 ← Api.Listener_UnmarshalV3 listener;
      Ok (mkLV3 (Helpers.String listenerNN) (lAddress lv3) (lListenerFilters lv3) fcs (lRest lv3))
  end.
Lemma build_sorted_norm e : build_listener store e = build_sorted (norm e).
Proof using Type. by destruct e as [[nn node] fcs]. Qed.

Definition built_sorted (node : string) (e : entry) : option Resource :=
  if decide (e.1.2 = node) then
    match build_sorted e with Ok l => Some (ResListener l) | Err _ => None end
  else None.
Lemma built_alt order node : built store order node = omap (built_sorted node) (norm <$> order).
Proof using Type.
  unfold built. induction order as [|e order IH]; [done|]. rewrite fmap_cons. cbn [omap list_omap].
  rewrite IH. unfold built_sorted at 2. rewrite build_sorted_norm. done.
Qed.

Lemma built_names_NoDup order node :
  NoDup order.*1 →
  (∀ e e', e ∈ order → e' ∈ order → e.1.2 = node → e'.1.2 = node →
     Helpers.String e.1.1 = Helpers.String e'.1.1 → e.1.1 = e'.1.1) →
  NoDup (GetResourceName <$> built store order node) ∧
  ∀ r, r ∈ built store order node → ∃ e, e ∈ order ∧ e.1.2 = node ∧
    GetResourceName r = Helpers.String e.1.1.
Proof using Type.
  induction order as [|e order IH]; intros Hnd Hinj; [split; [constructor|by intros ? ?%not_elem_of_nil]|].
  cbn in Hnd. apply NoDup_cons in Hnd as [He Hnd].
  destruct IH as [IHnd IHin]; [done|intros; apply Hinj; [by right|by right|done..]|].
  assert (∀ r, r ∈ built store order node → ∃ e0, e0 ∈ e :: order ∧ e0.1.2 = node ∧
    GetResourceName r = Helpers.String e0.1.1) as Hin'.
  { intros r Hr. destruct (IHin r Hr) as (e0 & ? & ? & ?). exists e0. split; [by right|done]. }
  unfold built. cbn [omap list_omap]. fold (built store order node).
  case_decide as Hn; [|done].
  destruct (build_listener store e) as [l|] eqn:Hb; [|done].
  assert (GetResourceName (ResListener l) = Helpers.String e.1.1) as Hl.
  { destruct e as [[nn node'] fcs]. unfold build_listener in Hb.
    destruct (Store.GetListener store nn); [|done]. apply bind_Ok_inv in Hb as (lv3 & _ & Hb).
    by injection Hb as <-. }
  split.
  - rewrite fmap_cons. apply NoDup_cons. split; [|done]. rewrite list_elem_of_fmap.
    intros (r & Hr & Hin). destruct (IHin r Hin) as (e0 & He0 & Hn0 & Hs). apply He.
    rewrite list_elem_of_fmap. exists e0. split; [|done].
    assert (e.1.1 = e0.1.1); [apply Hinj; [by left|by right|done..|congruence]|].
    destruct e as [[] ], e0 as [[] ]. cbn in *. congruence.
  - intros r [->|Hr]%elem_of_cons; [|by apply Hin']. exists e. split; [by left|done].
Qed.

Lemma listener_entries_inj order node :
  order ≡ₚ listener_entries m1 →
  ∀ e e', e ∈ order → e' ∈ order → e.1.2 = node → e'.1.2 = node →
     Helpers.String e.1.1 = Helpers.String e'.1.1 → e.1.1 = e'.1.1.
Proof using Hnames.
  intros Hp [[nn n] f] [[nn' n'] f']. rewrite !Hp, !elem_of_listener_entries. cbn.
  intros H1 H2 <- -> Hs. unfold m1 in *. rewrite fcs_of_run in H1, H2.
  apply (nd_listeners _ Hnames nn nn' n); [..|done]; intros He; by rewrite He in *.
Qed.

Lemma data_dom_perm node : is_Some (data m1 !! node) ↔ is_Some (data m2 !! node).
Proof using Hops.
  unfold m1, m2. rewrite !run_data_dom. cbn. rewrite lookup_empty.
  assert (Exists (touched node) ops1 ↔ Exists (touched node) ops2) as ->; [|done].
  rewrite !Exists_exists. by setoid_rewrite Hops.
Qed.

Lemma node_resources_sorted order1 order2 node :
  order1 ≡ₚ listener_entries m1 → order2 ≡ₚ listener_entries m2 →
  (λ rm : ResMap, sortResources <$> rm) <$> node_resources store m1 order1 node =
  (λ rm : ResMap, sortResources <$> rm) <$> node_resources store m2 order2 node.
Proof using Hops Hnames.
  intros Ho1 Ho2.
  assert (built store order1 node ≡ₚ built store order2 node) as Hb.
  { rewrite !built_alt, Ho1, Ho2. by rewrite norm_entries_perm. }
  assert (NoDup (GetResourceName <$> built store order1 node)) as Hbn.
  { apply built_names_NoDup; [rewrite Ho1; apply NoDup_listener_entries|].
    by apply listener_entries_inj. }
  assert (sortResources (built store order1 node) = sortResources (built store order2 node)) as Hls
    by (by apply sort_by_key_unique).
  assert (∀ typ, sortResources (res_of m1 node typ) = sortResources (res_of m2 node typ)) as Hres.
  { intros typ. unfold m1, m2. rewrite !res_of_run.
    apply sort_by_key_unique; [apply added_perm|apply Hnames]. }
  unfold res_of in Hres. unfold node_resources. pose proof (data_dom_perm node) as Hd.
  set (L1 := match built store order1 node with [] => None | _ => _ end).
  set (L2 := match built store order2 node with [] => None | _ => _ end).
  assert ((λ rm : ResMap, sortResources <$> rm) <$> L1 =
          (λ rm : ResMap, sortResources <$> rm) <$> L2) as HL.
  { unfold L1, L2. destruct (built store order1 node) as [|x xs].
    - apply Permutation_nil_l in Hb as <-. done.
    - destruct (built store order2 node) as [|y ys]; [by apply Permutation_nil_r in Hb|].
      cbn. by rewrite !map_fmap_singleton, Hls. }
  destruct (data m1 !! node) as [rs1|], (data m2 !! node) as [rs2|]; [|naive_solver..|done].
  cbn in Hres |- *. f_equal. unfold mix3. rewrite !fmap_insert, !Hres.
  do 3 f_equal. destruct L1, L2; cbn in HL |- *; congruence.
Qed.
End determinism.

Lemma Mix_perm `{!ProtoMessage ListenerV3} store ops1 ops2 order1 order2 r :
  ops1 ≡ₚ ops2 → names_distinct ops1 →
  order1 ≡ₚ listener_entries (foldl exec NewMixer ops1) →
  order2 ≡ₚ listener_entries (foldl exec NewMixer ops2) →
  Mix store (foldl exec NewMixer ops1) order1 = Ok r →
  Mix store (foldl exec NewMixer ops2) order2 = Ok r.
Proof.
  intros Hops Hn Ho1 Ho2 Hm.
  assert (∃ r2, Mix store (foldl exec NewMixer ops2) order2 = Ok r2) as [r2 Hr2].
  { unfold Mix in Hm |- *. apply bind_Ok_inv in Hm as (r1 & Hf & _).
    destruct (proj2 (fold_mix_ok store order2 ∅)) as [r2 ->]; [|by eexists].
    pose proof (proj1 (fold_mix_ok store order1 ∅) (ex_intro _ r1 Hf)) as Hall.
    assert (norm <$> order1 ≡ₚ norm <$> order2) as Hp
      by (rewrite Ho1, Ho2; by apply norm_entries_perm).
    rewrite Forall_forall in Hall |- *. intros e He.
    apply (list_elem_of_fmap_2 norm) in He. rewrite <-Hp, list_elem_of_fmap in He.
    destruct He as (e' & Hee & He'). rewrite (build_norm _ _ _ Hee). by apply Hall. }
  rewrite Hr2. f_equal. apply map_eq. intros node.
  rewrite (Mix_lookup _ _ _ _ _ Hr2), (Mix_lookup _ _ _ _ _ Hm). symmetry.
  by apply node_resources_sorted.
Qed.

Lemma names_distinct_perm ops1 ops2 : ops1 ≡ₚ ops2 → names_distinct ops1 → names_distinct ops2.
Proof.
  intros Hops [H1 H2 H3]. split.
  - intros node typ. by rewrite <-(added_perm ops1 ops2 Hops).
  - intros nn node. by rewrite <-(concat_Permutation _ _ (params_perm ops1 ops2 Hops nn node)).
  - intros nn nn' node Ha Hb. apply (H3 nn nn' node).
    + intros He. apply Ha, Permutation_nil_r. by rewrite <-(params_perm ops1 ops2 Hops), He.
    + intros He. apply Hb, Permutation_nil_r. by rewrite <-(params_perm ops1 ops2 Hops), He.
Qed.

(** The lists [Mix] returns have distinct names. *)
Lemma Mix_names `{!ProtoMessage ListenerV3} store ops order r node rm typ rs :
  names_distinct ops → order ≡ₚ listener_entries (foldl exec NewMixer ops) →
  Mix store (foldl exec NewMixer ops) order = Ok r →
  r !! node = Some rm → rm !! typ = Some rs → NoDup (GetResourceName <$> rs).
Proof.
  intros Hn Ho Hm Hr Ht. rewrite (Mix_lookup _ _ _ _ node Hm) in Hr.
  apply fmap_Some in Hr as (rm0 & Hr0 & ->). rewrite lookup_fmap in Ht.
  apply fmap_Some in Ht as (rs0 & Ht0 & ->). unfold sortResources. rewrite sort_by_key_perm.
  assert (NoDup (GetResourceName <$> built store order node)) as Hb.
  { apply built_names_NoDup; [rewrite Ho; apply NoDup_listener_entries|].
    by apply (listener_entries_inj ops Hn). }
  assert (∀ L : option ResMap, L = (match built store order node with
      | [] => None | ls => Some {[ ListenerType := ls ]} end) →
    (default ∅ L) !! typ = Some rs0 → rs0 = built store order node) as HL.
  { intros L ->. destruct (built store order node) as [|x xs]; cbn; [by rewrite lookup_empty|].
    intros [_ <-]%lookup_singleton_Some. done. }
  unfold node_resources in Hr0.
  destruct (data (foldl exec NewMixer ops) !! node) as [rs1|] eqn:Hd.
  - injection Hr0 as <-. unfold mix3 in Ht0.
    assert (∀ t, NoDup (GetResourceName <$> default [] (rs1 !! t))) as Hres.
    { intros t. pose proof (res_of_run ops node t) as E. unfold res_of in E. rewrite Hd in E.
      cbn in E. rewrite E. apply Hn. }
    rewrite !lookup_insert_Some in Ht0.
    destruct Ht0 as [[_ <-]|[_ [[_ <-]|[_ [[_ <-]|[_ Ht0]]]]]]; [apply Hres..|].
    by rewrite (HL _ eq_refl Ht0).
  - rewrite (HL _ eq_refl); [done|]. by rewrite Hr0.
Qed.

(** The listeners that [Mix] returns for a node: one for each listener with parameters,
    with all their filter chains. *)
Lemma Mix_listeners `{!ProtoMessage ListenerV3} store ops order r node nn fcs :
  order ≡ₚ listener_entries (foldl exec NewMixer ops) →
  Mix store (foldl exec NewMixer ops) order = Ok r → OParams nn fcs node ∈ ops →
  ∃ rm rs l, r !! node = Some rm ∧ rm !! ListenerType = Some rs ∧ ResListener l ∈ rs ∧ lName l = Helpers.String nn ∧
  ∀ r', r' ∈ rs → ∃ nn' fcs' l', r' = ResListener l' ∧ OParams nn' fcs' node ∈ ops ∧
    lName l' = Helpers.String nn' ∧ ∀ fcs fc, OParams nn' fcs node ∈ ops → fc ∈ fcs → fc ∈ lFilterChains l'.
Proof.
  intros Ho Hm Hop. assert (∃ all, (nn, node, all) ∈ order) as [all Hall].
  { apply elem_of_params in Hop. destruct (params ops nn node) as [|p ps] eqn:Hp; [by apply not_elem_of_nil in Hop|].
    exists (concat (p :: ps)). rewrite Ho, elem_of_listener_entries, fcs_of_run. by rewrite Hp. }
  pose proof Hm as Hfold. unfold Mix in Hfold. apply bind_Ok_inv in Hfold as (r1 & Hr1 & _).
  assert (Forall (λ e, is_ok (build_listener store e) = true) order) as Hok by (apply (fold_mix_ok store order ∅); by exists r1).
  assert (∃ l, build_listener store (nn, node, all) = Ok l) as [l Hl].
  { rewrite Forall_forall in Hok. specialize (Hok _ Hall). destruct (build_listener store _) as [l|]; [|done]. by exists l. }
  assert (ResListener l ∈ built store order node) as Hin.
  { unfold built. apply list_elem_of_omap. exists (nn, node, all). split; [done|]. cbn [fst snd].
    rewrite decide_True by done. by rewrite Hl. }
  pose proof (Mix_lookup store _ _ _ node Hm) as Hlk. unfold node_resources in Hlk.
  destruct (built store order node) as [|x xs] eqn:Hbuilt; [by apply not_elem_of_nil in Hin|].
  exists (sortResources <$> match data (foldl exec NewMixer ops) !! node with
     | Some rs => mix3 rs {[ ListenerType := x :: xs ]} | None => {[ ListenerType := x :: xs ]} end), (sortResources (x :: xs)), l.
  assert (lName l = Helpers.String nn) as Hname.
  { unfold build_listener in Hl. destruct (Store.GetListener store nn); [|done]. apply bind_Ok_inv in Hl as (? & _ & [= <-]). done. }
  split_and!; [|rewrite lookup_fmap; unfold mix3; destruct (data (foldl exec NewMixer ops) !! node); by simplify_map_eq
    |unfold sortResources; by rewrite sort_by_key_perm|done|].
  { rewrite Hlk. by destruct (data (foldl exec NewMixer ops) !! node). }
  intros r'. unfold sortResources. rewrite sort_by_key_perm, <-Hbuilt. unfold built.
  intros ([[nn' n'] all'] & He & Hx)%list_elem_of_omap. cbn [fst snd] in Hx. case_decide; [|done]. subst n'.
  destruct (build_listener store (nn', node, all')) as [l'|] eqn:Hl'; [|done]. injection Hx as <-.
  rewrite Ho, elem_of_listener_entries in He. destruct (fcs_of_elem _ _ _ _ He) as [[fcs' Hf'] Hincl].
  exists nn', fcs', l'. unfold build_listener in Hl'. destruct (Store.GetListener store nn'); [|done].
  apply bind_Ok_inv in Hl' as (? & _ & [= <-]). split_and!; [done..|]. cbn. intros f fc Hf Hfc.
  unfold sortFilterChains. rewrite sort_by_key_perm. by eapply Hincl.
Qed.

(** C5. [Mix] does not depend on the order in which Go iterates over its maps:
    for two orders in which the virtual services were added and two orders in
    which the listener entries are visited, it succeeds for one exactly when it
    succeeds for the other, with the same resources, node by node and in the same
    order, provided the names given to a node are distinct. *)
Theorem Mix_deterministic `{!ProtoMessage ListenerV3} store ops1 ops2 order1 order2 r :
  ops1 ≡ₚ ops2 → names_distinct ops1 →
  order1 ≡ₚ listener_entries (foldl exec NewMixer ops1) →
  order2 ≡ₚ listener_entries (foldl exec NewMixer ops2) →
  Mix store (foldl exec NewMixer ops1) order1 = Ok r ↔
  Mix store (foldl exec NewMixer ops2) order2 = Ok r.
Proof.
  intros Hops Hn Ho1 Ho2. split; [by apply Mix_perm|].
  apply Mix_perm; [done|by apply (names_distinct_perm ops1)|done..].
Qed.

(** ** A concrete node *)
Module Examples.
Definition proto : ProtoMessage ListenerV3 :=
  {| pb_unmarshal s := Ok (mkLV3 s None [] [] ""); pb_validate _ := None |}.
Definition nn : NN := Helpers.mkNN "ns" "l".
Definition store : Store.OptimizedStore :=
  Store.SetListener Store.NewOptimizedStore
    (mkListener (mkMeta "l" "ns" "u" 1 None None) (Some (mkRaw (Some "x") None))).
Definition chain (n : string) : FilterChain := mkFC n [] None None "".
Definition ops : list op :=
  [OAdd "n" ClusterType (ResCluster (mkCV3 "b" "")); OParams nn [chain "y"] "n";
   OAdd "n" ClusterType (ResCluster (mkCV3 "a" "")); OParams nn [chain "x"] "n"].

Lemma ops_distinct : names_distinct ops.
Proof.
  split.
  - intros node typ. unfold added, ops. cbn.
    destruct (decide ("n" = node ∧ ClusterType = typ)); apply (bool_decide_unpack _); vm_compute; exact I.
  - intros nn' node. unfold params, ops. cbn.
    destruct (decide (nn = nn' ∧ "n" = node)); apply (bool_decide_unpack _); vm_compute; exact I.
  - intros n1 n2 node. unfold params, ops. cbn.
    destruct (decide (nn = n1 ∧ "n" = node)) as [[<- _]|]; [|by intros []].
    destruct (decide (nn = n2 ∧ "n" = node)) as [[<- _]|]; [done|by intros _ []].
Qed.
End Examples.

Definition ex_mixed : gmap string ResMap :=
  {[ "n" := {[ ListenerType := [ResListener (mkLV3 "ns/l" None [] [Examples.chain "x"; Examples.chain "y"] "")];
               ClusterType := [ResCluster (mkCV3 "a" ""); ResCluster (mkCV3 "b" "")];
               SecretType := []; RouteType := [] ]} ]}.

Lemma Mix_deterministic_witness :
  let m := foldl exec NewMixer (reverse Examples.ops) in
  @Mix Examples.proto Examples.store m (listener_entries m) = Ok ex_mixed.
Proof.
  apply (@Mix_deterministic Examples.proto Examples.store Examples.ops (reverse Examples.ops)
    (listener_entries (foldl exec NewMixer Examples.ops))).
  - symmetry. apply reverse_Permutation.
  - exact Examples.ops_distinct.
  - reflexivity.
  - reflexivity.
  - vm_compute. reflexivity.
Defined.

End Mixer.
