(* ===== verification/Updater.v ===== *)
(** * [internal/xds/updater]: the cache updater

    [buildSnapshots] computes the resources of every node from the store and
    commits them to the snapshot cache; [Apply*]/[Delete*] change the store and
    rebuild; [DryValidateVirtualServiceLight] validates a candidate without a
    rebuild.  Conventions:
    - [ctx : nat → option error] answers the i-th poll of [ctx.Err()] of a run;
    - Go's random map iteration is an argument: the list of virtual services in
      the order visited, [ord] for sets of node IDs, [lord] for the entries of
      the mixer;
    - [buildVSResources] is the package variable of that name;
    - timing metrics and logging are left out. *)

From S2P Require Import Prelude GoStrings Types Merge StringPool Api DomainSecrets ResUtils Store.
From S2P Require Import SnapshotCache Mixer.
Import Envoy.

Module Updater.

(** [resbuilder.Resources]. *)
Record Resources := mkResources {
  RListener : NN;
  RFilterChain : list FilterChain;
  RRouteConfig : option RouteConfiguration;
  RClusters : list ClusterV3;
  RSecrets : list SecretV3;
  RUsedSecrets : list NN;
  RDomains : list string
}.

Abbreviation VSStatus := Status.VirtualServiceStatus.
Abbreviation mkVSStatus := Status.mkStatus.
Abbreviation ResMap := (gmap ResType (list Resource)).

(** ** Helpers *)
Fixpoint getRootCause (err : error) : error :=
  match err with
  | ErrWrap _ i => getRootCause i
  | _ => err
  end.

Definition isCommonVirtualService (nodeIDs : list string) : bool :=
  bool_decide (nodeIDs = ["*"]).

Definition nodeIDDomain (nodeID domain : string) : string := nodeID +:+ ":" +:+ domain.

(** [getValidationIndicesEnabled] of the value of WEBHOOK_VALIDATION_INDICES. *)
Definition getValidationIndicesEnabled (env : string) : bool :=
  bool_decide (GoStrings.ToLower env ∈ ["1"; "true"; "yes"; "on"]).

(** [multierr.Combine(errs...)] of at least one error. *)
Definition multierr_Combine (es : list error) : error :=
  match es with [e] => e | _ => ErrMulti es end.

(** ** Snapshot versions *)
Definition checkResourcesChanged (prevRes : gmap string Resource) (newRes : list Resource) : bool :=
  if decide (size prevRes ≠ length newRes) then true
  else existsb (λ newR, match prevRes !! GetResourceName newR with
                        | Some val => negb (bool_decide (val = newR))
                        | None => true
                        end) newRes.

(** [vInt, _ := strconv.Atoi(version); vInt++; strconv.Itoa(vInt)] *)
Definition next_version (version : string) : string :=
  GoStrings.Itoa (GoStrings.wrap64 (GoStrings.Atoi version + 1)).

Section snapshots.
Context `{SnapshotAPI}.

Definition update_type (prevSnapshot : Snapshot) (acc : Snapshot * bool) (p : ResType * list Resource)
  : Snapshot * bool :=
  let '(typ, res) := p in
  let version := GetVersion prevSnapshot typ in
  let version := if decide (version = "") then "0" else version in
  if checkResourcesChanged (GetResources prevSnapshot typ) res
  then (SetResources acc.1 typ (next_version version) res, true)
  else (SetResources acc.1 typ version res, acc.2).

Definition updateSnapshot (prevSnapshot : option Snapshot) (resources : ResMap)
  : result (Snapshot * bool) :=
  match prevSnapshot with
  | None => Err (ErrNew "snapshot is nil")
  | Some prev => Ok (foldl (update_type prev) (EmptySnapshot, false) (map_to_list resources))
  end.
End snapshots.

(** ** [buildSnapshots] *)
Record bstate := mkB {
  polls : nat;
  errs : list error;
  vsStatuses : gmap NN VSStatus;
  usedSecrets : gmap NN NN;
  nodeIDDomainsSet : gset string;
  nodeDomainsIndex : gmap string (gset string);
  mixer : Mixer.t;
  commonVirtualServices : list VirtualService
}.
Definition init_bstate (polls : nat) : bstate :=
  mkB polls [] ∅ ∅ ∅ ∅ Mixer.NewMixer [].

Definition set_polls (s : bstate) (n : nat) : bstate :=
  mkB n (errs s) (vsStatuses s) (usedSecrets s) (nodeIDDomainsSet s) (nodeDomainsIndex s) (mixer s)
    (commonVirtualServices s).
Definition add_err (s : bstate) (e : error) : bstate :=
  mkB (polls s) (errs s ++ [e]) (vsStatuses s) (usedSecrets s) (nodeIDDomainsSet s)
    (nodeDomainsIndex s) (mixer s) (commonVirtualServices s).
Definition set_status (s : bstate) (nn : NN) (st : VSStatus) : bstate :=
  mkB (polls s) (errs s) (<[nn := st]> (vsStatuses s)) (usedSecrets s) (nodeIDDomainsSet s)
    (nodeDomainsIndex s) (mixer s) (commonVirtualServices s).
Definition set_used (s : bstate) (u : gmap NN NN) : bstate :=
  mkB (polls s) (errs s) (vsStatuses s) u (nodeIDDomainsSet s) (nodeDomainsIndex s) (mixer s)
    (commonVirtualServices s).
Definition set_domains (s : bstate) (d : gset string) (i : gmap string (gset string)) : bstate :=
  mkB (polls s) (errs s) (vsStatuses s) (usedSecrets s) d i (mixer s) (commonVirtualServices s).
Definition set_mixer (s : bstate) (m : Mixer.t) : bstate :=
  mkB (polls s) (errs s) (vsStatuses s) (usedSecrets s) (nodeIDDomainsSet s) (nodeDomainsIndex s) m
    (commonVirtualServices s).
Definition add_common (s : bstate) (vs : VirtualService) : bstate :=
  mkB (polls s) (errs s) (vsStatuses s) (usedSecrets s) (nodeIDDomainsSet s) (nodeDomainsIndex s)
    (mixer s) (commonVirtualServices s ++ [vs]).

(** A step of the build goes on or returns [err, usedSecrets] early. *)
Inductive outcome :=
| Go (s : bstate)
| Stop (err : error) (used : option (gmap NN NN)) (s : bstate).

Definition and_then (o : outcome) (f : bstate → outcome) : outcome :=
  match o with Go s => f s | Stop e u s => Stop e u s end.
Fixpoint for_each {A} (f : bstate → A → outcome) (s : bstate) (l : list A) : outcome :=
  match l with
  | [] => Go s
  | x :: l => and_then (f s x) (λ s, for_each f s l)
  end.

Section build.
Context `{CacheAPI} `{!ProtoMessage ListenerV3}.
Context (buildVSResources : VirtualService → Store.OptimizedStore → result Resources).
Context (ctx : nat → option error).
Context (ord : gset string → list string).
Context (lord : Mixer.t → list Mixer.entry).
Context (indices : bool).

(** [if err := ctx.Err(); err != nil { return err, usedSecrets, vsStatuses, metrics }] *)
Definition poll (s : bstate) : outcome :=
  match ctx (polls s) with
  | Some e => Stop e (Some (usedSecrets s)) (set_polls s (S (polls s)))
  | None => Go (set_polls s (S (polls s)))
  end.

(** The loop body over the domains of a service on a node. *)
Definition add_domain (nodeID : string) (s : bstate) (domain : string) : outcome :=
  and_then (poll s) (λ s,
    let nodeDom := nodeIDDomain nodeID domain in
    if decide (nodeDom ∈ nodeIDDomainsSet s) then
      Stop (ErrNew ("duplicate domain " +:+ domain +:+ " for node " +:+ nodeID)) None s
    else
      let idx := if indices then
                   <[nodeID := {[domain]} ∪ default ∅ (nodeDomainsIndex s !! nodeID)]>
                     (nodeDomainsIndex s)
                 else nodeDomainsIndex s in
      Go (set_domains s ({[nodeDom]} ∪ nodeIDDomainsSet s) idx)).

(** The mixer calls for a service on a node. *)
Definition mixer_ops (vsRes : Resources) (nodeID : string) : list Mixer.op :=
  match RRouteConfig vsRes with
  | Some rc => [Mixer.OAdd nodeID RouteType (ResRoute rc)]
  | None => []
  end ++
  ((λ cl, Mixer.OAdd nodeID ClusterType (ResCluster cl)) <$> RClusters vsRes) ++
  ((λ se, Mixer.OAdd nodeID SecretType (ResSecret se)) <$> RSecrets vsRes) ++
  [Mixer.OParams (RListener vsRes) (RFilterChain vsRes) nodeID].

Definition place_on_node (vsRes : Resources) (s : bstate) (nodeID : string) : outcome :=
  and_then (poll s) (λ s,
  and_then (for_each (add_domain nodeID) s (RDomains vsRes)) (λ s,
    Go (set_mixer s (foldl Mixer.exec (mixer s) (mixer_ops vsRes nodeID))))).

(** [for _, secret := range vsRes.UsedSecrets { usedSecrets[secret] = vs }] *)
Definition record_secrets (s : bstate) (vs : VirtualService) (vsRes : Resources) : bstate :=
  set_used s (foldl (λ u secret, <[secret := key vs]> u) (usedSecrets s) (RUsedSecrets vsRes)).

(** The body of the loop over all virtual services. *)
Definition process_vs (store : Store.OptimizedStore) (s : bstate) (vs : VirtualService) : outcome :=
  and_then (poll s) (λ s,
    let vsNN := key vs in
    let s := set_status s vsNN (mkVSStatus false "") in
    let vsNodeIDs := Api.GetNodeIDs vs in
    if decide (length vsNodeIDs = 0) then
      let err := ErrNew ("virtual service " +:+ Namespace (meta vs) +:+ "/" +:+ Name (meta vs)
                         +:+ " has no node IDs") in
      Go (add_err (set_status s vsNN (mkVSStatus true (go_Error (getRootCause err)))) err)
    else if isCommonVirtualService vsNodeIDs then Go (add_common s vs)
    else
      and_then (poll s) (λ s,
        match buildVSResources vs store with
        | Err err => Go (add_err (set_status s vsNN (mkVSStatus true (go_Error (getRootCause err)))) err)
        | Ok vsRes =>
            and_then (poll s) (λ s,
              for_each (place_on_node vsRes) (record_secrets s vs vsRes) vsNodeIDs)
        end)).

(** The body of the loop over the common virtual services. *)
Definition process_common (store : Store.OptimizedStore) (s : bstate) (vs : VirtualService) : outcome :=
  and_then (poll s) (λ s,
    match buildVSResources vs store with
    | Err err => Go (add_err s err)
    | Ok vsRes =>
        and_then (poll s) (λ s,
          let s := record_secrets s vs vsRes in
          for_each (place_on_node vsRes) s (ord (Mixer.nodeIDs (mixer s))))
    end).

(** *** Staging and commit *)
Record sstate := mkS {
  spolls : nat;
  serrs : list error;
  staged : gmap string Snapshot;
  cleanup : gset string
}.

(** The body of the staging loop; [inl] is an early return with an error. *)
Definition stage_node (snapshotCache : SnapshotCache.t) (tmp : gmap string ResMap) (s : sstate)
    (nodeID : string) : error + sstate :=
  match ctx (spolls s) with
  | Some e => inl e
  | None =>
      let s := mkS (S (spolls s)) (serrs s) (staged s) (cleanup s) in
      let resMap := default ∅ (tmp !! nodeID) in
      let fail e := inr (mkS (spolls s) (serrs s ++ [e]) (staged s) (cleanup s)) in
      let plan (snapshot : Snapshot) (hasChanges : bool) :=
        if hasChanges then
          match Consistent snapshot with
          | Some e => fail e
          | None => inr (mkS (spolls s) (serrs s) (<[nodeID := snapshot]> (staged s))
                           (cleanup s ∖ {[nodeID]}))
          end
        else inr (mkS (spolls s) (serrs s) (staged s) (cleanup s ∖ {[nodeID]})) in
      match SnapshotCache.GetSnapshot snapshotCache nodeID with
      | Ok prev =>
          match updateSnapshot (Some prev) resMap with
          | Err e => fail e
          | Ok (snapshot, hasChanges) => plan snapshot hasChanges
          end
      | Err _ =>
          match NewSnapshot "1" resMap with
          | Err e => fail e
          | Ok snapshot => plan snapshot true
          end
      end
  end.

Fixpoint stage_all (snapshotCache : SnapshotCache.t) (tmp : gmap string ResMap) (s : sstate)
    (nodes : list string) : error + sstate :=
  match nodes with
  | [] => inr s
  | n :: nodes =>
      match stage_node snapshotCache tmp s n with
      | inl e => inl e
      | inr s => stage_all snapshotCache tmp s nodes
      end
  end.

(** [for nodeID := range ... { if err := SetSnapshot(...); err != nil { errs = append(errs, err) } }] *)
Definition commit_one (snap : string → Snapshot) (acc : SnapshotCache.t * list error) (nodeID : string)
  : SnapshotCache.t * list error :=
  let '(c, err) := SnapshotCache.SetSnapshot acc.1 nodeID (snap nodeID) in
  (c, acc.2 ++ option_list err).

Definition commit (snapshotCache : SnapshotCache.t) (st : gmap string Snapshot) (cl : gset string)
  : SnapshotCache.t * list error :=
  let acc := foldl (commit_one (λ n, default EmptySnapshot (st !! n))) (snapshotCache, [])
               (ord (dom st)) in
  foldl (commit_one (λ _, EmptySnapshot)) acc (ord cl).

Record built := mkBuilt {
  bCache : SnapshotCache.t;
  bStore : Store.OptimizedStore;
  bErr : option error;
  bUsed : option (gmap NN NN);
  bStatuses : gmap NN VSStatus
}.

(** The index written to the store after a commit. *)
Definition final_index (idx : gmap string (gset string)) (allNodes : gset string)
  : gmap string (gset string) :=
  set_fold (λ nodeID acc, match acc !! nodeID with
                          | Some _ => acc
                          | None => <[nodeID := ∅]> acc
                          end) idx allNodes.

Definition build_tail (snapshotCache : SnapshotCache.t) (store : Store.OptimizedStore) (s : bstate)
  : built :=
  let fail e := mkBuilt snapshotCache store (Some e) (Some (usedSecrets s)) (vsStatuses s) in
  match Mixer.Mix store (mixer s) (lord (mixer s)) with
  | Err err => fail (multierr_Combine (errs s ++ [err]))
  | Ok tmp =>
      match stage_all snapshotCache tmp
              (mkS (polls s) (errs s) ∅ (SnapshotCache.GetNodeIDsAsMap snapshotCache)) (ord (dom tmp)) with
      | inl e => fail e
      | inr st =>
          if decide (serrs st ≠ []) then fail (multierr_Combine (serrs st))
          else match ctx (spolls st) with
               | Some e => fail e
               | None =>
                   let '(c, es) := commit snapshotCache (staged st) (cleanup st) in
                   if decide (es ≠ []) then
                     mkBuilt c store (Some (multierr_Combine es)) (Some (usedSecrets s)) (vsStatuses s)
                   else
                     let store := if indices then
                                    Store.ReplaceNodeDomainsIndex store
                                      (final_index (nodeDomainsIndex s) (dom (staged st) ∪ cleanup st))
                                  else store in
                     mkBuilt c store None (Some (usedSecrets s)) (vsStatuses s)
               end
      end
  end.

(** [order] is the order in which the virtual services are visited. *)
Definition build_resources (store : Store.OptimizedStore) (order : list VirtualService) : outcome :=
  and_then (for_each (process_vs store) (init_bstate 1) order) (λ s,
  and_then (for_each (process_common store) s (commonVirtualServices s)) poll).

Definition buildSnapshots (snapshotCache : SnapshotCache.t) (store : Store.OptimizedStore)
    (order : list VirtualService) : built :=
  match ctx 0 with
  | Some e => mkBuilt snapshotCache store (Some e) None ∅
  | None =>
      match build_resources store order with
      | Stop e u s => mkBuilt snapshotCache store (Some e) u (vsStatuses s)
      | Go s => build_tail snapshotCache store s
      end
  end.
End build.

(** ** The updater's state *)
Section updater.
Context `{CacheAPI} `{!ProtoMessage ListenerV3} `{!ProtoMessage ClusterV3} `{JsonLib : !Api.JsonLib}.
Context (pem_Decode : string → option (DomainSecrets.PemBlock * string)).
Context (x509_ParseCertificate : string → result DomainSecrets.Time).
Context (buildVSResources : VirtualService → Store.OptimizedStore → result Resources).

Record CacheUpdater := mkCU {
  snapshotCache : SnapshotCache.t;
  store : Store.OptimizedStore;
  usedSecretsOf : gmap NN NN
}.

Definition NewCacheUpdater (wsc : SnapshotCache.t) (st : Store.OptimizedStore) : CacheUpdater :=
  mkCU wsc st ∅.

(** What is left open by one run of the build: the answers of the context, the
    iteration orders, and the value of WEBHOOK_VALIDATION_INDICES. *)
Record Run := mkRun {
  r_ctx : nat → option error;
  r_vs : Store.OptimizedStore → list VirtualService;
  r_ord : gset string → list string;
  r_lord : Mixer.t → list Mixer.entry;
  r_env : string
}.

Definition build_with (r : Run) (c : SnapshotCache.t) (st : Store.OptimizedStore) : built :=
  buildSnapshots buildVSResources (r_ctx r) (r_ord r) (r_lord r)
    (getValidationIndicesEnabled (r_env r)) c st (r_vs r st).

(** [for vsNN, status := range vsStatuses { store.SetVirtualServiceStatus(...) }] *)
Definition apply_statuses (st : Store.OptimizedStore) (statuses : gmap NN VSStatus)
  : Store.OptimizedStore :=
  map_fold (λ nn s st, Store.SetVirtualServiceStatus st nn (Status.Invalid s) (Status.Message s))
    st statuses.

Definition rebuildSnapshots (r : Run) (c : CacheUpdater) : CacheUpdater * option error :=
  let b := build_with r (snapshotCache c) (store c) in
  let st := apply_statuses (bStore b) (bStatuses b) in
  match bErr b with
  | Some e => (mkCU (bCache b) st (usedSecretsOf c), Some e)
  | None => (mkCU (bCache b) st (default ∅ (bUsed b)), None)
  end.

Definition RebuildSnapshots := rebuildSnapshots.

Definition with_store (c : CacheUpdater) (st : Store.OptimizedStore) : CacheUpdater :=
  mkCU (snapshotCache c) st (usedSecretsOf c).

(** The shape of the [Apply*] methods: an unchanged object is skipped. *)
Definition apply_obj {R} (get : Store.OptimizedStore → NN → option R)
    (isEqual : option R → option R → bool) (set : Store.OptimizedStore → R → Store.OptimizedStore)
    (r : Run) (c : CacheUpdater) (nn : NN) (obj : R) : CacheUpdater :=
  match get (store c) nn with
  | None => (rebuildSnapshots r (with_store c (set (store c) obj))).1
  | Some prev =>
      if isEqual (Some prev) (Some obj) then c
      else (rebuildSnapshots r (with_store c (set (store c) obj))).1
  end.

(** The shape of the [Delete*] methods. *)
Definition delete_obj (exists_ : Store.OptimizedStore → NN → bool)
    (del : Store.OptimizedStore → NN → Store.OptimizedStore)
    (r : Run) (c : CacheUpdater) (nn : NN) : CacheUpdater * option error :=
  if exists_ (store c) nn then rebuildSnapshots r (with_store c (del (store c) nn)) else (c, None).

Definition ApplyVirtualService (r : Run) (c : CacheUpdater) (vs : VirtualService) : CacheUpdater :=
  let vs := Api.VS_NormalizeSpec vs in
  apply_obj Store.GetVirtualService Api.VS_IsEqual Store.SetVirtualService r c (key vs) vs.
Definition DeleteVirtualService (r : Run) (c : CacheUpdater) (nn : NN) : CacheUpdater * option error :=
  delete_obj Store.IsExistingVirtualService Store.DeleteVirtualService r c nn.
Definition GetVirtualServicesByTemplate (c : CacheUpdater) (vst : VirtualServiceTemplate)
  : list VirtualService := Store.GetVirtualServicesByTemplateNN (store c) (key vst).

(** Also returns whether dependent services have to be reconciled. *)
Definition ApplyVirtualServiceTemplate (r : Run) (c : CacheUpdater) (vst : VirtualServiceTemplate)
  : CacheUpdater * bool :=
  let vst := Api.VST_NormalizeSpec vst in
  (apply_obj Store.GetVirtualServiceTemplate Api.VST_IsEqual Store.SetVirtualServiceTemplate
     r c (key vst) vst,
   match Store.GetVirtualServiceTemplate (store c) (key vst) with
   | None => false
   | Some prev => negb (Api.VST_IsEqual (Some prev) (Some vst))
   end).
Definition DeleteVirtualServiceTemplate (r : Run) (c : CacheUpdater) (nn : NN)
  : CacheUpdater * option error :=
  delete_obj Store.IsExistingVirtualServiceTemplate Store.DeleteVirtualServiceTemplate r c nn.

Definition ApplyListener (r : Run) (c : CacheUpdater) (listener : Listener) : CacheUpdater :=
  apply_obj Store.GetListener Api.Listener_IsEqual Store.SetListener r c (key listener) listener.
Definition DeleteListener (r : Run) (c : CacheUpdater) (nn : NN) : CacheUpdater :=
  (delete_obj Store.IsExistingListener Store.DeleteListener r c nn).1.
Definition ApplyCluster (r : Run) (c : CacheUpdater) (cl : Cluster) : CacheUpdater :=
  apply_obj Store.GetCluster Api.Cluster_IsEqual Store.SetCluster r c (key cl) cl.
Definition DeleteCluster (r : Run) (c : CacheUpdater) (nn : NN) : CacheUpdater :=
  (delete_obj Store.IsExistingCluster Store.DeleteCluster r c nn).1.
Definition GetSpecCluster (c : CacheUpdater) (specCluster : string) : option Cluster :=
  Store.GetSpecCluster (store c) specCluster.
Definition ApplyRoute (r : Run) (c : CacheUpdater) (route : Route) : CacheUpdater :=
  apply_obj Store.GetRoute Api.Route_IsEqual Store.SetRoute r c (key route) route.
Definition DeleteRoute (r : Run) (c : CacheUpdater) (nn : NN) : CacheUpdater :=
  (delete_obj Store.IsExistingRoute Store.DeleteRoute r c nn).1.
Definition ApplyHTTPFilter (r : Run) (c : CacheUpdater) (httpFilter : HttpFilter) : CacheUpdater :=
  apply_obj Store.GetHTTPFilter Api.HttpFilter_IsEqual Store.SetHTTPFilter r c (key httpFilter)
    httpFilter.
Definition DeleteHTTPFilter (r : Run) (c : CacheUpdater) (nn : NN) : CacheUpdater :=
  (delete_obj Store.IsExistingHTTPFilter Store.DeleteHTTPFilter r c nn).1.
Definition ApplyPolicy (r : Run) (c : CacheUpdater) (policy : Policy) : CacheUpdater :=
  apply_obj Store.GetPolicy Api.Policy_IsEqual Store.SetPolicy r c (key policy) policy.
Definition DeletePolicy (r : Run) (c : CacheUpdater) (nn : NN) : CacheUpdater :=
  (delete_obj Store.IsExistingPolicy Store.DeletePolicy r c nn).1.
Definition ApplyAccessLogConfig (r : Run) (c : CacheUpdater) (alc : AccessLogConfig) : CacheUpdater :=
  apply_obj Store.GetAccessLog Api.AccessLogConfig_IsEqual Store.SetAccessLog r c (key alc) alc.
Definition DeleteAccessLogConfig (r : Run) (c : CacheUpdater) (nn : NN) : CacheUpdater :=
  (delete_obj Store.IsExistingAccessLog Store.DeleteAccessLog r c nn).1.
Definition ApplyTracing (r : Run) (c : CacheUpdater) (tracing : Tracing) : CacheUpdater :=
  apply_obj Store.GetTracing Api.Tracing_IsEqual Store.SetTracing r c (key tracing) tracing.
Definition DeleteTracing (r : Run) (c : CacheUpdater) (nn : NN) : CacheUpdater :=
  (delete_obj Store.IsExistingTracing Store.DeleteTracing r c nn).1.

(** [secretsEqual]: a nil value under a key counts as missing; the values here
    are never nil. *)
Definition secretsEqual (a b : Secret) : bool :=
  match s_data a, s_data b with
  | None, None => true
  | Some da, Some db =>
      if decide (size da ≠ size db) then false
      else if existsb (λ p : string * string,
                match db !! p.1 with
                | None => true
                | Some v => negb (bool_decide (p.2 = v))
                end) (map_to_list da) then false
      else bool_decide (nilmap_get (Annotations (meta a)) Api.AnnotationSecretDomains =
                        nilmap_get (Annotations (meta b)) Api.AnnotationSecretDomains)
  | _, _ => false
  end.

Definition opt_secretsEqual (a b : option Secret) : bool :=
  match a, b with Some a, Some b => secretsEqual a b | _, _ => false end.
Definition ApplySecret (r : Run) (c : CacheUpdater) (secret : Secret) : CacheUpdater :=
  apply_obj Store.GetSecret opt_secretsEqual (Store.SetSecret pem_Decode x509_ParseCertificate)
    r c (key secret) secret.
Definition DeleteSecret (r : Run) (c : CacheUpdater) (nn : NN) : CacheUpdater :=
  (delete_obj Store.IsExistingSecret Store.DeleteSecret r c nn).1.

Definition CopyStore (c : CacheUpdater) : Store.OptimizedStore := Store.Copy (store c).
Definition GetUsedSecrets (c : CacheUpdater) : gmap NN NN := copy_map (usedSecretsOf c).
Definition GetVirtualServiceWithStatus (c : CacheUpdater) (nn : NN) : option VirtualService :=
  Store.GetVirtualServiceWithStatus (store c) nn.

(** [GetMarshaledStore]: the maps that are handed to [json.MarshalIndent]; tracings
    are not among them. *)
Record StoreDump := mkDump {
  dVirtualServices : gmap string VirtualService; dClusters : gmap string Cluster; dSpecClusters : gmap string Cluster;
  dSecrets : gmap string Secret; dRoutes : gmap string Route; dListeners : gmap string Listener;
  dTemplates : gmap string VirtualServiceTemplate; dAccessLogs : gmap string AccessLogConfig;
  dHttpFilters : gmap string HttpFilter; dPolicies : gmap string Policy; dDomainToSecret : gmap string Secret
}.
Definition by_string {R} (m : gmap NN R) : gmap string R :=
  map_fold (λ nn o acc, <[Helpers.String nn := o]> acc) ∅ m.
Definition GetMarshaledStore (marshalIndent : StoreDump → result string) (now : DomainSecrets.Time) (c : CacheUpdater)
  : result string :=
  let s := store c in
  marshalIndent (mkDump (by_string (Store.MapVirtualServices s)) (by_string (Store.MapClusters s)) (Store.MapSpecClusters s)
    (by_string (Store.MapSecrets s)) (by_string (Store.MapRoutes s)) (by_string (Store.MapListeners s))
    (by_string (Store.MapVirtualServiceTemplates s)) (by_string (Store.MapAccessLogs s)) (by_string (Store.MapHTTPFilters s))
    (by_string (Store.MapPolicies s)) (Store.MapDomainSecrets now s)).

(** ** Dry runs *)
Definition DryBuildSnapshotsWithVirtualService (r : Run) (c : CacheUpdater) (vs : VirtualService)
  : option error :=
  let storeCopy := Store.SetVirtualService (Store.Copy (store c)) vs in
  bErr (build_with r SnapshotCache.NewSnapshotCache storeCopy).
Definition DryBuildSnapshotsWithVirtualServiceTemplate (r : Run) (c : CacheUpdater)
    (vst : VirtualServiceTemplate) : option error :=
  let storeCopy := Store.SetVirtualServiceTemplate (Store.Copy (store c)) vst in
  bErr (build_with r SnapshotCache.NewSnapshotCache storeCopy).

(** ** Light validation *)
Definition ErrLightValidationInsufficientCoverage : error :=
  ErrNew "light validation insufficient coverage".

Fixpoint validateDomainsWithinVS_loop (seen : gset string) (domains : list string) : result unit :=
  match domains with
  | [] => Ok tt
  | d :: ds =>
      if decide (d ∈ seen) then Err (ErrNew ("duplicate domain '" +:+ d +:+ "' within VirtualService"))
      else validateDomainsWithinVS_loop ({[d]} ∪ seen) ds
  end.
Definition validateDomainsWithinVS (domains : list string) : result unit :=
  validateDomainsWithinVS_loop ∅ domains.

Definition resolveTargetNodeIDs (nodeIDs : list string) (sc : SnapshotCache.t) : list string :=
  if isCommonVirtualService nodeIDs then SnapshotCache.GetNodeIDs sc else nodeIDs.

(** [existing] with the new node IDs appended, without repetitions. *)
Definition add_missing (existing new : list string) : list string :=
  foldl (λ ex n, if decide (n ∈ ex) then ex else ex ++ [n]) existing new.

Definition map_listener (sc : SnapshotCache.t) (mapping : gmap NN (list string)) (vs : VirtualService)
  : gmap NN (list string) :=
  let vsNodeIDs := Api.GetNodeIDs vs in
  if decide (length vsNodeIDs = 0) then mapping
  else match ListenerRef (Common (vs_spec vs)) with
       | None => mapping
       | Some l =>
           if decide (refName l = "") then mapping
           else
             let listenerNN := Helpers.mkNN (Namespace (meta vs)) (refName l) in
             <[listenerNN := add_missing (default [] (mapping !! listenerNN))
                               (resolveTargetNodeIDs vsNodeIDs sc)]> mapping
       end.

(** [order]: the virtual services in the order visited. *)
Definition buildListenerToNodeIDsMapping (sc : SnapshotCache.t) (order : list VirtualService)
  : gmap NN (list string) := foldl (map_listener sc) ∅ order.

(** The listeners of each node; the loops range over maps, so the order of a
    node's listeners is arbitrary and only selects which duplicate is reported. *)
Definition group_by_node (listenerToNodeIDs : gmap NN (list string)) : gmap string (list NN) :=
  foldl (λ acc (p : NN * list string),
    foldl (λ acc n, <[n := default [] (acc !! n) ++ [p.1]]> acc) acc p.2)
    ∅ (map_to_list listenerToNodeIDs).

Definition host_port (sa : SocketAddress) : string :=
  Address sa +:+ ":" +:+ GoStrings.Itoa (PortValue sa).

Definition dup_address_error (nn : NN) (hp : string) (existing : NN) (nodeID : string) : error :=
  ErrNew ("listener '" +:+ Helpers.String nn +:+ "' has duplicate address '" +:+ hp +:+
    "' as existing listener '" +:+ Helpers.String existing +:+ "' within nodeID '" +:+ nodeID +:+ "'").

(** The fast check of one listener: incomplete listeners are skipped. *)
Definition fast_check (st : Store.OptimizedStore) (nodeID : string)
    (addrToListener : gmap string NN) (nn : NN) : result (gmap string NN) :=
  match Store.MapListeners st !! nn with
  | None => Ok addrToListener
  | Some listener =>
      match Api.Listener_UnmarshalV3 listener with
      | Err _ => Ok addrToListener
      | Ok lv3 =>
          match (a ← lAddress lv3; GetSocketAddress a) with
          | None => Ok addrToListener
          | Some sa =>
              match addrToListener !! host_port sa with
              | Some existing => Err (dup_address_error nn (host_port sa) existing nodeID)
              | None => Ok (<[host_port sa := nn]> addrToListener)
              end
          end
      end
  end.

(** The thorough check of one listener. *)
Definition thorough_check (st : Store.OptimizedStore) (nodeID : string)
    (addrToListener : gmap string NN) (nn : NN) : result (gmap string NN) :=
  match Store.MapListeners st !! nn with
  | None => Err (ErrNew ("listener " +:+ Helpers.String nn +:+ " referenced by nodeID " +:+ nodeID
                         +:+ " not found"))
  | Some listener =>
      lv3 ← wrap_err ("failed to unmarshal listener " +:+ Helpers.String nn +:+ " to v3")
              (Api.Listener_UnmarshalV3 listener);
      match lAddress lv3 with
      | None => Err (ErrNew ("listener " +:+ Helpers.String nn +:+ " has no address configured"))
      | Some addr =>
          match GetSocketAddress addr with
          | None => Err (ErrNew ("listener " +:+ Helpers.String nn +:+ " has no socket address configured"))
          | Some sa =>
              match addrToListener !! host_port sa with
              | Some existing => Err (dup_address_error nn (host_port sa) existing nodeID)
              | None => Ok (<[host_port sa := nn]> addrToListener)
              end
          end
      end
  end.

Definition check_nodes
    (check : string → gmap string NN → NN → result (gmap string NN))
    (groups : gmap string (list NN)) : result unit :=
  _ ← map_result (λ p : string * list NN, fold_result (check p.1) ∅ p.2) (map_to_list groups);
  Ok tt.

Definition validateListenerAddressesPerNodeID (st : Store.OptimizedStore)
    (listenerToNodeIDs : gmap NN (list string)) : result unit :=
  check_nodes (fast_check st) (group_by_node listenerToNodeIDs).
Definition validateListenerAddressesUniquePerNodeID (st : Store.OptimizedStore)
    (listenerToNodeIDs : gmap NN (list string)) : result unit :=
  check_nodes (thorough_check st) (group_by_node listenerToNodeIDs).

Definition validateListenerAddresses (st : Store.OptimizedStore) (sc : SnapshotCache.t)
    (validationIndices : bool) (order : list VirtualService) : result unit :=
  let listenerToNodeIDs := buildListenerToNodeIDsMapping sc order in
  _ ← (if validationIndices then validateListenerAddressesPerNodeID st listenerToNodeIDs else Ok tt);
  validateListenerAddressesUniquePerNodeID st listenerToNodeIDs.

(** The domains of the route configurations of a node. *)
Definition snapshot_domains (rcs : list RouteConfiguration) : gset string :=
  list_to_set (rcs ≫= (λ rc, rcVirtualHosts rc ≫= vhDomains)).

(** The loop over the snapshots; the context is polled once per node, starting
    with poll [n]. *)
Fixpoint existing_from_cache (ctx : nat → option error) (sc : SnapshotCache.t) (n : nat)
    (missing : nat) (acc : gmap string (gset string)) (nodes : list string)
  : result (nat * gmap string (gset string)) :=
  match nodes with
  | [] => Ok (missing, acc)
  | nodeID :: nodes =>
      match ctx n with
      | Some e => Err e
      | None =>
          match SnapshotCache.GetRouteConfigurations sc nodeID with
          | Err _ => existing_from_cache ctx sc (S n) (S missing) acc nodes
          | Ok rcs =>
              existing_from_cache ctx sc (S n) missing (<[nodeID := snapshot_domains rcs]> acc) nodes
          end
      end
  end.

Definition buildExistingDomainsMap (ctx : nat → option error) (c : CacheUpdater)
    (targetNodeIDs : list string) (storeCopy : Store.OptimizedStore) (validationIndices : bool)
  : result (gmap string (gset string)) :=
  if validationIndices then
    let '(idx, missing) := Store.GetNodeDomainsForNodes storeCopy targetNodeIDs in
    if decide (0 < length missing) then Err ErrLightValidationInsufficientCoverage else Ok idx
  else
    match existing_from_cache ctx (snapshotCache c) 1 0 ∅ targetNodeIDs with
    | Err e => Err e
    | Ok (missing, existing) =>
        if decide (0 < missing) then Err ErrLightValidationInsufficientCoverage else Ok existing
    end.

Definition excludePreviousVSDomains (c : CacheUpdater) (prevVS : VirtualService)
    (targetNodeIDs : list string) (existingByNode : gmap string (gset string))
  : result (gmap string (gset string)) :=
  prevRes ← wrap_err "failed to build resources for previous VS"
              (buildVSResources prevVS (Store.Copy (store c)));
  let prevNodeIDs := resolveTargetNodeIDs (Api.GetNodeIDs prevVS) (snapshotCache c) in
  let prevDomains : gset string := list_to_set (RDomains prevRes) in
  Ok (foldl (λ ex nodeID,
        match ex !! nodeID with
        | Some set => if decide (nodeID ∈ prevNodeIDs) then <[nodeID := set ∖ prevDomains]> ex else ex
        | None => ex
        end) existingByNode targetNodeIDs).

Definition checkDomainCollisions (candidateDomains targetNodeIDs : list string)
    (existingByNode : gmap string (gset string)) : result unit :=
  _ ← map_result (λ nodeID,
        let set := default ∅ (existingByNode !! nodeID) in
        map_result (λ d, fail_if (bool_decide (d ∈ set))
          (ErrNew ("duplicate domain '" +:+ d +:+ "' for node " +:+ nodeID))) candidateDomains)
      targetNodeIDs;
  Ok tt.

Definition DryValidateVirtualServiceLight (ctx : nat → option error) (c : CacheUpdater)
    (vs : VirtualService) (prevVS : option VirtualService) (validationIndices : bool)
    (order : Store.OptimizedStore → list VirtualService) : result unit :=
  match ctx 0 with
  | Some e => Err e
  | None =>
      let storeCopy := Store.SetVirtualService (Store.Copy (store c)) vs in
      vsRes ← wrap_err "failed to build resources for VS" (buildVSResources vs storeCopy);
      _ ← validateDomainsWithinVS (RDomains vsRes);
      _ ← validateListenerAddresses storeCopy (snapshotCache c) validationIndices (order storeCopy);
      let targetNodeIDs := resolveTargetNodeIDs (Api.GetNodeIDs vs) (snapshotCache c) in
      if decide (length targetNodeIDs = 0 ∨ length (RDomains vsRes) = 0) then Ok tt
      else
        existingByNode ← buildExistingDomainsMap ctx c targetNodeIDs storeCopy validationIndices;
        existingByNode ←
          match prevVS with
          | Some p => excludePreviousVSDomains c p targetNodeIDs existingByNode
          | None => Ok existingByNode
          end;
        checkDomainCollisions (RDomains vsRes) targetNodeIDs existingByNode
  end.
End updater.

(** ** Versions *)
Lemma index_by_name_fold rs (m : gmap string Resource) :
  foldl (λ m r, <[GetResourceName r := r]> m) m rs =
  list_to_map (reverse ((λ r, (GetResourceName r, r)) <$> rs)) ∪ m.
Proof.
  revert m. induction rs as [|r rs IH]; intros m; [symmetry; apply (left_id_L ∅ (∪))|].
  cbn [foldl]. rewrite IH, fmap_cons, reverse_cons, list_to_map_app.
  rewrite <-(assoc_L (∪)). f_equal. cbn. by rewrite insert_empty, insert_union_singleton_l.
Qed.

Lemma names_pairs (rs : list Resource) :
  (reverse ((λ r, (GetResourceName r, r)) <$> rs)).*1 ≡ₚ GetResourceName <$> rs.
Proof. by rewrite reverse_Permutation, <-list_fmap_compose. Qed.

Lemma index_by_name_alt rs :
  index_by_name rs = list_to_map (reverse ((λ r, (GetResourceName r, r)) <$> rs)).
Proof. unfold index_by_name. rewrite index_by_name_fold. apply (right_id_L ∅ (∪)). Qed.

Lemma index_by_name_lookup rs n r :
  NoDup (GetResourceName <$> rs) →
  index_by_name rs !! n = Some r ↔ r ∈ rs ∧ GetResourceName r = n.
Proof.
  intros Hnd. rewrite index_by_name_alt, <-elem_of_list_to_map by (by rewrite names_pairs).
  rewrite elem_of_reverse, list_elem_of_fmap. naive_solver.
Qed.

Lemma index_by_name_dom rs : dom (index_by_name rs) = list_to_set (GetResourceName <$> rs).
Proof.
  rewrite index_by_name_alt, dom_list_to_map_L. apply list_to_set_perm_L, names_pairs.
Qed.

Lemma index_by_name_size rs :
  size (index_by_name rs) = length rs ↔ NoDup (GetResourceName <$> rs).
Proof.
  rewrite <-size_dom, index_by_name_dom. split.
  - intros Hs. rewrite <-(length_fmap GetResourceName rs) in Hs. revert Hs.
    generalize (GetResourceName <$> rs) as l. intros l.
    assert (∀ l : list string, size (list_to_set l : gset string) ≤ length l) as Hle.
    { induction l0 as [|x l0 IH]; cbn; [by rewrite size_empty|].
      rewrite size_union_alt, size_singleton.
      assert (size ((list_to_set l0 : gset string) ∖ {[x]}) ≤ size (list_to_set l0 : gset string))
        by (apply subseteq_size; set_solver). lia. }
    induction l as [|x l IH]; intros Hs; [constructor|]. cbn in Hs.
    assert (x ∉ l) as Hx.
    { intros Hx. assert ({[x]} ∪ list_to_set l = (list_to_set l : gset string)) as He by set_solver.
      rewrite He in Hs. specialize (Hle l). lia. }
    constructor; [done|]. apply IH. rewrite size_union, size_singleton in Hs by set_solver. lia.
  - intros Hnd. by rewrite size_list_to_set, length_fmap.
Qed.

Lemma checkResourcesChanged_false prev rs :
  checkResourcesChanged prev rs = false ↔
  size prev = length rs ∧ ∀ r, r ∈ rs → prev !! GetResourceName r = Some r.
Proof.
  unfold checkResourcesChanged. case_decide as Hs; [naive_solver|].
  apply dec_stable in Hs || (assert (size prev = length rs) by done).
  rewrite <-not_true_iff_false, existsb_exists. split.
  - intros Hn. split; [done|]. intros r Hr.
    destruct (prev !! GetResourceName r) as [v|] eqn:Hv; [|exfalso]; [f_equal|].
    + destruct (decide (v = r)); [done|]. exfalso. apply Hn. exists r.
      split; [by apply list_elem_of_In|]. rewrite Hv. by rewrite bool_decide_eq_false_2.
    + apply Hn. exists r. split; [by apply list_elem_of_In|]. by rewrite Hv.
  - intros [_ Hall] (r & Hr%list_elem_of_In & Hb). rewrite (Hall r Hr) in Hb.
    by rewrite bool_decide_eq_true_2 in Hb.
Qed.

(** With distinct names the comparison is exact. *)
Lemma checkResourcesChanged_exact prev rs :
  NoDup (GetResourceName <$> rs) →
  checkResourcesChanged prev rs = false ↔ prev = index_by_name rs.
Proof.
  intros Hnd. rewrite checkResourcesChanged_false. split.
  - intros [Hs Hall]. symmetry. apply map_subseteq_size_eq.
    + apply map_subseteq_spec. intros n r. rewrite index_by_name_lookup by done.
      intros [Hr <-]. by apply Hall.
    + apply index_by_name_size in Hnd. lia.
  - intros ->. split; [by apply index_by_name_size|]. intros r Hr. by apply index_by_name_lookup.
Qed.

Lemma next_version_Itoa n :
  (0 ≤ n < 2 ^ 63 - 1)%Z → next_version (GoStrings.Itoa n) = GoStrings.Itoa (n + 1).
Proof.
  intros Hn. unfold next_version. rewrite GoStrings.Atoi_Itoa by lia.
  by rewrite GoStrings.wrap64_small by lia.
Qed.

Section version_theorems.
Context `{SnapshotAPI}.

Definition prev_version (prev : Snapshot) (typ : ResType) : string :=
  if decide (GetVersion prev typ = "") then "0" else GetVersion prev typ.

Lemma update_fold prev l acc typ :
  NoDup l.*1 →
  let '(snap, ch) := foldl (update_type prev) acc l in
  (∀ rs, (typ, rs) ∈ l →
     GetResources snap typ = index_by_name rs ∧
     GetVersion snap typ = (if checkResourcesChanged (GetResources prev typ) rs
                            then next_version (prev_version prev typ) else prev_version prev typ)) ∧
  (typ ∉ l.*1 → GetResources snap typ = GetResources acc.1 typ ∧ GetVersion snap typ = GetVersion acc.1 typ) ∧
  (ch = acc.2 || existsb (λ p, checkResourcesChanged (GetResources prev p.1) p.2) l).
Proof.
  revert acc. induction l as [|[t rs] l IH]; intros [snap0 ch0] Hnd; cbn [foldl].
  { split; [by intros ? ?%not_elem_of_nil|]. split; [done|]. cbn. by destruct ch0. }
  cbn in Hnd. apply NoDup_cons in Hnd as [Ht Hnd].
  specialize (IH (update_type prev (snap0, ch0) (t, rs)) Hnd).
  destruct (foldl (update_type prev) (update_type prev (snap0, ch0) (t, rs)) l) as [snap ch].
  destruct IH as (IH1 & IH2 & IH3). cbn [fst snd] in *.
  assert ((update_type prev (snap0, ch0) (t, rs)).2 =
    ch0 || checkResourcesChanged (GetResources prev t) rs) as Hch.
  { unfold update_type. destruct (checkResourcesChanged _ _); cbn; by destruct ch0. }
  assert (∀ t', GetResources (update_type prev (snap0, ch0) (t, rs)).1 t' =
    if decide (t = t') then index_by_name rs else GetResources snap0 t') as Hres.
  { intros t'. unfold update_type. destruct (checkResourcesChanged _ _); cbn; apply GetResources_set. }
  assert (∀ t', GetVersion (update_type prev (snap0, ch0) (t, rs)).1 t' =
    if decide (t = t') then (if checkResourcesChanged (GetResources prev t) rs
      then next_version (prev_version prev t) else prev_version prev t) else GetVersion snap0 t') as Hver.
  { intros t'. unfold update_type, prev_version. destruct (checkResourcesChanged _ _); cbn; apply GetVersion_set. }
  split; [|split].
  - intros rs' [[= -> ->]|Hin]%elem_of_cons; [|by apply IH1].
    destruct IH2 as [-> ->]; [done|]. rewrite Hres, Hver. by rewrite !decide_True.
  - rewrite fmap_cons. intros Hn. cbn in Hn. apply not_elem_of_cons in Hn as [Hn1 Hn2].
    destruct (IH2 Hn2) as [-> ->]. rewrite Hres, Hver. by rewrite !decide_False.
  - rewrite Hch in IH3. cbn [existsb fst snd]. by rewrite orb_assoc.
Qed.

Lemma updateSnapshot_spec prev resources snap hasChanges :
  (∀ typ rs, resources !! typ = Some rs → NoDup (GetResourceName <$> rs)) →
  updateSnapshot (Some prev) resources = Ok (snap, hasChanges) →
  (∀ typ rs, resources !! typ = Some rs →
     GetResources snap typ = index_by_name rs ∧
     (GetResources prev typ = index_by_name rs → GetVersion snap typ = prev_version prev typ) ∧
     (GetResources prev typ ≠ index_by_name rs →
        GetVersion snap typ = next_version (prev_version prev typ))) ∧
  (hasChanges = true ↔
     ∃ typ rs, resources !! typ = Some rs ∧ GetResources prev typ ≠ index_by_name rs).
Proof.
  intros Hnd Hup. cbn in Hup. injection Hup as Hup.
  pose proof (λ typ, update_fold prev (map_to_list resources) (EmptySnapshot, false) typ
    (NoDup_fst_map_to_list resources)) as Hf. rewrite Hup in Hf.
  assert (∀ typ rs, resources !! typ = Some rs →
    checkResourcesChanged (GetResources prev typ) rs = true ↔ GetResources prev typ ≠ index_by_name rs)
    as Hchg.
  { intros typ rs Hr. rewrite <-(checkResourcesChanged_exact _ _ (Hnd _ _ Hr)).
    by rewrite not_false_iff_true. }
  split.
  - intros typ rs Hr. destruct (Hf typ) as (H1 & _ & _).
    destruct (H1 rs) as [-> ->]; [by apply elem_of_map_to_list|]. split; [done|].
    specialize (Hchg typ rs Hr). destruct (checkResourcesChanged _ _); naive_solver.
  - destruct (Hf ListenerType) as (_ & _ & ->). cbn [orb snd].
    rewrite existsb_exists. split.
    + intros ([typ rs] & Hin%list_elem_of_In%elem_of_map_to_list & Hc). exists typ, rs.
      split; [done|]. by apply Hchg.
    + intros (typ & rs & Hr & Hne). exists (typ, rs). split; [|by apply Hchg].
      by apply list_elem_of_In, elem_of_map_to_list.
Qed.
End version_theorems.

(** ** The build loops *)
Section build_lemmas.
Context `{CacheAPI} `{!ProtoMessage ListenerV3}.
Context (build : VirtualService → Store.OptimizedStore → result Resources).
Context (ctx : nat → option error).
Context (ord : gset string → list string).
Context (indices : bool).

Lemma and_then_Go o f s' : and_then o f = Go s' → ∃ s, o = Go s ∧ f s = Go s'.
Proof. destruct o; cbn; [eauto|done]. Qed.

Lemma poll_Go s s' : poll ctx s = Go s' → s' = set_polls s (S (polls s)).
Proof. unfold poll. destruct (ctx (polls s)); congruence. Qed.

(** What placing resources leaves alone, and what it does to the domains and
    the mixer. *)
Record placed (s s' : bstate) (keys : list string) (ops : list Mixer.op) : Prop := {
  pl_errs : errs s' = errs s;
  pl_statuses : vsStatuses s' = vsStatuses s;
  pl_common : commonVirtualServices s' = commonVirtualServices s;
  pl_mixer : mixer s' = foldl Mixer.exec (mixer s) ops;
  pl_domains : nodeIDDomainsSet s' = nodeIDDomainsSet s ∪ list_to_set keys;
  pl_nodup : NoDup keys;
  pl_fresh : ∀ k, k ∈ keys → k ∉ nodeIDDomainsSet s
}.

Lemma placed_refl s s' :
  errs s' = errs s → vsStatuses s' = vsStatuses s → mixer s' = mixer s →
  commonVirtualServices s' = commonVirtualServices s → nodeIDDomainsSet s' = nodeIDDomainsSet s →
  placed s s' [] [].
Proof.
  intros. split; try done; [cbn|constructor|by intros ? ?%not_elem_of_nil].
  by rewrite (right_id_L ∅ (∪)).
Qed.

Lemma placed_trans s1 s2 s3 k1 k2 o1 o2 :
  placed s1 s2 k1 o1 → placed s2 s3 k2 o2 → placed s1 s3 (k1 ++ k2) (o1 ++ o2).
Proof.
  intros [] []. split; try congruence.
  - rewrite foldl_app. congruence.
  - rewrite list_to_set_app_L, (assoc_L (∪)). congruence.
  - apply NoDup_app. split_and!; [done| |done]. intros k Hk1 Hk2.
    specialize (pl_fresh1 k Hk2). set_solver.
  - intros k [Hk|Hk]%elem_of_app; [by apply pl_fresh0|]. specialize (pl_fresh1 k Hk). set_solver.
Qed.

Lemma for_each_placed {A} (f : bstate → A → outcome) (keys : A → list string)
    (ops : A → list Mixer.op) s s' l :
  (∀ s s' x, x ∈ l → f s x = Go s' → placed s s' (keys x) (ops x)) →
  for_each f s l = Go s' → placed s s' (l ≫= keys) (l ≫= ops).
Proof.
  revert s. induction l as [|x l IH]; intros s Hf Hg; cbn in Hg.
  - injection Hg as <-. by apply placed_refl.
  - apply and_then_Go in Hg as (s1 & H1 & H2). cbn.
    eapply placed_trans; [apply Hf; [by left|done]|]. apply IH; [|done].
    intros ? ? ? ?. apply Hf. by right.
Qed.

Lemma add_domain_placed n s s' d :
  add_domain ctx indices n s d = Go s' → placed s s' [nodeIDDomain n d] [].
Proof.
  unfold add_domain. intros Hg. apply and_then_Go in Hg as (s1 & ->%poll_Go & Hg).
  case_decide as Hd; [done|]. injection Hg as <-. cbn in Hd.
  split; try done; cbn; [set_solver|apply NoDup_singleton|].
  intros k ->%list_elem_of_singleton. done.
Qed.

Lemma place_on_node_placed res s s' n :
  place_on_node ctx indices res s n = Go s' →
  placed s s' (nodeIDDomain n <$> RDomains res) (mixer_ops res n).
Proof.
  unfold place_on_node. intros Hg. apply and_then_Go in Hg as (s1 & ->%poll_Go & Hg).
  apply and_then_Go in Hg as (s2 & H2 & Hg). injection Hg as <-.
  apply (for_each_placed _ (λ d, [nodeIDDomain n d]) (λ _, [])) in H2.
  2:{ intros. by eapply add_domain_placed. }
  assert (∀ ds : list string, (ds ≫= λ d, [nodeIDDomain n d]) = (nodeIDDomain n <$> ds)) as Hk.
  { induction ds as [|d ds IH]; [done|]. cbn. by f_equal. }
  assert (∀ ds : list string, (ds ≫= λ _, @nil Mixer.op) = []) as Ho by (by induction ds).
  rewrite Hk, Ho in H2. destruct H2. split; cbn in *; try done. by rewrite pl_mixer0.
Qed.

(** The services that are placed on the nodes they name, the common ones, and
    those that fail. *)
Definition plain_nodes (vs : VirtualService) : list string :=
  let ns := Api.GetNodeIDs vs in
  if decide (ns = [] ∨ ns = ["*"]) then [] else ns.
Definition is_common (vs : VirtualService) : Prop := Api.GetNodeIDs vs = ["*"].
Global Instance is_common_dec vs : Decision (is_common vs).
Proof. unfold is_common. apply _. Defined.

Definition res_keys (store : Store.OptimizedStore) (nodes : list string) (vs : VirtualService)
  : list string :=
  match build vs store with
  | Ok res => nodes ≫= (λ n, nodeIDDomain n <$> RDomains res)
  | Err _ => []
  end.
Definition res_ops (store : Store.OptimizedStore) (nodes : list string) (vs : VirtualService)
  : list Mixer.op :=
  match build vs store with
  | Ok res => nodes ≫= mixer_ops res
  | Err _ => []
  end.

(** The status a service gets in the first loop. *)
Definition vs_status_of (store : Store.OptimizedStore) (vs : VirtualService) : VSStatus :=
  if decide (Api.GetNodeIDs vs = []) then
    mkVSStatus true ("virtual service " +:+ Namespace (meta vs) +:+ "/" +:+ Name (meta vs)
                     +:+ " has no node IDs")
  else if decide (is_common vs) then mkVSStatus false ""
  else match build vs store with
       | Ok _ => mkVSStatus false ""
       | Err e => mkVSStatus true (go_Error (getRootCause e))
       end.

(** The errors a service contributes in the first loop. *)
Definition vs_errors (store : Store.OptimizedStore) (vs : VirtualService) : list error :=
  if decide (Api.GetNodeIDs vs = []) then
    [ErrNew ("virtual service " +:+ Namespace (meta vs) +:+ "/" +:+ Name (meta vs)
             +:+ " has no node IDs")]
  else if decide (is_common vs) then []
  else match build vs store with Ok _ => [] | Err e => [e] end.

Record vs_processed (store : Store.OptimizedStore) (s s' : bstate) (l : list VirtualService) : Prop := {
  vp_errs : errs s' = errs s ++ (l ≫= vs_errors store);
  vp_statuses : vsStatuses s' = foldl (λ m vs, <[key vs := vs_status_of store vs]> m) (vsStatuses s) l;
  vp_common : commonVirtualServices s' = commonVirtualServices s ++ filter is_common l;
  vp_mixer : mixer s' = foldl Mixer.exec (mixer s) (l ≫= λ vs, res_ops store (plain_nodes vs) vs);
  vp_domains : nodeIDDomainsSet s' = nodeIDDomainsSet s ∪
                 list_to_set (l ≫= λ vs, res_keys store (plain_nodes vs) vs);
  vp_nodup : NoDup (l ≫= λ vs, res_keys store (plain_nodes vs) vs);
  vp_fresh : ∀ k, k ∈ (l ≫= λ vs, res_keys store (plain_nodes vs) vs) → k ∉ nodeIDDomainsSet s
}.

(** A service that is not placed on any node: only errors, statuses and the list of
    common services change. *)
Lemma processed_unplaced store s s' vs :
  Api.GetNodeIDs vs = [] ∨ is_common vs ∨ is_ok (build vs store) = false →
  errs s' = errs s ++ vs_errors store vs → vsStatuses s' = <[key vs := vs_status_of store vs]> (vsStatuses s) →
  commonVirtualServices s' = commonVirtualServices s ++ filter is_common [vs] →
  mixer s' = mixer s → nodeIDDomainsSet s' = nodeIDDomainsSet s → vs_processed store s s' [vs].
Proof.
  intros Hn E1 E2 E3 E4 E5.
  assert (res_keys store (plain_nodes vs) vs = [] ∧ res_ops store (plain_nodes vs) vs = []) as [Hk Ho].
  { unfold res_keys, res_ops, plain_nodes. destruct (build vs store); [|done]. rewrite decide_True; [done|].
    destruct Hn as [?|[?|?]]; [by left|by right|done]. }
  split; cbn -[filter]; rewrite ?Hk, ?Ho, ?app_nil_r; cbn -[filter]; rewrite ?E4, ?E5, ?(right_id_L ∅ (∪));
    try done; [constructor|]. by intros ? ?%not_elem_of_nil.
Qed.
Lemma processed_placed store s s' vs res ns :
  Api.GetNodeIDs vs ≠ [] → ¬ is_common vs → build vs store = Ok res → ns = Api.GetNodeIDs vs →
  vsStatuses s' = <[key vs := mkVSStatus false ""]> (vsStatuses s) → errs s' = errs s →
  commonVirtualServices s' = commonVirtualServices s → mixer s' = foldl Mixer.exec (mixer s) (ns ≫= mixer_ops res) →
  nodeIDDomainsSet s' = nodeIDDomainsSet s ∪ list_to_set (ns ≫= λ n, nodeIDDomain n <$> RDomains res) →
  NoDup (ns ≫= λ n, nodeIDDomain n <$> RDomains res) →
  (∀ k, k ∈ (ns ≫= λ n, nodeIDDomain n <$> RDomains res) → k ∉ nodeIDDomainsSet s) →
  vs_processed store s s' [vs].
Proof.
  intros Hn Hc Hb -> E1 E2 E3 E4 E5 Hnd Hfresh.
  assert (plain_nodes vs = Api.GetNodeIDs vs) as Hp by (unfold plain_nodes; rewrite decide_False by naive_solver; done).
  split; cbn -[filter]; rewrite ?app_nil_r; unfold res_keys, res_ops, vs_errors, vs_status_of; rewrite ?Hb, ?Hp; try done.
  - rewrite !decide_False by done. cbn. by rewrite app_nil_r.
  - by rewrite !decide_False by done.
  - rewrite filter_cons_False by done. cbn. by rewrite app_nil_r.
Qed.

Lemma process_vs_Go store s s' vs :
  process_vs build ctx indices store s vs = Go s' → vs_processed store s s' [vs].
Proof.
  unfold process_vs. intros Hg. apply and_then_Go in Hg as (s1 & ->%poll_Go & Hg).
  destruct (decide (Api.GetNodeIDs vs = [])) as [Hn|Hn].
  { rewrite decide_True in Hg by (by rewrite Hn). injection Hg as <-.
    apply processed_unplaced; unfold vs_errors, vs_status_of; rewrite ?decide_True by done; cbn -[filter]; try done.
    - by left.
    - by rewrite insert_insert_eq.
    - rewrite filter_cons_False; [by rewrite app_nil_r|]. unfold is_common. by rewrite Hn. }
  rewrite decide_False in Hg by (by destruct (Api.GetNodeIDs vs)).
  unfold isCommonVirtualService in Hg. destruct (decide (is_common vs)) as [Hc|Hc].
  { rewrite bool_decide_eq_true_2 in Hg by exact Hc. injection Hg as <-.
    apply processed_unplaced; unfold vs_errors, vs_status_of; rewrite ?decide_False, ?decide_True by done; cbn -[filter]; try done.
    - by right; left.
    - by rewrite app_nil_r.
    - by rewrite filter_cons_True. }
  rewrite bool_decide_eq_false_2 in Hg by exact Hc.
  apply and_then_Go in Hg as (s2 & ->%poll_Go & Hg). destruct (build vs store) as [res|e] eqn:Hb.
  - apply and_then_Go in Hg as (s3 & ->%poll_Go & Hg).
    apply (for_each_placed _ (λ n, nodeIDDomain n <$> RDomains res) (mixer_ops res)) in Hg as [];
      [|intros; by eapply place_on_node_placed].
    by apply (processed_placed store _ _ _ res (Api.GetNodeIDs vs)).
  - injection Hg as <-.
    apply processed_unplaced; unfold vs_errors, vs_status_of; rewrite ?decide_False, ?Hb by done; cbn -[filter]; try done.
    + by right; right.
    + by rewrite insert_insert_eq.
    + rewrite filter_cons_False by done. by rewrite app_nil_r.
Qed.
Lemma vs_processed_trans store s1 s2 s3 l1 l2 :
  vs_processed store s1 s2 l1 → vs_processed store s2 s3 l2 → vs_processed store s1 s3 (l1 ++ l2).
Proof.
  intros [E1 E2 E3 E4 E5 E6 E7] [F1 F2 F3 F4 F5 F6 F7].
  split; rewrite ?bind_app, ?filter_app, ?foldl_app.
  - by rewrite F1, E1, app_assoc.
  - by rewrite F2, E2.
  - by rewrite F3, E3, app_assoc.
  - by rewrite F4, E4.
  - by rewrite F5, E5, list_to_set_app_L, (assoc_L (∪)).
  - apply NoDup_app. split_and!; [done| |done]. intros k Hk1 Hk2.
    specialize (F7 k Hk2). rewrite E5 in F7. set_solver.
  - intros k [Hk|Hk]%elem_of_app; [by apply E7|]. specialize (F7 k Hk). rewrite E5 in F7. set_solver.
Qed.

Lemma process_all_Go store s s' order :
  for_each (process_vs build ctx indices store) s order = Go s' → vs_processed store s s' order.
Proof.
  revert s. induction order as [|vs order IH]; intros s Hg; cbn in Hg.
  - injection Hg as <-. split; cbn; rewrite ?app_nil_r; try done.
    + by rewrite (right_id_L ∅ (∪)).
    + constructor.
    + by intros ? ?%not_elem_of_nil.
  - apply and_then_Go in Hg as (s1 & H1%process_vs_Go & H2%IH).
    apply (vs_processed_trans _ _ _ _ _ _ H1 H2).
Qed.

(** The second loop: the common services on the nodes [N] known by then. *)
Definition common_errors (store : Store.OptimizedStore) (vs : VirtualService) : list error :=
  match build vs store with Ok _ => [] | Err e => [e] end.

Record common_processed (store : Store.OptimizedStore) (N : list string) (s s' : bstate)
    (l : list VirtualService) : Prop := {
  cp_errs : errs s' = errs s ++ (l ≫= common_errors store);
  cp_statuses : vsStatuses s' = vsStatuses s;
  cp_mixer : mixer s' = foldl Mixer.exec (mixer s) (l ≫= res_ops store N);
  cp_domains : nodeIDDomainsSet s' = nodeIDDomainsSet s ∪ list_to_set (l ≫= res_keys store N);
  cp_nodup : NoDup (l ≫= res_keys store N);
  cp_fresh : ∀ k, k ∈ (l ≫= res_keys store N) → k ∉ nodeIDDomainsSet s
}.

Lemma common_processed_trans store N s1 s2 s3 l1 l2 :
  common_processed store N s1 s2 l1 → common_processed store N s2 s3 l2 →
  common_processed store N s1 s3 (l1 ++ l2).
Proof.
  intros [E1 E2 E4 E5 E6 E7] [F1 F2 F4 F5 F6 F7].
  split; rewrite ?bind_app, ?foldl_app.
  - by rewrite F1, E1, app_assoc.
  - congruence.
  - by rewrite F4, E4.
  - by rewrite F5, E5, list_to_set_app_L, (assoc_L (∪)).
  - apply NoDup_app. split_and!; [done| |done]. intros k Hk1 Hk2.
    specialize (F7 k Hk2). rewrite E5 in F7. set_solver.
  - intros k [Hk|Hk]%elem_of_app; [by apply E7|]. specialize (F7 k Hk). rewrite E5 in F7. set_solver.
Qed.

Lemma process_common_Go store s s' vs :
  process_common build ctx ord indices store s vs = Go s' →
  common_processed store (ord (Mixer.nodeIDs (mixer s))) s s' [vs].
Proof.
  unfold process_common. intros Hg. apply and_then_Go in Hg as (s1 & ->%poll_Go & Hg).
  destruct (build vs store) as [res|e] eqn:Hb.
  - apply and_then_Go in Hg as (s3 & ->%poll_Go & Hg). cbn in Hg.
    apply (for_each_placed _ (λ n, nodeIDDomain n <$> RDomains res) (mixer_ops res)) in Hg.
    2:{ intros. by eapply place_on_node_placed. }
    destruct Hg. cbn in *.
    split; cbn; rewrite ?app_nil_r; unfold res_keys, res_ops, common_errors; rewrite ?Hb; try done.
    by rewrite app_nil_r.
  - injection Hg as <-.
    split; cbn; unfold res_keys, res_ops, common_errors; rewrite ?Hb; cbn; try done.
    + by rewrite (right_id_L ∅ (∪)).
    + constructor.
    + by intros ? ?%not_elem_of_nil.
Qed.

Lemma mixer_ops_node res n o : o ∈ mixer_ops res n → Mixer.op_node o = n.
Proof.
  unfold mixer_ops. rewrite !elem_of_app, list_elem_of_singleton, !list_elem_of_fmap.
  intros [Ho|[(? & -> & _)|[(? & -> & _)| ->]]]; [|done..].
  destruct (RRouteConfig res); [|by apply not_elem_of_nil in Ho].
  by apply list_elem_of_singleton in Ho as ->.
Qed.

Lemma process_commons_Go store s s' l :
  (∀ X, ord X ≡ₚ elements X) → Mixer.nodes_ok (mixer s) →
  for_each (process_common build ctx ord indices store) s l = Go s' →
  common_processed store (ord (Mixer.nodeIDs (mixer s))) s s' l.
Proof.
  intros Hord. revert s. induction l as [|vs l IH]; intros s Hok Hg; cbn in Hg.
  - injection Hg as <-. split; cbn; rewrite ?app_nil_r; try done.
    + by rewrite (right_id_L ∅ (∪)).
    + constructor.
    + by intros ? ?%not_elem_of_nil.
  - apply and_then_Go in Hg as (s1 & H1%process_common_Go & H2).
    assert (Mixer.nodes_ok (mixer s1) ∧ Mixer.nodeIDs (mixer s1) = Mixer.nodeIDs (mixer s)) as [Hok1 Hn1].
    { destruct H1 as [_ _ Hm _ _ _]. rewrite Hm. split; [by apply Mixer.nodes_ok_run|].
      rewrite Mixer.nodeIDs_run by done.
      assert (∀ o, o ∈ ([vs] ≫= res_ops store (ord (Mixer.nodeIDs (mixer s)))) →
        Mixer.op_node o ∈ Mixer.nodeIDs (mixer s)) as Hin; [|set_solver].
      intros o. cbn. rewrite app_nil_r. unfold res_ops.
      destruct (build vs store); [|by intros ?%not_elem_of_nil].
      rewrite list_elem_of_bind. intros (n & ->%mixer_ops_node & Hn).
      rewrite Hord in Hn. by apply elem_of_elements. }
    specialize (IH s1 Hok1 H2). rewrite Hn1 in IH.
    apply (common_processed_trans _ _ _ _ _ _ _ H1 IH).
Qed.

(** *** The whole of [build_resources] *)
Definition plain_ops (store : Store.OptimizedStore) (order : list VirtualService) : list Mixer.op :=
  order ≫= (λ vs, res_ops store (plain_nodes vs) vs).
Definition all_nodes (store : Store.OptimizedStore) (order : list VirtualService) : gset string :=
  Mixer.nodeIDs (foldl Mixer.exec Mixer.NewMixer (plain_ops store order)).
Definition all_ops (store : Store.OptimizedStore) (order : list VirtualService) : list Mixer.op :=
  plain_ops store order ++
  (filter is_common order ≫= res_ops store (ord (all_nodes store order))).
Definition all_keys (store : Store.OptimizedStore) (order : list VirtualService) : list string :=
  (order ≫= λ vs, res_keys store (plain_nodes vs) vs) ++
  (filter is_common order ≫= res_keys store (ord (all_nodes store order))).

Lemma build_resources_Go store order s :
  (∀ X, ord X ≡ₚ elements X) →
  build_resources build ctx ord indices store order = Go s →
  errs s = (order ≫= vs_errors store) ++ (filter is_common order ≫= common_errors store) ∧
  vsStatuses s = foldl (λ m vs, <[key vs := vs_status_of store vs]> m) ∅ order ∧
  mixer s = foldl Mixer.exec Mixer.NewMixer (all_ops store order) ∧
  NoDup (all_keys store order).
Proof.
  intros Hord Hg. unfold build_resources in Hg.
  apply and_then_Go in Hg as (s1 & H1%process_all_Go & Hg).
  apply and_then_Go in Hg as (s2 & H2 & ->%poll_Go).
  destruct H1 as [E1 E2 E3 E4 E5 E6 E7]. cbn in *.
  fold (plain_ops store order) in E4.
  apply process_commons_Go in H2; [|done|rewrite E4; apply Mixer.nodes_ok_run, Mixer.nodes_ok_new].
  destruct H2 as [F1 F2 F4 F5 F6 F7]. rewrite E3, E4 in *. fold (all_nodes store order) in *.
  split_and!.
  - by rewrite F1, E1.
  - by rewrite F2.
  - unfold all_ops. by rewrite foldl_app.
  - unfold all_keys. apply NoDup_app. split_and!; [done| |done]. intros k Hk1 Hk2.
    specialize (F7 k Hk2). rewrite E5 in F7. set_solver.
Qed.
End build_lemmas.

(** ** Staging and commit *)
Section commit_lemmas.
Context `{CacheAPI} `{!ProtoMessage ListenerV3}.
Context (ctx : nat → option error).
Context (ord : gset string → list string).

(** What the staging loop plans for a node: the snapshot and whether it differs
    from the current one. *)
Definition plan (sc : SnapshotCache.t) (resMap : ResMap) (nodeID : string) : option (Snapshot * bool) :=
  match SnapshotCache.GetSnapshot sc nodeID with
  | Ok prev => match updateSnapshot (Some prev) resMap with Ok p => Some p | Err _ => None end
  | Err _ => match NewSnapshot "1" resMap with Ok s => Some (s, true) | Err _ => None end
  end.

Lemma stage_node_inr sc tmp s s' n :
  stage_node ctx sc tmp s n = inr s' →
  (∃ es, serrs s' = serrs s ++ es) ∧
  (serrs s' = [] → serrs s = [] ∧ cleanup s' = cleanup s ∖ {[n]} ∧
     ∃ snap ch, plan sc (default ∅ (tmp !! n)) n = Some (snap, ch) ∧
       staged s' = if (ch : bool) then <[n := snap]> (staged s) else staged s).
Proof.
  unfold stage_node, plan. destruct (ctx (spolls s)); [done|].
  assert (∀ (es : list error) (e : error), es ++ [e] ≠ []) as Hne by (by intros [] ?).
  destruct (SnapshotCache.GetSnapshot sc n) as [prev|] eqn:Hget.
  - destruct (updateSnapshot (Some prev) (default ∅ (tmp !! n))) as [[snap ch]|e] eqn:Hup.
    + destruct ch.
      * destruct (Consistent snap); intros [= <-]; cbn; split; [by eexists|by intros ?%Hne| |].
        -- exists []. by rewrite app_nil_r.
        -- intros ->. split_and!; [done..|]. by eexists _, _.
      * intros [= <-]. cbn. split; [exists []; by rewrite app_nil_r|].
        intros ->. split_and!; [done..|]. by eexists _, _.
    + intros [= <-]. cbn. split; [by eexists|by intros ?%Hne].
  - destruct (NewSnapshot "1" (default ∅ (tmp !! n))) as [snap|e'] eqn:Hnew.
    + destruct (Consistent snap); intros [= <-]; cbn; split; [by eexists|by intros ?%Hne| |].
      * exists []. by rewrite app_nil_r.
      * intros ->. split_and!; [done..|]. by eexists _, _.
    + intros [= <-]. cbn. split; [by eexists|by intros ?%Hne].
Qed.

Lemma stage_all_errs sc tmp s s' nodes :
  stage_all ctx sc tmp s nodes = inr s' → ∃ es, serrs s' = serrs s ++ es.
Proof.
  revert s. induction nodes as [|n nodes IH]; intros s Hs; cbn in Hs.
  { injection Hs as <-. exists []. by rewrite app_nil_r. }
  destruct (stage_node ctx sc tmp s n) as [|s1] eqn:H1; [done|].
  apply stage_node_inr in H1 as [[es1 E1] _]. apply IH in Hs as [es2 ->].
  rewrite E1, <-app_assoc. by eexists.
Qed.

Lemma stage_all_inr sc tmp s s' nodes :
  NoDup nodes → stage_all ctx sc tmp s nodes = inr s' → serrs s' = [] →
  cleanup s' = cleanup s ∖ list_to_set nodes ∧
  (∀ n, n ∉ nodes → staged s' !! n = staged s !! n) ∧
  (∀ n, n ∈ nodes → ∃ snap ch, plan sc (default ∅ (tmp !! n)) n = Some (snap, ch) ∧
     staged s' !! n = if (ch : bool) then Some snap else staged s !! n).
Proof.
  revert s. induction nodes as [|n nodes IH]; intros s Hnd Hs He; cbn in Hs.
  { injection Hs as <-. split; [set_solver|]. split; [done|by intros ? ?%not_elem_of_nil]. }
  apply NoDup_cons in Hnd as [Hn Hnd].
  destruct (stage_node ctx sc tmp s n) as [|s1] eqn:H1; [done|].
  pose proof (stage_all_errs _ _ _ _ _ Hs) as [es Hes].
  assert (serrs s1 = []) as He1.
  { rewrite He in Hes. symmetry in Hes. by apply app_eq_nil in Hes as [? _]. }
  apply stage_node_inr in H1 as [_ H1]. destruct (H1 He1) as (_ & Hc1 & snap & ch & Hp & Hst).
  destruct (IH s1 Hnd Hs He) as (Hc & Hout & Hin). split_and!.
  - rewrite Hc, Hc1. set_solver.
  - intros n' [Hne Hn']%not_elem_of_cons. rewrite (Hout n' Hn'), Hst.
    destruct ch; [|done]. by rewrite lookup_insert_ne.
  - intros n' [->|Hn']%elem_of_cons.
    + exists snap, ch. split; [done|]. rewrite (Hout n Hn), Hst.
      destruct ch; [by rewrite lookup_insert_eq|done].
    + destruct (Hin n' Hn') as (snap' & ch' & Hp' & Hst'). exists snap', ch'. split; [done|].
      rewrite Hst', Hst. destruct ch'; [done|]. destruct ch; [|done].
      rewrite lookup_insert_ne; [done|]. by intros ->.
Qed.

(** The empty snapshot is always accepted. *)
Lemma validateCache_empty : SnapshotCache.validateCache EmptySnapshot = Ok tt.
Proof.
  unfold SnapshotCache.validateCache, SnapshotCache.getListenersFromSnapshot.
  by rewrite GetResources_empty, SnapshotCache.range_resources_empty.
Qed.

Lemma SetSnapshot_None c n snap c' :
  SnapshotCache.SetSnapshot c n snap = (c', None) →
  SnapshotCache.nodeIDs c' = {[n]} ∪ SnapshotCache.nodeIDs c ∧
  ∀ m, SnapshotCache.GetSnapshot c' m =
    if decide (n = m) then Ok snap else SnapshotCache.GetSnapshot c m.
Proof.
  unfold SnapshotCache.SetSnapshot. destruct (SnapshotCache.validateCache snap); [|done].
  pose proof (λ m, cache_get_set (SnapshotCache.inner c) n snap m) as Hget. cbn.
  destruct (cache_set (SnapshotCache.inner c) n snap) as [i e]. intros [= <- ->]. done.
Qed.

Lemma commit_fold snap acc nodes c' :
  foldl (commit_one snap) acc nodes = (c', []) →
  acc.2 = [] ∧
  SnapshotCache.nodeIDs c' = SnapshotCache.nodeIDs acc.1 ∪ list_to_set nodes ∧
  ∀ n, SnapshotCache.GetSnapshot c' n =
    if decide (n ∈ nodes) then Ok (snap n) else SnapshotCache.GetSnapshot acc.1 n.
Proof.
  revert acc. induction nodes as [|n nodes IH]; intros [c es] Hc; cbn [foldl] in Hc.
  { injection Hc as -> ->. split; [done|]. split; [set_solver|]. intros n.
    by rewrite decide_False by apply not_elem_of_nil. }
  destruct (IH _ Hc) as (He & Hn & Hg). unfold commit_one in He, Hn, Hg. cbn [fst snd] in *.
  destruct (SnapshotCache.SetSnapshot c n (snap n)) as [c1 err] eqn:Hset. cbn [fst snd] in *.
  apply app_eq_nil in He as [-> He]. destruct err as [e|]; [done|].
  apply SetSnapshot_None in Hset as [Hn1 Hg1]. split; [done|]. split.
  - rewrite Hn, Hn1. set_solver.
  - intros m. rewrite Hg, Hg1. destruct (decide (m ∈ nodes)) as [Hm|Hm].
    + rewrite decide_True by (by right). done.
    + destruct (decide (n = m)) as [<-|Hne].
      * rewrite decide_True by (by left). done.
      * rewrite decide_False; [done|]. intros [?|?]%elem_of_cons; congruence.
Qed.

Lemma commit_ok sc st cl c' :
  (∀ X, ord X ≡ₚ elements X) → dom st ## cl →
  commit ord sc st cl = (c', []) →
  SnapshotCache.nodeIDs c' = SnapshotCache.nodeIDs sc ∪ dom st ∪ cl ∧
  ∀ n, SnapshotCache.GetSnapshot c' n =
    match st !! n with
    | Some snap => Ok snap
    | None => if decide (n ∈ cl) then Ok EmptySnapshot else SnapshotCache.GetSnapshot sc n
    end.
Proof.
  intros Hord Hdisj Hc. unfold commit in Hc.
  assert (∀ X n, n ∈ ord X ↔ n ∈ X) as Hin.
  { intros X n. rewrite Hord. apply elem_of_elements. }
  assert (∀ X, list_to_set (ord X) = X) as Hset by (intros X; set_solver).
  destruct (foldl (commit_one _) (sc, []) (ord (dom st))) as [c1 es1] eqn:H1.
  apply commit_fold in Hc as (He & Hn & Hg). cbn [fst snd] in *. subst es1.
  apply commit_fold in H1 as (_ & Hn1 & Hg1). cbn [fst snd] in *. rewrite !Hset in *.
  split; [by rewrite Hn, Hn1|]. intros n. rewrite Hg, Hg1.
  destruct (st !! n) as [snap|] eqn:Hst.
  - assert (n ∈ dom st) by (by apply elem_of_dom_2 in Hst).
    rewrite decide_False by (rewrite Hin; set_solver). by rewrite decide_True by (by apply Hin).
  - assert (n ∉ dom st) by (by apply not_elem_of_dom).
    destruct (decide (n ∈ cl)) as [Hcl|Hcl].
    + by rewrite decide_True by (by apply Hin).
    + rewrite decide_False by (by rewrite Hin). by rewrite decide_False by (by rewrite Hin).
Qed.
End commit_lemmas.

End Updater.
