(* ===== verification/Rebuild.v ===== *)
(** * Theorems on [internal/xds/updater]

    What a rebuild of the snapshots guarantees: nothing is committed when a
    service fails, what is served after a success, stability of versions, unique
    domains per node, statuses; and what the light validation guarantees. *)

From S2P Require Import Prelude GoStrings Types Merge StringPool Api DomainSecrets ResUtils Store.
From S2P Require Import SnapshotCache Mixer Updater.
Import Envoy.

Module Rebuild.
Import Updater.

Section rebuild.
Context `{CacheAPI} `{!ProtoMessage ListenerV3}.
Context (build : VirtualService → Store.OptimizedStore → result Resources).

(** ** No partial updates *)
Section one_run.
Context (ctx : nat → option error) (ord : gset string → list string)
  (lord : Mixer.t → list Mixer.entry) (indices : bool).
Local Abbreviation run := (buildSnapshots build ctx ord lord indices).

Lemma blocks_commit sc store order vs :
  (∀ X, ord X ≡ₚ elements X) → vs ∈ order →
  (Api.GetNodeIDs vs = [] ∨ is_ok (build vs store) = false) →
  bErr (run sc store order) ≠ None ∧
  bCache (run sc store order) = sc ∧ bStore (run sc store order) = store.
Proof using Type.
  intros Hord Hvs Hfail. unfold buildSnapshots. destruct (ctx 0); [done|].
  destruct (build_resources build ctx ord indices store order) as [s|e u s] eqn:Hb; [|done].
  apply build_resources_Go in Hb as (He & _ & _ & _); [|done].
  assert (errs s ≠ []) as Hne.
  { rewrite He. destruct (decide (Api.GetNodeIDs vs = [])) as [Hn|Hn].
    - assert (vs_errors build store vs ≠ []) as Hx by (unfold vs_errors; by rewrite decide_True).
      intros [Hz _]%app_eq_nil. apply Hx. apply list_elem_of_In, in_split in Hvs as (l1 & l2 & ->).
      rewrite bind_app in Hz. apply app_eq_nil in Hz as [_ Hz]. cbn in Hz.
      by apply app_eq_nil in Hz as [? _].
    - destruct Hfail as [?|Hfail]; [done|].
      destruct (build vs store) as [|e] eqn:Hbv; [done|]. intros [Hz1 Hz2]%app_eq_nil.
      destruct (decide (is_common vs)) as [Hc|Hc].
      + assert (vs ∈ filter is_common order) as Hin by (by apply list_elem_of_filter).
        apply list_elem_of_In, in_split in Hin as (l1 & l2 & Hl). rewrite Hl, bind_app in Hz2.
        apply app_eq_nil in Hz2 as [_ Hz2]. cbn in Hz2. unfold common_errors in Hz2.
        by rewrite Hbv in Hz2.
      + apply list_elem_of_In, in_split in Hvs as (l1 & l2 & ->). rewrite bind_app in Hz1.
        apply app_eq_nil in Hz1 as [_ Hz1]. cbn in Hz1. unfold vs_errors in Hz1.
        by rewrite !decide_False, Hbv in Hz1. }
  unfold build_tail. destruct (Mixer.Mix store (mixer s) (lord (mixer s))) as [tmp|]; [|done].
  destruct (stage_all _ _ _ _ _) as [|st] eqn:Hst; [done|].
  apply stage_all_errs in Hst as [es Hes]. cbn in Hes.
  rewrite decide_True; [done|]. rewrite Hes. intros [? _]%app_eq_nil. done.
Qed.

(** ** Statuses *)
Lemma statuses_fold (f : VirtualService → VSStatus) order (m : gmap NN VSStatus) k :
  foldl (λ m vs, <[key vs := f vs]> m) m order !! k =
  match last (filter (λ vs, key vs = k) order) with
  | Some vs => Some (f vs)
  | None => m !! k
  end.
Proof using Type.
  revert m. induction order as [|vs order IH]; intros m; [done|]. cbn [foldl]. rewrite IH.
  destruct (decide (key vs = k)) as [Hk|Hk].
  - rewrite filter_cons_True, last_cons by done.
    destruct (last (filter _ order)); [done|]. by rewrite Hk, lookup_insert_eq.
  - rewrite filter_cons_False by done. destruct (last (filter _ order)); [done|].
    by rewrite lookup_insert_ne.
Qed.

Lemma filter_key_nil (l : list VirtualService) k :
  k ∉ key <$> l → filter (λ v, key v = k) l = [].
Proof using Type.
  induction l as [|y l IH]; [done|]. rewrite fmap_cons. intros [? ?]%not_elem_of_cons.
  rewrite filter_cons_False by congruence. auto.
Qed.

Lemma filter_key_unique (l : list VirtualService) :
  NoDup (key <$> l) → ∀ v, v ∈ l → filter (λ v', key v' = key v) l = [v].
Proof using Type.
  induction l as [|x l IH]; intros Hnd v; [by intros ?%not_elem_of_nil|].
  cbn in Hnd. apply NoDup_cons in Hnd as [Hx Hnd]. intros [->|Hv]%elem_of_cons.
  - rewrite filter_cons_True by done. by rewrite filter_key_nil.
  - rewrite filter_cons_False; [by apply IH|]. intros He. apply Hx. rewrite He.
    by apply list_elem_of_fmap_2.
Qed.

Lemma recorded_statuses store order s vs :
  (∀ X, ord X ≡ₚ elements X) → NoDup (key <$> order) →
  build_resources build ctx ord indices store order = Go s → vs ∈ order →
  vsStatuses s !! key vs = Some (vs_status_of build store vs) ∧
  dom (vsStatuses s) = list_to_set (key <$> order).
Proof using Type.
  intros Hord Hnd Hb Hvs. apply build_resources_Go in Hb as (_ & Hst & _ & _); [|done].
  pose proof (filter_key_unique order Hnd) as Huniq.
  split.
  - rewrite Hst, statuses_fold, Huniq by done. done.
  - rewrite Hst. apply set_eq. intros k. rewrite elem_of_dom, statuses_fold, elem_of_list_to_set,
      list_elem_of_fmap. split.
    + destruct (last (filter (λ v, key v = k) order)) as [v|] eqn:Hl; [|by rewrite lookup_empty; intros []].
      intros _. apply last_Some_elem_of, list_elem_of_filter in Hl as [Hk Hin]. by exists v.
    + intros (v & -> & Hv). rewrite Huniq by done. by eexists.
Qed.
End one_run.
(** ** Domains *)

(** The (node, domain, service) triples of a build. *)
Definition claims_of (ord : gset string → list string) (store : Store.OptimizedStore)
    (order : list VirtualService) : list (string * string * NN) :=
  let claims nodes vs := match build vs store with
    | Ok res => nodes ≫= (λ n, (λ d, (n, d, key vs)) <$> RDomains res)
    | Err _ => [] end in
  (order ≫= λ vs, claims (plain_nodes vs) vs) ++
  (filter is_common order ≫= claims (ord (all_nodes build store order))).

Lemma claims_keys ord store order :
  (λ p, nodeIDDomain p.1.1 p.1.2) <$> claims_of ord store order = all_keys build ord store order.
Proof using Type.
  unfold claims_of, all_keys. rewrite fmap_app, !Mixer.fmap_bind.
  assert (∀ nodes vs, (λ p, nodeIDDomain p.1.1 p.1.2) <$> match build vs store with
    | Ok res => nodes ≫= (λ n, (λ d, (n, d, key vs)) <$> RDomains res)
    | Err _ => [] end = res_keys build store nodes vs) as Hk.
  { intros nodes vs. unfold res_keys. destruct (build vs store) as [res|]; [|done].
    rewrite Mixer.fmap_bind. apply Mixer.bind_ext. intros n. by rewrite <-list_fmap_compose. }
  f_equal; apply Mixer.bind_ext; intros vs; apply Hk.
Qed.

Lemma unique_domains ctx ord indices store order s :
  (∀ X, ord X ≡ₚ elements X) →
  build_resources build ctx ord indices store order = Go s →
  NoDup ((λ c, (c.1.1, c.1.2)) <$> claims_of ord store order).
Proof using Type.
  intros Hord Hb. apply build_resources_Go in Hb as (_ & _ & _ & Hnd); [|done].
  rewrite <-claims_keys in Hnd.
  apply (NoDup_fmap_1 (λ p : string * string, nodeIDDomain p.1 p.2)).
  by rewrite <-list_fmap_compose.
Qed.

(** C8. No domain is served twice on a node: if the build loops complete, the
    (node, domain) pairs of all services, common services on every node
    included, are pairwise distinct; so a domain of a node belongs to one
    service, and a service lists it once. *)
Theorem domains_unique_per_node ctx ord indices store order s :
  (∀ X, ord X ≡ₚ elements X) →
  build_resources build ctx ord indices store order = Go s →
  NoDup ((λ c, (c.1.1, c.1.2)) <$> claims_of ord store order).
Proof using Type. apply unique_domains. Qed.

(** ** What is served *)
Lemma build_tail_ok ctx ord lord indices sc store s :
  (∀ X, ord X ≡ₚ elements X) →
  bErr (build_tail ctx ord lord indices sc store s) = None →
  let c' := bCache (build_tail ctx ord lord indices sc store s) in
  ∃ tmp, Mixer.Mix store (mixer s) (lord (mixer s)) = Ok tmp ∧
  (∀ n, n ∉ dom tmp → SnapshotCache.GetSnapshot c' n =
     if decide (n ∈ SnapshotCache.nodeIDs sc) then Ok EmptySnapshot else SnapshotCache.GetSnapshot sc n) ∧
  (∀ n rm, tmp !! n = Some rm → ∃ snap ch, plan sc rm n = Some (snap, ch) ∧
     SnapshotCache.GetSnapshot c' n = if (ch : bool) then Ok snap else SnapshotCache.GetSnapshot sc n) ∧
  (∀ n, n ∈ SnapshotCache.nodeIDs c' → n ∈ SnapshotCache.nodeIDs sc ∨ n ∈ dom tmp).
Proof using Type.
  intros Hord. unfold build_tail.
  destruct (Mixer.Mix store (mixer s) (lord (mixer s))) as [tmp|]; [|done].
  destruct (stage_all _ _ _ _ _) as [|st] eqn:Hst; [done|].
  case_decide as He; [done|]. assert (serrs st = []) as He' by (by destruct (serrs st)).
  destruct (ctx (spolls st)); [done|].
  destruct (commit ord sc (staged st) (cleanup st)) as [c es] eqn:Hc.
  case_decide as Hes; [done|]. assert (es = []) as -> by (by destruct es).
  intros _. cbn. exists tmp. split; [done|].
  apply stage_all_inr in Hst as (Hcl & Hout & Hin); [|rewrite Hord; apply NoDup_elements|done].
  cbn in Hcl, Hout, Hin. unfold SnapshotCache.GetNodeIDsAsMap in Hcl.
  assert (∀ n, n ∈ ord (dom tmp) ↔ n ∈ dom tmp) as Hmem.
  { intros n. rewrite Hord. apply elem_of_elements. }
  assert (cleanup st = SnapshotCache.nodeIDs sc ∖ dom tmp) as Hcl' by (rewrite Hcl; set_solver).
  assert (∀ n, n ∈ dom (staged st) → n ∈ dom tmp) as Hsub.
  { intros n Hn. destruct (decide (n ∈ dom tmp)) as [|Hn']; [done|]. exfalso.
    apply elem_of_dom in Hn as [x Hx]. rewrite Hout in Hx; [by rewrite lookup_empty in Hx|].
    by rewrite Hmem. }
  apply commit_ok in Hc as [Hn Hg]; [|done|rewrite Hcl'; set_solver].
  split_and!.
  - intros n Hnt. rewrite Hg. rewrite Hout by (by rewrite Hmem). rewrite lookup_empty, Hcl'.
    destruct (decide (n ∈ SnapshotCache.nodeIDs sc)).
    + by rewrite decide_True by set_solver.
    + by rewrite decide_False by set_solver.
  - intros n rm Hrm. destruct (Hin n) as (snap & ch & Hp & Hs); [rewrite Hmem; by apply elem_of_dom_2 in Hrm|].
    rewrite Hrm in Hp. exists snap, ch. split; [done|]. rewrite Hg, Hs.
    destruct ch; [done|]. rewrite lookup_empty, decide_False; [done|].
    rewrite Hcl'. apply elem_of_dom_2 in Hrm. set_solver.
  - intros n. rewrite Hn, Hcl'. set_solver.
Qed.

(** The snapshot planned for a node holds the node's resources. *)
Lemma plan_resources sc rm n snap ch :
  (∀ typ rs, rm !! typ = Some rs → NoDup (GetResourceName <$> rs)) →
  plan sc rm n = Some (snap, ch) →
  ∃ cur, (if ch : bool then Ok snap else SnapshotCache.GetSnapshot sc n) = Ok cur ∧
    ∀ typ rs, rm !! typ = Some rs → GetResources cur typ = index_by_name rs.
Proof using Type.
  intros Hnd. unfold plan. destruct (SnapshotCache.GetSnapshot sc n) as [prev|] eqn:Hget.
  - destruct (updateSnapshot (Some prev) rm) as [p|] eqn:Hup; [|done]. intros [= ->].
    destruct (updateSnapshot_spec prev rm snap ch Hnd Hup) as [H1 H2].
    destruct ch; [exists snap; split; [done|]; intros; by apply H1|].
    exists prev. split; [done|]. intros typ rs Hr.
    destruct (decide (GetResources prev typ = index_by_name rs)) as [|Hne]; [done|].
    exfalso. assert (false = true); [|done]. apply H2. by exists typ, rs.
  - destruct (NewSnapshot_spec "1" rm) as (s & -> & Hs). intros [= -> <-].
    exists snap. split; [done|]. intros typ rs Hr. destruct (Hs typ) as [_ ->]. by rewrite Hr.
Qed.

Lemma buildSnapshots_ok ctx ord lord indices sc store order :
  (∀ X, ord X ≡ₚ elements X) →
  bErr (buildSnapshots build ctx ord lord indices sc store order) = None →
  ∃ s, build_resources build ctx ord indices store order = Go s ∧
    buildSnapshots build ctx ord lord indices sc store order =
      build_tail ctx ord lord indices sc store s ∧
    mixer s = foldl Mixer.exec Mixer.NewMixer (all_ops build ord store order).
Proof using Type.
  intros Hord. unfold buildSnapshots. destruct (ctx 0); [done|].
  destruct (build_resources build ctx ord indices store order) as [s|] eqn:Hb; [|done].
  intros _. exists s. split_and!; [done..|]. by apply build_resources_Go in Hb as (_ & _ & ? & _).
Qed.

Lemma index_by_name_elem r rs : r ∈ rs →
  ∃ r', index_by_name rs !! GetResourceName r = Some r' ∧ r' ∈ rs ∧ GetResourceName r' = GetResourceName r.
Proof using Type.
  intros Hr. assert (is_Some (index_by_name rs !! GetResourceName r)) as [r' Hr'].
  { apply elem_of_dom. rewrite index_by_name_dom. apply elem_of_list_to_set. by apply list_elem_of_fmap_2. }
  exists r'. split; [done|]. rewrite index_by_name_alt in Hr'. apply elem_of_list_to_map_2 in Hr'.
  rewrite elem_of_reverse, list_elem_of_fmap in Hr'. naive_solver.
Qed.
Lemma unchanged_has prevRes rs r :
  checkResourcesChanged prevRes rs = false → r ∈ rs → prevRes !! GetResourceName r = Some r.
Proof using Type.
  unfold checkResourcesChanged. case_decide; [done|]. intros Hx Hr.
  destruct (decide (prevRes !! GetResourceName r = Some r)) as [|Hne]; [done|]. exfalso.
  assert (existsb (λ newR, match prevRes !! GetResourceName newR with
    | Some val => negb (bool_decide (val = newR)) | None => true end) rs = true) as Ht; [|congruence].
  apply existsb_exists. exists r. split; [by apply list_elem_of_In|].
  destruct (prevRes !! GetResourceName r) as [v|]; [|done]. rewrite bool_decide_eq_false_2; [done|congruence].
Qed.

(** Also with repeated names, a snapshot has an entry for every resource, and what it has
    under the name is one of the resources of this rebuild. *)
Lemma plan_names sc rm n snap ch typ rs r :
  plan sc rm n = Some (snap, ch) → rm !! typ = Some rs → r ∈ rs →
  ∃ cur r', (if ch : bool then Ok snap else SnapshotCache.GetSnapshot sc n) = Ok cur ∧
    GetResources cur typ !! GetResourceName r = Some r' ∧ r' ∈ rs ∧ GetResourceName r' = GetResourceName r.
Proof using Type.
  intros Hp Hr Hin. unfold plan in Hp. destruct (SnapshotCache.GetSnapshot sc n) as [prev|] eqn:Hget.
  - cbn in Hp. injection Hp as Hp.
    pose proof (update_fold prev (map_to_list rm) (EmptySnapshot, false) typ (NoDup_fst_map_to_list rm)) as Hf.
    rewrite Hp in Hf. destruct Hf as (H1 & _ & Hch).
    apply elem_of_map_to_list in Hr as Hl. destruct (H1 rs Hl) as [Hs _]. destruct ch.
    + destruct (index_by_name_elem _ _ Hin) as (r' & ?). exists snap, r'. split; [done|]. by rewrite Hs.
    + exists prev, r. split; [done|]. symmetry in Hch. cbn in Hch.
      destruct (checkResourcesChanged (GetResources prev typ) rs) eqn:Hc.
      * exfalso. assert (existsb (λ p, checkResourcesChanged (GetResources prev p.1) p.2) (map_to_list rm) = true)
          as Hx; [|by rewrite Hx in Hch].
        apply existsb_exists. exists (typ, rs). split; [by apply list_elem_of_In|done].
      * split; [by apply (unchanged_has _ _ _ Hc)|done].
  - destruct (NewSnapshot_spec "1" rm) as (s & Hs & Hres). rewrite Hs in Hp. injection Hp as <- <-.
    destruct (index_by_name_elem _ _ Hin) as (r' & ?).
    exists s, r'. split; [done|]. destruct (Hres typ) as [_ ->]. by rewrite Hr.
Qed.

(** Whatever is added for a node is served to it under its name, or else something of the
    same name that this rebuild added. *)
Lemma served_name ctx ord lord indices sc store order n typ r :
  let b := buildSnapshots build ctx ord lord indices sc store order in
  (∀ X, ord X ≡ₚ elements X) → bErr b = None →
  Mixer.OAdd n typ r ∈ all_ops build ord store order → typ ≠ ListenerType →
  ∃ snap r', SnapshotCache.GetSnapshot (bCache b) n = Ok snap ∧
    GetResources snap typ !! GetResourceName r = Some r' ∧ GetResourceName r' = GetResourceName r ∧
    Mixer.OAdd n typ r' ∈ all_ops build ord store order.
Proof using Type.
  intros b Hord Herr Hop Htyp. subst b.
  destruct (buildSnapshots_ok _ _ _ _ _ _ _ Hord Herr) as (s & _ & Hb & Hm). rewrite Hb in Herr |- *.
  destruct (build_tail_ok _ _ _ _ _ _ _ Hord Herr) as (tmp & Hmix & _ & Hin & _).
  pose proof (Mixer.elem_of_added (all_ops build ord store order) n typ) as Hadded.
  apply Hadded in Hop. rewrite <-Mixer.res_of_run, <-Hm in Hop. unfold Mixer.res_of in Hop.
  destruct (Mixer.data (mixer s) !! n) as [rs|] eqn:Hd; [|by apply not_elem_of_nil in Hop].
  assert (∃ rm, tmp !! n = Some rm ∧ rm !! typ = Some (Mixer.sortResources (default [] (rs !! typ))))
    as (rm & Hrm & Ht).
  { rewrite (Mixer.Mix_lookup _ _ _ _ n Hmix). unfold Mixer.node_resources. rewrite Hd. cbn.
    eexists. split; [done|]. rewrite lookup_fmap. unfold Mixer.mix3. destruct typ; [done|by simplify_map_eq..]. }
  destruct (Hin n rm Hrm) as (snap & ch & Hp & Hg).
  destruct (plan_names sc rm n snap ch typ _ r Hp Ht) as (cur & r' & Hcur & Hl & Hr' & Hnm).
  { unfold Mixer.sortResources. by rewrite sort_by_key_perm. }
  exists cur, r'. rewrite Hg. split_and!; [done..|]. unfold Mixer.sortResources in Hr'. rewrite sort_by_key_perm in Hr'.
  apply Hadded. rewrite <-Mixer.res_of_run, <-Hm. unfold Mixer.res_of. by rewrite Hd.
Qed.

(** The listeners of a node: under the name of a listener it is served that listener with
    all filter chains added for it, if no other listener of the node has the same name. *)
Lemma served_listener ctx ord lord indices sc store order n nn fcs :
  let b := buildSnapshots build ctx ord lord indices sc store order in
  let ops := all_ops build ord store order in
  (∀ X, ord X ≡ₚ elements X) → (∀ m, lord m ≡ₚ Mixer.listener_entries m) → bErr b = None →
  Mixer.OParams nn fcs n ∈ ops →
  ∃ snap, SnapshotCache.GetSnapshot (bCache b) n = Ok snap ∧
    ((∀ nn' fcs', Mixer.OParams nn' fcs' n ∈ ops → Helpers.String nn' = Helpers.String nn → nn' = nn) →
     ∃ l, GetResources snap ListenerType !! Helpers.String nn = Some (ResListener l) ∧
       ∀ fc, fc ∈ fcs → fc ∈ lFilterChains l).
Proof using Type.
  intros b ops Hord Hlord Herr Hop. subst b.
  destruct (buildSnapshots_ok _ _ _ _ _ _ _ Hord Herr) as (s & _ & Hb & Hm). fold ops in Hm. rewrite Hb in Herr |- *.
  destruct (build_tail_ok _ _ _ _ _ _ _ Hord Herr) as (tmp & Hmix & _ & Hin & _).
  rewrite Hm in Hmix. destruct (Mixer.Mix_listeners store ops _ tmp n nn fcs (Hlord _) Hmix Hop)
    as (rm & rs & l0 & Hrm & Ht & Hl0 & Hname & Hall).
  destruct (Hin n rm Hrm) as (snap & ch & Hp & Hg).
  destruct (plan_names sc rm n snap ch _ _ _ Hp Ht Hl0) as (cur & r' & Hcur & Hl & Hr' & Hnm).
  exists cur. rewrite Hg. split; [done|]. intros Huniq. cbn in Hl, Hnm. rewrite Hname in Hl, Hnm.
  destruct (Hall r' Hr') as (nn' & fcs' & l & -> & Hop' & Hln & Hch). cbn in Hnm. rewrite Hln in Hnm.
  assert (nn' = nn) as -> by (by eapply Huniq).
  exists l. split; [exact Hl|]. intros fc Hfc. exact (Hch fcs fc Hop Hfc).
Qed.


(** ** Stability *)
Lemma all_ops_perm ord1 ord2 store1 store2 order1 order2 :
  (∀ X, ord1 X ≡ₚ elements X) → (∀ X, ord2 X ≡ₚ elements X) → order1 ≡ₚ order2 →
  (∀ vs, vs ∈ order1 → build vs store2 = build vs store1) →
  all_ops build ord1 store1 order1 ≡ₚ all_ops build ord2 store2 order2.
Proof using Type.
  intros H1 H2 Hp Hb.
  assert (∀ vs nodes, vs ∈ order1 → res_ops build store2 nodes vs = res_ops build store1 nodes vs) as Hres.
  { intros vs nodes Hvs. unfold res_ops. by rewrite Hb. }
  assert (plain_ops build store1 order1 ≡ₚ plain_ops build store2 order2) as Hplain.
  { unfold plain_ops. rewrite <-Hp. apply Mixer.bind_perm_in. intros vs Hvs. by rewrite Hres. }
  assert (all_nodes build store1 order1 = all_nodes build store2 order2) as Hnodes.
  { unfold all_nodes. rewrite !Mixer.nodeIDs_run by apply Mixer.nodes_ok_new. by rewrite Hplain. }
  unfold all_ops. rewrite Hplain. apply Permutation_app_head.
  rewrite <-Hnodes, <-Hp. apply Mixer.bind_perm_in. intros vs [_ Hvs]%list_elem_of_filter.
  rewrite Hres by done. unfold res_ops. destruct (build vs store1); [|done].
  by rewrite (H1 (all_nodes build store1 order1)), <-(H2 (all_nodes build store1 order1)).
Qed.
Lemma Mix_store_ext store1 store2 m order :
  (∀ nn, Store.GetListener store2 nn = Store.GetListener store1 nn) →
  Mixer.Mix store2 m order = Mixer.Mix store1 m order.
Proof using Type.
  intros Hl. unfold Mixer.Mix.
  assert (∀ r, fold_result (Mixer.mix_listener store2) r order =
    fold_result (Mixer.mix_listener store1) r order) as ->; [|done].
  induction order as [|e order IH]; intros r; [done|]. cbn [fold_result].
  assert (Mixer.mix_listener store2 r e = Mixer.mix_listener store1 r e) as ->.
  { unfold Mixer.mix_listener, Mixer.build_listener. destruct e as [[nn n] fcs]. by rewrite Hl. }
  destruct (Mixer.mix_listener store1 r e); cbn; [apply IH|done].
Qed.

Lemma stable_rebuild ctx1 ord1 lord1 ind1 ctx2 ord2 lord2 ind2 sc store1 store2 order1 order2 :
  let b1 := buildSnapshots build ctx1 ord1 lord1 ind1 sc store1 order1 in
  let b2 := buildSnapshots build ctx2 ord2 lord2 ind2 (bCache b1) store2 order2 in
  (∀ X, ord1 X ≡ₚ elements X) → (∀ X, ord2 X ≡ₚ elements X) →
  (∀ m, lord1 m ≡ₚ Mixer.listener_entries m) → (∀ m, lord2 m ≡ₚ Mixer.listener_entries m) →
  order1 ≡ₚ order2 → (∀ vs, vs ∈ order1 → build vs store2 = build vs store1) →
  (∀ nn, Store.GetListener store2 nn = Store.GetListener store1 nn) →
  Mixer.names_distinct (all_ops build ord1 store1 order1) →
  bErr b1 = None → bErr b2 = None →
  ∀ n, SnapshotCache.GetSnapshot (bCache b2) n = SnapshotCache.GetSnapshot (bCache b1) n.
Proof using Type.
  intros b1 b2 Ho1 Ho2 Hl1 Hl2 Hp Hbuild Hlist Hnames He1 He2 n.
  destruct (buildSnapshots_ok _ _ _ _ _ _ _ Ho1 He1) as (s1 & _ & Hb1 & Hm1).
  destruct (buildSnapshots_ok _ _ _ _ _ _ _ Ho2 He2) as (s2 & _ & Hb2 & Hm2).
  fold b1 in Hb1. fold b2 in Hb2. rewrite Hb1 in He1. rewrite Hb2 in He2.
  destruct (build_tail_ok _ _ _ _ _ _ _ Ho1 He1) as (tmp & Hmix1 & Hout1 & Hin1 & Hn1).
  destruct (build_tail_ok _ _ _ _ _ _ _ Ho2 He2) as (tmp2 & Hmix2 & Hout2 & Hin2 & _).
  rewrite Hm1 in Hmix1. rewrite Hm2, (Mix_store_ext store1 store2) in Hmix2 by done.
  pose proof (all_ops_perm ord1 ord2 store1 store2 order1 order2 Ho1 Ho2 Hp Hbuild) as Hops.
  assert (tmp2 = tmp) as ->.
  { pose proof (Mixer.Mix_perm store1 _ _ _ _ _ Hops Hnames (Hl1 _) (Hl2 _) Hmix1). congruence. }
  rewrite <-Hb1 in Hout1, Hin1, Hn1. rewrite <-Hb2 in Hout2, Hin2.
  destruct (tmp !! n) as [rm|] eqn:Hrm.
  - destruct (Hin1 n rm Hrm) as (snap1 & ch1 & Hp1 & Hg1).
    destruct (Hin2 n rm Hrm) as (snap2 & ch2 & Hp2 & Hg2).
    assert (∀ typ rs, rm !! typ = Some rs → NoDup (GetResourceName <$> rs)) as Hnd.
    { intros typ rs Hr. by apply (Mixer.Mix_names store1 _ _ tmp n rm typ rs Hnames (Hl1 _) Hmix1). }
    destruct (plan_resources _ _ _ _ _ Hnd Hp1) as (cur & Hcur & Hres).
    rewrite Hcur in Hg1. unfold plan in Hp2. rewrite Hg1 in Hp2.
    destruct (updateSnapshot (Some cur) rm) as [p|] eqn:Hup; [|done]. injection Hp2 as ->.
    destruct (updateSnapshot_spec cur rm snap2 ch2 Hnd Hup) as [_ Hch].
    destruct ch2; [|done]. exfalso. destruct (proj1 Hch eq_refl) as (typ & rs & Hr & Hne).
    by apply Hne, Hres.
  - apply not_elem_of_dom in Hrm. rewrite (Hout2 n Hrm), (Hout1 n Hrm).
    destruct (decide (n ∈ SnapshotCache.nodeIDs (bCache b1))) as [Hn|Hn]; [|done].
    apply Hn1 in Hn as [Hn|Hn]; [|done]. by rewrite decide_True.
Qed.


(** ** Duplicate names *)

(** When a resource is listed twice for a node, the comparison reports a
    change even against the snapshot built from the same list: the version of the
    type is incremented by every rebuild. *)
Theorem duplicates_always_change rs :
  ¬ NoDup (GetResourceName <$> rs) → checkResourcesChanged (index_by_name rs) rs = true.
Proof using Type.
  intros Hd. apply not_false_iff_true. rewrite checkResourcesChanged_false. intros [Hs _].
  by apply Hd, index_by_name_size.
Qed.

(** When a resource is listed twice in place of a removed one, the comparison
    reports no change: the removed resource stays in the snapshot. *)
Theorem duplicate_hides_removal a b :
  GetResourceName a ≠ GetResourceName b →
  checkResourcesChanged (index_by_name [a; b]) [a; a] = false ∧
  index_by_name [a; a] ≠ index_by_name [a; b].
Proof using Type.
  intros Hne.
  assert (index_by_name [a; b] = <[GetResourceName b := b]> {[GetResourceName a := a]}) as Hab by done.
  split.
  - apply checkResourcesChanged_false. rewrite Hab. split.
    + rewrite map_size_insert_None; [by rewrite map_size_singleton|]. by apply lookup_singleton_ne.
    + intros r Hr. assert (r = a) as -> by (repeat (apply elem_of_cons in Hr as [->|Hr]; [done|]);
        by apply not_elem_of_nil in Hr).
      rewrite lookup_insert_ne by done. apply lookup_singleton_eq.
  - intros He. assert (GetResourceName b ∈ dom (index_by_name [a; a])) as Hd.
    { rewrite He, index_by_name_dom. set_solver. }
    rewrite index_by_name_dom in Hd. set_solver.
Qed.

(** Versions count: for a previous snapshot whose version of a type is the
    decimal [k] (or unset, counting as 0), the next snapshot has version [k] if
    the resources of the type are the same and [k + 1] otherwise, below the
    overflow of [int]. *)
Theorem updateSnapshot_version_counts prev resources snap hasChanges typ rs k :
  (∀ typ rs, resources !! typ = Some rs → NoDup (GetResourceName <$> rs)) →
  updateSnapshot (Some prev) resources = Ok (snap, hasChanges) →
  resources !! typ = Some rs → (0 ≤ k < 2 ^ 63 - 1)%Z →
  (GetVersion prev typ = GoStrings.Itoa k ∨ GetVersion prev typ = "" ∧ k = 0%Z) →
  GetResources snap typ = index_by_name rs ∧
  GetVersion snap typ =
    GoStrings.Itoa (if decide (GetResources prev typ = index_by_name rs) then k else (k + 1)%Z).
Proof using Type.
  intros Hnd Hup Hr Hk Hv.
  destruct (updateSnapshot_spec prev resources snap hasChanges Hnd Hup) as [H1 _].
  destruct (H1 typ rs Hr) as (Hres & Hsame & Hdiff). split; [done|].
  assert (prev_version prev typ = GoStrings.Itoa k) as Hpv.
  { unfold prev_version. destruct Hv as [->|[-> ->]]; [|done]. rewrite decide_False; [done|].
    intros He. pose proof (GoStrings.Atoi_Itoa k ltac:(lia)) as Ha. rewrite He in Ha.
    cbn in Ha. subst k. done. }
  case_decide as Hd.
  - by rewrite Hsame.
  - rewrite Hdiff by done. rewrite Hpv. by apply next_version_Itoa.
Qed.
End rebuild.
(** ** Applying objects *)
Section apply.
Context `{CacheAPI} `{!ProtoMessage ListenerV3} `{!ProtoMessage ClusterV3} `{JsonLib : !Api.JsonLib}.
Context (build : VirtualService → Store.OptimizedStore → result Resources).

(** The parts of the store a rebuild writes. *)
Lemma apply_statuses_frame st m :
  Store.virtualServices (apply_statuses st m) = Store.virtualServices st ∧
  Store.listeners (apply_statuses st m) = Store.listeners st ∧
  Store.stringPool (apply_statuses st m) = Store.stringPool st.
Proof.
  unfold apply_statuses. apply (map_fold_weak_ind (λ s _,
    Store.virtualServices s = Store.virtualServices st ∧ Store.listeners s = Store.listeners st ∧
    Store.stringPool s = Store.stringPool st)); [done|]. by intros ????? (? & ? & ?).
Qed.

Lemma bStore_frame ctx ord lord indices sc st order :
  let b := buildSnapshots build ctx ord lord indices sc st order in
  Store.virtualServices (bStore b) = Store.virtualServices st ∧
  Store.listeners (bStore b) = Store.listeners st ∧
  Store.stringPool (bStore b) = Store.stringPool st.
Proof.
  unfold buildSnapshots, build_tail. cbn. destruct (ctx 0); [done|].
  destruct (build_resources build ctx ord indices st order); [|done].
  destruct (Mixer.Mix _ _ _); [|done]. destruct (stage_all _ _ _ _ _) as [|s']; [done|].
  case_decide; [done|]. destruct (ctx (spolls s')); [done|].
  destruct (commit _ _ _ _) as [c es]. case_decide; [done|]. by destruct indices.
Qed.

Lemma rebuild_frame r c :
  let st := store (rebuildSnapshots build r c).1 in
  Store.virtualServices st = Store.virtualServices (store c) ∧
  Store.listeners st = Store.listeners (store c) ∧
  Store.stringPool st = Store.stringPool (store c).
Proof.
  unfold rebuildSnapshots, build_with.
  destruct (bStore_frame (r_ctx r) (r_ord r) (r_lord r) (getValidationIndicesEnabled (r_env r))
    (snapshotCache c) (store c) (r_vs r (store c))) as (E1 & E2 & E3).
  destruct (bErr _); cbn;
    destruct (apply_statuses_frame (bStore (buildSnapshots build (r_ctx r) (r_ord r) (r_lord r)
      (getValidationIndicesEnabled (r_env r)) (snapshotCache c) (store c) (r_vs r (store c))))
      (bStatuses (buildSnapshots build (r_ctx r) (r_ord r) (r_lord r)
      (getValidationIndicesEnabled (r_env r)) (snapshotCache c) (store c) (r_vs r (store c)))))
      as (-> & -> & ->); done.
Qed.

(** Applying statuses changes nothing else. *)
Lemma apply_statuses_alt st m :
  apply_statuses st m = Store.set_vsStatusStorage (m ∪ Store.vsStatusStorage st) st.
Proof.
  unfold apply_statuses. apply (map_fold_weak_ind (λ s m, s = Store.set_vsStatusStorage (m ∪ Store.vsStatusStorage st) st)).
  - rewrite (left_id_L ∅ (∪)). by destruct st.
  - intros nn x m' s Hn ->. unfold Store.SetVirtualServiceStatus, Status.SetStatus. destruct x, st. cbn.
    unfold Store.set_vsStatusStorage. cbn. by rewrite insert_union_l.
Qed.


(** The error at the end of a chain of wrapped errors. *)
Inductive innermost : error → error → Prop :=
| innermost_here e : go_Unwrap e = None → innermost e e
| innermost_wrapped e i r : go_Unwrap e = Some i → innermost i r → innermost e r.
Lemma getRootCause_innermost e : innermost e (getRootCause e).
Proof. induction e as [|p i IH| |]; [by constructor|by eapply innermost_wrapped|by constructor..]. Qed.

Lemma statuses_in_store r c s :
  (∀ X, r_ord r X ≡ₚ elements X) → NoDup (key <$> r_vs r (store c)) → r_ctx r 0 = None →
  build_resources build (r_ctx r) (r_ord r) (getValidationIndicesEnabled (r_env r)) (store c) (r_vs r (store c)) = Go s →
  let st := store (rebuildSnapshots build r c).1 in
  (∀ vs, vs ∈ r_vs r (store c) → Store.GetVirtualServiceStatus st (key vs) = vs_status_of build (store c) vs) ∧
  (∀ nn, nn ∉ key <$> r_vs r (store c) → Store.GetVirtualServiceStatus st nn = Store.GetVirtualServiceStatus (store c) nn).
Proof.
  intros Hord Hnd Hctx Hgo.
  assert (bStatuses (build_with build r (snapshotCache c) (store c)) = vsStatuses s ∧
    Store.vsStatusStorage (bStore (build_with build r (snapshotCache c) (store c))) = Store.vsStatusStorage (store c)) as [Hst Hss].
  { unfold build_with, buildSnapshots. rewrite Hctx, Hgo. unfold build_tail.
    destruct (Mixer.Mix _ _ _); [|done]. destruct (stage_all _ _ _ _ _) as [|s']; [done|].
    case_decide; [done|]. destruct (r_ctx r (spolls s')); [done|].
    destruct (commit _ _ _ _) as [c' es]. case_decide; [done|]. split; [done|]. by destruct (getValidationIndicesEnabled _). }
  assert (Store.vsStatusStorage (store (rebuildSnapshots build r c).1) = vsStatuses s ∪ Store.vsStatusStorage (store c)) as Heq.
  { unfold rebuildSnapshots. destruct (bErr _); cbn; rewrite apply_statuses_alt, Hst; cbn; by rewrite Hss. }
  cbn. unfold Store.GetVirtualServiceStatus, Status.GetStatus, map_get_default. rewrite Heq. split.
  - intros vs Hvs. destruct (recorded_statuses build _ _ _ _ _ _ _ Hord Hnd Hgo Hvs) as [Hl _].
    by rewrite (lookup_union_Some_l _ _ _ _ Hl).
  - intros nn Hnn. destruct (vsStatuses s !! nn) eqn:Hl; [|by rewrite lookup_union_r].
    exfalso. apply elem_of_dom_2 in Hl. apply Hnn.
    pose proof (build_resources_Go build _ _ _ _ _ _ Hord Hgo) as (_ & Hfold & _ & _).
    rewrite Hfold in Hl. apply elem_of_dom in Hl. rewrite statuses_fold in Hl. apply list_elem_of_fmap.
    destruct (last (filter (λ v, key v = nn) (r_vs r (store c)))) as [x|] eqn:Hx; [|by rewrite lookup_empty in Hl; destruct Hl].
    apply last_Some_elem_of, list_elem_of_filter in Hx as [Hk Hin]. by exists x.
Qed.

(** C28. The statuses in the store after a rebuild whose loops over the services were completed,
    also if it failed later: a service that is not for all nodes is
    valid exactly when it names a node and its resources could be built; otherwise the message is that the node IDs
    are missing or, unwrapped, the error of the build.  A name that no service has
    keeps its status. *)
Theorem statuses_after_build r c s :
  (∀ X, r_ord r X ≡ₚ elements X) → NoDup (key <$> r_vs r (store c)) → r_ctx r 0 = None →
  build_resources build (r_ctx r) (r_ord r) (getValidationIndicesEnabled (r_env r)) (store c) (r_vs r (store c)) = Go s →
  let status nn := Store.GetVirtualServiceStatus (store (rebuildSnapshots build r c).1) nn in
  (∀ vs, vs ∈ r_vs r (store c) → Api.GetNodeIDs vs ≠ ["*"] →
     (Status.Invalid (status (key vs)) = false ↔ Api.GetNodeIDs vs ≠ [] ∧ ∃ res, build vs (store c) = Ok res) ∧
     (Api.GetNodeIDs vs = [] → Status.Message (status (key vs)) =
        "virtual service " +:+ Namespace (meta vs) +:+ "/" +:+ Name (meta vs) +:+ " has no node IDs") ∧
     (∀ e, Api.GetNodeIDs vs ≠ [] → build vs (store c) = Err e →
        ∃ root, innermost e root ∧ Status.Message (status (key vs)) = go_Error root)) ∧
  (∀ nn, nn ∉ key <$> r_vs r (store c) → status nn = Store.GetVirtualServiceStatus (store c) nn).
Proof.
  intros Hord Hnd Hctx Hgo. destruct (statuses_in_store r c s Hord Hnd Hctx Hgo) as [Hst Hold]. cbn in *.
  split; [|done]. intros vs Hvs Hnc. rewrite (Hst vs Hvs).
  unfold vs_status_of. case_decide as Hn; [split_and!; [naive_solver|done..]|].
  rewrite decide_False by done. destruct (build vs (store c)) as [res|e] eqn:Hb; cbn.
  - split_and!; [|done..]. split; [|done]. intros _. split; [done|]. by exists res.
  - split_and!; [naive_solver|done|]. intros e' _ [= <-]. eexists. split; [apply getRootCause_innermost|done].
Qed.

(** A service for all nodes is recorded as valid even when it cannot be built. *)
Theorem common_service_stays_valid r c s vs :
  (∀ X, r_ord r X ≡ₚ elements X) → NoDup (key <$> r_vs r (store c)) → r_ctx r 0 = None →
  build_resources build (r_ctx r) (r_ord r) (getValidationIndicesEnabled (r_env r)) (store c) (r_vs r (store c)) = Go s →
  vs ∈ r_vs r (store c) → Api.GetNodeIDs vs = ["*"] →
  Store.GetVirtualServiceStatus (store (rebuildSnapshots build r c).1) (key vs) = mkVSStatus false "".
Proof.
  intros Hord Hnd Hctx Hgo Hvs Hc. destruct (statuses_in_store r c s Hord Hnd Hctx Hgo) as [Hst _]. cbn in Hst.
  rewrite (Hst vs Hvs). unfold vs_status_of, is_common. by rewrite decide_False, decide_True by congruence.
Qed.

(** An object is equal to itself whenever its specification can be encoded. *)
Lemma VS_IsEqual_refl vs x :
  Api.json_Marshal (Common (vs_spec vs)) = Ok x → Api.VS_IsEqual (Some vs) (Some vs) = true.
Proof.
  intros Hx. unfold Api.VS_IsEqual. rewrite !decide_False by (by intros ?).
  unfold Api.Common_IsEqual. rewrite Hx, bool_decide_eq_true_2 by done. cbn [negb].
  apply forallb_forall. intros [k v] Hin%list_elem_of_In%elem_of_map_to_list.
  by apply bool_decide_eq_true_2.
Qed.

Lemma VS_NormalizeSpec_idem vs : Api.VS_NormalizeSpec (Api.VS_NormalizeSpec vs) = Api.VS_NormalizeSpec vs.
Proof.
  unfold Api.VS_NormalizeSpec, Api.set_refs. cbn. by rewrite !Api.default_ref_ns_opt_idem.
Qed.

(** Storing a normalised service and rebuilding: the service is found again. *)
Lemma set_then_rebuild_get r c vs :
  StringPool.pool_ok (Store.stringPool (store c)) →
  Store.GetVirtualService
    (store (rebuildSnapshots build r (with_store c (Store.SetVirtualService (store c) vs))).1)
    (key vs) = Some vs.
Proof.
  intros Hp. unfold Store.GetVirtualService.
  destruct (rebuild_frame r (with_store c (Store.SetVirtualService (store c) vs))) as (-> & _ & _).
  cbn. unfold Store.SetVirtualService.
  destruct (Store.intern_obj_ok (Store.stringPool (store c)) vs Hp) as (sp & -> & _). cbn.
  apply lookup_insert_eq.
Qed.

(** Reconciling an unchanged service does nothing: applying a virtual service
    (whose specification can be encoded) that was just applied leaves the whole
    updater as it is, store, cache and statuses, whatever the second call's
    context and iteration orders, and whether or not the store knew an older
    version of the service before the first call. *)
Theorem apply_unchanged_is_noop r1 r2 c vs x :
  StringPool.pool_ok (Store.stringPool (store c)) →
  Api.json_Marshal (Common (vs_spec (Api.VS_NormalizeSpec vs))) = Ok x →
  let c1 := ApplyVirtualService build r1 c vs in
  ApplyVirtualService build r2 c1 vs = c1.
Proof.
  intros Hp Hx. unfold ApplyVirtualService, apply_obj. cbv zeta.
  set (nvs := Api.VS_NormalizeSpec vs) in *.
  pose proof (set_then_rebuild_get r1 c nvs Hp) as Hget.
  destruct (Store.GetVirtualService (store c) (key nvs)) as [prev|] eqn:Hc.
  - destruct (Api.VS_IsEqual (Some prev) (Some nvs)) eqn:He; [by rewrite Hc, He|].
    rewrite Hget. by rewrite (VS_IsEqual_refl nvs x).
  - rewrite Hget. by rewrite (VS_IsEqual_refl nvs x).
Qed.

(** [secretsEqual] ignores the domains annotation when neither secret has
    data: a change of the domains of such a secret is dropped, and the domain
    index keeps the old domains. *)
Theorem secretsEqual_ignores_domains_without_data pem x509 r c old new :
  s_data old = None → s_data new = None → key old = key new →
  Store.GetSecret (store c) (key new) = Some old →
  ApplySecret pem x509 build r c new = c.
Proof.
  intros Ho Hn Hk Hget. unfold ApplySecret, apply_obj. rewrite Hget. cbn.
  unfold secretsEqual. by rewrite Ho, Hn.
Qed.

(** ** Light validation *)
Lemma GetNodeIDs_NoDup vs : NoDup (Api.GetNodeIDs vs).
Proof.
  unfold Api.GetNodeIDs. case_decide; [constructor|]. apply Api.dedup_entries_spec.
Qed.

Lemma validateDomainsWithinVS_loop_spec seen ds :
  validateDomainsWithinVS_loop seen ds = Ok tt ↔ NoDup ds ∧ ∀ d, d ∈ ds → d ∉ seen.
Proof.
  revert seen. induction ds as [|d ds IH]; intros seen; cbn.
  { split; [|done]. split; [constructor|by intros ? ?%not_elem_of_nil]. }
  rewrite NoDup_cons. case_decide as Hd; [|rewrite IH; set_solver].
  split; [done|]. intros [_ Hn]. exfalso. by apply (Hn d); [left|].
Qed.

Lemma existing_from_cache_spec ctx sc n missing acc nodes m ex :
  NoDup nodes →
  existing_from_cache ctx sc n missing acc nodes = Ok (m, ex) →
  (missing ≤ m) ∧ (m = missing → ∀ x, x ∈ nodes → ∃ rcs,
     SnapshotCache.GetRouteConfigurations sc x = Ok rcs ∧ ex !! x = Some (snapshot_domains rcs)) ∧
  (∀ x, x ∉ nodes → ex !! x = acc !! x).
Proof.
  revert n missing acc. induction nodes as [|x nodes IH]; intros n missing acc Hnd He; cbn in He.
  { injection He as -> ->. split_and!; [lia| |done]. by intros _ ? ?%not_elem_of_nil. }
  apply NoDup_cons in Hnd as [Hx Hnd].
  destruct (ctx n); [done|].
  destruct (SnapshotCache.GetRouteConfigurations sc x) as [rcs|] eqn:Hrc.
  - destruct (IH _ _ _ Hnd He) as (Hm & Hin & Hout). split_and!; [lia| |].
    + intros -> y [->|Hy]%elem_of_cons; [|by apply Hin]. exists rcs. split; [done|].
      rewrite (Hout x Hx). apply lookup_insert_eq.
    + intros y [Hne Hy]%not_elem_of_cons. rewrite (Hout y Hy). by apply lookup_insert_ne.
  - destruct (IH _ _ _ Hnd He) as (Hm & Hin & Hout). split_and!; [lia| |].
    + intros ->. lia.
    + intros y [Hne Hy]%not_elem_of_cons. apply (Hout y Hy).
Qed.

Lemma checkDomainCollisions_spec ds nodes ex :
  checkDomainCollisions ds nodes ex = Ok tt ↔
  ∀ n d, n ∈ nodes → d ∈ ds → d ∉ default ∅ (ex !! n).
Proof.
  unfold checkDomainCollisions. split.
  - intros Hc n d Hn Hd. apply bind_Ok_inv in Hc as (us & Hus%map_result_Ok & _).
    apply list_elem_of_lookup in Hn as [i Hi].
    destruct (Forall2_lookup_l _ _ _ _ _ Hus Hi) as (u & _ & Hu). cbn in Hu.
    apply map_result_Ok in Hu. apply list_elem_of_lookup in Hd as [j Hj].
    destruct (Forall2_lookup_l _ _ _ _ _ Hu Hj) as ([] & _ & Hf).
    by apply Api.fail_if_Ok, bool_decide_eq_false in Hf.
  - intros Hall. assert (map_result (λ n, map_result (λ d, fail_if (bool_decide (d ∈ default ∅ (ex !! n)))
      (ErrNew ("duplicate domain '" +:+ d +:+ "' for node " +:+ n))) ds) nodes =
      Ok (replicate (length nodes) (replicate (length ds) tt))) as Hm; [|by rewrite Hm].
    apply map_result_Ok, Forall2_same_length_lookup_2; [by rewrite length_replicate|].
    intros i n us Hi [-> _]%lookup_replicate. apply list_elem_of_lookup_2 in Hi as Hn.
    apply Api.map_result_unit_Ok'. apply Forall_forall. intros d Hd.
    apply Api.fail_if_Ok, bool_decide_eq_false. by apply Hall.
Qed.

(** Whatever the light validation compares with, what it accepts can be built. *)
Lemma light_builds ctx c vs prev indices order :
  DryValidateVirtualServiceLight build ctx c vs prev indices order = Ok tt →
  ∃ res, build vs (Store.SetVirtualService (Store.Copy (store c)) vs) = Ok res ∧ NoDup (RDomains res).
Proof.
  unfold DryValidateVirtualServiceLight. destruct (ctx 0); [done|]. intros Hv.
  apply bind_Ok_inv in Hv as (res & Hb%wrap_err_Ok & Hv). exists res. split; [done|].
  apply bind_Ok_inv in Hv as ([] & Hd & _). by apply validateDomainsWithinVS_loop_spec in Hd as [? _].
Qed.

(** C19. Soundness of the light validation of a new service against the current
    snapshots, without the index of domains: if it accepts, the service could be built from the store with the service in
    it, its domains are distinct, and if it has any, then every node it is for (every node that the cache knows, for
    a service for all nodes) has a snapshot, in which no virtual host of a route configuration has
    one of these domains. *)
Theorem light_validation_sound ctx c vs order :
  DryValidateVirtualServiceLight build ctx c vs None false order = Ok tt →
  ∃ res, build vs (Store.SetVirtualService (Store.Copy (store c)) vs) = Ok res ∧ NoDup (RDomains res) ∧
  ∀ n d, (if decide (Api.GetNodeIDs vs = ["*"]) then n ∈ SnapshotCache.nodeIDs (snapshotCache c) else n ∈ Api.GetNodeIDs vs) →
    d ∈ RDomains res →
    ∃ snap, SnapshotCache.GetSnapshot (snapshotCache c) n = Ok snap ∧
      ∀ name rc vh, GetResources snap RouteType !! name = Some (ResRoute rc) → vh ∈ rcVirtualHosts rc → d ∉ vhDomains vh.
Proof.
  intros Hv. unfold DryValidateVirtualServiceLight in Hv. destruct (ctx 0); [done|].
  apply bind_Ok_inv in Hv as (res & Hb%wrap_err_Ok & Hv). exists res. split; [done|]. apply bind_Ok_inv in Hv as ([] & Hd & Hv).
  apply validateDomainsWithinVS_loop_spec in Hd as [Hnd _]. split; [done|]. intros n d Hn Hdin.
  apply bind_Ok_inv in Hv as ([] & _ & Hv). set (nodes := resolveTargetNodeIDs _ _) in Hv.
  assert (n ∈ nodes ∧ NoDup nodes) as [Hn' Hnodes].
  { unfold nodes, resolveTargetNodeIDs, isCommonVirtualService. case_decide as Hc.
    - rewrite bool_decide_eq_true_2 by done. rewrite SnapshotCache.elem_of_GetNodeIDs. split; [done|].
      unfold SnapshotCache.GetNodeIDs. rewrite range_nodes_perm. apply NoDup_elements.
    - rewrite bool_decide_eq_false_2 by done. split; [done|apply GetNodeIDs_NoDup]. }
  clear Hn. rewrite decide_False in Hv.
  2:{ intros [Hl|Hl]; [by apply nil_length_inv in Hl; rewrite Hl in Hn'; apply not_elem_of_nil in Hn'
      |by apply nil_length_inv in Hl; rewrite Hl in Hdin; apply not_elem_of_nil in Hdin]. }
  apply bind_Ok_inv in Hv as (ex & Hex & Hv). cbn in Hv.
  rewrite checkDomainCollisions_spec in Hv. unfold buildExistingDomainsMap in Hex.
  destruct (existing_from_cache ctx (snapshotCache c) 1 0 ∅ nodes) as [[m ex']|] eqn:He;
    [|done]. case_decide; [done|]. injection Hex as ->.
  apply existing_from_cache_spec in He as (_ & Hin & _); [|done].
  destruct (Hin ltac:(lia) n Hn') as (rcs & Hrcs & Hlk).
  unfold SnapshotCache.GetRouteConfigurations, SnapshotCache.resources_of in Hrcs.
  destruct (SnapshotCache.GetSnapshot (snapshotCache c) n) as [snap|]; [|done]. exists snap. split; [done|].
  cbn in Hrcs. injection Hrcs as <-. intros name rc vh Hrc Hvh Hdv. apply (Hv n d Hn' Hdin). rewrite Hlk. cbn. unfold snapshot_domains.
  apply elem_of_list_to_set, list_elem_of_bind. exists rc. split; [apply list_elem_of_bind; by exists vh|].
  apply list_elem_of_omap. exists (ResRoute rc). split; [|done]. apply list_elem_of_fmap. exists (name, ResRoute rc).
  split; [done|]. by apply SnapshotCache.elem_of_range_resources.
Qed.
End apply.

(** ** A concrete configuration: one service on a node and a common service *)
Module Examples.
#[local] Existing Instance Mixer.Examples.proto.
Definition store : Store.OptimizedStore := Mixer.Examples.store.
Definition vs (name nodes : string) (ref : option ResourceRef) : VirtualService :=
  mkVS (mkMeta name "ns" name 1 (Some {[ Api.AnnotationNodeIDs := nodes ]}) None)
    (mkVSSpec (mkCommon None ref None None [] None [] [] [] [] None None None None None None None)
       None [] ∅) (mkVSObjStatus "" false).
Definition a : VirtualService := vs "a" "n1" (Some (mkRef "l" None)).
Definition b : VirtualService := vs "b" "*" (Some (mkRef "l" None)).
Definition bad : VirtualService := vs "bad" "n1" None.
(** Every service with a listener gets one chain, one route configuration and one domain. *)
Definition build (v : VirtualService) (st : Store.OptimizedStore) : result Resources :=
  match ListenerRef (Common (vs_spec v)) with
  | None => Err (ErrWrap "BuildResources failed" (ErrNew "listener is nil"))
  | Some _ =>
      Ok (mkResources Mixer.Examples.nn [Mixer.Examples.chain (Name (meta v))]
            (Some (mkRC (Name (meta v)) [])) [] [] [] [Name (meta v) +:+ ".io"])
  end.
Definition ctx (n : nat) : option error := None.
Definition ord (X : gset string) : list string := elements X.
Definition rord (X : gset string) : list string := reverse (elements X).
Definition sc0 : SnapshotCache.t := SnapshotCache.NewSnapshotCache.
Definition b1 : built := buildSnapshots build ctx ord Mixer.listener_entries false sc0 store [a; b].
Definition b2 : built :=
  buildSnapshots build ctx rord (reverse ∘ Mixer.listener_entries) false (bCache b1) store [b; a].

Lemma ord_perm X : ord X ≡ₚ elements X.
Proof. done. Qed.
Lemma rord_perm X : rord X ≡ₚ elements X.
Proof. apply reverse_Permutation. Qed.

Definition ops : list Mixer.op :=
  [Mixer.OAdd "n1" RouteType (ResRoute (mkRC "a" [])); Mixer.OParams Mixer.Examples.nn [Mixer.Examples.chain "a"] "n1";
   Mixer.OAdd "n1" RouteType (ResRoute (mkRC "b" [])); Mixer.OParams Mixer.Examples.nn [Mixer.Examples.chain "b"] "n1"].
Lemma ops_eq : all_ops build ord store [a; b] = ops.
Proof. vm_compute. reflexivity. Qed.
Lemma run_ops_distinct : Mixer.names_distinct ops.
Proof.
  split.
  - intros node typ. unfold Mixer.added, ops. cbn.
    destruct (decide ("n1" = node ∧ RouteType = typ)); apply (bool_decide_unpack _); vm_compute; exact I.
  - intros nn' node. unfold Mixer.params, ops. cbn.
    destruct (decide (Mixer.Examples.nn = nn' ∧ "n1" = node));
      apply (bool_decide_unpack _); vm_compute; exact I.
  - intros n1 n2 node. unfold Mixer.params, ops. cbn.
    destruct (decide (Mixer.Examples.nn = n1 ∧ "n1" = node)) as [[<- _]|]; [|by intros []].
    destruct (decide (Mixer.Examples.nn = n2 ∧ "n1" = node)) as [[<- _]|]; [done|by intros _ []].
Qed.
End Examples.
#[local] Existing Instance Mixer.Examples.proto.

Lemma domains_unique_per_node_witness :
  NoDup ((λ c, (c.1.1, c.1.2)) <$>
    claims_of Examples.build Examples.ord Examples.store [Examples.a; Examples.b]) ∧
  (λ c, (c.1.1, c.1.2)) <$>
    claims_of Examples.build Examples.ord Examples.store [Examples.a; Examples.b]
  = [("n1", "a.io"); ("n1", "b.io")].
Proof.
  split; [|vm_compute; reflexivity].
  destruct (build_resources Examples.build Examples.ctx Examples.ord false Examples.store
    [Examples.a; Examples.b]) as [s|] eqn:Hs; [|vm_compute in Hs; discriminate Hs].
  apply (domains_unique_per_node Examples.build Examples.ctx Examples.ord false Examples.store
    [Examples.a; Examples.b] s Examples.ord_perm Hs).
Defined.



Definition ex_cl (n : string) : Resource := ResCluster (mkCV3 n "").

Lemma duplicates_always_change_witness :
  checkResourcesChanged (index_by_name [ex_cl "a"; ex_cl "a"]) [ex_cl "a"; ex_cl "a"] = true.
Proof.
  apply (duplicates_always_change [ex_cl "a"; ex_cl "a"]).
  apply (bool_decide_unpack _). vm_compute. exact I.
Defined.

Lemma duplicate_hides_removal_witness :
  checkResourcesChanged (index_by_name [ex_cl "a"; ex_cl "b"]) [ex_cl "a"; ex_cl "a"] = false.
Proof. apply (duplicate_hides_removal (ex_cl "a") (ex_cl "b")). discriminate. Defined.

Lemma updateSnapshot_version_counts_witness :
  ∃ snap, updateSnapshot (Some (SetResources EmptySnapshot ClusterType "7" [ex_cl "a"]))
      {[ ClusterType := [ex_cl "a"; ex_cl "b"] ]} = Ok (snap, true) ∧
    GetVersion snap ClusterType = "8".
Proof.
  eexists. split; [vm_compute; reflexivity|].
  refine (proj2 (updateSnapshot_version_counts
    (SetResources EmptySnapshot ClusterType "7" [ex_cl "a"])
    {[ ClusterType := [ex_cl "a"; ex_cl "b"] ]} _ true ClusterType [ex_cl "a"; ex_cl "b"] 7 _ _ _ _ _)).
  - intros typ rs [_ <-]%lookup_singleton_Some. apply (bool_decide_unpack _). vm_compute. exact I.
  - vm_compute. reflexivity.
  - reflexivity.
  - lia.
  - left. vm_compute. reflexivity.
Defined.

(** *** Witnesses for rebuilds, the [Apply*] methods and the light validation *)
Definition ex_json : Api.JsonLib :=
  {| Api.json_Marshal _ := Ok "{}"; Api.json_value _ := None;
     Api.json_Unmarshal _ s := Ok s; Api.template_Parse s := Ok s;
     Api.template_Execute s _ := Ok s |}.
Definition ex_cluster_pb : ProtoMessage ClusterV3 :=
  {| pb_unmarshal s := Ok (mkCV3 s ""); pb_validate _ := None |}.
#[local] Existing Instance ex_json.
#[local] Existing Instance ex_cluster_pb.
Definition ex_run : Run :=
  mkRun Examples.ctx (λ st, snd <$> map_to_list (Store.MapVirtualServices st)) Examples.ord
    Mixer.listener_entries "".
Definition ex_failing : Run :=
  mkRun Examples.ctx (λ _, [Examples.a; Examples.bad]) Examples.ord Mixer.listener_entries "".
Definition ex_served : CacheUpdater := NewCacheUpdater (bCache Examples.b1) Examples.store.


Lemma statuses_after_build_witness :
  Status.Invalid (Store.GetVirtualServiceStatus
    (store (rebuildSnapshots Examples.build ex_failing ex_served).1) (key Examples.a)) = false.
Proof.
  destruct (build_resources Examples.build Examples.ctx Examples.ord false Examples.store
         [Examples.a; Examples.bad]) as [s|] eqn:Hs; [|vm_compute in Hs; discriminate Hs].
  refine (proj2 (proj1 (proj1 (statuses_after_build Examples.build ex_failing ex_served s _ _ _ _) Examples.a _ _)) _).
  - exact Examples.ord_perm.
  - apply (bool_decide_unpack _). vm_compute. exact I.
  - reflexivity.
  - exact Hs.
  - left.
  - apply (bool_decide_unpack _). vm_compute. exact I.
  - split; [apply (bool_decide_unpack _); vm_compute; exact I|]. eexists. vm_compute. reflexivity.
Defined.

Definition ex_updater : CacheUpdater := NewCacheUpdater Examples.sc0 Examples.store.

Lemma apply_unchanged_is_noop_witness :
  let c1 := ApplyVirtualService Examples.build ex_run ex_updater Examples.a in
  is_ok (SnapshotCache.GetSnapshot (snapshotCache c1) "n1") = true ∧
  ApplyVirtualService Examples.build ex_run c1 Examples.a = c1.
Proof.
  split; [vm_compute; reflexivity|].
  apply (apply_unchanged_is_noop Examples.build ex_run ex_run ex_updater Examples.a "{}").
  - change (map_Forall (λ s r : string, r = s) (StringPool.pool (Store.stringPool (store ex_updater)))).
    apply (bool_decide_unpack _). vm_compute. exact I.
  - reflexivity.
Defined.

Definition ex_secret (doms : string) : Secret :=
  mkSecret (mkMeta "s" "ns" "us" 1 (Some {[ Api.AnnotationSecretDomains := doms ]}) None) None.
Definition ex_pem (s : string) : option (DomainSecrets.PemBlock * string) := None.
Definition ex_x509 (s : string) : result DomainSecrets.Time := Err (ErrNew "x").
Definition ex_secret_updater : CacheUpdater :=
  NewCacheUpdater Examples.sc0
    (Store.SetSecret ex_pem ex_x509 Examples.store (ex_secret "old.io")).

Lemma secretsEqual_ignores_domains_without_data_witness :
  ApplySecret ex_pem ex_x509 Examples.build ex_run ex_secret_updater (ex_secret "new.io")
  = ex_secret_updater.
Proof.
  apply (secretsEqual_ignores_domains_without_data Examples.build ex_pem ex_x509 ex_run
    ex_secret_updater (ex_secret "old.io") (ex_secret "new.io")); reflexivity.
Defined.

(** A second service on the node of [Examples.b1]. *)
Definition ex_c : VirtualService := Examples.vs "c" "n1" (Some (mkRef "l" None)).
#[local] Instance ex_listener_pb : ProtoMessage ListenerV3 :=
  {| pb_unmarshal s := Ok (mkLV3 s (Some (mkAddr (Some (mkSA "0.0.0.0" 80)))) [] [] "");
     pb_validate _ := None |}.
Definition ex_live : CacheUpdater := NewCacheUpdater (bCache Examples.b1) Examples.store.

Lemma light_validation_sound_witness :
  ∃ snap, SnapshotCache.GetSnapshot (snapshotCache ex_live) "n1" = Ok snap ∧
    ∀ name rc vh, GetResources snap RouteType !! name = Some (ResRoute rc) → vh ∈ rcVirtualHosts rc →
      "c.io" ∉ vhDomains vh.
Proof.
  destruct (light_validation_sound Examples.build Examples.ctx ex_live ex_c
    (λ st, snd <$> map_to_list (Store.MapVirtualServices st))) as (res & Hres & _ & Hrc).
  - vm_compute. reflexivity.
  - apply Hrc.
    + apply (bool_decide_unpack _). vm_compute. exact I.
    + vm_compute in Hres. injection Hres as <-. left.
Defined.

End Rebuild.
