(* ===== verification/MainBuilder.v ===== *)
(** * [internal/xds/resbuilder]: all resources of a service

    [main_builder/builder.go] composes the builders of the other files into the
    resources of one service, [builder.go] turns panics into errors and checks the
    result.  The state of a call ([World]) holds the caches of the process, the
    cache of the builder object, and the status of the service, which the builder
    may change.  What Go leaves open is an argument: the instants of the calls
    ([clk] for the caches, [clock] for the secrets) and the orders of map
    iterations ([sord] for the secrets in [BuildFilterChains], [kord] for the
    secrets in [buildResourcesFromVirtualService], [pord] for RBAC policies, [eord]
    for extra fields). *)

From S2P Require Import Prelude GoStrings Types Merge Api ResUtils StringPool DomainSecrets Store Lru.
From S2P Require Import Routes Secrets HttpFilters Clusters FilterChains SnapshotCache Mixer Updater.
From S2P Require Import Rebuild.

Module MainBuilder.
Import Envoy.

(** ** [resources.go] *)
Record Resources := mkRes {
  mListener : NN;
  mFilterChain : list FilterChain;
  mRouteConfig : option RouteConfiguration;
  mClusters : list ClusterV3;
  mSecrets : list SecretV3;
  mUsedSecrets : list NN;
  mDomains : list string
}.

Record World := mkWorld {
  wFilters : HttpFilters.Cache;
  wClusters : Clusters.Cache;
  wResources : Lru.LRUCache Resources;
  wStatus : VSObjStatus
}.

Definition with_filters {A} (f : HttpFilters.Cache → result A * HttpFilters.Cache) : stM World A :=
  λ w, let '(r, c) := f (wFilters w) in (r, mkWorld c (wClusters w) (wResources w) (wStatus w)).
Definition with_clusters {A} (f : Clusters.Cache → result A * Clusters.Cache) : stM World A :=
  λ w, let '(r, c) := f (wClusters w) in (r, mkWorld (wFilters w) c (wResources w) (wStatus w)).
Definition with_status {A} (m : stM VSObjStatus A) : stM World A :=
  λ w, let '(r, s) := m (wStatus w) in (r, mkWorld (wFilters w) (wClusters w) (wResources w) s).
Definition set_status (w : World) (s : VSObjStatus) : World :=
  mkWorld (wFilters w) (wClusters w) (wResources w) s.
Definition set_resources (w : World) (c : Lru.LRUCache Resources) : World :=
  mkWorld (wFilters w) (wClusters w) c (wStatus w).

(** ** The cache of a builder: the type [resourcesCache], 100 entries, 5 minutes.
    Its [get] and [set] are those of [lru.go] at a positive time to live. *)
Definition newResourcesCache : Lru.LRUCache Resources :=
  Lru.NewTypedLRUCache 100 (5 * 60 * 1000000000)%Z.
Definition cache_get (now : Lru.Time) (key : string) : stM World (option Resources) :=
  λ w, let '(r, c) := Lru.Get (wResources w) now key in (Ok r, set_resources w c).
Definition cache_set (now : Lru.Time) (key : string) (r : Resources) : stM World unit :=
  λ w, (Ok tt, set_resources w (Lru.Set_ (wResources w) now key r)).

(** [json.Marshal(vs.Spec)], and the text of [debug.Stack()]. *)
Class MainLib := {
  json_Marshal_VSSpec : VSSpec → result string;
  debug_Stack : string
}.

Section builder.
Context {ML : MainLib} {JL : Api.JsonLib} {SHA : Sha256} {FL : HttpFilters.FilterLib}
  {CL : Clusters.ClusterLib} {CHL : FilterChains.ChainLib}
  {P1 : ProtoMessage HttpFilterV3} {P2 : ProtoMessage HttpFilters.PolicyV3}
  {P3 : ProtoMessage VirtualHost} {P4 : ProtoMessage RouteV3} {P5 : ProtoMessage RouteConfiguration}
  {P6 : ProtoMessage ClusterV3} {P7 : ProtoMessage ListenerV3} {P8 : ProtoMessage AccessLogV3}
  {P9 : ProtoMessage TracingV3} {P10 : ProtoMessage UpgradeConfigV3} {P11 : ProtoMessage Http2OptionsV3}
  {P12 : ProtoMessage HCM} {P13 : ProtoMessage FilterChain}.
Context (clk : nat → Lru.Time) (clock : string → DomainSecrets.Time).
Context (sord kord : gmap NN (list string) → list (NN * list string)).
Context (pord : gmap string RawExtension → list (string * RawExtension)).
Context (eord : gmap string string → list string).
Context (store : Store.OptimizedStore).

Definition generateCacheKey (vs : VirtualService) : string :=
  sha256_hex (Name (meta vs) +:+ Namespace (meta vs) +:+ GoStrings.Itoa (Generation (meta vs)) +:+
    match json_Marshal_VSSpec (vs_spec vs) with Ok specData => specData | Err _ => "" end).

(** [DeepCopy] is the identity on the model's values. *)
Definition applyVirtualServiceTemplate (vs : VirtualService) : result VirtualService :=
  match Template (vs_spec vs) with
  | None => Ok vs
  | Some ref =>
      let templateNamespace := Helpers.GetNamespace (refNamespace ref) (Namespace (meta vs)) in
      match Store.GetVirtualServiceTemplate store (Helpers.mkNN templateNamespace (refName ref)) with
      | None =>
          Err (ErrNew ("virtual service template " +:+ templateNamespace +:+ "/" +:+ refName ref
                       +:+ " not found"))
      | Some vst =>
          wrap_err "failed to fill from template"
            (Api.FillFromTemplate vs vst (TemplateOptions (vs_spec vs)) (eord (ExtraFields (vs_spec vs))))
      end
  end.

Definition buildListener (listenerNN : NN) : result ListenerV3 :=
  match Store.GetListener store listenerNN with
  | None => Err (ErrNew ("listener " +:+ Helpers.String listenerNN +:+ " not found"))
  | Some listener =>
      l ← wrap_err ("failed to unmarshal listener " +:+ Helpers.String listenerNN)
            (Api.Listener_UnmarshalV3 listener);
      Ok (mkLV3 (Helpers.String listenerNN) (lAddress l) (lListenerFilters l) (lFilterChains l) (lRest l))
  end.

Definition buildResourcesFromExistingFilterChains (vs : VirtualService) (xdsListener : ListenerV3)
    (listenerNN : NN) : result Resources :=
  _ ← wrap_err "filter chain conflicts" (FilterChains.CheckFilterChainsConflicts vs);
  clusters ← wrap_err "failed to extract clusters from filter chains"
               (Clusters.ExtractClustersFromFilterChains store (lFilterChains xdsListener));
  Ok (mkRes listenerNN (lFilterChains xdsListener) None clusters [] [] []).

(** A non-empty entry of the secret's data. *)
Definition secret_data (k8sSecret : Secret) (k : string) : option string :=
  match nilmap_get (s_data k8sSecret) k with
  | Some d => if decide (d = "") then None else Some d
  | None => None
  end.
Definition buildSecret (secretName : NN) : result SecretV3 :=
  match Store.GetSecret store secretName with
  | None => Err (ErrNew ("Kubernetes secret " +:+ Helpers.String secretName +:+ " not found"))
  | Some k8sSecret =>
      match secret_data k8sSecret "tls.crt" with
      | None => Err (ErrNew ("certificate data not found in secret " +:+ Helpers.String secretName))
      | Some certData =>
          match secret_data k8sSecret "tls.key" with
          | None => Err (ErrNew ("private key data not found in secret " +:+ Helpers.String secretName))
          | Some keyData => Ok (mkSV3 (Helpers.String secretName) certData keyData)
          end
      end
  end.

(** Step 9: the secrets and their names, in the order visited. *)
Definition build_tls (vs : VirtualService) (listenerIsTLS : bool) (m : gmap NN (list string))
  : result (list SecretV3 * list NN) :=
  if listenerIsTLS && bool_decide (is_Some (TlsCfg (Common (vs_spec vs)))) && bool_decide (0 < size m) then
    let names := (kord m).*1 in
    secrets ← map_result (λ s, wrap_err ("failed to build secret " +:+ Helpers.String s) (buildSecret s)) names;
    Ok (secrets, names)
  else Ok ([], []).

Definition buildResourcesFromVirtualService (vs : VirtualService) (xdsListener : ListenerV3)
    (listenerNN nn : NN) : stM World Resources :=
  httpFilters ← wrap_st "failed to build HTTP filters"
    (with_filters (λ c, HttpFilters.BuildHTTPFilters pord store c (clk 0) vs));
  vr ← lift (wrap_err "failed to build route configuration"
               (Routes.BuildRouteConfiguration store vs xdsListener nn));
  let '(virtualHost, routeConfig) := vr in
  let listenerIsTLS := ResUtils.IsTLSListener (Some xdsListener) in
  params ← wrap_st "failed to build filter chain parameters"
    (with_status (FilterChains.BuildFilterChainParams store clock vs nn httpFilters listenerIsTLS virtualHost));
  filterChains ← lift (wrap_err "failed to build filter chains"
                         (FilterChains.BuildFilterChains sord params));
  cls1 ← lift (wrap_err "failed to extract clusters from virtual host"
                 (Clusters.FromVirtualHostRoutes store virtualHost));
  cls2 ← wrap_st "failed to extract clusters from HTTP filters"
           (with_clusters (λ c, Clusters.FromOAuth2HTTPFilters store c (clk 1) httpFilters));
  cls3 ← match TracingRaw (Common (vs_spec vs)) with
         | Some tr => wrap_st "failed to extract clusters from inline tracing"
                        (with_clusters (λ c, Clusters.FromTracingRaw store c (clk 2) (Some tr)))
         | None => mret []
         end;
  cls4 ← match TracingRef (Common (vs_spec vs)) with
         | Some _ => wrap_st "failed to extract clusters from tracing ref"
                       (with_clusters (λ c, Clusters.FromTracingRef store c (clk 3) vs))
         | None => mret []
         end;
  tls ← lift (build_tls vs listenerIsTLS (FilterChains.SecretNameToDomains params));
  mret (mkRes listenerNN filterChains (Some routeConfig) (cls1 ++ cls2 ++ cls3 ++ cls4) tls.1 tls.2
          (vhDomains virtualHost)).

(** The status of the caller's object when the service was built from a copy
    filled from a template: only a success with a message is written back. *)
Definition on_copy {A} (is_copy : bool) (m : stM World A) : stM World A :=
  λ w, match m w with
       | (Ok a, w') =>
           (Ok a, if is_copy && bool_decide (stMessage (wStatus w') = "") then set_status w' (wStatus w) else w')
       | (Err e, w') => (Err e, if is_copy then set_status w' (wStatus w) else w')
       end.

Definition build_service (vs : VirtualService) (cacheKey : string) : stM World Resources :=
  vs' ← lift (wrap_err "failed to apply template" (applyVirtualServiceTemplate vs));
  listenerNN ← lift (wrap_err "failed to get listener namespaced name" (Api.GetListenerNamespacedName vs'));
  xdsListener ← lift (wrap_err "failed to build listener" (buildListener listenerNN));
  if decide (0 < length (lFilterChains xdsListener)) then
    lift (buildResourcesFromExistingFilterChains vs' xdsListener listenerNN)
  else
    resources ← on_copy (bool_decide (is_Some (Template (vs_spec vs))))
      (wrap_st "failed to build resources from virtual service"
         (buildResourcesFromVirtualService vs' xdsListener listenerNN (key vs)));
    _ ← cache_set (clk 5) cacheKey resources;
    mret resources.

Definition BuildResources (vs : VirtualService) : stM World Resources :=
  cachedResources ← cache_get (clk 4) (generateCacheKey vs);
  match cachedResources with
  | Some r => mret r
  | None => build_service vs (generateCacheKey vs)
  end.

(** ** [builder.go] *)
Definition newline : string := String.String (Ascii.ascii_of_nat 10) "".
Definition recover_panic {A} (r : result A) : result A :=
  match r with
  | Err (ErrPanic what) =>
      Err (ErrNew ("panic in BuildResources: " +:+ what +:+ newline +:+ "stack trace:" +:+ newline +:+ debug_Stack))
  | r => r
  end.

Definition check_resources (r : Resources) : result Updater.Resources :=
  if decide (Helpers.Name (mListener r) = "") then Err (ErrNew "invalid result: Listener name is empty")
  else if decide (length (mFilterChain r) = 0) then Err (ErrNew "invalid result: FilterChain is empty")
  else Ok (Updater.mkResources (mListener r) (mFilterChain r) (mRouteConfig r) (mClusters r)
             (mSecrets r) (mUsedSecrets r) (mDomains r)).

(** The method [BuildResources] of a [ResourceBuilder]. *)
Definition ResourceBuilder_BuildResources (vs : option VirtualService) : stM World Updater.Resources :=
  match vs with
  | None => lift (Err (ErrNew "virtual service cannot be nil"))
  | Some vs => λ w,
      let '(r, w) := BuildResources vs w in
      (r ← wrap_err "BuildResources failed" (recover_panic r); check_resources r, w)
  end.

(** The function [BuildResources]: a new builder for every call. *)
Definition resbuilder_BuildResources (vs : option VirtualService) : stM World Updater.Resources :=
  λ w, ResourceBuilder_BuildResources vs (set_resources w newResourcesCache).

(** ** Properties *)

(** The results of the calls a service is built from. *)
Record built_from (vs : VirtualService) (xdsListener : ListenerV3) (nn : NN) (r : Resources)
    (vh : VirtualHost) (rc : RouteConfiguration) (filters : list HttpFilterV3)
    (params : FilterChains.FilterChainsParams) (cls : list ClusterV3) : Prop := {
  bf_routes : Routes.BuildRouteConfiguration store vs xdsListener nn = Ok (vh, rc);
  bf_route : mRouteConfig r = Some rc;
  bf_domains : mDomains r = vhDomains vh;
  bf_params : ∃ s s', FilterChains.BuildFilterChainParams store clock vs nn filters
                (ResUtils.IsTLSListener (Some xdsListener)) vh s = (Ok params, s');
  bf_chains : FilterChains.BuildFilterChains sord params = Ok (mFilterChain r);
  bf_cls : Clusters.FromVirtualHostRoutes store vh = Ok cls;
  bf_all : ∃ more, mClusters r = cls ++ more;
  bf_tls : build_tls vs (ResUtils.IsTLSListener (Some xdsListener))
             (FilterChains.SecretNameToDomains params) = Ok (mSecrets r, mUsedSecrets r)
}.

Lemma with_filters_Ok {A} (f : HttpFilters.Cache → result A * HttpFilters.Cache) w a w' :
  with_filters f w = (Ok a, w') → (f (wFilters w)).1 = Ok a.
Proof using Type. unfold with_filters. destruct (f (wFilters w)) as [r c]. naive_solver. Qed.

Lemma from_virtual_service_Ok vs l lnn nn w r w' :
  buildResourcesFromVirtualService vs l lnn nn w = (Ok r, w') →
  mListener r = lnn ∧ ∃ vh rc filters params cls, built_from vs l nn r vh rc filters params cls.
Proof using Type.
  unfold buildResourcesFromVirtualService. rewrite stM_bind_Ok. intros (fs & w1 & _ & H).
  apply stM_bind_Ok in H as ([vh rc] & w2 & [Hr%wrap_err_Ok _]%lift_Ok & H).
  apply stM_bind_Ok in H as (ps & w3 & Hps%wrap_st_Ok & H).
  apply stM_bind_Ok in H as (fcs & w4 & [Hfc%wrap_err_Ok _]%lift_Ok & H).
  apply stM_bind_Ok in H as (c1 & w5 & [Hc%wrap_err_Ok _]%lift_Ok & H).
  apply stM_bind_Ok in H as (c2 & w6 & _ & H). apply stM_bind_Ok in H as (c3 & w7 & _ & H).
  apply stM_bind_Ok in H as (c4 & w8 & _ & H).
  apply stM_bind_Ok in H as ([ss us] & w9 & [Ht _]%lift_Ok & H). injection H as <- <-.
  split; [done|]. exists vh, rc, fs, ps, c1. split; cbn; try done; [|by eexists].
  unfold with_status in Hps. destruct (FilterChains.BuildFilterChainParams _ _ _ _ _ _ _ _) as [x s'] eqn:Hx.
  injection Hps as -> _. eauto.
Qed.

Lemma on_copy_Ok {A} b (m : stM World A) w a w' : on_copy b m w = (Ok a, w') → ∃ w1, m w = (Ok a, w1).
Proof using Type. unfold on_copy. destruct (m w) as [[x|e] w1]; naive_solver. Qed.

(** A build from scratch ends in one of two ways. *)
Lemma build_service_Ok vs k w r w' : build_service vs k w = (Ok r, w') →
  ∃ vs' l, applyVirtualServiceTemplate vs = Ok vs' ∧ Api.GetListenerNamespacedName vs' = Ok (mListener r) ∧
    buildListener (mListener r) = Ok l ∧
    ((lFilterChains l ≠ [] ∧ buildResourcesFromExistingFilterChains vs' l (mListener r) = Ok r) ∨
     (lFilterChains l = [] ∧ ∃ vh rc filters params cls, built_from vs' l (key vs) r vh rc filters params cls)).
Proof using Type.
  unfold build_service. rewrite stM_bind_Ok. intros (vs' & w1 & [Hv%wrap_err_Ok _]%lift_Ok & H).
  apply stM_bind_Ok in H as (lnn & w2 & [Hl%wrap_err_Ok _]%lift_Ok & H).
  apply stM_bind_Ok in H as (l & w3 & [Hb%wrap_err_Ok _]%lift_Ok & H). case_decide as Hd.
  - apply lift_Ok in H as [H _]. exists vs', l. assert (mListener r = lnn) as ->.
    { unfold buildResourcesFromExistingFilterChains in H. apply bind_Ok_inv in H as (_ & _ & H).
      apply bind_Ok_inv in H as (cls & _ & [= <-]). done. }
    split_and!; [done..|]. left. split; [|done]. by destruct (lFilterChains l); [apply Nat.lt_irrefl in Hd|].
  - apply stM_bind_Ok in H as (r' & w4 & Hr & H). apply stM_bind_Ok in H as (_ & w5 & _ & H).
    injection H as <- _. apply on_copy_Ok in Hr as (w6 & Hr%wrap_st_Ok).
    apply from_virtual_service_Ok in Hr as [<- Hr]. exists vs', l. split_and!; [done..|].
    right. split; [|done]. destruct (lFilterChains l); [done|cbn in Hd; lia].
Qed.

(** A new builder misses its cache. *)
Lemma new_cache_misses now k : Lru.Get newResourcesCache now k = (None, newResourcesCache).
Proof using Type. reflexivity. Qed.

Lemma resbuilder_Ok vs w res w' : resbuilder_BuildResources vs w = (Ok res, w') →
  ∃ v r w0 w1, vs = Some v ∧ build_service v (generateCacheKey v) w0 = (Ok r, w1) ∧
    check_resources r = Ok res.
Proof using Type.
  unfold resbuilder_BuildResources, ResourceBuilder_BuildResources. destruct vs as [v|]; [|done].
  destruct (BuildResources v _) as [r w1] eqn:Hb. intros [= Hr _].
  apply bind_Ok_inv in Hr as (r' & Hr%wrap_err_Ok & Hc).
  assert (r = Ok r') as -> by (by destruct r as [|[]]; cbn in Hr; simplify_eq).
  unfold BuildResources in Hb. apply stM_bind_Ok in Hb as (o & w2 & Hg & Hb).
  unfold cache_get in Hg. cbn [wResources set_resources] in Hg. rewrite new_cache_misses in Hg.
  injection Hg as <- <-.
  eexists v, r', _, w1. done.
Qed.

Lemma check_resources_Ok r res : check_resources r = Ok res →
  Helpers.Name (mListener r) ≠ "" ∧ mFilterChain r ≠ [] ∧
  res = Updater.mkResources (mListener r) (mFilterChain r) (mRouteConfig r) (mClusters r)
          (mSecrets r) (mUsedSecrets r) (mDomains r).
Proof using Type.
  unfold check_resources. case_decide; [done|]. case_decide as Hl; [done|]. intros [= <-].
  split_and!; [done| |done]. by intros Hz; rewrite Hz in Hl.
Qed.

(** The two kinds of success, seen from the caller. *)
Lemma resbuilder_cases vs w res w' : resbuilder_BuildResources (Some vs) w = (Ok res, w') →
  Helpers.Name (Updater.RListener res) ≠ "" ∧ Updater.RFilterChain res ≠ [] ∧
  ∃ vs' l, applyVirtualServiceTemplate vs = Ok vs' ∧ Api.GetListenerNamespacedName vs' = Ok (Updater.RListener res) ∧
    buildListener (Updater.RListener res) = Ok l ∧
    ((lFilterChains l ≠ [] ∧ Updater.RRouteConfig res = None ∧ Updater.RFilterChain res = lFilterChains l ∧
      Clusters.ExtractClustersFromFilterChains store (lFilterChains l) = Ok (Updater.RClusters res) ∧
      Updater.RSecrets res = [] ∧ Updater.RUsedSecrets res = [] ∧ Updater.RDomains res = []) ∨
     (lFilterChains l = [] ∧ ∃ r vh rc filters params cls, check_resources r = Ok res ∧
        built_from vs' l (key vs) r vh rc filters params cls)).
Proof using Type.
  intros (v & r & w0 & w1 & [= <-] & Hb & Hc)%resbuilder_Ok.
  apply build_service_Ok in Hb as (vs' & l & Hv & Hl & Hbl & Hcase).
  pose proof (check_resources_Ok _ _ Hc) as (Hn & Hf & ->). cbn. split_and!; [done..|].
  exists vs', l. split_and!; [done..|].
  destruct Hcase as [[Hne He]|[Hnil (vh & rc & fs & ps & cls & Hbf)]].
  - left. split; [done|]. unfold buildResourcesFromExistingFilterChains in He.
    apply bind_Ok_inv in He as (_ & _ & He). apply bind_Ok_inv in He as (cls & Hcls%wrap_err_Ok & [= <-]).
    done.
  - right. split; [done|]. exists r, vh, rc, fs, ps, cls. done.
Qed.

(** A service uses a cluster: one of its routes leads to it, or a filter of the chains that its
    listener brings needs it. *)
Inductive uses (res : Updater.Resources) (c : string) : Prop :=
| uses_route rc vh r : Updater.RRouteConfig res = Some rc → vh ∈ rcVirtualHosts rc → r ∈ vhRoutes vh →
    ResUtils.routes_to r c → uses res c
| uses_filter fc f : Updater.RRouteConfig res = None → fc ∈ Updater.RFilterChain res → f ∈ fcFilters fc →
    Clusters.needs f c → uses res c.

(** What a service uses is delivered with it, as the store has it. *)
Lemma resources_used vs w res w' c :
  Store.spec_named store → resbuilder_BuildResources (Some vs) w = (Ok res, w') →
  uses res c → c ≠ "" → ∃ cl, cl ∈ Updater.RClusters res ∧ cName cl = c ∧ Clusters.from_store store cl.
Proof using Type.
  intros Hs (_ & _ & vs' & l & _ & _ & _ & Hcase)%resbuilder_cases Huse Hc.
  destruct Hcase as [(_ & Hz & Hfc & Hcls & _)|(_ & r & vh & rc' & fs & ps & cls & Hck & Hbf)].
  - destruct Huse as [rc vh r Hrc|fc f _ Hin Hf Hneed]; [congruence|]. rewrite Hfc in Hin.
    destruct (Clusters.extracted_clusters _ _ _ Hs Hcls) as (_ & Hst & Hall).
    destruct (Hall fc f c Hin Hf Hneed Hc) as (cl & Hcl & Hn). exists cl. eauto.
  - apply check_resources_Ok in Hck as (_ & _ & ->). destruct Hbf as [Hr Hrc' _ _ _ Hcls [more Hmore] _].
    destruct Huse as [rc h rt Hrc Hh Hrt Hto|fc f Hz]; cbn in *; [|congruence].
    rewrite Hrc in Hrc'. injection Hrc' as <-.
    destruct (Routes.BuildRouteConfiguration_hosts _ _ _ _ _ _ Hr) as [_ Hhosts]. assert (h = vh) as ->.
    { destruct Hhosts as [Hx|Hx]; rewrite Hx in Hh; [by apply list_elem_of_singleton in Hh|].
      apply elem_of_cons in Hh as [->|Hh%list_elem_of_singleton]; [done|]. subst h. exfalso.
      apply list_elem_of_singleton in Hrt. subst rt. destruct Hto as [? Hto|? ? Hto]; cbn in Hto; congruence. }
    destruct (Clusters.routed_clusters _ _ _ _ _ Hs Hcls Hrt Hto Hc) as (cl & Hcl & Hn & Hst).
    exists cl. rewrite Hmore. split; [apply elem_of_app; by left|done].
Qed.

Lemma resources_named vs w res w' rc :
  resbuilder_BuildResources (Some vs) w = (Ok res, w') → Updater.RRouteConfig res = Some rc →
  rcName rc = ResUtils.printed (key vs) ∧
  ∃ filters, ∀ fc, fc ∈ Updater.RFilterChain res →
    fcName fc = rcName rc ∧ FilterChains.manages fc (rcName rc) filters.
Proof using Type.
  intros (_ & _ & vs' & l & _ & _ & _ & Hcase)%resbuilder_cases Hrc.
  destruct Hcase as [(_ & Hz & _)|(_ & r & vh & rc' & fs & ps & cls & Hc & Hbf)]; [congruence|].
  apply check_resources_Ok in Hc as (_ & _ & ->). cbn in Hrc |- *.
  destruct Hbf as [Hr Hrc' _ (s & s' & Hps) Hch _ _ _]. rewrite Hrc in Hrc'. injection Hrc' as <-.
  destruct (Routes.BuildRouteConfiguration_hosts _ _ _ _ _ _ Hr) as [Hname _].
  rewrite ResUtils.String_printed in Hname. split; [done|]. exists (FilterChains.pHTTPFilters ps). intros fc Hfc.
  apply FilterChains.BuildFilterChainParams_Ok in Hps as (Hvn & Hrn & _).
  rewrite ResUtils.String_printed, <-Hname in Hvn, Hrn.
  destruct (FilterChains.BuildFilterChains_Ok _ _ _ Hch) as [[_ (fc' & Hf & Hco)]|[_ Hf]].
  - rewrite Hf in Hfc. apply list_elem_of_singleton in Hfc as ->. rewrite <-Hrn at 2.
    split; [by rewrite (FilterChains.co_name _ _ Hco)|by apply FilterChains.chain_of_manages].
  - destruct (Forall2_elem_r _ _ _ _ Hf Hfc) as (p & _ & Hco). rewrite <-Hrn at 2.
    split; [by rewrite (FilterChains.co_name _ _ Hco)|apply (FilterChains.chain_of_manages _ _ Hco)].
Qed.

(** C10. The resources of a service are closed under references, in every store
    whose clusters are found under their Envoy names: on success there is a filter chain and the
    listener is in the store.  Every cluster that one of the service's routes leads to, or that a
    filter of the chains its listener brings needs, is delivered with it, with the
    content that the store has for it.  If there are routes, the route configuration
    has the printed name of the service, and every filter chain has that name and a connection manager that asks for that
    configuration.  If the listener brings its own chains, these are served unchanged,
    the clusters have pairwise distinct names, and the service has no domain and no secret. *)
Theorem BuildResources_closed vs w res w' :
  Store.spec_named store → resbuilder_BuildResources (Some vs) w = (Ok res, w') →
  Updater.RFilterChain res ≠ [] ∧
  (∀ c, uses res c → c ≠ "" →
     ∃ cl obj, cl ∈ Updater.RClusters res ∧ cName cl = c ∧ Store.GetSpecCluster store c = Some obj ∧
       Api.Cluster_UnmarshalV3AndValidate obj = Ok cl) ∧
  ∃ obj l, Store.GetListener store (Updater.RListener res) = Some obj ∧ Api.Listener_UnmarshalV3 obj = Ok l ∧
  match Updater.RRouteConfig res with
  | Some rc =>
      lFilterChains l = [] ∧ rcName rc = ResUtils.printed (key vs) ∧
      ∃ filters, ∀ fc, fc ∈ Updater.RFilterChain res →
        fcName fc = rcName rc ∧ FilterChains.manages fc (rcName rc) filters
  | None =>
      Updater.RFilterChain res = lFilterChains l ∧ NoDup (cName <$> Updater.RClusters res) ∧
      Updater.RSecrets res = [] ∧ Updater.RUsedSecrets res = [] ∧ Updater.RDomains res = []
  end.
Proof using Type.
  intros Hs H. pose proof (λ c, resources_used vs w res w' c Hs H) as Hused.
  pose proof (λ rc, resources_named vs w res w' rc H) as Hnamed.
  destruct (resbuilder_cases _ _ _ _ H) as (_ & Hf & vs' & l & _ & _ & Hl & Hcase). split; [done|]. split.
  - intros c Hc Hne. destruct (Hused c Hc Hne) as (cl & Hcl & <- & obj & Hobj & Hun). by exists cl, obj.
  - unfold buildListener in Hl. destruct (Store.GetListener store _) as [obj|]; [|done].
    apply bind_Ok_inv in Hl as (l0 & Hl0%wrap_err_Ok & [= <-]). exists obj, l0. split; [done|]. split; [done|].
    cbn in Hcase. destruct (Updater.RRouteConfig res) as [rc|] eqn:Hrc.
    + destruct Hcase as [(_ & Hz & _)|(Hnil & _)]; [done|]. split; [done|]. by apply Hnamed.
    + destruct Hcase as [(_ & _ & Hfc & Hcl & Hss & Hus & Hds)|(_ & r & vh & rc' & fs & ps & cls & Hc & Hbf)].
      * destruct (Clusters.extracted_clusters _ _ _ Hs Hcl) as (Hnd & _). done.
      * apply check_resources_Ok in Hc as (_ & _ & ->). cbn in Hrc. destruct Hbf as [_ Hz _ _ _ _ _ _]. congruence.
Qed.

(** *** Secrets *)
Lemma buildSecret_Ok s sec : buildSecret s = Ok sec →
  sName sec = ResUtils.printed s ∧ sCertificateChain sec ≠ "" ∧ sPrivateKey sec ≠ "" ∧
  ∃ k8s, Store.GetSecret store s = Some k8s ∧
    nilmap_get (s_data k8s) "tls.crt" = Some (sCertificateChain sec) ∧
    nilmap_get (s_data k8s) "tls.key" = Some (sPrivateKey sec).
Proof using Type.
  unfold buildSecret, secret_data. destruct (Store.GetSecret store s) as [k8s|]; [|done].
  destruct (nilmap_get (s_data k8s) "tls.crt") as [c|] eqn:Hc; [|done]. destruct (decide (c = "")); [done|].
  destruct (nilmap_get (s_data k8s) "tls.key") as [k|] eqn:Hk; [|done]. destruct (decide (k = "")); [done|].
  intros [= <-]. split_and!; [apply ResUtils.String_printed|done|done|]. by exists k8s.
Qed.

Lemma built_from_tls vs l nn r vh rc filters params cls :
  (∀ m, sord m ≡ₚ map_to_list m) → (∀ m, kord m ≡ₚ map_to_list m) →
  built_from vs l nn r vh rc filters params cls →
  NoDup (mUsedSecrets r) ∧ Forall2 (λ s sec, buildSecret s = Ok sec) (mUsedSecrets r) (mSecrets r) ∧
  (∀ fc, fc ∈ mFilterChain r → (mUsedSecrets r = [] ∧ fcTransportSocket fc = None) ∨
     ∃ s, s ∈ mUsedSecrets r ∧ FilterChains.presents fc s) ∧
  (∀ s, s ∈ mUsedSecrets r → ∃ fc, fc ∈ mFilterChain r ∧ FilterChains.presents fc s).
Proof using Type.
  intros Hsord Hkord [_ _ _ (s & s' & Hps) Hch _ _ Htls].
  apply FilterChains.BuildFilterChainParams_Ok in Hps as (_ & _ & _ & _ & Hctx & _ & Hconf).
  apply FilterChains.configureTLS_Ok in Hconf as (Hb & Hfalse & _). unfold build_tls in Htls.
  destruct (FilterChains.BuildFilterChains_Ok _ _ _ Hch) as [[Hm (fc & Hf & [_ _ _ Hsock])]|[Hm Hf]].
  - rewrite Hm, map_size_empty, andb_false_r in Htls. injection Htls as <- <-.
    rewrite Hctx in Hsock. rewrite Hf. split_and!; [constructor|constructor| |].
    + intros fc' ->%list_elem_of_singleton. by left.
    + by intros ? ?%not_elem_of_nil.
  - assert (ResUtils.IsTLSListener (Some l) && bool_decide (is_Some (TlsCfg (Common (vs_spec vs)))) &&
      bool_decide (0 < size (FilterChains.SecretNameToDomains params)) = true) as Hcond.
    { rewrite <-Hb. destruct (ResUtils.IsTLSListener (Some l)); [|by rewrite Hfalse in Hm].
      cbn. apply bool_decide_eq_true. apply Nat.neq_0_lt_0. by rewrite map_size_empty_iff. }
    rewrite Hcond in Htls. apply bind_Ok_inv in Htls as (secs & Hsecs%map_result_Ok & Htls).
    apply Ok_pair_inv in Htls as [<- <-]. split_and!.
    + rewrite Hkord. apply NoDup_fst_map_to_list.
    + eapply Forall2_impl; [exact Hsecs|]. cbn. by intros ? ? ?%wrap_err_Ok.
    + intros fc Hfc. right. destruct (Forall2_elem_r _ _ _ _ Hf Hfc) as ([n ds] & Hin & Hco).
      exists n. split; [|by eapply FilterChains.chain_of_presents]. rewrite Hkord. rewrite Hsord in Hin.
      apply list_elem_of_fmap. by exists (n, ds).
    + intros n Hn. rewrite Hkord in Hn. apply list_elem_of_fmap in Hn as ([n' ds] & -> & Hin). cbn.
      rewrite <-Hsord in Hin. destruct (Forall2_elem_l _ _ _ _ Hf Hin) as (fc & Hfc & Hco).
      exists fc. split; [done|by eapply FilterChains.chain_of_presents].
Qed.

Lemma resources_secrets vs w res w' rc :
  (∀ m, sord m ≡ₚ map_to_list m) → (∀ m, kord m ≡ₚ map_to_list m) →
  resbuilder_BuildResources (Some vs) w = (Ok res, w') → Updater.RRouteConfig res = Some rc →
  NoDup (Updater.RUsedSecrets res) ∧
  Forall2 (λ s sec, sName sec = ResUtils.printed s ∧ sCertificateChain sec ≠ "" ∧ sPrivateKey sec ≠ "" ∧
    ∃ k8s, Store.GetSecret store s = Some k8s ∧
      nilmap_get (s_data k8s) "tls.crt" = Some (sCertificateChain sec) ∧
      nilmap_get (s_data k8s) "tls.key" = Some (sPrivateKey sec))
    (Updater.RUsedSecrets res) (Updater.RSecrets res) ∧
  (∀ fc, fc ∈ Updater.RFilterChain res →
     (Updater.RUsedSecrets res = [] ∧ fcTransportSocket fc = None) ∨
     ∃ s, s ∈ Updater.RUsedSecrets res ∧ FilterChains.presents fc s) ∧
  (∀ s, s ∈ Updater.RUsedSecrets res → ∃ fc, fc ∈ Updater.RFilterChain res ∧ FilterChains.presents fc s).
Proof using Type.
  intros Hsord Hkord (_ & _ & vs' & l & _ & _ & _ & Hcase)%resbuilder_cases Hrc.
  destruct Hcase as [(_ & Hz & _)|(_ & r & vh & rc' & fs & ps & cls & Hc & Hbf)]; [congruence|].
  apply check_resources_Ok in Hc as (_ & _ & ->). cbn.
  destruct (built_from_tls _ _ _ _ _ _ _ _ _ Hsord Hkord Hbf) as (H1 & H2 & H3 & H4).
  split_and!; [done| |done..]. eapply Forall2_impl; [exact H2|]. intros s sec. apply buildSecret_Ok.
Qed.

(** Every secret delivered, for services of both kinds. *)
Lemma secrets_of_store vs w res w' sec :
  (∀ m, sord m ≡ₚ map_to_list m) → (∀ m, kord m ≡ₚ map_to_list m) →
  resbuilder_BuildResources (Some vs) w = (Ok res, w') → sec ∈ Updater.RSecrets res →
  ∃ s, sName sec = ResUtils.printed s ∧ ∃ k8s, Store.GetSecret store s = Some k8s ∧
      nilmap_get (s_data k8s) "tls.crt" = Some (sCertificateChain sec) ∧
      nilmap_get (s_data k8s) "tls.key" = Some (sPrivateKey sec).
Proof using Type.
  intros Hsord Hkord Hr Hin. destruct (Updater.RRouteConfig res) as [rc|] eqn:Hrc.
  - destruct (resources_secrets _ _ _ _ _ Hsord Hkord Hr Hrc) as (_ & Hsec & _).
    destruct (Forall2_elem_r _ _ _ _ Hsec Hin) as (s & _ & Hname & _ & _ & Hk). by exists s.
  - destruct (resbuilder_cases _ _ _ _ Hr) as (_ & _ & vs' & l & _ & _ & _ & Hcase).
    destruct Hcase as [(_ & _ & _ & _ & Hz & _)|(_ & r & vh & rc' & fs & ps & cls & Hc & Hbf)].
    + rewrite Hz in Hin. by apply not_elem_of_nil in Hin.
    + apply check_resources_Ok in Hc as (_ & _ & ->). cbn in Hrc. destruct Hbf as [_ Hz _ _ _ _ _ _]. congruence.
Qed.

(** C11. Certificates: when the resources of a service with routes could be built, its secrets are pairwise distinct, each is in
    the store with a non-empty certificate and key and is delivered, under its printed name, with exactly these;
    every filter chain asks for one of them by its printed name (or there are
    none, and the chain is not encrypted), and each of them is asked for by a chain. *)
Theorem BuildResources_secrets vs w res w' rc :
  (∀ m, sord m ≡ₚ map_to_list m) → (∀ m, kord m ≡ₚ map_to_list m) →
  resbuilder_BuildResources (Some vs) w = (Ok res, w') → Updater.RRouteConfig res = Some rc →
  NoDup (Updater.RUsedSecrets res) ∧
  Forall2 (λ s sec, sName sec = ResUtils.printed s ∧ sCertificateChain sec ≠ "" ∧ sPrivateKey sec ≠ "" ∧
    ∃ k8s, Store.GetSecret store s = Some k8s ∧
      nilmap_get (s_data k8s) "tls.crt" = Some (sCertificateChain sec) ∧
      nilmap_get (s_data k8s) "tls.key" = Some (sPrivateKey sec))
    (Updater.RUsedSecrets res) (Updater.RSecrets res) ∧
  (∀ fc, fc ∈ Updater.RFilterChain res →
     (Updater.RUsedSecrets res = [] ∧ fcTransportSocket fc = None) ∨
     ∃ s, s ∈ Updater.RUsedSecrets res ∧ FilterChains.presents fc s) ∧
  (∀ s, s ∈ Updater.RUsedSecrets res → ∃ fc, fc ∈ Updater.RFilterChain res ∧ FilterChains.presents fc s).
Proof using Type. apply resources_secrets. Qed.
End builder.

(** ** End to end *)
Section served.
Context `{CA : CacheAPI}.
Context {ML : MainLib} {JL : Api.JsonLib} {SHA : Sha256} {FL : HttpFilters.FilterLib}
  {CL : Clusters.ClusterLib} {CHL : FilterChains.ChainLib}
  {P1 : ProtoMessage HttpFilterV3} {P2 : ProtoMessage HttpFilters.PolicyV3}
  {P3 : ProtoMessage VirtualHost} {P4 : ProtoMessage RouteV3} {P5 : ProtoMessage RouteConfiguration}
  {P6 : ProtoMessage ClusterV3} {P7 : ProtoMessage ListenerV3} {P8 : ProtoMessage AccessLogV3}
  {P9 : ProtoMessage TracingV3} {P10 : ProtoMessage UpgradeConfigV3} {P11 : ProtoMessage Http2OptionsV3}
  {P12 : ProtoMessage HCM} {P13 : ProtoMessage FilterChain}.

(** The results the builder gave in one rebuild: every call had its own instants,
    iteration orders and state of the caches. *)
Definition built_by (build : VirtualService → Store.OptimizedStore → result Updater.Resources)
    (store : Store.OptimizedStore) : Prop :=
  ∀ vs, ∃ clk clock sord kord pord eord w,
    (∀ m, sord m ≡ₚ map_to_list m) ∧ (∀ m, kord m ≡ₚ map_to_list m) ∧
    build vs store = (resbuilder_BuildResources clk clock sord kord pord eord store (Some vs) w).1.

Context (build : VirtualService → Store.OptimizedStore → result Updater.Resources).
Context (ctx : nat → option error) (ord : gset string → list string)
  (lord : Mixer.t → list Mixer.entry) (indices : bool).

(** The nodes of a service: those it names, or all of them. *)
Definition targets (store : Store.OptimizedStore) (order : list VirtualService) (vs : VirtualService)
    (n : string) : Prop :=
  if decide (Updater.is_common vs) then n ∈ Updater.all_nodes build store order else n ∈ Api.GetNodeIDs vs.

Lemma placed_ops store order vs n res o :
  (∀ X, ord X ≡ₚ elements X) → vs ∈ order → targets store order vs n → build vs store = Ok res →
  o ∈ Updater.mixer_ops res n → o ∈ Updater.all_ops build ord store order.
Proof using Type.
  intros Hord Hvs Hn Hb Ho. unfold Updater.all_ops, Updater.plain_ops. apply elem_of_app.
  unfold targets in Hn. case_decide as Hc; [right|left]; apply list_elem_of_bind; exists vs.
  - split; [|by apply list_elem_of_filter]. unfold Updater.res_ops. rewrite Hb. apply list_elem_of_bind.
    exists n. split; [done|]. by rewrite Hord, elem_of_elements.
  - split; [|done]. unfold Updater.res_ops. rewrite Hb.
    apply list_elem_of_bind. exists n. split; [done|]. unfold Updater.plain_nodes. rewrite decide_False; [done|].
    intros [Hz|Hz]; [rewrite Hz in Hn; by apply not_elem_of_nil in Hn|done].
Qed.

(** Whatever the rebuild adds for a node was built for one of its services. *)
Lemma placed_by store order n o :
  (∀ X, ord X ≡ₚ elements X) → o ∈ Updater.all_ops build ord store order → Mixer.op_node o = n →
  ∃ v res, v ∈ order ∧ build v store = Ok res ∧ o ∈ Updater.mixer_ops res n.
Proof using Type.
  intros Hord Ho Hn. assert (∀ v nodes, o ∈ Updater.res_ops build store nodes v → 
    ∃ res, build v store = Ok res ∧ o ∈ Updater.mixer_ops res n) as Hres.
  { intros v nodes. unfold Updater.res_ops. destruct (build v store) as [res|]; [|by intros ?%not_elem_of_nil].
    intros (n' & Hin & _)%list_elem_of_bind. exists res. split; [done|].
    assert (n' = n) as ->; [|done]. rewrite <-Hn. clear -Hin. revert Hin. unfold Updater.mixer_ops.
    rewrite !elem_of_app, !list_elem_of_fmap, list_elem_of_singleton.
    destruct (Updater.RRouteConfig res) as [rc|]; rewrite ?list_elem_of_singleton, ?elem_of_nil; naive_solver. }
  unfold Updater.all_ops, Updater.plain_ops in Ho. apply elem_of_app in Ho as [Ho|Ho];
    apply list_elem_of_bind in Ho as (v & Ho & Hv); destruct (Hres _ _ Ho) as (res & Hb & Hin); exists v, res.
  - done.
  - apply list_elem_of_filter in Hv as [_ Hv]. done.
Qed.

(** What a node is served for a service, under the names by which Envoy asks: *)
Record serves (store : Store.OptimizedStore) (order : list VirtualService) (vs : VirtualService)
    (res : Updater.Resources) (snap : Snapshot) : Prop := {
  (** the listener with the filter chains of the service, if no other listener prints the same; *)
  sv_listener : (∀ v r, v ∈ order → build v store = Ok r →
      ResUtils.printed (Updater.RListener r) = ResUtils.printed (Updater.RListener res) →
      Updater.RListener r = Updater.RListener res) →
    ∃ l, GetResources snap ListenerType !! ResUtils.printed (Updater.RListener res) = Some (ResListener l) ∧
      ∀ fc, fc ∈ Updater.RFilterChain res → fc ∈ lFilterChains l;
  (** the route configuration of the service, if no other service prints the same; *)
  sv_route rc : Updater.RRouteConfig res = Some rc →
    (∀ v, v ∈ order → ResUtils.printed (key v) = ResUtils.printed (key vs) → v = vs) →
    GetResources snap RouteType !! ResUtils.printed (key vs) = Some (ResRoute rc);
  (** every cluster that the service uses, as this rebuild made it for a service; *)
  sv_clusters c : uses res c → c ≠ "" →
    ∃ cl v r, GetResources snap ClusterType !! c = Some (ResCluster cl) ∧ cName cl = c ∧
      v ∈ order ∧ build v store = Ok r ∧ cl ∈ Updater.RClusters r;
  (** for every encrypted chain of a service with routes, the secret it asks for, with the certificate and
      the key that the store has for that name. *)
  sv_secrets rc fc : Updater.RRouteConfig res = Some rc → fc ∈ Updater.RFilterChain res → fcTransportSocket fc ≠ None →
    ∃ s sec s' k8s, FilterChains.presents fc s ∧
      GetResources snap SecretType !! ResUtils.printed s = Some (ResSecret sec) ∧ sName sec = ResUtils.printed s ∧
      ResUtils.printed s' = ResUtils.printed s ∧ Store.GetSecret store s' = Some k8s ∧
      nilmap_get (s_data k8s) "tls.crt" = Some (sCertificateChain sec) ∧
      nilmap_get (s_data k8s) "tls.key" = Some (sPrivateKey sec)
}.

Lemma op_route res n r : Mixer.OAdd n RouteType r ∈ Updater.mixer_ops res n ↔
  ∃ rc, Updater.RRouteConfig res = Some rc ∧ r = ResRoute rc.
Proof using Type.
  unfold Updater.mixer_ops. rewrite !elem_of_app, !list_elem_of_fmap, list_elem_of_singleton.
  destruct (Updater.RRouteConfig res) as [rc|]; rewrite ?list_elem_of_singleton, ?elem_of_nil; naive_solver.
Qed.
Lemma op_cluster res n r : Mixer.OAdd n ClusterType r ∈ Updater.mixer_ops res n ↔
  ∃ cl, cl ∈ Updater.RClusters res ∧ r = ResCluster cl.
Proof using Type.
  unfold Updater.mixer_ops. rewrite !elem_of_app, !list_elem_of_fmap, list_elem_of_singleton.
  destruct (Updater.RRouteConfig res) as [rc|]; rewrite ?list_elem_of_singleton, ?elem_of_nil; naive_solver.
Qed.
Lemma op_secret res n r : Mixer.OAdd n SecretType r ∈ Updater.mixer_ops res n ↔
  ∃ sec, sec ∈ Updater.RSecrets res ∧ r = ResSecret sec.
Proof using Type.
  unfold Updater.mixer_ops. rewrite !elem_of_app, !list_elem_of_fmap, list_elem_of_singleton.
  destruct (Updater.RRouteConfig res) as [rc|]; rewrite ?list_elem_of_singleton, ?elem_of_nil; naive_solver.
Qed.
Lemma op_params res n nn fcs : Mixer.OParams nn fcs n ∈ Updater.mixer_ops res n ↔
  nn = Updater.RListener res ∧ fcs = Updater.RFilterChain res.
Proof using Type.
  unfold Updater.mixer_ops. rewrite !elem_of_app, !list_elem_of_fmap, list_elem_of_singleton.
  destruct (Updater.RRouteConfig res) as [rc|]; rewrite ?list_elem_of_singleton, ?elem_of_nil; naive_solver.
Qed.

Section after_rebuild.
Context (store : Store.OptimizedStore) (sc : SnapshotCache.t) (order : list VirtualService).
Local Abbreviation b := (Updater.buildSnapshots build ctx ord lord indices sc store order).
Context (Hspec : Store.spec_named store) (Hby : built_by build store).
Context (Hord : ∀ X, ord X ≡ₚ elements X) (Hlord : ∀ m, lord m ≡ₚ Mixer.listener_entries m).
Context (Herr : Updater.bErr b = None).
Context (vs : VirtualService) (n : string) (Hvs : vs ∈ order) (Hn : targets store order vs n).
Context (res : Updater.Resources) (Hres : build vs store = Ok res).

(** Each resource of the service, or one of the same name made for another service. *)
Lemma serves_resource snap typ r : SnapshotCache.GetSnapshot (Updater.bCache b) n = Ok snap →
  typ ≠ ListenerType → Mixer.OAdd n typ r ∈ Updater.mixer_ops res n →
  ∃ r' v res', GetResources snap typ !! GetResourceName r = Some r' ∧ GetResourceName r' = GetResourceName r ∧
    v ∈ order ∧ build v store = Ok res' ∧ Mixer.OAdd n typ r' ∈ Updater.mixer_ops res' n.
Proof using Hord Herr Hvs Hn Hres.
  intros Hsnap Ht Hin. destruct (Rebuild.served_name build ctx ord lord indices sc store order n typ r Hord Herr)
    as (snap' & r' & Hsnap' & Hl & Hnm & Ho); [by eapply placed_ops|done|].
  assert (snap' = snap) as -> by congruence.
  destruct (placed_by store order n _ Hord Ho eq_refl) as (v & res' & Hv & Hb & Hin'). by exists r', v, res'.
Qed.

Lemma serves_snapshot : ∃ snap, SnapshotCache.GetSnapshot (Updater.bCache b) n = Ok snap ∧
  ((∀ v r, v ∈ order → build v store = Ok r →
      ResUtils.printed (Updater.RListener r) = ResUtils.printed (Updater.RListener res) →
      Updater.RListener r = Updater.RListener res) →
    ∃ l, GetResources snap ListenerType !! ResUtils.printed (Updater.RListener res) = Some (ResListener l) ∧
      ∀ fc, fc ∈ Updater.RFilterChain res → fc ∈ lFilterChains l).
Proof using Hord Hlord Herr Hvs Hn Hres.
  destruct (Rebuild.served_listener build ctx ord lord indices sc store order n
    (Updater.RListener res) (Updater.RFilterChain res) Hord Hlord Herr) as (snap & Hsnap & Hl).
  { eapply placed_ops; [done..|]. by apply op_params. }
  exists snap. split; [done|]. intros Huniq. rewrite <-ResUtils.String_printed. apply Hl.
  intros nn' fcs' Ho Heq. destruct (placed_by store order n _ Hord Ho eq_refl) as (v & r & Hv & Hb & Hin).
  apply op_params in Hin as [-> _]. apply (Huniq v r Hv Hb). by rewrite <-!ResUtils.String_printed.
Qed.

Lemma serves_service snap : SnapshotCache.GetSnapshot (Updater.bCache b) n = Ok snap → serves store order vs res snap.
Proof using Hspec Hby Hord Hlord Herr Hvs Hn Hres.
  intros Hsnap. destruct (Hby vs) as (clk & clock & sord & kord & pord & eord & w & Hsord & Hkord & Heq).
  rewrite Hres in Heq. destruct (resbuilder_BuildResources _ _ _ _ _ _ _ _ _) as [r w'] eqn:Hr.
  cbn in Heq. subst r. pose proof (λ typ r, serves_resource snap typ r Hsnap) as Hserved. split.
  - destruct serves_snapshot as (snap' & Hsnap' & Hl). assert (snap' = snap) as -> by congruence. exact Hl.
  - intros rc Hrc Huniq. destruct (resources_named _ _ _ _ _ _ _ _ _ _ _ _ Hr Hrc) as [Hname _].
    destruct (Hserved RouteType (ResRoute rc)) as (r' & v & res' & Hl & Hnm & Hv & Hb & Hin); [done|apply op_route; eauto|].
    apply op_route in Hin as (rc' & Hrc' & ->). cbn in Hl, Hnm. rewrite Hname in Hl. rewrite Hl.
    destruct (Hby v) as (clk' & clock' & sord' & kord' & pord' & eord' & w1 & _ & _ & Heq).
    rewrite Hb in Heq. destruct (resbuilder_BuildResources clk' _ _ _ _ _ _ _ _) as [r w1'] eqn:Hr'. cbn in Heq. subst r.
    destruct (resources_named _ _ _ _ _ _ _ _ _ _ _ _ Hr' Hrc') as [Hname' _].
    assert (v = vs) as -> by (apply Huniq; [done|congruence]). congruence.
  - intros c Huse Hc. destruct (resources_used _ _ _ _ _ _ _ _ _ _ _ _ Hspec Hr Huse Hc) as (cl & Hcl & Hname & _).
    destruct (Hserved ClusterType (ResCluster cl)) as (r' & v & res' & Hl & Hnm & Hv & Hb & Hin); [done|apply op_cluster; eauto|].
    apply op_cluster in Hin as (cl' & Hcl' & ->). cbn in Hl, Hnm. rewrite Hname in Hl. exists cl', v, res'.
    split_and!; first [done|congruence].
  - intros rc fc Hrc Hfc Hsock.
    destruct (resources_secrets _ _ _ _ _ _ _ _ _ _ _ _ Hsord Hkord Hr Hrc) as (_ & Hsec & Hpres & _).
    destruct (Hpres fc Hfc) as [[_ ?]|(s & Hin & Hp)]; [done|].
    destruct (Forall2_elem_l _ _ _ _ Hsec Hin) as (sec & Hsin & Hname & _).
    destruct (Hserved SecretType (ResSecret sec)) as (r' & v & res' & Hl & Hnm & Hv & Hb & Hin'); [done|apply op_secret; eauto|].
    apply op_secret in Hin' as (sec' & Hsec' & ->). cbn in Hl, Hnm. rewrite Hname in Hl, Hnm.
    destruct (Hby v) as (clk' & clock' & sord' & kord' & pord' & eord' & w1 & Hsord' & Hkord' & Heq).
    rewrite Hb in Heq. destruct (resbuilder_BuildResources clk' _ _ _ _ _ _ _ _) as [r w1'] eqn:Hr'. cbn in Heq. subst r.
    destruct (secrets_of_store _ _ _ _ _ _ _ _ _ _ _ _ Hsord' Hkord' Hr' Hsec') as (s' & Hs' & k8s & Hk & Hc & Hkey).
    exists s, sec', s', k8s. split_and!; first [done|congruence].
Qed.
End after_rebuild.

(** Every service of a successful rebuild was built, and is served on its nodes. *)
Lemma serves_references store sc order vs n :
  let b := Updater.buildSnapshots build ctx ord lord indices sc store order in
  Store.spec_named store → built_by build store → (∀ X, ord X ≡ₚ elements X) →
  (∀ m, lord m ≡ₚ Mixer.listener_entries m) → Updater.bErr b = None →
  vs ∈ order → targets store order vs n →
  ∃ res snap, build vs store = Ok res ∧ SnapshotCache.GetSnapshot (Updater.bCache b) n = Ok snap ∧
    serves store order vs res snap.
Proof using Type.
  intros b Hs Hby Hord Hlord Herr Hvs Hn.
  destruct (build vs store) as [res|e] eqn:Hb.
  2:{ destruct (Rebuild.blocks_commit build ctx ord lord indices sc store order vs Hord Hvs) as [Hx _].
      - right. by rewrite Hb.
      - by destruct (Hx Herr). }
  destruct (serves_snapshot store sc order Hord Hlord Herr vs n Hvs Hn res Hb) as (snap & Hsnap & _).
  exists res, snap. split; [done|]. split; [done|]. by eapply serves_service.
Qed.

(** C3. End to end: after a successful rebuild from any store that operations can
    produce, with the resources of every service built by the builder above, every
    service was built, and each of its nodes (all nodes for a common service) has a snapshot.
    Under the printed name of the service's listener it holds a listener with all the service's filter chains, and
    under the printed name of the service exactly the route configuration just built, provided no
    other listener or service prints the same name.  It holds every cluster that the
    routes lead to or that the chains of the listener need, as built by a service in this rebuild, and for every encrypted chain of a service
    with routes the secret that the chain asks for, with the certificate and key that
    the store has for that name. *)
Theorem rebuild_serves_references ops pem x509 sc order vs n :
  let store := foldl (Store.exec pem x509) Store.NewOptimizedStore ops in
  let b := Updater.buildSnapshots build ctx ord lord indices sc store order in
  built_by build store → (∀ X, ord X ≡ₚ elements X) → (∀ m, lord m ≡ₚ Mixer.listener_entries m) →
  Updater.bErr b = None → vs ∈ order → targets store order vs n →
  ∃ res snap, build vs store = Ok res ∧ SnapshotCache.GetSnapshot (Updater.bCache b) n = Ok snap ∧
    serves store order vs res snap.
Proof using Type. intros store b. apply serves_references, Store.spec_named_history. Qed.
End served.

(** ** Witnesses: a TLS service with one domain, route, cluster and secret *)
Module Examples.
Definition lib : MainLib := {| json_Marshal_VSSpec _ := Ok "{}"; debug_Stack := "" |}.
Definition json : Api.JsonLib :=
  {| Api.json_Marshal _ := Ok "{}"; Api.json_value _ := None; Api.json_Unmarshal _ c := Ok c;
     Api.template_Parse s := Ok s; Api.template_Execute s _ := Ok s |}.
Definition vh_pb : ProtoMessage VirtualHost :=
  {| pb_unmarshal s := Ok (mkVH "" [s] [Routes.Examples.route "c1" "/"] ""); pb_validate _ := None |}.
Definition listener_pb : ProtoMessage ListenerV3 :=
  {| pb_unmarshal _ := Ok Routes.Examples.tls_listener; pb_validate _ := None |}.
Definition vs : VirtualService :=
  mkVS (mkMeta "a" "ns" "uv" 1 (Some {[ Api.AnnotationNodeIDs := "n1" ]}) None)
    (mkVSSpec (mkCommon (Some (mkRaw (Some "a.io") None)) (Some (mkRef "l" None))
       (Some (mkTls (Some (mkRef "s" None)) None)) None [] None [] [] [] [] None None None None None None None)
       None [] ∅) (mkVSObjStatus "" false).
Definition history : list Store.op :=
  [Store.OSetListener (mkListener (mkMeta "l" "ns" "ul" 1 None None) (Some (mkRaw (Some "l") None)));
   Store.OSetCluster (Clusters.Examples.cluster "c1");
   Store.OSetSecret (mkSecret (mkMeta "s" "ns" "us" 1 None None)
     (Some {[ "tls.crt" := "certificate"; "tls.key" := "key" ]}));
   Store.OSetVirtualService vs].
Definition pem (_ : string) : option (DomainSecrets.PemBlock * string) := None.
Definition x509 (_ : string) : result DomainSecrets.Time := Err (ErrNew "no certificate").
Definition w0 : World :=
  mkWorld HttpFilters.globalHTTPFilterCache Clusters.globalClusterCache newResourcesCache (mkVSObjStatus "" false).
Definition clk (n : nat) : Lru.Time := Z.of_nat n.
Definition clock (_ : string) : DomainSecrets.Time := 0%Z.
Definition sord (m : gmap NN (list string)) : list (NN * list string) := map_to_list m.
Definition pord (m : gmap string RawExtension) : list (string * RawExtension) := map_to_list m.
Definition eord (m : gmap string string) : list string := (map_to_list m).*1.
End Examples.

Section witnesses.
#[local] Existing Instances Examples.lib Examples.json Examples.vh_pb Examples.listener_pb
  HttpFilters.Examples.sha HttpFilters.Examples.lib HttpFilters.Examples.hf_pb HttpFilters.Examples.policy_pb
  Clusters.Examples.cl_pb Clusters.Examples.lib Routes.Examples.route_pb Routes.Examples.rc_pb
  FilterChains.Examples.lib FilterChains.Examples.al_pb FilterChains.Examples.tr_pb
  FilterChains.Examples.uc_pb FilterChains.Examples.h2_pb FilterChains.Examples.hcm_pb
  FilterChains.Examples.fc_pb.
Local Abbreviation st :=
  (foldl (Store.exec Examples.pem Examples.x509) Store.NewOptimizedStore Examples.history).
Local Abbreviation run := (λ v store, resbuilder_BuildResources Examples.clk Examples.clock Examples.sord
  Examples.sord Examples.pord Examples.eord store (Some v) Examples.w0).
Local Abbreviation secret := (Helpers.mkNN "ns" "s").

Lemma BuildResources_closed_witness :
  ∃ res w', run Examples.vs st = (Ok res, w') ∧ cName <$> Updater.RClusters res = ["c1"] ∧
    Updater.RFilterChain res ≠ [].
Proof.
  destruct (run Examples.vs st) as [[res|] w'] eqn:Hr; [|vm_compute in Hr; discriminate Hr].
  exists res, w'. split; [reflexivity|]. split.
  - vm_compute in Hr. injection Hr as <- _. reflexivity.
  - refine (proj1 (BuildResources_closed Examples.clk Examples.clock Examples.sord Examples.sord
      Examples.pord Examples.eord st Examples.vs Examples.w0 res w' _ Hr)).
    apply Store.spec_named_history.
Defined.

Lemma BuildResources_secrets_witness :
  ∃ res w', run Examples.vs st = (Ok res, w') ∧ Updater.RUsedSecrets res = [secret] ∧
    ∃ fc, fc ∈ Updater.RFilterChain res ∧ FilterChains.presents fc secret.
Proof.
  destruct (run Examples.vs st) as [[res|] w'] eqn:Hr; [|vm_compute in Hr; discriminate Hr].
  exists res, w'. split; [reflexivity|].
  assert (Updater.RUsedSecrets res = [secret]) as Hs by (vm_compute in Hr; injection Hr as <- _; reflexivity).
  assert (∃ rc, Updater.RRouteConfig res = Some rc) as [rc Hrc]
    by (vm_compute in Hr; injection Hr as <- _; eexists; reflexivity).
  split; [exact Hs|].
  apply (proj2 (proj2 (proj2 (BuildResources_secrets Examples.clk Examples.clock Examples.sord Examples.sord
    Examples.pord Examples.eord st Examples.vs Examples.w0 res w' rc
    (λ m, Permutation_refl _) (λ m, Permutation_refl _) Hr Hrc)))).
  rewrite Hs. left.
Defined.

Lemma rebuild_serves_references_witness :
  let build := λ v store, (run v store).1 in
  let b := Updater.buildSnapshots build (λ _, None) elements Mixer.listener_entries false
             SnapshotCache.NewSnapshotCache st [Examples.vs] in
  ∃ res snap rc, build Examples.vs st = Ok res ∧
    SnapshotCache.GetSnapshot (Updater.bCache b) "n1" = Ok snap ∧
    GetResources snap RouteType !! "ns/a" = Some (ResRoute rc).
Proof.
  intros build b.
  destruct (rebuild_serves_references build (λ _, None) elements Mixer.listener_entries false Examples.history
    Examples.pem Examples.x509 SnapshotCache.NewSnapshotCache [Examples.vs] Examples.vs "n1")
    as (res & snap & Hres & Hsnap & Hall).
  - intros v. exists Examples.clk, Examples.clock, Examples.sord, Examples.sord, Examples.pord, Examples.eord,
      Examples.w0. split; [reflexivity|]. split; [reflexivity|]. reflexivity.
  - reflexivity.
  - reflexivity.
  - vm_compute. reflexivity.
  - left.
  - vm_compute. left.
  - assert (∃ rc, Updater.RRouteConfig res = Some rc) as [rc Hrc].
    { vm_compute in Hres. injection Hres as <-. eexists. reflexivity. }
    exists res, snap, rc. split; [exact Hres|]. split; [exact Hsnap|].
    apply (sv_route _ _ _ _ _ _ Hall rc Hrc). intros v ->%list_elem_of_singleton _. reflexivity.
Defined.
End witnesses.
End MainBuilder.
