(* ===== verification/Frame.v ===== *)
(** * What a build reads

    A build of a service reads the store only at the objects the service refers
    to, at the clusters and at the secrets.  Two stores that agree there build
    the same resources, with the same effect on the caches. *)

From S2P Require Import Prelude GoStrings Types Merge Api ResUtils StringPool DomainSecrets Store Lru.
From S2P Require Import Routes Secrets HttpFilters Clusters FilterChains SnapshotCache Mixer Updater.
From S2P Require Import Rebuild MainBuilder.

Module Frame.
Import Envoy.

(** ** Loops with equal bodies *)
Lemma fold_result_ext {A S} (f g : S → A → result S) s l :
  (∀ s x, x ∈ l → f s x = g s x) → fold_result f s l = fold_result g s l.
Proof.
  revert s. induction l as [|x l IH]; intros s Hfg; [done|]. cbn. rewrite Hfg by left.
  destruct (g s x); cbn; [|done]. apply IH. intros s' y Hy. apply Hfg. by right.
Qed.

(** The same for the state monad. *)
Lemma stM_bind_ext {S A B} (m1 m2 : stM S A) (f1 f2 : A → stM S B) s :
  m1 s = m2 s → (∀ a s, f1 a s = f2 a s) → (m1 ≫= f1) s = (m2 ≫= f2) s.
Proof. unfold mbind, stM_bind. intros -> Hf. destruct (m2 s) as [[a|e] s']; [apply Hf|done]. Qed.

Lemma lift_bind_Ok {S A B} (a : A) (f : A → stM S B) s : (lift (Ok a) ≫= f) s = f a s.
Proof. done. Qed.

Lemma wrap_st_ext {S A} p (m1 m2 : stM S A) s : m1 s = m2 s → wrap_st p m1 s = wrap_st p m2 s.
Proof. unfold wrap_st. by intros ->. Qed.

Lemma with_filters_ext {A} (f g : HttpFilters.Cache → result A * HttpFilters.Cache) w :
  (∀ c, f c = g c) → MainBuilder.with_filters f w = MainBuilder.with_filters g w.
Proof. unfold MainBuilder.with_filters. by intros ->. Qed.
Lemma with_clusters_ext {A} (f g : Clusters.Cache → result A * Clusters.Cache) w :
  (∀ c, f c = g c) → MainBuilder.with_clusters f w = MainBuilder.with_clusters g w.
Proof. unfold MainBuilder.with_clusters. by intros ->. Qed.
Lemma on_copy_ext {A} b (m1 m2 : stM MainBuilder.World A) w :
  m1 w = m2 w → MainBuilder.on_copy b m1 w = MainBuilder.on_copy b m2 w.
Proof. unfold MainBuilder.on_copy. by intros ->. Qed.

(** ** The objects a service refers to *)
(** A reference of a service, resolved in its namespace. *)
Definition resolve_ref (vs : VirtualService) (ref : ResourceRef) : NN :=
  Helpers.mkNN (Helpers.GetNamespace (refNamespace ref) (Namespace (meta vs))) (refName ref).

Definition policy_refs (c : CommonSpec) : list ResourceRef :=
  match RBAC c with Some r => AdditionalPolicies r | None => [] end.
Definition log_refs (c : CommonSpec) : list ResourceRef :=
  option_list (AccessLogConfigRef c) ++ AccessLogConfigRefs c.

(** The two stores agree on everything a build of [vs] reads once its template
    has been applied. *)
Record agree (st1 st2 : Store.OptimizedStore) (vs : VirtualService) : Prop := {
  ag_spec : Store.specClusters st1 = Store.specClusters st2;
  ag_secrets : Store.secrets st1 = Store.secrets st2;
  ag_domains : Store.domainSecretsIndex st1 = Store.domainSecretsIndex st2;
  ag_listener ref : ref ∈ option_list (ListenerRef (Common (vs_spec vs))) →
    Store.GetListener st1 (resolve_ref vs ref) = Store.GetListener st2 (resolve_ref vs ref);
  ag_routes ref : ref ∈ AdditionalRoutes (Common (vs_spec vs)) →
    Store.GetRoute st1 (resolve_ref vs ref) = Store.GetRoute st2 (resolve_ref vs ref);
  ag_filters ref : ref ∈ AdditionalHttpFilters (Common (vs_spec vs)) →
    Store.GetHTTPFilter st1 (resolve_ref vs ref) = Store.GetHTTPFilter st2 (resolve_ref vs ref);
  ag_policies ref : ref ∈ policy_refs (Common (vs_spec vs)) →
    Store.GetPolicy st1 (resolve_ref vs ref) = Store.GetPolicy st2 (resolve_ref vs ref);
  ag_logs ref : ref ∈ log_refs (Common (vs_spec vs)) →
    Store.GetAccessLog st1 (resolve_ref vs ref) = Store.GetAccessLog st2 (resolve_ref vs ref);
  ag_tracing ref : ref ∈ option_list (TracingRef (Common (vs_spec vs))) →
    Store.GetTracing st1 (resolve_ref vs ref) = Store.GetTracing st2 (resolve_ref vs ref)
}.

Section frame.
Context {ML : MainBuilder.MainLib} {JL : Api.JsonLib} {SHA : Sha256} {FL : HttpFilters.FilterLib}
  {CL : Clusters.ClusterLib} {CHL : FilterChains.ChainLib}
  {P1 : ProtoMessage HttpFilterV3} {P2 : ProtoMessage HttpFilters.PolicyV3}
  {P3 : ProtoMessage VirtualHost} {P4 : ProtoMessage RouteV3} {P5 : ProtoMessage RouteConfiguration}
  {P6 : ProtoMessage ClusterV3} {P7 : ProtoMessage ListenerV3} {P8 : ProtoMessage AccessLogV3}
  {P9 : ProtoMessage TracingV3} {P10 : ProtoMessage UpgradeConfigV3} {P11 : ProtoMessage Http2OptionsV3}
  {P12 : ProtoMessage HCM} {P13 : ProtoMessage FilterChain}.
Context (clk : nat → Lru.Time) (clock : string → DomainSecrets.Time).
Context (sord kord : gmap NN (list string) → list (NN * list string)).
Context (pord : gmap string RawExtension → list (string * RawExtension)).
Context (eord : gmap string string → list string).
Context (st1 st2 : Store.OptimizedStore) (vs : VirtualService).

(** Both stores have the same services to offer to [vs]. *)
Record same_inputs : Prop := {
  si_template : MainBuilder.applyVirtualServiceTemplate eord st1 vs =
                MainBuilder.applyVirtualServiceTemplate eord st2 vs;
  si_agree vs' : MainBuilder.applyVirtualServiceTemplate eord st1 vs = Ok vs' → agree st1 st2 vs'
}.

(** *** Clusters *)
Section clusters.
Hypothesis Hspec : Store.specClusters st1 = Store.specClusters st2.
Lemma GetSpecCluster_eq n : Store.GetSpecCluster st1 n = Store.GetSpecCluster st2 n.
Proof using Hspec. unfold Store.GetSpecCluster. by rewrite Hspec. Qed.

Lemma getClustersByNames_eq names :
  Clusters.getClustersByNames st1 names = Clusters.getClustersByNames st2 names.
Proof using Hspec.
  apply map_result_ext. intros n _. unfold Clusters.getClusterByName. by rewrite GetSpecCluster_eq.
Qed.

Lemma writeClusterGenerations_eq names :
  Clusters.writeClusterGenerations st1 names = Clusters.writeClusterGenerations st2 names.
Proof using Hspec.
  unfold Clusters.writeClusterGenerations. f_equal. apply list_fmap_ext. intros i n _.
  by rewrite GetSpecCluster_eq.
Qed.

Lemma FromVirtualHostRoutes_eq vh :
  Clusters.FromVirtualHostRoutes st1 vh = Clusters.FromVirtualHostRoutes st2 vh.
Proof using Hspec. unfold Clusters.FromVirtualHostRoutes. by rewrite getClustersByNames_eq. Qed.

Lemma FromOAuth2_eq c now fs :
  Clusters.FromOAuth2HTTPFilters st1 c now fs = Clusters.FromOAuth2HTTPFilters st2 c now fs.
Proof using Hspec.
  unfold Clusters.FromOAuth2HTTPFilters, Clusters.generateOAuth2CacheKey.
  rewrite writeClusterGenerations_eq. erewrite map_result_ext; [done|].
  intros tc _. cbn. destruct (Clusters.oauth2_names tc); cbn; [|done]. by rewrite getClustersByNames_eq.
Qed.

Lemma tracing_clusters_eq data : Clusters.tracing_clusters st1 data = Clusters.tracing_clusters st2 data.
Proof using Hspec.
  unfold Clusters.tracing_clusters. destruct data as [data|]; [|done]. by rewrite getClustersByNames_eq.
Qed.

Lemma raw_tracing_eq (r : result (option Merge.json)) :
  (data ← r; Clusters.tracing_clusters st1 data) = (data ← r; Clusters.tracing_clusters st2 data).
Proof using Hspec. destruct r; cbn; [apply tracing_clusters_eq|done]. Qed.

Lemma FromTracingRaw_eq c now tr :
  Clusters.FromTracingRaw st1 c now tr = Clusters.FromTracingRaw st2 c now tr.
Proof using Hspec.
  unfold Clusters.FromTracingRaw, Clusters.generateTracingRawCacheKey. destruct tr as [tr|]; [|done].
  by rewrite writeClusterGenerations_eq, raw_tracing_eq.
Qed.

Lemma resolve_eq r : Clusters.resolve st1 r = Clusters.resolve st2 r.
Proof using Hspec. unfold Clusters.resolve. by rewrite GetSpecCluster_eq. Qed.

Lemma ExtractClusters_eq fcs :
  Clusters.ExtractClustersFromFilterChains st1 fcs = Clusters.ExtractClustersFromFilterChains st2 fcs.
Proof using Hspec.
  unfold Clusters.ExtractClustersFromFilterChains. destruct (map_result _ (fcs ≫= fcFilters)) as [rs|]; cbn; [|done].
  by rewrite (map_result_ext _ _ _ (λ r _, resolve_eq r)).
Qed.

Lemma validate_route_eq r :
  Routes.validateRouteClusterReferences st1 r = Routes.validateRouteClusterReferences st2 r.
Proof using Hspec.
  unfold Routes.validateRouteClusterReferences.
  destruct (rAction r) as [[[[c|[cs|]|]|] ?| | |]|]; try done; [by rewrite GetSpecCluster_eq|].
  erewrite map_result_ext; [done|]. intros c _. unfold Routes.check_weighted. by rewrite GetSpecCluster_eq.
Qed.
End clusters.

(** *** The parts of a build, on stores that agree on [vs] *)
Section parts.
Hypothesis Hag : agree st1 st2 vs.

Lemma routes_of_ref_eq ref : ref ∈ AdditionalRoutes (Common (vs_spec vs)) →
  Routes.routes_of_ref st1 (Namespace (meta vs)) ref = Routes.routes_of_ref st2 (Namespace (meta vs)) ref.
Proof using Hag.
  intros Hin. unfold Routes.routes_of_ref. pose proof (ag_routes _ _ _ Hag ref Hin) as Hr.
  unfold resolve_ref in Hr. rewrite Hr. destruct (Store.GetRoute st2 _) as [route|]; [|done].
  apply map_result_ext. intros p _. unfold Routes.build_route.
  destruct (wrap_err _ (pb_unmarshal _)); cbn; [|done]. by rewrite validate_route_eq by apply Hag.
Qed.

Lemma BuildRouteConfiguration_eq l nn :
  Routes.BuildRouteConfiguration st1 vs l nn = Routes.BuildRouteConfiguration st2 vs l nn.
Proof using Hag.
  unfold Routes.BuildRouteConfiguration, Routes.BuildVirtualHost, Routes.buildAdditionalRoutes.
  by rewrite (map_result_ext _ _ _ routes_of_ref_eq).
Qed.

Lemma BuildRBACFilter_eq : HttpFilters.BuildRBACFilter pord st1 vs = HttpFilters.BuildRBACFilter pord st2 vs.
Proof using Hag.
  unfold HttpFilters.BuildRBACFilter. destruct (RBAC (Common (vs_spec vs))) as [rbac|] eqn:Hr; [|done].
  destruct (decide _); [done|]. destruct (_ !! _); [|done]. destruct (decide _); [done|].
  destruct (fold_result HttpFilters.inline_policy _ _) as [ps|]; cbn; [|done].
  erewrite fold_result_ext; [done|]. intros s ref Hin. unfold HttpFilters.additional_policy.
  pose proof (ag_policies _ _ _ Hag ref) as Hp. unfold policy_refs in Hp. rewrite Hr in Hp.
  unfold HttpFilters.ref_name. specialize (Hp Hin). unfold resolve_ref in Hp. by rewrite Hp.
Qed.

Lemma build_filters_eq : HttpFilters.build_filters pord st1 vs = HttpFilters.build_filters pord st2 vs.
Proof using Hag.
  unfold HttpFilters.build_filters, HttpFilters.rbac_filter. rewrite BuildRBACFilter_eq.
  erewrite (map_result_ext (HttpFilters.referenced_filters st1 vs)); [done|].
  intros ref Hin. unfold HttpFilters.referenced_filters, HttpFilters.ref_name.
  pose proof (ag_filters _ _ _ Hag ref Hin) as Hf. unfold resolve_ref in Hf. by rewrite Hf.
Qed.

Lemma filters_key_eq :
  HttpFilters.generateHTTPFiltersCacheKey st1 vs = HttpFilters.generateHTTPFiltersCacheKey st2 vs.
Proof using Hag.
  unfold HttpFilters.generateHTTPFiltersCacheKey, HttpFilters.cache_input. do 3 f_equal. f_equal.
  apply list_fmap_ext. intros i ref Hi%list_elem_of_lookup_2. unfold HttpFilters.ref_name.
  pose proof (ag_filters _ _ _ Hag ref Hi) as Hf. unfold resolve_ref in Hf. by rewrite Hf.
Qed.

Lemma BuildHTTPFilters_eq c now :
  HttpFilters.BuildHTTPFilters pord st1 c now vs = HttpFilters.BuildHTTPFilters pord st2 c now vs.
Proof using Hag.
  unfold HttpFilters.BuildHTTPFilters. by rewrite filters_key_eq, build_filters_eq.
Qed.

Lemma configureTracing_eq : FilterChains.configureTracing st1 vs = FilterChains.configureTracing st2 vs.
Proof using Hag.
  unfold FilterChains.configureTracing. pose proof (ag_tracing _ _ _ Hag) as Ht.
  destruct (TracingRaw _), (TracingRef (Common (vs_spec vs))) as [ref|]; try done.
  unfold FilterChains.resolveTracingRef. specialize (Ht ref (list_elem_of_here _ _)).
  unfold resolve_ref in Ht. by rewrite Ht.
Qed.

Lemma log_of_ref_eq ref : ref ∈ log_refs (Common (vs_spec vs)) →
  FilterChains.log_of_ref st1 vs ref = FilterChains.log_of_ref st2 vs ref.
Proof using Hag.
  intros Hin. unfold FilterChains.log_of_ref. pose proof (ag_logs _ _ _ Hag ref Hin) as Hl.
  unfold resolve_ref in Hl. by rewrite Hl.
Qed.

Lemma configureAccessLogs_eq : FilterChains.configureAccessLogs st1 vs = FilterChains.configureAccessLogs st2 vs.
Proof using Hag.
  unfold FilterChains.configureAccessLogs, FilterChains.processDeprecatedAccessLogConfig,
    FilterChains.processAccessLogConfigRefs.
  pose proof log_of_ref_eq as Hl. unfold log_refs in Hl.
  rewrite (map_result_ext (FilterChains.log_of_ref st1 vs) (FilterChains.log_of_ref st2 vs)).
  2:{ intros ref Hin. apply Hl. apply elem_of_app. by right. }
  destruct (AccessLogConfigRef _) as [ref|]; [|done].
  rewrite (Hl ref); [done|]. apply elem_of_app. left. cbn. left.
Qed.

Lemma discover_eq ns m d : Secrets.discover st1 clock ns m d = Secrets.discover st2 clock ns m d.
Proof using Hag.
  unfold Secrets.discover, Secrets.domain_secret, Store.GetDomainSecretWithWildcardFallbackInfo.
  by rewrite (ag_secrets _ _ _ Hag), (ag_domains _ _ _ Hag).
Qed.

Lemma configureTLS_eq tls vh :
  FilterChains.configureTLS st1 clock vs tls vh = FilterChains.configureTLS st2 clock vs tls vh.
Proof using Hag.
  unfold FilterChains.configureTLS, Secrets.GetSecretNameToDomains,
    Secrets.getSecretNameToDomainsViaAutoDiscovery.
  by erewrite (fold_result_ext (Secrets.discover st1 clock _)) by (intros; apply discover_eq).
Qed.

Lemma BuildFilterChainParams_eq nn fs tls vh :
  FilterChains.BuildFilterChainParams st1 clock vs nn fs tls vh =
  FilterChains.BuildFilterChainParams st2 clock vs nn fs tls vh.
Proof using Hag.
  unfold FilterChains.BuildFilterChainParams. by rewrite configureTracing_eq, configureAccessLogs_eq, configureTLS_eq.
Qed.

Lemma FromTracingRef_eq c now : Clusters.FromTracingRef st1 c now vs = Clusters.FromTracingRef st2 c now vs.
Proof using Hag.
  unfold Clusters.FromTracingRef, Clusters.generateTracingRefCacheKey, Clusters.tracing_ref.
  pose proof (ag_tracing _ _ _ Hag) as Ht. destruct (TracingRef _) as [ref|]; [|done].
  specialize (Ht ref (list_elem_of_here _ _)). unfold resolve_ref in Ht. rewrite Ht.
  destruct (Store.GetTracing st2 _) as [t|]; [|done].
  rewrite writeClusterGenerations_eq by apply Hag. destruct (t_spec t); [|done].
  by rewrite raw_tracing_eq by apply Hag.
Qed.

Lemma build_tls_eq tls m : MainBuilder.build_tls kord st1 vs tls m = MainBuilder.build_tls kord st2 vs tls m.
Proof using Hag.
  unfold MainBuilder.build_tls. destruct (_ && _); [|done]. erewrite map_result_ext; [done|].
  intros n _. cbn. unfold MainBuilder.buildSecret, Store.GetSecret. by rewrite (ag_secrets _ _ _ Hag).
Qed.

Lemma from_virtual_service_eq l lnn nn w :
  MainBuilder.buildResourcesFromVirtualService clk clock sord kord pord st1 vs l lnn nn w =
  MainBuilder.buildResourcesFromVirtualService clk clock sord kord pord st2 vs l lnn nn w.
Proof using Hag.
  unfold MainBuilder.buildResourcesFromVirtualService. pose proof (ag_spec _ _ _ Hag) as Hspec.
  apply stM_bind_ext; [apply wrap_st_ext, with_filters_ext; intros c; apply BuildHTTPFilters_eq|].
  intros fs w1. apply stM_bind_ext; [by rewrite BuildRouteConfiguration_eq|].
  intros [vh rc] w2. apply stM_bind_ext; [by rewrite BuildFilterChainParams_eq|].
  intros ps w3. apply stM_bind_ext; [done|]. intros fcs w4.
  apply stM_bind_ext; [by rewrite (FromVirtualHostRoutes_eq Hspec)|]. intros c1 w5.
  apply stM_bind_ext; [apply wrap_st_ext, with_clusters_ext; intros c; by apply FromOAuth2_eq|].
  intros c2 w6. apply stM_bind_ext.
  { destruct (TracingRaw _); [|done]. apply wrap_st_ext, with_clusters_ext. intros c. by apply FromTracingRaw_eq. }
  intros c3 w7. apply stM_bind_ext.
  { destruct (TracingRef _); [|done]. apply wrap_st_ext, with_clusters_ext. intros c. apply FromTracingRef_eq. }
  intros c4 w8. apply stM_bind_ext; [by rewrite build_tls_eq|done].
Qed.

Lemma buildListener_eq lnn : Api.GetListenerNamespacedName vs = Ok lnn →
  MainBuilder.buildListener st1 lnn = MainBuilder.buildListener st2 lnn.
Proof using Hag.
  unfold Api.GetListenerNamespacedName, MainBuilder.buildListener.
  pose proof (ag_listener _ _ _ Hag) as Hl. destruct (ListenerRef _) as [ref|]; [|done].
  intros [= <-]. specialize (Hl ref (list_elem_of_here _ _)). unfold resolve_ref in Hl. by rewrite Hl.
Qed.
End parts.
End frame.

Section build.
Context {ML : MainBuilder.MainLib} {JL : Api.JsonLib} {SHA : Sha256} {FL : HttpFilters.FilterLib}
  {CL : Clusters.ClusterLib} {CHL : FilterChains.ChainLib}
  {P1 : ProtoMessage HttpFilterV3} {P2 : ProtoMessage HttpFilters.PolicyV3}
  {P3 : ProtoMessage VirtualHost} {P4 : ProtoMessage RouteV3} {P5 : ProtoMessage RouteConfiguration}
  {P6 : ProtoMessage ClusterV3} {P7 : ProtoMessage ListenerV3} {P8 : ProtoMessage AccessLogV3}
  {P9 : ProtoMessage TracingV3} {P10 : ProtoMessage UpgradeConfigV3} {P11 : ProtoMessage Http2OptionsV3}
  {P12 : ProtoMessage HCM} {P13 : ProtoMessage FilterChain}.
Context (clk : nat → Lru.Time) (clock : string → DomainSecrets.Time).
Context (sord kord : gmap NN (list string) → list (NN * list string)).
Context (pord : gmap string RawExtension → list (string * RawExtension)).
Context (eord : gmap string string → list string).

(** A service is built the same from two stores that offer it the same template
    and agree on the references of the service filled from it. *)
Lemma build_frame st1 st2 vs w :
  same_inputs eord st1 st2 vs →
  MainBuilder.resbuilder_BuildResources clk clock sord kord pord eord st1 (Some vs) w =
  MainBuilder.resbuilder_BuildResources clk clock sord kord pord eord st2 (Some vs) w.
Proof using Type.
  intros [Ht Hag]. unfold MainBuilder.resbuilder_BuildResources, MainBuilder.ResourceBuilder_BuildResources.
  enough (∀ w, MainBuilder.BuildResources clk clock sord kord pord eord st1 vs w =
    MainBuilder.BuildResources clk clock sord kord pord eord st2 vs w) as -> by done.
  clear w. intros w. unfold MainBuilder.BuildResources. apply stM_bind_ext; [done|].
  intros [r|] w1; [done|]. unfold MainBuilder.build_service. rewrite Ht in Hag |- *.
  destruct (MainBuilder.applyVirtualServiceTemplate eord st2 vs) as [vs'|e].
  2:{ by destruct (wrap_err _ _) as [?|] eqn:He; [apply wrap_err_Ok in He|]. }
  specialize (Hag vs' eq_refl). cbn [wrap_err]. rewrite !lift_bind_Ok.
  destruct (Api.GetListenerNamespacedName vs') as [lnn|e] eqn:Hl; [|by destruct e].
  cbn [wrap_err]. rewrite !lift_bind_Ok, (buildListener_eq st1 st2 vs' Hag lnn Hl).
  destruct (MainBuilder.buildListener st2 lnn) as [l|e]; [|by destruct e].
  cbn [wrap_err]. rewrite !lift_bind_Ok. case_decide.
  - unfold MainBuilder.buildResourcesFromExistingFilterChains. by rewrite (ExtractClusters_eq st1 st2) by apply Hag.
  - apply stM_bind_ext; [|done]. apply on_copy_ext, wrap_st_ext. by apply from_virtual_service_eq.
Qed.

(** A service without a template reads only its own references. *)
Lemma same_inputs_plain st1 st2 vs :
  Template (vs_spec vs) = None → agree st1 st2 vs → same_inputs eord st1 st2 vs.
Proof using Type.
  intros Ht Hag. split; unfold MainBuilder.applyVirtualServiceTemplate; rewrite Ht; [done|].
  by intros vs' [= <-].
Qed.
End build.
End Frame.
