(* ===== verification/Webhooks.v ===== *)
(** * [internal/webhook/v1alpha1]: admission of objects

    The validators of the ten kinds: an object handed to a create or update
    validator is decoded and checked; a delete validator refuses an object that
    services or templates of its namespace still name.  The Kubernetes client is
    the record [Client] of its answers, the updater the record [vsUpdater] (the
    interface of that name), of which [updater_of] is the implementation by the
    cache updater.  A context is the sequence of its answers to [ctx.Err()]. *)

From S2P Require Import Prelude GoStrings Types Merge StringPool Api DomainSecrets ResUtils Store.
From S2P Require Import HttpFilters FilterChains SnapshotCache Mixer Updater.
From Stdlib Require Import Ascii.

Module Webhooks.
Import Envoy.

(** ** Go's standard library *)
(** [%s] and [%v] of a slice of strings. *)
Definition fmt_strings (l : list string) : string := "[" +:+ String.concat " " l +:+ "]".

(** [errors.Is] for a sentinel error, which is known by its text. *)
Fixpoint errors_Is (err : error) (target : string) : bool :=
  match err with
  | ErrNew m => bool_decide (m = target)
  | ErrWrap _ i => errors_Is i target
  | ErrMulti es => existsb (λ e, errors_Is e target) es
  | ErrPanic _ => false
  end.
Definition DeadlineExceeded : string := "context deadline exceeded".

(** [time.Duration.String] of nanoseconds: the digits of a fraction of [prec]
    digits without trailing zeros, after a dot if there are any. *)
Fixpoint fmtFrac (prec : nat) (v : Z) (acc : string) : string :=
  match prec with
  | 0 => if decide (acc = "") then "" else "." +:+ acc
  | S prec =>
      let digit := (v `mod` 10)%Z in
      fmtFrac prec (v / 10)%Z
        (if decide (acc = "" ∧ digit = 0%Z) then "" else GoStrings.Itoa digit +:+ acc)
  end.
Definition micro : string := String (Ascii.ascii_of_nat 194) (String (Ascii.ascii_of_nat 181) "").
Definition Duration_String (d : Z) : string :=
  let u := Z.abs d in
  let sign := if decide (d < 0)%Z then "-" else "" in
  if decide (u = 0)%Z then "0s"
  else if decide (u < 1000000000)%Z then
    sign +:+
    (if decide (u < 1000)%Z then GoStrings.Itoa u +:+ "ns"
     else if decide (u < 1000000)%Z then
       GoStrings.Itoa (u / 1000) +:+ fmtFrac 3 u "" +:+ micro +:+ "s"
     else GoStrings.Itoa (u / 1000000) +:+ fmtFrac 6 u "" +:+ "ms")
  else
    let s := (u / 1000000000)%Z in
    let seconds := GoStrings.Itoa (s `mod` 60) +:+ fmtFrac 9 u "" +:+ "s" in
    let m := (s / 60)%Z in
    if decide (0 < m)%Z then
      let minutes := GoStrings.Itoa (m `mod` 60) +:+ "m" +:+ seconds in
      let h := (m / 60)%Z in
      sign +:+ (if decide (0 < h)%Z then GoStrings.Itoa h +:+ "h" +:+ minutes else minutes)
    else sign +:+ seconds.

(** ** Objects and the client *)
(** [runtime.Object]: the kinds, or another object with its Go type. *)
Inductive K8sObject :=
| KCluster (c : Cluster) | KRoute (r : Route) | KListener (l : Listener) | KHttpFilter (h : HttpFilter)
| KPolicy (p : Policy) | KAccessLogConfig (a : AccessLogConfig) | KTracing (t : Tracing)
| KSecret (s : Secret) | KTemplate (t : VirtualServiceTemplate) | KVirtualService (v : VirtualService)
| KOther (go_type : string).

(** [%T] *)
Definition go_type (o : K8sObject) : string :=
  match o with
  | KCluster _ => "*v1alpha1.Cluster" | KRoute _ => "*v1alpha1.Route"
  | KListener _ => "*v1alpha1.Listener" | KHttpFilter _ => "*v1alpha1.HttpFilter"
  | KPolicy _ => "*v1alpha1.Policy" | KAccessLogConfig _ => "*v1alpha1.AccessLogConfig"
  | KTracing _ => "*v1alpha1.Tracing" | KSecret _ => "*v1.Secret"
  | KTemplate _ => "*v1alpha1.VirtualServiceTemplate" | KVirtualService _ => "*v1alpha1.VirtualService"
  | KOther t => t
  end.
(** [x, ok := obj.(T); if !ok { return nil, fmt.Errorf("expected a ... object but got %T", obj) }] *)
Definition expect {A} (what : string) (o : K8sObject) (x : option A) : result A :=
  match x with
  | Some a => Ok a
  | None => Err (ErrNew ("expected a " +:+ what +:+ " but got " +:+ go_type o))
  end.
Definition as_Cluster (o : K8sObject) : option Cluster := if o is KCluster x then Some x else None.
Definition as_Route (o : K8sObject) : option Route := if o is KRoute x then Some x else None.
Definition as_Listener (o : K8sObject) : option Listener := if o is KListener x then Some x else None.
Definition as_HttpFilter (o : K8sObject) : option HttpFilter := if o is KHttpFilter x then Some x else None.
Definition as_Policy (o : K8sObject) : option Policy := if o is KPolicy x then Some x else None.
Definition as_AccessLogConfig (o : K8sObject) : option AccessLogConfig :=
  if o is KAccessLogConfig x then Some x else None.
Definition as_Tracing (o : K8sObject) : option Tracing := if o is KTracing x then Some x else None.
Definition as_Secret (o : K8sObject) : option Secret := if o is KSecret x then Some x else None.
Definition as_Template (o : K8sObject) : option VirtualServiceTemplate :=
  if o is KTemplate x then Some x else None.
Definition as_VirtualService (o : K8sObject) : option VirtualService :=
  if o is KVirtualService x then Some x else None.

(** [client.Client]: the answers to [List] in a namespace and to [Get]. *)
Record Client := mkClient {
  ListVirtualServices : string → result (list VirtualService);
  ListVirtualServiceTemplates : string → result (list VirtualServiceTemplate);
  ListRoutes : string → result (list Route);
  ListTracings : string → result (list Tracing);
  GetTracing : NN → result Tracing
}.

(** [admission.Warnings]; nil is the empty list. *)
Abbreviation Warnings := (list string).

(** [if _, err := ...; err != nil { return nil, err }; return nil, nil] *)
Definition admit_if {A} (r : result A) : result Warnings := _ ← r; Ok [].

(** [if len(names) > 0 { return nil, fmt.Errorf("cannot delete ...", ...) }] *)
Definition refuse (what : string) (names : list string) : result unit :=
  fail_if (bool_decide (0 < length names)) (ErrNew ("cannot delete " +:+ what +:+ " " +:+ fmt_strings names)).
Definition still (kind name by_kind : string) : string :=
  kind +:+ " " +:+ name +:+ " because it is still referenced by " +:+ by_kind +:+ "(s)".

(** The services and templates of a namespace. *)
Definition list_vs (cl : Client) (ns : string) : result (list VirtualService) :=
  wrap_err "failed to list VirtualService resources" (ListVirtualServices cl ns).
Definition list_vst (cl : Client) (ns : string) : result (list VirtualServiceTemplate) :=
  wrap_err "failed to list VirtualServiceTemplate resources" (ListVirtualServiceTemplates cl ns).

(** A slice of references holds one with the name; an optional reference has it. *)
Definition names_ref (name : string) (refs : list ResourceRef) : bool :=
  existsb (λ r, bool_decide (refName r = name)) refs.
Definition opt_named (name : string) (ref : option ResourceRef) : bool :=
  match ref with Some r => bool_decide (refName r = name) | None => false end.

Definition vst_name (vst : VirtualServiceTemplate) : string := Name (meta vst).
Definition vs_name (vs : VirtualService) : string := Name (meta vs).

(** ** [route_webhook.go] *)
Section route.
Context `{!ProtoMessage RouteV3}.
Definition Route_ValidateCreate (obj : K8sObject) : result Warnings :=
  route ← expect "Route object" obj (as_Route obj); admit_if (Api.Route_UnmarshalV3AndValidate route).
Definition Route_ValidateUpdate (newObj : K8sObject) : result Warnings :=
  route ← expect "Route object for the newObj" newObj (as_Route newObj);
  admit_if (Api.Route_UnmarshalV3AndValidate route).
End route.
Definition Route_ValidateDelete (cl : Client) (obj : K8sObject) : result Warnings :=
  route ← expect "Route object" obj (as_Route obj);
  let name := Name (meta route) in
  vss ← list_vs cl (Namespace (meta route));
  _ ← refuse (still "Route" name "VirtualService")
        (vs_name <$> filter (λ vs, names_ref name (AdditionalRoutes (Common (vs_spec vs)))) vss);
  vsts ← list_vst cl (Namespace (meta route));
  _ ← refuse (still "Route" name "VirtualServiceTemplate")
        (vst_name <$> filter (λ vst, names_ref name (AdditionalRoutes (vst_common vst))) vsts);
  Ok [].

(** ** [listener_webhook.go] *)
Section listener.
Context `{!ProtoMessage ListenerV3}.
Definition listener_check (listener : Listener) : result Warnings :=
  match Api.Listener_UnmarshalV3AndValidate listener with (_, Some err) => Err err | (_, None) => Ok [] end.
Definition Listener_ValidateCreate (obj : K8sObject) : result Warnings :=
  listener ← expect "Listener object" obj (as_Listener obj); listener_check listener.
Definition Listener_ValidateUpdate (newObj : K8sObject) : result Warnings :=
  listener ← expect "Listener object for the newObj" newObj (as_Listener newObj); listener_check listener.
End listener.
Definition Listener_ValidateDelete (cl : Client) (obj : K8sObject) : result Warnings :=
  listener ← expect "Listener object" obj (as_Listener obj);
  let name := Name (meta listener) in
  vss ← list_vs cl (Namespace (meta listener));
  _ ← refuse (still "Listener" name "VirtualService")
        (Api.GetLabelName <$> filter (λ vs, opt_named name (ListenerRef (Common (vs_spec vs)))) vss);
  vsts ← list_vst cl (Namespace (meta listener));
  _ ← refuse (still "Listener" name "VirtualServiceTemplate")
        (vst_name <$> filter (λ vst, opt_named name (ListenerRef (vst_common vst))) vsts);
  Ok [].

(** ** [httpfilter_webhook.go] *)
Section http_filter.
Context `{!ProtoMessage HttpFilterV3}.
Definition HttpFilter_ValidateCreate (obj : K8sObject) : result Warnings :=
  httpfilter ← expect "HttpFilter object" obj (as_HttpFilter obj);
  admit_if (Api.HttpFilter_UnmarshalV3AndValidate httpfilter).
Definition HttpFilter_ValidateUpdate (newObj : K8sObject) : result Warnings :=
  httpfilter ← expect "HttpFilter object for the newObj" newObj (as_HttpFilter newObj);
  admit_if (Api.HttpFilter_UnmarshalV3AndValidate httpfilter).
End http_filter.
(** The inner loop has no [continue]: a name is listed once per reference. *)
Definition per_ref {A} (name : string) (refs : A → list ResourceRef) (label : A → string) (l : list A)
  : list string :=
  l ≫= (λ x, (λ _, label x) <$> filter (λ r, refName r = name) (refs x)).
Definition HttpFilter_ValidateDelete (cl : Client) (obj : K8sObject) : result Warnings :=
  httpfilter ← expect "HttpFilter object" obj (as_HttpFilter obj);
  let name := Name (meta httpfilter) in
  vss ← list_vs cl (Namespace (meta httpfilter));
  _ ← refuse (still "HttpFilter" name "VirtualService")
        (per_ref name (λ vs, AdditionalHttpFilters (Common (vs_spec vs))) Api.GetLabelName vss);
  vsts ← wrap_err "failed to list VirtualService resources"
           (ListVirtualServiceTemplates cl (Namespace (meta httpfilter)));
  _ ← refuse (still "HttpFilter" name "VirtualServiceTemplate")
        (per_ref name (λ vst, AdditionalHttpFilters (vst_common vst)) vst_name vsts);
  Ok [].

(** ** [policy_webhook.go] *)
Section policy.
Context `{!ProtoMessage HttpFilters.PolicyV3}.
Definition Policy_ValidateCreate (obj : K8sObject) : result Warnings :=
  policy ← expect "Policy object" obj (as_Policy obj);
  admit_if (Api.Policy_UnmarshalV3AndValidate (M := HttpFilters.PolicyV3) policy).
Definition Policy_ValidateUpdate (newObj : K8sObject) : result Warnings :=
  policy ← expect "Policy object for the newObj" newObj (as_Policy newObj);
  admit_if (Api.Policy_UnmarshalV3AndValidate (M := HttpFilters.PolicyV3) policy).
End policy.
Definition rbac_names (name : string) (c : CommonSpec) : bool :=
  match RBAC c with Some r => names_ref name (AdditionalPolicies r) | None => false end.
Definition Policy_ValidateDelete (cl : Client) (obj : K8sObject) : result Warnings :=
  policy ← expect "Policy object" obj (as_Policy obj);
  let name := Name (meta policy) in
  vss ← list_vs cl (Namespace (meta policy));
  _ ← refuse (still "Policy" name "VirtualService")
        (vs_name <$> filter (λ vs, rbac_names name (Common (vs_spec vs))) vss);
  vsts ← list_vst cl (Namespace (meta policy));
  _ ← refuse (still "Policy" name "VirtualServiceTemplate")
        (vst_name <$> filter (λ vst, rbac_names name (vst_common vst)) vsts);
  Ok [].

(** ** [accesslogconfig_webhook.go] *)
Section access_log.
Context {CHL : FilterChains.ChainLib} {PA : ProtoMessage AccessLogV3}.
(** Without options the file name is [access]. *)
Definition AccessLogConfig_ValidateCreate (obj : K8sObject) : result Warnings :=
  alc ← expect "AccessLogConfig object" obj (as_AccessLogConfig obj);
  admit_if (FilterChains.AccessLogConfig_UnmarshalAndValidateV3 alc "access").
Definition AccessLogConfig_ValidateUpdate (newObj : K8sObject) : result Warnings :=
  alc ← expect "AccessLogConfig object for the newObj" newObj (as_AccessLogConfig newObj);
  admit_if (FilterChains.AccessLogConfig_UnmarshalAndValidateV3 alc "access").
End access_log.
Definition AccessLogConfig_ValidateDelete (cl : Client) (obj : K8sObject) : result Warnings :=
  alc ← expect "AccessLogConfig object" obj (as_AccessLogConfig obj);
  let name := Name (meta alc) in
  vss ← list_vs cl (Namespace (meta alc));
  _ ← refuse (still "AccessLogConfig" name "VirtualService")
        (Api.GetLabelName <$> filter (λ vs, opt_named name (AccessLogConfigRef (Common (vs_spec vs)))) vss);
  vsts ← list_vst cl (Namespace (meta alc));
  _ ← refuse (still "AccessLogConfig" name "VirtualServiceTemplate")
        (vst_name <$> filter (λ vst, opt_named name (AccessLogConfigRef (vst_common vst))) vsts);
  Ok [].

(** ** [tracing_webhook.go] *)
Section tracing.
Context `{!ProtoMessage TracingV3}.
Definition tracing_check (tracing : Tracing) : result Warnings :=
  match Api.Tracing_UnmarshalV3AndValidate (M := TracingV3) tracing with
  | (_, Some err) => Err err
  | (_, None) => Ok []
  end.
Definition Tracing_ValidateCreate (obj : K8sObject) : result Warnings :=
  tracing ← expect "Tracing object" obj (as_Tracing obj); tracing_check tracing.
Definition Tracing_ValidateUpdate (newObj : K8sObject) : result Warnings :=
  tracing ← expect "Tracing object for the newObj" newObj (as_Tracing newObj); tracing_check tracing.
End tracing.
Definition Tracing_ValidateDelete (cl : Client) (obj : K8sObject) : result Warnings :=
  tracing ← expect "Tracing object" obj (as_Tracing obj);
  let name := Name (meta tracing) in
  vss ← list_vs cl (Namespace (meta tracing));
  _ ← refuse (still "Tracing" name "VirtualService")
        (Api.GetLabelName <$> filter (λ vs, opt_named name (TracingRef (Common (vs_spec vs)))) vss);
  vsts ← list_vst cl (Namespace (meta tracing));
  _ ← refuse (still "Tracing" name "VirtualServiceTemplate")
        (vst_name <$> filter (λ vst, opt_named name (TracingRef (vst_common vst))) vsts);
  Ok [].

(** ** [secret_webhook.go] *)
Section updater.
Context `{CA : CacheAPI}.

Definition Secret_ValidateCreate (obj : K8sObject) : result Warnings := Ok [].
Definition Secret_ValidateUpdate (oldObj newObj : K8sObject) : result Warnings := Ok [].
Definition Secret_ValidateDelete (updater : Updater.CacheUpdater) (obj : K8sObject) : result Warnings :=
  secret ← expect "Secret object" obj (as_Secret obj);
  let usedSecrets := Updater.GetUsedSecrets updater in
  if decide (0 < size usedSecrets) then
    let ns := if decide (Namespace (meta secret) = "") then "default" else Namespace (meta secret) in
    match usedSecrets !! Helpers.mkNN ns (Name (meta secret)) with
    | Some vs => Err (ErrNew ("secret " +:+ Name (meta secret) +:+ " is still used in virtual service: "
                              +:+ Helpers.Namespace vs +:+ "/" +:+ Helpers.Name vs))
    | None => Ok []
    end
  else Ok [].

(** ** [cluster_webhook.go] *)
Section cluster.
Context `{!ProtoMessage ClusterV3}.
Definition Cluster_ValidateCreate (cacheUpdater : Updater.CacheUpdater) (obj : K8sObject) : result Warnings :=
  cluster ← expect "Cluster object" obj (as_Cluster obj);
  clusterV3 ← Api.Cluster_UnmarshalV3AndValidate cluster;
  match Updater.GetSpecCluster cacheUpdater (cName clusterV3) with
  | Some val =>
      if decide (Name (meta val) ≠ Name (meta cluster) ∨ Namespace (meta val) ≠ Namespace (meta cluster))
      then Err (ErrNew ("cluster " +:+ cName clusterV3 +:+ " already exists"))
      else Ok []
  | None => Ok []
  end.
Definition Cluster_ValidateUpdate (newObj : K8sObject) : result Warnings :=
  cluster ← expect "Cluster object for the newObj" newObj (as_Cluster newObj);
  admit_if (Api.Cluster_UnmarshalV3AndValidate cluster).
End cluster.
End updater.

(** [json.Marshal] of a raw extension, [json.Unmarshal] into [any], and [%v] of a
    JSON value that is not a string. *)
Class WebhookLib := {
  json_Marshal_Raw : RawExtension → result string;
  json_Unmarshal_any : string → result Merge.json;
  sprint : Merge.json → string
}.

Section cluster_delete.
Context `{WL : WebhookLib} `{!ProtoMessage ClusterV3} `{!ProtoMessage RouteV3}.

Definition sprint_v (v : Merge.json) : string :=
  match v with Merge.JStr s => s | _ => sprint v end.

Fixpoint findClusterNames (data : Merge.json) (fieldName : string) : list string :=
  match data with
  | Merge.JObj m =>
      map_fold (λ k v results,
        (if decide (k = fieldName) then [sprint_v v] else []) ++ findClusterNames v fieldName ++ results) [] m
  | Merge.JArr l => concat ((λ item, findClusterNames item fieldName) <$> l)
  | _ => []
  end.

(** [routeV3.GetRoute()] is not nil and its [GetCluster()] is the name. *)
Definition routes_to (name : string) (r : RouteV3) : bool :=
  match rAction r with
  | Some (ActRoute (Some (SpecCluster c)) _) => bool_decide (c = name)
  | Some (ActRoute _ _) => bool_decide ("" = name)
  | _ => false
  end.
Definition check_route (cluster : Cluster) (name : string) (route : Route) : result unit :=
  let at_ := Namespace (meta cluster) +:+ "/" +:+ Name (meta cluster) in
  match Api.Route_UnmarshalV3AndValidate route with
  | Err e => Err (ErrNew ("failed to unmarshal routes for cluster " +:+ at_ +:+ ": " +:+ go_Error e))
  | Ok routesV3 =>
      fail_if (existsb (routes_to name) routesV3)
        (ErrNew ("route for cluster " +:+ at_ +:+ " is still in use in Route " +:+ Name (meta route)))
  end.

(** What one tracing adds to [refTracingNames]. *)
Definition tracing_names (name : string) (t : Tracing) : result (list string) :=
  match t_spec t with
  | Some spec =>
      match Raw spec with
      | Some _ =>
          jsonData ← wrap_err ("failed to marshal Tracing " +:+ Name (meta t) +:+ " spec") (json_Marshal_Raw spec);
          data ← wrap_err ("failed to unmarshal Tracing " +:+ Name (meta t) +:+ " spec")
                   (json_Unmarshal_any jsonData);
          let clusterNames :=
            findClusterNames data "cluster_name" ++ findClusterNames data "collector_cluster" in
          Ok (if decide (name ∈ clusterNames) then [Name (meta t)] else [])
      | None => Ok []
      end
  | None => Ok []
  end.

Definition Cluster_ValidateDelete (cl : Client) (obj : K8sObject) : result Warnings :=
  cluster ← expect "Cluster object" obj (as_Cluster obj);
  clusterV3 ← Api.Cluster_UnmarshalV3 cluster;
  let ns := Namespace (meta cluster) in
  let at_ := ns +:+ "/" +:+ Name (meta cluster) in
  routes ← match ListRoutes cl ns with
           | Ok routes => Ok routes
           | Err e => Err (ErrNew ("failed to list routes for cluster " +:+ at_ +:+ ": " +:+ go_Error e))
           end;
  _ ← map_result (check_route cluster (cName clusterV3)) routes;
  tracings ← wrap_err "failed to list Tracing resources" (ListTracings cl ns);
  refTracingNames ← map_result (tracing_names (cName clusterV3)) tracings;
  _ ← refuse ("Cluster " +:+ at_ +:+ " because it is still referenced by Tracing(s)") (concat refTracingNames);
  Ok [].
End cluster_delete.

(** ** [virtualservice_webhook.go] *)
Record WebhookConfig := mkConfig {
  DryRunTimeoutMS : Z; LightDryRun : bool; ValidationIndices : bool; DevMode : bool
}.
Definition skipValidationAnnotation : string := "envoy.kaasops.io/skip-validation".

(** The interface [vsUpdater]. *)
Record vsUpdater := mkVsUpdater {
  DryValidateVirtualServiceLight : VirtualService → option VirtualService → bool → result unit;
  DryBuildSnapshotsWithVirtualService : VirtualService → option error
}.

(** The cache updater as a [vsUpdater]: [r] and [ctx] are what the run leaves
    open, [order] the services in the order the light validation visits them. *)
Section updater_of.
Context `{CA : CacheAPI} `{!ProtoMessage ListenerV3}.
Context (build : VirtualService → Store.OptimizedStore → result Updater.Resources).
Definition updater_of (r : Updater.Run) (ctx : nat → option error)
    (order : Store.OptimizedStore → list VirtualService) (c : Updater.CacheUpdater) : vsUpdater :=
  mkVsUpdater
    (λ vs prevVS validationIndices,
       Updater.DryValidateVirtualServiceLight build ctx c vs prevVS validationIndices order)
    (Updater.DryBuildSnapshotsWithVirtualService build r c).
End updater_of.

(** [time.Duration(ms) * time.Millisecond] on 64 bits. *)
Definition getDryRunTimeout (config : WebhookConfig) : Z :=
  if decide (0 < DryRunTimeoutMS config)%Z then GoStrings.wrap64 (DryRunTimeoutMS config * 1000000)
  else (1000 * 1000000)%Z.
Definition getLightDryRunEnabled (config : WebhookConfig) : bool := LightDryRun config.

Definition skip_validation (config : WebhookConfig) (vs : VirtualService) : bool :=
  DevMode config && bool_decide (nilmap_get (Annotations (meta vs)) skipValidationAnnotation = Some "true").
Definition skipped : Warnings := ["Validation skipped via annotation - only available in development mode"].

(** The rule and the lookup shared by services and templates. *)
Definition tracing_xor (c : CommonSpec) : result unit :=
  fail_if (bool_decide (is_Some (TracingRaw c)) && bool_decide (is_Some (TracingRef c)))
    (ErrNew "only one of spec.tracing or spec.tracingRef may be set").
Definition tracing_name (ref : ResourceRef) : result unit :=
  fail_if (bool_decide (refName ref = ""))
    (ErrNew "spec.tracingRef.name must not be empty when spec.tracingRef is set").
Definition tracing_missing (ns : string) (ref : ResourceRef) : string :=
  "referenced Tracing " +:+ ns +:+ "/" +:+ refName ref +:+ " not found or not accessible".

Definition validateVSTracing (cl : Client) (vs : VirtualService) : result unit :=
  let c := Common (vs_spec vs) in
  _ ← tracing_xor c;
  match TracingRef c with
  | None => Ok tt
  | Some ref =>
      _ ← tracing_name ref;
      let ns := Helpers.GetNamespace (refNamespace ref) (Namespace (meta vs)) in
      _ ← wrap_err (tracing_missing ns ref) (GetTracing cl (Helpers.mkNN ns (refName ref)));
      Ok tt
  end.

Definition timeoutError (config : WebhookConfig) : error :=
  ErrNew ("validation timed out after " +:+ Duration_String (getDryRunTimeout config) +:+
          "; please retry or increase WEBHOOK_DRYRUN_TIMEOUT_MS").
Definition heavy (u : vsUpdater) (config : WebhookConfig) (vs : VirtualService) : result unit :=
  match DryBuildSnapshotsWithVirtualService u vs with
  | None => Ok tt
  | Some err =>
      if errors_Is err DeadlineExceeded then Err (timeoutError config)
      else wrap_err "failed to build snapshot with virtual service" (Err err)
  end.
Definition light (u : vsUpdater) (config : WebhookConfig) (vs : VirtualService)
    (prevVS : option VirtualService) : result unit :=
  match DryValidateVirtualServiceLight u vs prevVS (ValidationIndices config) with
  | Ok _ => Ok tt
  | Err err =>
      if errors_Is err (go_Error Updater.ErrLightValidationInsufficientCoverage) then heavy u config vs
      else if errors_Is err DeadlineExceeded then Err (timeoutError config)
      else wrap_err "light validation failed" (Err err)
  end.

Definition validateVirtualService (u : vsUpdater) (config : WebhookConfig) (cl : Client)
    (vs : VirtualService) (prevVS : option VirtualService) : result unit :=
  _ ← fail_if (bool_decide (length (Api.GetNodeIDs vs) = 0)) (ErrNew "nodeIDs is required");
  _ ← validateVSTracing cl vs;
  if getLightDryRunEnabled config then light u config vs prevVS else heavy u config vs.

Definition VirtualService_ValidateCreate (u : vsUpdater) (config : WebhookConfig) (cl : Client)
    (obj : K8sObject) : result Warnings :=
  vs ← expect "VirtualService object" obj (as_VirtualService obj);
  if skip_validation config vs then Ok skipped
  else
    _ ← wrap_err ("failed to validate VirtualService " +:+ Name (meta vs))
          (validateVirtualService u config cl vs None);
    Ok [].
Definition VirtualService_ValidateUpdate `{JL : Api.JsonLib} (u : vsUpdater) (config : WebhookConfig)
    (cl : Client) (oldObj newObj : K8sObject) : result Warnings :=
  vs ← expect "VirtualService object for the newObj" newObj (as_VirtualService newObj);
  let prevVS := as_VirtualService oldObj in
  if bool_decide (is_Some prevVS) && Api.VS_IsEqual prevVS (Some vs) then Ok []
  else if skip_validation config vs then Ok skipped
  else
    _ ← wrap_err ("failed to validate VirtualService " +:+ Name (meta vs))
          (validateVirtualService u config cl vs prevVS);
    Ok [].
Definition VirtualService_ValidateDelete (obj : K8sObject) : result Warnings := Ok [].

(** ** [virtualservicetemplate_webhook.go] *)

(** The expression of [validateExtraFieldsUsage]: two braces, white space, a dot
    and a word, white space, two braces.  White space is the class [\s]. *)
Definition is_space (a : ascii) : bool :=
  bool_decide (Ascii.nat_of_ascii a ∈ [9; 10; 12; 13; 32]).
Definition is_word (a : ascii) : bool :=
  let n := Ascii.nat_of_ascii a in
  (bool_decide (48 ≤ n) && bool_decide (n ≤ 57)) || (bool_decide (65 ≤ n) && bool_decide (n ≤ 90)) ||
  (bool_decide (97 ≤ n) && bool_decide (n ≤ 122)) || bool_decide (n = 95).
(** The longest prefix in a class, and the rest. *)
Fixpoint span (p : ascii → bool) (s : string) : string * string :=
  match s with
  | String a s' => if p a then let '(x, y) := span p s' in (String a x, y) else ("", s)
  | EmptyString => ("", "")
  end.
Definition expect_char (c : ascii) (s : string) : option string :=
  match s with String a s' => if decide (a = c) then Some s' else None | EmptyString => None end.
Definition lbrace : ascii := "{"%char.
Definition rbrace : ascii := "}"%char.
(** A match at the start of the text: the captured name and the rest. *)
Definition match_ref (s : string) : option (string * string) :=
  s ← expect_char lbrace s; s ← expect_char lbrace s;
  s ← expect_char GoStrings.dot (span is_space s).2;
  let '(name, s) := span is_word s in
  if decide (name = "") then None
  else s ← expect_char rbrace (span is_space s).2; s ← expect_char rbrace s; Some (name, s).
(** [FindAllStringSubmatch(text, -1)]: the captured names of the successive
    leftmost matches; [skip] bytes belong to the previous match. *)
Fixpoint find_all (skip : nat) (s : string) : list string :=
  match s with
  | EmptyString => []
  | String a s' =>
      match skip with
      | S skip => find_all skip s'
      | 0 =>
          match match_ref (String a s') with
          | Some (name, rest) => name :: find_all (String.length s' - String.length rest) s'
          | None => find_all 0 s'
          end
      end
  end.

Definition check_field (field : ExtraField) : result unit :=
  _ ← fail_if (bool_decide (efName field = "")) (ErrNew "extraField name cannot be empty");
  _ ← fail_if (bool_decide (efType field = ""))
        (ErrNew ("extraField '" +:+ efName field +:+ "' type cannot be empty"));
  _ ← fail_if (bool_decide (efType field ∉ ["string"; "enum"]))
        (ErrNew ("extraField '" +:+ efName field +:+ "' has unknown type '" +:+ efType field +:+
                 "', valid types are: string, enum"));
  fail_if (bool_decide (efType field = "enum" ∧ length (efEnum field) = 0))
    (ErrNew ("extraField '" +:+ efName field +:+ "' type is 'enum' but no enum values are defined")).

Section template.
Context `{JL : Api.JsonLib}.
(** The order in which Go visits the map of fields. *)
Context (ford : gmap string bool → list (string * bool)).

Definition mark_used (used : gmap string bool) (fieldName : string) : gmap string bool :=
  match used !! fieldName with Some _ => <[fieldName := true]> used | None => used end.

Definition validateExtraFieldsUsage (vst : VirtualServiceTemplate) : result unit :=
  if decide (length (vst_extraFields vst) = 0) then Ok tt
  else
    _ ← map_result check_field (vst_extraFields vst);
    let extraFieldsUsed := foldl (λ m field, <[efName field := false]> m) ∅ (vst_extraFields vst) in
    specJSON ← wrap_err "failed to marshal template spec" (Api.json_Marshal (vst_common vst));
    let extraFieldsUsed := foldl mark_used extraFieldsUsed (find_all 0 specJSON) in
    let unusedFields := (filter (λ p, p.2 = false) (ford extraFieldsUsed)).*1 in
    fail_if (bool_decide (0 < length unusedFields))
      (ErrNew ("the following extraFields are defined but not used in the template: " +:+
               String.concat ", " unusedFields)).

(** The context answers [ctx 0] before the lookup, [ctx 1] after a failed one and
    [ctx 2] in the caller. *)
Definition validateTemplateTracing (ctx : nat → option error) (cl : Client) (vst : VirtualServiceTemplate)
  : result unit :=
  let spec := vst_common vst in
  _ ← tracing_xor spec;
  match TracingRef spec with
  | None => Ok tt
  | Some ref =>
      _ ← tracing_name ref;
      let ns := Helpers.GetNamespace (refNamespace ref) (Namespace (meta vst)) in
      match ctx 0 with
      | Some err => wrap_err "context cancelled before Tracing lookup" (Err err)
      | None =>
          match GetTracing cl (Helpers.mkNN ns (refName ref)) with
          | Ok _ => Ok tt
          | Err err =>
              match ctx 1 with
              | Some ctxErr => wrap_err "context error during Tracing lookup" (Err ctxErr)
              | None => wrap_err (tracing_missing ns ref) (Err err)
              end
          end
      end
  end.

(** [errors.Is(ctx.Err(), context.DeadlineExceeded)] *)
Definition deadline_passed (answer : option error) : bool :=
  match answer with Some e => errors_Is e DeadlineExceeded | None => false end.

(** The two checks shared by creation and update. *)
Definition template_checks (ctx : nat → option error) (config : WebhookConfig) (cl : Client)
    (vst : VirtualServiceTemplate) : result unit :=
  _ ← validateExtraFieldsUsage vst;
  match validateTemplateTracing ctx cl vst with
  | Ok _ => Ok tt
  | Err err =>
      if deadline_passed (ctx 2) then
        Err (ErrNew ("tracing validation timed out after " +:+ Duration_String (getDryRunTimeout config) +:+
                     "; please check Kubernetes API availability"))
      else Err err
  end.

Definition VirtualServiceTemplate_ValidateCreate (ctx : nat → option error) (config : WebhookConfig)
    (cl : Client) (obj : K8sObject) : result Warnings :=
  vst ← expect "VirtualServiceTemplate object" obj (as_Template obj);
  _ ← template_checks ctx config cl vst;
  Ok [].

(** [dryRun] is [DryBuildSnapshotsWithVirtualServiceTemplate] of the updater, and
    [after] what its context answers when it has failed. *)
Definition VirtualServiceTemplate_ValidateUpdate (dryRun : VirtualServiceTemplate → option error)
    (ctx : nat → option error) (after : option error) (config : WebhookConfig) (cl : Client)
    (newObj : K8sObject) : result Warnings :=
  vst ← expect "VirtualServiceTemplate object" newObj (as_Template newObj);
  _ ← template_checks ctx config cl vst;
  match dryRun vst with
  | None => Ok []
  | Some err =>
      if deadline_passed after then Err (timeoutError config)
      else wrap_err "failed to apply VirtualServiceTemplate" (Err err)
  end.
End template.

Definition VirtualServiceTemplate_ValidateDelete (cl : Client) (obj : K8sObject) : result Warnings :=
  vst ← expect "VirtualServiceTemplate object" obj (as_Template obj);
  let vstName := Name (meta vst) in
  vss ← list_vs cl (Namespace (meta vst));
  _ ← refuse ("VirtualServiceTemplate " +:+ vstName +:+ " because it is referenced by VirtualService(s)")
        (Api.GetLabelName <$> filter (λ vs, opt_named vstName (Template (vs_spec vs))) vss);
  Ok [].

(** ** The references of a template text *)
Fixpoint all_chars (p : ascii → bool) (s : string) : bool :=
  match s with EmptyString => true | String a s' => p a && all_chars p s' end.

Lemma str_app_nil_l (s : string) : "" +:+ s = s.
Proof. done. Qed.
Lemma str_app_assoc (x y z : string) : (x +:+ y) +:+ z = x +:+ (y +:+ z).
Proof. induction x as [|a x IH]; [done|]. rewrite !GoStrings.str_app_cons. by rewrite IH. Qed.
(** Concatenations in normal form. *)
Ltac str_norm := repeat rewrite ?str_app_assoc, ?GoStrings.str_app_cons, ?str_app_nil_l.

Lemma span_spec p s x y : span p s = (x, y) →
  s = x +:+ y ∧ all_chars p x = true ∧ match y with String a _ => p a = false | EmptyString => True end.
Proof.
  revert x y. induction s as [|a s IH]; intros x y; cbn; [by intros [= <- <-]|].
  destruct (p a) eqn:Hp; [|by intros [= <- <-]].
  destruct (span p s) as [x' y'] eqn:Hs. intros [= <- <-].
  destruct (IH _ _ eq_refl) as (-> & Hx & Hy). cbn. by rewrite Hp, Hx.
Qed.

Lemma span_app p x a y : all_chars p x = true → p a = false → span p (x +:+ String a y) = (x, String a y).
Proof.
  intros Hx Ha. induction x as [|b x IH]; str_norm; cbn in *; [by rewrite Ha|].
  apply andb_true_iff in Hx as [Hb Hx]. by rewrite Hb, IH.
Qed.

Lemma expect_char_Some c s s' : expect_char c s = Some s' ↔ s = String c s'.
Proof. destruct s; cbn; [done|]. case_decide; naive_solver. Qed.

(** A reference to a field: braces, white space, a dot, the name. *)
Definition ref_text (ws1 name ws2 : string) : string :=
  "{{" +:+ ws1 +:+ "." +:+ name +:+ ws2 +:+ "}}".
Definition is_ref (ws1 name ws2 : string) : Prop :=
  all_chars is_space ws1 = true ∧ all_chars is_space ws2 = true ∧
  all_chars is_word name = true ∧ name ≠ "".

Lemma space_not_word a : is_space a = true → is_word a = false.
Proof. destruct a as [[] [] [] [] [] [] [] []]; vm_compute; congruence. Qed.

Lemma match_ref_Some s name rest :
  match_ref s = Some (name, rest) ↔
  ∃ ws1 ws2, s = ref_text ws1 name ws2 +:+ rest ∧ is_ref ws1 name ws2.
Proof.
  unfold match_ref, ref_text, is_ref. split.
  - intros H. apply bind_Some in H as (s1 & ->%expect_char_Some & H).
    apply bind_Some in H as (s2 & ->%expect_char_Some & H).
    destruct (span is_space s2) as [ws1 s3] eqn:H3. apply span_spec in H3 as (-> & Hw1 & _). cbn in H.
    apply bind_Some in H as (s4 & ->%expect_char_Some & H).
    destruct (span is_word s4) as [n s5] eqn:H5. apply span_spec in H5 as (-> & Hn & _).
    case_decide as He; [done|]. destruct (span is_space s5) as [ws2 s6] eqn:H6.
    apply span_spec in H6 as (-> & Hw2 & _). cbn in H.
    apply bind_Some in H as (s7 & ->%expect_char_Some & H).
    apply bind_Some in H as (s8 & ->%expect_char_Some & [= <- <-]).
    exists ws1, ws2. split; [|done]. by str_norm.
  - intros (ws1 & ws2 & -> & Hw1 & Hw2 & Hn & He). str_norm.
    do 2 (rewrite (proj2 (expect_char_Some lbrace _ _) eq_refl); cbn [mbind option_bind]).
    rewrite (span_app is_space ws1) by done. cbn [snd].
    rewrite (proj2 (expect_char_Some GoStrings.dot _ _) eq_refl). cbn [mbind option_bind].
    assert (span is_word (name +:+ (ws2 +:+ String "}" (String "}" rest))) =
      (name, ws2 +:+ String "}" (String "}" rest))) as ->.
    { destruct ws2 as [|a ws2]; str_norm; [by apply span_app|]. apply span_app; [done|].
      cbn in Hw2. apply andb_true_iff in Hw2 as [Ha _]. by apply space_not_word. }
    rewrite decide_False, (span_app is_space ws2) by done. cbn [snd].
    by do 2 (rewrite (proj2 (expect_char_Some rbrace _ _) eq_refl); cbn [mbind option_bind]).
Qed.

(** The name is captured by a match somewhere in the text. *)
Inductive refers (name : string) : string → Prop :=
| refers_here s rest : match_ref s = Some (name, rest) → refers name s
| refers_later a s : refers name s → refers name (String a s).

Lemma refers_text name s :
  refers name s ↔ ∃ pre ws1 ws2 post, s = pre +:+ ref_text ws1 name ws2 +:+ post ∧ is_ref ws1 name ws2.
Proof.
  split.
  - induction 1 as [s rest (ws1 & ws2 & -> & H)%match_ref_Some|a s _ (pre & ws1 & ws2 & post & -> & H)].
    + by exists "", ws1, ws2, rest.
    + by exists (String a pre), ws1, ws2, post.
  - intros (pre & ws1 & ws2 & post & -> & H). induction pre as [|a pre IH]; str_norm.
    + eapply refers_here. apply match_ref_Some. by exists ws1, ws2.
    + by apply refers_later.
Qed.

(** No match starts inside a text without an opening brace. *)
Lemma match_ref_head a s : a ≠ lbrace → match_ref (String a s) = None.
Proof. intros Ha. unfold match_ref. cbn. by rewrite decide_False. Qed.

Lemma match_ref_second b s : b ≠ lbrace → match_ref (String lbrace (String b s)) = None.
Proof.
  intros Hb. destruct (match_ref _) as [[n r]|] eqn:Hm; [|done].
  apply match_ref_Some in Hm as (ws1 & ws2 & Heq & _). unfold ref_text in Heq.
  revert Heq. str_norm. by intros [= ->].
Qed.

Lemma refers_cons name a s : match_ref (String a s) = None → refers name (String a s) ↔ refers name s.
Proof. intros Hm. split; [|apply refers_later]. inversion 1; simplify_eq/=; congruence. Qed.

Definition no_lbrace (a : ascii) : bool := negb (bool_decide (a = lbrace)).

Lemma refers_skip name x y : all_chars no_lbrace x = true → refers name (x +:+ y) ↔ refers name y.
Proof.
  induction x as [|a x IH]; str_norm; [done|]. cbn. intros [Ha Hx]%andb_true_iff.
  rewrite refers_cons; [by apply IH|]. apply match_ref_head.
  unfold no_lbrace in Ha. by apply negb_true_iff, bool_decide_eq_false in Ha.
Qed.

Lemma all_chars_app p x y : all_chars p (x +:+ y) = all_chars p x && all_chars p y.
Proof. induction x as [|a x IH]; str_norm; cbn; [done|]. by rewrite IH, andb_assoc. Qed.
Lemma all_chars_impl (p q : ascii → bool) x :
  (∀ a, p a = true → q a = true) → all_chars p x = true → all_chars q x = true.
Proof.
  intros Hpq. induction x as [|a x IH]; cbn; [done|]. intros [Ha Hx]%andb_true_iff.
  by rewrite Hpq, IH.
Qed.

(** The text of a match after its two opening braces. *)
Definition ref_tail (ws1 name ws2 : string) : string := ws1 +:+ "." +:+ name +:+ ws2 +:+ "}}".
Lemma ref_tail_no_lbrace ws1 name ws2 :
  is_ref ws1 name ws2 → all_chars no_lbrace (ref_tail ws1 name ws2) = true.
Proof.
  intros (H1 & H2 & H3 & _). unfold ref_tail. rewrite !all_chars_app.
  assert (∀ a, is_space a = true → no_lbrace a = true) as Hs
    by (intros [[] [] [] [] [] [] [] []]; vm_compute; congruence).
  assert (∀ a, is_word a = true → no_lbrace a = true) as Hw
    by (intros [[] [] [] [] [] [] [] []]; vm_compute; congruence).
  rewrite (all_chars_impl _ _ _ Hs H1), (all_chars_impl _ _ _ Hs H2), (all_chars_impl _ _ _ Hw H3). done.
Qed.

(** The other matches of a text that starts with a match are in the rest. *)
Lemma refers_after name n s a s' rest :
  s = String a s' → match_ref s = Some (n, rest) → refers name s' ↔ refers name rest.
Proof.
  intros -> (ws1 & ws2 & Heq & Hr)%match_ref_Some. pose proof (ref_tail_no_lbrace _ _ _ Hr) as Hl.
  assert (String a s' = String "{" (String "{" (ref_tail ws1 n ws2 +:+ rest))) as [= -> ->]
    by (rewrite Heq; unfold ref_text, ref_tail; by str_norm).
  rewrite refers_cons; [by apply refers_skip|].
  unfold ref_tail. destruct ws1 as [|b ws1]; str_norm; apply match_ref_second; [done|].
  intros ->. by destruct Hr as [H1 _].
Qed.

Lemma find_all_skip x y : find_all (String.length x) (x +:+ y) = find_all 0 y.
Proof. induction x as [|a x IH]; str_norm; cbn; [by destruct y|done]. Qed.

Lemma length_str_app (x y : string) : String.length (x +:+ y) = String.length x + String.length y.
Proof. induction x as [|a x IH]; str_norm; cbn; lia. Qed.

(** The expression captures exactly the names referred to. *)
Lemma find_all_refers name s : name ∈ find_all 0 s ↔ refers name s.
Proof.
  remember (String.length s) as n eqn:Hn. revert s Hn.
  induction (lt_wf n) as [n _ IH]. intros s ->. destruct s as [|a s'].
  { cbn. split; [by intros ?%not_elem_of_nil|]. intros Hr. inversion Hr as [? ? Hm|]; subst. by vm_compute in Hm. }
  cbn [find_all]. destruct (match_ref (String a s')) as [[x rest]|] eqn:Hm.
  - destruct (proj1 (match_ref_Some _ _ _) Hm) as (ws1 & ws2 & Heq & Hr).
    assert (s' = String "{" (ref_tail ws1 x ws2) +:+ rest) as Hs'.
    { assert (String a s' = String "{" (String "{" (ref_tail ws1 x ws2 +:+ rest))) as [= _ ->]
        by (rewrite Heq; unfold ref_text, ref_tail; by str_norm). by str_norm. }
    assert (find_all (String.length s' - String.length rest) s' = find_all 0 rest) as ->.
    { rewrite Hs' at 1 2. by rewrite length_str_app, Nat.add_sub, find_all_skip. }
    rewrite elem_of_cons, (IH (String.length rest)); [|rewrite Hs'; cbn; rewrite length_str_app; cbn; lia|done].
    rewrite <-(refers_after name x _ a s' rest eq_refl Hm). split.
    + intros [->|H]; [by eapply refers_here|by apply refers_later].
    + inversion 1; subst; [left; congruence|by right].
  - rewrite (IH (String.length s')); [by rewrite refers_cons|cbn; lia|done].
Qed.

(** ** The extra fields of a template *)
Definition well_declared (f : ExtraField) : Prop :=
  efName f ≠ "" ∧ (efType f = "string" ∨ (efType f = "enum" ∧ efEnum f ≠ [])).
(** The text refers to the field. *)
Definition used_in (text : string) (f : ExtraField) : Prop :=
  ∃ pre ws1 ws2 post, text = pre +:+ ref_text ws1 (efName f) ws2 +:+ post ∧ is_ref ws1 (efName f) ws2.

Lemma check_field_Ok f : check_field f = Ok tt ↔ well_declared f.
Proof.
  unfold check_field, well_declared, fail_if.
  destruct (decide (efName f = "")) as [Hn|Hn].
  { rewrite (bool_decide_eq_true_2 (efName f = "")) by done. split; [done|]. by intros [? _]. }
  rewrite (bool_decide_eq_false_2 (efName f = "")) by done. cbn. destruct (decide (efType f = "")) as [Ht|Ht].
  { rewrite (bool_decide_eq_true_2 (efType f = "")) by done. rewrite Ht. split; [done|]. by intros (_ & [?|[? _]]). }
  rewrite (bool_decide_eq_false_2 (efType f = "")) by done. cbn.
  destruct (decide (efType f = "string")) as [->|Hs]; [cbn; naive_solver|].
  destruct (decide (efType f = "enum")) as [->|He].
  - cbn. case_bool_decide as Hl.
    + destruct Hl as [_ Hl%nil_length_inv]. naive_solver.
    + split; [|done]. intros _. split; [done|]. right. split; [done|]. intros Hz. apply Hl. by rewrite Hz.
  - rewrite (bool_decide_eq_true_2 (efType f ∉ _)).
    + split; [done|]. by intros (_ & [?|[? _]]).
    + rewrite !elem_of_cons. intros [?|[?|?%not_elem_of_nil]]; done.
Qed.

(** The map of fields after marking: its keys are the fields, and a field is
    marked when the names contain it. *)
Lemma mark_all_lookup names (m : gmap string bool) k :
  foldl mark_used m names !! k = (λ b, b || bool_decide (k ∈ names)) <$> m !! k.
Proof.
  revert m. induction names as [|n names IH]; intros m; cbn.
  { destruct (m !! k) as [b|]; cbn; [|done]. by rewrite orb_false_r. }
  rewrite IH. unfold mark_used. destruct (m !! n) as [b|] eqn:Hn.
  - destruct (decide (k = n)) as [->|Hk].
    + rewrite lookup_insert_eq, Hn. cbn. f_equal. symmetry. apply orb_true_iff. right.
      apply bool_decide_eq_true. left.
    + rewrite lookup_insert_ne by done. destruct (m !! k); cbn; [|done]. do 2 f_equal.
      apply bool_decide_ext. set_solver.
  - destruct (m !! k) eqn:Hk; cbn; [|done]. do 2 f_equal. apply bool_decide_ext.
    assert (k ≠ n) by congruence. set_solver.
Qed.

Lemma declared_lookup fields (m : gmap string bool) k :
  foldl (λ m f, <[efName f := false]> m) m fields !! k =
  if decide (k ∈ efName <$> fields) then Some false else m !! k.
Proof.
  revert m. induction fields as [|f fields IH]; intros m; cbn; [done|]. rewrite IH.
  repeat case_decide; try set_solver.
  - destruct (decide (k = efName f)) as [->|]; [by rewrite lookup_insert_eq|set_solver].
  - by rewrite lookup_insert_ne by set_solver.
Qed.

Section template_spec.
Context `{JL : Api.JsonLib}.

(** A template's extra fields are accepted exactly when it declares none, or
    every declared field has a name, is of type [string] or an [enum] with values,
    and the marshalled specification contains a reference [{{ .name }}] to it, with
    any white space inside the braces. *)
Theorem validateExtraFieldsUsage_spec ford vst :
  (∀ m, ford m ≡ₚ map_to_list m) →
  validateExtraFieldsUsage ford vst = Ok tt ↔
  vst_extraFields vst = [] ∨
  ∃ text, Api.json_Marshal (vst_common vst) = Ok text ∧
    ∀ f, f ∈ vst_extraFields vst → well_declared f ∧ used_in text f.
Proof.
  intros Hord. unfold validateExtraFieldsUsage. case_decide as Hl.
  { apply nil_length_inv in Hl. naive_solver. }
  assert (vst_extraFields vst ≠ []) as Hne by (by intros Hz; rewrite Hz in Hl).
  destruct (map_result check_field (vst_extraFields vst)) as [us|e] eqn:Hc; cbn.
  2:{ split; [done|]. intros [?|(text & _ & Hall)]; [done|].
      rewrite Api.map_result_unit_Ok' in Hc; [done|]. apply Forall_forall. intros f Hf.
      by apply check_field_Ok, Hall. }
  apply Api.map_result_unit_Ok in Hc. rewrite Forall_forall in Hc. setoid_rewrite check_field_Ok in Hc.
  destruct (Api.json_Marshal (vst_common vst)) as [text|e]; cbn.
  2:{ split; [by destruct e|]. naive_solver. }
  rewrite Api.fail_if_Ok, bool_decide_eq_false. set (m := foldl mark_used _ _).
  assert (∀ k, m !! k = Some false ↔ k ∈ efName <$> vst_extraFields vst ∧ ¬ refers k text) as Hm.
  { intros k. unfold m. rewrite mark_all_lookup, declared_lookup. case_decide as Hk; cbn.
    - rewrite <-find_all_refers. case_bool_decide; naive_solver.
    - rewrite lookup_empty. naive_solver. }
  rewrite length_fmap. split.
  - intros Hz. right. exists text. split; [done|]. intros f Hf. split; [by apply Hc|].
    unfold used_in. rewrite <-refers_text. destruct (decide (efName f ∈ find_all 0 text)) as [H|H];
      [by apply find_all_refers|]. exfalso. apply Hz.
    assert ((efName f, false) ∈ filter (λ p : string * bool, p.2 = false) (ford m)) as Hin.
    { apply list_elem_of_filter. split; [done|]. rewrite Hord. apply elem_of_map_to_list, Hm.
      split; [by apply list_elem_of_fmap_2|by rewrite <-find_all_refers]. }
    destruct (filter _ _); [by apply not_elem_of_nil in Hin|cbn; lia].
  - intros [?|(text' & [= <-] & Hall)]; [done|]. intros Hz.
    destruct (filter _ (ford m)) as [|[k b] l] eqn:Hf; [cbn in Hz; lia|].
    assert ((k, b) ∈ filter (λ p : string * bool, p.2 = false) (ford m)) as Hin by (rewrite Hf; left).
    apply list_elem_of_filter in Hin as [Hb Hin]. cbn in Hb. subst b.
    rewrite Hord in Hin. apply elem_of_map_to_list, Hm in Hin as [Hk Hr].
    apply list_elem_of_fmap in Hk as (f & -> & Hf'). apply Hr, refers_text. by apply Hall.
Qed.
End template_spec.

Module Examples.
Definition json : Api.JsonLib :=
  {| Api.json_Marshal _ := Ok "{{a}} {{{ .host }} {{.mode}}"; Api.json_value _ := None;
     Api.json_Unmarshal _ c := Ok c; Api.template_Parse t := Ok t; Api.template_Execute t _ := Ok t |}.
Definition template : VirtualServiceTemplate :=
  mkVST (mkMeta "t" "ns" "ut" 1 None None) empty_common Api.ex_fields.
End Examples.

Lemma validateExtraFieldsUsage_spec_witness :
  @validateExtraFieldsUsage Examples.json map_to_list Examples.template = Ok tt.
Proof.
  apply (@validateExtraFieldsUsage_spec Examples.json map_to_list Examples.template).
  - reflexivity.
  - right. eexists. split; [reflexivity|]. intros f Hf.
    apply elem_of_cons in Hf as [->|Hf]; [|apply elem_of_cons in Hf as [->|Hf]; [|apply not_elem_of_nil in Hf; destruct Hf]].
    + split; [split; [discriminate|left; reflexivity]|]. exists "{{a}} {", " ", " ", " {{.mode}}".
      split; [reflexivity|]. repeat split; try reflexivity. discriminate.
    + split; [split; [discriminate|right; split; [reflexivity|discriminate]]|].
      exists "{{a}} {{{ .host }} ", "", "", "". split; [reflexivity|]. repeat split; try reflexivity. discriminate.
Defined.

(** ** The time limit of the dry runs *)
(** The configured milliseconds, as long as their nanoseconds fit 64 bits; the
    limit is then positive. *)
Lemma getDryRunTimeout_exact config :
  (0 < DryRunTimeoutMS config ≤ 9223372036854)%Z →
  getDryRunTimeout config = (DryRunTimeoutMS config * 1000000)%Z ∧ (0 < getDryRunTimeout config)%Z.
Proof.
  intros Hms. unfold getDryRunTimeout. rewrite decide_True by lia. rewrite GoStrings.wrap64_small by lia. lia.
Qed.
(** Beyond, the product wraps around and the limit can be negative. *)
Example getDryRunTimeout_overflow :
  (getDryRunTimeout (mkConfig 9223372036855 false false false) < 0)%Z.
Proof. vm_compute. reflexivity. Qed.

Example Duration_String_examples :
  Duration_String 1000000000 = "1s" ∧ Duration_String 1500000000 = "1.5s" ∧ Duration_String 250000000 = "250ms" ∧
  Duration_String 3723004000000 = "1h2m3.004s" ∧ Duration_String 0 = "0s" ∧ Duration_String (-60000000000) = "-1m0s".
Proof. vm_compute. auto 10. Qed.

End Webhooks.
