(* ===== verification/Admission.v ===== *)
(** * What the admission webhooks guarantee

    The delete validators ([Webhooks.v]) together with the store, the resource
    builder and the updater: an object whose deletion is admitted can be removed
    from the store without changing what the services build to, and so what the
    nodes are served, as long as the services keep to their own namespace. *)

From S2P Require Import Prelude GoStrings Types Merge StringPool Api DomainSecrets ResUtils Store Lru.
From S2P Require Import Routes Secrets HttpFilters Clusters FilterChains SnapshotCache Mixer Updater.
From S2P Require Import Rebuild MainBuilder Frame Webhooks.

Module Admission.
Import Envoy Webhooks.

(** ** The kinds that services refer to by name *)
Inductive Kind := DRoute | DListener | DHttpFilter | DPolicy | DAccessLog | DTracing | DTemplate.
Global Instance Kind_eq_dec : EqDecision Kind.
Proof. solve_decision. Defined.

Definition validate_delete (k : Kind) : Client → K8sObject → result (list string) :=
  match k with
  | DRoute => Route_ValidateDelete
  | DListener => Listener_ValidateDelete
  | DHttpFilter => HttpFilter_ValidateDelete
  | DPolicy => Policy_ValidateDelete
  | DAccessLog => AccessLogConfig_ValidateDelete
  | DTracing => Tracing_ValidateDelete
  | DTemplate => VirtualServiceTemplate_ValidateDelete
  end.

(** The metadata of an object of the kind. *)
Definition meta_of (k : Kind) (obj : K8sObject) : option ObjectMeta :=
  match k, obj with
  | DRoute, KRoute r => Some (meta r)
  | DListener, KListener l => Some (meta l)
  | DHttpFilter, KHttpFilter h => Some (meta h)
  | DPolicy, KPolicy p => Some (meta p)
  | DAccessLog, KAccessLogConfig a => Some (meta a)
  | DTracing, KTracing t => Some (meta t)
  | DTemplate, KTemplate t => Some (meta t)
  | _, _ => None
  end.

(** The call that follows an admitted deletion. *)
Definition delete_from (k : Kind) : Store.OptimizedStore → NN → Store.OptimizedStore :=
  match k with
  | DRoute => Store.DeleteRoute
  | DListener => Store.DeleteListener
  | DHttpFilter => Store.DeleteHTTPFilter
  | DPolicy => Store.DeletePolicy
  | DAccessLog => Store.DeleteAccessLog
  | DTracing => Store.DeleteTracing
  | DTemplate => Store.DeleteVirtualServiceTemplate
  end.

(** The references a validator looks at in a specification. *)
Definition checked_refs (k : Kind) (c : CommonSpec) : list ResourceRef :=
  match k with
  | DRoute => AdditionalRoutes c
  | DListener => option_list (ListenerRef c)
  | DHttpFilter => AdditionalHttpFilters c
  | DPolicy => Frame.policy_refs c
  | DAccessLog => option_list (AccessLogConfigRef c)
  | DTracing => option_list (TracingRef c)
  | DTemplate => []
  end.
Definition vs_checked_refs (k : Kind) (vs : VirtualService) : list ResourceRef :=
  match k with
  | DTemplate => option_list (Template (vs_spec vs))
  | _ => checked_refs k (Common (vs_spec vs))
  end.
(** The templates are not asked for when a template is deleted. *)
Definition vst_checked_refs (k : Kind) (vst : VirtualServiceTemplate) : list ResourceRef :=
  checked_refs k (vst_common vst).

(** ** When a deletion is admitted *)
Lemma refuse_Ok what names : refuse what names = Ok tt ↔ names = [].
Proof.
  unfold refuse. rewrite Api.fail_if_Ok, bool_decide_eq_false. destruct names; cbn; [naive_solver lia|].
  split; [lia|done].
Qed.
Lemma refuse_bind what names (r : result (list string)) w :
  (_ ← refuse what names; r) = Ok w ↔ names = [] ∧ r = Ok w.
Proof.
  rewrite <-(refuse_Ok what). destruct (refuse what names) as [[]|]; cbn; naive_solver.
Qed.

Definition named (name : string) (refs : list ResourceRef) : Prop := name ∈ refName <$> refs.

Lemma names_ref_spec name refs : names_ref name refs = true ↔ named name refs.
Proof.
  unfold names_ref, named. rewrite existsb_exists, list_elem_of_fmap. setoid_rewrite bool_decide_eq_true.
  setoid_rewrite <-list_elem_of_In. naive_solver.
Qed.
Lemma opt_named_spec name ref : opt_named name ref = true ↔ named name (option_list ref).
Proof.
  unfold named. destruct ref as [r|]; cbn; [rewrite bool_decide_eq_true, list_elem_of_singleton|].
  - naive_solver.
  - split; [done|by intros ?%not_elem_of_nil].
Qed.
Lemma rbac_names_spec name c : rbac_names name c = true ↔ named name (Frame.policy_refs c).
Proof.
  unfold rbac_names, Frame.policy_refs. destruct (RBAC c); [apply names_ref_spec|].
  split; [done|by intros ?%not_elem_of_nil].
Qed.

Lemma fmap_nil_iff {A B} (f : A → B) l : f <$> l = [] ↔ l = [].
Proof. split; [apply fmap_nil_inv|by intros ->]. Qed.

(** No element of the list names the object. *)
Lemma no_referrers {A} (label : A → string) (test : A → bool) (refs : A → list ResourceRef) name l :
  (∀ x, test x = true ↔ named name (refs x)) →
  label <$> filter test l = [] ↔ ∀ x, x ∈ l → ¬ named name (refs x).
Proof.
  intros Ht. rewrite fmap_nil_iff. split.
  - intros Hf x Hx Hn. assert (x ∈ filter test l) as Hin.
    { apply list_elem_of_filter. split; [|done]. cbn. by rewrite (proj2 (Ht x) Hn). }
    rewrite Hf in Hin. by apply not_elem_of_nil in Hin.
  - intros Hall. destruct (filter test l) as [|x l'] eqn:Hf; [done|].
    assert (x ∈ filter test l) as Hin by (rewrite Hf; left).
    apply list_elem_of_filter in Hin as [Hx Hin]. destruct (Hall x Hin). apply Ht. by destruct (test x).
Qed.
Lemma no_referrers_per_ref {A} (label : A → string) (refs : A → list ResourceRef) name (l : list A) :
  per_ref name refs label l = [] ↔ ∀ x, x ∈ l → ¬ named name (refs x).
Proof.
  unfold per_ref, named. induction l as [|x l IH]; cbn.
  { split; [by intros _ ? ?%not_elem_of_nil|done]. }
  rewrite app_nil, IH, fmap_nil_iff. setoid_rewrite elem_of_cons. split.
  - intros [Hx Hl] y [->|Hy]; [|by apply Hl]. intros (r & -> & Hr)%list_elem_of_fmap.
    assert (r ∈ filter (λ r', refName r' = refName r) (refs x)) as Hin by (by apply list_elem_of_filter).
    rewrite Hx in Hin. by apply not_elem_of_nil in Hin.
  - intros Hall. split; [|naive_solver]. destruct (filter _ (refs x)) as [|r l'] eqn:Hf; [done|].
    destruct (Hall x (or_introl eq_refl)).
    assert (r ∈ filter (λ r, refName r = name) (refs x)) as [Hn Hin]%list_elem_of_filter by (rewrite Hf; left).
    apply list_elem_of_fmap. naive_solver.
Qed.

(** What an admitted deletion has checked. *)
Record unreferenced (k : Kind) (cl : Client) (m : ObjectMeta) : Prop := {
  ur_services : ∃ vss, ListVirtualServices cl (Namespace m) = Ok vss ∧
    ∀ vs, vs ∈ vss → ¬ named (Name m) (vs_checked_refs k vs);
  ur_templates : k ≠ DTemplate → ∃ vsts, ListVirtualServiceTemplates cl (Namespace m) = Ok vsts ∧
    ∀ vst, vst ∈ vsts → ¬ named (Name m) (vst_checked_refs k vst)
}.

(** The common shape of the validators. *)
Lemma two_checks {A B} (r1 : result A) (r2 : result B) p1 p2 w1 w2 n1 n2 (P1 : A → Prop) (P2 : B → Prop)
    (w : list string) :
  (∀ a, n1 a = [] ↔ P1 a) → (∀ b, n2 b = [] ↔ P2 b) →
  (a ← wrap_err p1 r1; _ ← refuse w1 (n1 a); b ← wrap_err p2 r2; _ ← refuse w2 (n2 b); Ok []) = Ok w ↔
  w = [] ∧ (∃ a, r1 = Ok a ∧ P1 a) ∧ (∃ b, r2 = Ok b ∧ P2 b).
Proof.
  intros H1 H2. destruct r1 as [a|e].
  2:{ destruct e; cbn; (split; [done|]); by intros (_ & (? & [=] & _) & _). }
  cbn. rewrite refuse_bind, H1. destruct r2 as [b|e].
  - cbn. rewrite refuse_bind, H2. naive_solver.
  - destruct e; cbn; (split; [by intros [_ ?]|]); by intros (_ & _ & ? & [=] & _).
Qed.

Lemma admitted_two k cl m obj (w : list string) (n1 : list VirtualService → list string)
    (n2 : list VirtualServiceTemplate → list string) p1 p2 w1 w2 :
  k ≠ DTemplate → meta_of k obj = Some m →
  (∀ l, n1 l = [] ↔ ∀ vs, vs ∈ l → ¬ named (Name m) (vs_checked_refs k vs)) →
  (∀ l, n2 l = [] ↔ ∀ vst, vst ∈ l → ¬ named (Name m) (vst_checked_refs k vst)) →
  (a ← wrap_err p1 (ListVirtualServices cl (Namespace m)); _ ← refuse w1 (n1 a);
   b ← wrap_err p2 (ListVirtualServiceTemplates cl (Namespace m)); _ ← refuse w2 (n2 b); Ok []) = Ok w ↔
  w = [] ∧ ∃ m, meta_of k obj = Some m ∧ unreferenced k cl m.
Proof.
  intros Hk Hm H1 H2. rewrite (two_checks _ _ _ _ _ _ n1 n2 _ _ _ H1 H2), Hm. split.
  - intros (-> & Ha & Hb). split; [done|]. exists m. split; [done|]. by split.
  - intros (-> & ? & [= <-] & [Ha Hb]). split_and!; [done..|by apply Hb].
Qed.

(** An object is admitted for deletion exactly when it is of the kind and
    no service or template of its namespace that the API server lists names it. *)
Lemma delete_admitted k cl obj w :
  validate_delete k cl obj = Ok w ↔ w = [] ∧ ∃ m, meta_of k obj = Some m ∧ unreferenced k cl m.
Proof.
  destruct k, obj; try (split; [done|by intros (_ & ? & [=] & _)]); cbn [validate_delete].
  - refine (admitted_two DRoute cl (meta r) (KRoute r) w _ _ _ _ _ _ _ eq_refl _ _); [done|..];
      intros l; apply no_referrers; intros x; apply names_ref_spec.
  - refine (admitted_two DListener cl (meta l) (KListener l) w _ _ _ _ _ _ _ eq_refl _ _); [done|..];
      intros l'; apply no_referrers; intros x; apply opt_named_spec.
  - refine (admitted_two DHttpFilter cl (meta h) (KHttpFilter h) w _ _ _ _ _ _ _ eq_refl _ _); [done|..];
      intros l; apply no_referrers_per_ref.
  - refine (admitted_two DPolicy cl (meta p) (KPolicy p) w _ _ _ _ _ _ _ eq_refl _ _); [done|..];
      intros l; apply no_referrers; intros x; apply rbac_names_spec.
  - refine (admitted_two DAccessLog cl (meta a) (KAccessLogConfig a) w _ _ _ _ _ _ _ eq_refl _ _); [done|..];
      intros l; apply no_referrers; intros x; apply opt_named_spec.
  - refine (admitted_two DTracing cl (meta t) (KTracing t) w _ _ _ _ _ _ _ eq_refl _ _); [done|..];
      intros l; apply no_referrers; intros x; apply opt_named_spec.
  - unfold VirtualServiceTemplate_ValidateDelete, list_vs. cbn [as_Template expect].
    rewrite bind_Ok. destruct (ListVirtualServices cl (Namespace (meta t))) as [vss|e] eqn:Hl.
    + cbn. rewrite refuse_bind, (no_referrers _ _ (λ vs, option_list (Template (vs_spec vs))))
        by (intros x; apply opt_named_spec). split.
      * intros [Hn [= <-]]. split; [done|]. exists (meta t). split; [done|]. split; [eauto|done].
      * intros (-> & ? & [= <-] & [(? & ? & Hn) _]). split; [|done]. replace vss with x by congruence. exact Hn.
    + split; [by destruct e|]. intros (_ & ? & [= <-] & [(? & ? & _) _]). congruence.
Qed.

(** ** Removing an object that no service reads *)
(** The references of the kind that a build of the service reads. *)
Definition read_refs (k : Kind) (vs : VirtualService) : list ResourceRef :=
  match k with
  | DAccessLog => Frame.log_refs (Common (vs_spec vs))
  | _ => vs_checked_refs k vs
  end.

Lemma get_deleted {R} `{!HasMeta R} (ix : Index.t R) n m :
  m ≠ n → Index.items ix !! m = Index.items (Index.del ix n) !! m.
Proof. intros Hne. by rewrite Index.items_del, lookup_delete_ne. Qed.

Lemma delete_agree k st nn vs :
  k ≠ DTemplate → (∀ ref, ref ∈ read_refs k vs → Frame.resolve_ref vs ref ≠ nn) →
  Frame.agree st (delete_from k st nn) vs.
Proof.
  intros Hk Hne. destruct k; try done; split; try done; intros ref Hin; apply get_deleted; by apply Hne.
Qed.

(** Deleting a template changes nothing for services that use another one. *)
Lemma delete_template_agree st nn vs : Frame.agree st (Store.DeleteVirtualServiceTemplate st nn) vs.
Proof. by split. Qed.

(** The services of the store are those the API server lists, possibly
    normalized on their way into the store. *)
Definition sees (cl : Client) (st : Store.OptimizedStore) : Prop :=
  ∀ nn vs l, Store.GetVirtualService st nn = Some vs → ListVirtualServices cl (Namespace (meta vs)) = Ok l →
    ∃ vs0, vs0 ∈ l ∧ (vs = vs0 ∨ vs = Api.VS_NormalizeSpec vs0).

(** The services the validator of a kind takes care of: they have no template
    (unless templates are deleted), do not use [accessLogConfigs] and refer to
    objects of the kind in their own namespace. *)
Record covered (k : Kind) (vs : VirtualService) : Prop := {
  cov_template : k ≠ DTemplate → Template (vs_spec vs) = None;
  cov_logs : k = DAccessLog → AccessLogConfigRefs (Common (vs_spec vs)) = [];
  cov_namespace ref : ref ∈ read_refs k vs →
    refNamespace ref = None ∨ refNamespace ref = Some (Namespace (meta vs))
}.

Lemma checked_refs_norm k vs :
  refName <$> vs_checked_refs k (Api.VS_NormalizeSpec vs) = refName <$> vs_checked_refs k vs.
Proof.
  assert (∀ o : option ResourceRef, refName <$> option_list (Api.default_ref_ns (Namespace (meta vs)) <$> o) =
    refName <$> option_list o) as Ho.
  { intros [[n [ns|]]|]; done. }
  destruct k; cbn; try done; apply Ho.
Qed.

Lemma covered_not_read k cl st nn vs obj w m :
  sees cl st → validate_delete k cl obj = Ok w → meta_of k obj = Some m →
  Store.GetVirtualService st nn = Some vs → covered k vs →
  ∀ ref, ref ∈ read_refs k vs → Frame.resolve_ref vs ref ≠ nn_of m.
Proof.
  intros Hsees (-> & m' & Hm' & [(l & Hl & Hno) _])%delete_admitted Hm Hvs [_ Hlogs Hns] ref Hin Heq.
  assert (m' = m) as -> by congruence. unfold Frame.resolve_ref, nn_of in Heq.
  assert (Namespace (meta vs) = Namespace m ∧ refName ref = Name m) as [Hn1 Hn2].
  { injection Heq as H1 H2. split; [|done]. by destruct (Hns ref Hin) as [H|H]; rewrite H in H1. }
  assert (ref ∈ vs_checked_refs k vs) as Hin'.
  { destruct k; try done. unfold read_refs, Frame.log_refs in Hin. by rewrite Hlogs, app_nil_r in Hin. }
  rewrite <-Hn1 in Hl. destruct (Hsees nn vs l Hvs Hl) as (vs0 & Hin0 & Hcase).
  apply (Hno vs0 Hin0). unfold named. rewrite <-Hn2.
  destruct Hcase as [->| ->]; [|rewrite <-checked_refs_norm]; by apply list_elem_of_fmap_2.
Qed.

Section safety.
Context {ML : MainBuilder.MainLib} {JL : Api.JsonLib} {SHA : Sha256} {FL : HttpFilters.FilterLib}
  {CL : Clusters.ClusterLib} {CHL : FilterChains.ChainLib}
  {P1 : ProtoMessage HttpFilterV3} {P2 : ProtoMessage HttpFilters.PolicyV3}
  {P3 : ProtoMessage VirtualHost} {P4 : ProtoMessage RouteV3} {P5 : ProtoMessage RouteConfiguration}
  {P6 : ProtoMessage ClusterV3} {P7 : ProtoMessage ListenerV3} {P8 : ProtoMessage AccessLogV3}
  {P9 : ProtoMessage TracingV3} {P10 : ProtoMessage UpgradeConfigV3} {P11 : ProtoMessage Http2OptionsV3}
  {P12 : ProtoMessage HCM} {P13 : ProtoMessage FilterChain}.
Context (clk : nat → Lru.Time) (clock : string → DomainSecrets.Time).
Context (sord kord : gmap NN (list string) → list (NN * list string)).
Context (pord : gmap string RawExtension → list (string * RawExtension)).
Context (eord : gmap string string → list string).

Lemma deletion_keeps_build k cl st nn vs obj w m wld :
  sees cl st → validate_delete k cl obj = Ok w → meta_of k obj = Some m →
  Store.GetVirtualService st nn = Some vs → covered k vs →
  MainBuilder.resbuilder_BuildResources clk clock sord kord pord eord st (Some vs) wld =
  MainBuilder.resbuilder_BuildResources clk clock sord kord pord eord (delete_from k st (nn_of m)) (Some vs) wld.
Proof using Type.
  intros Hsees Hv Hm Hvs Hcov. pose proof (covered_not_read _ _ _ _ _ _ _ _ Hsees Hv Hm Hvs Hcov) as Hne.
  apply Frame.build_frame. destruct (decide (k = DTemplate)) as [->|Hk].
  - split; [|intros vs' _; apply delete_template_agree]. unfold MainBuilder.applyVirtualServiceTemplate.
    unfold read_refs, vs_checked_refs in Hne. destruct (Template (vs_spec vs)) as [ref|]; [|done].
    assert (Store.GetVirtualServiceTemplate st (Frame.resolve_ref vs ref) =
      Store.GetVirtualServiceTemplate (delete_from DTemplate st (nn_of m)) (Frame.resolve_ref vs ref)) as He.
    { apply get_deleted, Hne. left. }
    unfold Frame.resolve_ref in He. by rewrite He.
  - apply Frame.same_inputs_plain; [by apply Hcov|]. by apply delete_agree.
Qed.

(** Admitted deletions are harmless: when the webhook admits the deletion of
    a route, listener, HTTP filter, policy, access log configuration, tracing or
    template, and the services of the store are those the API server lists, then
    every stored service that keeps to its own namespace (see [covered]) builds
    exactly as before once the object is gone: the same resources or the same
    error, and the same caches afterwards, from whatever state of the caches. *)
Theorem admitted_deletion_keeps_builds k cl st nn vs obj w m wld :
  sees cl st → validate_delete k cl obj = Ok w → meta_of k obj = Some m →
  Store.GetVirtualService st nn = Some vs → covered k vs →
  MainBuilder.resbuilder_BuildResources clk clock sord kord pord eord st (Some vs) wld =
  MainBuilder.resbuilder_BuildResources clk clock sord kord pord eord (delete_from k st (nn_of m)) (Some vs) wld.
Proof using Type. apply deletion_keeps_build. Qed.

Context `{CA : CacheAPI}.

Lemma delete_keeps_listeners k st n nn :
  k ≠ DListener → Store.GetListener (delete_from k st n) nn = Store.GetListener st nn.
Proof using Type. by destruct k. Qed.

End safety.

(** ** Secrets in use *)
Section used_secrets.
Context `{CA : CacheAPI} `{PL : !ProtoMessage ListenerV3}.
Context (build : VirtualService → Store.OptimizedStore → result Updater.Resources).

(** The secrets the services of a list use, with the service. *)
Definition uses (store : Store.OptimizedStore) (order : list VirtualService) (s nn : NN) : Prop :=
  ∃ vs res, vs ∈ order ∧ key vs = nn ∧ Api.GetNodeIDs vs ≠ [] ∧ build vs store = Ok res ∧
    s ∈ Updater.RUsedSecrets res.

(** A step records at least and at most the secrets of the services it handled. *)
Record recorded (store : Store.OptimizedStore) (l : list VirtualService) (u u' : gmap NN NN) : Prop := {
  rec_keep s : is_Some (u !! s) → is_Some (u' !! s);
  rec_all s nn : uses store l s nn → is_Some (u' !! s);
  rec_only s nn : u' !! s = Some nn → u !! s = Some nn ∨ uses store l s nn
}.

Lemma uses_app store l1 l2 s nn : uses store (l1 ++ l2) s nn ↔ uses store l1 s nn ∨ uses store l2 s nn.
Proof using Type. unfold uses. setoid_rewrite elem_of_app. naive_solver. Qed.

Lemma recorded_trans store l1 l2 u1 u2 u3 :
  recorded store l1 u1 u2 → recorded store l2 u2 u3 → recorded store (l1 ++ l2) u1 u3.
Proof using Type.
  intros [K1 A1 O1] [K2 A2 O2]. split.
  - intros s Hs. by apply K2, K1.
  - intros s nn [Hu|Hu]%uses_app; [by eapply K2, A1|by eapply A2].
  - intros s nn Hs. rewrite uses_app. destruct (O2 s nn Hs) as [Hs'|]; [|by eauto].
    destruct (O1 s nn Hs'); eauto.
Qed.

Lemma recorded_nothing store l u : (∀ s nn, ¬ uses store l s nn) → recorded store l u u.
Proof using Type. intros Hn. split; [done|by intros s nn ?%Hn|by left]. Qed.

Lemma record_all (l : list NN) (u : gmap NN NN) k s nn :
  foldl (λ u s, <[s := k]> u) u l !! s = Some nn ↔ (s ∈ l ∧ nn = k) ∨ ((s ∉ l) ∧ u !! s = Some nn).
Proof using Type.
  revert u. induction l as [|x l IH]; intros u; cbn.
  { split; [right; split; [apply not_elem_of_nil|done]|by intros [[?%not_elem_of_nil _]|[_ ?]]]. }
  rewrite IH, not_elem_of_cons, elem_of_cons. destruct (decide (s = x)) as [->|Hx].
  - rewrite lookup_insert_eq. destruct (decide (x ∈ l)); naive_solver.
  - rewrite lookup_insert_ne by done. naive_solver.
Qed.

Lemma recorded_vs store vs res u :
  Api.GetNodeIDs vs ≠ [] → build vs store = Ok res →
  recorded store [vs] u (foldl (λ u s, <[s := key vs]> u) u (Updater.RUsedSecrets res)).
Proof using Type.
  intros Hn Hb. split.
  - intros s [nn Hs]. destruct (decide (s ∈ Updater.RUsedSecrets res)).
    + exists (key vs). apply record_all. by left.
    + exists nn. apply record_all. by right.
  - intros s nn (vs' & res' & ->%list_elem_of_singleton & <- & _ & Hb' & Hs). exists (key vs).
    apply record_all. left. split; [congruence|done].
  - intros s nn [[Hs ->]|[_ Hs]]%record_all; [right|by left]. exists vs, res.
    split_and!; [left|done..].
Qed.

Context (ctx : nat → option error) (ord : gset string → list string) (indices : bool).

Lemma poll_used s s' : Updater.poll ctx s = Updater.Go s' → Updater.usedSecrets s' = Updater.usedSecrets s.
Proof using Type. by intros ->%Updater.poll_Go. Qed.

Lemma for_each_used {A} (f : Updater.bstate → A → Updater.outcome) l s s' :
  (∀ s s' x, f s x = Updater.Go s' → Updater.usedSecrets s' = Updater.usedSecrets s) →
  Updater.for_each f s l = Updater.Go s' → Updater.usedSecrets s' = Updater.usedSecrets s.
Proof using Type.
  intros Hf. revert s. induction l as [|x l IH]; intros s Hg; cbn in Hg; [by injection Hg as <-|].
  apply Updater.and_then_Go in Hg as (s1 & H1 & H2). rewrite (IH _ H2). by eapply Hf.
Qed.

Lemma place_used res s s' n :
  Updater.place_on_node ctx indices res s n = Updater.Go s' → Updater.usedSecrets s' = Updater.usedSecrets s.
Proof using Type.
  unfold Updater.place_on_node. intros Hg. apply Updater.and_then_Go in Hg as (s1 & <-%poll_used & Hg).
  apply Updater.and_then_Go in Hg as (s2 & H2 & [= <-]). cbn. eapply for_each_used; [|exact H2].
  clear. intros s s' d Hg. unfold Updater.add_domain in Hg.
  apply Updater.and_then_Go in Hg as (s1 & <-%poll_used & Hg). case_decide; [done|]. by injection Hg as <-.
Qed.

Lemma unused store vs : Api.GetNodeIDs vs = [] ∨ is_ok (build vs store) = false →
  ∀ s nn, ¬ uses store [vs] s nn.
Proof using Type.
  intros Hbad s nn (vs' & res & ->%list_elem_of_singleton & _ & Hn & Hb & _).
  rewrite Hb in Hbad. naive_solver.
Qed.

(** The first loop records the secrets of the services that are not common. *)
Definition not_common (vs : VirtualService) : Prop := ¬ Updater.is_common vs.
#[local] Instance not_common_dec vs : Decision (not_common vs).
Proof. unfold not_common. apply _. Defined.

Lemma process_vs_used store s s' vs :
  Updater.process_vs build ctx indices store s vs = Updater.Go s' →
  recorded store (filter not_common [vs]) (Updater.usedSecrets s) (Updater.usedSecrets s').
Proof using Type.
  unfold Updater.process_vs. intros Hg. apply Updater.and_then_Go in Hg as (s1 & <-%poll_used & Hg).
  unfold Updater.isCommonVirtualService in Hg. destruct (decide (Api.GetNodeIDs vs = [])) as [Hn|Hn].
  { rewrite decide_True in Hg by (by rewrite Hn). injection Hg as <-.
    rewrite filter_cons_True by (unfold not_common, Updater.is_common; by rewrite Hn).
    apply recorded_nothing, unused. by left. }
  rewrite decide_False in Hg by (by destruct (Api.GetNodeIDs vs)).
  destruct (decide (Updater.is_common vs)) as [Hc|Hc].
  { rewrite bool_decide_eq_true_2 in Hg by exact Hc. injection Hg as <-. rewrite filter_cons_False by (by intros ?).
    apply recorded_nothing. by intros ? ? (? & ? & ?%not_elem_of_nil & _). }
  rewrite bool_decide_eq_false_2 in Hg by exact Hc. rewrite filter_cons_True by done.
  apply Updater.and_then_Go in Hg as (s2 & H2%poll_used & Hg). cbn in H2. rewrite <-H2.
  destruct (build vs store) as [res|e] eqn:Hb.
  - apply Updater.and_then_Go in Hg as (s3 & <-%poll_used & Hg).
    apply for_each_used in Hg as ->; [by apply recorded_vs|]. intros ? ? ?. apply place_used.
  - injection Hg as <-. apply recorded_nothing, unused. right. by rewrite Hb.
Qed.

Lemma process_common_used store s s' vs : Api.GetNodeIDs vs ≠ [] →
  Updater.process_common build ctx ord indices store s vs = Updater.Go s' →
  recorded store [vs] (Updater.usedSecrets s) (Updater.usedSecrets s').
Proof using Type.
  intros Hn. unfold Updater.process_common. intros Hg. apply Updater.and_then_Go in Hg as (s1 & <-%poll_used & Hg).
  destruct (build vs store) as [res|e] eqn:Hb.
  - apply Updater.and_then_Go in Hg as (s3 & <-%poll_used & Hg).
    apply for_each_used in Hg as ->; [by apply recorded_vs|]. intros ? ? ?. apply place_used.
  - injection Hg as <-. apply recorded_nothing, unused. right. by rewrite Hb.
Qed.

Lemma loop_used {A} (f : Updater.bstate → A → Updater.outcome) (g : A → list VirtualService) store l s s' :
  (∀ s s' x, x ∈ l → f s x = Updater.Go s' → recorded store (g x) (Updater.usedSecrets s) (Updater.usedSecrets s')) →
  Updater.for_each f s l = Updater.Go s' →
  recorded store (l ≫= g) (Updater.usedSecrets s) (Updater.usedSecrets s').
Proof using Type.
  revert s. induction l as [|x l IH]; intros s Hf Hg; cbn in Hg.
  - injection Hg as <-. apply recorded_nothing. by intros ? ? (? & ? & ?%not_elem_of_nil & _).
  - apply Updater.and_then_Go in Hg as (s1 & H1 & H2). cbn [mbind list_bind].
    eapply recorded_trans; [eapply Hf; [left|exact H1]|]. apply IH; [|done].
    intros ? ? ? ?. apply Hf. by right.
Qed.

(** After the loops the recorded secrets are exactly those in use. *)
Lemma build_resources_used store order s :
  (∀ X, ord X ≡ₚ elements X) → Updater.build_resources build ctx ord indices store order = Updater.Go s →
  ∀ x, (∀ nn, uses store order x nn → is_Some (Updater.usedSecrets s !! x)) ∧
    ∀ nn, Updater.usedSecrets s !! x = Some nn → uses store order x nn.
Proof using Type.
  intros Hord Hg. unfold Updater.build_resources in Hg. apply Updater.and_then_Go in Hg as (s1 & H1 & Hg).
  apply Updater.and_then_Go in Hg as (s2 & H2 & ->%poll_used).
  assert (Updater.commonVirtualServices s1 = filter Updater.is_common order) as Hc.
  { apply Updater.process_all_Go in H1 as [_ _ Hc _ _ _ _]. exact Hc. }
  apply (loop_used _ (λ vs, filter not_common [vs]) store) in H1; [|intros ? ? ? _; apply process_vs_used].
  apply (loop_used _ (λ vs, [vs]) store) in H2.
  2:{ intros ? ? vs Hvs. apply process_common_used. rewrite Hc in Hvs.
      apply list_elem_of_filter in Hvs as [Hvs _]. by rewrite Hvs. }
  pose proof (recorded_trans _ _ _ _ _ _ H1 H2) as [_ Hall Honly].
  assert (∀ x nn, uses store ((order ≫= λ vs, filter not_common [vs]) ++
    (Updater.commonVirtualServices s1 ≫= λ vs, [vs])) x nn ↔ uses store order x nn) as Huse.
  { intros x nn. unfold uses. f_equiv. intros vs. f_equiv. intros res. f_equiv.
    rewrite Hc, elem_of_app, !list_elem_of_bind. setoid_rewrite list_elem_of_filter.
    setoid_rewrite list_elem_of_singleton. unfold not_common. destruct (decide (Updater.is_common vs)); naive_solver. }
  intros x. split.
  - intros nn Hu. apply (Hall x nn). by apply Huse.
  - intros nn Hs. destruct (Honly x nn Hs) as [Hz|Hu]; [by cbn in Hz; rewrite lookup_empty in Hz|by apply Huse].
Qed.

Lemma build_tail_used lord sc store s :
  let b := Updater.build_tail ctx ord lord indices sc store s in
  Updater.bErr b = None → Updater.bUsed b = Some (Updater.usedSecrets s).
Proof using Type.
  unfold Updater.build_tail. destruct (Mixer.Mix store _ _); [|done].
  destruct (Updater.stage_all _ _ _ _ _); [done|]. case_decide; [done|]. destruct (ctx _); [done|].
  destruct (Updater.commit _ _ _ _) as [c es]. by case_decide.
Qed.
End used_secrets.

Section secrets.
Context `{CA : CacheAPI} `{PL : !ProtoMessage ListenerV3}.
Context (build : VirtualService → Store.OptimizedStore → result Updater.Resources).

(** C21. Secrets in use cannot be deleted, and only those: after a successful
    rebuild the webhook refuses to delete a secret exactly when some service of
    the store with node IDs uses it in its resources (an empty namespace counts
    as [default]). *)
Theorem used_secrets_protected r c secret :
  let c' := (Updater.rebuildSnapshots build r c).1 in
  let ns := if decide (Namespace (meta secret) = "") then "default" else Namespace (meta secret) in
  (∀ X, Updater.r_ord r X ≡ₚ elements X) → (Updater.rebuildSnapshots build r c).2 = None →
  is_ok (Secret_ValidateDelete c' (KSecret secret)) = false ↔
  ∃ nn, uses build (Updater.store c) (Updater.r_vs r (Updater.store c))
          (Helpers.mkNN ns (Name (meta secret))) nn.
Proof using Type.
  intros c' ns Hord Herr. set (x := Helpers.mkNN ns (Name (meta secret))).
  assert (is_ok (Secret_ValidateDelete c' (KSecret secret)) = false ↔ is_Some (Updater.usedSecretsOf c' !! x)) as ->.
  { unfold Secret_ValidateDelete. cbn [as_Secret expect]. rewrite bind_Ok. unfold Updater.GetUsedSecrets.
    rewrite copy_map_id. fold ns x. case_decide as Hs.
    - destruct (Updater.usedSecretsOf c' !! x) as [vs|]; cbn; [by split; [eexists|]|by split; [|intros [? ?]]].
    - assert (Updater.usedSecretsOf c' = ∅) as -> by (apply map_size_empty_iff; lia).
      rewrite lookup_empty. cbn. by split; [|intros [? ?]]. }
  unfold c', Updater.rebuildSnapshots in Herr |- *. set (b := Updater.build_with build r _ _) in *.
  destruct (Updater.bErr b) as [e|] eqn:He; [done|]. cbn.
  unfold b, Updater.build_with in He |- *.
  destruct (Rebuild.buildSnapshots_ok _ _ _ _ _ _ _ _ Hord He) as (s & Hg & Hb & _). rewrite Hb in He |- *.
  rewrite (build_tail_used _ _ _ _ _ _ _ He). cbn.
  destruct (build_resources_used _ _ _ _ _ _ _ Hord Hg x) as [H1 H2]. split.
  - intros [nn Hs]. exists nn. by apply H2.
  - intros [nn Hu]. by eapply H1.
Qed.

(** ** Creating a cluster *)
Context `{PC : !ProtoMessage ClusterV3}.
Context (pem_Decode : string → option (DomainSecrets.PemBlock * string)).
Context (x509_ParseCertificate : string → result DomainSecrets.Time).

(** C22. The cluster webhook discharges the store's assumption: a cluster that is
    admitted on creation can be stored without two clusters defining the same
    Envoy cluster; the whole invariant of the store, the exactness of its index by
    Envoy name included, is kept, with names owned by the clusters that define
    them. *)
Theorem admitted_cluster_keeps_index own spec_own cu cluster w :
  let st := Updater.store cu in
  Store.wf pem_Decode x509_ParseCertificate own spec_own st →
  own (uid cluster) = key cluster →
  Cluster_ValidateCreate cu (KCluster cluster) = Ok w →
  ∃ spec_own', Store.wf pem_Decode x509_ParseCertificate own spec_own' (Store.SetCluster st cluster) ∧
    ∀ n, Store.spec_name cluster = Some n → spec_own' n = key cluster.
Proof using Type.
  intros st Hwf Hown Hv. unfold Cluster_ValidateCreate in Hv. cbn [as_Cluster expect] in Hv. rewrite bind_Ok in Hv.
  apply bind_Ok_inv in Hv as (v3 & Hv3%Clusters.unmarshal_validate_name & Hv).
  set (n0 := cName v3) in *. exists (λ n, if decide (n = n0) then key cluster else spec_own n).
  assert (∀ n, Store.spec_name cluster = Some n → (if decide (n = n0) then key cluster else spec_own n) = key cluster)
    as Hname by (intros n Hn; rewrite decide_True by congruence; done).
  split; [|exact Hname]. apply Store.wf_SetCluster; [done|exact Hname|].
  destruct Hwf as [? ? ? Hcl ? ? ? ? ? ? ? Hso Hspec]. split; try done. intros k c n Hk Hn.
  case_decide as He; [subst n|by eapply Hso].
  assert (key c = k) as <- by (by destruct Hcl as [[Hkey _] _]; apply Hkey in Hk).
  unfold Updater.GetSpecCluster, Store.GetSpecCluster in Hv. fold st in Hv.
  rewrite (proj2 (Hspec n0 c) (conj Hk Hn)) in Hv. case_decide as Hd; [done|].
  apply Decidable.not_or in Hd as [H1 H2]. apply dec_stable in H1, H2. unfold key, nn_of. by rewrite H1, H2.
Qed.
End secrets.

(** ** Deleting a cluster *)
Section cluster_delete.
Context `{WL : WebhookLib} `{PC : !ProtoMessage ClusterV3} `{PR : !ProtoMessage RouteV3} {CL : Clusters.ClusterLib}.

Lemma findClusterNames_obj (m : gmap string Merge.json) field x :
  x ∈ findClusterNames (Merge.JObj m) field ↔
  ∃ k v, m !! k = Some v ∧ ((k = field ∧ x = sprint_v v) ∨ x ∈ findClusterNames v field).
Proof using Type.
  cbn [findClusterNames]. apply (map_fold_weak_ind (λ r m, x ∈ r ↔ ∃ k v, m !! k = Some v ∧
    ((k = field ∧ x = sprint_v v) ∨ x ∈ findClusterNames v field))).
  { split; [by intros ?%not_elem_of_nil|]. by intros (? & ? & ?%lookup_empty_Some & _). }
  intros k v m' r Hk IH. rewrite !elem_of_app, IH. split.
  - intros [Hx|[Hx|(k' & v' & Hk' & Hx)]].
    + case_decide; [|by apply not_elem_of_nil in Hx]. apply list_elem_of_singleton in Hx. exists k, v.
      rewrite lookup_insert_eq. auto.
    + exists k, v. rewrite lookup_insert_eq. auto.
    + exists k', v'. rewrite lookup_insert_ne by congruence. auto.
  - intros (k' & v' & [[<- <-]|[Hne Hk']]%lookup_insert_Some & Hx); [|naive_solver].
    destruct Hx as [[-> ->]|Hx]; [left; rewrite decide_True by done; by apply list_elem_of_singleton|auto].
Qed.

(** The webhook finds every name the resource builder looks for. *)
Lemma builder_names_found data field x :
  x ∈ ResUtils.FindClusterNames Clusters.range_fields data field → x ∈ findClusterNames data field.
Proof using Type.
  rewrite ResUtils.FindClusterNames_spec by apply Clusters.range_fields_perm. intros Hx.
  induction Hx as [n m s Hs _|n m k v s Hk _ _ IH|n l v s Hin _ IH].
  - apply findClusterNames_obj. exists field, (Merge.JStr s). auto.
  - apply findClusterNames_obj. exists k, v. auto.
  - cbn. apply elem_of_concat. exists (findClusterNames v field). split; [exact IH|]. apply list_elem_of_fmap. by exists v.
Qed.

Lemma builder_tracing_names data x : x ∈ Clusters.tracing_names data →
  x ∈ findClusterNames data "cluster_name" ++ findClusterNames data "collector_cluster".
Proof using Type.
  unfold Clusters.tracing_names. rewrite !elem_of_app.
  intros [Hx|Hx]; [left|right]; exact (builder_names_found _ _ _ Hx).
Qed.

Lemma tracing_names_none name t spec raw json data l :
  tracing_names name t = Ok l → t_spec t = Some spec → Raw spec = Some raw →
  json_Marshal_Raw spec = Ok json → json_Unmarshal_any json = Ok data →
  name ∈ Clusters.tracing_names data → l = [Name (meta t)].
Proof using Type.
  unfold tracing_names. intros Htn Hspec Hraw Hj Hd Hname. rewrite Hspec, Hraw in Htn.
  apply bind_Ok_inv in Htn as (j & Hj'%wrap_err_Ok & Htn). assert (j = json) as -> by congruence.
  apply bind_Ok_inv in Htn as (d & Hd'%wrap_err_Ok & Htn). assert (d = data) as -> by congruence.
  apply builder_tracing_names in Hname. rewrite decide_True in Htn by exact Hname. by injection Htn as <-.
Qed.

Lemma check_route_none cluster name route :
  check_route cluster name route = Ok tt → ∃ rs, Api.Route_UnmarshalV3AndValidate route = Ok rs ∧
    ∀ r rest, r ∈ rs → rAction r ≠ Some (ActRoute (Some (SpecCluster name)) rest).
Proof using Type.
  unfold check_route. intros Hin.
  destruct (Api.Route_UnmarshalV3AndValidate route) as [rs|]; [|done]. exists rs. split; [done|].
  apply fail_if_inv in Hin. intros r rest Hrs Ha.
  assert (existsb (routes_to name) rs = true) as Hex; [|congruence].
  apply existsb_exists. exists r. split; [by apply list_elem_of_In|]. unfold routes_to. rewrite Ha.
  by apply bool_decide_eq_true.
Qed.

(** An admitted deletion of a cluster: no route of its namespace that the API
    server lists sends requests to it as a single target, and the resource builder
    finds its name in no tracing of the namespace, so that the clusters of such a
    tracing are still found. *)
Theorem admitted_cluster_deletion cl cluster w :
  Cluster_ValidateDelete cl (KCluster cluster) = Ok w →
  ∃ name routes tracings,
    Store.spec_name cluster = Some name ∧
    ListRoutes cl (Namespace (meta cluster)) = Ok routes ∧
    ListTracings cl (Namespace (meta cluster)) = Ok tracings ∧
    (∀ route, route ∈ routes → ∃ rs, Api.Route_UnmarshalV3AndValidate route = Ok rs ∧
       ∀ r rest, r ∈ rs → rAction r ≠ Some (ActRoute (Some (SpecCluster name)) rest)) ∧
    (∀ t spec raw json data, t ∈ tracings → t_spec t = Some spec → Raw spec = Some raw →
       json_Marshal_Raw spec = Ok json → json_Unmarshal_any json = Ok data →
       name ∉ Clusters.tracing_names data).
Proof using Type.
  unfold Cluster_ValidateDelete. cbn [as_Cluster expect]. rewrite bind_Ok. intros Hv.
  apply bind_Ok_inv in Hv as (v3 & Hv3 & Hv). apply bind_Ok_inv in Hv as (routes & Hr & Hv).
  apply bind_Ok_inv in Hv as (us & Hus%Api.map_result_unit_Ok & Hv).
  apply bind_Ok_inv in Hv as (tracings & Ht%wrap_err_Ok & Hv).
  apply bind_Ok_inv in Hv as (names & Hn%map_result_Ok & Hv). apply refuse_bind in Hv as [Hnil _].
  exists (cName v3), routes, tracings. split; [unfold Store.spec_name; by rewrite Hv3|].
  split; [by destruct (ListRoutes cl _); [injection Hr as ->|]|]. split; [done|]. split.
  - intros route Hin. eapply check_route_none. exact (proj1 (Forall_forall _ _) Hus route Hin).
  - intros t spec raw json data Hin Hspec Hraw Hj Hd Hname.
    destruct (Forall2_elem_l _ _ _ _ Hn Hin) as (l & Hl & Htn).
    rewrite (tracing_names_none _ _ _ _ _ _ _ Htn Hspec Hraw Hj Hd Hname) in Hl.
    assert (Name (meta t) ∈ concat names) as Hc; [|rewrite Hnil in Hc; by apply not_elem_of_nil in Hc].
    apply elem_of_concat. eexists. split; [|exact Hl]. left.
Qed.
End cluster_delete.

(** ** Admitting a service *)
Section service.
Context `{CA : CacheAPI} `{PL : !ProtoMessage ListenerV3}.
Context (build : VirtualService → Store.OptimizedStore → result Updater.Resources).

(** The dry run over the store with the new service went through. *)
Record buildable (r : Updater.Run) (st : Store.OptimizedStore) : Prop := {
  bl_services v : v ∈ Updater.r_vs r st → Api.GetNodeIDs v ≠ [] ∧ is_ok (build v st) = true;
  bl_domains : NoDup ((λ c, (c.1.1, c.1.2)) <$> Rebuild.claims_of build (Updater.r_ord r) st (Updater.r_vs r st))
}.

Lemma heavy_buildable r c vs : (∀ X, Updater.r_ord r X ≡ₚ elements X) →
  Updater.DryBuildSnapshotsWithVirtualService build r c vs = None →
  buildable r (Store.SetVirtualService (Store.Copy (Updater.store c)) vs).
Proof using Type.
  intros Hord He. unfold Updater.DryBuildSnapshotsWithVirtualService, Updater.build_with in He.
  set (st := Store.SetVirtualService _ vs) in *. split.
  - intros v Hin. pose proof (Rebuild.blocks_commit build (Updater.r_ctx r) (Updater.r_ord r) (Updater.r_lord r)
      (Updater.getValidationIndicesEnabled (Updater.r_env r)) SnapshotCache.NewSnapshotCache st
      (Updater.r_vs r st) v Hord Hin) as Hx.
    split; [intros Hn|destruct (is_ok (build v st)) eqn:Hb; [done|]]; exfalso; apply Hx; auto.
  - destruct (Rebuild.buildSnapshots_ok _ _ _ _ _ _ _ _ Hord He) as (s & Hg & _).
    by eapply Rebuild.unique_domains.
Qed.

(** C20. What admission of a new service guarantees.  Either the program runs in development
    mode and the service has the annotation that skips validation, and the answer warns of it; or the
    answer has no warning, and the service has node IDs, at most one
    of the two tracing settings and, if it refers to a tracing, one that the API server has;
    and, in the store with the service added, every service has node IDs and builds, and no two services
    claim the same domain on a node, unless the light validation is enabled and accepts the service, when it is
    known to build and to list each domain once. *)
Theorem admitted_service_is_buildable r ctx order c config cl vs warnings :
  (∀ X, Updater.r_ord r X ≡ₚ elements X) →
  VirtualService_ValidateCreate (updater_of build r ctx order c) config cl (KVirtualService vs) = Ok warnings →
  let store' := Store.SetVirtualService (Store.Copy (Updater.store c)) vs in
  (DevMode config = true ∧ nilmap_get (Annotations (meta vs)) "envoy.kaasops.io/skip-validation" = Some "true" ∧ warnings ≠ []) ∨
  warnings = [] ∧ Api.GetNodeIDs vs ≠ [] ∧
  match TracingRaw (Common (vs_spec vs)), TracingRef (Common (vs_spec vs)) with
  | Some _, Some _ => False
  | _, Some ref => ∃ t, GetTracing cl (Helpers.mkNN
      (match refNamespace ref with Some ns => ns | None => Namespace (meta vs) end) (refName ref)) = Ok t
  | _, None => True
  end ∧
  (buildable r store' ∨
   LightDryRun config = true ∧
   Updater.DryValidateVirtualServiceLight build ctx c vs None (ValidationIndices config) order = Ok tt ∧
   ∃ res, build vs store' = Ok res ∧ NoDup (Updater.RDomains res)).
Proof using Type.
  intros Hord Hv. unfold VirtualService_ValidateCreate in Hv. cbn [as_VirtualService expect] in Hv.
  rewrite bind_Ok in Hv. destruct (skip_validation config vs) eqn:Hskip.
  { left. injection Hv as <-. unfold skip_validation in Hskip. apply andb_true_iff in Hskip as [? ?%bool_decide_eq_true]. done. }
  right. apply bind_Ok_inv in Hv as ([] & Hv%wrap_err_Ok & [= <-]). unfold validateVirtualService in Hv.
  apply bind_Ok_inv in Hv as ([] & Hn%fail_if_inv%bool_decide_eq_false & Hv).
  apply bind_Ok_inv in Hv as ([] & Ht & Hv). split; [done|]. split; [by intros Hz; rewrite Hz in Hn|]. split.
  - unfold validateVSTracing in Ht. apply bind_Ok_inv in Ht as ([] & Hx%fail_if_inv & Ht).
    destruct (TracingRaw _), (TracingRef (Common (vs_spec vs))) as [ref|]; try done.
    apply bind_Ok_inv in Ht as ([] & _ & Ht). apply bind_Ok_inv in Ht as (t & Ht%wrap_err_Ok & _).
    exists t. rewrite <-Ht. by destruct (refNamespace ref).
  - assert (heavy (updater_of build r ctx order c) config vs = Ok tt →
      buildable r (Store.SetVirtualService (Store.Copy (Updater.store c)) vs)) as Hheavy.
    { unfold heavy. cbn. destruct (Updater.DryBuildSnapshotsWithVirtualService build r c vs) as [e|] eqn:Hd;
        [destruct (errors_Is e _); [done|by destruct e]|]. intros _. by apply heavy_buildable. }
    unfold getLightDryRunEnabled in Hv. destruct (LightDryRun config); [|left; by apply Hheavy].
    unfold light in Hv. cbn in Hv.
    destruct (Updater.DryValidateVirtualServiceLight build ctx c vs None _ order) as [[]|e] eqn:Hl;
      [right; split_and!; [done..|by eapply Rebuild.light_builds]|left].
    destruct (errors_Is e _); [by apply Hheavy|]. destruct (errors_Is e _); [done|by destruct e].
Qed.
End service.

(** ** Witnesses *)
Module Examples.
Definition unused : Route := mkRoute (mkMeta "r" "ns" "ur" 1 None None) [mkRaw (Some "/") None].
Definition history : list Store.op := MainBuilder.Examples.history ++ [Store.OSetRoute unused].
(** Lists the service in its namespace, and nothing else. *)
Definition client (vs : VirtualService) : Client :=
  mkClient (λ ns, Ok (if decide (ns = Namespace (meta vs)) then [vs] else [])) (λ _, Ok []) (λ _, Ok [])
    (λ _, Ok []) (λ _, Err (ErrNew "not found")).
Definition config : WebhookConfig := mkConfig 0 false false false.
Definition lib : WebhookLib :=
  {| json_Marshal_Raw r := Ok (raw_bytes r); json_Unmarshal_any _ := Ok Merge.JNull; sprint _ := "" |}.
Definition build (v : VirtualService) (st : Store.OptimizedStore) : result Updater.Resources :=
  Ok (Updater.mkResources (Helpers.mkNN "ns" "l") [] None [] [] [Helpers.mkNN "ns" "s"] ["a.io"]).
Definition pick (st : Store.OptimizedStore) : list VirtualService := [MainBuilder.Examples.vs].
Definition run : Updater.Run :=
  Updater.mkRun (λ _, None) pick elements Mixer.listener_entries "".
End Examples.

Section witnesses.
#[local] Existing Instances MainBuilder.Examples.lib MainBuilder.Examples.json MainBuilder.Examples.vh_pb
  MainBuilder.Examples.listener_pb HttpFilters.Examples.sha HttpFilters.Examples.lib HttpFilters.Examples.hf_pb
  HttpFilters.Examples.policy_pb Clusters.Examples.cl_pb Clusters.Examples.lib Routes.Examples.route_pb
  Routes.Examples.rc_pb FilterChains.Examples.lib FilterChains.Examples.al_pb FilterChains.Examples.tr_pb
  FilterChains.Examples.uc_pb FilterChains.Examples.h2_pb FilterChains.Examples.hcm_pb
  FilterChains.Examples.fc_pb Examples.lib.
Local Abbreviation vs := MainBuilder.Examples.vs.
Local Abbreviation st := (foldl (Store.exec MainBuilder.Examples.pem MainBuilder.Examples.x509)
  Store.NewOptimizedStore Examples.history).
Local Abbreviation run := (λ v store, MainBuilder.resbuilder_BuildResources MainBuilder.Examples.clk
  MainBuilder.Examples.clock MainBuilder.Examples.sord MainBuilder.Examples.sord MainBuilder.Examples.pord
  MainBuilder.Examples.eord store (Some v) MainBuilder.Examples.w0).
Local Abbreviation build := (λ v store, (run v store).1).

Lemma stored_vs nn v : Store.GetVirtualService st nn = Some v → nn = key vs ∧ v = vs.
Proof.
  unfold Store.GetVirtualService.
  assert (Index.items (Store.virtualServices st) = {[ key vs := vs ]}) as -> by (vm_compute; reflexivity).
  by intros [<- <-]%lookup_singleton_Some.
Qed.
Lemma example_sees : sees (Examples.client vs) st.
Proof.
  intros nn v l [-> ->]%stored_vs Hl. exists vs. split; [|by left]. vm_compute in Hl. injection Hl as <-. left.
Qed.
Lemma example_covered : covered DRoute vs.
Proof. split; [done..|]. intros ref Hin. vm_compute in Hin. by apply not_elem_of_nil in Hin. Qed.

Lemma admitted_deletion_keeps_builds_witness :
  validate_delete DRoute (Examples.client vs) (KRoute Examples.unused) = Ok [] ∧
  is_Some (Store.GetRoute st (key Examples.unused)) ∧ is_ok (build vs st) = true ∧
  run vs st = run vs (delete_from DRoute st (key Examples.unused)).
Proof.
  split; [reflexivity|]. split; [vm_compute; eexists; reflexivity|]. split; [vm_compute; reflexivity|].
  apply (admitted_deletion_keeps_builds MainBuilder.Examples.clk MainBuilder.Examples.clock
    MainBuilder.Examples.sord MainBuilder.Examples.sord MainBuilder.Examples.pord MainBuilder.Examples.eord
    DRoute (Examples.client vs) st (key vs) vs (KRoute Examples.unused) [] (meta Examples.unused)
    MainBuilder.Examples.w0).
  - exact example_sees.
  - reflexivity.
  - reflexivity.
  - vm_compute. reflexivity.
  - exact example_covered.
Defined.

Lemma one_service_distinct n r c x nn fc :
  Mixer.names_distinct [Mixer.OAdd n RouteType r; Mixer.OAdd n ClusterType c; Mixer.OAdd n SecretType x;
    Mixer.OParams nn [fc] n].
Proof.
  split.
  - intros node typ. unfold Mixer.added. cbn. destruct (decide (n = node)) as [->|Hn].
    + destruct typ; cbn; repeat case_decide; try naive_solver; repeat constructor; set_solver.
    + repeat case_decide; naive_solver constructor.
  - intros nn' node. unfold Mixer.params. cbn. case_decide; cbn; [apply NoDup_singleton|constructor].
  - intros n1 n2 node. unfold Mixer.params. cbn. case_decide as H1; [|by intros []].
    case_decide as H2; [|by intros _ []]. by destruct H1 as [<- _], H2 as [<- _].
Qed.
Lemma example_ops_distinct : Mixer.names_distinct (Updater.all_ops build elements st [vs]).
Proof.
  match goal with |- Mixer.names_distinct ?o => eassert (o = _) as Ho by (vm_compute; reflexivity) end.
  refine (eq_ind_r Mixer.names_distinct _ Ho). apply one_service_distinct.
Qed.


Local Abbreviation updater := (Updater.NewCacheUpdater SnapshotCache.NewSnapshotCache st).
Local Abbreviation secret := (mkSecret (mkMeta "s" "ns" "us" 1 None None) None).

Lemma used_secrets_protected_witness :
  is_ok (Secret_ValidateDelete (Updater.rebuildSnapshots build Examples.run updater).1 (KSecret secret)) = false.
Proof.
  apply (used_secrets_protected build Examples.run updater secret).
  - reflexivity.
  - vm_compute. reflexivity.
  - exists (key vs), vs. eexists. split; [left|]. split; [reflexivity|]. split; [discriminate|].
    split; [vm_compute; reflexivity|]. vm_compute. left.
Defined.

Local Abbreviation own := (λ u : string, if decide (u = "uc1") then Helpers.mkNN "ns" "c1" else Helpers.mkNN "ns" "c2").
Local Abbreviation c1_only := [Store.OSetCluster (mkCluster (mkMeta "c1" "ns" "uc1" 1 None None) (Some (mkRaw (Some "one") None)))].
Local Abbreviation st_c1 := (foldl (Store.exec MainBuilder.Examples.pem MainBuilder.Examples.x509)
  Store.NewOptimizedStore c1_only).
Local Abbreviation new_cluster := (mkCluster (mkMeta "c2" "ns" "uc2" 1 None None) (Some (mkRaw (Some "two") None))).

Lemma admitted_cluster_keeps_index_witness :
  ∃ spec_own', Store.wf MainBuilder.Examples.pem MainBuilder.Examples.x509 own spec_own'
    (Store.SetCluster st_c1 new_cluster) ∧
    ∀ n, Store.spec_name new_cluster = Some n → spec_own' n = key new_cluster.
Proof.
  apply (admitted_cluster_keeps_index MainBuilder.Examples.pem MainBuilder.Examples.x509 own
    (λ n, Helpers.mkNN "ns" "c1") (Updater.NewCacheUpdater SnapshotCache.NewSnapshotCache st_c1) new_cluster []).
  - apply Store.wf_history; [repeat constructor|apply Store.wf_new].
  - reflexivity.
  - vm_compute. reflexivity.
Defined.

Lemma admitted_cluster_deletion_witness :
  ∃ name, Store.spec_name new_cluster = Some name.
Proof.
  destruct (admitted_cluster_deletion (Examples.client vs) new_cluster []) as (name & routes & tracings & Hn & _).
  - vm_compute. reflexivity.
  - exists name. exact Hn.
Defined.

Lemma admitted_service_is_buildable_witness :
  VirtualService_ValidateCreate (updater_of Examples.build Examples.run (λ _, None) Examples.pick updater)
    Examples.config (Examples.client vs) (KVirtualService vs) = Ok [] ∧ Api.GetNodeIDs vs ≠ [].
Proof.
  assert (VirtualService_ValidateCreate (updater_of Examples.build Examples.run (λ _, None) Examples.pick updater)
    Examples.config (Examples.client vs) (KVirtualService vs) = Ok []) as Hv by (vm_compute; reflexivity).
  split; [exact Hv|].
  destruct (admitted_service_is_buildable Examples.build Examples.run (λ _, None) Examples.pick updater
    Examples.config (Examples.client vs) vs []) as [(_ & _ & Hne)|(_ & Hn & _)].
  - reflexivity.
  - exact Hv.
  - destruct Hne. reflexivity.
  - exact Hn.
Defined.

(** ** What the validators do not see *)
(** A service that refers to a route of another namespace, and one that uses
    [accessLogConfigs]. *)
Local Abbreviation with_common c := (mkVS (meta vs) (mkVSSpec c None [] ∅) (mkVSObjStatus "" false)).
Local Abbreviation base_common := (Common (vs_spec vs)).
Local Abbreviation foreign := (with_common (mkCommon (VirtualHostRaw base_common) (ListenerRef base_common)
  (TlsCfg base_common) None [] None [] [] [mkRef "r" (Some "other")] [] None None None None None None None)).
Local Abbreviation logged := (with_common (mkCommon (VirtualHostRaw base_common) (ListenerRef base_common)
  (TlsCfg base_common) None [] None [mkRef "log" None] [] [] [] None None None None None None None)).
Local Abbreviation foreign_route := (mkRoute (mkMeta "r" "other" "ur" 1 None None) [mkRaw (Some "/x") None]).
Local Abbreviation log_config := (mkALC (mkMeta "log" "ns" "ua" 1 None None) (Some (mkRaw (Some "x") None))).
Local Abbreviation store_of ops := (foldl (Store.exec MainBuilder.Examples.pem MainBuilder.Examples.x509)
  Store.NewOptimizedStore ops).

(** The deletion of a route used from another namespace is admitted, and the
    service no longer builds. *)
Example foreign_route_deletion_breaks_service :
  let st := store_of (Examples.history ++ [Store.OSetVirtualService foreign; Store.OSetRoute foreign_route]) in
  validate_delete DRoute (Examples.client foreign) (KRoute foreign_route) = Ok [] ∧
  is_ok (build foreign st) = true ∧
  is_ok (build foreign (delete_from DRoute st (key foreign_route))) = false.
Proof. vm_compute. auto. Qed.

(** So is the deletion of an access log configuration listed in
    [accessLogConfigs]. *)
Example listed_log_deletion_breaks_service :
  let st := store_of (Examples.history ++ [Store.OSetVirtualService logged; Store.OSetAccessLog log_config]) in
  validate_delete DAccessLog (Examples.client logged) (KAccessLogConfig log_config) = Ok [] ∧
  is_ok (build logged st) = true ∧
  is_ok (build logged (delete_from DAccessLog st (key log_config))) = false.
Proof. vm_compute. auto. Qed.

(** An update may give a cluster the Envoy name of another one, which a creation
    may not. *)
Local Abbreviation renamed := (mkCluster (meta new_cluster) (Some (mkRaw (Some "one") None))).
Example cluster_update_takes_name :
  Cluster_ValidateUpdate (KCluster renamed) = Ok [] ∧
  is_ok (Cluster_ValidateCreate (Updater.NewCacheUpdater SnapshotCache.NewSnapshotCache st_c1)
    (KCluster renamed)) = false ∧
  key <$> Store.GetSpecCluster (Store.SetCluster st_c1 renamed) "one" = Some (key renamed) ∧
  is_Some (Store.GetCluster (Store.SetCluster st_c1 renamed) (Helpers.mkNN "ns" "c1")).
Proof. vm_compute. eauto. Qed.
End witnesses.

End Admission.
