(* ===== verification/Metrics.v ===== *)
(** * Metrics

    The Prometheus metrics of the controller: [internal/xds/resbuilder/utils/metrics.go]
    with the places that record them in [utils/lru.go], [utils/pools.go] and
    [main_builder/builder.go] (Modules [Metrics], [LruMetrics], [BuilderMetrics]), and
    [internal/webhook/v1alpha1/metrics.go] with the checks of virtual services
    (Module [WebhookMetrics]).  A vector of counters is a map from the values of its
    labels; [Inc] and [Observe] are atomic, and counters are exact below 2^53, so they
    are natural numbers here.  The recording methods are those of [Lru], [MainBuilder]
    and [Webhooks] with the calls on the registry at their places; the lemmas named
    [_erase] show that they compute the same results. *)
From S2P Require Import Prelude GoStrings Types Merge Api ResUtils StringPool DomainSecrets Store Lru.
From S2P Require Import Routes Secrets HttpFilters Clusters FilterChains SnapshotCache Mixer Updater.
From S2P Require Import MainBuilder Webhooks.

Module Metrics.

(** [WithLabelValues(...)] selects a child by the values of the labels. *)
Abbreviation labels := (list string).
Abbreviation CounterVec := (gmap labels nat).
Abbreviation GaugeVec := (gmap labels Z).
(** The observations, in nanoseconds, newest first. *)
Abbreviation HistogramVec := (gmap labels (list Z)).

Definition Inc (ls : labels) (v : CounterVec) : CounterVec :=
  partial_alter (λ o, Some (S (default 0 o))) ls v.
Definition SetGauge (ls : labels) (x : Z) (v : GaugeVec) : GaugeVec := <[ls := x]> v.
Definition Observe (ls : labels) (x : Z) (v : HistogramVec) : HistogramVec :=
  partial_alter (λ o, Some (x :: default [] o)) ls v.
(** What a scrape reads: a child that was never used reads as zero. *)
Definition count (v : CounterVec) (ls : labels) : nat := default 0 (v !! ls).
Definition gauge (v : GaugeVec) (ls : labels) : Z := default 0%Z (v !! ls).

(** The package variables of [metrics.go]. *)
Record Registry := mkRegistry {
  CacheHits : CounterVec;
  CacheMisses : CounterVec;
  CacheSize : GaugeVec;
  CacheEvictions : CounterVec;
  CacheItemAge : HistogramVec;
  BuildDuration : HistogramVec;
  ObjectPoolGets : CounterVec;
  ObjectPoolPuts : CounterVec;
  ResourceCounts : CounterVec
}.
Definition new_registry : Registry := mkRegistry ∅ ∅ ∅ ∅ ∅ ∅ ∅ ∅ ∅.

Definition RecordCacheHit (cacheType : string) (r : Registry) : Registry :=
  mkRegistry (Inc [cacheType] (CacheHits r)) (CacheMisses r) (CacheSize r) (CacheEvictions r)
    (CacheItemAge r) (BuildDuration r) (ObjectPoolGets r) (ObjectPoolPuts r) (ResourceCounts r).
Definition RecordCacheMiss (cacheType : string) (r : Registry) : Registry :=
  mkRegistry (CacheHits r) (Inc [cacheType] (CacheMisses r)) (CacheSize r) (CacheEvictions r)
    (CacheItemAge r) (BuildDuration r) (ObjectPoolGets r) (ObjectPoolPuts r) (ResourceCounts r).
Definition UpdateCacheSize (cacheType : string) (size : nat) (r : Registry) : Registry :=
  mkRegistry (CacheHits r) (CacheMisses r) (SetGauge [cacheType] (Z.of_nat size) (CacheSize r))
    (CacheEvictions r) (CacheItemAge r) (BuildDuration r) (ObjectPoolGets r) (ObjectPoolPuts r)
    (ResourceCounts r).
Definition RecordCacheEviction (cacheType reason : string) (r : Registry) : Registry :=
  mkRegistry (CacheHits r) (CacheMisses r) (CacheSize r) (Inc [cacheType; reason] (CacheEvictions r))
    (CacheItemAge r) (BuildDuration r) (ObjectPoolGets r) (ObjectPoolPuts r) (ResourceCounts r).
Definition ObserveItemAge (cacheType result : string) (age : Z) (r : Registry) : Registry :=
  mkRegistry (CacheHits r) (CacheMisses r) (CacheSize r) (CacheEvictions r)
    (Observe [cacheType; result] age (CacheItemAge r)) (BuildDuration r) (ObjectPoolGets r)
    (ObjectPoolPuts r) (ResourceCounts r).
Definition RecordBuildDuration (resourceType operation : string) (duration : Z) (r : Registry) : Registry :=
  mkRegistry (CacheHits r) (CacheMisses r) (CacheSize r) (CacheEvictions r) (CacheItemAge r)
    (Observe [resourceType; operation] duration (BuildDuration r)) (ObjectPoolGets r)
    (ObjectPoolPuts r) (ResourceCounts r).
Definition RecordObjectPoolGet (poolType : string) (r : Registry) : Registry :=
  mkRegistry (CacheHits r) (CacheMisses r) (CacheSize r) (CacheEvictions r) (CacheItemAge r)
    (BuildDuration r) (Inc [poolType] (ObjectPoolGets r)) (ObjectPoolPuts r) (ResourceCounts r).
Definition RecordObjectPoolPut (poolType : string) (r : Registry) : Registry :=
  mkRegistry (CacheHits r) (CacheMisses r) (CacheSize r) (CacheEvictions r) (CacheItemAge r)
    (BuildDuration r) (ObjectPoolGets r) (Inc [poolType] (ObjectPoolPuts r)) (ResourceCounts r).
Definition RecordResourceCreation (resourceType : string) (r : Registry) : Registry :=
  mkRegistry (CacheHits r) (CacheMisses r) (CacheSize r) (CacheEvictions r) (CacheItemAge r)
    (BuildDuration r) (ObjectPoolGets r) (ObjectPoolPuts r) (Inc [resourceType] (ResourceCounts r)).

Lemma count_Inc ls ls' v :
  count (Inc ls v) ls' = count v ls' + (if decide (ls = ls') then 1 else 0).
Proof.
  unfold count, Inc. destruct (decide (ls = ls')) as [->|Hne].
  - rewrite lookup_partial_alter_eq. simpl. lia.
  - rewrite lookup_partial_alter_ne by done. lia.
Qed.
Lemma gauge_Set ls ls' x v :
  gauge (SetGauge ls x v) ls' = if decide (ls = ls') then x else gauge v ls'.
Proof. unfold gauge, SetGauge. case_decide; by simplify_map_eq. Qed.

End Metrics.

(** ** [utils/lru.go] *)
Module LruMetrics.
Import Lru Metrics.

Section ops.
Context {V : Type} (cacheType : string).
Implicit Types (c : LRUCache V) (k : string) (v : V) (now : Time) (r : Registry).

(** [Get] locks twice: it looks the key up under the read lock, where an absent key is
    a miss at once, and does everything again under the write lock. *)
Definition Get_read c k : bool := bool_decide (is_Some (cache c !! k)).
Definition Get_locked c now k r : option V * (LRUCache V * Registry) :=
  match cache c !! k with
  | None => (None, (c, RecordCacheMiss cacheType r))
  | Some element =>
      match elems c !! element with
      | None => (None, (c, r))
      | Some item =>
          if bool_decide (0 < ttl c)%Z && expired c now item then
            let c := list_Remove c element in
            let c := set_cache c (delete k (cache c)) in
            let r := RecordCacheEviction cacheType "ttl" r in
            let r := RecordCacheMiss cacheType r in
            (None, (c, UpdateCacheSize cacheType (Len c) r))
          else
            let c := list_MoveToFront c element in
            (Some (Value item), (c, RecordCacheHit cacheType r))
      end
  end.

Definition Set_ c now k v r : LRUCache V * Registry :=
  match cache c !! k with
  | Some element =>
      match elems c !! element with
      | None => (c, r)
      | Some item => (set_elem (list_MoveToFront c element) element (mkItem (Key item) v now), r)
      end
  | None =>
      let '(c, r) := if bool_decide (capacity c ≤ Z.of_nat (length (ll c)))%Z
                     then (evictOldest c, RecordCacheEviction cacheType "lru" r) else (c, r) in
      let '(element, c) := list_PushFront c (mkItem k v now) in
      let c := set_cache c (<[k := element]> (cache c)) in
      (c, UpdateCacheSize cacheType (Len c) r)
  end.

Definition Remove c k r : LRUCache V * Registry :=
  match cache c !! k with
  | Some element =>
      let c := list_Remove c element in
      let c := set_cache c (delete k (cache c)) in
      let r := RecordCacheEviction cacheType "manual" r in
      (c, UpdateCacheSize cacheType (Len c) r)
  | None => (c, r)
  end.

Definition Clear c r : LRUCache V * Registry :=
  let oldSize := Len c in
  let r := if decide (0 < oldSize) then RecordCacheEviction cacheType "bulk_clear" r else r in
  (Lru.Clear c, UpdateCacheSize cacheType 0 r).

Definition remove_expired_step now (st : LRUCache V * nat * Registry) (e : nat)
    : LRUCache V * nat * Registry :=
  let '(c, removed, r) := st in
  match elems c !! e with
  | None => (c, removed, r)
  | Some item =>
      if expired c now item then
        let c := list_Remove c e in
        (set_cache c (delete (Key item) (cache c)), S removed, RecordCacheEviction cacheType "ttl" r)
      else (c, removed, r)
  end.
Definition RemoveExpired c now r : nat * (LRUCache V * Registry) :=
  if bool_decide (ttl c ≤ 0)%Z then (0, (c, r))
  else
    let '(c, removed, r) := foldl (remove_expired_step now) (c, 0, r) (reverse (ll c)) in
    (removed, (c, if decide (0 < removed) then UpdateCacheSize cacheType (Len c) r else r)).

(** *** Recording changes nothing else *)
Lemma Get_erase c now k r :
  ((Get_locked c now k r).1, (Get_locked c now k r).2.1) = Lru.Get c now k ∧
  (Get_read c k = false → Lru.Get c now k = (None, c)).
Proof.
  unfold Get_locked, Get_read, Lru.Get. destruct (cache c !! k) as [e|]; [|done].
  split; [|by rewrite bool_decide_eq_true_2 by eauto].
  destruct (elems c !! e) as [i|]; [|done]. by destruct (_ && _).
Qed.
Lemma Set_erase c now k v r : (Set_ c now k v r).1 = Lru.Set_ c now k v.
Proof.
  unfold Set_, Lru.Set_. destruct (cache c !! k) as [e|].
  - by destruct (elems c !! e).
  - by destruct (bool_decide _).
Qed.
Lemma Remove_erase c k r : (Remove c k r).1 = Lru.Remove c k.
Proof. unfold Remove, Lru.Remove. by destruct (cache c !! k). Qed.
Lemma remove_expired_erase now l c n r :
  ∃ d, foldl (remove_expired_step now) (c, n, r) l =
    (foldl (Lru.remove_expired_step now) (c, n) l, Nat.iter d (RecordCacheEviction cacheType "ttl") r) ∧
  (foldl (Lru.remove_expired_step now) (c, n) l).2 = n + d.
Proof.
  revert c n r. induction l as [|e l IH]; intros c n r; simpl.
  - exists 0. split; [done|simpl; lia].
  - destruct (elems c !! e) as [i|]; [|apply IH]. destruct (expired c now i); [|apply IH].
    match goal with |- context [foldl _ (?c1, S n, ?r1) l] => destruct (IH c1 (S n) r1) as (d & -> & ->) end.
    exists (S d). split; [|lia]. by rewrite Nat.iter_succ_r.
Qed.
Lemma RemoveExpired_erase c now r :
  ((RemoveExpired c now r).1, (RemoveExpired c now r).2.1) = Lru.RemoveExpired c now.
Proof.
  unfold RemoveExpired, Lru.RemoveExpired. case_bool_decide; [done|].
  destruct (remove_expired_erase now (reverse (ll c)) c 0 r) as (d & -> & _).
  by destruct (foldl _ _ _).
Qed.

End ops.

(** ** Goroutines that share a cache

    [waiting] are the calls of [Get] between their two locks, by goroutine.  The
    remaining fields count what happened, to be compared with the metrics: calls of
    [Get] begun and ended with and without a value, keys inserted and dropped by
    [Clear]. *)
Section threads.
Context {V : Type} (cacheType : string).

Record conf := mkConf {
  lru : LRUCache V;
  reg : Registry;
  waiting : gmap nat string;
  begun : nat;
  answered : nat;
  unanswered : nat;
  inserted : nat;
  dropped : nat
}.

Inductive step : conf → conf → Prop :=
| step_get_absent t k c r w b a u i d :
    w !! t = None → Get_read c k = false →
    step (mkConf c r w b a u i d) (mkConf c (RecordCacheMiss cacheType r) w (S b) a (S u) i d)
| step_get_present t k c r w b a u i d :
    w !! t = None → Get_read c k = true →
    step (mkConf c r w b a u i d) (mkConf c r (<[t := k]> w) (S b) a u i d)
| step_get_hit t k now x c r w b a u i d c' r' :
    w !! t = Some k → Get_locked cacheType c now k r = (Some x, (c', r')) →
    step (mkConf c r w b a u i d) (mkConf c' r' (delete t w) b (S a) u i d)
| step_get_miss t k now c r w b a u i d c' r' :
    w !! t = Some k → Get_locked cacheType c now k r = (None, (c', r')) →
    step (mkConf c r w b a u i d) (mkConf c' r' (delete t w) b a (S u) i d)
| step_set now k x c r w b a u i d c' r' :
    Set_ cacheType c now k x r = (c', r') →
    step (mkConf c r w b a u i d)
      (mkConf c' r' w b a u (if Get_read c k then i else S i) d)
| step_remove k c r w b a u i d c' r' :
    Remove cacheType c k r = (c', r') →
    step (mkConf c r w b a u i d) (mkConf c' r' w b a u i d)
| step_clear c r w b a u i d c' r' :
    Clear cacheType c r = (c', r') →
    step (mkConf c r w b a u i d) (mkConf c' r' w b a u i (d + Len c))
| step_expire now n c r w b a u i d c' r' :
    RemoveExpired cacheType c now r = (n, (c', r')) →
    step (mkConf c r w b a u i d) (mkConf c' r' w b a u i d).

Definition start (capacity : Z) (ttl : Time) (r : Registry) : conf :=
  mkConf (NewTypedLRUCache capacity ttl) r ∅ 0 0 0 0 0.

Definition hits (s : conf) : nat := count (CacheHits (reg s)) [cacheType].
Definition misses (s : conf) : nat := count (CacheMisses (reg s)) [cacheType].
Definition size_gauge (s : conf) : Z := gauge (CacheSize (reg s)) [cacheType].
Definition evictions (s : conf) (reason : string) : nat :=
  count (CacheEvictions (reg s)) [cacheType; reason].

(** No metric of another cache type differs. *)
Definition others_same (r r' : Registry) : Prop :=
  ∀ ct reason, ct ≠ cacheType →
    count (CacheHits r') [ct] = count (CacheHits r) [ct] ∧
    count (CacheMisses r') [ct] = count (CacheMisses r) [ct] ∧
    gauge (CacheSize r') [ct] = gauge (CacheSize r) [ct] ∧
    count (CacheEvictions r') [ct; reason] = count (CacheEvictions r) [ct; reason].

(** The metrics of a cache with a fresh label, and the invariant of the cache. *)
Record exact (cap : Z) (r0 : Registry) (s : conf) : Prop := {
  ex_ok : ok (lru s);
  ex_cap : capacity (lru s) = cap;
  ex_hits : hits s = answered s;
  ex_misses : misses s = unanswered s;
  ex_begun : begun s = answered s + unanswered s + size (waiting s);
  ex_size : size_gauge s = Z.of_nat (Len (lru s));
  ex_flow : (0 < cap)%Z → inserted s = Len (lru s) + evictions s "lru" + evictions s "ttl" +
              evictions s "manual" + dropped s;
  ex_others : others_same r0 (reg s)
}.

(** *** How the methods change the length of the list *)
Implicit Types (c : LRUCache V).
Lemma filter_ne_length (l : list nat) e : NoDup l → e ∈ l → S (length (filter (.≠ e) l)) = length l.
Proof.
  induction 1 as [|x l Hx Hl IH]; intros He; [by apply elem_of_nil in He|].
  rewrite filter_cons. destruct (decide (x = e)) as [->|Hne].
  - rewrite decide_False by tauto. simpl. f_equal. f_equal. apply filter_all. by intros y ? ->.
  - rewrite decide_True by done. simpl. rewrite IH; [done|]. set_solver.
Qed.
Lemma Remove_length c e i : ok c → elems c !! e = Some i → S (length (ll (list_Remove c e))) = Len c.
Proof.
  intros Hok He. apply filter_ne_length; [apply Hok|]. apply ok_elems; eauto.
Qed.
Lemma move_length c e i : ok c → elems c !! e = Some i → length (ll (list_MoveToFront c e)) = Len c.
Proof. intros Hok He. by apply (Remove_length c e i). Qed.
Lemma evict_length c : ok c → 0 < Len c → S (Len (evictOldest c)) = Len c.
Proof.
  intros Hok Hlen. unfold evictOldest. destruct (last (ll c)) as [e|] eqn:He.
  - destruct (ok_item c e Hok) as [i Hi]; [by apply last_Some_elem_of|]. rewrite Hi.
    exact (Remove_length c e i Hok Hi).
  - apply last_None in He. unfold Len in Hlen. rewrite He in Hlen. simpl in Hlen. lia.
Qed.
Lemma RemoveExpired_length c now : ok c →
  Len (Lru.RemoveExpired c now).2 + (Lru.RemoveExpired c now).1 = Len c.
Proof.
  intros Hok.
  destruct (RemoveExpired_sim (capacity c) (ttl c) c (abs c) now) as [Hn [Hok' Habs _ _]]; [by split|].
  rewrite Hn. unfold Len. rewrite <-!abs_length by done. rewrite Habs. unfold Spec.RemoveExpired.
  case_decide; simpl; [lia|]. clear. induction (abs c) as [|i l IH]; [done|].
  rewrite !filter_cons. repeat case_decide; try tauto; simpl; lia.
Qed.

Lemma exec_ok c o : ok c → ok (exec c o).2 ∧ capacity (exec c o).2 = capacity c.
Proof.
  intros Hok. destruct (exec_sim (capacity c) (ttl c) c (abs c) o) as [_ [? _ ? _]]; [by split|].
  done.
Qed.

Lemma Get_ok c now k r x c' r' :
  ok c → Get_locked cacheType c now k r = (x, (c', r')) → ok c' ∧ capacity c' = capacity c.
Proof.
  intros Hok Hr. pose proof (exec_ok c (OGet now k) Hok) as H. cbn -[Lru.Get] in H.
  by rewrite <-(proj1 (Get_erase cacheType c now k r)), Hr in H.
Qed.
Lemma Expired_ok c now n r c' r' :
  ok c → RemoveExpired cacheType c now r = (n, (c', r')) → ok c' ∧ capacity c' = capacity c.
Proof.
  intros Hok Hr. pose proof (exec_ok c (ORemoveExpired now) Hok) as H. cbn -[Lru.RemoveExpired] in H.
  by rewrite <-(RemoveExpired_erase cacheType c now r), Hr in H.
Qed.
Lemma finish_size (w : gmap nat string) t k : w !! t = Some k → size w = S (size (delete t w)).
Proof.
  intros Hw. rewrite map_size_delete_Some by eauto.
  assert (size w ≠ 0) by (eapply map_size_ne_0_lookup_2; eauto). lia.
Qed.

(** What a method adds to the metrics of its cache: hits, misses, and evictions for
    each reason that counts single items. *)
Definition adds (r r' : Registry) (h m l t n : nat) : Prop :=
  count (CacheHits r') [cacheType] = count (CacheHits r) [cacheType] + h ∧
  count (CacheMisses r') [cacheType] = count (CacheMisses r) [cacheType] + m ∧
  count (CacheEvictions r') [cacheType; "lru"] = count (CacheEvictions r) [cacheType; "lru"] + l ∧
  count (CacheEvictions r') [cacheType; "ttl"] = count (CacheEvictions r) [cacheType; "ttl"] + t ∧
  count (CacheEvictions r') [cacheType; "manual"] = count (CacheEvictions r) [cacheType; "manual"] + n ∧
  others_same r r'.

Local Ltac metrics :=
  unfold adds, others_same; cbn;
  repeat (rewrite count_Inc || rewrite gauge_Set);
  repeat (case_decide || intro || split); simplify_eq/=;
  repeat (rewrite count_Inc || rewrite gauge_Set || case_decide); simplify_eq/=; try lia.

Definition gauged (c : LRUCache V) (r : Registry) : Prop :=
  gauge (CacheSize r) [cacheType] = Z.of_nat (Len c).

Lemma Get_locked_adds c now k r x c' r' :
  ok c → gauged c r → Get_locked cacheType c now k r = (x, (c', r')) →
  ∃ t, Len c = Len c' + t ∧ gauged c' r' ∧
    adds r r' (if x is Some _ then 1 else 0) (if x is Some _ then 0 else 1) 0 t 0.
Proof.
  intros Hok Hg. unfold Get_locked. destruct (cache c !! k) as [e|] eqn:Hk.
  - apply (ok_cache c Hok) in Hk as (i & He & Hi). rewrite He.
    destruct (_ && _); intros; simplify_eq.
    + exists 1. split_and!; [|unfold gauged; metrics|metrics].
      pose proof (Remove_length c e i Hok He). unfold Len in *. cbn in *. lia.
    + exists 0. split_and!; [|unfold gauged in *; cbn|metrics].
      * pose proof (move_length c e i Hok He). unfold Len in *. lia.
      * rewrite Hg. f_equal. symmetry. exact (move_length c e i Hok He).
  - intros; simplify_eq. exists 0. split_and!; [lia|done|metrics].
Qed.

Lemma Set_adds c now k v r c' r' :
  ok c → gauged c r → Set_ cacheType c now k v r = (c', r') →
  ∃ l, ((0 < capacity c)%Z → Len c + (if Get_read c k then 0 else 1) = Len c' + l) ∧
    gauged c' r' ∧ adds r r' 0 0 l 0 0.
Proof.
  intros Hok Hg. unfold Set_, Get_read. destruct (cache c !! k) as [e|] eqn:Hk.
  - apply (ok_cache c Hok) in Hk as (i & He & Hi). rewrite He. intros; simplify_eq.
    rewrite bool_decide_eq_true_2 by eauto. pose proof (move_length c e i Hok He) as Hlen.
    exists 0. split_and!; [|unfold gauged in *; cbn|metrics].
    + intros _. unfold Len in *. cbn in *. lia.
    + rewrite Hg. f_equal. done.
  - rewrite (bool_decide_eq_false_2 (is_Some (None : option nat))) by apply is_Some_None.
    case_bool_decide as Hcap; intros [= <- <-].
    + exists 1. split_and!; [|unfold gauged; metrics|metrics].
      intros Hpos. pose proof (evict_length c Hok ltac:(unfold Len; lia)) as He. unfold Len in *. cbn. lia.
    + exists 0. split_and!; [|unfold gauged; metrics|metrics]. intros _. unfold Len. cbn. lia.
Qed.

Lemma Remove_adds c k r c' r' :
  ok c → gauged c r → Remove cacheType c k r = (c', r') →
  ∃ n, Len c = Len c' + n ∧ gauged c' r' ∧ adds r r' 0 0 0 0 n.
Proof.
  intros Hok Hg. unfold Remove. destruct (cache c !! k) as [e|] eqn:Hk; intros; simplify_eq.
  - apply (ok_cache c Hok) in Hk as (i & He & Hi). exists 1.
    split_and!; [|unfold gauged; metrics|metrics].
    pose proof (Remove_length c e i Hok He). unfold Len in *. cbn in *. lia.
  - exists 0. split_and!; [lia|done|metrics].
Qed.

Lemma Clear_adds c r c' r' :
  Clear cacheType c r = (c', r') → Len c' = 0 ∧ gauged c' r' ∧ adds r r' 0 0 0 0 0.
Proof. intros [= <- <-]. split_and!; [done|unfold gauged; metrics|]. case_decide; metrics. Qed.

Lemma adds_iter n r :
  adds r (Nat.iter n (RecordCacheEviction cacheType "ttl") r) 0 0 0 n 0 ∧
  CacheSize (Nat.iter n (RecordCacheEviction cacheType "ttl") r) = CacheSize r.
Proof.
  induction n as [|n IH]; [split; [metrics|done]|]. rewrite Nat.iter_succ.
  set (r1 := Nat.iter n _ r) in *. destruct IH as [(? & ? & ? & ? & ? & Ho) Hs]. split; [|done].
  unfold adds, others_same; cbn. rewrite !count_Inc. split_and!; try (repeat case_decide; simplify_eq; lia).
  intros ct reason Hct. destruct (Ho ct reason Hct) as (? & ? & ? & ?).
  rewrite count_Inc, decide_False by congruence. split_and!; [done..|lia].
Qed.

Lemma adds_size r r' n h m l t k :
  adds r r' h m l t k → adds r (UpdateCacheSize cacheType n r') h m l t k.
Proof.
  intros (? & ? & ? & ? & ? & Ho). split_and!; try done. intros ct reason Hct.
  destruct (Ho ct reason Hct) as (? & ? & Hg & ?). cbn.
  rewrite gauge_Set, decide_False by congruence. done.
Qed.

Lemma RemoveExpired_adds c now n r c' r' :
  ok c → gauged c r → RemoveExpired cacheType c now r = (n, (c', r')) →
  Len c = Len c' + n ∧ gauged c' r' ∧ adds r r' 0 0 0 n 0.
Proof.
  intros Hok Hg Hrun. pose proof (RemoveExpired_length c now Hok) as Hlen.
  rewrite <-(RemoveExpired_erase cacheType c now r), Hrun in Hlen. cbn in Hlen.
  split; [lia|]. revert Hrun. unfold RemoveExpired. case_bool_decide.
  { intros; simplify_eq. split; [done|metrics]. }
  destruct (remove_expired_erase cacheType now (reverse (ll c)) c 0 r) as (d & -> & Hd).
  destruct (foldl _ _ _) as [c1 n1]. cbn in Hd. subst n1. intros; simplify_eq.
  destruct (adds_iter n r) as [Ha Hs]. case_decide.
  - split; [unfold gauged; metrics|]. by apply adds_size.
  - split; [|done]. unfold gauged in *. rewrite Hs, Hg. f_equal. lia.
Qed.

(** A method that keeps to [adds] keeps the metrics exact. *)
Lemma exact_adds cap r0 c r w b a u i d c' r' w' b' a' u' i' d' h m l t n :
  exact cap r0 (mkConf c r w b a u i d) → ok c' → capacity c' = capacity c →
  gauged c' r' → adds r r' h m l t n → a' = a + h → u' = u + m →
  b' + a + u + size w = b + a' + u' + size w' →
  ((0 < cap)%Z → i' + Len c + d = i + Len c' + l + t + n + d') →
  exact cap r0 (mkConf c' r' w' b' a' u' i' d').
Proof.
  intros [_ Hcap Hh Hm Hb _ Hf Ho] Hok Hc Hg (Hh' & Hm' & Hl & Ht & Hn & Ho') Ha Hu Hb' Hf'.
  unfold hits, misses, size_gauge, evictions in *; cbn in *.
  split; unfold hits, misses, size_gauge, evictions; cbn; [done|congruence|lia|lia|lia|done| |].
  - intros Hpos. specialize (Hf Hpos). specialize (Hf' Hpos). lia.
  - intros ct reason Hct.
    destruct (Ho ct reason Hct) as (? & ? & ? & ?), (Ho' ct reason Hct) as (? & ? & ? & ?).
    split_and!; congruence.
Qed.

(** Applies [exact_adds] to the method whose additions are [Ha]. *)
Local Ltac by_adds He Ha :=
  eapply exact_adds; [exact He|assumption|done|assumption|exact Ha|lia|lia|try lia|try lia].

Lemma step_exact cap r0 s s' : step s s' → exact cap r0 s → exact cap r0 s'.
Proof.
  intros Hs He. pose proof (ex_ok _ _ _ He) as Hok. pose proof (ex_size _ _ _ He) as Hg.
  pose proof (ex_cap _ _ _ He) as Hcap.
  destruct Hs as [t k c r w b a u i d Hw Hr|t k c r w b a u i d Hw Hr
    |t k now x c r w b a u i d c' r' Hw Hr|t k now c r w b a u i d c' r' Hw Hr
    |now k x c r w b a u i d c' r' Hr|k c r w b a u i d c' r' Hr|c r w b a u i d c' r' Hr
    |now n c r w b a u i d c' r' Hr]; cbn in Hok, Hg, Hcap.
  - assert (adds r (RecordCacheMiss cacheType r) 0 1 0 0 0) as Ha by metrics. by_adds He Ha.
  - assert (adds r r 0 0 0 0 0) as Ha by metrics.
    pose proof (map_size_insert_None t k w Hw). by_adds He Ha.
  - destruct (Get_locked_adds _ _ _ _ _ _ _ Hok Hg Hr) as (e & Hlen & Hg' & Ha).
    destruct (Get_ok _ _ _ _ _ _ _ Hok Hr) as [Hok' Hc'].
    pose proof (finish_size w t k Hw). by_adds He Ha.
  - destruct (Get_locked_adds _ _ _ _ _ _ _ Hok Hg Hr) as (e & Hlen & Hg' & Ha).
    destruct (Get_ok _ _ _ _ _ _ _ Hok Hr) as [Hok' Hc'].
    pose proof (finish_size w t k Hw). by_adds He Ha.
  - destruct (Set_adds _ _ _ _ _ _ _ Hok Hg Hr) as (l & Hlen & Hg' & Ha).
    destruct (exec_ok c (OSet now k x) Hok) as [Hok' Hc']. cbn -[Lru.Set_] in Hok', Hc'.
    rewrite <-(Set_erase cacheType c now k x r), Hr in Hok', Hc'. by_adds He Ha.
    intros Hpos. specialize (Hlen ltac:(lia)). destruct (Get_read c k); lia.
  - destruct (Remove_adds _ _ _ _ _ Hok Hg Hr) as (n & Hlen & Hg' & Ha).
    destruct (exec_ok c (ORemove k) Hok) as [Hok' Hc']. cbn -[Lru.Remove] in Hok', Hc'.
    rewrite <-(Remove_erase cacheType c k r), Hr in Hok', Hc'. by_adds He Ha.
  - destruct (Clear_adds _ _ _ _ Hr) as (Hlen & Hg' & Ha). injection Hr as <- _.
    destruct (exec_ok c OClear Hok) as [Hok' Hc']. by_adds He Ha.
  - destruct (RemoveExpired_adds _ _ _ _ _ _ Hok Hg Hr) as (Hlen & Hg' & Ha).
    destruct (Expired_ok _ _ _ _ _ _ Hok Hr) as [Hok' Hc']. by_adds He Ha.
Qed.

(** The metrics of a cache type that no cache has used yet. *)
Definition unused (r : Registry) : Prop :=
  count (CacheHits r) [cacheType] = 0 ∧ count (CacheMisses r) [cacheType] = 0 ∧
  gauge (CacheSize r) [cacheType] = 0%Z ∧ ∀ reason, count (CacheEvictions r) [cacheType; reason] = 0.

Lemma start_exact cap t r0 : unused r0 → exact cap r0 (start cap t r0).
Proof.
  intros (Hh & Hm & Hs & He). split; unfold hits, misses, size_gauge, evictions; cbn;
    rewrite ?Hh, ?Hm, ?Hs, ?He; [apply ok_new|done|done|done|done|done|done|done].
Qed.

Lemma reachable_exact cap t r0 s : unused r0 → rtc step (start cap t r0) s → exact cap r0 s.
Proof.
  intros Hu Hs. pose proof (start_exact cap t r0 Hu) as He. revert He.
  induction Hs as [|s1 s2 s3 Hstep _ IH]; [done|]. intros He. by apply IH, (step_exact _ _ s1).
Qed.

(** C34. In every interleaving of goroutines that share an LRU cache, the hit and
    miss counters are exactly the calls of [Get] that returned a value and that did not, a
    call counted by neither is still between its two locks, and the size gauge is the number
    of items.  With a positive capacity the eviction counters balance: the keys inserted
    are the items present, those evicted for capacity, time to live or by [Remove], and those
    that [Clear] dropped.  Metrics of other cache types do not move. *)
Theorem cache_metrics_exact cap t r0 s : unused r0 → rtc step (start cap t r0) s →
  hits s = answered s ∧ misses s = unanswered s ∧
  begun s = hits s + misses s + size (waiting s) ∧
  size_gauge s = Z.of_nat (Len (lru s)) ∧
  ((0 < cap)%Z → inserted s =
     Len (lru s) + evictions s "lru" + evictions s "ttl" + evictions s "manual" + dropped s) ∧
  others_same r0 (reg s).
Proof.
  intros Hu Hs. destruct (reachable_exact cap t r0 s Hu Hs). split_and!; try done. lia.
Qed.

End threads.

(** ** Runs of a cache of one item *)
Section examples.
Local Abbreviation empty := (NewTypedLRUCache 1 0 : LRUCache nat).
Local Abbreviation one := (Set_ "c" empty 0 "a" 1 new_registry).
Local Abbreviation two := (Set_ "c" one.1 0 "b" 2 one.2).
Local Abbreviation got := (Get_locked "c" two.1 0 "b" two.2).2.

(** A goroutine begins to read a key, another evicts it by inserting a second key, the
    first one misses, and a third call of [Get] finds the second key. *)
Lemma cache_metrics_exact_witness :
  let missed := (Get_locked "c" two.1 0 "a" two.2).2 in
  let found := (Get_locked "c" missed.1 0 "b" missed.2).2 in
  let s := mkConf found.1 found.2 ∅ 2 1 1 2 0 in
  unused "c" new_registry ∧ rtc (step "c") (start 1 0 new_registry) s ∧
  hits "c" s = 1 ∧ misses "c" s = 1 ∧ evictions "c" s "lru" = 1 ∧ size_gauge "c" s = 1%Z.
Proof.
  set (missed := (Get_locked "c" two.1 0 "a" two.2).2).
  set (found := (Get_locked "c" missed.1 0 "b" missed.2).2).
  set (s := mkConf found.1 found.2 ∅ 2 1 1 2 0).
  assert (unused "c" new_registry) as Hu by (by repeat split).
  assert (rtc (step "c") (start 1 0 new_registry) s) as Hs.
  { eapply rtc_l; [apply (step_set "c" 0 "a" 1); reflexivity|].
    eapply rtc_l; [apply (step_get_present "c" 7 "a"); reflexivity|].
    eapply rtc_l; [apply (step_set "c" 0 "b" 2); reflexivity|].
    eapply rtc_l; [apply (step_get_miss "c" 7 "a" 0); reflexivity|].
    eapply rtc_l; [apply (step_get_present "c" 8 "b"); reflexivity|].
    eapply rtc_l; [apply (step_get_hit "c" 8 "b" 0 2); reflexivity|].
    subst s. vm_compute. apply rtc_refl. }
  split; [exact Hu|]. split; [exact Hs|].
  pose proof (cache_metrics_exact "c" 1 0 new_registry s Hu Hs) as (Hh & Hm & _ & Hg & Hf & _).
  split; [exact Hh|]. split; [exact Hm|].
  split; [vm_compute; reflexivity|exact Hg].
Defined.

(** The counter of evictions is documented to count items: dropping two items with
    [Clear] counts one eviction, and a cache without capacity counts one for every
    key, before any item was there. *)
Example clear_counts_once :
  let c := NewTypedLRUCache 5 0 : LRUCache nat in
  let '(c, r) := Set_ "c" c 0 "a" 1 new_registry in
  let '(c, r) := Set_ "c" c 0 "b" 2 r in
  let '(c', r) := Clear "c" c r in
  Len c = 2 ∧ Len c' = 0 ∧ count (CacheEvictions r) ["c"; "bulk_clear"] = 1.
Proof. by vm_compute. Qed.
Example no_capacity_counts_eviction :
  let '(c, r) := Set_ "c" (NewTypedLRUCache 0 0 : LRUCache nat) 0 "a" 1 new_registry in
  Len c = 1 ∧ count (CacheEvictions r) ["c"; "lru"] = 1.
Proof. by vm_compute. Qed.
End examples.
End LruMetrics.

(** ** [main_builder/builder.go] *)
Module BuilderMetrics.
Import Envoy Lru Metrics MainBuilder.

(** The methods of [resourcesCache], over the list and map of [Lru]. *)
Definition get (now : Time) (key : string) (c : LRUCache Resources) (r : Registry)
    : option Resources * (LRUCache Resources * Registry) :=
  match cache c !! key with
  | None => (None, (c, RecordCacheMiss "main_builder" r))
  | Some element =>
      match elems c !! element with
      | None => (None, (c, r))
      | Some entry =>
          if expired c now entry then
            let c := list_Remove c element in
            let c := set_cache c (delete key (cache c)) in
            let r := RecordCacheEviction "main_builder" "ttl_expired" r in
            let r := RecordCacheMiss "main_builder" r in
            (None, (c, UpdateCacheSize "main_builder" (Len c) r))
          else
            let c := list_MoveToFront c element in
            let r := RecordCacheHit "main_builder" r in
            (Some (Value entry), (c, ObserveItemAge "main_builder" "hit" (now - Timestamp entry) r))
      end
  end.

Definition set (now : Time) (key : string) (x : Resources) (c : LRUCache Resources) (r : Registry)
    : LRUCache Resources * Registry :=
  match cache c !! key with
  | Some element =>
      match elems c !! element with
      | None => (c, r)
      | Some entry => (set_elem (list_MoveToFront c element) element (mkItem (Key entry) x now), r)
      end
  | None =>
      let '(c, r) :=
        if bool_decide (capacity c ≤ Z.of_nat (length (ll c)))%Z then
          match last (ll c) with
          | None => (c, r)
          | Some oldest =>
              match elems c !! oldest with
              | None => (c, r)
              | Some oldEntry =>
                  (list_Remove (set_cache c (delete (Key oldEntry) (cache c))) oldest,
                   RecordCacheEviction "main_builder" "lru_eviction" r)
              end
          end
        else (c, r) in
      let '(element, c) := list_PushFront c (mkItem key x now) in
      let c := set_cache c (<[key := element]> (cache c)) in
      (c, UpdateCacheSize "main_builder" (Len c) r)
  end.

Lemma get_erase now key c r : (0 < ttl c)%Z →
  ((get now key c r).1, (get now key c r).2.1) = Lru.Get c now key.
Proof.
  intros Ht. unfold get, Lru.Get. destruct (cache c !! key) as [e|]; [|done].
  destruct (elems c !! e) as [i|]; [|done]. rewrite (bool_decide_eq_true_2 (0 < ttl c)%Z) by done.
  by destruct (expired c now i).
Qed.
Lemma set_erase now key x c r : (set now key x c r).1 = Lru.Set_ c now key x.
Proof.
  unfold set, Lru.Set_, evictOldest. destruct (cache c !! key) as [e|].
  - by destruct (elems c !! e).
  - destruct (bool_decide _); [|done]. destruct (last (ll c)) as [o|]; [|done].
    by destruct (elems c !! o).
Qed.

Section builder.
Context {ML : MainLib} {JL : Api.JsonLib} {SHA : Sha256} {FL : HttpFilters.FilterLib}
  {CL : Clusters.ClusterLib} {CHL : FilterChains.ChainLib}
  {P1 : ProtoMessage HttpFilterV3} {P2 : ProtoMessage HttpFilters.PolicyV3}
  {P3 : ProtoMessage VirtualHost} {P4 : ProtoMessage RouteV3} {P5 : ProtoMessage RouteConfiguration}
  {P6 : ProtoMessage ClusterV3} {P7 : ProtoMessage ListenerV3} {P8 : ProtoMessage AccessLogV3}
  {P9 : ProtoMessage TracingV3} {P10 : ProtoMessage UpgradeConfigV3} {P11 : ProtoMessage Http2OptionsV3}
  {P12 : ProtoMessage HCM} {P13 : ProtoMessage FilterChain}.
Context (clock : string → DomainSecrets.Time).
Context (sord kord : gmap NN (list string) → list (NN * list string)).
Context (pord : gmap string RawExtension → list (string * RawExtension)).
Context (eord : gmap string string → list string).

(** The state of the builder with the registry. *)
Abbreviation recM := (stM (World * Registry)).
Definition in_world {A} (m : stM World A) : recM A :=
  λ s, let '(x, w) := m s.1 in (x, (w, s.2)).
Definition record (f : Registry → Registry) : recM unit := λ s, (Ok tt, (s.1, f s.2)).
Definition cache_get (now : Time) (key : string) : recM (option Resources) :=
  λ s, let '(x, (c, r)) := get now key (wResources s.1) s.2 in (Ok x, (set_resources s.1 c, r)).
Definition cache_set (now : Time) (key : string) (x : Resources) : recM unit :=
  λ s, let '(c, r) := set now key x (wResources s.1) s.2 in (Ok tt, (set_resources s.1 c, r)).

(** One call: the instants of [MainBuilder] and, at 6, 7 and 8, the start and the two
    ends that are measured. *)
Definition build_service (clk : nat → Time) (store : Store.OptimizedStore) (vs : VirtualService)
    (cacheKey : string) : recM Resources :=
  vs' ← in_world (lift (wrap_err "failed to apply template" (applyVirtualServiceTemplate eord store vs)));
  listenerNN ← in_world (lift (wrap_err "failed to get listener namespaced name"
                                 (Api.GetListenerNamespacedName vs')));
  xdsListener ← in_world (lift (wrap_err "failed to build listener" (buildListener store listenerNN)));
  if decide (0 < length (lFilterChains xdsListener)) then
    in_world (lift (buildResourcesFromExistingFilterChains store vs' xdsListener listenerNN))
  else
    resources ← in_world (on_copy (bool_decide (is_Some (Template (vs_spec vs))))
      (wrap_st "failed to build resources from virtual service"
         (buildResourcesFromVirtualService clk clock sord kord pord store vs' xdsListener listenerNN (key vs))));
    _ ← record (λ r, RecordBuildDuration "virtual_service" "build" (clk 8 - clk 6)
                       (RecordResourceCreation "virtual_service" r));
    _ ← cache_set (clk 5) cacheKey resources;
    mret resources.

Definition BuildResources (clk : nat → Time) (store : Store.OptimizedStore) (vs : VirtualService)
    : recM Resources :=
  let cacheKey := generateCacheKey vs in
  cachedResources ← cache_get (clk 4) cacheKey;
  match cachedResources with
  | Some r =>
      _ ← record (RecordBuildDuration "virtual_service" "cache_hit" (clk 7 - clk 6));
      mret r
  | None => build_service clk store vs cacheKey
  end.

(** Recording changes neither the result nor the state of the builder. *)
Definition erases {A} (m : recM A) (m' : stM World A) : Prop :=
  ∀ w r, (0 < ttl (wResources w))%Z → ∃ r', m (w, r) = ((m' w).1, ((m' w).2, r')).
Lemma erases_in_world {A} (m : stM World A) : erases (in_world m) m.
Proof. intros w r _. exists r. unfold in_world. cbn. by destruct (m w). Qed.
Lemma erases_lift_bind {A B} (x : result A) (f : A → recM B) (f' : A → stM World B) :
  (∀ a, erases (f a) (f' a)) → erases (a ← in_world (lift x); f a) (a ← lift x; f' a).
Proof.
  intros Hf w r Hw. unfold mbind, stM_bind, in_world, lift; cbn.
  destruct x as [a|e]; [by apply Hf|]. by exists r.
Qed.
Lemma erases_store (m : stM World Resources) clk key (f : Registry → Registry) :
  erases (x ← in_world m; _ ← record f; _ ← cache_set (clk 5) key x; mret x)
    (x ← m; _ ← MainBuilder.cache_set (clk 5) key x; mret x).
Proof.
  intros w r _. unfold mbind, stM_bind, in_world, record, cache_set, MainBuilder.cache_set; cbn.
  destruct (m w) as [[x|e] w1]; [|by exists r]. cbn.
  pose proof (set_erase (clk 5) key x (wResources w1) (f r)) as He.
  destruct (set _ _ _ _ _) as [c r1]. cbn in He. subst c. by exists r1.
Qed.

Lemma build_service_erases clk store vs key :
  erases (build_service clk store vs key)
    (MainBuilder.build_service clk clock sord kord pord eord store vs key).
Proof.
  unfold build_service, MainBuilder.build_service.
  apply erases_lift_bind. intros vs'. apply erases_lift_bind. intros nn.
  apply erases_lift_bind. intros l. case_decide; [apply erases_in_world|apply erases_store].
Qed.

Lemma BuildResources_erases clk store vs :
  erases (BuildResources clk store vs)
    (MainBuilder.BuildResources clk clock sord kord pord eord store vs).
Proof.
  intros w r Hw. unfold BuildResources, MainBuilder.BuildResources.
  unfold mbind, stM_bind, cache_get, MainBuilder.cache_get.
  pose proof (get_erase (clk 4) (generateCacheKey vs) (wResources w) r Hw) as He. cbn [fst snd].
  assert (∀ x c, Lru.Get (wResources w) (clk 4) (generateCacheKey vs) = (x, c) → ttl c = ttl (wResources w)) as Ht.
  { unfold Lru.Get. intros x c. destruct (cache _ !! _) as [e|]; [|naive_solver].
    destruct (elems _ !! e); [|naive_solver]. destruct (_ && _); naive_solver. }
  destruct (get _ _ _ _) as [x [c r1]], (Lru.Get _ _ _) as [x' c']. cbn in He. simplify_eq.
  destruct x' as [y|]; [eexists; reflexivity|]. apply build_service_erases. cbn. by rewrite (Ht None c').
Qed.

(** The function [BuildResources] of the package: every call makes a builder. *)
Definition resbuilder_BuildResources (clk : nat → Time) (store : Store.OptimizedStore)
    (vs : option VirtualService) : recM Updater.Resources :=
  match vs with
  | None => lift (Err (ErrNew "virtual service cannot be nil"))
  | Some vs => λ s,
      let '(x, s) := BuildResources clk store vs (set_resources s.1 newResourcesCache, s.2) in
      (x ← wrap_err "BuildResources failed" (recover_panic x); check_resources x, s)
  end.

(** What a call leaves of the metrics of the builder. *)
Lemma set_keeps now key x c r :
  let r' := (set now key x c r).2 in
  CacheHits r' = CacheHits r ∧ CacheMisses r' = CacheMisses r ∧ BuildDuration r' = BuildDuration r ∧
  ResourceCounts r' = ResourceCounts r.
Proof.
  unfold set. destruct (cache c !! key) as [e|]; [by destruct (elems c !! e)|].
  destruct (bool_decide _); [|done]. destruct (last (ll c)) as [o|]; [|done]. by destruct (elems c !! o).
Qed.

(** A part of a build that neither looks anything up nor reports a hit. *)
Definition no_lookup (r r' : Registry) : Prop :=
  CacheHits r' = CacheHits r ∧ CacheMisses r' = CacheMisses r ∧
  BuildDuration r' !! ["virtual_service"; "cache_hit"] = BuildDuration r !! ["virtual_service"; "cache_hit"].
Definition quiet {A} (m : recM A) : Prop := ∀ s, no_lookup s.2 (m s).2.2.
Lemma quiet_in_world {A} (m : stM World A) : quiet (in_world m).
Proof. intros [w r]. unfold in_world; cbn. by destruct (m w). Qed.
Lemma quiet_bind {A B} (m : recM A) (f : A → recM B) :
  quiet m → (∀ a, quiet (f a)) → quiet (a ← m; f a).
Proof.
  intros Hm Hf s. unfold mbind, stM_bind. specialize (Hm s). destruct (m s) as [[a|e] s1]; [|done].
  destruct (Hf a s1) as (? & ? & ?), Hm as (? & ? & ?). unfold no_lookup. cbn in *. split_and!; congruence.
Qed.
Lemma quiet_set now key x : quiet (cache_set now key x).
Proof.
  intros [w r]. unfold cache_set; cbn. pose proof (set_keeps now key x (wResources w) r) as H.
  destruct (set _ _ _ _ _). unfold no_lookup; cbn in *. destruct H as (-> & -> & -> & _). done.
Qed.
Lemma quiet_build_service clk store vs key : quiet (build_service clk store vs key).
Proof.
  unfold build_service. do 3 (apply quiet_bind; [apply quiet_in_world|intros ?]).
  case_decide; [apply quiet_in_world|]. apply quiet_bind; [apply quiet_in_world|intros x].
  apply quiet_bind; [|intros _; apply quiet_bind; [apply quiet_set|by intros _ s]].
  intros s. unfold no_lookup; cbn. unfold Observe. split_and!; [done..|]. by rewrite lookup_partial_alter_ne.
Qed.

(** A history of calls, each with its own clock, store and service. *)
Definition calls (l : list ((nat → Time) * Store.OptimizedStore * option VirtualService))
    (s : World * Registry) : World * Registry :=
  foldl (λ s '(clk, store, vs), (resbuilder_BuildResources clk store vs s).2) s l.

Lemma call_counts clk store vs s :
  let s' := (resbuilder_BuildResources clk store vs s).2 in
  CacheHits s'.2 = CacheHits s.2 ∧
  count (CacheMisses s'.2) ["main_builder"] =
    count (CacheMisses s.2) ["main_builder"] + (if vs is Some _ then 1 else 0) ∧
  BuildDuration s'.2 !! ["virtual_service"; "cache_hit"] = BuildDuration s.2 !! ["virtual_service"; "cache_hit"].
Proof.
  destruct vs as [vs|]; [|cbn; by rewrite Nat.add_0_r]. unfold resbuilder_BuildResources.
  set (s0 := (set_resources s.1 newResourcesCache, RecordCacheMiss "main_builder" s.2)).
  assert (BuildResources clk store vs (set_resources s.1 newResourcesCache, s.2) =
    build_service clk store vs (generateCacheKey vs) s0) as -> by done.
  pose proof (quiet_build_service clk store vs (generateCacheKey vs) s0) as (H1 & H2 & H3).
  destruct (build_service _ _ _ _ s0) as [x s1]. cbn in *. rewrite H1, H2, H3, count_Inc. done.
Qed.

(** The cache of a builder is filled but never read: over every history of builds
    the hit counter of [main_builder] does not move, every build is a miss, and no build
    is timed as a cache hit. *)
Lemma builds_never_hit l s :
  CacheHits (calls l s).2 = CacheHits s.2 ∧
  count (CacheMisses (calls l s).2) ["main_builder"] =
    count (CacheMisses s.2) ["main_builder"] + length (filter (λ c, is_Some c.2) l) ∧
  BuildDuration (calls l s).2 !! ["virtual_service"; "cache_hit"] =
    BuildDuration s.2 !! ["virtual_service"; "cache_hit"].
Proof.
  revert s. induction l as [|[[clk store] vs] l IH]; intros s; [by cbn; rewrite Nat.add_0_r|].
  change (calls ((clk, store, vs) :: l) s) with (calls l (resbuilder_BuildResources clk store vs s).2).
  destruct (IH (resbuilder_BuildResources clk store vs s).2) as (-> & -> & ->).
  destruct (call_counts clk store vs s) as (-> & -> & ->).
  split_and!; [done| |done]. rewrite filter_cons. destruct vs; cbn; case_decide; cbn; try lia.
  - exfalso. by apply H.
  - by destruct H.
Qed.

End builder.
End BuilderMetrics.

(** ** [internal/webhook/v1alpha1/metrics.go] *)
Module WebhookMetrics.
Import Metrics Webhooks.

Record Registry := mkReg {
  vsValidateDuration : HistogramVec;
  vsValidateTotal : CounterVec;
  vsLightFallbacks : nat;
  featureFlagsGauge : GaugeVec
}.

(** [envBool] of the value of a variable. *)
Definition envBool (v : string) : bool :=
  bool_decide (GoStrings.ToLower v ∈ ["1"; "true"; "yes"; "on"]).

Definition setFeatureFlagGauge (flag : string) (on : bool) (r : Registry) : Registry :=
  mkReg (vsValidateDuration r) (vsValidateTotal r) (vsLightFallbacks r)
    (SetGauge [flag] (if on then 1%Z else 0%Z) (featureFlagsGauge r)).

(** The metrics at the start of the process, from the environment. *)
Definition init (getenv : string → string) : Registry :=
  let r := mkReg ∅ ∅ 0 ∅ in
  let r := setFeatureFlagGauge "light_dryrun_enabled" (envBool (getenv "WEBHOOK_LIGHT_DRYRUN")) r in
  setFeatureFlagGauge "validation_indices_enabled" (envBool (getenv "WEBHOOK_VALIDATION_INDICES")) r.

Definition observeVSValidation (mode outcome : string) (d : Z) (r : Registry) : Registry :=
  mkReg (Observe [mode; outcome] d (vsValidateDuration r)) (Inc [mode; outcome] (vsValidateTotal r))
    (vsLightFallbacks r) (featureFlagsGauge r).
Definition incVSValidationFallback (r : Registry) : Registry :=
  mkReg (vsValidateDuration r) (vsValidateTotal r) (S (vsLightFallbacks r)) (featureFlagsGauge r).

Abbreviation recM := (stM Registry).
Definition record (f : Registry → Registry) : recM unit := λ r, (Ok tt, f r).

(** A panic in a dry run passes the code after it, which records errors only. *)
Definition is_panic (e : error) : bool := if e is ErrPanic _ then true else false.

(** [virtualservice_webhook.go]; [dur] are the times the two dry runs take. *)
Section validate.
Context (u : vsUpdater) (config : WebhookConfig) (cl : Client) (dur : bool → Z).

Definition heavy (phase : string) (vs : VirtualService) : recM unit :=
  match DryBuildSnapshotsWithVirtualService u vs with
  | None => record (observeVSValidation phase "ok" (dur true))
  | Some err =>
      if is_panic err then lift (Err err)
      else if errors_Is err DeadlineExceeded then
        _ ← record (observeVSValidation phase "timeout" (dur true));
        lift (Err (timeoutError config))
      else
        _ ← record (observeVSValidation phase "error" (dur true));
        lift (wrap_err "failed to build snapshot with virtual service" (Err err))
  end.

Definition light (vs : VirtualService) (prevVS : option VirtualService) : recM unit :=
  match DryValidateVirtualServiceLight u vs prevVS (ValidationIndices config) with
  | Ok _ => record (observeVSValidation "light" "ok" (dur false))
  | Err err =>
      if is_panic err then lift (Err err)
      else if errors_Is err (go_Error Updater.ErrLightValidationInsufficientCoverage) then
        _ ← record (observeVSValidation "light" "coverage_miss" (dur false));
        _ ← record incVSValidationFallback;
        heavy "heavy_fallback" vs
      else if errors_Is err DeadlineExceeded then
        _ ← record (observeVSValidation "light" "timeout" (dur false));
        lift (Err (timeoutError config))
      else
        _ ← record (observeVSValidation "light" "error" (dur false));
        lift (wrap_err "light validation failed" (Err err))
  end.

Definition validateVirtualService (vs : VirtualService) (prevVS : option VirtualService) : recM unit :=
  _ ← lift (fail_if (bool_decide (length (Api.GetNodeIDs vs) = 0)) (ErrNew "nodeIDs is required"));
  _ ← lift (validateVSTracing cl vs);
  if getLightDryRunEnabled config then light vs prevVS else heavy "heavy" vs.

Definition ValidateCreate (obj : K8sObject) : recM Warnings :=
  vs ← lift (expect "VirtualService object" obj (as_VirtualService obj));
  if skip_validation config vs then mret skipped
  else
    _ ← wrap_st ("failed to validate VirtualService " +:+ Name (meta vs)) (validateVirtualService vs None);
    mret [].

Definition ValidateUpdate `{JL : Api.JsonLib} (oldObj newObj : K8sObject) : recM Warnings :=
  vs ← lift (expect "VirtualService object for the newObj" newObj (as_VirtualService newObj));
  let prevVS := as_VirtualService oldObj in
  if bool_decide (is_Some prevVS) && Api.VS_IsEqual prevVS (Some vs) then
    _ ← record (observeVSValidation "skipped" "ok" 0);
    mret []
  else if skip_validation config vs then mret skipped
  else
    _ ← wrap_st ("failed to validate VirtualService " +:+ Name (meta vs)) (validateVirtualService vs prevVS);
    mret [].

(** *** Recording does not change the answer *)
Lemma heavy_erase phase vs r : (heavy phase vs r).1 = Webhooks.heavy u config vs.
Proof.
  unfold heavy, Webhooks.heavy. destruct (DryBuildSnapshotsWithVirtualService u vs) as [e|]; [|done].
  destruct (is_panic e) eqn:Hp; [by destruct e|]. by case_match.
Qed.
Lemma light_erase vs prevVS r : (light vs prevVS r).1 = Webhooks.light u config vs prevVS.
Proof.
  unfold light, Webhooks.light. destruct (DryValidateVirtualServiceLight _ _ _ _) as [|e]; [done|].
  destruct (is_panic e) eqn:Hp; [by destruct e|]. case_match; [apply heavy_erase|]. by case_match.
Qed.
Lemma validate_erase vs prevVS r :
  (validateVirtualService vs prevVS r).1 = Webhooks.validateVirtualService u config cl vs prevVS.
Proof.
  unfold validateVirtualService, Webhooks.validateVirtualService, mbind, stM_bind, result_bind, lift.
  destruct (fail_if _ _); [|done]. destruct (validateVSTracing cl vs); [|done].
  case_match; [apply light_erase|apply heavy_erase].
Qed.
Lemma ValidateCreate_erase obj r : (ValidateCreate obj r).1 = VirtualService_ValidateCreate u config cl obj.
Proof.
  unfold ValidateCreate, VirtualService_ValidateCreate, mbind, stM_bind, result_bind, lift, wrap_st.
  destruct (expect _ _ _) as [vs|]; [|done]. destruct (skip_validation config vs); [done|].
  rewrite validate_erase. by destruct (wrap_err _ _).
Qed.
Lemma ValidateUpdate_erase `{JL : Api.JsonLib} oldObj newObj r :
  (ValidateUpdate oldObj newObj r).1 = VirtualService_ValidateUpdate u config cl oldObj newObj.
Proof.
  unfold ValidateUpdate, VirtualService_ValidateUpdate, mbind, stM_bind, result_bind, lift, wrap_st.
  destruct (expect _ _ _) as [vs|]; [|done]. destruct (_ && _); [done|].
  destruct (skip_validation config vs); [done|]. rewrite validate_erase. by destruct (wrap_err _ _).
Qed.
End validate.

(** ** Histories of admission requests *)
Definition total (r : Registry) (mode outcome : string) : nat := count (vsValidateTotal r) [mode; outcome].
Definition observed (r : Registry) (ls : labels) : nat := length (default [] (vsValidateDuration r !! ls)).
(** The heavy validations that a light one fell back to and that ended. *)
Definition fallback_runs (r : Registry) : nat :=
  total r "heavy_fallback" "ok" + total r "heavy_fallback" "error" + total r "heavy_fallback" "timeout".
Definition ok_runs (r : Registry) : nat :=
  total r "skipped" "ok" + total r "light" "ok" + total r "heavy" "ok" + total r "heavy_fallback" "ok".

(** [admitted] requests were answered without a warning and [panics] with a panic. *)
Record consistent (r : Registry) (admitted panics : nat) : Prop := {
  co_observed ls : observed r ls = count (vsValidateTotal r) ls;
  co_fallbacks : vsLightFallbacks r = total r "light" "coverage_miss";
  co_runs : fallback_runs r ≤ vsLightFallbacks r ≤ fallback_runs r + panics;
  co_ok : ok_runs r = admitted
}.

Definition passed {A} (x : result A) : nat := if x is Ok _ then 1 else 0.
Definition panicked {A} (x : result A) : nat := if x is Err (ErrPanic _) then 1 else 0.

Lemma observed_Observe mode outcome d r ls :
  observed (observeVSValidation mode outcome d r) ls =
  observed r ls + (if decide ([mode; outcome] = ls) then 1 else 0).
Proof.
  unfold observed, observeVSValidation, Observe; cbn. destruct (decide ([mode; outcome] = ls)) as [<-|Hne].
  - rewrite lookup_partial_alter_eq. cbn. lia.
  - rewrite lookup_partial_alter_ne by done. lia.
Qed.

Lemma observed_fallback r ls : observed (incVSValidationFallback r) ls = observed r ls.
Proof. done. Qed.

(** One request: the counters it touches, by cases on the labels. *)
Local Ltac counted H :=
  destruct H as [Hobs Hfb Hruns Hok]; unfold fallback_runs, ok_runs, total in *;
  split; unfold fallback_runs, ok_runs, total;
  [intros ls; repeat first [rewrite observed_Observe | rewrite observed_fallback]; rewrite Hobs; cbn;
   repeat rewrite count_Inc; lia
  |cbn; repeat rewrite count_Inc; repeat (case_decide; simplify_eq); lia..].

Lemma heavy_effect u config dur phase vs r :
  let '(x, r') := heavy u config dur phase vs r in
  (r' = r ∧ passed x = 0 ∧ panicked x = 1) ∨
  (r' = observeVSValidation phase "ok" (dur true) r ∧ passed x = 1 ∧ panicked x = 0) ∨
  (r' = observeVSValidation phase "error" (dur true) r ∧ passed x = 0 ∧ panicked x = 0) ∨
  (r' = observeVSValidation phase "timeout" (dur true) r ∧ passed x = 0 ∧ panicked x = 0).
Proof.
  unfold heavy. destruct (DryBuildSnapshotsWithVirtualService u vs) as [e|]; [|by cbn; auto 10].
  destruct (is_panic e) eqn:Hp; [destruct e; try done; cbn; auto 10|].
  destruct (errors_Is e DeadlineExceeded); cbn; [by right; right; right|]. by destruct e; try done; right; right; left.
Qed.

Lemma heavy_consistent u config dur vs r a p :
  consistent r a p →
  let '(x, r') := heavy u config dur "heavy" vs r in consistent r' (a + passed x) (p + panicked x).
Proof.
  intros Hr. pose proof (heavy_effect u config dur "heavy" vs r) as He.
  destruct (heavy u config dur "heavy" vs r) as [x r'].
  destruct He as [(-> & -> & ->)|[(-> & -> & ->)|[(-> & -> & ->)|(-> & -> & ->)]]]; counted Hr.
Qed.

Lemma light_consistent u config dur vs prevVS r a p :
  consistent r a p →
  let '(x, r') := light u config dur vs prevVS r in consistent r' (a + passed x) (p + panicked x).
Proof.
  intros Hr. unfold light. destruct (DryValidateVirtualServiceLight _ _ _ _) as [[]|e]; [cbn; counted Hr|].
  destruct (is_panic e) eqn:Hp; [destruct e; try done; cbn; counted Hr|].
  destruct (errors_Is e _).
  - set (r1 := incVSValidationFallback (observeVSValidation "light" "coverage_miss" (dur false) r)).
    change (let '(x, r') := heavy u config dur "heavy_fallback" vs r1 in
            consistent r' (a + passed x) (p + panicked x)).
    pose proof (heavy_effect u config dur "heavy_fallback" vs r1) as He.
    destruct (heavy u config dur "heavy_fallback" vs r1) as [x r']. subst r1.
    destruct He as [(-> & -> & ->)|[(-> & -> & ->)|[(-> & -> & ->)|(-> & -> & ->)]]]; counted Hr.
  - destruct (errors_Is e DeadlineExceeded); cbn; [counted Hr|]. destruct e; try done; cbn; counted Hr.
Qed.

Lemma validate_consistent u config cl dur vs prevVS r a p :
  consistent r a p →
  let '(x, r') := validateVirtualService u config cl dur vs prevVS r in
  consistent r' (a + passed x) (p + panicked x).
Proof.
  intros Hr. unfold validateVirtualService, mbind, stM_bind, lift.
  assert (∀ e, consistent r (a + passed (Err e : result ())) (p + panicked (Err e : result ()))) as Herr.
  { intros e. destruct e; cbn; counted Hr. }
  destruct (fail_if _ _); [|done]. destruct (validateVSTracing cl vs); [|done].
  destruct (getLightDryRunEnabled config); [by apply light_consistent|by apply heavy_consistent].
Qed.

(** The requests that the webhook answers; a service that is skipped by its annotation
    is admitted with a warning. *)
Inductive request :=
| Create (obj : K8sObject)
| Update (oldObj newObj : K8sObject).

Section history.
Context `{JL : Api.JsonLib}.

Definition answer (u : vsUpdater) (config : WebhookConfig) (cl : Client) (dur : bool → Z) (q : request)
    : recM Warnings :=
  match q with
  | Create obj => ValidateCreate u config cl dur obj
  | Update oldObj newObj => ValidateUpdate u config cl dur oldObj newObj
  end.
Definition admitted (x : result Warnings) : nat := if x is Ok [] then 1 else 0.

Lemma answer_consistent u config cl dur q r a p :
  consistent r a p →
  let '(x, r') := answer u config cl dur q r in consistent r' (a + admitted x) (p + panicked x).
Proof.
  intros Hr.
  assert (∀ e, consistent r (a + admitted (Err e)) (p + panicked (Err e : result Warnings))) as Herr.
  { intros e. destruct e; cbn; counted Hr. }
  assert (consistent r (a + admitted (Ok skipped)) (p + panicked (Ok skipped))) as Hskip by (cbn; counted Hr).
  destruct q as [obj|oldObj newObj]; cbn [answer];
    unfold ValidateCreate, ValidateUpdate, mbind, stM_bind, lift, wrap_st.
  - destruct (expect _ _ _) as [vs|]; [|done]. destruct (skip_validation config vs); [done|].
    pose proof (validate_consistent u config cl dur vs None r a p Hr) as Hv.
    destruct (validateVirtualService _ _ _ _ _ _ r) as [[[]|e] r']; [exact Hv|]. destruct e; exact Hv.
  - destruct (expect _ _ _) as [vs|]; [|done]. destruct (_ && _); [cbn; counted Hr|].
    destruct (skip_validation config vs); [done|].
    pose proof (validate_consistent u config cl dur vs (as_VirtualService oldObj) r a p Hr) as Hv.
    destruct (validateVirtualService _ _ _ _ _ _ r) as [[[]|e] r']; [exact Hv|]. destruct e; exact Hv.
Qed.

(** Every request meets its own updater, configuration, client and times. *)
Fixpoint serve (qs : list (vsUpdater * WebhookConfig * Client * (bool → Z) * request)) (r : Registry)
    : list (result Warnings) * Registry :=
  match qs with
  | [] => ([], r)
  | (u, config, cl, dur, q) :: qs =>
      let '(x, r) := answer u config cl dur q r in
      let '(xs, r) := serve qs r in (x :: xs, r)
  end.

Lemma serve_consistent qs r a p : consistent r a p →
  let '(xs, r') := serve qs r in
  consistent r' (a + sum_list (admitted <$> xs)) (p + sum_list (panicked <$> xs)).
Proof.
  revert r a p. induction qs as [|[[[[u config] cl] dur] q] qs IH]; intros r a p Hr; cbn [serve].
  { cbn. by rewrite !Nat.add_0_r. }
  pose proof (answer_consistent u config cl dur q r a p Hr) as Hq.
  destruct (answer u config cl dur q r) as [x r1]. specialize (IH r1 _ _ Hq).
  destruct (serve qs r1) as [xs r2]. cbn. by rewrite !Nat.add_assoc.
Qed.

Lemma init_consistent getenv : consistent (init getenv) 0 0.
Proof. split; done || (cbn; unfold fallback_runs, total, count; cbn; lia). Qed.

(** The metrics of the webhook tell what happened: over every history of requests
    from the start of the process, the number of timed validations is the number counted
    for each mode and outcome; the fall-backs are exactly the light validations that missed
    coverage, and each is followed by one heavy validation that is counted, unless
    that one panics; and the validations counted as ok are the requests that were
    admitted without a warning. *)
Theorem validation_metrics_consistent getenv qs :
  let '(xs, r) := serve qs (init getenv) in
  (∀ mode outcome, observed r [mode; outcome] = total r mode outcome) ∧
  vsLightFallbacks r = total r "light" "coverage_miss" ∧
  fallback_runs r ≤ vsLightFallbacks r ≤ fallback_runs r + sum_list (panicked <$> xs) ∧
  ok_runs r = sum_list (admitted <$> xs).
Proof.
  pose proof (serve_consistent qs _ _ _ (init_consistent getenv)) as H.
  destruct (serve qs (init getenv)) as [xs r]. destruct H as [H1 H2 H3 H4]. cbn in H3, H4. split_and!; [by intros|done|lia|lia|done].
Qed.
End history.

(** The gauges of the flags read other values of the variables than the flags do
    ([strconv.ParseBool]): "t" turns a flag on that the gauge shows as off. *)
Example gauge_misses_flag :
  GoStrings.ParseBool "t" = Some true ∧
  gauge (featureFlagsGauge (init (λ _, "t"))) ["light_dryrun_enabled"] = 0%Z ∧
  Updater.getValidationIndicesEnabled "t" = false.
Proof. by vm_compute. Qed.
End WebhookMetrics.
