(* ===== verification/Controllers.v ===== *)
(** * [internal/controller]: the reconcile loops

    Every controller reads the object a request names, hands it to the updater and
    ends; the one of virtual services also publishes the status that the build
    recorded.  The API server is the world around them: its objects change, and
    every change is followed, some time later, by a reconciliation of the object.
    The theorem is that of a level-triggered controller: once the changes have been
    reconciled, in whatever order, the store agrees with the API server and the
    snapshots are those of a rebuild from that store. *)

From Stdlib Require Import Eqdep_dec.
From S2P Require Import Prelude GoStrings Types Merge StringPool Api DomainSecrets ResUtils Store.
From S2P Require Import SnapshotCache Mixer Updater Rebuild.
Import Envoy.

Module Controllers.
Import Updater.

(** [r.Get(ctx, req.NamespacedName, &obj)] *)
Inductive get_result (A : Type) : Type := Found (a : A) | NotFound | GetErr (e : error).
Arguments Found {A} a.
Arguments NotFound {A}.
Arguments GetErr {A} e.

Definition set_status (st : VSObjStatus) (vs : VirtualService) : VirtualService := mkVS (vs_meta vs) (vs_spec vs) st.

(** [filterSecret]; the type of the secret is an argument. *)
Definition filterSecret (typ : string) (s : Secret) : bool :=
  if decide (typ ≠ "Opaque" ∧ typ ≠ "kubernetes.io/tls") then false
  else bool_decide (is_Some (nilmap_get (Labels (meta s)) "envoy.kaasops.io/secret-type")).

Section reconcilers.
Context `{CA : CacheAPI} {PL : ProtoMessage ListenerV3} {PC : ProtoMessage ClusterV3} {JL : Api.JsonLib}.
Context (pem_Decode : string → option (DomainSecrets.PemBlock * string)).
Context (x509_ParseCertificate : string → result DomainSecrets.Time).
Context (build : VirtualService → Store.OptimizedStore → result Resources).

(** The store keeps the pointer it is given: an assignment through it is seen
    through every index. *)
Definition assign_stored (u : CacheUpdater) (vs : VirtualService) : CacheUpdater :=
  let put o := if decide (key o = key vs) then vs else o in
  let s := store u in
  with_store u
    (Store.set_templateToVS (fmap (M := list) put <$> Store.templateToVS s)
      (Store.set_virtualServices (Store.Index.mkIdx (put <$> Store.Index.items (Store.virtualServices s))
                                    (put <$> Store.Index.byUID (Store.virtualServices s))) s)).
(** [ApplyVirtualService] leaves the stored object in place. *)
Definition keeps_stored (u : CacheUpdater) (vs : VirtualService) : bool :=
  match Store.GetVirtualService (store u) (key vs) with
  | None => false
  | Some prev => Api.VS_IsEqual (Some prev) (Some (Api.VS_NormalizeSpec vs))
  end.

(** The status written to the API server, if any, and the error returned; [update]
    is [r.Status().Update], with the object as the call leaves it. *)
Definition VirtualService_Reconcile (r : Run) (update : VirtualService → result VirtualService)
    (get : get_result VirtualService) (u : CacheUpdater) (nn : NN) : CacheUpdater * option VSObjStatus * option error :=
  match get with
  | GetErr e => (u, None, Some e)
  | NotFound => let '(u, e) := DeleteVirtualService build r u nn in (u, None, e)
  | Found vs =>
      let prevStatus := vs_status vs in
      let kept := keeps_stored u vs in
      let u := ApplyVirtualService build r u vs in
      let vs := Api.VS_NormalizeSpec vs in
      let vs := match GetVirtualServiceWithStatus u nn with
                | Some w => set_status (vs_status w) vs
                | None => vs
                end in
      let write u vs := if kept then u else assign_stored u vs in
      let u := write u vs in
      if decide (stInvalid prevStatus ≠ stInvalid (vs_status vs) ∨ stMessage prevStatus ≠ stMessage (vs_status vs)) then
        match update vs with
        | Err e => (u, None, Some e)
        | Ok vs' => (write u vs', Some (vs_status vs), None)
        end
      else (u, None, None)
  end.

(** Also the services sent to [VSReconcileChan]. *)
Definition VirtualServiceTemplate_Reconcile (r : Run) (get : get_result VirtualServiceTemplate) (u : CacheUpdater) (nn : NN)
  : CacheUpdater * list VirtualService * option error :=
  match get with
  | GetErr e => (u, [], Some e)
  | NotFound => let '(u, e) := DeleteVirtualServiceTemplate build r u nn in (u, [], e)
  | Found vst =>
      let '(u, isUpdate) := ApplyVirtualServiceTemplate build r u vst in
      (u, if isUpdate then GetVirtualServicesByTemplate u vst else [], None)
  end.

(** The other loops have the same shape. *)
Definition reconcile {A} (apply : CacheUpdater → A → CacheUpdater) (del : CacheUpdater → NN → CacheUpdater)
    (get : get_result A) (u : CacheUpdater) (nn : NN) : CacheUpdater * option error :=
  match get with
  | GetErr e => (u, Some e)
  | NotFound => (del u nn, None)
  | Found a => (apply u a, None)
  end.
Definition Listener_Reconcile (r : Run) := reconcile (ApplyListener build r) (DeleteListener build r).
Definition Cluster_Reconcile (r : Run) := reconcile (ApplyCluster build r) (DeleteCluster build r).
Definition Route_Reconcile (r : Run) := reconcile (ApplyRoute build r) (DeleteRoute build r).
Definition HttpFilter_Reconcile (r : Run) := reconcile (ApplyHTTPFilter build r) (DeleteHTTPFilter build r).
Definition Policy_Reconcile (r : Run) := reconcile (ApplyPolicy build r) (DeletePolicy build r).
Definition AccessLogConfig_Reconcile (r : Run) := reconcile (ApplyAccessLogConfig build r) (DeleteAccessLogConfig build r).
Definition Tracing_Reconcile (r : Run) := reconcile (ApplyTracing build r) (DeleteTracing build r).
Definition Secret_Reconcile (r : Run) :=
  reconcile (ApplySecret pem_Decode x509_ParseCertificate build r) (DeleteSecret build r).

(** ** The ten kinds *)
Inductive kind :=
  KVirtualService | KTemplate | KListener | KCluster | KRoute | KHttpFilter | KPolicy | KAccessLog | KTracing | KSecret.
#[global] Instance kind_eq_dec : EqDecision kind.
Proof. solve_decision. Defined.
Definition obj (k : kind) : Type :=
  match k with
  | KVirtualService => VirtualService | KTemplate => VirtualServiceTemplate | KListener => Listener
  | KCluster => Cluster | KRoute => Route | KHttpFilter => HttpFilter | KPolicy => Policy
  | KAccessLog => AccessLogConfig | KTracing => Tracing | KSecret => Secret
  end.
Definition obj_meta (k : kind) : obj k → ObjectMeta :=
  match k with
  | KVirtualService => vs_meta | KTemplate => vst_meta | KListener => l_meta | KCluster => c_meta | KRoute => r_meta
  | KHttpFilter => hf_meta | KPolicy => p_meta | KAccessLog => alc_meta | KTracing => t_meta | KSecret => s_meta
  end.
Definition obj_key (k : kind) (o : obj k) : NN := nn_of (obj_meta k o).
Definition stored (k : kind) : Store.OptimizedStore → NN → option (obj k) :=
  match k with
  | KVirtualService => Store.GetVirtualService | KTemplate => Store.GetVirtualServiceTemplate
  | KListener => Store.GetListener | KCluster => Store.GetCluster | KRoute => Store.GetRoute
  | KHttpFilter => Store.GetHTTPFilter | KPolicy => Store.GetPolicy | KAccessLog => Store.GetAccessLog
  | KTracing => Store.GetTracing | KSecret => Store.GetSecret
  end.
Definition set_obj (k : kind) : Store.OptimizedStore → obj k → Store.OptimizedStore :=
  match k with
  | KVirtualService => Store.SetVirtualService | KTemplate => Store.SetVirtualServiceTemplate
  | KListener => Store.SetListener | KCluster => Store.SetCluster | KRoute => Store.SetRoute
  | KHttpFilter => Store.SetHTTPFilter | KPolicy => Store.SetPolicy | KAccessLog => Store.SetAccessLog
  | KTracing => Store.SetTracing | KSecret => Store.SetSecret pem_Decode x509_ParseCertificate
  end.
Definition del_obj (k : kind) : Store.OptimizedStore → NN → Store.OptimizedStore :=
  match k with
  | KVirtualService => Store.DeleteVirtualService | KTemplate => Store.DeleteVirtualServiceTemplate
  | KListener => Store.DeleteListener | KCluster => Store.DeleteCluster | KRoute => Store.DeleteRoute
  | KHttpFilter => Store.DeleteHTTPFilter | KPolicy => Store.DeletePolicy | KAccessLog => Store.DeleteAccessLog
  | KTracing => Store.DeleteTracing | KSecret => Store.DeleteSecret
  end.
Definition existing (k : kind) : Store.OptimizedStore → NN → bool :=
  match k with
  | KVirtualService => Store.IsExistingVirtualService | KTemplate => Store.IsExistingVirtualServiceTemplate
  | KListener => Store.IsExistingListener | KCluster => Store.IsExistingCluster | KRoute => Store.IsExistingRoute
  | KHttpFilter => Store.IsExistingHTTPFilter | KPolicy => Store.IsExistingPolicy | KAccessLog => Store.IsExistingAccessLog
  | KTracing => Store.IsExistingTracing | KSecret => Store.IsExistingSecret
  end.
(** The normalisation of the specification on its way into the store. *)
Definition norm (k : kind) : obj k → obj k :=
  match k with KVirtualService => Api.VS_NormalizeSpec | KTemplate => Api.VST_NormalizeSpec | _ => λ o, o end.
Definition equal (k : kind) : option (obj k) → option (obj k) → bool :=
  match k with
  | KVirtualService => Api.VS_IsEqual | KTemplate => Api.VST_IsEqual | KListener => Api.Listener_IsEqual
  | KCluster => Api.Cluster_IsEqual | KRoute => Api.Route_IsEqual | KHttpFilter => Api.HttpFilter_IsEqual
  | KPolicy => Api.Policy_IsEqual | KAccessLog => Api.AccessLogConfig_IsEqual | KTracing => Api.Tracing_IsEqual
  | KSecret => opt_secretsEqual
  end.
(** The request of any kind: the updater, the status written and the error. *)
Definition Reconcile (k : kind) (r : Run) (update : VirtualService → result VirtualService)
  : get_result (obj k) → CacheUpdater → NN → CacheUpdater * option VSObjStatus * option error :=
  let plain {A} (f : get_result A → CacheUpdater → NN → CacheUpdater * option error) get u nn :=
    let '(u, e) := f get u nn in (u, None, e) in
  match k with
  | KVirtualService => VirtualService_Reconcile r update
  | KTemplate => λ get u nn, let '(u, _, e) := VirtualServiceTemplate_Reconcile r get u nn in (u, None, e)
  | KListener => plain (Listener_Reconcile r) | KCluster => plain (Cluster_Reconcile r)
  | KRoute => plain (Route_Reconcile r) | KHttpFilter => plain (HttpFilter_Reconcile r)
  | KPolicy => plain (Policy_Reconcile r) | KAccessLog => plain (AccessLogConfig_Reconcile r)
  | KTracing => plain (Tracing_Reconcile r) | KSecret => plain (Secret_Reconcile r)
  end.

(** ** The API server and histories *)
Definition Server : Type := ∀ k, NN → option (obj k).
Definition srv_set (s : Server) (k : kind) (nn : NN) (o : option (obj k)) : Server := λ k' nn',
  match decide (k = k') with
  | left E => if decide (nn = nn') then eq_rect k (λ k, option (obj k)) o k' E else s k' nn'
  | right _ => s k' nn'
  end.
Record World := mkWorld { srv : Server; upd : CacheUpdater }.
(** An object is created, changed or deleted; or a request for it is reconciled,
    where [fail] is an error of the read other than [NotFound]. *)
Inductive event :=
| EChange (k : kind) (nn : NN) (o : option (obj k))
| EReconcile (k : kind) (nn : NN) (r : Run) (fail : option error) (update : VirtualService → result VirtualService).
Definition read (s : Server) (k : kind) (nn : NN) (fail : option error) : get_result (obj k) :=
  match fail, s k nn with Some e, _ => GetErr e | None, None => NotFound | None, Some o => Found o end.
(** The status subresource: only the status of the object changes. *)
Definition publish (s : Server) (nn : NN) (st : option VSObjStatus) : Server :=
  match st with
  | None => s
  | Some st => srv_set s KVirtualService nn (set_status st <$> s KVirtualService nn)
  end.
Definition exec (w : World) (e : event) : World :=
  match e with
  | EChange k nn o => mkWorld (srv_set (srv w) k nn o) (upd w)
  | EReconcile k nn r fail update =>
      let '(u, st, _) := Reconcile k r update (read (srv w) k nn fail) (upd w) nn in
      mkWorld (publish (srv w) nn st) u
  end.

(** ** Agreement *)
(** The same service, up to its status and the metadata the server maintains. *)
Definition same_vs (a b : VirtualService) : Prop :=
  key a = key b ∧ Annotations (meta a) = Annotations (meta b) ∧
  vs_spec (Api.VS_NormalizeSpec a) = vs_spec (Api.VS_NormalizeSpec b).
Definition same (k : kind) : relation (obj k) :=
  match k with KVirtualService => same_vs | _ => eq end.
(** The stored object carries what matters of the object on the server.  Of a service: the node IDs,
    and the same specification up to normalisation, or one with the same template, options and extra fields whose
    common part is encoded by the same JSON.  Of a secret: the data, and with it the domains.
    Of the other kinds the content, as bytes or, for HTTP filters, as JSON. *)
Definition same_json (a b : CommonSpec) : Prop := ∃ j, Api.json_Marshal a = Ok j ∧ Api.json_Marshal b = Ok j.
Definition bytes_of (r : RawExtension) : string := default "" (Raw r).
Definition same_filter (a b : RawExtension) : Prop :=
  a = b ∨ ∃ v, Api.json_value (raw_bytes a) = Some v ∧ Api.json_value (raw_bytes b) = Some v.
Definition carries (k : kind) : obj k → obj k → Prop :=
  match k with
  | KVirtualService => λ x y,
      default "" (nilmap_get (Annotations (meta x)) Api.AnnotationNodeIDs) =
        default "" (nilmap_get (Annotations (meta y)) Api.AnnotationNodeIDs) ∧
      (vs_spec (Api.VS_NormalizeSpec x) = vs_spec (Api.VS_NormalizeSpec y) ∨
       same_json (Common (vs_spec x)) (Common (vs_spec y)) ∧ Template (vs_spec x) = Template (vs_spec y) ∧
       TemplateOptions (vs_spec x) = TemplateOptions (vs_spec y) ∧ ExtraFields (vs_spec x) = ExtraFields (vs_spec y))
  | KTemplate => λ x y, (vst_common x = vst_common y ∨ same_json (vst_common x) (vst_common y)) ∧ vst_extraFields x = vst_extraFields y
  | KListener => λ x y, Raw <$> l_spec x = Raw <$> l_spec y
  | KCluster => λ x y, Raw <$> c_spec x = Raw <$> c_spec y
  | KRoute => λ x y, bytes_of <$> r_spec x = bytes_of <$> r_spec y
  | KHttpFilter => λ x y, Forall2 same_filter (hf_spec x) (hf_spec y)
  | KPolicy => λ x y, Raw <$> p_spec x = Raw <$> p_spec y
  | KAccessLog => λ x y, nilmap_get (Annotations (meta x)) Api.annotationAutogenFilename =
      nilmap_get (Annotations (meta y)) Api.annotationAutogenFilename ∧ bytes_of <$> alc_spec x = bytes_of <$> alc_spec y
  | KTracing => λ x y, Raw <$> t_spec x = Raw <$> t_spec y
  | KSecret => λ x y, s_data x = s_data y ∧ (s_data x ≠ None →
      nilmap_get (Annotations (meta x)) Api.AnnotationSecretDomains = nilmap_get (Annotations (meta y)) Api.AnnotationSecretDomains)
  end.
(** The store has an object exactly when the server has one, and it carries it. *)
Definition agree (k : kind) (onServer inStore : option (obj k)) : Prop :=
  match onServer, inStore with
  | None, None => True
  | Some x, Some y => carries k (norm k x) y
  | _, _ => False
  end.
Definition agrees (w : World) (k : kind) (nn : NN) : Prop := agree k (srv w k nn) (stored k (store (upd w)) nn).
(** The iterations of a rebuild go over what they range over. *)
Record run_ok (r : Run) : Prop := {
  run_vs st : r_vs r st ≡ₚ snd <$> map_to_list (Store.MapVirtualServices st);
  run_ord X : r_ord r X ≡ₚ elements X;
  run_lord m : r_lord r m ≡ₚ Mixer.listener_entries m
}.
(** The snapshots are those of the rebuild [r] from [c0], which holds the objects
    in the store. *)
Record rebuilt_from (r : Run) (c0 u : CacheUpdater) : Prop := {
  rf_run : run_ok r;
  rf_spec : Store.spec_named (store c0);
  rf_keys nn vs : stored KVirtualService (store c0) nn = Some vs → key vs = nn;
  rf_cache : snapshotCache u = snapshotCache (rebuildSnapshots build r c0).1;
  rf_same k nn : option_Forall2 (same k) (stored k (store c0) nn) (stored k (store u) nn)
}.
(** The rebuild that a request runs, and the updater it runs from. *)
Definition RebuildRun : Type := Run * CacheUpdater.
Definition unchanged (k : kind) (u : CacheUpdater) (o : obj k) : bool :=
  match stored k (store u) (obj_key k o) with None => false | Some prev => equal k (Some prev) (Some o) end.
Definition rebuild_of (k : kind) (r : Run) (get : get_result (obj k)) (u : CacheUpdater) (nn : NN) : option RebuildRun :=
  match get with
  | GetErr _ => None
  | NotFound => if existing k (store u) nn then Some (r, with_store u (del_obj k (store u) nn)) else None
  | Found o => if unchanged k u (norm k o) then None else Some (r, with_store u (set_obj k (store u) (norm k o)))
  end.
(** The last rebuild of a history, [l0] being the last one before it. *)
Definition event_rebuild (w : World) (e : event) : option RebuildRun :=
  match e with
  | EChange _ _ _ => None
  | EReconcile k nn r fail _ => rebuild_of k r (read (srv w) k nn fail) (upd w) nn
  end.
Definition last_rebuild (w0 : World) (l0 : RebuildRun) (h : list event) : RebuildRun :=
  (foldl (λ p e, (exec p.1 e, default p.2 (event_rebuild p.1 e))) (w0, l0) h).2.
(** Objects carry the name they are stored under; the reply to a status update
    holds the object sent. *)
Definition event_ok (e : event) : Prop :=
  match e with
  | EChange k nn o => ∀ x, o = Some x → obj_key k x = nn
  | EReconcile _ _ r _ update => run_ok r ∧ ∀ vs vs', update vs = Ok vs' → same_vs vs vs'
  end.
(** A reconciliation of the object that can read it. *)
Definition handles (k : kind) (nn : NN) (e : event) : Prop := ∃ r update, e = EReconcile k nn r None update.
(** Every change is followed by one. *)
Definition fair (h : list event) : Prop :=
  ∀ h1 k nn o h2, h = h1 ++ EChange k nn o :: h2 → Exists (handles k nn) h2.

(** ** The store *)
Local Abbreviation pool_of st := (StringPool.pool_ok (Store.stringPool st)).
Lemma stored_set k st o : pool_of st →
  pool_of (set_obj k st o) ∧ stored k (set_obj k st o) (obj_key k o) = Some o ∧
  ∀ k' nn, (k', nn) ≠ (k, obj_key k o) → stored k' (set_obj k st o) nn = stored k' st nn.
Proof.
  intros Hp. destruct k; cbn [set_obj obj] in *;
  lazymatch goal with
  | |- context [Store.SetSecret] =>
      unfold Store.SetSecret; destruct (Store.intern_name_ok (Store.stringPool st) o Hp) as [Ho Hp'];
      destruct (Store.intern_name _ o) as [o' sp]; cbn in Ho, Hp'; subst o'
  | _ =>
      unfold Store.SetVirtualService, Store.SetVirtualServiceTemplate, Store.SetListener, Store.SetCluster, Store.SetRoute,
        Store.SetHTTPFilter, Store.SetPolicy, Store.SetAccessLog, Store.SetTracing;
      destruct (Store.intern_obj_ok (Store.stringPool st) o Hp) as (sp & -> & Hp')
  end;
  (split; [exact Hp'|]; split; [apply lookup_insert_eq|]; intros [] nn Hne; try reflexivity;
   apply lookup_insert_ne; intros <-; by apply Hne).
Qed.
Lemma stored_del k st name : pool_of st →
  pool_of (del_obj k st name) ∧ stored k (del_obj k st name) name = None ∧
  ∀ k' nn, (k', nn) ≠ (k, name) → stored k' (del_obj k st name) nn = stored k' st nn.
Proof.
  intros Hp. destruct k; cbn [del_obj];
  unfold Store.DeleteVirtualService, Store.DeleteVirtualServiceTemplate, Store.DeleteListener, Store.DeleteCluster,
    Store.DeleteRoute, Store.DeleteHTTPFilter, Store.DeletePolicy, Store.DeleteAccessLog, Store.DeleteTracing,
    Store.DeleteSecret, Store.Index.del;
  (match goal with |- context [?m !! name] => destruct (m !! name) as [o|] eqn:Ho end;
   [split; [exact Hp|]; split; [apply lookup_delete_eq|]; intros [] nn Hne; try reflexivity;
    apply lookup_delete_ne; intros <-; by apply Hne
   |split; [exact Hp|]; split; [exact Ho|]; intros [] nn _; reflexivity]).
Qed.
Lemma spec_named_set k st o : Store.spec_named st → Store.spec_named (set_obj k st o).
Proof.
  intros Hs. pose proof (λ op, Store.spec_named_exec pem_Decode x509_ParseCertificate st op Hs) as He. destruct k; cbn [set_obj].
  - exact (He (Store.OSetVirtualService o)).
  - exact (He (Store.OSetVirtualServiceTemplate o)).
  - exact (He (Store.OSetListener o)).
  - exact (He (Store.OSetCluster o)).
  - exact (He (Store.OSetRoute o)).
  - exact (He (Store.OSetHTTPFilter o)).
  - exact (He (Store.OSetPolicy o)).
  - exact (He (Store.OSetAccessLog o)).
  - exact (He (Store.OSetTracing o)).
  - exact (He (Store.OSetSecret o)).
Qed.
Lemma spec_named_del k st nn : Store.spec_named st → Store.spec_named (del_obj k st nn).
Proof.
  intros Hs. pose proof (λ op, Store.spec_named_exec pem_Decode x509_ParseCertificate st op Hs) as He. destruct k; cbn [del_obj].
  - exact (He (Store.ODeleteVirtualService nn)).
  - exact (He (Store.ODeleteVirtualServiceTemplate nn)).
  - exact (He (Store.ODeleteListener nn)).
  - exact (He (Store.ODeleteCluster nn)).
  - exact (He (Store.ODeleteRoute nn)).
  - exact (He (Store.ODeleteHTTPFilter nn)).
  - exact (He (Store.ODeletePolicy nn)).
  - exact (He (Store.ODeleteAccessLog nn)).
  - exact (He (Store.ODeleteTracing nn)).
  - exact (He (Store.ODeleteSecret nn)).
Qed.
Lemma existing_stored k st nn : existing k st nn = bool_decide (is_Some (stored k st nn)).
Proof. by destruct k. Qed.
(** A rebuild writes statuses and the index of domains only. *)
Lemma rebuild_stored r c :
  Store.stringPool (store (rebuildSnapshots build r c).1) = Store.stringPool (store c) ∧
  Store.specClusters (store (rebuildSnapshots build r c).1) = Store.specClusters (store c) ∧
  ∀ k nn, stored k (store (rebuildSnapshots build r c).1) nn = stored k (store c) nn.
Proof.
  set (keeps := λ s s' : Store.OptimizedStore, Store.stringPool s' = Store.stringPool s ∧
    Store.specClusters s' = Store.specClusters s ∧ ∀ k nn, stored k s' nn = stored k s nn).
  assert (∀ st m, keeps st (apply_statuses st m)) as Hst.
  { intros st m. unfold apply_statuses. apply (map_fold_weak_ind (λ s _, keeps st s)); [done|].
    intros nn' s' m' s _ (Hs1 & Hs2 & Hs3). split; [exact Hs1|]. split; [exact Hs2|].
    intros k nn. rewrite <-Hs3. by destruct k. }
  assert (∀ ctx ord lord ind sc st order, keeps st (bStore (buildSnapshots build ctx ord lord ind sc st order))) as Hb.
  { intros. unfold buildSnapshots, build_tail. destruct (ctx 0); [done|].
    destruct (build_resources build ctx ord ind st order); [|done].
    destruct (Mixer.Mix _ _ _); [|done]. destruct (stage_all _ _ _ _ _) as [|s']; [done|].
    case_decide; [done|]. destruct (ctx (spolls s')); [done|].
    destruct (commit _ _ _ _) as [c' es]. case_decide; [done|]. destruct ind; [|done].
    split; [done|]. split; [done|]. intros k nn. by destruct k. }
  change (keeps (store c) (store (rebuildSnapshots build r c).1)). unfold rebuildSnapshots, build_with.
  match goal with |- context [buildSnapshots build ?a ?b ?c0 ?d ?e ?f ?g] =>
    destruct (Hb a b c0 d e f g) as (Hb1 & Hb2 & Hb3); set (bt := buildSnapshots build a b c0 d e f g) in * end.
  destruct (Hst (bStore bt) (bStatuses bt)) as (H1 & H2 & H3).
  destruct (bErr bt); cbn [fst store]; (split; [congruence|]; split; [congruence|]); intros k nn; by rewrite H3.
Qed.

(** ** Sameness *)
#[export] Instance same_vs_equiv : Equivalence same_vs.
Proof. unfold same_vs. split; [done|intros ?? (?&?&?); done|intros ??? (?&?&?) (?&?&?); split_and!; congruence]. Qed.
#[export] Instance same_equiv k : Equivalence (same k).
Proof. destruct k; cbn [same]; apply _. Qed.
Lemma norm_key k o : obj_key k (norm k o) = obj_key k o.
Proof. by destruct k. Qed.
Lemma same_normalize vs : same_vs vs (Api.VS_NormalizeSpec vs).
Proof. unfold same_vs. by rewrite Rebuild.VS_NormalizeSpec_idem. Qed.
Lemma same_status st vs : same_vs vs (set_status st vs).
Proof. done. Qed.

(** Same objects carry each other, and so do those that [IsEqual] takes for the same. *)
Lemma same_carries k x y : same k x y → carries k x y.
Proof.
  destruct k; cbn [same carries].
  - intros (_ & Ha & Hs). cbn in Ha |- *. by rewrite Ha; split; [|left].
  - intros ->. by split; [left|].
  - by intros ->.
  - by intros ->.
  - by intros ->.
  - intros ->. apply Forall_Forall2_diag, Forall_forall. by left.
  - by intros ->.
  - by intros ->.
  - by intros ->.
  - by intros ->.
Qed.
Lemma Common_IsEqual_json a b : Api.Common_IsEqual a b = true → same_json b a.
Proof.
  unfold Api.Common_IsEqual. destruct (Api.json_Marshal a) as [x|] eqn:Ha; [|done].
  destruct (Api.json_Marshal b) as [y|] eqn:Hb; [|done]. intros <-%bool_decide_eq_true. by exists x.
Qed.
Lemma map_eq_size {A} `{!EqDecision A} (m1 m2 : gmap string A) : size m1 = size m2 →
  (∀ k v, m1 !! k = Some v → m2 !! k = Some v) → m1 = m2.
Proof.
  intros Hs Hsub. assert (m1 ⊆ m2) as Hle by (by apply map_subseteq_spec).
  apply map_eq. intros k. destruct (m1 !! k) as [v|] eqn:Hk; [symmetry; by apply Hsub|]. symmetry.
  destruct (m2 !! k) as [v|] eqn:Hk2; [|done]. exfalso.
  assert (size m1 < size m2); [|lia]. rewrite <-(insert_delete_id m2 k v Hk2), map_size_insert_None by apply lookup_delete_eq.
  apply Nat.lt_succ_r, map_subseteq_size. apply map_subseteq_spec. intros i x Hi.
  rewrite lookup_delete_ne by congruence. by apply Hsub.
Qed.
Lemma VS_IsEqual_carries x y : Api.VS_IsEqual (Some y) (Some x) = true → carries KVirtualService x y.
Proof.
  unfold Api.VS_IsEqual. case_decide as Hn; [done|]. destruct (Api.Common_IsEqual _ _) eqn:Hc; [|done]. cbn [negb].
  repeat (case_decide; [done|]). intros Hf.  cbn. split; [done|right].
  apply Common_IsEqual_json in Hc. split_and!; [done|symmetry; done..|].
  symmetry. apply map_eq_size; [done|]. intros i v Hi.
  rewrite forallb_forall in Hf. apply (bool_decide_eq_true _), (Hf (i, v)), list_elem_of_In. by apply elem_of_map_to_list.
Qed.
Lemma secretsEqual_carries x y : secretsEqual y x = true → carries KSecret x y.
Proof.
  unfold secretsEqual. cbn. destruct (s_data y) as [dy|] eqn:Hy, (s_data x) as [dx|] eqn:Hx; try done.
  case_decide as Hs; [done|]. destruct (existsb _ _) eqn:He; [done|].
  intros Ha%bool_decide_eq_true. split; [|done]. f_equal. symmetry. apply map_eq_size; [done|]. intros i v Hi.
  destruct (dx !! i) as [v'|] eqn:Hv.
  - f_equal. destruct (decide (v = v')) as [|Hne]; [done|]. exfalso. apply not_true_iff_false in He. apply He.
    apply existsb_exists. exists (i, v). rewrite <-list_elem_of_In, elem_of_map_to_list. split; [done|]. cbn. rewrite Hv.
    by rewrite bool_decide_eq_false_2.
  - exfalso. apply not_true_iff_false in He. apply He. apply existsb_exists. exists (i, v).
    rewrite <-list_elem_of_In, elem_of_map_to_list. split; [done|]. cbn. by rewrite Hv.
Qed.
Lemma equal_carries k x y : equal k (Some y) (Some x) = true → carries k x y.
Proof.
  destruct k; cbn [equal obj].
  - apply VS_IsEqual_carries.
  - cbn. intros [Hc%Common_IsEqual_json He%bool_decide_eq_true]%andb_true_iff. by split; [right|].
  - unfold Api.Listener_IsEqual, Api.strict_IsEqual. cbn.
    destruct (l_spec y) as [[]|], (l_spec x) as [[]|]; cbn; try done; repeat case_match; try done;
      by intros ->%bool_decide_eq_true.
  - unfold Api.Cluster_IsEqual, Api.spec_IsEqual. cbn.
    destruct (c_spec y) as [[]|], (c_spec x) as [[]|]; cbn; try done; repeat case_match; try done;
      by intros ->%bool_decide_eq_true.
  - unfold Api.Route_IsEqual. case_decide as Hl; [done|]. cbn. intros Hf. revert Hl Hf.
    generalize (r_spec x) as b. induction (r_spec y) as [|a l IH]; intros [|b bs] Hl Hf; try done. cbn in *.
    apply andb_true_iff in Hf as [Ha%bool_decide_eq_true Hf]. f_equal; [exact Ha|]. apply IH; [congruence|done].
  - unfold Api.HttpFilter_IsEqual. case_decide as Hl; [done|]. cbn. intros Hf. revert Hl Hf.
    generalize (hf_spec x) as b. induction (hf_spec y) as [|a l IH]; intros [|b bs] Hl Hf; try done. cbn in *.
    apply andb_true_iff in Hf as [Ha Hf]. constructor; [|apply IH; [congruence|done]]. right.
    destruct (Api.json_value (raw_bytes a)) as [v|]; [|done]. destruct (Api.json_value (raw_bytes b)) as [v'|]; [|done].
    apply bool_decide_eq_true in Ha as ->. by exists v'.
  - unfold Api.Policy_IsEqual, Api.spec_IsEqual. cbn.
    destruct (p_spec y) as [[]|], (p_spec x) as [[]|]; cbn; try done; repeat case_match; try done;
      by intros ->%bool_decide_eq_true.
  - unfold Api.AccessLogConfig_IsEqual. case_decide as Ha; [done|]. cbn.
    destruct (alc_spec y) as [a|], (alc_spec x) as [b|]; cbn; try done. unfold Api.bytes_Equal, bytes_of.
    intros Hb%bool_decide_eq_true. split; [done|]. cbn. congruence.
  - unfold Api.Tracing_IsEqual, Api.strict_IsEqual. cbn.
    destruct (t_spec y) as [[]|], (t_spec x) as [[]|]; cbn; try done; repeat case_match; try done;
      by intros ->%bool_decide_eq_true.
  - apply secretsEqual_carries.
Qed.

(** ** One reconciliation *)
Record wf (u : CacheUpdater) : Prop := {
  wf_pool : pool_of (store u);
  wf_spec : Store.spec_named (store u);
  wf_keys nn vs : stored KVirtualService (store u) nn = Some vs → key vs = nn
}.
(** The step from [u] to [u'] touches the object [nn] of kind [k] only, and its
    snapshots are those of the rebuild [reb], or of the last one before it. *)
Record touches_only (k : kind) (nn : NN) (reb : option RebuildRun) (u u' : CacheUpdater) : Prop := {
  to_wf : wf u';
  to_frame k' nn' : (k', nn') ≠ (k, nn) → stored k' (store u') nn' = stored k' (store u) nn';
  to_rebuilt l : (reb = None → rebuilt_from l.1 l.2 u) → let l' := default l reb in rebuilt_from l'.1 l'.2 u'
}.
Lemma touches_only_trans k nn reb u1 u2 u3 :
  touches_only k nn reb u1 u2 → touches_only k nn None u2 u3 → touches_only k nn reb u1 u3.
Proof.
  intros [H1 F1 R1] [H2 F2 R2]. split; [done| |intros l Hl; exact (R2 (default l reb) (λ _, R1 l Hl))]. intros k' nn' Hne. by rewrite F2, F1.
Qed.
Lemma touches_only_refl k nn u : wf u → touches_only k nn None u u.
Proof. intros Hwf. split; [done..|]. intros l Hl. by apply Hl. Qed.
Lemma touches_rebuild k nn r u st :
  run_ok r → wf u → pool_of st → Store.spec_named st → (∀ k' nn', (k', nn') ≠ (k, nn) → stored k' st nn' = stored k' (store u) nn') →
  (∀ o, stored k st nn = Some o → obj_key k o = nn) →
  touches_only k nn (Some (r, with_store u st)) u (rebuildSnapshots build r (with_store u st)).1.
Proof.
  intros Hr Hwf Hp Hsp Hf Hk. destruct (rebuild_stored r (with_store u st)) as (Hpool & Hspec & Hst).
  assert (∀ nn' vs, stored KVirtualService st nn' = Some vs → key vs = nn') as Hkeys.
  { intros nn' vs. destruct (decide ((KVirtualService, nn') = (k, nn))) as [E|Hne].
    - injection E as <- <-. apply Hk.
    - rewrite Hf by done. apply Hwf. }
  split.
  - split; [by rewrite Hpool|by unfold Store.spec_named, Store.GetSpecCluster; rewrite Hspec|].
    intros nn' vs. rewrite Hst. apply Hkeys.
  - intros k' nn' Hne. rewrite Hst. by apply Hf.
  - intros l _. split; [done..|]. intros k' nn'. cbn [fst snd default]. rewrite Hst. apply reflexivity.
Qed.

Lemma apply_spec k r u o : run_ok r → wf u →
  let u' := apply_obj build (stored k) (equal k) (set_obj k) r u (obj_key k o) o in
  touches_only k (obj_key k o) (if unchanged k u o then None else Some (r, with_store u (set_obj k (store u) o))) u u' ∧
  if unchanged k u o then u' = u else stored k (store u') (obj_key k o) = Some o.
Proof.
  intros Hr Hwf. destruct (stored_set k (store u) o (wf_pool _ Hwf)) as (Hp & Ho & Hf).
  assert (touches_only k (obj_key k o) (Some (r, with_store u (set_obj k (store u) o))) u
    (rebuildSnapshots build r (with_store u (set_obj k (store u) o))).1) as Ht.
  { apply touches_rebuild; [done..|apply spec_named_set, Hwf|done|]. intros o'. rewrite Ho. by intros [= <-]. }
  pose proof (proj2 (proj2 (rebuild_stored r (with_store u (set_obj k (store u) o)))) k (obj_key k o)) as Hst. cbn in Hst. rewrite Ho in Hst.
  unfold apply_obj, unchanged. destruct (stored k (store u) (obj_key k o)) as [y|]; [|done].
  destruct (equal k (Some y) (Some o)); [|done]. split; [by apply touches_only_refl|done].
Qed.
Lemma delete_spec k r u nn : run_ok r → wf u →
  let u' := (delete_obj build (existing k) (del_obj k) r u nn).1 in
  touches_only k nn (if existing k (store u) nn then Some (r, with_store u (del_obj k (store u) nn)) else None) u u' ∧
  stored k (store u') nn = None.
Proof.
  intros Hr Hwf. destruct (stored_del k (store u) nn (wf_pool _ Hwf)) as (Hp & Ho & Hf).
  unfold delete_obj. rewrite existing_stored. case_bool_decide as Hex.
  - split; [apply touches_rebuild; [done..|apply spec_named_del, Hwf|done|]; by rewrite Ho|].
    rewrite (proj2 (proj2 (rebuild_stored r _))). exact Ho.
  - split; [by apply touches_only_refl|]. by apply eq_None_not_Some.
Qed.
(** Assigning through the pointer in the store. *)
Lemma assign_spec u vs old : wf u → stored KVirtualService (store u) (key vs) = Some old → same_vs old vs →
  touches_only KVirtualService (key vs) None u (assign_stored u vs) ∧
  stored KVirtualService (store (assign_stored u vs)) (key vs) = Some vs.
Proof.
  intros Hwf Hold Hs. assert (∀ nn, stored KVirtualService (store (assign_stored u vs)) nn =
    if decide (nn = key vs) then Some vs else stored KVirtualService (store u) nn) as Hst.
  { intros nn. transitivity ((λ o, if decide (key o = key vs) then vs else o) <$> stored KVirtualService (store u) nn);
      [exact (lookup_fmap _ _ nn)|].
    destruct (stored KVirtualService (store u) nn) as [o|] eqn:Ho; cbn [fmap option_fmap option_map].
    - apply (wf_keys _ Hwf) in Ho. subst nn. by repeat case_decide.
    - case_decide; [congruence|done]. }
  assert (∀ k nn, (k, nn) ≠ (KVirtualService, key vs) → stored k (store (assign_stored u vs)) nn = stored k (store u) nn) as Hf.
  { intros k nn Hne. destruct k; try reflexivity. rewrite Hst, decide_False; [done|]. intros ->. by apply Hne. }
  split; [|by rewrite Hst, decide_True]. split; [split| |].
  - apply Hwf.
  - apply Hwf.
  - intros nn o. rewrite Hst. case_decide as E; [intros [= <-]; done|apply Hwf].
  - exact Hf.
  - intros [r c0] Hl. destruct (Hl eq_refl) as [Hrun Hsp Hk Hc Hr]. cbn [fst snd default] in *. split; [done..|].
    intros k nn. specialize (Hr k nn).
    destruct (decide ((k, nn) = (KVirtualService, key vs))) as [E|Hne]; [|by rewrite Hf].
    injection E as -> ->. rewrite Hst, decide_True by done. rewrite Hold in Hr.
    destruct (stored KVirtualService (store c0) (key vs)) as [x|]; inversion Hr. constructor. by trans old.
Qed.

(** What a request leaves behind, for what it read. *)
Definition settles (k : kind) (get : get_result (obj k)) (u u' : CacheUpdater) (nn : NN) : Prop :=
  match get with
  | GetErr _ => u' = u
  | NotFound => stored k (store u') nn = None
  | Found o => agree k (Some o) (stored k (store u') nn)
  end.
Lemma reconcile_apply k r u o : run_ok r → wf u →
  let u' := apply_obj build (stored k) (equal k) (set_obj k) r u (obj_key k o) (norm k o) in
  touches_only k (obj_key k o) (rebuild_of k r (Found o) u (obj_key k o)) u u' ∧
  agree k (Some o) (stored k (store u') (obj_key k o)).
Proof.
  intros Hr Hwf. destruct (apply_spec k r u (norm k o) Hr Hwf) as [Ht Hs]. rewrite norm_key in Ht, Hs. split; [exact Ht|].
  unfold agree, unchanged in *. rewrite norm_key in Hs. destruct (stored k (store u) (obj_key k o)) as [y|] eqn:Hy.
  - destruct (equal k (Some y) (Some (norm k o))) eqn:He.
    + rewrite Hs, Hy. by apply equal_carries.
    + rewrite Hs. by apply same_carries.
  - rewrite Hs. by apply same_carries.
Qed.
Lemma assign_step reb u0 u vs old nn : touches_only KVirtualService nn reb u0 u → stored KVirtualService (store u) nn = Some old →
  same_vs old vs →
  touches_only KVirtualService nn reb u0 (assign_stored u vs) ∧ stored KVirtualService (store (assign_stored u vs)) nn = Some vs.
Proof.
  intros Ht Hold Hs. assert (key vs = nn) as <- by (destruct Hs as [<- _]; by eapply wf_keys; [apply Ht|]).
  destruct (assign_spec u vs old) as [Ht' Hst]; [apply Ht|done..|]. split; [by eapply touches_only_trans|done].
Qed.
Lemma virtual_service_settles r update get u nn u' st e : run_ok r → wf u →
  (∀ vs vs', update vs = Ok vs' → same_vs vs vs') → (∀ vs, get = Found vs → key vs = nn) →
  VirtualService_Reconcile r update get u nn = (u', st, e) →
  touches_only KVirtualService nn (rebuild_of KVirtualService r get u nn) u u' ∧ settles KVirtualService get u u' nn.
Proof.
  intros Hrun Hwf Hupd Hkey Hr. unfold VirtualService_Reconcile in Hr. destruct get as [vs| |err]; cbn [settles].
  - specialize (Hkey vs eq_refl). subst nn. set (u1 := ApplyVirtualService build r u vs) in *.
    destruct (apply_spec KVirtualService r u (Api.VS_NormalizeSpec vs) Hrun Hwf) as [Ht Hs].
    change (touches_only KVirtualService (key vs) (rebuild_of KVirtualService r (Found vs) u (key vs)) u u1) in Ht.
    change (if keeps_stored u vs then u1 = u else
      stored KVirtualService (store u1) (key vs) = Some (Api.VS_NormalizeSpec vs)) in Hs.
    destruct (reconcile_apply KVirtualService r u vs Hrun Hwf) as [_ Ha].
    change (agree KVirtualService (Some vs) (stored KVirtualService (store u1) (key vs))) in Ha.
    set (vs1 := match GetVirtualServiceWithStatus u1 (key vs) with Some w => _ | None => _ end) in *.
    assert (same_vs (Api.VS_NormalizeSpec vs) vs1) as Hs1 by (unfold vs1; by destruct (GetVirtualServiceWithStatus _ _)).
    clearbody u1 vs1. destruct (keeps_stored u vs).
    + assert (u' = u1) as -> by (case_decide; [destruct (update vs1)|]; congruence). done.
    + destruct (assign_step _ u u1 vs1 _ _ Ht Hs Hs1) as [Ht1 Hst1].
      assert (u' = assign_stored u1 vs1 ∨ ∃ v, same_vs vs1 v ∧ u' = assign_stored (assign_stored u1 vs1) v) as [->|(v & Hv & ->)].
      { case_decide; [|left; congruence]. destruct (update vs1) as [v|] eqn:Hu; [right; exists v|left; congruence].
        split; [by apply Hupd|congruence]. }
      * split; [exact Ht1|]. rewrite Hst1. by apply same_carries.
      * destruct (assign_step _ u _ v _ _ Ht1 Hst1 Hv) as [Ht2 Hst2]. split; [exact Ht2|]. rewrite Hst2. apply same_carries. cbn. by trans vs1.
  - destruct (delete_spec KVirtualService r u nn Hrun Hwf) as [Ht Hn].
    destruct (DeleteVirtualService build r u nn) as [u1 e1] eqn:Hd. injection Hr as -> <- <-.
    change (delete_obj _ _ _ r u nn) with (DeleteVirtualService build r u nn) in Ht, Hn. rewrite Hd in Ht, Hn. done.
  - injection Hr as -> <- <-. split; [by apply touches_only_refl|done].
Qed.
Lemma Reconcile_settles k r update get u nn u' st e : run_ok r → wf u →
  (∀ vs vs', update vs = Ok vs' → same_vs vs vs') → (∀ o, get = Found o → obj_key k o = nn) →
  Reconcile k r update get u nn = (u', st, e) →
  touches_only k nn (rebuild_of k r get u nn) u u' ∧ settles k get u u' nn ∧ (st ≠ None → k = KVirtualService).
Proof.
  intros Hrun Hwf Hupd Hkey Hr.
  destruct (decide (k = KVirtualService)) as [->|Hk].
  { destruct (virtual_service_settles r update get u nn u' st e) as [? ?]; done. }
  assert (st = None ∧ match get with GetErr _ => u' = u | NotFound => u' = (delete_obj build (existing k) (del_obj k) r u nn).1
    | Found o => u' = apply_obj build (stored k) (equal k) (set_obj k) r u (obj_key k o) (norm k o) end) as [-> Hu].
  { destruct k; [done|..]; destruct get; cbn in Hr; try by injection Hr as <- <- <-.
    unfold DeleteVirtualServiceTemplate in Hr. cbn. destruct (delete_obj _ _ _ _ _ _). by injection Hr as <- <- <-. }
  destruct get as [o| |err]; cbn [settles]; rewrite Hu.
  - rewrite <-(Hkey o eq_refl). destruct (reconcile_apply k r u o Hrun Hwf). done.
  - destruct (delete_spec k r u nn Hrun Hwf). done.
  - split; [by apply touches_only_refl|done].
Qed.

(** ** Histories *)
Lemma srv_set_eq s k nn o : srv_set s k nn o k nn = o.
Proof.
  unfold srv_set. destruct (decide (k = k)) as [E|]; [|done]. rewrite decide_True by done.
  by rewrite (UIP_dec kind_eq_dec E eq_refl).
Qed.
Lemma srv_set_ne s k nn o k' nn' : (k', nn') ≠ (k, nn) → srv_set s k nn o k' nn' = s k' nn'.
Proof. intros Hne. unfold srv_set. destruct (decide (k = k')) as [<-|]; [|done]. case_decide; [by subst|done]. Qed.
Lemma publish_lookup s nn st k' nn' :
  (st ≠ None → (k', nn') ≠ (KVirtualService, nn)) → publish s nn st k' nn' = s k' nn'.
Proof. intros Hne. destruct st; [|done]. by apply srv_set_ne, Hne. Qed.
Lemma agree_publish s nn st k' nn' y : agree k' (publish s nn st k' nn') y ↔ agree k' (s k' nn') y.
Proof.
  destruct st as [st|]; [|done]. destruct (decide ((k', nn') = (KVirtualService, nn))) as [E|Hne];
    [|by rewrite publish_lookup]. injection E as -> ->. cbn [publish]. rewrite srv_set_eq.
  by destruct (s KVirtualService nn).
Qed.
Record ok (w : World) : Prop := {
  ok_wf : wf (upd w);
  ok_keys k nn x : srv w k nn = Some x → obj_key k x = nn
}.
Lemma publish_keys w nn st k' nn' x : ok w → publish (srv w) nn st k' nn' = Some x → obj_key k' x = nn'.
Proof.
  intros [_ Hk]. destruct st as [st|]; [|apply Hk]. destruct (decide ((k', nn') = (KVirtualService, nn))) as [E|Hne];
    [|rewrite publish_lookup by done; apply Hk]. injection E as -> ->. cbn [publish]. rewrite srv_set_eq.
  destruct (srv w KVirtualService nn) as [vs|] eqn:Hvs; [|done]. intros [= <-]. exact (Hk _ _ _ Hvs).
Qed.
Lemma exec_spec w e : ok w → event_ok e →
  ok (exec w e) ∧
  (∀ l, rebuilt_from l.1 l.2 (upd w) → let l' := default l (event_rebuild w e) in rebuilt_from l'.1 l'.2 (upd (exec w e))) ∧
  ∀ k nn, (handles k nn e → agrees (exec w e) k nn) ∧
    ((∀ o, e ≠ EChange k nn o) → agrees w k nn → agrees (exec w e) k nn).
Proof.
  intros Hok He. destruct e as [k nn o|k nn r fail update]; cbn [exec].
  - split; [split; [apply Hok|]|split; [done|]].
    + intros k' nn' x. cbn [srv]. destruct (decide ((k', nn') = (k, nn))) as [E|Hne].
      * injection E as -> ->. rewrite srv_set_eq. apply He.
      * rewrite srv_set_ne by done. apply Hok.
    + intros k' nn'. split; [by intros (? & ? & ?)|]. intros Hne. unfold agrees. cbn [srv upd].
      rewrite srv_set_ne; [done|]. intros [= -> ->]. by apply (Hne o).
  - destruct (Reconcile k r update (read (srv w) k nn fail) (upd w) nn) as [[u st] e] eqn:Hr.
    destruct (Reconcile_settles k r update (read (srv w) k nn fail) (upd w) nn u st e) as (Ht & Hs & Hst);
      [apply He|apply Hok|apply He| |exact Hr|].
    { intros o. unfold read. destruct fail; [done|]. destruct (srv w k nn) as [x|] eqn:Hx; [|done].
      intros [= <-]. by apply (ok_keys _ Hok). }
    split; [split; [apply Ht|]|split; [intros l Hl; by apply (to_rebuilt _ _ _ _ _ Ht)|]].
    + intros k' nn' x. apply publish_keys, Hok.
    + intros k' nn'. unfold agrees. cbn [srv upd]. rewrite agree_publish.
      assert (fail = None → agree k (srv w k nn) (stored k (store u) nn)) as Hsettled.
      { intros ->. unfold read in Hs. by destruct (srv w k nn); [|cbn in *; rewrite Hs]. }
      split; [intros (r' & update' & Ee); injection Ee as -> -> _ -> _; by apply Hsettled|]. intros _ Ha.
      destruct (decide ((k', nn') = (k, nn))) as [E|Hne]; [|by rewrite (to_frame _ _ _ _ _ Ht)].
      injection E as -> ->. destruct fail; [|by apply Hsettled]. cbn in Hs. by subst u.
Qed.
(** Every object agrees, or a change of it is still to be handled. *)
Lemma run_agrees w0 h k nn : ok w0 → Forall event_ok h → agrees w0 k nn →
  ok (foldl exec w0 h) ∧ (agrees (foldl exec w0 h) k nn ∨
    ∃ h1 o h2, h = h1 ++ EChange k nn o :: h2 ∧ ¬ Exists (handles k nn) h2).
Proof.
  intros Hok Hh Ha. induction h as [|e h IH] using rev_ind; [by split; [|left]|].
  apply Forall_app in Hh as [Hh [He _]%Forall_cons]. destruct (IH Hh) as [Hok' Hor]. rewrite foldl_app. cbn [foldl].
  destruct (exec_spec (foldl exec w0 h) e Hok' He) as (Hok2 & _ & Hag). destruct (Hag k nn) as [Hhand Hkeep].
  split; [done|]. destruct e as [k1 nn1 o1|k1 nn1 r fail update].
  - destruct (decide ((k1, nn1) = (k, nn))) as [E|Hne].
    + injection E as -> ->. right. exists h, o1, []. split; [done|]. by inversion 1.
    + destruct Hor as [Hagr|(h1 & o & h2 & -> & Hno)].
      * left. apply Hkeep; [|done]. intros o E. apply Hne. by inversion E.
      * right. exists h1, o, (h2 ++ [EChange k1 nn1 o1]). rewrite <-app_assoc. split; [done|].
        rewrite Exists_app, Exists_cons, Exists_nil. intros [?|[(? & ? & ?)|[]]]; done.
  - destruct (decide ((k1, nn1) = (k, nn) ∧ fail = None)) as [[E ->]|Hne].
    + injection E as -> ->. left. apply Hhand. by exists r, update.
    + destruct Hor as [Hagr|(h1 & o & h2 & -> & Hno)].
      * left. by apply Hkeep.
      * right. exists h1, o, (h2 ++ [EReconcile k1 nn1 r fail update]). rewrite <-app_assoc. split; [done|].
        rewrite Exists_app, Exists_cons, Exists_nil. intros [?|[(? & ? & E)|[]]]; [done|]. apply Hne. by inversion E.
Qed.
Lemma run_rebuilt w0 l0 h : ok w0 → Forall event_ok h → rebuilt_from l0.1 l0.2 (upd w0) →
  let l := last_rebuild w0 l0 h in rebuilt_from l.1 l.2 (upd (foldl exec w0 h)).
Proof.
  intros Hok Hh. revert w0 l0 Hok. induction Hh as [|e h He Hh IH]; intros w0 l0 Hok Hr; [done|].
  destruct (exec_spec w0 e Hok He) as (Hok' & Hr' & _). exact (IH (exec w0 e) _ Hok' (Hr' l0 Hr)).
Qed.

(** ** Statuses *)
Definition recorded (u : CacheUpdater) (nn : NN) : VSObjStatus :=
  let status := Store.GetVirtualServiceStatus (store u) nn in mkVSObjStatus (Status.Message status) (Status.Invalid status).
Lemma recorded_status u nn vs : wf u → stored KVirtualService (store u) nn = Some vs →
  ∃ y, GetVirtualServiceWithStatus u nn = Some y ∧ vs_status y = recorded u nn.
Proof.
  intros Hwf Hs. pose proof (wf_keys _ Hwf _ _ Hs) as Hk. unfold GetVirtualServiceWithStatus, Store.GetVirtualServiceWithStatus.
  cbn in Hs. unfold Store.GetVirtualService in Hs. rewrite Hs. eexists. split; [reflexivity|].
  cbn [vs_status Status.ApplyStatusToVS]. change (nn_of (meta vs)) with (key vs). unfold recorded. by rewrite <-Hk.
Qed.
(** The status of a service on the server, once it has been reconciled without an
    error, is the one the last build recorded. *)
Lemma status_published w nn r update u st vs : run_ok r → ok w → srv w KVirtualService nn = Some vs →
  VirtualService_Reconcile r update (Found vs) (upd w) nn = (u, st, None) →
  vs_status <$> publish (srv w) nn st KVirtualService nn = Some (recorded u nn).
Proof.
  intros Hrun Hok Hsrv Hr. assert (key vs = nn) as Hkey by exact (ok_keys _ Hok _ _ _ Hsrv).
  unfold VirtualService_Reconcile in Hr. set (u1 := ApplyVirtualService build r (upd w) vs) in *.
  destruct (reconcile_apply KVirtualService r (upd w) vs Hrun (ok_wf _ Hok)) as [Ht Ha].
  change (touches_only KVirtualService (key vs) (rebuild_of KVirtualService r (Found vs) (upd w) (key vs)) (upd w) u1) in Ht.
  change (agree KVirtualService (Some vs) (stored KVirtualService (store u1) (key vs))) in Ha.
  rewrite Hkey in Ht, Ha. destruct (stored KVirtualService (store u1) nn) as [v|] eqn:Hv; [|done].
  destruct (recorded_status u1 nn v) as (y & Hy & Hst); [apply Ht|done|]. rewrite Hy, Hst in Hr. cbn [set_status vs_status] in Hr.
  assert (∀ b v1, recorded (if b : bool then u1 else assign_stored u1 v1) nn = recorded u1 nn) as Hrec by (by intros []).
  assert (∀ (b : bool) v1 v2, recorded (if b then (if b then u1 else assign_stored u1 v1)
    else assign_stored (if b then u1 else assign_stored u1 v1) v2) nn = recorded u1 nn) as Hrec2 by (by intros []).
  case_decide as Hd.
  - destruct (update _) as [v'|]; [|done]. injection Hr as <- <-. cbn [publish].
    rewrite srv_set_eq, Hsrv, Hrec2. done.
  - injection Hr as <- <-. cbn [publish]. rewrite Hsrv, Hrec. cbn. f_equal.
    destruct (vs_status vs) as [m i], (recorded u1 nn) as [m' i']. cbn in Hd.
    f_equal; apply dec_stable; tauto.
Qed.

Lemma fair_nil : fair [].
Proof. by intros [] k nn o h2 E. Qed.
Lemma fair_change k nn o h : Exists (handles k nn) h → fair h → fair (EChange k nn o :: h).
Proof.
  intros Hh Hf [|e h1] k' nn' o' h2 E; [|injection E as _ ->; by eapply Hf].
  injection E as Ek En _ Eh. by subst.
Qed.
Lemma fair_reconcile k nn r fail update h : fair h → fair (EReconcile k nn r fail update :: h).
Proof. intros Hf [|e h1] k' nn' o' h2 E; [done|]. injection E as _ ->. by eapply Hf. Qed.

Lemma converges w0 l0 h :
  ok w0 → (∀ k nn, agrees w0 k nn) → rebuilt_from l0.1 l0.2 (upd w0) → Forall event_ok h → fair h →
  (∀ k nn, agrees (foldl exec w0 h) k nn) ∧
  let l := last_rebuild w0 l0 h in rebuilt_from l.1 l.2 (upd (foldl exec w0 h)).
Proof.
  intros Hok Ha Hr Hh Hfair. split; [|by apply run_rebuilt]. intros k nn.
  destruct (run_agrees w0 h k nn Hok Hh (Ha k nn)) as [_ [?|(h1 & o & h2 & -> & Hno)]]; [done|].
  destruct Hno. by eapply Hfair.
Qed.

(** The controllers converge: start from a store that agrees with the API server
    and let objects of any kind be created, changed and deleted while requests are
    reconciled in any order, some with errors.  If every change is followed by a
    reconciliation that can read the object, then in the end the store agrees with
    the server on every object of every kind, and the snapshots served are those of
    the last rebuild, which ran on the objects in the store. *)
Theorem controllers_converge w0 l0 h :
  ok w0 → (∀ k nn, agrees w0 k nn) → rebuilt_from l0.1 l0.2 (upd w0) → Forall event_ok h → fair h →
  (∀ k nn, agrees (foldl exec w0 h) k nn) ∧
  let l := last_rebuild w0 l0 h in rebuilt_from l.1 l.2 (upd (foldl exec w0 h)).
Proof. apply converges. Qed.
End reconcilers.

(** ** Examples *)
Module Examples.
#[local] Existing Instances MapCache.api MapCache.cache Mixer.Examples.proto Rebuild.ex_json Rebuild.ex_cluster_pb.
Definition build := Rebuild.Examples.build.
Definition run : Run := Rebuild.ex_run.
Definition start : CacheUpdater :=
  (rebuildSnapshots build run (NewCacheUpdater SnapshotCache.NewSnapshotCache Store.NewOptimizedStore)).1.
Definition world0 : World := mkWorld (λ _ _, None) start.
(** The status update succeeds. *)
Definition accept (vs : VirtualService) : result VirtualService := Ok vs.
Definition listener : Listener := mkListener (mkMeta "l" "ns" "ul" 1 None None) (Some (mkRaw (Some "l") None)).
Definition service (uid : string) (labels : option (gmap string string)) : VirtualService :=
  mkVS (mkMeta "a" "ns" uid 1 (Some {[ Api.AnnotationNodeIDs := "n1" ]}) labels)
    (vs_spec Rebuild.Examples.a) (mkVSObjStatus "" false).
Definition vs_nn : NN := Helpers.mkNN "ns" "a".
Definition l_nn : NN := Helpers.mkNN "ns" "l".
Definition handle (k : kind) (nn : NN) : event := EReconcile k nn run None accept.
(** The service is reconciled before its listener exists, and once with an error. *)
Definition history : list event :=
  [EChange KVirtualService vs_nn (Some (service "ua" None)); handle KVirtualService vs_nn;
   EChange KListener l_nn (Some listener); EReconcile KListener l_nn run (Some (ErrNew "timeout")) accept;
   handle KListener l_nn].
Definition finally (h : list event) : World := foldl (exec Rebuild.ex_pem Rebuild.ex_x509 build) world0 h.
End Examples.
#[local] Existing Instances MapCache.api MapCache.cache Mixer.Examples.proto Rebuild.ex_json Rebuild.ex_cluster_pb.
Import Examples.

Lemma run_run_ok : run_ok run.
Proof. split; [done..|by intros m]. Qed.
Lemma world0_ok : ok world0.
Proof.
  split; [split|done].
  - change (map_Forall (λ s r : string, r = s) (StringPool.pool (Store.stringPool (store start)))).
    apply (bool_decide_unpack _). vm_compute. exact I.
  - intros n c Hc. vm_compute in Hc. done.
  - intros nn vs Hvs. vm_compute in Hvs. done.
Qed.
Lemma world0_agrees k nn : agrees world0 k nn.
Proof. by destruct k. Qed.
Definition last0 : RebuildRun := (run, NewCacheUpdater SnapshotCache.NewSnapshotCache Store.NewOptimizedStore).
Lemma world0_rebuilt : rebuilt_from build last0.1 last0.2 (upd world0).
Proof.
  split; [exact run_run_ok|done|done|reflexivity|].
  intros k nn. by destruct k; constructor.
Qed.
Lemma history_ok : Forall event_ok history.
Proof. unfold history. repeat (apply Forall_cons; split; [first [by intros x [= <-]|split; [exact run_run_ok|by intros vs vs' [= <-]]]|]). apply Forall_nil, I. Qed.
Lemma handle_handles k nn : handles k nn (handle k nn).
Proof. by eexists run, accept. Qed.
Lemma history_fair : fair history.
Proof.
  unfold history. repeat (apply fair_reconcile || (apply fair_change; [|]) || apply fair_nil);
    (repeat (apply Exists_cons_hd, handle_handles || apply Exists_cons_tl)).
Qed.

Lemma controllers_converge_witness :
  let l := last_rebuild Rebuild.ex_pem Rebuild.ex_x509 build world0 last0 history in
  (∀ k nn, agrees (finally history) k nn) ∧ rebuilt_from build l.1 l.2 (upd (finally history)) ∧
  (rebuildSnapshots build l.1 l.2).2 = None ∧
  is_Some (stored KListener (store (upd (finally history))) l_nn) ∧
  is_ok (SnapshotCache.GetSnapshot (snapshotCache (upd (finally history))) "n1") = true.
Proof.
  destruct (controllers_converge Rebuild.ex_pem Rebuild.ex_x509 build world0 last0 history world0_ok world0_agrees world0_rebuilt
    history_ok history_fair) as [Ha Hr].
  split; [exact Ha|]. split; [exact Hr|]. split; [vm_compute; reflexivity|].
  split; [vm_compute; by eexists|vm_compute; reflexivity].
Defined.

(** [IsEqual] compares specifications: a service that is moved to another access
    group, or deleted and created again, is stored as it was before. *)
Definition edited (vs : VirtualService) : list event :=
  [EChange KVirtualService vs_nn (Some (service "ua" None)); handle KVirtualService vs_nn;
   EChange KVirtualService vs_nn (Some vs); handle KVirtualService vs_nn].
Example access_group_not_followed :
  let w := finally (edited (service "ua" (Some {[ Api.LabelAccessGroup := "team" ]}))) in
  (Api.GetAccessGroup <$> srv w KVirtualService vs_nn) = Some "team" ∧
  (Api.GetAccessGroup <$> stored KVirtualService (store (upd w)) vs_nn) = Some Api.GeneralAccessGroup.
Proof. vm_compute. by split. Qed.
Example recreated_service_has_old_uid :
  let w := finally (edited (service "ub" None)) in
  (uid <$> srv w KVirtualService vs_nn) = Some "ub" ∧
  Store.GetVirtualServiceByUID (store (upd w)) "ub" = None.
Proof. vm_compute. by split. Qed.
End Controllers.
