(* ===== verification/WebhookCert.v ===== *)
(** * [internal/controller/webhook_controller.go]: the certificate of the webhooks

    The controller keeps a TLS secret with the certificate of the webhook server
    and the certificate of the authority that signed it, renews them before they
    expire and writes the authority into the webhook configuration, so that the
    API server trusts the webhooks.  The certificate library is a class, the API
    server a state with the faults of one run. *)

From S2P Require Import Prelude GoStrings Types DomainSecrets.

Module WebhookCert.
Import DomainSecrets.

Definition Second : Z := 10 ^ 9.
Definition Hour : Z := 3600 * Second.
Definition certificateExpirationThreshold : Z := 3 * 24 * Hour.
Definition certificateValidity : Z := 6 * 30 * 24 * Hour.
Definition SecretLabelKey : string := "envoy.kaasops.io/secret-type".
Definition WebhookSecretLabelValue : string := "webhook".
Definition TLSCertKey : string := "tls.crt".
Definition TLSPrivateKeyKey : string := "tls.key".
Definition ServiceAccountRootCAKey : string := "ca.crt".

(** [github.com/kaasops/cert]: authorities, pairs of a certificate and its key (nil
    pointers are [None]), and the check that a certificate is valid for longer than a
    threshold. *)
Class CertManager := {
  Authority : Type; Certificate : Type; PrivateKey : Type;
  GenerateCertificateAuthority : result Authority;
  GenerateCertificate : Authority → Time → string → result (string * string);
  CACertificatePem : Authority → string;
  GetCertificateFromBytes : string → result Certificate;
  GetCertificateWithPrivateKeyFromBytes : string → string → result (option Certificate * option PrivateKey);
  ValidateCertificate : Time → option Certificate → option PrivateKey → Z → option error;
  NotAfter : Certificate → Time
}.
(** What the callers rely on: a certificate that is made reads back, with its key and
    with the expiry that was asked for (certificates count whole seconds); a
    certificate that is accepted is there with its key and does not expire within the
    threshold; the two readers agree on the certificate. *)
Record CertLaws (CM : CertManager) : Prop := {
  made_reads_back : ∀ ca t name crt pk, GenerateCertificate ca t name = Ok (crt, pk) →
    ∃ c p, GetCertificateWithPrivateKeyFromBytes crt pk = Ok (Some c, Some p) ∧ (t - Second < NotAfter c ≤ t)%Z;
  accepted_is_valid : ∀ now c p threshold, ValidateCertificate now c p threshold = None →
    ∃ c', c = Some c' ∧ is_Some p ∧ (now + threshold ≤ NotAfter c')%Z;
  readers_agree : ∀ crt pk c p, GetCertificateWithPrivateKeyFromBytes crt pk = Ok (Some c, p) →
    GetCertificateFromBytes crt = Ok c
}.

(** A webhook of the configuration: its in-cluster service, if that is how it is
    called, and the authority to trust. *)
Record Webhook := mkWebhook { wService : option string; wCABundle : string }.
Record ApiServer := mkApiServer { kSecrets : gmap NN Secret; kConfigs : gmap string (list Webhook) }.
Definition set_secret (k : ApiServer) (s : Secret) : ApiServer := mkApiServer (<[key s := s]> (kSecrets k)) (kConfigs k).

(** The answers of the API server in one run; [None] is success.  [fUpdate n] is
    the answer to the n-th attempt to update the configuration. *)
Inductive attempt := AOk | AConflict (e : error) | AErr (e : error).
Record Faults := mkFaults {
  fGet : option error; fGetAgain : option error; fCreate : option error; fCreateOrUpdate : option error;
  fGetConfig : nat → option error; fUpdate : nat → attempt
}.

Record WebhookReconciler := mkReconciler { rNamespace : string; TLSSecretName : string; ValidationWebhookName : string }.

(** The events the controller looks at: those of its secret and its configuration. *)
Definition namesMatchingPredicate (names : list string) (name : string) : bool := bool_decide (name ∈ names).

Section reconciler.
Context {CM : CertManager} (r : WebhookReconciler) (f : Faults).

(** [secret.Data[k]]: a missing value is empty. *)
Definition data (s : Secret) (k : string) : string := default "" (nilmap_get (s_data s) k).

Definition shouldUpdateCertificate (now : Time) (secret : Secret) : bool :=
  match nilmap_get (s_data secret) ServiceAccountRootCAKey with
  | None => true
  | Some _ =>
      match GetCertificateWithPrivateKeyFromBytes (data secret TLSCertKey) (data secret TLSPrivateKeyKey) with
      | Err _ => true
      | Ok (certificate, privateKey) =>
          match ValidateCertificate now certificate privateKey certificateExpirationThreshold with
          | Some _ => true
          | None => false
          end
      end
  end.

(** [r.Get] replaces the object by the one of the server. *)
Definition get_secret (k : ApiServer) (fault : option error) (nn : NN) : result Secret :=
  match fault, kSecrets k !! nn with
  | Some e, _ => Err e
  | None, Some s => Ok s
  | None, None => Err (ErrNew "not found")
  end.

Definition trust (caBundle : string) (w : Webhook) : Webhook :=
  match wService w with Some _ => mkWebhook (wService w) caBundle | None => w end.
(** [retry.RetryOnConflict] with the default backoff: four attempts. *)
Definition DefaultBackoffSteps : nat := 4.
Fixpoint update_attempts (k : ApiServer) (caBundle : string) (n steps : nat) (last : option error) : ApiServer * option error :=
  match steps with
  | 0 => (k, last)
  | S steps =>
      match fGetConfig f n, kConfigs k !! ValidationWebhookName r with
      | Some e, _ => (k, Some (ErrWrap "cannot retrieve ValidatingWebhookConfiguration" e))
      | None, None => (k, Some (ErrWrap "cannot retrieve ValidatingWebhookConfiguration" (ErrNew "not found")))
      | None, Some ws =>
          match fUpdate f n with
          | AOk => (mkApiServer (kSecrets k) (<[ValidationWebhookName r := trust caBundle <$> ws]> (kConfigs k)), None)
          | AConflict e => update_attempts k caBundle (S n) steps (Some e)
          | AErr e => (k, Some e)
          end
      end
  end.
Definition updateValidatingWebhookConfiguration (k : ApiServer) (caBundle : string) : ApiServer * option error :=
  update_attempts k caBundle 0 DefaultBackoffSteps None.

(** The secret with a new certificate, as it is kept in memory. *)
Definition renew (now : Time) (certSecret : Secret) : result Secret :=
  ca ← wrap_err "failed to generate certificate authority" GenerateCertificateAuthority;
  let dnsName := "envoy-xds-controller-webhook-service." +:+ rNamespace r +:+ ".svc" in
  crt ← wrap_err "failed to generate certificate" (GenerateCertificate ca (now + certificateValidity)%Z dnsName);
  Ok (mkSecret (s_meta certSecret) (Some {[ TLSCertKey := crt.1; TLSPrivateKeyKey := crt.2;
                                            ServiceAccountRootCAKey := CACertificatePem ca ]})).
(** [controllerutil.CreateOrUpdate]: the data are set on the object of the server,
    or on a new one. *)
Definition createOrUpdate (k : ApiServer) (certSecret : Secret) : ApiServer * option error :=
  match fCreateOrUpdate f with
  | Some e => (k, Some e)
  | None =>
      let m := match kSecrets k !! key certSecret with Some s => s_meta s | None => s_meta certSecret end in
      (set_secret k (mkSecret m (s_data certSecret)), None)
  end.
(** The certificate part: the cluster, and the secret as it is left in memory. *)
Definition ensure_certificate (now_check now_gen : Time) (k : ApiServer) (certSecret : Secret) : ApiServer * result Secret :=
  let '(k, found) :=
    match get_secret k (fGetAgain f) (key certSecret) with
    | Ok s => (k, Ok s)
    | Err _ => match fCreate f with
               | Some e => (k, Err (ErrWrap "failed to create secret" e))
               | None => (set_secret k certSecret, Ok certSecret)
               end
    end in
  match found with
  | Err e => (k, Err e)
  | Ok certSecret =>
      if shouldUpdateCertificate now_check certSecret then
        match renew now_gen certSecret with
        | Err e => (k, Err e)
        | Ok certSecret =>
            match createOrUpdate k certSecret with
            | (k, Some e) => (k, Err (ErrWrap "failed to update secret" e))
            | (k, None) => (k, Ok certSecret)
            end
        end
      else (k, Ok certSecret)
  end.
Definition ReconcileCertificates (now_check now_gen : Time) (k : ApiServer) (certSecret : Secret) : ApiServer * result Secret :=
  match ensure_certificate now_check now_gen k certSecret with
  | (k, Err e) => (k, Err e)
  | (k, Ok certSecret) =>
      match nilmap_get (s_data certSecret) ServiceAccountRootCAKey with
      | None => (k, Err (ErrNew ("missing " +:+ ServiceAccountRootCAKey +:+ " field in " +:+ TLSSecretName r +:+ " secret")))
      | Some caBundle =>
          match updateValidatingWebhookConfiguration k caBundle with
          | (k, Some e) => (k, Err (ErrWrap "failed to update ValidatingWebhookConfiguration" e))
          | (k, None) => (k, Ok certSecret)
          end
      end
  end.
Definition set_labels (s : Secret) (labels : gmap string string) : Secret :=
  let m := s_meta s in
  mkSecret (mkMeta (Name m) (Namespace m) (UID m) (Generation m) (Annotations m) (Some labels)) (s_data s).
(** The delay until the next run. *)
Definition Reconcile (now_check now_gen now : Time) (k : ApiServer) (nn : NN) : ApiServer * result Z :=
  match get_secret k (fGet f) nn with
  | Err e => (k, Err e)
  | Ok certSecret =>
      let certSecret := set_labels certSecret {[ SecretLabelKey := WebhookSecretLabelValue ]} in
      match ReconcileCertificates now_check now_gen k certSecret with
      | (k, Err e) => (k, Err e)
      | (k, Ok certSecret) =>
          match GetCertificateFromBytes (data certSecret TLSCertKey) with
          | Err e => (k, Err e)
          | Ok certificate =>
              let requeueTime := (NotAfter certificate - (certificateExpirationThreshold - Second))%Z in
              (k, Ok (GoStrings.clamp64 (requeueTime - now)))
          end
      end
  end.
End reconciler.

(** ** Properties *)
Section properties.
Context {CM : CertManager} (r : WebhookReconciler) (f : Faults).
Definition keyed (k : ApiServer) : Prop := ∀ nn x, kSecrets k !! nn = Some x → key x = nn.

(** The data of a secret as one creation of the pair leaves them, for a service of
    the namespace and an expiry. *)
Definition made_for (t : Time) (name : string) (d : option (gmap string string)) : Prop :=
  ∃ ca crt pk, GenerateCertificateAuthority = Ok ca ∧ GenerateCertificate ca t name = Ok (crt, pk) ∧
    d = Some {[ "tls.crt" := crt; "tls.key" := pk; "ca.crt" := CACertificatePem ca ]}.
(** The data hold a certificate with its key, and it does not expire before [t]. *)
Definition valid_until (t : Time) (d : option (gmap string string)) : Prop :=
  ∃ crt pk c p, default "" (nilmap_get d "tls.crt") = crt ∧ default "" (nilmap_get d "tls.key") = pk ∧
    GetCertificateWithPrivateKeyFromBytes crt pk = Ok (Some c, Some p) ∧ (t ≤ NotAfter c)%Z.
Lemma made_valid t u name d : CertLaws CM → made_for t name d → (u + Second ≤ t)%Z → valid_until u d.
Proof.
  intros HL (ca & crt & pk & _ & Hg & ->) Hu. destruct (made_reads_back _ HL _ _ _ _ _ Hg) as (c & p & Hc & Ht).
  exists crt, pk, c, p. split; [done|]. split; [done|]. split; [done|]. lia.
Qed.

Lemma kept_valid now s : CertLaws CM →
  shouldUpdateCertificate now s = false → valid_until (now + 3 * 24 * 3600 * 10 ^ 9) (s_data s).
Proof.
  intros HL. unfold shouldUpdateCertificate, data. destruct (nilmap_get (s_data s) ServiceAccountRootCAKey); [|done].
  destruct (GetCertificateWithPrivateKeyFromBytes _ _) as [[c p]|] eqn:Hc; [|done].
  destruct (ValidateCertificate now c p certificateExpirationThreshold) eqn:Hv; [done|]. intros _.
  apply (accepted_is_valid _ HL) in Hv as (c' & -> & [p' ->] & Ht). eexists _, _, c', p'. split_and!; [done..|].
  unfold certificateExpirationThreshold, Hour, Second in Ht. lia.
Qed.

Lemma ensure_certificate_spec now_check now_gen k s s0 k' s' :
  CertLaws CM → (now_check ≤ now_gen)%Z → keyed k → kSecrets k !! key s = Some s0 → s_data s = s_data s0 →
  ensure_certificate r f now_check now_gen k s = (k', Ok s') →
  kConfigs k' = kConfigs k ∧ (∀ nn, nn ≠ key s → kSecrets k' !! nn = kSecrets k !! nn) ∧
  (s_data s' = s_data s0 ∨ made_for (now_gen + 180 * 24 * 3600 * 10 ^ 9)
     ("envoy-xds-controller-webhook-service." +:+ rNamespace r +:+ ".svc") (s_data s')) ∧
  valid_until (now_check + 3 * 24 * 3600 * 10 ^ 9) (s_data s') ∧
  ∃ x, kSecrets k' !! key s = Some x ∧ s_data x = s_data s'.
Proof.
  intros HL Hle Hkeys Hs0 Hd0 Hc. unfold ensure_certificate in Hc.
  set (found := match get_secret k (fGetAgain f) (key s) with Ok _ => _ | Err _ => _ end) in Hc.
  assert (∀ k1 s1, found = (k1, Ok s1) → kConfigs k1 = kConfigs k ∧ key s1 = key s ∧ kSecrets k1 !! key s = Some s1 ∧
    s_data s1 = s_data s0 ∧ ∀ nn, nn ≠ key s → kSecrets k1 !! nn = kSecrets k !! nn) as Hfound.
  { intros k1 s1. unfold found, get_secret. rewrite Hs0. destruct (fGetAgain f).
    - destruct (fCreate f); [done|]. intros [= <- <-]. cbn. rewrite lookup_insert_eq. split_and!; try done.
      intros nn Hne. by rewrite lookup_insert_ne.
    - intros [= <- <-]. by rewrite (Hkeys _ _ Hs0). }
  destruct found as [k1 [s1|e]]; [|done]. destruct (Hfound k1 s1 eq_refl) as (Hk1 & Hs1 & Hx1 & Hd1 & Ho1).
  destruct (shouldUpdateCertificate now_check s1) eqn:Hshould.
  - unfold renew in Hc. destruct GenerateCertificateAuthority as [ca|e] eqn:Hca; [|by destruct e]. cbn in Hc.
    destruct (GenerateCertificate ca _ _) as [[crt pk]|e] eqn:Hgen; [|by destruct e]. cbn in Hc.
    unfold createOrUpdate in Hc. destruct (fCreateOrUpdate f); [done|]. injection Hc as <- <-.
    set (d := Some _). change (key (mkSecret (s_meta s1) d)) with (key s1). rewrite Hs1, Hx1.
    assert (made_for (now_gen + 180 * 24 * 3600 * 10 ^ 9)
      ("envoy-xds-controller-webhook-service." +:+ rNamespace r +:+ ".svc") d) as Hmade by (by exists ca, crt, pk).
    cbn [set_secret kSecrets kConfigs s_data]. change (key (mkSecret (s_meta s1) d)) with (key s1). rewrite Hs1.
    split; [done|]. split; [intros nn Hne; by rewrite lookup_insert_ne, Ho1|]. split; [by right|].
    split; [|by rewrite lookup_insert_eq; eexists].
    eapply made_valid; [done|exact Hmade|]. unfold Second. lia.
  - injection Hc as <- <-. split_and!; [done|done|by left|by apply kept_valid|by exists s1].
Qed.
(** One webhook before and after: one that is called through a service trusts the
    authority, one that is called by URL is left alone. *)
Definition trusts (ca : string) (w w' : Webhook) : Prop :=
  wService w' = wService w ∧ (is_Some (wService w) → wCABundle w' = ca) ∧ (wService w = None → w' = w).
Lemma trust_trusts ca ws : Forall2 (trusts ca) ws (trust ca <$> ws).
Proof.
  apply Forall2_fmap_r, Forall_Forall2_diag, Forall_true. intros [[svc|] b]; unfold trusts; cbn; split_and!; try done.
Qed.
Lemma update_attempts_spec k ca n steps last k' :
  (steps ≠ 0 ∨ last ≠ None) → update_attempts r f k ca n steps last = (k', None) →
  kSecrets k' = kSecrets k ∧ ∃ ws, kConfigs k !! ValidationWebhookName r = Some ws ∧
    kConfigs k' = <[ValidationWebhookName r := trust ca <$> ws]> (kConfigs k).
Proof.
  revert n last. induction steps as [|steps IH]; intros n last Hn Hu; cbn in Hu; [destruct Hn; congruence|].
  destruct (fGetConfig f n); [done|]. destruct (kConfigs k !! ValidationWebhookName r) as [ws|] eqn:Hws; [|done].
  destruct (fUpdate f n) as [|e|e]; [|apply (IH (S n) (Some e)); [by right|done]|done]. injection Hu as <-. split; [done|]. by exists ws.
Qed.

(** C36. A run of the certificate controller that succeeds leaves a webhook server that
    the API server trusts: the secret holds the data it held, or a pair made in this
    run for the webhook service with an expiry 180 days ahead, and in both cases a
    certificate with its key that does not expire for three days; every webhook
    called through a service trusts exactly the authority in the secret, webhooks
    called by URL, the other configurations and the other secrets are unchanged; and
    the next run comes when less than three days, but more than nothing, are left,
    for an expiry within 2^62 ns (146 years) of now. The conditions: the certificate
    library obeys [CertLaws], the API server keeps secrets under their own names, and
    the clock does not go back between the check and the creation. *)
Theorem webhook_certificate_trusted now_check now_gen now k nn k' delay :
  CertLaws CM → (now_check ≤ now_gen)%Z → keyed k →
  Reconcile r f now_check now_gen now k nn = (k', Ok delay) →
  ∃ s0 s cert ca ws ws', kSecrets k !! nn = Some s0 ∧ kSecrets k' !! nn = Some s ∧
    (s_data s = s_data s0 ∨ made_for (now_gen + 180 * 24 * 3600 * 10 ^ 9)
       ("envoy-xds-controller-webhook-service." +:+ rNamespace r +:+ ".svc") (s_data s)) ∧
    valid_until (now_check + 3 * 24 * 3600 * 10 ^ 9) (s_data s) ∧
    nilmap_get (s_data s) "ca.crt" = Some ca ∧
    kConfigs k !! ValidationWebhookName r = Some ws ∧ kConfigs k' !! ValidationWebhookName r = Some ws' ∧
    Forall2 (trusts ca) ws ws' ∧
    (∀ n, n ≠ ValidationWebhookName r → kConfigs k' !! n = kConfigs k !! n) ∧
    (∀ n, n ≠ nn → kSecrets k' !! n = kSecrets k !! n) ∧
    GetCertificateFromBytes (default "" (nilmap_get (s_data s) "tls.crt")) = Ok cert ∧
    (now_check + 3 * 24 * 3600 * 10 ^ 9 ≤ NotAfter cert)%Z ∧
    (Z.abs (NotAfter cert - now) < 2 ^ 62 → 0 < NotAfter cert - (now + delay) < 3 * 24 * 3600 * 10 ^ 9)%Z.
Proof.
  intros HL Hle Hkeys Hr. unfold Reconcile in Hr. destruct (get_secret k (fGet f) nn) as [s0|] eqn:Hget; [|done].
  set (s1 := set_labels s0 _) in Hr. assert (kSecrets k !! nn = Some s0) as Hs0.
  { unfold get_secret in Hget. destruct (fGet f); [done|]. destruct (kSecrets k !! nn) as [x|]; [|done]. by injection Hget as ->. }
  assert (key s1 = nn) as Hs1 by exact (Hkeys _ _ Hs0). unfold ReconcileCertificates in Hr.
  destruct (ensure_certificate r f now_check now_gen k s1) as [k1 [s2|]] eqn:Hens; [|done].
  apply (ensure_certificate_spec _ _ _ _ s0) in Hens as (Hcfg & Hsecs & Hdata & Hvalid & x & Hx & Hxd); [|done..|by rewrite Hs1|done].
  destruct (nilmap_get (s_data s2) ServiceAccountRootCAKey) as [ca|] eqn:Hca; [|done].
  destruct (updateValidatingWebhookConfiguration r f k1 ca) as [k2 [e|]] eqn:Hupd; [done|].
  apply update_attempts_spec in Hupd as (Hsec & ws & Hws & Hcfg2); [|by left].
  destruct (GetCertificateFromBytes (data s2 TLSCertKey)) as [cert|] eqn:Hcert; [|done]. injection Hr as <- <-.
  exists s0, x, cert, ca, ws, (trust ca <$> ws). rewrite Hsec, <-Hs1, Hxd. rewrite Hcfg in Hws, Hcfg2. rewrite Hs1 in *.
  split_and!; try done.
  - rewrite Hcfg2. apply lookup_insert_eq.
  - apply trust_trusts.
  - intros n Hn. rewrite Hcfg2. by apply lookup_insert_ne.
  - destruct Hvalid as (crt & pk & c & p & Hcrt & _ & Hc & Ht). apply (readers_agree _ HL) in Hc.
    unfold data, TLSCertKey in Hcert. rewrite Hcrt in Hcert. assert (c = cert) as -> by congruence. exact Ht.
  - unfold GoStrings.clamp64, certificateExpirationThreshold, Hour, Second. lia.
Qed.
End properties.

(** ** Examples *)
Module Examples.
(** Certificates are told apart by their bytes; the only one that is made expires at
    the instant [v], the others have expired. *)
Definition expires (v : Z) (c : string) : Time := if decide (c = "new") then v else 0%Z.
Definition certs (v : Z) : CertManager := {|
  Authority := unit; Certificate := string; PrivateKey := unit;
  GenerateCertificateAuthority := Ok tt;
  GenerateCertificate _ t _ := if decide (t = v) then Ok ("new", "key") else Err (ErrNew "unsupported");
  CACertificatePem _ := "ca"; GetCertificateFromBytes s := if decide (s = "") then Err (ErrNew "empty") else Ok s;
  GetCertificateWithPrivateKeyFromBytes s _ := if decide (s = "") then Err (ErrNew "empty") else Ok (Some s, Some tt);
  ValidateCertificate now c p threshold :=
    match c, p with
    | Some c, Some _ => if decide (now + threshold ≤ expires v c)%Z then None else Some (ErrNew "expired")
    | _, _ => Some (ErrNew "no certificate")
    end;
  NotAfter := expires v
|}.
Lemma certs_laws v : CertLaws (certs v).
Proof.
  split; cbn.
  - intros _ t _ crt pk. case_decide as Ht; [|done]. intros [= <- <-]. exists "new", tt. split; [done|].
    unfold expires. rewrite decide_True by done. unfold Second. lia.
  - intros now [c|] [p|] threshold; try done. case_decide; [|done]. intros _. by exists c.
  - intros crt _ c p. case_decide; [done|]. by intros [= <- _].
Qed.
Definition reconciler : WebhookReconciler := mkReconciler "ns" "tls" "hooks".
Definition nn : NN := Helpers.mkNN "ns" "tls".
(** The first update of the configuration meets a conflict. *)
Definition faults : Faults :=
  mkFaults None None None None (λ _, None) (λ n, if decide (n = 0) then AConflict (ErrNew "conflict") else AOk).
Definition cluster : ApiServer :=
  mkApiServer {[ nn := mkSecret (mkMeta "tls" "ns" "u" 1 None None) None ]}
    {[ "hooks" := [mkWebhook (Some "svc") "old"; mkWebhook None "other"] ]}.
End Examples.
#[local] Instance ex_certs : CertManager := Examples.certs certificateValidity.
Import Examples.
Lemma cluster_keys : keyed cluster.
Proof. intros nn' x. cbn [cluster kSecrets]. by intros [<- <-]%lookup_singleton_Some. Qed.
Lemma webhook_certificate_trusted_witness :
  ∃ k' delay cert, Reconcile reconciler faults 0 0 0 cluster nn = (k', Ok delay) ∧
    kConfigs k' !! "hooks" = Some [mkWebhook (Some "svc") "ca"; mkWebhook None "other"] ∧
    (0 < NotAfter cert - (0 + delay) < 3 * 24 * 3600 * 10 ^ 9)%Z.
Proof.
  destruct (Reconcile reconciler faults 0 0 0 cluster nn) as [k' [delay|]] eqn:Hr; [|exfalso; revert Hr; by vm_compute].
  destruct (webhook_certificate_trusted reconciler faults 0 0 0 cluster nn k' delay (certs_laws _) ltac:(lia) cluster_keys Hr)
    as (s0 & s & cert & ca & ws & ws' & _ & Hs & _ & _ & _ & _ & _ & _ & _ & _ & Hcert & _ & Hdelay).
  exists k', delay, cert. split; [reflexivity|]. vm_compute in Hr. injection Hr as <- <-.
  split; [vm_compute; reflexivity|]. vm_compute in Hs. injection Hs as <-. vm_compute in Hcert. injection Hcert as <-.
  apply Hdelay. vm_compute. reflexivity.
Defined.
(** The label that [Reconcile] puts on the secret is lost when the secret is read
    again: it does not reach the API server. *)
Example label_not_written :
  let k' := (Reconcile reconciler faults 0 0 0 cluster nn).1 in
  (λ s, nilmap_get (Labels (s_meta s)) SecretLabelKey) <$> kSecrets k' !! nn = Some None.
Proof. by vm_compute. Qed.
End WebhookCert.
