(* ===== verification/Watch.v ===== *)
(** * The watches and work queues of the controllers

    The [SetupWithManager] methods of [internal/controller] say which events of the API
    server become requests: every one for the custom resources, those that the event
    filter lets through for secrets, those of two names for the certificate of the
    webhooks; a template sends its services to the channel that the controller of
    services watches.  The queues are those that controller-runtime documents: a request
    is in a queue once, and a reconciliation that returns an error puts its request
    back.  [Controllers] proves convergence for histories in which every change is
    followed by a reconciliation; here that is a consequence of the watches and the
    queues, for all objects but secrets that the filter hides.  The queue empties once
    changes and failures stop: what is left to do decreases in a lexicographic order, with
    every request, also those that add new ones. *)
From Stdlib Require Import Wellfounded Relation_Operators.
From S2P Require Import Prelude GoStrings Types Merge StringPool Api DomainSecrets ResUtils Store.
From S2P Require Import SnapshotCache Mixer Updater Rebuild Controllers WebhookCert.
Import Envoy.

Module Watch.
Import Updater Controllers.

(** ** [SetupWithManager]

    The name of a controller, the events that become requests, and whether it also
    watches the channel of services. *)
Record Setup (k : kind) := mkSetup {
  ctrlName : string;
  CreateFunc : obj k → bool;
  UpdateFunc : obj k → obj k → bool;
  DeleteFunc : obj k → bool;
  watchesChannel : bool
}.
Arguments mkSetup {k} ctrlName CreateFunc UpdateFunc DeleteFunc watchesChannel.
Arguments ctrlName {k} _.
Arguments CreateFunc {k} _ _.
Arguments UpdateFunc {k} _ _ _.
Arguments DeleteFunc {k} _ _.
Arguments watchesChannel {k} _.

(** [NewControllerManagedBy(mgr).For(...).Named(name).Complete(r)] *)
Definition managed {k} (name : string) : Setup k :=
  mkSetup name (λ _, true) (λ _ _, true) (λ _, true) false.
Definition VirtualService_SetupWithManager : Setup KVirtualService :=
  mkSetup "virtualservice" (λ _, true) (λ _ _, true) (λ _, true) true.
Definition VirtualServiceTemplate_SetupWithManager : Setup KTemplate := managed "virtualservicetemplate".
Definition Listener_SetupWithManager : Setup KListener := managed "listener".
Definition Cluster_SetupWithManager : Setup KCluster := managed "cluster".
Definition Route_SetupWithManager : Setup KRoute := managed "route".
Definition HttpFilter_SetupWithManager : Setup KHttpFilter := managed "httpfilter".
Definition Policy_SetupWithManager : Setup KPolicy := managed "policy".
Definition AccessLogConfig_SetupWithManager : Setup KAccessLog := managed "accesslogconfig".
Definition Tracing_SetupWithManager : Setup KTracing := managed "tracing".

#[local] Instance VSObjStatus_eq_dec : EqDecision VSObjStatus.
Proof. solve_decision. Defined.

Section watches.
Context `{CA : CacheAPI} {PL : ProtoMessage ListenerV3} {PC : ProtoMessage ClusterV3} {JL : Api.JsonLib}.
Context (pem_Decode : string → option (DomainSecrets.PemBlock * string)).
Context (x509_ParseCertificate : string → result DomainSecrets.Time).
Context (build : VirtualService → Store.OptimizedStore → result Resources).
(** The type of a secret. *)
Context (typ : Secret → string).

Definition Secret_SetupWithManager : Setup KSecret :=
  mkSetup (k := KSecret) "kubernetes-secret"
    (λ s, filterSecret (typ s) s)
    (λ _ new, filterSecret (typ new) new)
    (λ s, filterSecret (typ s) s)
    false.

Definition setup (k : kind) : Setup k :=
  match k with
  | KVirtualService => VirtualService_SetupWithManager | KTemplate => VirtualServiceTemplate_SetupWithManager
  | KListener => Listener_SetupWithManager | KCluster => Cluster_SetupWithManager
  | KRoute => Route_SetupWithManager | KHttpFilter => HttpFilter_SetupWithManager
  | KPolicy => Policy_SetupWithManager | KAccessLog => AccessLogConfig_SetupWithManager
  | KTracing => Tracing_SetupWithManager | KSecret => Secret_SetupWithManager
  end.

(** The event of a change, and whether the filter lets it through. *)
Definition passes (k : kind) (old new : option (obj k)) : bool :=
  match old, new with
  | None, Some o => CreateFunc (setup k) o
  | Some o, Some o' => UpdateFunc (setup k) o o'
  | Some o, None => DeleteFunc (setup k) o
  | None, None => false
  end.

(** ** Queues *)
Abbreviation request := (kind * NN)%type.
Definition enqueue (q : list request) (x : request) : list request :=
  if decide (x ∈ q) then q else q ++ [x].

Record state := mkState { world : World; queue : list request }.

(** The services that the reconciliation of a template sends to the channel. *)
Definition announced (k : kind) (r : Run) : get_result (obj k) → CacheUpdater → NN → list request :=
  match k with
  | KTemplate => λ get u nn,
      if watchesChannel (setup KVirtualService)
      then map (λ vs : VirtualService, (KVirtualService, key vs)) (VirtualServiceTemplate_Reconcile build r get u nn).1.2
      else []
  | _ => λ _ _ _, []
  end.

(** An object of the API server changes; a request of a queue is handled, where [fail] is
    an error of the read and [update] the reply to a status update; an informer announces
    an object again. *)
Inductive step : state → state → Prop :=
| step_change w q k nn (o : option (obj k)) :
    event_ok (EChange k nn o) →
    step (mkState w q)
      (mkState (exec pem_Decode x509_ParseCertificate build w (EChange k nn o))
         (if passes k (srv w k nn) o then enqueue q (k, nn) else q))
| step_handle w q1 q2 k nn r fail update u st e :
    event_ok (EReconcile k nn r fail update) →
    Reconcile pem_Decode x509_ParseCertificate build k r update (read (srv w) k nn fail) (upd w) nn = (u, st, e) →
    step (mkState w (q1 ++ (k, nn) :: q2))
      (mkState (mkWorld (publish (srv w) nn st) u)
         (foldl enqueue (q1 ++ q2)
            (announced k r (read (srv w) k nn fail) (upd w) nn ++ (if e is Some _ then [(k, nn)] else []))))
| step_resync w q k nn o :
    srv w k nn = Some o → UpdateFunc (setup k) o o = true →
    step (mkState w q) (mkState w (enqueue q (k, nn))).

(** The filter hides an object, or the secret is not there. *)
Definition hidden (k : kind) (o : option (obj k)) : Prop :=
  match o with
  | Some o => CreateFunc (setup k) o = false
  | None => k = KSecret
  end.
(** Every object agrees with the store, or a request for it is in the queue. *)
Record tracks (s : state) : Prop := {
  tr_ok : ok (world s);
  tr_agrees k nn : agrees (world s) k nn ∨ (k, nn) ∈ queue s ∨ hidden k (srv (world s) k nn);
  tr_rebuilt : ∃ r c0, rebuilt_from build r c0 (upd (world s))
}.

Local Abbreviation exec := (exec pem_Decode x509_ParseCertificate build).

Lemma enqueue_in q x y : y ∈ enqueue q x ↔ y = x ∨ y ∈ q.
Proof. unfold enqueue. case_decide; set_solver. Qed.
Lemma enqueue_all_in q l y : y ∈ foldl enqueue q l ↔ y ∈ l ∨ y ∈ q.
Proof.
  revert q. induction l as [|x l IH]; intros q; cbn; [set_solver|]. rewrite IH, enqueue_in. set_solver.
Qed.
Lemma passes_not k old new : passes k old new = false → old = None ∧ new = None ∨ hidden k new.
Proof. destruct k, old as [o|], new as [o'|]; cbn; intros Hp; first [discriminate Hp|by left|by right]. Qed.
Lemma hidden_kind k o : hidden k o → k = KSecret.
Proof. destruct o as [o|]; [|done]. by destruct k. Qed.
(** An error of the read is returned. *)
Lemma read_error k r update e u nn :
  (Reconcile pem_Decode x509_ParseCertificate build k r update (GetErr e) u nn).2 = Some e.
Proof. by destruct k. Qed.

Lemma change_tracks w q k nn (o : option (obj k)) :
  event_ok (EChange k nn o) → tracks (mkState w q) →
  tracks (mkState (exec w (EChange k nn o)) (if passes k (srv w k nn) o then enqueue q (k, nn) else q)).
Proof.
  intros He [Hok Hag (r & c0 & Hr)]. cbn in Hok, Hr.
  destruct (exec_spec pem_Decode x509_ParseCertificate build w _ Hok He) as (Hok' & Hr' & Hag').
  split; cbn [world queue]; [done| |by exists r, c0; apply (Hr' (r, c0))].
  intros k' nn'. destruct (decide ((k', nn') = (k, nn))) as [E|Hne].
  - injection E as -> ->. cbn [Controllers.exec srv]. unfold agrees; cbn [srv upd].
    rewrite srv_set_eq. destruct (passes k (srv w k nn) o) eqn:Hp; [rewrite enqueue_in; by auto|].
    destruct (passes_not _ _ _ Hp) as [[Hold ->]|?]; [|by auto].
    specialize (Hag k nn). cbn in Hag. unfold agrees in Hag. by rewrite Hold in Hag.
  - cbn [Controllers.exec srv]. rewrite srv_set_ne by done.
    destruct (Hag k' nn') as [Ha|[Hq|Hh]]; [left| |by auto].
    + apply Hag'; [|done]. intros o' E. apply Hne. by inversion E.
    + right. left. case_match; [rewrite enqueue_in|]; auto.
Qed.

Lemma handle_tracks w q1 q2 k nn r fail update u st e :
  event_ok (EReconcile k nn r fail update) →
  Reconcile pem_Decode x509_ParseCertificate build k r update (read (srv w) k nn fail) (upd w) nn = (u, st, e) →
  tracks (mkState w (q1 ++ (k, nn) :: q2)) →
  tracks (mkState (mkWorld (publish (srv w) nn st) u)
    (foldl enqueue (q1 ++ q2) (announced k r (read (srv w) k nn fail) (upd w) nn ++
       (if e is Some _ then [(k, nn)] else [])))).
Proof.
  intros He Hrec [Hok Hag (r0 & c0 & Hr)]. cbn in Hok, Hr.
  destruct (exec_spec pem_Decode x509_ParseCertificate build w _ Hok He) as (Hok' & Hr' & Hag').
  assert (exec w (EReconcile k nn r fail update) = mkWorld (publish (srv w) nn st) u) as Hw
    by (cbn [Controllers.exec]; by rewrite Hrec).
  rewrite Hw in Hok', Hr', Hag'. split; cbn [world queue]; [done| |].
  2:{ pose proof (Hr' (r0, c0) Hr) as Hl. destruct (default _ _) as [r1 c1]. by exists r1, c1. }
  intros k' nn'. destruct (decide ((k', nn') = (k, nn))) as [E|Hne].
  - injection E as -> ->. destruct fail as [err|].
    + right. left. apply enqueue_all_in. left. apply elem_of_app. right.
      pose proof (read_error k r update err (upd w) nn) as Herr. cbn [read] in Hrec. rewrite Hrec in Herr.
      cbn in Herr. subst e. by left.
    + left. apply (proj1 (Hag' k nn)). by exists r, update.
  - destruct (Hag k' nn') as [Ha|[Hq|Hh]].
    + left. by apply (proj2 (Hag' k' nn')).
    + right. left. apply enqueue_all_in. right. cbn in Hq. set_solver.
    + right. right. pose proof (hidden_kind _ _ Hh) as ->. cbn [srv world] in *. by destruct st.
Qed.

Lemma step_tracks s s' : step s s' → tracks s → tracks s'.
Proof.
  destruct 1 as [w q k nn o He|w q1 q2 k nn r fail update u st e He Hrec|w q k nn o Hsrv _].
  - by apply change_tracks.
  - by apply handle_tracks with update.
  - intros [Hok Hag Hr]. split; cbn in *; [done| |done]. intros k' nn'.
    rewrite enqueue_in. destruct (Hag k' nn') as [?|[?|?]]; auto.
Qed.

Lemma run_tracks s s' : rtc step s s' → tracks s → tracks s'.
Proof. induction 1 as [|s1 s2 s3 Hs _ IH]; [done|]. intros Ht. by apply IH, (step_tracks s1). Qed.

(** ** Draining the queue

    Nothing changes any more: requests are handled in any order, reads succeed and status
    updates are accepted.  The reply is decoded into the object that was sent, which
    keeps its specification.  The status that a request writes is an update of its
    service, which the watch turns into another request. *)
Definition answers (update : VirtualService → result VirtualService) : Prop :=
  ∀ vs, ∃ vs', update vs = Ok vs' ∧ vs_spec vs' = vs_spec vs.
Definition noticed (w : World) (k : kind) (nn : NN) (st : option VSObjStatus) : list request :=
  match st with
  | Some _ => if passes k (srv w k nn) (publish (srv w) nn st k nn) then [(k, nn)] else []
  | None => []
  end.
Inductive calm : state → state → Prop :=
| calm_handle w q1 q2 k nn r update u st e :
    event_ok (EReconcile k nn r None update) → answers update →
    Reconcile pem_Decode x509_ParseCertificate build k r update (read (srv w) k nn None) (upd w) nn = (u, st, e) →
    calm (mkState w (q1 ++ (k, nn) :: q2))
      (mkState (mkWorld (publish (srv w) nn st) u)
         (foldl enqueue (q1 ++ q2)
            (announced k r (read (srv w) k nn None) (upd w) nn ++
             (if e is Some _ then [(k, nn)] else []) ++ noticed w k nn st))).
(** The specifications of the services can be encoded. *)
Definition encodable (s : Server) : Prop :=
  ∀ nn vs, s KVirtualService nn = Some vs → ∃ x, Api.json_Marshal (Common (vs_spec (Api.VS_NormalizeSpec vs))) = Ok x.

(** What is left to do, most expensive first: requests of the other kinds, where a deletion
    can fail once; services that will be rebuilt; services, where a status can be
    written once. *)
Definition gone (w : World) (k : kind) (nn : NN) : bool :=
  bool_decide (srv w k nn = None) && existing k (store (upd w)) nn.
Definition dirty (w : World) (nn : NN) : bool :=
  match srv w KVirtualService nn with
  | Some vs => negb (keeps_stored (upd w) vs)
  | None => existing KVirtualService (store (upd w)) nn
  end.
Definition stale (w : World) (nn : NN) : bool :=
  match srv w KVirtualService nn with
  | Some vs => negb (bool_decide (vs_status vs = recorded (upd w) nn))
  | None => false
  end.
Definition others (w : World) (x : request) : nat :=
  if decide (x.1 = KVirtualService) then 0 else 1 + Nat.b2n (gone w x.1 x.2).
Definition rebuilds (w : World) (x : request) : nat :=
  if decide (x.1 = KVirtualService) then Nat.b2n (dirty w x.2) else 0.
Definition services (w : World) (x : request) : nat :=
  if decide (x.1 = KVirtualService) then 1 + Nat.b2n (stale w x.2) else 0.
Definition left_to_do (s : state) : nat * nat * nat :=
  (sum_list_with (others (world s)) (queue s), sum_list_with (rebuilds (world s)) (queue s),
   sum_list_with (services (world s)) (queue s)).
Definition less : relation (nat * nat * nat) := slexprod (nat * nat) nat (slexprod nat nat lt lt) lt.

Lemma less_wf : well_founded less.
Proof. apply wf_slexprod; [apply wf_slexprod|]; apply lt_wf. Qed.
Lemma less_intro a b c a' b' c' :
  a' < a ∨ a' ≤ a ∧ (b' < b ∨ b' ≤ b ∧ c' < c) → less (a', b', c') (a, b, c).
Proof.
  unfold less. intros Hl. destruct (decide (a' < a)); [by do 2 apply left_slex|].
  assert (a' = a) as -> by lia. destruct (decide (b' < b)); [by apply left_slex, right_slex|].
  assert (b' = b) as -> by lia. apply right_slex. lia.
Qed.
Lemma sum_enqueue f q l : sum_list_with f (foldl enqueue q l) ≤ sum_list_with f q + sum_list_with f l.
Proof.
  revert q. induction l as [|x l IH]; intros q; cbn; [lia|]. etrans; [apply IH|].
  unfold enqueue. case_decide; [lia|]. rewrite sum_list_with_app. cbn. lia.
Qed.
(** A request is replaced by others. *)
Lemma sum_handled (f f' : request → nat) q1 x q2 l : (∀ y, f' y ≤ f y) →
  sum_list_with f' (foldl enqueue (q1 ++ q2) l) + f x ≤ sum_list_with f (q1 ++ x :: q2) + sum_list_with f' l.
Proof.
  intros Hf. pose proof (sum_enqueue f' (q1 ++ q2) l) as Hs.
  assert (∀ q, sum_list_with f' q ≤ sum_list_with f q) as Hq.
  { induction q as [|y q IH]; cbn; [done|]. specialize (Hf y). lia. }
  pose proof (Hq q1). pose proof (Hq q2). rewrite !sum_list_with_app in *. cbn. lia.
Qed.

Lemma publish_None s nn st k' nn' : publish s nn st k' nn' = None ↔ s k' nn' = None.
Proof.
  destruct st as [st|]; [|done]. destruct (decide ((k', nn') = (KVirtualService, nn))) as [E|Hne].
  - injection E as -> ->. cbn [publish]. rewrite srv_set_eq. by destruct (s KVirtualService nn).
  - by rewrite publish_lookup.
Qed.
Lemma publish_service s nn st nn' vs : publish s nn st KVirtualService nn' = Some vs →
  ∃ vs0 st', s KVirtualService nn' = Some vs0 ∧ vs = set_status st' vs0.
Proof.
  destruct st as [st|]; [|by exists vs, (vs_status vs); destruct vs]. cbn [publish].
  destruct (decide ((KVirtualService, nn') = (KVirtualService, nn))) as [E|Hne].
  - injection E as ->. rewrite srv_set_eq. destruct (s KVirtualService nn) as [v|]; [|done].
    intros [= <-]. by exists v, st.
  - rewrite srv_set_ne by done. exists vs, (vs_status vs). by destruct vs.
Qed.
Lemma encodable_publish s nn st : encodable s → encodable (publish s nn st).
Proof. intros Hs nn' vs Hv. apply publish_service in Hv as (v & st' & Hv & ->). exact (Hs _ _ Hv). Qed.

(** A service in the store is the one of the server when it has its specification. *)
Lemma same_spec_equal a b x : Annotations (meta a) = Annotations (meta b) → vs_spec a = vs_spec b →
  Api.json_Marshal (Common (vs_spec b)) = Ok x → Api.VS_IsEqual (Some a) (Some b) = true.
Proof.
  intros Ha Hs Hx. rewrite <-(Rebuild.VS_IsEqual_refl b x Hx). unfold Api.VS_IsEqual. by rewrite Ha, Hs.
Qed.
(** A request for a service that the store already has writes the recorded status. *)
Lemma service_kept r update u vs u' st e : answers update → wf u → keeps_stored u vs = true →
  VirtualService_Reconcile build r update (Found vs) u (key vs) = (u', st, e) →
  u' = u ∧ e = None ∧ st = if decide (vs_status vs = recorded u (key vs)) then None else Some (recorded u (key vs)).
Proof.
  intros Hans Hwf Hk Hr. unfold VirtualService_Reconcile in Hr. rewrite Hk in Hr.
  assert (ApplyVirtualService build r u vs = u) as Hu.
  { unfold keeps_stored in Hk. unfold ApplyVirtualService, apply_obj. cbv zeta. change (key (Api.VS_NormalizeSpec vs)) with (key vs).
    destruct (Store.GetVirtualService (store u) (key vs)); [by rewrite Hk|done]. }
  rewrite Hu in Hr. unfold keeps_stored in Hk.
  destruct (Store.GetVirtualService (store u) (key vs)) as [v|] eqn:Hv; [|done].
  destruct (recorded_status u (key vs) v Hwf Hv) as (y & Hy & Hst). rewrite Hy, Hst in Hr. cbn [set_status vs_status] in Hr.
  destruct (vs_status vs) as [m i], (recorded u (key vs)) as [m' i']. cbn in Hr.
  destruct (decide (i ≠ i' ∨ m ≠ m')) as [Hd|Hd].
  - destruct (Hans (set_status (mkVSObjStatus m' i') (Api.VS_NormalizeSpec vs))) as (v' & Hv' & _).
    rewrite Hv' in Hr. injection Hr as <- <- <-. rewrite decide_False; [done|]. intros [= -> ->]. tauto.
  - injection Hr as <- <- <-. rewrite decide_True; [done|]. f_equal; apply dec_stable; tauto.
Qed.
(** Otherwise the store has it afterwards. *)
Lemma service_stored r update u vs u' st e x : run_ok r → answers update → wf u → 
  (∀ vs vs', update vs = Ok vs' → same_vs vs vs') → keeps_stored u vs = false →
  Api.json_Marshal (Common (vs_spec (Api.VS_NormalizeSpec vs))) = Ok x →
  VirtualService_Reconcile build r update (Found vs) u (key vs) = (u', st, e) →
  e = None ∧ ∀ st', keeps_stored u' (set_status st' vs) = true.
Proof.
  intros Hrun Hans Hwf Hupd Hk Hx Hr. unfold VirtualService_Reconcile in Hr. rewrite Hk in Hr.
  set (u1 := ApplyVirtualService build r u vs) in *.
  destruct (apply_spec pem_Decode x509_ParseCertificate build KVirtualService r u (Api.VS_NormalizeSpec vs) Hrun Hwf) as [Ht Hs].
  change (touches_only build KVirtualService (key vs) (if keeps_stored u vs then None else
    Some (r, with_store u (Store.SetVirtualService (store u) (Api.VS_NormalizeSpec vs)))) u u1) in Ht.
  change (if keeps_stored u vs then u1 = u else
    stored KVirtualService (store u1) (key vs) = Some (Api.VS_NormalizeSpec vs)) in Hs. rewrite Hk in Hs.
  set (vs1 := match GetVirtualServiceWithStatus u1 (key vs) with Some w => _ | None => _ end) in *.
  assert (same_vs (Api.VS_NormalizeSpec vs) vs1 ∧ vs_spec vs1 = vs_spec (Api.VS_NormalizeSpec vs)) as [Hs1 Hsp1]
    by (unfold vs1; by destruct (GetVirtualServiceWithStatus _ _)).
  destruct (assign_step build _ u u1 vs1 _ _ Ht Hs Hs1) as [Ht1 Hst1]. clearbody u1 vs1.
  assert (∀ u2 v, stored KVirtualService (store u2) (key vs) = Some v → same_vs (Api.VS_NormalizeSpec vs) v →
    vs_spec v = vs_spec (Api.VS_NormalizeSpec vs) → ∀ st', keeps_stored u2 (set_status st' vs) = true) as Hkeep.
  { intros u2 v Hv Hsv Hspv st'. unfold keeps_stored. change (key (set_status st' vs)) with (key vs).
    cbn [stored] in Hv. rewrite Hv. eapply same_spec_equal; [by symmetry; apply Hsv|exact Hspv|exact Hx]. }
  case_decide.
  - destruct (Hans vs1) as (v & Hv & Hspv). rewrite Hv in Hr. injection Hr as <- <- <-. split; [done|].
    destruct (assign_step build _ u _ v _ _ Ht1 Hst1 (Hupd _ _ Hv)) as [_ Hst2].
    apply (Hkeep _ v); [done|by trans vs1; [|apply Hupd]|congruence].
  - injection Hr as <- <- <-. split; [done|]. by apply (Hkeep _ vs1).
Qed.
(** A request for another kind fails when the deletion does. *)
Lemma other_fails k r update s u nn u' st e : k ≠ KVirtualService →
  Reconcile pem_Decode x509_ParseCertificate build k r update (read s k nn None) u nn = (u', st, Some e) →
  s k nn = None ∧ existing k (store u) nn = true.
Proof.
  intros Hk. unfold read. destruct (s k nn) as [o|]; destruct k; cbn; intros Hr; try done.
  unfold DeleteVirtualServiceTemplate, delete_obj in Hr. by destruct (Store.IsExistingVirtualServiceTemplate _ _).
Qed.

(** What a request can change: its own object in the store, and a status on the server. *)
Lemma calm_frame w k nn r update u st e : ok w → event_ok (EReconcile k nn r None update) →
  Reconcile pem_Decode x509_ParseCertificate build k r update (read (srv w) k nn None) (upd w) nn = (u, st, e) →
  (∀ k' nn', (k', nn') ≠ (k, nn) → stored k' (store u) nn' = stored k' (store (upd w)) nn') ∧
  (srv w k nn = None → existing k (store u) nn = false) ∧ (st ≠ None → k = KVirtualService).
Proof.
  intros Hok He Hr. destruct (Reconcile_settles pem_Decode x509_ParseCertificate build k r update
    (read (srv w) k nn None) (upd w) nn u st e) as (Ht & Hs & Hst); [apply He|apply Hok|apply He| |done|].
  { intros o. cbn. destruct (srv w k nn) as [x|] eqn:Hx; [|done]. intros [= <-]. by apply (ok_keys _ Hok). }
  split; [apply Ht|]. split; [|done]. intros Hn. rewrite existing_stored. cbn in Hs. rewrite Hn in Hs. cbn in Hs. by rewrite Hs.
Qed.
Lemma gone_frame w nn st u k' nn' : stored k' (store u) nn' = stored k' (store (upd w)) nn' →
  gone (mkWorld (publish (srv w) nn st) u) k' nn' = gone w k' nn'.
Proof.
  intros Hs. unfold gone. cbn [srv upd]. rewrite !existing_stored, Hs. f_equal. apply bool_decide_ext, publish_None.
Qed.
Lemma keeps_stored_frame u u' vs st :
  stored KVirtualService (store u') (key vs) = stored KVirtualService (store u) (key vs) →
  keeps_stored u' (set_status st vs) = keeps_stored u vs.
Proof. cbn [stored]. unfold keeps_stored. change (key (set_status st vs)) with (key vs). by intros ->. Qed.
Lemma dirty_frame w nn st u nn' : ok w →
  stored KVirtualService (store u) nn' = stored KVirtualService (store (upd w)) nn' →
  dirty (mkWorld (publish (srv w) nn st) u) nn' = dirty w nn'.
Proof.
  intros Hok Hs. unfold dirty. cbn [srv upd].
  destruct (publish (srv w) nn st KVirtualService nn') as [vs|] eqn:Hp.
  - apply publish_service in Hp as (v & st' & Hv & ->). rewrite Hv. f_equal. apply keeps_stored_frame.
    pose proof (ok_keys _ Hok _ _ _ Hv) as <-. exact Hs.
  - apply publish_None in Hp. rewrite Hp, !existing_stored. by rewrite Hs.
Qed.
(** A request of another kind leaves fewer of them. *)
Lemma other_handled w q1 q2 k nn r update u st e : ok w → k ≠ KVirtualService →
  event_ok (EReconcile k nn r None update) →
  Reconcile pem_Decode x509_ParseCertificate build k r update (read (srv w) k nn None) (upd w) nn = (u, st, e) →
  let w' := mkWorld (publish (srv w) nn st) u in
  sum_list_with (others w') (foldl enqueue (q1 ++ q2) (announced k r (read (srv w) k nn None) (upd w) nn ++
    (if e is Some _ then [(k, nn)] else []) ++ noticed w k nn st)) < sum_list_with (others w) (q1 ++ (k, nn) :: q2).
Proof.
  intros Hok Hk He Hr w'. destruct (calm_frame w k nn r update u st e Hok He Hr) as (Hf & Hn & Hst).
  assert (st = None) as -> by (destruct st; [by destruct Hk; apply Hst|done]).
  assert (gone w' k nn = false) as Hg.
  { unfold gone. cbn. case_bool_decide as Hs; [by apply Hn|done]. }
  assert (∀ y, others w' y ≤ others w y) as Hle.
  { intros [k' nn']. unfold others. case_decide; [done|]. cbn [fst snd].
    destruct (decide ((k', nn') = (k, nn))) as [E|Hne]; [injection E as -> ->; rewrite Hg; cbn; lia|].
    unfold w'. by rewrite (gone_frame w nn None u) by by apply Hf. }
  match goal with |- sum_list_with _ (foldl enqueue _ ?l) < _ =>
    pose proof (sum_handled (others w) (others w') q1 (k, nn) q2 l Hle) as Hsum; set (added := l) in * end.
  assert (sum_list_with (others w') added < others w (k, nn)); [|lia].
  unfold added. rewrite !sum_list_with_app. cbn [noticed sum_list_with].
  assert (sum_list_with (others w') (announced k r (read (srv w) k nn None) (upd w) nn) = 0) as ->.
  { destruct k; try reflexivity. cbn [announced]. cbn [setup VirtualService_SetupWithManager watchesChannel].
    by induction (VirtualServiceTemplate_Reconcile _ _ _ _ _).1.2. }
  unfold others at 2. cbn [fst snd]. rewrite decide_False by done. destruct e as [err|]; [|cbn; lia].
  destruct (other_fails k r update (srv w) (upd w) nn u None err Hk Hr) as [Hs Hx].
  cbn [sum_list_with]. unfold others. cbn [fst snd]. rewrite decide_False, Hg by done. unfold gone. rewrite Hs, Hx. cbn. lia.
Qed.

(** A request for a service that is to be rebuilt leaves fewer of those. *)
Lemma dirty_handled w nn r update u st e : ok w → encodable (srv w) → answers update →
  event_ok (EReconcile KVirtualService nn r None update) → dirty w nn = true →
  Reconcile pem_Decode x509_ParseCertificate build KVirtualService r update
    (read (srv w) KVirtualService nn None) (upd w) nn = (u, st, e) →
  dirty (mkWorld (publish (srv w) nn st) u) nn = false.
Proof.
  intros Hok Henc Hans He Hd Hr. destruct (calm_frame w _ nn r update u st e Hok He Hr) as (_ & Hn & _).
  unfold dirty in *. cbn [srv upd read] in *. destruct (publish _ _ _ _ _) as [vs|] eqn:Hp.
  - apply publish_service in Hp as (v & st' & Hv & ->). rewrite Hv in Hd, Hr. apply negb_true_iff in Hd.
    pose proof (ok_keys _ Hok _ _ _ Hv) as <-. destruct (Henc _ _ Hv) as [x Hx].
    destruct (service_stored r update (upd w) v u st e x) as [_ Hk]; [apply He|done|apply Hok|apply He|done..|].
    by rewrite Hk.
  - apply publish_None in Hp. by apply Hn.
Qed.
(** A request for any other service writes a status at most. *)
Lemma clean_handled w nn r update u st e : ok w → answers update → dirty w nn = false →
  Reconcile pem_Decode x509_ParseCertificate build KVirtualService r update
    (read (srv w) KVirtualService nn None) (upd w) nn = (u, st, e) →
  u = upd w ∧ e = None ∧ st = if stale w nn then Some (recorded (upd w) nn) else None.
Proof.
  intros Hok Hans Hd Hr. unfold dirty, stale in *. cbn [read] in Hr.
  destruct (srv w KVirtualService nn) as [vs|] eqn:Hv.
  - apply negb_false_iff in Hd. pose proof (ok_keys _ Hok _ _ _ Hv) as <-.
    destruct (service_kept r update (upd w) vs u st e) as (-> & -> & ->); [done|apply Hok|done..|].
    split_and!; [done..|]. change (obj_key KVirtualService vs) with (key vs).
    case_decide as Heq; [by rewrite bool_decide_eq_true_2|by rewrite bool_decide_eq_false_2].
  - cbn in Hr, Hd. unfold DeleteVirtualService, delete_obj in Hr. rewrite Hd in Hr. by injection Hr as <- <- <-.
Qed.
Lemma stale_published w nn nn' : stale w nn = true →
  stale (mkWorld (publish (srv w) nn (Some (recorded (upd w) nn))) (upd w)) nn' =
  if decide (nn' = nn) then false else stale w nn'.
Proof.
  intros Hs. unfold stale in *. cbn [srv upd publish]. case_decide as E.
  - subst nn'. rewrite srv_set_eq. destruct (srv w KVirtualService nn); [|done]. cbn. by rewrite bool_decide_eq_true_2.
  - rewrite srv_set_ne by congruence. done.
Qed.
Lemma sum_own (g : request → nat) w nn (e : option error) st : g (KVirtualService, nn) = 0 →
  sum_list_with g ((if e is Some _ then [(KVirtualService, nn)] else []) ++ noticed w KVirtualService nn st) = 0.
Proof.
  intros Hg. unfold noticed. destruct e, st; [destruct (passes _ _ _)|..|destruct (passes _ _ _)|];
    cbn [app sum_list_with]; by rewrite ?Hg.
Qed.
Lemma service_handled w q1 q2 nn r update u st e : ok w → encodable (srv w) → answers update →
  event_ok (EReconcile KVirtualService nn r None update) →
  Reconcile pem_Decode x509_ParseCertificate build KVirtualService r update
    (read (srv w) KVirtualService nn None) (upd w) nn = (u, st, e) →
  let w' := mkWorld (publish (srv w) nn st) u in
  let q := foldl enqueue (q1 ++ q2) ((if e is Some _ then [(KVirtualService, nn)] else []) ++ noticed w KVirtualService nn st) in
  less (left_to_do (mkState w' q)) (left_to_do (mkState w (q1 ++ (KVirtualService, nn) :: q2))).
Proof.
  intros Hok Henc Hans He Hr w' q. destruct (calm_frame w _ nn r update u st e Hok He Hr) as (Hf & Hn & _).
  set (added := (if e is Some _ then _ else _) ++ _) in q.
  assert (∀ g, g (KVirtualService, nn) = 0 → sum_list_with g added = 0) as Hzero by (intros g; apply sum_own).
  apply less_intro. right. split.
  { assert (∀ y, others w' y ≤ others w y) as Hle.
    { intros [k' nn']. unfold others. case_decide; [done|]. cbn [fst snd] in *. unfold w'.
      rewrite (gone_frame w nn st u); [done|]. apply Hf. congruence. }
    pose proof (sum_handled _ _ q1 (KVirtualService, nn) q2 added Hle) as Hs. rewrite (Hzero (others w')) in Hs by done.
    cbn [others fst] in Hs. cbn [world queue]. unfold q. lia. }
  assert (∀ nn', nn' ≠ nn → dirty w' nn' = dirty w nn') as Hdf.
  { intros nn' Hne. apply dirty_frame; [done|]. apply Hf. congruence. }
  destruct (dirty w nn) eqn:Hd.
  - left. pose proof (dirty_handled w nn r update u st e Hok Henc Hans He Hd Hr : dirty w' nn = false) as Hd'.
    assert (∀ y, rebuilds w' y ≤ rebuilds w y) as Hle.
    { intros [k' nn']. unfold rebuilds. case_decide; [|done]. cbn [snd].
      destruct (decide (nn' = nn)) as [->|]; [rewrite Hd'; cbn; lia|by rewrite Hdf]. }
    pose proof (sum_handled _ _ q1 (KVirtualService, nn) q2 added Hle) as Hs.
    rewrite (Hzero (rebuilds w')) in Hs by (unfold rebuilds; cbn; by rewrite Hd').
    assert (rebuilds w (KVirtualService, nn) = 1) as Hx by (unfold rebuilds; cbn; by rewrite Hd).
    cbn [world queue]. unfold q. lia.
  - right. destruct (clean_handled w nn r update u st e Hok Hans Hd Hr) as (-> & -> & ->).
    assert (∀ nn', dirty w' nn' = dirty w nn') as Hdf' by (intros nn'; by apply dirty_frame). split.
    + assert (∀ y, rebuilds w' y ≤ rebuilds w y) as Hle.
      { intros [k' nn']. unfold rebuilds. by rewrite Hdf'. }
      pose proof (sum_handled _ _ q1 (KVirtualService, nn) q2 added Hle) as Hs.
      rewrite (Hzero (rebuilds w')) in Hs by (unfold rebuilds; cbn; by rewrite Hdf', Hd). cbn [world queue]. unfold q. lia.
    + assert (∀ nn', stale w' nn' = if decide (nn' = nn) then false else stale w nn') as Hst.
      { intros nn'. unfold w'. destruct (stale w nn) eqn:E; [by apply stale_published|].
        case_decide; [by subst|done]. }
      assert (∀ y, services w' y ≤ services w y) as Hle.
      { intros [k' nn']. unfold services. case_decide; [|done]. cbn [snd]. rewrite Hst. case_decide; cbn; lia. }
      pose proof (sum_handled _ _ q1 (KVirtualService, nn) q2 added Hle) as Hs.
      assert (sum_list_with (services w') added < services w (KVirtualService, nn)); [|cbn [world queue]; unfold q; lia].
      assert (services w (KVirtualService, nn) = 1 + Nat.b2n (stale w nn)) as -> by done.
      assert (services w' (KVirtualService, nn) = 1) as Hx by (unfold services; cbn [fst snd]; by rewrite Hst, (decide_True (P := nn = nn))).
      unfold added, noticed. destruct (stale w nn); [|cbn; lia].
      destruct (passes _ _ _); cbn [app sum_list_with]; rewrite ?Hx; cbn; lia.
Qed.

Lemma calm_less s s' : calm s s' → ok (world s) → encodable (srv (world s)) →
  less (left_to_do s') (left_to_do s) ∧ ok (world s') ∧ encodable (srv (world s')).
Proof.
  intros [w q1 q2 k nn r update u st e He Hans Hr] Hok Henc. split; [|split; [|by apply encodable_publish]].
  - destruct (decide (k = KVirtualService)) as [->|Hk]; [by eapply service_handled|].
    apply less_intro. left. by eapply other_handled.
  - destruct (exec_spec pem_Decode x509_ParseCertificate build w _ Hok He) as (Hok' & _).
    cbn [Controllers.exec] in Hok'. by rewrite Hr in Hok'.
Qed.
Lemma calm_sn s : ok (world s) → encodable (srv (world s)) → sn calm s.
Proof.
  remember (left_to_do s) as m eqn:Hm. revert s Hm.
  induction (less_wf m) as [m _ IH]. intros s -> Hok Henc. constructor. intros s' Hs.
  destruct (calm_less s s' Hs Hok Henc) as (Hl & Hok' & Henc'). by eapply IH.
Qed.
(** A request can always be handled. *)
Lemma calm_progress s : nf calm s → queue s = [].
Proof.
  intros Hnf. destruct s as [w [|[k nn] q]]; [done|]. destruct Hnf.
  set (r := mkRun (λ _, None) (λ st, snd <$> map_to_list (Store.MapVirtualServices st)) elements Mixer.listener_entries "").
  destruct (Reconcile pem_Decode x509_ParseCertificate build k r Ok (read (srv w) k nn None) (upd w) nn) as [[u st] e] eqn:Hr.
  eexists. apply (calm_handle w [] q k nn r Ok u st e); [|by intros vs; exists vs|exact Hr].
  split; [by split|]. by intros vs vs' [= <-].
Qed.
Lemma calm_steps s s' : calm s s' → ok (world s) → rtc step s s'.
Proof.
  intros [w q1 q2 k nn r update u st e He Hans Hr] Hok. rewrite app_assoc, foldl_app.
  eapply rtc_l; [by apply step_handle with update|]. unfold noticed. destruct st as [st|]; [|apply rtc_refl].
  destruct (passes _ _ _) eqn:Hp; [|apply rtc_refl]. cbn [foldl]. apply rtc_once.
  destruct (calm_frame w k nn r update u (Some st) e Hok He Hr) as (_ & _ & Hk).
  specialize (Hk ltac:(done)). subst k.
  destruct (publish (srv w) nn (Some st) KVirtualService nn) as [o|] eqn:Ho; [by apply step_resync with o|].
  apply publish_None in Ho. by rewrite Ho in Hp.
Qed.
Lemma calm_run s s' : rtc calm s s' → ok (world s) → encodable (srv (world s)) → rtc step s s'.
Proof.
  induction 1 as [|s1 s2 s3 Hs _ IH]; [intros; apply rtc_refl|]. intros Hok Henc.
  destruct (calm_less s1 s2 Hs Hok Henc) as (_ & Hok' & Henc'). etrans; [by apply calm_steps|by apply IH].
Qed.

(** The secrets for the program: of one of two types, and with its label. *)
Definition for_envoy (x : Secret) : Prop :=
  (typ x = "Opaque" ∨ typ x = "kubernetes.io/tls") ∧ is_Some (nilmap_get (Labels (meta x)) "envoy.kaasops.io/secret-type").
Lemma for_envoy_filter x : for_envoy x → filterSecret (typ x) x = true.
Proof. intros [Ht Hl]. unfold filterSecret. rewrite decide_False by naive_solver. by apply bool_decide_eq_true. Qed.
(** The store agrees with the server on every object, of the secrets on those that are for the program, and the
    snapshots are those of a rebuild from it. *)
Definition converged (w : World) : Prop :=
  (∀ k nn, k ≠ KSecret → agrees w k nn) ∧
  (∀ nn x, srv w KSecret nn = Some x → for_envoy x → agrees w KSecret nn) ∧
  ∃ r c0, rebuilt_from build r c0 (upd w).
Lemma tracks_converged s : tracks s → queue s = [] → converged (world s).
Proof.
  intros [_ Hag Hr] Hq. rewrite Hq in Hag. split_and!; [| |done].
  - intros k nn Hk. destruct (Hag k nn) as [?|[Hin|Hh]]; [done|set_solver|]. destruct Hk. by eapply hidden_kind.
  - intros nn x Hx Hf. destruct (Hag KSecret nn) as [?|[Hin|Hh]]; [done|set_solver|].
    rewrite Hx in Hh. apply for_envoy_filter in Hf. cbn in Hh. congruence.
Qed.

(** C9. The controllers converge through their watches and queues.  Start from a store
    that agrees with the API server, and let objects change, requests be handled in any
    order, reads and status updates fail, informers announce objects again and
    templates announce their services.  Whenever the queue is empty, the store agrees
    with the API server on every object of the nine other kinds and on every
    secret on the server that is labelled for the program and of one of its two types, and the snapshots are those of a rebuild from
    the stored objects.  To agree is to carry the same content (see [carries]): the data of a secret
    and with it the domains, the node IDs and the specification of a service.
    Once the changes and failures stop, and if the specifications of the services on the server can be encoded, in whatever order the requests
    are handled, the queue does become empty, although a status that is written, a template
    that changed and a deletion that failed each add requests to it. *)
Theorem quiescent_agrees w0 s :
  ok w0 → (∀ k nn, agrees w0 k nn) → (∃ r c0, rebuilt_from build r c0 (upd w0)) →
  rtc step (mkState w0 []) s →
  (queue s = [] → converged (world s)) ∧
  (encodable (srv (world s)) →
   sn calm s ∧ ∀ s', rtc calm s s' → nf calm s' → queue s' = [] ∧ converged (world s')).
Proof.
  intros Hok Ha Hr Hs. assert (tracks (mkState w0 [])) as Ht0 by (split; cbn; auto).
  pose proof (run_tracks _ _ Hs Ht0) as Ht. split; [by apply tracks_converged|]. intros Henc.
  split; [by apply calm_sn; [apply Ht|]|]. intros s' Hs' Hnf. pose proof (calm_progress s' Hnf) as Hq.
  split; [done|]. apply tracks_converged; [|done]. eapply run_tracks; [|exact Ht]. by apply calm_run; [|apply Ht|].
Qed.

(** ** Running the controllers: a change, or the request at the head of the queue *)
Definition follow (s : state) (e : event) : state :=
  let w := world s in
  match e with
  | EChange k nn o => mkState (exec w e) (if passes k (srv w k nn) o then enqueue (queue s) (k, nn) else queue s)
  | EReconcile k nn r fail update =>
      let get := read (srv w) k nn fail in
      let err := (Reconcile pem_Decode x509_ParseCertificate build k r update get (upd w) nn).2 in
      mkState (exec w e)
        (foldl enqueue (tail (queue s)) (announced k r get (upd w) nn ++ (if err is Some _ then [(k, nn)] else [])))
  end.
Definition at_head (s : state) (e : event) : bool :=
  match e with
  | EChange _ _ _ => true
  | EReconcile k nn _ _ _ => bool_decide (head (queue s) = Some (k, nn))
  end.
Lemma follow_step s e : event_ok e → at_head s e = true → step s (follow s e).
Proof.
  destruct s as [w q]. destruct e as [k nn o|k nn r fail update]; intros He Hh.
  - by apply step_change.
  - apply bool_decide_eq_true in Hh. destruct q as [|x q]; [done|]. injection Hh as ->.
    cbn [follow world queue tail]. cbn [Controllers.exec].
    destruct (Reconcile _ _ _ _ _ _ _ _ _) as [[u st] e] eqn:Hrec. cbn [snd].
    by apply (step_handle w [] q k nn r fail update).
Qed.
(** Every event of the history is a step. *)
Fixpoint follows (s : state) (h : list event) : bool :=
  match h with [] => true | e :: h => at_head s e && follows (follow s e) h end.
Lemma follow_run s h : Forall event_ok h → follows s h = true → rtc step s (foldl follow s h).
Proof.
  intros Hh. revert s. induction Hh as [|e h He _ IH]; intros s Hf; cbn; [apply rtc_refl|].
  cbn in Hf. apply andb_true_iff in Hf as [Ha Hf]. eapply rtc_l; [by apply follow_step|]. by apply IH.
Qed.
End watches.

(** ** Examples *)
#[local] Existing Instances MapCache.api MapCache.cache Mixer.Examples.proto Rebuild.ex_json Rebuild.ex_cluster_pb.
Import Controllers.Examples.
Definition opaque (_ : Secret) : string := "Opaque".
Local Abbreviation go := (follow Rebuild.ex_pem Rebuild.ex_x509 build opaque).
Local Abbreviation s0 := (mkState world0 []).

(** The service is handled before its listener exists; the first read of the listener
    fails, which puts the request back.  The queue empties from there. *)
Lemma quiescent_agrees_witness :
  let s := foldl go s0 history in let s1 := foldl go s0 (take 4 history) in
  queue s = [] ∧ converged build opaque (world s) ∧
  is_Some (stored KListener (store (upd (world s))) l_nn) ∧
  queue s1 = [(KListener, l_nn)] ∧ sn (calm Rebuild.ex_pem Rebuild.ex_x509 build opaque) s1.
Proof.
  set (s := foldl go s0 history). set (s1 := foldl go s0 (take 4 history)).
  assert (queue s = []) as Hq by (vm_compute; reflexivity).
  assert (rtc (step Rebuild.ex_pem Rebuild.ex_x509 build opaque) s0 s) as Hs.
  { apply follow_run; [exact history_ok|vm_compute; reflexivity]. }
  assert (rtc (step Rebuild.ex_pem Rebuild.ex_x509 build opaque) s0 s1) as Hs1.
  { apply follow_run; [exact (Forall_take _ 4 _ history_ok)|vm_compute; reflexivity]. }
  assert (∃ r c0, rebuilt_from build r c0 (upd world0)) as Hr by (do 2 eexists; exact world0_rebuilt).
  split; [exact Hq|]. split; [|split; [vm_compute; by eexists|split; [vm_compute; reflexivity|]]].
  - exact (proj1 (quiescent_agrees Rebuild.ex_pem Rebuild.ex_x509 build opaque world0 s world0_ok world0_agrees Hr Hs) Hq).
  - apply (quiescent_agrees Rebuild.ex_pem Rebuild.ex_x509 build opaque world0 s1 world0_ok world0_agrees Hr Hs1).
    intros nn vs _. by eexists.
Defined.

(** A secret that loses its label and is deleted afterwards stays in the store: the
    filter looks at the new object of an update and at the last object of a deletion. *)
Definition secret (labels : option (gmap string string)) : Secret :=
  mkSecret (mkMeta "s" "ns" "us" 1 None labels) None.
Definition s_nn : NN := Helpers.mkNN "ns" "s".
Definition unlabelled : list event :=
  [EChange KSecret s_nn (Some (secret (Some {[ "envoy.kaasops.io/secret-type" := "sds-cached" ]})));
   handle KSecret s_nn; EChange KSecret s_nn (Some (secret None)); EChange KSecret s_nn None].
Example unlabelled_secret_stays :
  let s := foldl go s0 unlabelled in
  follows Rebuild.ex_pem Rebuild.ex_x509 build opaque s0 unlabelled = true ∧ queue s = [] ∧
  srv (world s) KSecret s_nn = None ∧ is_Some (stored KSecret (store (upd (world s))) s_nn).
Proof. split_and!; try (vm_compute; reflexivity). vm_compute. by eexists. Qed.

(** ** The certificate of the webhooks

    The controller of [webhook_controller.go]: a request for every secret with the name of
    its own, in whatever namespace, and one for its own secret when its configuration
    changes.  It has no name of its own and takes that of the kind. *)
Definition webhook_ctrlName : string := "secret".
Definition webhook_secret_requests (r : WebhookCert.WebhookReconciler) (nn : NN) : list NN :=
  if WebhookCert.namesMatchingPredicate [WebhookCert.TLSSecretName r] (Helpers.Name nn) then [nn] else [].
Definition webhook_config_requests (r : WebhookCert.WebhookReconciler) (name : string) : list NN :=
  if WebhookCert.namesMatchingPredicate [WebhookCert.ValidationWebhookName r] name
  then [Helpers.mkNN (WebhookCert.rNamespace r) (WebhookCert.TLSSecretName r)] else [].

(** controller-runtime refuses two controllers of one name. *)
Definition controller_names : list string :=
  webhook_ctrlName :: map (λ k, ctrlName (setup opaque k))
    [KVirtualService; KTemplate; KListener; KCluster; KRoute; KHttpFilter; KPolicy; KAccessLog; KTracing; KSecret].
Lemma controller_names_distinct : NoDup controller_names.
Proof. apply (bool_decide_unpack _). vm_compute. exact I. Qed.

(** A secret of that name in a namespace of somebody else is taken for the certificate: its
    authority is written into the configuration, in place of the one that signed the
    certificate of the server. *)
Definition foreign : NN := Helpers.mkNN "tenant" "tls".
Definition two_secrets : WebhookCert.ApiServer :=
  WebhookCert.mkApiServer
    {[ WebhookCert.Examples.nn := mkSecret (mkMeta "tls" "ns" "u" 1 None None)
         (Some {[ "tls.crt" := "new"; "tls.key" := "key"; "ca.crt" := "ca" ]});
       foreign := mkSecret (mkMeta "tls" "tenant" "v" 1 None None)
         (Some {[ "tls.crt" := "new"; "tls.key" := "key"; "ca.crt" := "tenant-ca" ]}) ]}
    {[ "hooks" := [WebhookCert.mkWebhook (Some "svc") "ca"] ]}.
Example foreign_secret_is_trusted :
  let k := (WebhookCert.Reconcile (CM := WebhookCert.Examples.certs WebhookCert.certificateValidity)
              WebhookCert.Examples.reconciler WebhookCert.Examples.faults 0 0 0 two_secrets foreign).1 in
  webhook_secret_requests WebhookCert.Examples.reconciler foreign = [foreign] ∧
  WebhookCert.kConfigs k !! "hooks" = Some [WebhookCert.mkWebhook (Some "svc") "tenant-ca"].
Proof. by vm_compute. Qed.
End Watch.
