(* ===== verification/InitCert.v ===== *)
(** * [cmd/init-cert]: the certificate before the first start

    The command runs before the controller: it makes sure that the secret of the
    webhook server holds a certificate, and writes its authority into the webhook
    configuration.  The API server, its faults and the certificate library are those
    of [WebhookCert], whose controller looks after the same objects later. *)

From S2P Require Import Prelude GoStrings Types DomainSecrets WebhookCert.

Module InitCert.
Import DomainSecrets WebhookCert.

Definition certificateValidity : Z := 365 * 24 * Hour.
Definition minValidityDuration : Z := 30 * 24 * Hour.
Record Config := mkConfig {
  InstallationNamespace : string; cTLSSecretName : string; WebhookCfgName : string; ServiceName : string
}.
Definition defaultConfig : Config :=
  mkConfig "envoy-xds-controller" "envoy-xds-controller-webhook-cert"
    "envoy-xds-controller-validating-webhook-configuration" "envoy-xds-controller-webhook-service".

(** The answers of the API server in one run; [None] is success. *)
Record Answers := mkAnswers {
  aClient : option error; aGet : option error; aCreateOrUpdate : option error; aGetConfig : option error; aUpdate : option error
}.

Section init.
Context {CM : CertManager} (f : Answers).

(** [createCertificate]: the cluster, and the secret in memory with the new data. *)
Definition createCertificate (now : Time) (k : ApiServer) (certSecret : Secret) (namespace serviceName : string)
  : ApiServer * result Secret :=
  match wrap_err "failed to generate certificate authority" GenerateCertificateAuthority with
  | Err e => (k, Err e)
  | Ok ca =>
      match wrap_err "failed to generate certificate"
              (GenerateCertificate ca (now + certificateValidity)%Z (serviceName +:+ "." +:+ namespace +:+ ".svc")) with
      | Err e => (k, Err e)
      | Ok crt =>
          let certSecret := mkSecret (s_meta certSecret)
            (Some {[ TLSCertKey := crt.1; TLSPrivateKeyKey := crt.2; ServiceAccountRootCAKey := CACertificatePem ca ]}) in
          match aCreateOrUpdate f with
          | Some e => (k, Err (ErrWrap "failed to update secret" e))
          | None =>
              let m := match kSecrets k !! key certSecret with Some s => s_meta s | None => s_meta certSecret end in
              (set_secret k (mkSecret m (s_data certSecret)), Ok certSecret)
          end
      end
  end.
Definition shouldUpdateCertificate (now : Time) (secret : Secret) : bool :=
  match nilmap_get (s_data secret) ServiceAccountRootCAKey with
  | None => true
  | Some _ =>
      match GetCertificateWithPrivateKeyFromBytes (data secret TLSCertKey) (data secret TLSPrivateKeyKey) with
      | Err _ => true
      | Ok (Some certificate, Some _) => bool_decide (GoStrings.clamp64 (NotAfter certificate - now) < minValidityDuration)%Z
      | Ok _ => true
      end
  end.
(** Every webhook of the configuration gets the authority. *)
Definition updateValidatingWebhookConfiguration (k : ApiServer) (webhookName caBundle : string) : ApiServer * option error :=
  match aGetConfig f, kConfigs k !! webhookName with
  | Some e, _ => (k, Some (ErrWrap "failed to get ValidatingWebhookConfiguration" e))
  | None, None => (k, Some (ErrWrap "failed to get ValidatingWebhookConfiguration" (ErrNew "not found")))
  | None, Some ws =>
      match aUpdate f with
      | Some e => (k, Some (ErrWrap "failed to update ValidatingWebhookConfiguration" e))
      | None => (mkApiServer (kSecrets k) (<[webhookName := (λ w, mkWebhook (wService w) caBundle) <$> ws]> (kConfigs k)), None)
      end
  end.
(** The secret of the configuration, by name, and the part of [main] that looks after
    the certificate in it. *)
Definition emptySecret (cfg : Config) : Secret :=
  mkSecret (mkMeta (cTLSSecretName cfg) (InstallationNamespace cfg) "" 0 None None) None.
Definition ensure_certificate (cfg : Config) (now_check now_gen : Time) (k : ApiServer) : ApiServer * result Secret :=
  let create certSecret := createCertificate now_gen k certSecret (InstallationNamespace cfg) (ServiceName cfg) in
  match get_secret k (aGet f) (key (emptySecret cfg)) with
  | Err _ => let '(k, r) := create (emptySecret cfg) in (k, wrap_err "failed to create certificate" r)
  | Ok certSecret =>
      if shouldUpdateCertificate now_check certSecret then
        let '(k, r) := create certSecret in (k, wrap_err "failed to update certificate" r)
      else (k, Ok certSecret)
  end.
(** An error is logged and the process exits with status 1. *)
Definition main (cfg : result Config) (now_check now_gen : Time) (k : ApiServer) : ApiServer * result unit :=
  match wrap_err "unable to process env var" cfg with
  | Err e => (k, Err e)
  | Ok cfg =>
      match aClient f with
      | Some e => (k, Err (ErrWrap "unable to create Kubernetes client" e))
      | None =>
          match ensure_certificate cfg now_check now_gen k with
          | (k, Err e) => (k, Err e)
          | (k, Ok certSecret) =>
              match nilmap_get (s_data certSecret) ServiceAccountRootCAKey with
              | None => (k, Err (ErrNew ("missing " +:+ ServiceAccountRootCAKey +:+ " field in " +:+ cTLSSecretName cfg +:+ " secret")))
              | Some caBundle =>
                  match updateValidatingWebhookConfiguration k (WebhookCfgName cfg) caBundle with
                  | (k, Some e) => (k, Err (ErrWrap "failed to update ValidatingWebhookConfiguration" e))
                  | (k, None) => (k, Ok tt)
                  end
              end
          end
      end
  end.

(** ** A run that succeeds *)
(** What a run makes of the secret [nn]: the data it had are kept or a pair is made for
    the service with an expiry 365 days ahead; the certificate is valid for thirty days. *)
Definition prepared (cfg : Config) (now_check now_gen : Time) (k : ApiServer) (nn : NN) (d : option (gmap string string))
  : Prop :=
  ((∃ s0, kSecrets k !! nn = Some s0 ∧ d = s_data s0) ∨
   made_for (now_gen + 365 * 24 * 3600 * 10 ^ 9) (ServiceName cfg +:+ "." +:+ InstallationNamespace cfg +:+ ".svc") d) ∧
  valid_until (now_check + 30 * 24 * 3600 * 10 ^ 9) d.
(** The secret [nn] holds the data, and no other secret has changed. *)
Definition stored (k k' : ApiServer) (nn : NN) (d : option (gmap string string)) : Prop :=
  (∃ x, kSecrets k' !! nn = Some x ∧ s_data x = d) ∧ ∀ n, n ≠ nn → kSecrets k' !! n = kSecrets k !! n.

Lemma createCertificate_spec cfg now_check now k s k' s' : CertLaws CM → (now_check ≤ now)%Z → keyed k →
  createCertificate now k s (InstallationNamespace cfg) (ServiceName cfg) = (k', Ok s') →
  kConfigs k' = kConfigs k ∧ prepared cfg now_check now k (key s) (s_data s') ∧ stored k k' (key s) (s_data s').
Proof.
  intros HL Hle Hk Hc. unfold createCertificate in Hc. destruct GenerateCertificateAuthority as [ca|e] eqn:Hca; [|by destruct e].
  cbn [wrap_err] in Hc. destruct (GenerateCertificate ca _ _) as [[crt pk]|e] eqn:Hgen; [|by destruct e]. cbn [wrap_err fst snd] in Hc.
  destruct (aCreateOrUpdate f); [done|]. set (d := Some _) in Hc. change (key (mkSecret (s_meta s) d)) with (key s) in Hc.
  set (m := match kSecrets k !! key s with Some x => s_meta x | None => s_meta s end) in Hc.
  assert (key (mkSecret m d) = key s) as Hm.
  { unfold m. destruct (kSecrets k !! key s) as [x|] eqn:Hx; [exact (Hk _ _ Hx)|done]. }
  assert (made_for (now + 365 * 24 * 3600 * 10 ^ 9) (ServiceName cfg +:+ "." +:+ InstallationNamespace cfg +:+ ".svc") d)
    as Hmade by (by exists ca, crt, pk).
  injection Hc as <- <-. split; [done|]. split.
  - split; [by right|]. eapply made_valid; [done|exact Hmade|]. unfold Second. lia.
  - assert (kSecrets (set_secret k (mkSecret m d)) = <[key s := mkSecret m d]> (kSecrets k)) as Hset.
    { unfold set_secret. cbn [kSecrets]. by rewrite Hm. }
    change (stored k (set_secret k (mkSecret m d)) (key s) d). unfold stored. rewrite Hset, lookup_insert_eq. split; [by eexists|].
    intros n Hn. by rewrite lookup_insert_ne.
Qed.
Lemma unrenewed_valid now s : shouldUpdateCertificate now s = false → valid_until (now + 30 * 24 * 3600 * 10 ^ 9) (s_data s).
Proof.
  unfold shouldUpdateCertificate, data. destruct (nilmap_get (s_data s) ServiceAccountRootCAKey); [|done].
  destruct (GetCertificateWithPrivateKeyFromBytes _ _) as [[[c|] [p|]]|] eqn:Hc; try done.
  intros Hv%bool_decide_eq_false. eexists _, _, c, p. split_and!; [done..|].
  unfold GoStrings.clamp64, minValidityDuration, Hour, Second in Hv. lia.
Qed.
Lemma wrap_Ok {A} p (r : result A) a : wrap_err p r = Ok a → r = Ok a.
Proof. destruct r as [|[]]; done. Qed.
Lemma ensure_spec cfg now_check now_gen k k' s' : CertLaws CM → (now_check ≤ now_gen)%Z → keyed k →
  ensure_certificate cfg now_check now_gen k = (k', Ok s') →
  kConfigs k' = kConfigs k ∧ prepared cfg now_check now_gen k (key (emptySecret cfg)) (s_data s') ∧
  stored k k' (key (emptySecret cfg)) (s_data s').
Proof.
  intros HL Hle Hk. unfold ensure_certificate. destruct (get_secret k (aGet f) _) as [s|e] eqn:Hget.
  - assert (kSecrets k !! key (emptySecret cfg) = Some s) as Hs.
    { unfold get_secret in Hget. destruct (aGet f); [done|]. destruct (kSecrets k !! _); [by injection Hget as ->|done]. }
    destruct (shouldUpdateCertificate now_check s) eqn:Hu.
    + destruct (createCertificate _ _ _ _ _) as [k1 r] eqn:Hc. intros [= -> Hr]. apply wrap_Ok in Hr. subst r. rewrite <-(Hk _ _ Hs).
      by eapply createCertificate_spec.
    + intros [= <- <-]. split; [done|]. split; [split; [left; by exists s|by apply unrenewed_valid]|].
      split; [by exists s|done].
  - destruct (createCertificate _ _ _ _ _) as [k1 r] eqn:Hc. intros [= -> Hr]. apply wrap_Ok in Hr. subst r. by eapply createCertificate_spec.
Qed.

(** Every webhook of the configuration trusts the authority, by URL or by service. *)
Definition all_trust (ca : string) : list Webhook → list Webhook → Prop :=
  Forall2 (λ w w', wService w' = wService w ∧ wCABundle w' = ca).
Lemma main_spec cfg now_check now_gen k k' : CertLaws CM → (now_check ≤ now_gen)%Z → keyed k →
  main (Ok cfg) now_check now_gen k = (k', Ok tt) →
  ∃ d ca ws ws', prepared cfg now_check now_gen k (key (emptySecret cfg)) d ∧ stored k k' (key (emptySecret cfg)) d ∧
    nilmap_get d "ca.crt" = Some ca ∧ kConfigs k !! WebhookCfgName cfg = Some ws ∧
    kConfigs k' !! WebhookCfgName cfg = Some ws' ∧ all_trust ca ws ws' ∧
    ∀ n, n ≠ WebhookCfgName cfg → kConfigs k' !! n = kConfigs k !! n.
Proof.
  intros HL Hle Hk. unfold main. cbn [wrap_err]. destruct (aClient f); [done|].
  destruct (ensure_certificate cfg now_check now_gen k) as [k1 [s|]] eqn:Hens; [|done].
  destruct (ensure_spec _ _ _ _ _ _ HL Hle Hk Hens) as (Hcfg & Hprep & Hstored).
  destruct (nilmap_get (s_data s) ServiceAccountRootCAKey) as [ca|] eqn:Hca; [|done].
  unfold updateValidatingWebhookConfiguration. destruct (aGetConfig f); [done|]. rewrite Hcfg.
  destruct (kConfigs k !! WebhookCfgName cfg) as [ws|] eqn:Hws; [|done]. destruct (aUpdate f); [done|]. intros [= <-].
  eexists (s_data s), ca, ws, _. cbn [kConfigs]. rewrite lookup_insert_eq. split_and!; try done.
  - apply Forall2_fmap_r, Forall_Forall2_diag, Forall_true. done.
  - intros n Hn. by rewrite lookup_insert_ne.
Qed.
(** The controller with the same names. *)
Definition reconciler_of (cfg : Config) : WebhookReconciler :=
  mkReconciler (InstallationNamespace cfg) (cTLSSecretName cfg) (WebhookCfgName cfg).
Lemma trust_same ca ws ws' : all_trust ca ws ws' → trust ca <$> ws' = ws'.
Proof.
  induction 1 as [|w [svc b] ws ws' [_ Hw] _ IH]; [done|]. cbn in *. rewrite IH. subst b.
  unfold trust. by destruct svc.
Qed.

(** C37. A run of init-cert that succeeds leaves a secret that holds the data it held
    or a pair made in this run for the webhook service with an expiry 365 days
    ahead, and in both cases a certificate with its key that is valid for at least
    thirty days from the check; every webhook of the configuration trusts the
    authority in the secret, and nothing else in the cluster changes.  When the
    controller then starts, reads the secret, and the library accepts the pair for
    three days, its first run changes neither secrets nor configurations.  The
    conditions: the certificate library obeys [CertLaws], the API server keeps
    secrets under their own names, and the clock does not go back between the check
    and the creation. *)
Theorem init_cert_prepares cfg now_check now_gen k k' :
  CertLaws CM → (now_check ≤ now_gen)%Z → keyed k → main (Ok cfg) now_check now_gen k = (k', Ok tt) →
  ∃ d ca ws ws', prepared cfg now_check now_gen k (key (emptySecret cfg)) d ∧ stored k k' (key (emptySecret cfg)) d ∧
    nilmap_get d "ca.crt" = Some ca ∧ kConfigs k !! WebhookCfgName cfg = Some ws ∧
    kConfigs k' !! WebhookCfgName cfg = Some ws' ∧ all_trust ca ws ws' ∧
    (∀ n, n ≠ WebhookCfgName cfg → kConfigs k' !! n = kConfigs k !! n) ∧
    ∀ f' t t' k'' r c p, fGetAgain f' = None →
      GetCertificateWithPrivateKeyFromBytes (default "" (nilmap_get d "tls.crt")) (default "" (nilmap_get d "tls.key")) = Ok (c, p) →
      ValidateCertificate t c p (3 * 24 * 3600 * 10 ^ 9) = None →
      ReconcileCertificates (reconciler_of cfg) f' t t' k' (emptySecret cfg) = (k'', Ok r) → k'' = k'.
Proof.
  intros HL Hle Hk Hm. destruct (main_spec _ _ _ _ _ HL Hle Hk Hm) as (d & ca & ws & ws' & Hp & Hst & Hca & Hws & Hws' & Hall & Hrest).
  exists d, ca, ws, ws'. split_and!; try done. destruct Hst as [(s & Hs & <-) _].
  intros f' t t' k'' r c p Hget Hpair Hok Hr. unfold ReconcileCertificates, WebhookCert.ensure_certificate, get_secret in Hr.
  assert (WebhookCert.shouldUpdateCertificate t s = false) as Hkeep.
  { unfold WebhookCert.shouldUpdateCertificate, data. unfold ServiceAccountRootCAKey, TLSCertKey, TLSPrivateKeyKey.
    rewrite Hca, Hpair. change certificateExpirationThreshold with (3 * 24 * 3600 * 10 ^ 9)%Z. by rewrite Hok. }
  unfold ServiceAccountRootCAKey in Hr. rewrite Hget, Hs, Hkeep, Hca in Hr.
  destruct (WebhookCert.updateValidatingWebhookConfiguration (reconciler_of cfg) f' k' ca) as [k2 [e|]] eqn:Hu; [done|]. injection Hr as <- <-.
  apply update_attempts_spec in Hu as (Hsec & ws2 & Hws2 & Hcfg2); [|by left]. cbn [reconciler_of ValidationWebhookName] in *.
  assert (ws2 = ws') as -> by congruence. rewrite (trust_same _ _ _ Hall) in Hcfg2.
  destruct k2 as [ks kc], k' as [ks' kc']. cbn in *. subst ks. f_equal. rewrite Hcfg2. by apply insert_id.
Qed.
End init.

(** ** Examples *)
#[local] Instance ex_certs : CertManager := WebhookCert.Examples.certs certificateValidity.
Module Examples.
Definition cfg : Config := mkConfig "ns" "tls" "hooks" "svc".
Definition answers : Answers := mkAnswers None None None None None.
Definition faults : Faults := mkFaults None None None None (λ _, None) (λ _, AOk).
End Examples.
Import Examples.
Lemma ex_keyed : keyed WebhookCert.Examples.cluster.
Proof. exact WebhookCert.cluster_keys. Qed.
Lemma init_cert_prepares_witness :
  ∃ k' d, main answers (Ok cfg) 0 0 WebhookCert.Examples.cluster = (k', Ok tt) ∧
    valid_until (30 * 24 * 3600 * 10 ^ 9) d ∧ nilmap_get d "ca.crt" = Some "ca" ∧
    (ReconcileCertificates (reconciler_of cfg) faults 0 0 k' (emptySecret cfg)).1 = k'.
Proof.
  destruct (main answers (Ok cfg) 0 0 WebhookCert.Examples.cluster) as [k' [[]|]] eqn:Hm; [|vm_compute in Hm; discriminate Hm].
  destruct (init_cert_prepares answers cfg 0 0 _ k' (WebhookCert.Examples.certs_laws _) ltac:(lia) ex_keyed Hm)
    as (d & ca & ws & ws' & [_ Hv] & [(s & Hs & <-) _] & Hca & _ & _ & _ & _ & Hstable).
  vm_compute in Hm. injection Hm as <-. vm_compute in Hs. injection Hs as <-. vm_compute in Hca. injection Hca as <-.
  eexists _, _. split; [reflexivity|]. split; [exact Hv|]. split; [vm_compute; reflexivity|].
  eapply (Hstable faults 0%Z 0%Z); [reflexivity|vm_compute; reflexivity|vm_compute; reflexivity|]. vm_compute. reflexivity.
Defined.
(** The command trusts for webhooks without a service too, which the controller leaves
    alone; and the controller ignores the configured name of the service. *)
Example init_cert_overwrites_external :
  (kConfigs (main answers (Ok cfg) 0 0 WebhookCert.Examples.cluster).1 !! "hooks") =
    Some [mkWebhook (Some "svc") "ca"; mkWebhook None "ca"].
Proof. by vm_compute. Qed.
Definition names_only : CertManager := {|
  Authority := unit; Certificate := string; PrivateKey := unit;
  GenerateCertificateAuthority := Ok tt; GenerateCertificate _ _ name := Ok (name, "key");
  CACertificatePem _ := "ca"; GetCertificateFromBytes s := Ok s; GetCertificateWithPrivateKeyFromBytes s _ := Ok (Some s, Some tt);
  ValidateCertificate _ _ _ _ := None; NotAfter _ := 0%Z
|}.
Example controller_ignores_service_name :
  let new := mkSecret (mkMeta "tls" "ns" "" 0 None None) None in
  (λ s, data s TLSCertKey) <$> kSecrets (createCertificate (CM := names_only) answers 0 (mkApiServer ∅ ∅) new "ns" "my-webhook").1
    !! WebhookCert.Examples.nn = Some "my-webhook.ns.svc" ∧
  (λ s, data s TLSCertKey) <$> kSecrets (WebhookCert.ensure_certificate (CM := names_only) (reconciler_of (mkConfig "ns" "tls" "hooks" "my-webhook"))
    faults 0 0 (mkApiServer ∅ ∅) new).1 !! WebhookCert.Examples.nn = Some "envoy-xds-controller-webhook-service.ns.svc".
Proof. by vm_compute. Qed.
End InitCert.
