(* ===== verification/Startup.v ===== *)
(** * [cmd/main.go]: the process

    The configuration, the set-up of the manager with its controllers and webhooks,
    and the runnable that fills the store, builds the first snapshots and opens the
    gate of the controllers.  The theorem of the file is the one of the whole
    program: from the start, through any fair history of changes, what Envoy nodes
    are served is built from what the API server holds. *)

From Stdlib Require Import Eqdep_dec.
From S2P Require Import Prelude GoStrings Types Merge StringPool Api DomainSecrets ResUtils Store.
From S2P Require Import Lru Routes Secrets HttpFilters Clusters FilterChains SnapshotCache Mixer Updater Rebuild MainBuilder.
From S2P Require Import Webhooks Controllers WebhookCert.
Import Envoy.

Module Startup.
Import Updater Controllers.

(** ** The configuration *)
Record WebhookSettings := mkWebhookSettings {
  TLSSecretName : string; WebhookCfgName : string; ServiceName : string; Path : string; Port : Z;
  DryRunTimeoutMS : Z; LightDryRun : bool; ValidationIndices : bool
}.
Record Config := mkConfig {
  WatchNamespaces : list string; InstallationNamespace : string; TargetNamespace : string;
  XDSPort : Z; Webhook : WebhookSettings
}.
(** The values of the [default] tags. *)
Definition defaultConfig : Config :=
  mkConfig [] "envoy-xds-controller" "envoy-xds-controller" 9000
    (mkWebhookSettings "envoy-xds-controller-webhook-cert" "envoy-xds-controller-validating-webhook-configuration"
       "envoy-xds-controller-webhook-service" "/validate" 9443 1000 false false).
Definition GetNamespaceForResourceCreation (c : Config) : string :=
  if decide (TargetNamespace c ≠ "") then TargetNamespace c
  else if decide (InstallationNamespace c ≠ "") then InstallationNamespace c
  else "default".
(** The keys of [DefaultNamespaces]; the values are empty. *)
Definition managerCacheOptions (cfg : Config) : option (gset string) :=
  if decide (length (WatchNamespaces cfg) = 0) then None
  else
    let DefaultNamespaces := foldl (λ X namespace, {[ namespace ]} ∪ X) ∅ (WatchNamespaces cfg) in
    Some ({[ InstallationNamespace cfg ]} ∪ DefaultNamespaces).

(** ** [main] up to [mgr.Start] *)
Record Flags := mkFlags {
  metricsAddr : string; probeAddr : string; enableLeaderElection : bool; secureMetrics : bool; enableHTTP2 : bool;
  enableAPI : bool; cacheAPIPort : Z; cacheAPIScheme : string; cacheAPIAddr : string; grpcAPIPort : Z; devMode : bool;
  accessControlModelPath : string; accessControlPolicyPath : string; configPath : string
}.
Definition defaultFlags : Flags :=
  mkFlags "0" ":8081" false true false false 9999 "http" "localhost:9999" 10000 false
    "/etc/exc/access-control/model.conf" "/etc/exc/access-control/policy.csv" "/etc/exc/config.json".

(** What the libraries answer while the process is set up; [None] is success. *)
Record Platform := mkPlatform {
  envconfig_Process : result Config;
  ctrl_NewManager : option error;
  filewatcher_New : option error;
  setup_controller : string → option error;
  os_Getenv : string → string;
  client_New : option error;
  setup_webhook : string → option error;
  add_check : string → option error;
  mgr_Add : option error;
  mgr_Start : option error
}.
(** The options of the manager that depend on flags or configuration. *)
Record ManagerOptions := mkManagerOptions {
  oNextProtos : option (list string);   (* [None]: the default of the TLS library *)
  oMetricsFilter : bool; oMetricsAddr : string; oProbeAddr : string; oLeaderElection : bool;
  oNamespaces : option (gset string)
}.
Definition managerOptions (fl : Flags) (cfg : Config) : ManagerOptions :=
  mkManagerOptions (if enableHTTP2 fl then None else Some ["http/1.1"]) (secureMetrics fl) (metricsAddr fl)
    (probeAddr fl) (enableLeaderElection fl) (managerCacheOptions cfg).
Definition controllerNames : list string :=
  ["Cluster"; "Listener"; "Route"; "VirtualService"; "AccessLogConfig"; "HttpFilter"; "Policy";
   "VirtualServiceTemplate"; "Secret"; "Tracing"].
Definition webhookNames : list string :=
  ["AccessLogConfig"; "Listener"; "Cluster"; "Route"; "Policy"; "HttpFilter"; "VirtualService"; "Secret";
   "VirtualServiceTemplate"; "Tracing"].
Definition webhookConfig (fl : Flags) (cfg : Config) : Webhooks.WebhookConfig :=
  let w := Webhook cfg in Webhooks.mkConfig (DryRunTimeoutMS w) (LightDryRun w) (ValidationIndices w) (devMode fl).

(** [if err != nil { setupLog.Error(err, msg); os.Exit(1) }] *)
Definition or_exit (msg : string) (r : option error) : result unit :=
  match r with None => Ok tt | Some e => Err (ErrWrap msg e) end.
(** The same for one item after another; the names set up. *)
Fixpoint setup_all (what : string) (setup : string → option error) (names : list string) : result (list string) :=
  match names with
  | [] => Ok []
  | n :: names =>
      _ ← or_exit ("unable to create " +:+ what +:+ ": " +:+ n) (setup n);
      done ← setup_all what setup names;
      Ok (n :: done)
  end.

(** A process that is ready: its manager and what runs in it. *)
Record Process := mkProcess {
  pConfig : Config; pOptions : ManagerOptions; pControllers : list string; pWebhooks : list string;
  pWebhookConfig : option Webhooks.WebhookConfig; pChecks : list string
}.

Section main.
Context {CM : WebhookCert.CertManager}.
Definition webhookReconciler (cfg : Config) : WebhookCert.WebhookReconciler :=
  WebhookCert.mkReconciler (InstallationNamespace cfg) (TLSSecretName (Webhook cfg)) (WebhookCfgName (Webhook cfg)).
(** [certSecret] of [main]: the name and the namespace only. *)
Definition certSecret (cfg : Config) : Secret :=
  mkSecret (mkMeta (TLSSecretName (Webhook cfg)) (InstallationNamespace cfg) "" 0 None None) None.
(** The block under [ENABLE_WEBHOOKS]: the names set up, and the API server after
    the certificate was reconciled. *)
Definition setup_webhooks (p : Platform) (f : WebhookCert.Faults) (now_check now_gen : DomainSecrets.Time)
    (cfg : Config) (k : WebhookCert.ApiServer) : WebhookCert.ApiServer * result (list string) :=
  if decide (os_Getenv p "ENABLE_WEBHOOKS" ≠ "false") then
    match or_exit "unable to create webhook client" (client_New p) with
    | Err e => (k, Err e)
    | Ok _ =>
        match or_exit "unable to create controller: Webhook" (setup_controller p "Webhook") with
        | Err e => (k, Err e)
        | Ok _ =>
            match WebhookCert.ReconcileCertificates (webhookReconciler cfg) f now_check now_gen k (certSecret cfg) with
            | (k, Err e) => (k, Err (ErrWrap "unable to reconcile webhook secret" e))
            | (k, Ok _) => (k, setup_all "webhook" (setup_webhook p) webhookNames)
            end
        end
    end
  else (k, Ok []).
Definition main (fl : Flags) (p : Platform) (f : WebhookCert.Faults) (now_check now_gen : DomainSecrets.Time)
    (k : WebhookCert.ApiServer) : WebhookCert.ApiServer * result Process :=
  match
    cfg ← wrap_err "unable to process env var" (envconfig_Process p);
    _ ← or_exit "unable to start manager" (ctrl_NewManager p);
    _ ← or_exit "unable to create file watcher" (filewatcher_New p);
    controllers ← setup_all "controller" (setup_controller p) controllerNames;
    Ok (cfg, controllers)
  with
  | Err e => (k, Err e)
  | Ok (cfg, controllers) =>
      let '(k, hooks) := setup_webhooks p f now_check now_gen cfg k in
      (k, hooks ← hooks;
          _ ← or_exit "unable to set up health check" (add_check p "healthz");
          _ ← or_exit "unable to set up ready check" (add_check p "readyz");
          _ ← or_exit "unable to add startServers to manager" (mgr_Add p);
          _ ← or_exit "problem running manager" (mgr_Start p);
          Ok (mkProcess cfg (managerOptions fl cfg) controllers hooks
                (if decide (os_Getenv p "ENABLE_WEBHOOKS" ≠ "false") then Some (webhookConfig fl cfg) else None)
                ["healthz"; "readyz"]))
  end.

Lemma setup_all_ok what setup names l : setup_all what setup names = Ok l ↔ l = names ∧ Forall (λ n, setup n = None) names.
Proof.
  revert l. induction names as [|n names IH]; intros l; cbn.
  - split; [intros [= <-]|intros [-> _]]; done.
  - rewrite Forall_cons. unfold or_exit. destruct (setup n); cbn; [split; [done|intros (_ & ? & _); done]|].
    destruct (setup_all what setup names) as [l'|e]; cbn.
    + destruct (proj1 (IH l') eq_refl) as [-> Hf]. split; [by intros [= <-]|]. by intros (-> & _ & _).
    + split; [done|]. intros (-> & _ & Hf). discriminate (proj2 (IH names) (conj eq_refl Hf)).
Qed.

(** A process that gets to the end of [main] runs the ten controllers, each once and
    with the same updater; the ten webhooks and their certificate are in place
    unless ENABLE_WEBHOOKS is "false"; HTTP/2 is off unless it was asked for. *)
Lemma main_running fl p f t1 t2 k k' pr :
  main fl p f t1 t2 k = (k', Ok pr) →
  envconfig_Process p = Ok (pConfig pr) ∧ pControllers pr = controllerNames ∧
  pOptions pr = managerOptions fl (pConfig pr) ∧
  if decide (os_Getenv p "ENABLE_WEBHOOKS" = "false") then pWebhooks pr = [] ∧ pWebhookConfig pr = None ∧ k' = k
  else pWebhooks pr = webhookNames ∧ pWebhookConfig pr = Some (webhookConfig fl (pConfig pr)) ∧
    ∃ s, WebhookCert.ReconcileCertificates (webhookReconciler (pConfig pr)) f t1 t2 k (certSecret (pConfig pr)) = (k', Ok s).
Proof.
  unfold main. destruct (envconfig_Process p) as [cfg|e] eqn:Hcfg; [|by destruct e]. cbn [wrap_err mbind result_bind].
  destruct (or_exit _ (ctrl_NewManager p)); [|done]. cbn [mbind result_bind].
  destruct (or_exit _ (filewatcher_New p)); [|done]. cbn [mbind result_bind].
  destruct (setup_all "controller" _ _) as [cs|] eqn:Hcs; [|done]. apply setup_all_ok in Hcs as [-> _]. cbn [mbind result_bind].
  destruct (setup_webhooks p f t1 t2 cfg k) as [k1 hooks] eqn:Hh. intros [= <- Hpr].
  destruct hooks as [hooks|]; [|done]. cbn [mbind result_bind] in Hpr.
  do 4 (match type of Hpr with mbind _ ?x = _ => destruct x; cbn [mbind result_bind] in Hpr; [|done] end).
  injection Hpr as <-. cbn [pConfig pControllers pOptions pWebhooks pWebhookConfig]. split; [done|]. split; [done|]. split; [done|].
  unfold setup_webhooks in Hh. destruct (decide (os_Getenv p "ENABLE_WEBHOOKS" = "false")) as [Hf|Hf].
  - rewrite !decide_False by tauto. rewrite decide_False in Hh by tauto. by injection Hh as <- <-.
  - rewrite !decide_True by done. rewrite decide_True in Hh by done.
    destruct (or_exit _ (client_New p)); [|done]. destruct (or_exit _ (setup_controller p "Webhook")); [|done].
    destruct (WebhookCert.ReconcileCertificates _ _ _ _ _ _) as [k2 [s|]]; [|done]. apply pair_equal_spec in Hh as [-> Hw].
    apply setup_all_ok in Hw as [-> _]. split; [done|]. split; [done|]. by exists s.
Qed.
End main.

(** ** [startServers] *)
Section servers.
Context `{CA : CacheAPI} {PL : ProtoMessage ListenerV3} {PC : ProtoMessage ClusterV3} {JL : Api.JsonLib}.
Context (pem_Decode : string → option (DomainSecrets.PemBlock * string)).
Context (x509_ParseCertificate : string → result DomainSecrets.Time).
Context (build : VirtualService → Store.OptimizedStore → result Resources).

(** The process exits, or the servers run: the updater, and the error of the first
    build, which is only logged. *)
Inductive started := Exited (e : error) | Running (u : CacheUpdater) (e : option error).
Definition startServers (first : list error → error) (cl : Store.Client) (r : Run) (u : CacheUpdater) : started :=
  match Store.FillFromKubernetes pem_Decode x509_ParseCertificate first (store u) (Some cl) with
  | (_, Some e) => Exited (ErrWrap "unable to fill store" e)
  | (st, None) => let '(u, e) := RebuildSnapshots build r (with_store u st) in Running u e
  end.
(** The updater as [main] creates it, and as the first rebuild finds it. *)
Definition newUpdater : CacheUpdater := NewCacheUpdater SnapshotCache.NewSnapshotCache Store.NewOptimizedStore.
Definition filledUpdater (first : list error → error) (cl : Store.Client) : CacheUpdater :=
  with_store newUpdater
    (Store.FillFromKubernetes pem_Decode x509_ParseCertificate first Store.NewOptimizedStore (Some cl)).1.

(** ** What the start leaves in the store *)
(** The objects the controller follows: those in the namespaces of the manager, and
    of the secrets those with the label the loader selects. *)
Definition watched (opts : option (gset string)) (ns : string) : bool :=
  match opts with None => true | Some X => bool_decide (ns ∈ X) end.
Definition selected (k : kind) : obj k → bool :=
  match k with
  | KSecret => λ s, bool_decide (nilmap_get (Labels (s_meta s)) "envoy.kaasops.io/secret-type" = Some "sds-cached")
  | _ => λ _, true
  end.
Definition tracked (opts : option (gset string)) (s : Server) : Server := λ k nn,
  match s k nn with
  | Some o => if watched opts (Helpers.Namespace nn) && selected k o then Some o else None
  | None => None
  end.
Definition list_of (k : kind) (cl : Store.Client) : result (list (obj k)) :=
  match k with
  | KVirtualService => Store.list_vs cl | KTemplate => Store.list_vst cl | KListener => Store.list_listeners cl
  | KCluster => Store.list_clusters cl | KRoute => Store.list_routes cl | KHttpFilter => Store.list_httpFilters cl
  | KPolicy => Store.list_policies cl | KAccessLog => Store.list_accessLogs cl | KTracing => Store.list_tracings cl
  | KSecret => Store.list_secrets cl
  end.
(** The client lists what the server holds. *)
Definition lists (s : Server) (cl : Store.Client) : Prop :=
  ∀ k, ∃ l, list_of k cl = Ok l ∧ NoDup (obj_key k <$> l) ∧ ∀ o, o ∈ l ↔ s k (obj_key k o) = Some o.
Definition keyed (s : Server) : Prop := ∀ k nn o, s k nn = Some o → obj_key k o = nn.

(** Updates of any kind, one after the other. *)
Inductive any := Any (k : kind) (o : obj k).
Definition apply_any (st : Store.OptimizedStore) (a : any) : Store.OptimizedStore :=
  match a with Any k o => set_obj pem_Decode x509_ParseCertificate k st o end.
Definition is_at (k : kind) (nn : NN) (a : any) : Prop := match a with Any k' o => k' = k ∧ obj_key k' o = nn end.
Local Abbreviation pool_of st := (StringPool.pool_ok (Store.stringPool st)).
Lemma apply_any_miss l st k nn : pool_of st → Forall (λ a, ¬ is_at k nn a) l →
  pool_of (foldl apply_any st l) ∧ stored k (foldl apply_any st l) nn = stored k st nn.
Proof.
  intros Hp Hl. revert st Hp. induction Hl as [|[k' o] l Ha Hl IH]; intros st Hp; [done|]. cbn [foldl apply_any].
  destruct (stored_set pem_Decode x509_ParseCertificate k' st o Hp) as (Hp' & _ & Hf).
  destruct (IH _ Hp') as [? ->]. split; [done|]. apply Hf. intros [= -> ->]. by apply Ha.
Qed.
Lemma apply_any_hit l1 l2 st k o : pool_of st → Forall (λ a, ¬ is_at k (obj_key k o) a) l2 →
  stored k (foldl apply_any st (l1 ++ Any k o :: l2)) (obj_key k o) = Some o.
Proof.
  intros Hp Hl. rewrite foldl_app. cbn [foldl apply_any].
  assert (pool_of (foldl apply_any st l1)) as Hp1.
  { clear -Hp. revert st Hp. induction l1 as [|[k' o'] l1 IH]; intros st Hp; [done|]. cbn.
    apply IH. by apply stored_set. }
  destruct (stored_set pem_Decode x509_ParseCertificate k _ o Hp1) as (Hp' & Hs & _).
  by rewrite (proj2 (apply_any_miss _ _ _ _ Hp' Hl)).
Qed.

(** The kinds in the order of the loading loops. *)
Definition kinds : list kind :=
  [KAccessLog; KVirtualService; KListener; KCluster; KRoute; KTemplate; KHttpFilter; KPolicy; KTracing; KSecret].
Definition loaded (agg : Store.resourceResult) (k : kind) : list (obj k) :=
  match k with
  | KVirtualService => Store.res_vs agg | KTemplate => Store.res_vst agg | KListener => Store.res_listeners agg
  | KCluster => Store.res_clusters agg | KRoute => Store.res_routes agg | KHttpFilter => Store.res_httpFilters agg
  | KPolicy => Store.res_policies agg | KAccessLog => Store.res_accessLogs agg | KTracing => Store.res_tracings agg
  | KSecret => Store.res_secrets agg
  end.
Definition anys_of (agg : Store.resourceResult) (k : kind) : list any := Any k <$> (norm k <$> loaded agg k).
Definition anys (agg : Store.resourceResult) : list any := kinds ≫= anys_of agg.
Definition pos (a : any) : kind * NN := match a with Any k o => (k, obj_key k o) end.
Lemma load_anys agg :
  foldl (Store.exec pem_Decode x509_ParseCertificate) Store.NewOptimizedStore (Store.load_ops agg) =
  foldl apply_any Store.NewOptimizedStore (anys agg).
Proof.
  unfold anys, kinds. cbn [mbind list_bind]. unfold anys_of, Store.load_ops. rewrite app_nil_r.
  rewrite !foldl_app, !Store.foldl_exec_fmap, !foldl_fmap. reflexivity.
Qed.
Lemma anys_distinct agg : (∀ k, NoDup (obj_key k <$> loaded agg k)) → NoDup (pos <$> anys agg).
Proof.
  intros Hnd. assert (∀ ks, pos <$> (ks ≫= anys_of agg) = ks ≫= λ k, (k,.) <$> (obj_key k <$> loaded agg k)) as Hpos.
  { induction ks as [|k ks IH]; [done|]. cbn [mbind list_bind]. rewrite fmap_app, IH. f_equal. unfold anys_of.
    rewrite <-!list_fmap_compose. apply list_fmap_ext. intros ? o _. cbn. by rewrite norm_key. }
  unfold anys. rewrite Hpos. apply NoDup_bind.
  - intros k1 k2 p _ _ (? & -> & _)%list_elem_of_fmap ([] & ? & _)%list_elem_of_fmap. by simplify_eq.
  - intros k _. apply NoDup_fmap_2; [by intros ?? [= ->]|apply Hnd].
  - apply (bool_decide_unpack _). vm_compute. exact I.
Qed.
Lemma stored_anys agg k nn : (∀ k, NoDup (obj_key k <$> loaded agg k)) →
  (∀ o, o ∈ loaded agg k → obj_key k o = nn → 
     stored k (foldl apply_any Store.NewOptimizedStore (anys agg)) nn = Some (norm k o)) ∧
  ((∀ o, o ∈ loaded agg k → obj_key k o ≠ nn) →
     stored k (foldl apply_any Store.NewOptimizedStore (anys agg)) nn = None).
Proof.
  intros Hnd. pose proof (anys_distinct agg Hnd) as Hpos.
  assert (pool_of Store.NewOptimizedStore) as Hp by (intros ? ?; cbn; by rewrite lookup_empty). split.
  - intros o Ho <-. assert (Any k (norm k o) ∈ anys agg) as (l1 & l2 & Hl)%list_elem_of_split.
    { unfold anys. apply list_elem_of_bind. exists k. split; [|by destruct k; repeat constructor].
      unfold anys_of. by do 2 apply list_elem_of_fmap_2. }
    rewrite <-(norm_key k o), Hl. apply apply_any_hit; [done|]. apply Forall_forall. intros [k' o'] Hin [-> Hk].
    rewrite Hl, fmap_app, fmap_cons in Hpos. apply NoDup_app in Hpos as (_ & _ & [Hpos _]%NoDup_cons). apply Hpos.
    apply list_elem_of_fmap. exists (Any k o'). split; [|done]. cbn. by rewrite Hk.
  - intros Hno. destruct (apply_any_miss (anys agg) _ k nn Hp) as [_ ->]; [|by destruct k].
    apply Forall_forall. intros [k' o'] Hin [-> Hk]. unfold anys in Hin.
    apply list_elem_of_bind in Hin as (k1 & Hin & _). unfold anys_of in Hin.
    apply list_elem_of_fmap in Hin as (o1 & E & Hin). assert (k = k1) as <- by congruence.
    injection E as E. apply (inj_pair2_eq_dec _ kind_eq_dec) in E. subst o'.
    apply list_elem_of_fmap in Hin as (x & -> & Hx). apply (Hno x Hx). by rewrite <-Hk, <-(norm_key k x).
Qed.

Lemma load_lists s cl first : lists s cl →
  ∃ agg, Store.loadResourcesConcurrently first cl = Ok agg ∧ ∀ k, list_of k cl = Ok (loaded agg k).
Proof.
  intros Hl. unfold Store.loadResourcesConcurrently.
  destruct (Hl KAccessLog) as (? & E1 & _), (Hl KCluster) as (? & E2 & _), (Hl KListener) as (? & E3 & _), (Hl KRoute) as
    (? & E4 & _), (Hl KVirtualService) as (? & E5 & _), (Hl KTemplate) as (? & E6 & _), (Hl KHttpFilter) as (? & E7 & _), (Hl KPolicy) as (? & E8 & _), (Hl KTracing) as
    (? & E9 & _), (Hl KSecret) as (? & E10 & _).
  cbn in *. rewrite E1, E2, E3, E4, E5, E6, E7, E8, E9, E10.
  eexists. split; [reflexivity|]. by intros [].
Qed.
Lemma distinct_loaded agg : (∀ k, NoDup (obj_key k <$> loaded agg k)) → Store.distinct_names agg.
Proof.
  intros Hnd. split; [exact (Hnd KAccessLog)|exact (Hnd KVirtualService)|exact (Hnd KListener)|exact (Hnd KCluster)
    |exact (Hnd KRoute)|exact (Hnd KTemplate)|exact (Hnd KHttpFilter)|exact (Hnd KPolicy)|exact (Hnd KTracing)|exact (Hnd KSecret)].
Qed.

(** The start: the store holds the objects the client lists, and nothing else. *)
Lemma start_spec s cl first r : lists s cl → keyed s → run_ok r →
  ∃ u e, startServers first cl r newUpdater = Running u e ∧ ok (mkWorld s u) ∧
    rebuilt_from build r (filledUpdater first cl) u ∧
    ∀ k nn, stored k (store u) nn = norm k <$> s k nn.
Proof.
  intros Hl Hk Hr. destruct (load_lists s cl first Hl) as (agg & Hload & Hagg).
  assert (∀ k, NoDup (obj_key k <$> loaded agg k) ∧ ∀ o, o ∈ loaded agg k ↔ s k (obj_key k o) = Some o) as Hin.
  { intros k. destruct (Hl k) as (l & E & ? & ?). rewrite Hagg in E. by injection E as ->. }
  assert (Store.FillFromKubernetes pem_Decode x509_ParseCertificate first Store.NewOptimizedStore (Some cl) =
    (foldl apply_any Store.NewOptimizedStore (anys agg), None)) as Hfill.
  { unfold Store.FillFromKubernetes. rewrite Hload. f_equal. rewrite <-load_anys. apply Store.fill_store_ops.
    apply distinct_loaded. apply Hin. }
  set (st := foldl apply_any Store.NewOptimizedStore (anys agg)) in *.
  assert (∀ k nn, stored k st nn = norm k <$> s k nn) as Hst.
  { intros k nn. destruct (stored_anys agg k nn (λ k, proj1 (Hin k))) as [Hhit Hmiss].
    destruct (s k nn) as [o|] eqn:Ho.
    - apply Hhit; [|by eapply Hk]. apply Hin. by rewrite (Hk _ _ _ Ho).
    - apply Hmiss. intros o Hol <-. apply Hin in Hol. congruence. }
  unfold startServers, filledUpdater. cbn [newUpdater store NewCacheUpdater]. rewrite Hfill. unfold RebuildSnapshots.
  destruct (rebuildSnapshots build r (with_store newUpdater st)) as [u e] eqn:Hreb. exists u, e. split; [done|].
  assert (st = foldl (Store.exec pem_Decode x509_ParseCertificate) Store.NewOptimizedStore (Store.load_ops agg)) as Hops
    by (symmetry; apply load_anys).
  assert (Store.spec_named st) as Hspec by (rewrite Hops; apply Store.spec_named_history).
  assert (pool_of st) as Hpool.
  { rewrite Hops. eapply Store.wf_pool, (Store.base_history pem_Decode x509_ParseCertificate), Store.base_new. }
  assert (∀ nn vs, stored KVirtualService st nn = Some vs → key vs = nn) as Hkeys.
  { intros nn vs. rewrite Hst. destruct (s KVirtualService nn) as [x|] eqn:Hx; [|done]. intros [= <-]. exact (Hk _ _ _ Hx). }
  destruct (rebuild_stored build r (with_store newUpdater st)) as (Hp & Hs & Hstored). rewrite Hreb in Hp, Hs, Hstored.
  cbn [fst with_store store] in Hp, Hs, Hstored. split; [split|split].
  - split; cbn [upd]; [by rewrite Hp|by unfold Store.spec_named, Store.GetSpecCluster; rewrite Hs|].
    intros nn vs. rewrite Hstored. apply Hkeys.
  - exact Hk.
  - cbn [fst]. split; [done..|by rewrite Hreb|].
    intros k nn. rewrite Hstored. apply reflexivity.
  - intros k nn. by rewrite Hstored.
Qed.
Lemma started_agrees s u k nn : stored k (store u) nn = norm k <$> s k nn → agrees (mkWorld s u) k nn.
Proof.
  intros Hst. unfold agrees, agree. cbn [srv upd]. rewrite Hst. destruct (s k nn) as [x|]; [|done]. by apply same_carries.
Qed.
End servers.

(** ** The whole program *)
Section program.
Context `{CA : CacheAPI}.
Context {ML : MainBuilder.MainLib} {JL : Api.JsonLib} {SHA : Sha256} {FL : HttpFilters.FilterLib}
  {CL : Clusters.ClusterLib} {CHL : FilterChains.ChainLib}
  {P1 : ProtoMessage HttpFilterV3} {P2 : ProtoMessage HttpFilters.PolicyV3}
  {P3 : ProtoMessage VirtualHost} {P4 : ProtoMessage RouteV3} {P5 : ProtoMessage RouteConfiguration}
  {P6 : ProtoMessage ClusterV3} {P7 : ProtoMessage ListenerV3} {P8 : ProtoMessage AccessLogV3}
  {P9 : ProtoMessage TracingV3} {P10 : ProtoMessage UpgradeConfigV3} {P11 : ProtoMessage Http2OptionsV3}
  {P12 : ProtoMessage HCM} {P13 : ProtoMessage FilterChain}.
Context (pem_Decode : string → option (DomainSecrets.PemBlock * string)).
Context (x509_ParseCertificate : string → result DomainSecrets.Time).
Context (build : VirtualService → Store.OptimizedStore → result Resources).

(** Services that agree name the same nodes. *)
Lemma same_vs_nodes a b : same_vs a b → Api.GetNodeIDs a = Api.GetNodeIDs b.
Proof. intros (_ & Ha & _). unfold Api.GetNodeIDs. by rewrite Ha. Qed.
Lemma agree_nodes x y : agree KVirtualService (Some x) (Some y) → Api.GetNodeIDs y = Api.GetNodeIDs x.
Proof.
  intros [Hn _]. exact (f_equal (λ a, if decide (a = "") then [] else
    Api.dedup_entries ∅ (GoStrings.Split GoStrings.comma a)) (eq_sym Hn)).
Qed.

(** What the last rebuild serves, in terms of the services on the server. *)
Lemma rebuild_serves_server w r c0 : (∀ st, MainBuilder.built_by build st) → (∀ k nn, agrees w k nn) →
  rebuilt_from build r c0 (upd w) → (rebuildSnapshots build r c0).2 = None →
  ∀ nn x n, srv w KVirtualService nn = Some x →
    MainBuilder.targets build (store c0) (r_vs r (store c0)) x n →
    ∃ y res snap, stored KVirtualService (store c0) nn = Some y ∧ build y (store c0) = Ok res ∧
      SnapshotCache.GetSnapshot (snapshotCache (upd w)) n = Ok snap ∧
      MainBuilder.serves build (store c0) (r_vs r (store c0)) y res snap.
Proof.
  intros Hby Hag [Hrun Hspec Hkeys Hcache Hsame] Herr nn x n Hx Ht.
  specialize (Hag KVirtualService nn). unfold agrees in Hag. rewrite Hx in Hag. specialize (Hsame KVirtualService nn).
  destruct (stored KVirtualService (store (upd w)) nn) as [z|] eqn:Hz; [|done].
  destruct (stored KVirtualService (store c0) nn) as [y|] eqn:Hy; inversion Hsame as [? ? Hyz|]; subst.
  assert (Api.GetNodeIDs y = Api.GetNodeIDs x) as Hnodes.
  { rewrite (same_vs_nodes _ _ Hyz). by apply agree_nodes. }
  assert (bErr (build_with build r (snapshotCache c0) (store c0)) = None) as Hb.
  { unfold rebuildSnapshots in Herr. by destruct (bErr _). }
  destruct (MainBuilder.serves_references build (r_ctx r) (r_ord r) (r_lord r) (getValidationIndicesEnabled (r_env r))
    (store c0) (snapshotCache c0) (r_vs r (store c0)) y n Hspec (Hby _) (run_ord _ Hrun) (run_lord _ Hrun) Hb) as (res & snap & Hres & Hsnap & Hall).
  - rewrite (run_vs _ Hrun). apply list_elem_of_fmap. exists (nn, y). split; [done|].
    apply elem_of_map_to_list. unfold Store.MapVirtualServices. rewrite copy_map_id. exact Hy.
  - unfold MainBuilder.targets in *. case_decide as Hc1; case_decide as Hc2; unfold is_common in *; congruence.
  - exists y, res, snap. split; [done|]. split; [done|]. split; [|done].
    rewrite Hcache, <-Hsnap. unfold rebuildSnapshots. by destruct (bErr _).
Qed.

(** C1. The whole program, from its start: let the client list what the API server
    holds in the watched namespaces, and from then on let objects of any kind be
    created, changed and deleted while requests are reconciled in any order, some
    with errors.  Then the servers start, and if every change is followed by a
    reconciliation that can read the object, the store ends up agreeing with the
    server on every object: it carries the same content (see [carries]).  The snapshots are those of the last rebuild.  When
    that rebuild reported no error, every service on the server was built from the stored objects, and each
    node it names (every node, if it names all) has a snapshot that serves it (see [serves]): the
    listener with its filter chains, its route configuration, the clusters that routes lead to, and the secrets that its filter
    chains ask for, with the certificates and keys in the store. *)
Theorem system_serves_server cfg s cl first r h :
  let s0 := tracked (managerCacheOptions cfg) s in
  (∀ st, MainBuilder.built_by build st) → lists s0 cl → keyed s → run_ok r → Forall event_ok h → fair h →
  ∃ u0 e, startServers pem_Decode x509_ParseCertificate build first cl r newUpdater = Running u0 e ∧
  let w := foldl (exec pem_Decode x509_ParseCertificate build) (mkWorld s0 u0) h in
  let l := last_rebuild pem_Decode x509_ParseCertificate build (mkWorld s0 u0)
             (r, filledUpdater pem_Decode x509_ParseCertificate first cl) h in
  (∀ k nn, agrees w k nn) ∧ rebuilt_from build l.1 l.2 (upd w) ∧
  ((rebuildSnapshots build l.1 l.2).2 = None →
   ∀ nn x n, srv w KVirtualService nn = Some x →
     MainBuilder.targets build (store l.2) (r_vs l.1 (store l.2)) x n →
     ∃ y res snap, stored KVirtualService (store l.2) nn = Some y ∧ build y (store l.2) = Ok res ∧
       SnapshotCache.GetSnapshot (snapshotCache (upd w)) n = Ok snap ∧
       MainBuilder.serves build (store l.2) (r_vs l.1 (store l.2)) y res snap).
Proof.
  intros s0 Hby Hl Hk Hr Hh Hfair.
  assert (keyed s0) as Hk0.
  { intros k nn o. unfold s0, tracked. destruct (s k nn) as [x|] eqn:Hx; [|done]. case_match; [|done].
    intros [= <-]. by eapply Hk. }
  destruct (start_spec pem_Decode x509_ParseCertificate build s0 cl first r Hl Hk0 Hr) as (u & e & Hst & Hok & Hreb & Hstored).
  exists u, e. split; [done|]. intros w l.
  destruct (converges pem_Decode x509_ParseCertificate build (mkWorld s0 u)
    (r, filledUpdater pem_Decode x509_ParseCertificate first cl) h Hok
    (λ k nn, started_agrees s0 u k nn (Hstored k nn)) Hreb Hh Hfair) as [Hag Hfrom].
  split; [exact Hag|]. split; [exact Hfrom|]. intros Herr. by apply rebuild_serves_server.
Qed.
End program.

(** ** Namespaces and secrets *)
Lemma watched_managerCacheOptions cfg ns : watched (managerCacheOptions cfg) ns = true ↔
  WatchNamespaces cfg = [] ∨ ns ∈ WatchNamespaces cfg ∨ ns = InstallationNamespace cfg.
Proof.
  unfold managerCacheOptions. case_decide as Hl; [apply length_zero_iff_nil in Hl; rewrite Hl; cbn; tauto|].
  unfold watched. rewrite bool_decide_eq_true, elem_of_union, elem_of_singleton.
  assert (∀ l X, ns ∈ foldl (λ X n, {[ n ]} ∪ X) X l ↔ ns ∈ l ∨ ns ∈ X) as ->.
  { induction l as [|n l IH]; intros X; cbn; [set_solver|]. rewrite IH. set_solver. }
  assert (WatchNamespaces cfg ≠ []) by (by intros E; rewrite E in Hl). set_solver.
Qed.

(** The gRPC API creates services in the target namespace, which is not added to the
    namespaces of the manager. *)
Definition ex_config : Config := mkConfig ["team"] "exc" "apps" 9000 (Webhook defaultConfig).
Example created_services_not_watched :
  GetNamespaceForResourceCreation ex_config = "apps" ∧
  watched (managerCacheOptions ex_config) (GetNamespaceForResourceCreation ex_config) = false.
Proof. by vm_compute. Qed.
(** The loader selects secrets by the value of the label, the controller by its
    presence and the type of the secret: a labelled secret of another type is loaded
    at the start, and its changes and its deletion are never seen. *)
Definition ex_secret : Secret :=
  mkSecret (mkMeta "s" "ns" "us" 1 None (Some {[ "envoy.kaasops.io/secret-type" := "sds-cached" ]}))
    (Some {[ "tls.crt" := "certificate"; "tls.key" := "key" ]}).
Example loaded_secret_not_followed : selected KSecret ex_secret = true ∧ filterSecret "example.org/tls" ex_secret = false.
Proof. by vm_compute. Qed.

(** ** Witness: a listener, a cluster and a secret are there at the start; a service
    is created, reconciled, moved to another node and reconciled again *)
Module Examples.
Definition vs_on (node : string) : VirtualService :=
  mkVS (mkMeta "a" "ns" "uv" 1 (Some {[ Api.AnnotationNodeIDs := node ]}) None)
    (vs_spec MainBuilder.Examples.vs) (mkVSObjStatus "" false).
Definition vs_nn : NN := Helpers.mkNN "ns" "a".
Definition listener : Listener := mkListener (mkMeta "l" "ns" "ul" 1 None None) (Some (mkRaw (Some "l") None)).
Definition cluster : Cluster := Clusters.Examples.cluster "c1".
Definition server : Server := λ k nn,
  match k with
  | KListener => if decide (nn = obj_key KListener listener) then Some listener else None
  | KCluster => if decide (nn = obj_key KCluster cluster) then Some cluster else None
  | KSecret => if decide (nn = obj_key KSecret ex_secret) then Some ex_secret else None
  | _ => None
  end.
Definition client : Store.Client :=
  Store.mkClient (Ok []) (Ok [listener]) (Ok [cluster]) (Ok []) (Ok []) (Ok []) (Ok []) (Ok []) (Ok []) (Ok [ex_secret]).
Definition first (l : list error) : error := default (ErrNew "") (head l).
Definition run : Run :=
  mkRun (λ _, None) (λ st, snd <$> map_to_list (Store.MapVirtualServices st)) elements Mixer.listener_entries "".
Definition accept (vs : VirtualService) : result VirtualService := Ok vs.
Definition handle : event := EReconcile KVirtualService vs_nn run None accept.
Definition history : list event :=
  [EChange KVirtualService vs_nn (Some (vs_on "n1")); handle;
   EChange KVirtualService vs_nn (Some (vs_on "n2")); handle].
End Examples.
Import Examples.
Lemma ex_lists : lists (tracked (managerCacheOptions defaultConfig) server) client.
Proof.
  assert (∀ k (l : list (obj k)) (o : obj k) nn, obj_key k o = nn →
    (∀ x, x ∈ [o] ↔ (if decide (obj_key k x = nn) then Some o else None) = Some x)) as Hone.
  { intros k _ o nn <- x. rewrite list_elem_of_singleton. case_decide; [|split; [intros ->; done|done]].
    split; [by intros ->|by intros [= ->]]. }
  intros k. destruct k;
    (eexists; split; [reflexivity|]; split; [apply (bool_decide_unpack _); vm_compute; exact I|]);
    intros o; unfold tracked; cbn [server]; try (split; [by intros ?%elem_of_nil|done]).
  - rewrite (Hone KListener [] listener _ eq_refl). case_decide; [|done]. by vm_compute (_ && _).
  - rewrite (Hone KCluster [] cluster _ eq_refl). case_decide; [|done]. by vm_compute (_ && _).
  - rewrite (Hone KSecret [] ex_secret _ eq_refl). case_decide; [|done]. by vm_compute (_ && _).
Qed.
Lemma ex_server_keyed : keyed server.
Proof. intros k nn o. destruct k; cbn [server]; try done; case_decide as E; try done; by intros [= <-]. Qed.
Lemma ex_run_ok : run_ok run.
Proof. by split. Qed.
Lemma ex_history_ok : Forall event_ok history.
Proof.
  unfold history, handle. repeat (apply Forall_cons; split;
    [first [by intros x [= <-]|split; [exact ex_run_ok|by intros vs vs' [= <-]]]|]). apply Forall_nil, I.
Qed.
Lemma ex_history_fair : fair history.
Proof.
  unfold history, handle. repeat (apply fair_reconcile || (apply fair_change; [|]) || apply fair_nil);
    apply Exists_cons_hd; by eexists run, accept.
Qed.
Section witnesses.
#[local] Existing Instances MainBuilder.Examples.lib MainBuilder.Examples.json MainBuilder.Examples.vh_pb
  MainBuilder.Examples.listener_pb HttpFilters.Examples.sha HttpFilters.Examples.lib HttpFilters.Examples.hf_pb
  HttpFilters.Examples.policy_pb Clusters.Examples.cl_pb Clusters.Examples.lib Routes.Examples.route_pb
  Routes.Examples.rc_pb FilterChains.Examples.lib FilterChains.Examples.al_pb FilterChains.Examples.tr_pb
  FilterChains.Examples.uc_pb FilterChains.Examples.h2_pb FilterChains.Examples.hcm_pb FilterChains.Examples.fc_pb
  MapCache.api MapCache.cache.
Import MainBuilder.
Local Abbreviation ex_build := (λ v store, (resbuilder_BuildResources Examples.clk Examples.clock Examples.sord
  Examples.sord Examples.pord Examples.eord store (Some v) Examples.w0).1).
Lemma ex_built_by st : built_by ex_build st.
Proof.
  intros v. exists Examples.clk, Examples.clock, Examples.sord, Examples.sord, Examples.pord, Examples.eord, Examples.w0.
  split; [reflexivity|]. split; reflexivity.
Qed.
Local Abbreviation pem := Examples.pem.
Local Abbreviation x509 := Examples.x509.
Lemma system_serves_server_witness :
  ∃ u0 e, startServers pem x509 ex_build first client run newUpdater = Running u0 e ∧
  let w := foldl (exec pem x509 ex_build) (Controllers.mkWorld (tracked None server) u0) history in
  ∃ snap, SnapshotCache.GetSnapshot (snapshotCache (upd w)) "n2" = Ok snap ∧
    is_Some (GetResources snap RouteType !! "ns/a") ∧ is_Some (GetResources snap ClusterType !! "c1").
Proof.
  destruct (system_serves_server pem x509 ex_build defaultConfig server client first run history
    ex_built_by ex_lists ex_server_keyed ex_run_ok ex_history_ok ex_history_fair) as (u0 & e & Hstart & _ & _ & Hserved).
  exists u0, e. split; [exact Hstart|]. intros w.
  assert (u0 = match startServers pem x509 ex_build first client run newUpdater with Running u _ => u | Exited _ => newUpdater end)
    as -> by (rewrite Hstart; reflexivity).
  destruct (Hserved ltac:(vm_compute; reflexivity) vs_nn (vs_on "n2") "n2" ltac:(vm_compute; reflexivity) ltac:(vm_compute; left))
    as (y & res & snap & Hy & Hres & Hsnap & Hon).
  vm_compute in Hy. injection Hy as <-. vm_compute in Hres. injection Hres as <-.
  exists snap. split; [exact Hsnap|]. split.
  - eexists. apply (MainBuilder.sv_route _ _ _ _ _ _ Hon _ eq_refl). intros v Hv _.
    vm_compute in Hv. apply list_elem_of_singleton in Hv. rewrite Hv. reflexivity.
  - destruct (MainBuilder.sv_clusters _ _ _ _ _ _ Hon "c1") as (cl & _ & _ & Hcl & _); [|discriminate|by eexists].
    eapply MainBuilder.uses_route; [reflexivity|left|left|]. eapply ResUtils.to_cluster. reflexivity.
Defined.
End witnesses.
End Startup.
