(* ===== verification/GrpcAuth.v ===== *)
(** * [internal/grpcapi]: who may do what

    [auth_middleware.go], [accessgroup.go] and [permissions.go].  The casbin
    enforcer is the record [Enforcer] of its answers; the interface [IAuthorizer]
    is a record with two implementations, the authorizer of a request and the
    stub used without authentication.  Handlers are proved against the interface. *)

From S2P Require Import Prelude GoStrings Types.

Module GrpcAuth.

Definition GeneralAccessGroup : string := "general".

(** [for _, x := range l { ...; if err != nil { return nil, err }; if ... { continue }; ys = append(ys, y) }] *)
Definition collect {A B} (f : A → result (option B)) (l : list A) : result (list B) :=
  ys ← map_result f l; Ok (omap (M := list) id ys).

(** ** Libraries *)
(** [casbin.Enforcer]: [Enforce(sub, domain, object, action)], the domains of a
    user (an error gives none), the role manager of [g] (which may be missing), the
    implicit roles of a user in a domain, the index of the domain field in a rule,
    and the rules of the policy. *)
Record Enforcer := mkEnforcer {
  Enforce : string → string → string → string → result bool;
  GetDomainsForUser : string → list string;
  role_match : option (string → string → bool);
  GetNamedImplicitRolesForUser : string → string → result (list string);
  GetFieldIndex : result nat;
  policy_rules : list (list string)
}.

(** ** Authorizers *)
Record IAuthorizer := mkIAuthorizer {
  Authorize : string → string → result bool;
  AuthorizeCommonObjectWithAction : string → string → string → result bool;
  GetAvailableAccessGroups : gset string;
  GetSubjects : list string
}.

Record Authorizer := mkAuthorizer {
  a_name : string; a_groups : list string; a_action : string; a_enforcer : Enforcer
}.

Definition getSubjects (a : Authorizer) : list string := a_name a :: a_groups a.

(** The loop over the subjects: an error or a first success ends it. *)
Fixpoint any_allowed (enforce : string → result bool) (subs : list string) : result bool :=
  match subs with
  | [] => Ok false
  | sub :: subs =>
      match enforce sub with
      | Err e => Err e
      | Ok true => Ok true
      | Ok false => any_allowed enforce subs
      end
  end.
Definition Authorizer_Authorize (a : Authorizer) (domain object : string) : result bool :=
  any_allowed (λ sub, Enforce (a_enforcer a) sub domain object (a_action a)) (getSubjects a).
Definition Authorizer_AuthorizeCommonObjectWithAction (a : Authorizer) (domain object action : string)
  : result bool :=
  any_allowed (λ sub, Enforce (a_enforcer a) sub domain object action) (getSubjects a).

(** A subject whose only domain is the wildcard ends the loop with the wildcard. *)
Fixpoint available_groups (domains : string → list string) (set : gset string) (subs : list string)
  : gset string :=
  match subs with
  | [] => set
  | sub :: subs =>
      if decide (domains sub = ["*"]) then {["*"]}
      else available_groups domains (list_to_set (domains sub) ∪ set) subs
  end.
Definition Authorizer_GetAvailableAccessGroups (a : Authorizer) : gset string :=
  available_groups (GetDomainsForUser (a_enforcer a)) ∅ (getSubjects a).

Definition authorizer_of (a : Authorizer) : IAuthorizer :=
  mkIAuthorizer (Authorizer_Authorize a) (Authorizer_AuthorizeCommonObjectWithAction a)
    (Authorizer_GetAvailableAccessGroups a) (getSubjects a).
Definition stubAuthorizer : IAuthorizer :=
  mkIAuthorizer (λ _ _, Ok true) (λ _ _ _, Ok true) {["*"]} [].

(** What [authn.GetInfo] finds in the context. *)
Definition GetAuthorizerFromContext (info : option Authorizer) : IAuthorizer :=
  match info with Some a => authorizer_of a | None => stubAuthorizer end.

(** ** Actions *)
Definition ActionListVirtualServices : string := "list-virtual-services".
Definition ActionGetVirtualService : string := "get-virtual-service".
Definition ActionCreateVirtualService : string := "create-virtual-service".
Definition ActionUpdateVirtualService : string := "update-virtual-service".
Definition ActionDeleteVirtualService : string := "delete-virtual-service".
Definition ActionListAccessLogConfigs : string := "list-access-log-configs".
Definition ActionListVirtualServiceTemplates : string := "list-virtual-service-templates".
Definition ActionListNodes : string := "list-nodes".
Definition ActionListRoutes : string := "list-routes".
Definition ActionListHTTPFilters : string := "list-http-filters".
Definition ActionListPolicies : string := "list-policies".
Definition ActionListAccessGroups : string := "list-access-groups".
Definition ActionListListeners : string := "list-listeners".
Definition ActionListPermissions : string := "list-permissions".
Definition ActionVerifyDomains : string := "verify-domains".
Definition ActionFillTemplate : string := "fill-template".

(** The procedures with an action; every other one has the empty action. *)
Definition action_table : list (string * string) :=
  [("/virtual_service.v1.VirtualServiceStoreService/ListVirtualServices", ActionListVirtualServices);
   ("/virtual_service.v1.VirtualServiceStoreService/GetVirtualService", ActionGetVirtualService);
   ("/virtual_service.v1.VirtualServiceStoreService/CreateVirtualService", ActionCreateVirtualService);
   ("/virtual_service.v1.VirtualServiceStoreService/UpdateVirtualService", ActionUpdateVirtualService);
   ("/virtual_service.v1.VirtualServiceStoreService/DeleteVirtualService", ActionDeleteVirtualService);
   ("/access_log_config.v1.AccessLogConfigStoreService/ListAccessLogConfigs", ActionListAccessLogConfigs);
   ("/virtual_service_template.v1.VirtualServiceTemplateStoreService/ListVirtualServiceTemplates",
    ActionListVirtualServiceTemplates);
   ("/node.v1.NodeStoreService/ListNodes", ActionListNodes);
   ("/route.v1.RouteStoreService/ListRoutes", ActionListRoutes);
   ("/http_filter.v1.HTTPFilterStoreService/ListHTTPFilters", ActionListHTTPFilters);
   ("/policy.v1.PolicyStoreService/ListPolicies", ActionListPolicies);
   ("/access_group.v1.AccessGroupStoreService/ListAccessGroups", ActionListAccessGroups);
   ("/listener.v1.ListenerStoreService/ListListeners", ActionListListeners);
   ("/permissions.v1.PermissionsService/ListPermissions", ActionListPermissions);
   ("/util.v1.UtilsService/VerifyDomains", ActionVerifyDomains);
   ("/virtual_service_template.v1.VirtualServiceTemplateStoreService/FillTemplate", ActionFillTemplate)].
Definition lookupAction (route : string) : string :=
  match list_find (λ p : string * string, p.1 = route) action_table with
  | Some (_, (_, action)) => action
  | None => ""
  end.

(** ** The middleware *)
Record Claims := mkClaims { claim_name : string; claim_groups : list string }.
(** The bearer token of the request, if any; the verification of a token; the
    claims of a verified one; the procedure inferred from the URL. *)
Definition authFunc {Token} (verify : string → result Token) (claims_of : Token → result Claims)
    (enforcer : Enforcer) (token : option string) (proc : string) : result Authorizer :=
  match token with
  | None => Err (ErrNew "invalid authorization")
  | Some token =>
      match verify token with
      | Err e => Err (ErrNew ("failed to verify token: " +:+ go_Error e))
      | Ok idToken =>
          match claims_of idToken with
          | Err _ => Err (ErrNew "failed to get claims")
          | Ok claims =>
              let action := lookupAction proc in
              if decide (action = "") then Err (ErrNew ("unknown action: '" +:+ proc +:+ "'"))
              else Ok (mkAuthorizer (claim_name claims) (claim_groups claims) action enforcer)
          end
      end
  end.

(** ** [accessgroup.go] *)
Definition getAvailableAccessGroups (authorizer : IAuthorizer) (accessGroups : list string) : list string :=
  let availableGroups := GetAvailableAccessGroups authorizer in
  let isAllGroupAvailable := bool_decide (availableGroups = {["*"]}) in
  let list := filter (λ v, isAllGroupAvailable ∨ v ∈ availableGroups) accessGroups in
  let list := if decide (isAllGroupAvailable ∨ GeneralAccessGroup ∈ availableGroups)
              then list ++ [GeneralAccessGroup] else list in
  sort_by_key id list.
Definition ListAccessGroups (info : option Authorizer) (accessGroups : list string) : list string :=
  getAvailableAccessGroups (GetAuthorizerFromContext info) accessGroups.

(** ** [permissions.go] *)
(** One rule of the policy, for a user with the roles, in the domain.  An index
    out of range is a panic of the indexing. *)
Definition index_panic : error := ErrPanic "runtime error: index out of range".
Definition rule_for (rm : string → string → bool) (roles : gset string) (domainIndex : nat) (domain : string)
    (rule : list string) : result (option (list string)) :=
  match rule !! domainIndex with
  | None => Err index_panic
  | Some ruleDomain =>
      if decide (ruleDomain ≠ "*" ∧ rm domain ruleDomain = false) then Ok None
      else match rule !! 0 with
           | None => Err index_panic
           | Some policyRole =>
               if decide (policyRole ∈ roles) then Ok (Some (<[domainIndex := domain]> rule)) else Ok None
           end
  end.
Definition getPermissionsForUserInDomain (e : Enforcer) (user domain : string) : result (list (list string)) :=
  match role_match e with
  | None => Err (ErrNew "role manager g is not initialized")
  | Some rm =>
      roles ← GetNamedImplicitRolesForUser e user domain;
      domainIndex ← GetFieldIndex e;
      let policyRoles : gset string := {[user]} ∪ list_to_set roles in
      collect (rule_for rm policyRoles domainIndex domain) (policy_rules e)
  end.

Record PermissionsItem := mkPermItem { Action : string; Objects : list string }.
Record AccessGroupPermissions := mkAGPerm { AccessGroup : string; Permissions : list PermissionsItem }.

(** The maps and the slice of [ListPermissions]: the actions in the order they
    first appear, and the objects of each. *)
Record perm_state := mkPerms { perm_actions : list string; perm_objects : gmap string (gset string) }.
Definition add_perm (s : perm_state) (perm : list string) : perm_state :=
  match perm with
  | [_; _; items; action] =>
      match perm_objects s !! action with
      | None => mkPerms (perm_actions s ++ [action]) (<[action := {[items]}]> (perm_objects s))
      | Some objs => mkPerms (perm_actions s) (<[action := {[items]} ∪ objs]> (perm_objects s))
      end
  | _ => s
  end.
(** The error of [getPermissionsForUserInDomain] is dropped, a panic is not. *)
Definition perms_of_subject (e : Enforcer) (accessGroup : string) (s : perm_state) (sub : string)
  : result perm_state :=
  match getPermissionsForUserInDomain e sub accessGroup with
  | Ok rules => Ok (foldl add_perm s rules)
  | Err (ErrPanic w) => Err (ErrPanic w)
  | Err _ => Ok s
  end.
(** [oord] is the order in which Go visits a set of objects. *)
Definition group_permissions (oord : gset string → list string) (e : Enforcer) (subjects : list string)
    (accessGroup : string) : result AccessGroupPermissions :=
  s ← fold_result (perms_of_subject e accessGroup) (mkPerms [] ∅) subjects;
  Ok (mkAGPerm accessGroup
        ((λ action, mkPermItem action (oord (default ∅ (perm_objects s !! action)))) <$> perm_actions s)).
Definition ListPermissions (oord : gset string → list string) (e : Enforcer) (info : option Authorizer)
    (accessGroups : list string) : result (list AccessGroupPermissions) :=
  let authorizer := GetAuthorizerFromContext info in
  map_result (group_permissions oord e (GetSubjects authorizer))
    (getAvailableAccessGroups authorizer accessGroups).

(** ** Properties *)
Lemma collect_Ok {A B} (f : A → result (option B)) l ys :
  collect f l = Ok ys ↔ ∃ os, Forall2 (λ x o, f x = Ok o) l os ∧ ys = omap (M := list) id os.
Proof.
  unfold collect. split.
  - intros H. apply bind_Ok_inv in H as (os & Hos%map_result_Ok & [= <-]). eauto.
  - intros (os & Hos%map_result_Ok & ->). by rewrite Hos.
Qed.

(** The collected elements are those the loop did not skip. *)
Lemma elem_of_collect {A B} (f : A → result (option B)) l ys y :
  collect f l = Ok ys → y ∈ ys ↔ ∃ x, x ∈ l ∧ f x = Ok (Some y).
Proof.
  intros (os & Hos & ->)%collect_Ok. rewrite list_elem_of_omap. split.
  - intros (o & Ho & Hy). cbn in Hy. subst o. destruct (Forall2_elem_r _ _ _ _ Hos Ho) as (x & Hx & Hf). eauto.
  - intros (x & Hx & Hf). destruct (Forall2_elem_l _ _ _ _ Hos Hx) as (o & Ho & Hf').
    exists o. split; [done|]. cbn. congruence.
Qed.
Lemma map_result_perm {A B} (f : A → result B) l l' ys :
  l ≡ₚ l' → map_result f l = Ok ys → ∃ ys', map_result f l' = Ok ys' ∧ ys ≡ₚ ys'.
Proof.
  intros Hp. revert ys. induction Hp as [|x l l' _ IH|x y l|l1 l2 l3 _ IH1 _ IH2]; intros ys H; cbn in *.
  - injection H as <-. by exists [].
  - apply bind_Ok_inv in H as (z & -> & H). apply bind_Ok_inv in H as (zs & (ys' & Hys & Hperm)%IH & [= <-]).
    exists (z :: ys'). cbn. rewrite Hys. split; [done|by rewrite Hperm].
  - apply bind_Ok_inv in H as (a & Ha & H). apply bind_Ok_inv in H as (bs & H & [= <-]).
    apply bind_Ok_inv in H as (b & Hb & H). apply bind_Ok_inv in H as (cs & Hcs & [= <-]).
    exists (b :: a :: cs). rewrite Hb. cbn. rewrite Ha. cbn. rewrite Hcs. split; [done|constructor].
  - destruct (IH1 _ H) as (ys1 & H1 & P1). destruct (IH2 _ H1) as (ys2 & H2 & P2).
    exists ys2. split; [done|by etrans].
Qed.
Lemma collect_perm {A B} (f : A → result (option B)) l l' ys :
  l ≡ₚ l' → collect f l = Ok ys → ∃ ys', collect f l' = Ok ys' ∧ ys ≡ₚ ys'.
Proof.
  intros Hp H. unfold collect in *. apply bind_Ok_inv in H as (os & Hos & [= <-]).
  destruct (map_result_perm _ _ _ _ Hp Hos) as (os' & -> & Hperm). eexists. split; [done|].
  by rewrite Hperm.
Qed.

(** Without an error some subject is allowed exactly when the answer is yes. *)
Lemma any_allowed_true enforce subs :
  any_allowed enforce subs = Ok true → ∃ sub, sub ∈ subs ∧ enforce sub = Ok true.
Proof.
  induction subs as [|s subs IH]; cbn; [done|]. destruct (enforce s) as [[]|] eqn:He; [|..|done].
  - intros _. exists s. split; [left|done].
  - intros (sub & Hin & Hs)%IH. exists sub. split; [by right|done].
Qed.
Lemma any_allowed_false enforce subs :
  any_allowed enforce subs = Ok false ↔ ∀ sub, sub ∈ subs → enforce sub = Ok false.
Proof.
  induction subs as [|s subs IH]; cbn; [split; [by intros _ ? ?%not_elem_of_nil|done]|].
  setoid_rewrite elem_of_cons. destruct (enforce s) as [[]|] eqn:He; [| |].
  - split; [done|]. intros Hall. rewrite (Hall s) in He; [done|by left].
  - rewrite IH. naive_solver.
  - split; [done|]. intros Hall. rewrite (Hall s) in He; [done|by left].
Qed.

(** An authorizer allows only what its enforcer allows to the user or to one of
    the user's groups, for the action of the procedure called. *)
Lemma Authorize_sound a domain object :
  Authorize (authorizer_of a) domain object = Ok true →
  ∃ sub, (sub = a_name a ∨ sub ∈ a_groups a) ∧ Enforce (a_enforcer a) sub domain object (a_action a) = Ok true.
Proof. intros (sub & Hin%elem_of_cons & He)%any_allowed_true. eauto. Qed.

Lemma lookupAction_spec route action :
  lookupAction route = action → action ≠ "" → (route, action) ∈ action_table.
Proof.
  unfold lookupAction. destruct (list_find _ action_table) as [[i [r a]]|] eqn:Hf; [|by intros <-].
  apply list_find_Some in Hf as (Hi & Hr & _). cbn in Hr. subst r. intros -> _.
  by eapply list_elem_of_lookup_2.
Qed.

(** The procedure under which the listing of clusters is served has no action:
    with authentication enabled the middleware refuses every call of it. *)
Lemma list_clusters_unreachable {Token} (verify : string → result Token) claims_of enforcer token :
  is_ok (authFunc verify claims_of enforcer token "/cluster.v1.ClusterStoreService/ListCluster") = false.
Proof.
  unfold authFunc. destruct token as [t|]; [|done]. destruct (verify t) as [idt|]; [|done].
  destruct (claims_of idt); [|done]. by vm_compute.
Qed.

(** *** Permissions *)
(** A rule grants the action on the object. *)
Definition grants (rules : list (list string)) (action object : string) : Prop :=
  ∃ x y, [x; y; object; action] ∈ rules.
Definition perms_ok (s : perm_state) (P : string → string → Prop) : Prop :=
  NoDup (perm_actions s) ∧ (∀ a, a ∈ perm_actions s ↔ is_Some (perm_objects s !! a)) ∧
  ∀ a o, (∃ objs, perm_objects s !! a = Some objs ∧ o ∈ objs) ↔ P a o.

Lemma perms_ok_ext s P Q : (∀ a o, P a o ↔ Q a o) → perms_ok s P → perms_ok s Q.
Proof. intros HPQ (H1 & H2 & H3). split_and!; [done..|]. intros a o. by rewrite H3. Qed.

Lemma add_perm_ok s P perm :
  perms_ok s P → perms_ok (add_perm s perm) (λ a o, P a o ∨ grants [perm] a o).
Proof.
  intros (Hnd & Hdom & Hobj). apply (perms_ok_ext _ (λ a o, P a o ∨ ∃ x y, [x; y; o; a] = perm)).
  { intros a o. unfold grants. by setoid_rewrite list_elem_of_singleton. }
  assert (∀ Q : Prop, (∀ a o, ¬ ∃ x y, [x; y; o; a] = perm) →
    perms_ok s (λ a o, P a o ∨ ∃ x y, [x; y; o; a] = perm)) as Hskip.
  { intros _ Hno. split_and!; [done..|]. intros a o. rewrite Hobj. specialize (Hno a o). tauto. }
  destruct perm as [|x [|y [|o [|a [|]]]]]; cbn; try (by apply (Hskip True); intros ? ? (? & ? & [=])).
  destruct (perm_objects s !! a) as [objs|] eqn:Ha.
  - split_and!; cbn; [done| |].
    + intros a'. rewrite Hdom. destruct (decide (a' = a)) as [->|].
      * rewrite lookup_insert_eq, Ha. by split; eexists.
      * by rewrite lookup_insert_ne.
    + intros a' o'. destruct (decide (a' = a)) as [->|Hne].
      * rewrite lookup_insert_eq, <-Hobj. setoid_rewrite Ha. split.
        -- intros (? & [= <-] & [->%elem_of_singleton|Hin]%elem_of_union); [right; eauto|left; eauto].
        -- intros [(? & [= <-] & Hin)|(? & ? & [= -> -> ->])]; eexists; split; [done|set_solver|done|set_solver].
      * rewrite lookup_insert_ne, Hobj by done. split; [by left|]. intros [?|(? & ? & [=])]; [done|congruence].
  - split_and!; cbn.
    + apply NoDup_app. split_and!; [done| |apply NoDup_singleton]. intros a' Hin ->%list_elem_of_singleton.
      apply Hdom in Hin as [? ?]. congruence.
    + intros a'. rewrite elem_of_app, list_elem_of_singleton, Hdom. destruct (decide (a' = a)) as [->|].
      * rewrite lookup_insert_eq. split; [by eexists|by right].
      * rewrite lookup_insert_ne by done. naive_solver.
    + intros a' o'. destruct (decide (a' = a)) as [->|Hne].
      * rewrite lookup_insert_eq, <-Hobj. setoid_rewrite Ha. split.
        -- intros (? & [= <-] & ->%elem_of_singleton). right; eauto.
        -- intros [(? & [=] & _)|(? & ? & [= -> -> ->])]. eexists; split; [done|set_solver].
      * rewrite lookup_insert_ne, Hobj by done. split; [by left|]. intros [?|(? & ? & [=])]; [done|congruence].
Qed.

Lemma add_perms_ok s P rules :
  perms_ok s P → perms_ok (foldl add_perm s rules) (λ a o, P a o ∨ grants rules a o).
Proof.
  revert s P. induction rules as [|r rules IH]; intros s P Hs; cbn.
  - eapply perms_ok_ext; [|exact Hs]. intros a o. split; [by left|].
    intros [?|(? & ? & ?%not_elem_of_nil)]; done.
  - eapply perms_ok_ext; [|by apply IH, add_perm_ok]. intros a o. unfold grants.
    setoid_rewrite list_elem_of_singleton. setoid_rewrite elem_of_cons. naive_solver.
Qed.

(** The user may do the action on the object in the group, by the policy. *)
Definition permitted (e : Enforcer) (subs : list string) (accessGroup action object : string) : Prop :=
  ∃ sub rules, sub ∈ subs ∧ getPermissionsForUserInDomain e sub accessGroup = Ok rules ∧
    grants rules action object.

Lemma subjects_perms_ok e g subs s P s' :
  perms_ok s P → fold_result (perms_of_subject e g) s subs = Ok s' →
  perms_ok s' (λ a o, P a o ∨ permitted e subs g a o).
Proof.
  revert s P. induction subs as [|sub subs IH]; intros s P Hs H; cbn in H.
  - injection H as <-. eapply perms_ok_ext; [|exact Hs]. intros a o. split; [by left|].
    intros [?|(? & ? & ?%not_elem_of_nil & _)]; done.
  - apply bind_Ok_inv in H as (s1 & H1 & H).
    apply (IH s1 (λ a o, P a o ∨ ∃ rules, getPermissionsForUserInDomain e sub g = Ok rules ∧ grants rules a o)) in H.
    + eapply perms_ok_ext; [|exact H]. intros a o. unfold permitted. setoid_rewrite elem_of_cons. naive_solver.
    + unfold perms_of_subject in H1. destruct (getPermissionsForUserInDomain e sub g) as [rules|err].
      * injection H1 as <-. eapply perms_ok_ext; [|by apply add_perms_ok]. naive_solver.
      * assert (s1 = s) as -> by (by destruct err; simplify_eq). eapply perms_ok_ext; [|exact Hs]. naive_solver.
Qed.

(** The permissions shown to a user: one entry per available access group, in
    order; in it every action once, and an action with an object exactly when a
    rule of the policy grants it to the user or one of the user's groups there. *)
Theorem ListPermissions_spec oord e info accessGroups res :
  (∀ X, oord X ≡ₚ elements X) → ListPermissions oord e info accessGroups = Ok res →
  let authorizer := GetAuthorizerFromContext info in
  AccessGroup <$> res = getAvailableAccessGroups authorizer accessGroups ∧
  ∀ p, p ∈ res → NoDup (Action <$> Permissions p) ∧
    ∀ a o, (∃ it, it ∈ Permissions p ∧ Action it = a ∧ o ∈ Objects it) ↔
           permitted e (GetSubjects authorizer) (AccessGroup p) a o.
Proof.
  intros Hord Hl authorizer. unfold ListPermissions in Hl. fold authorizer in Hl. apply map_result_Ok in Hl.
  assert (∀ g p, group_permissions oord e (GetSubjects authorizer) g = Ok p →
    AccessGroup p = g ∧ NoDup (Action <$> Permissions p) ∧
    ∀ a o, (∃ it, it ∈ Permissions p ∧ Action it = a ∧ o ∈ Objects it) ↔
           permitted e (GetSubjects authorizer) g a o) as Hone.
  { intros g p Hp. unfold group_permissions in Hp. apply bind_Ok_inv in Hp as (s & Hs & [= <-]). cbn.
    apply (subjects_perms_ok _ _ _ _ (λ _ _, False)) in Hs as (Hnd & Hdom & Hobj).
    2:{ split_and!; cbn; [constructor|intros a; rewrite lookup_empty; split; [by intros ?%not_elem_of_nil|by intros []]|].
        intros a o. rewrite lookup_empty. naive_solver. }
    split; [done|]. rewrite <-list_fmap_compose. split; [by rewrite list_fmap_id|]. intros a o.
    setoid_rewrite list_elem_of_fmap. transitivity (False ∨ permitted e (GetSubjects authorizer) g a o); [|tauto].
    rewrite <-Hobj. split.
    - intros (it & (a' & -> & Ha') & <- & Ho). cbn in Ho |- *. apply Hdom in Ha' as [objs Hobjs].
      rewrite Hobjs in Ho |- *. cbn in Ho. rewrite Hord, elem_of_elements in Ho. eauto.
    - intros (objs & Hobjs & Ho). eexists. split; [exists a; split; [done|apply Hdom; by eexists]|]. cbn.
      rewrite Hobjs. cbn. by rewrite Hord, elem_of_elements. }
  split.
  - clear -Hl Hone. induction Hl as [|g p gs ps Hp _ IH]; [done|]. cbn. by destruct (Hone _ _ Hp) as [-> _]; f_equal.
  - intros p Hp. destruct (Forall2_elem_r _ _ _ _ Hl Hp) as (g & _ & Hg).
    destruct (Hone _ _ Hg) as (Hag & Hnd & Hiff). rewrite Hag. done.
Qed.

(** A policy with one role, granted on one domain, and a user who has it. *)
Definition ex_enforcer : Enforcer :=
  mkEnforcer (λ _ _ _ _, Ok true) (λ u, if decide (u = "bob") then ["team"] else [])
    (Some (λ d d', bool_decide (d = d'))) (λ u _, Ok (if decide (u = "bob") then ["role:editor"] else []))
    (Ok 1)
    [["role:editor"; "*"; "vs1"; "list-virtual-services"]; ["role:editor"; "team"; "vs2"; "list-virtual-services"];
     ["role:editor"; "other"; "vs3"; "list-virtual-services"]; ["role:admin"; "team"; "vs4"; "get-virtual-service"]].
Lemma ListPermissions_spec_witness :
  ∃ res p, ListPermissions elements ex_enforcer (Some (mkAuthorizer "bob" [] "list-permissions" ex_enforcer))
             ["team"; "other"] = Ok res ∧ p ∈ res ∧ AccessGroup p = "team" ∧ NoDup (Action <$> Permissions p) ∧
    ∃ it, it ∈ Permissions p ∧ Action it = "list-virtual-services" ∧ "vs2" ∈ Objects it.
Proof.
  set (info := Some _). destruct (ListPermissions elements ex_enforcer info ["team"; "other"]) as [res|err] eqn:Hres.
  2:{ exfalso. revert Hres. by vm_compute. }
  destruct (ListPermissions_spec elements ex_enforcer info ["team"; "other"] res) as [Hg Hp]; [done|done|].
  assert (AccessGroup <$> res = ["team"]) as Hg'; [rewrite Hg; by vm_compute|].
  destruct res as [|p [|]]; [done| |done]. injection Hg' as Hag.
  destruct (Hp p) as [Hnd Hiff]; [left|]. exists [p], p. split_and!; [done|left|done|done|].
  apply Hiff. rewrite Hag. exists "bob", [["role:editor"; "team"; "vs1"; "list-virtual-services"];
    ["role:editor"; "team"; "vs2"; "list-virtual-services"]].
  split; [left|]. split; [by vm_compute|]. exists "role:editor", "team". right. left.
Defined.

(** *** Available access groups *)
Lemma available_groups_spec domains set subs :
  (∀ s, s ∈ subs → domains s ≠ ["*"]) →
  available_groups domains set subs = set ∪ list_to_set (subs ≫= domains).
Proof.
  revert set. induction subs as [|s subs IH]; intros set Hs; cbn; [set_solver|].
  rewrite decide_False by (apply Hs; left). rewrite IH by (intros; apply Hs; by right).
  rewrite list_to_set_app_L. set_solver.
Qed.

(** A user sees an access group exactly when one of the user's subjects has it as
    a domain; a subject whose only domain is the wildcard sees all of them. *)
Lemma getAvailableAccessGroups_spec a accessGroups g :
  g ∈ getAvailableAccessGroups (authorizer_of a) accessGroups →
  (g ∈ accessGroups ∨ g = GeneralAccessGroup) ∧
  ∃ sub, sub ∈ getSubjects a ∧ (GetDomainsForUser (a_enforcer a) sub = ["*"] ∨
    g ∈ GetDomainsForUser (a_enforcer a) sub ∨ "*" ∈ GetDomainsForUser (a_enforcer a) sub).
Proof.
  set (dom := GetDomainsForUser (a_enforcer a)).
  assert (∀ x, x ∈ Authorizer_GetAvailableAccessGroups a →
    ∃ sub, sub ∈ getSubjects a ∧ (dom sub = ["*"] ∨ x ∈ dom sub)) as Hav.
  { unfold Authorizer_GetAvailableAccessGroups. fold dom. intros x.
    assert (∀ subs set, x ∈ available_groups dom set subs →
      x ∈ set ∨ ∃ sub, sub ∈ subs ∧ (dom sub = ["*"] ∨ x ∈ dom sub)) as Hgen; [|intros [?|?]%Hgen; [set_solver|done]].
    induction subs as [|s subs IH]; intros set; cbn; [by left|]. case_decide as Hd.
    - intros _. right. exists s. split; [left|by left].
    - intros [Hx|(sub & Hin & Hx)]%IH; [|right; exists sub; split; [by right|done]].
      apply elem_of_union in Hx as [Hx|Hx]; [|by left]. right. exists s. split; [left|].
      right. by apply elem_of_list_to_set in Hx. }
  unfold getAvailableAccessGroups. cbv zeta. rewrite sort_by_key_perm. cbn [GetAvailableAccessGroups authorizer_of].
  set (av := Authorizer_GetAvailableAccessGroups a) in *.
  assert (∀ x, bool_decide (av = {["*"]}) ∨ x ∈ av →
    ∃ sub, sub ∈ getSubjects a ∧ (dom sub = ["*"] ∨ x ∈ dom sub ∨ "*" ∈ dom sub)) as Hok.
  { intros x [Hall%bool_decide_unpack|Hx].
    - destruct (Hav "*") as (sub & Hs & Hd); [rewrite Hall; set_solver|]. exists sub. naive_solver.
    - destruct (Hav x Hx) as (sub & Hs & Hd). exists sub. naive_solver. }
  destruct (decide (bool_decide (av = {["*"]}) ∨ GeneralAccessGroup ∈ av)) as [Hg|Hg].
  - rewrite elem_of_app, list_elem_of_singleton, list_elem_of_filter. intros [[Hx Hin]| ->]; eauto.
  - rewrite list_elem_of_filter. intros [Hx Hin]; eauto.
Qed.
End GrpcAuth.
