(* ===== verification/GrpcLists.v ===== *)
(** * [internal/grpcapi]: the read-only endpoints

    The listings of routes, listeners, clusters, policies, HTTP filters, access
    log configurations and nodes, the verification of domains ([utils.go]) and the
    conversion of template modifiers.  A listing visits a map of the store in an
    order Go leaves open: the functions take the objects in the order visited. *)

From S2P Require Import Prelude GoStrings Types Merge StringPool Api DomainSecrets ResUtils Store GrpcAuth.

Module GrpcLists.
Import Envoy GrpcAuth.

(** ** Libraries *)
(** YAML and JSON: decoding into a generic map (as a value, null for a nil map) and
    encoding of generic values. *)
Class GrpcLib := {
  yaml_Unmarshal : string → result Merge.json;
  json_Unmarshal_map : string → result (gmap string Merge.json);
  json_Marshal_items : list Merge.json → result string;
  json_Marshal_VSTSpec : CommonSpec → list ExtraField → result string;
  json_Marshal_VSSpec : VSSpec → result string;
  json_Marshal_raw : RawExtension → result string;
  json_Marshal_raws : list RawExtension → result string;
  json_MarshalIndent : gmap string Merge.json → result string
}.
(** [data, err := json.Marshal(...); if err != nil { return nil }], as a string. *)
Definition or_empty (r : result string) : string := match r with Ok s => s | Err _ => "" end.

(** The methods [Raw] of routes, filters, services and templates. *)
Section raw.
Context {GL : GrpcLib} {JL : Api.JsonLib}.
Definition raw_items (specs : list RawExtension) : string :=
  if decide (length specs = 0) then ""
  else or_empty (items ← map_result (λ r, yaml_Unmarshal (raw_bytes r)) specs; json_Marshal_items items).
Definition Route_Raw (r : Route) : string := raw_items (r_spec r).
Definition HttpFilter_Raw (h : HttpFilter) : string := raw_items (hf_spec h).
Definition VST_Raw (vst : VirtualServiceTemplate) : string :=
  or_empty (json_Marshal_VSTSpec (vst_common vst) (vst_extraFields vst)).
Definition VS_Raw (vs : VirtualService) : string := or_empty (Api.json_Marshal (Common (vs_spec vs))).
End raw.

(** ** Items *)
Record ListItem := mkItem { iUid : string; iName : string; iDescription : string; iRaw : string }.
Inductive ListenerType := LISTENER_TYPE_UNSPECIFIED | LISTENER_TYPE_TCP | LISTENER_TYPE_HTTPS | LISTENER_TYPE_HTTP.
Record ListenerListItem := mkLItem { liItem : ListItem; liType : ListenerType }.

(** [isAllowed, err := authorizer.Authorize(...); if err ...; if !isAllowed { continue }] *)
Definition if_allowed {B} (r : result bool) (item : B) : result (option B) :=
  ok ← r; Ok (if (ok : bool) then Some item else None).
(** [if ag != req.Msg.AccessGroup && ag != GeneralAccessGroup { continue }] *)
Definition in_group (ag accessGroup : string) : bool :=
  bool_decide (ag = accessGroup) || bool_decide (ag = GeneralAccessGroup).

Definition ListAccessLogConfigs (info : option Authorizer) (accessGroup : string) (order : list AccessLogConfig)
  : result (list ListItem) :=
  let authorizer := GetAuthorizerFromContext info in
  list ← collect (λ v,
    let accessLogAG := Api.GetAccessGroup v in
    if in_group accessLogAG accessGroup then
      match alc_spec v with
      | None => Err nil_deref
      | Some spec =>
          let item := mkItem (uid v) (Name (meta v)) (Api.GetDescription v) (raw_bytes spec) in
          if_allowed (Authorize authorizer accessLogAG (iName item)) item
      end
    else Ok None) order;
  Ok (sort_by_key iName list).

Definition ListClusters (order : list Cluster) : list ListItem :=
  sort_by_key iName ((λ v, mkItem (uid v) (Name (meta v)) "" "") <$> order).

Section raw_lists.
Context {GL : GrpcLib}.
Definition ListHTTPFilters (info : option Authorizer) (accessGroup : string) (order : list HttpFilter)
  : result (list ListItem) :=
  let authorizer := GetAuthorizerFromContext info in
  list ← collect (λ v,
    let httpFilterAG := Api.GetAccessGroup v in
    if in_group httpFilterAG accessGroup then
      let item := mkItem (uid v) (Name (meta v)) (Api.GetDescription v) (HttpFilter_Raw v) in
      if_allowed (Authorize authorizer httpFilterAG (iName item)) item
    else Ok None) order;
  Ok (sort_by_key iName list).

Definition ListRoutes (info : option Authorizer) (accessGroup : string) (order : list Route)
  : result (list ListItem) :=
  let authorizer := GetAuthorizerFromContext info in
  list ← collect (λ v,
    let routeAG := Api.GetAccessGroup v in
    if in_group routeAG accessGroup then
      let item := mkItem (uid v) (Name (meta v)) (Api.GetDescription v) (Route_Raw v) in
      if_allowed (Authorize authorizer routeAG (iName item)) item
    else Ok None) order;
  Ok (sort_by_key iName list).
End raw_lists.

Definition ListPolicies (info : option Authorizer) (order : list Policy) : result (list ListItem) :=
  let authorizer := GetAuthorizerFromContext info in
  list ← collect (λ v,
    let item := mkItem (uid v) (Name (meta v)) (Api.GetDescription v) "" in
    if_allowed (Authorize authorizer GeneralAccessGroup (iName item)) item) order;
  Ok (sort_by_key iName list).

(** The node IDs come as a slice. *)
Definition ListNodes (info : option Authorizer) (reqGroup : string) (nodeIDs : list string)
  : result (list string) :=
  let authorizer := GetAuthorizerFromContext info in
  let accessGroup := if decide (reqGroup = "") then GeneralAccessGroup else reqGroup in
  list ← collect (λ v, if_allowed (Authorize authorizer accessGroup v) v) nodeIDs;
  Ok (sort_by_key id list).

(** ** Listeners *)
Definition has_type_url (url : string) (f : Filter) : bool :=
  match filterTypedConfig f with Some tc => bool_decide (TypeUrl tc = url) | None => false end.
Definition isTCPType (l : ListenerV3) : bool :=
  existsb (λ fc, existsb (has_type_url "type.googleapis.com/envoy.extensions.filters.network.tcp_proxy.v3.TcpProxy")
                   (fcFilters fc)) (lFilterChains l).
Definition isHTTPSType (l : ListenerV3) : bool :=
  existsb (has_type_url "type.googleapis.com/envoy.extensions.filters.listener.tls_inspector.v3.TlsInspector")
    (lListenerFilters l).

Section listeners.
Context `{PL : !ProtoMessage ListenerV3}.
Definition listenerType (l : Listener) : result ListenerType :=
  match l_spec l with
  | None => Err nil_deref
  | Some spec =>
      Ok match pb_unmarshal (raw_bytes spec) with
         | Err _ => LISTENER_TYPE_UNSPECIFIED
         | Ok lv3 => if isTCPType lv3 then LISTENER_TYPE_TCP
                     else if isHTTPSType lv3 then LISTENER_TYPE_HTTPS else LISTENER_TYPE_HTTP
         end
  end.
Definition ListListeners (info : option Authorizer) (accessGroup : string) (order : list Listener)
  : result (list ListenerListItem) :=
  let authorizer := GetAuthorizerFromContext info in
  list ← collect (λ v,
    let listenerAG := Api.GetAccessGroup v in
    if in_group listenerAG accessGroup then
      typ ← listenerType v;
      let item := mkLItem (mkItem (uid v) (Name (meta v)) (Api.GetDescription v)
                    match l_spec v with Some spec => raw_bytes spec | None => "" end) typ in
      if_allowed (Authorize authorizer listenerAG (Name (meta v))) item
    else Ok None) order;
  Ok (sort_by_key (λ i, iName (liItem i)) list).
End listeners.

(** ** [utils.go] *)
(** [x509.Certificate]: the fields used. *)
Record Certificate := mkCert { IssuerCommonName : string; NotAfter : DomainSecrets.Time }.
Record DomainVerificationResult := mkVerified {
  Domain : string; ValidCertificate : bool; Issuer : string; ExpiresAt : option DomainSecrets.Time;
  MatchedByWildcard : bool; Error : string
}.

Section verify.
Context (pem_Decode : string → option (DomainSecrets.PemBlock * string)).
Context (ParseCertificate : string → result Certificate).
Context (VerifyHostname : Certificate → string → option error).
Context (store : Store.OptimizedStore).

(** [now] is the instant of the lookup, [now'] the one of the expiry check. *)
Definition verifyDomainWithFallback (now now' : DomainSecrets.Time) (domain : string)
  : DomainVerificationResult :=
  let lookupResult := Store.GetDomainSecretWithWildcardFallbackInfo now store domain "" in
  match Store.lSecret lookupResult with
  | None => mkVerified domain false "" None false "no matching certificate found"
  | Some secret =>
      let wild := Store.UsedWildcard lookupResult in
      match nilmap_get (s_data secret) "tls.crt" with
      | None => mkVerified domain false "" None wild "missing tls.crt in secret"
      | Some crtBytes =>
          match pem_Decode crtBytes with
          | None => mkVerified domain false "" None wild "failed to parse PEM block"
          | Some (block, _) =>
              match ParseCertificate (DomainSecrets.BlockBytes block) with
              | Err e => mkVerified domain false "" None wild ("failed to parse certificate: " +:+ go_Error e)
              | Ok cert =>
                  let result v e :=
                    mkVerified domain v (IssuerCommonName cert) (Some (NotAfter cert)) wild e in
                  if decide (NotAfter cert < now')%Z then result false "certificate expired"
                  else match VerifyHostname cert domain with
                       | Some e => result false ("certificate does not match domain: " +:+ go_Error e)
                       | None => result true ""
                       end
              end
          end
      end
  end.
Definition VerifyDomains (clock clock' : string → DomainSecrets.Time) (domains : list string)
  : list DomainVerificationResult :=
  (λ d, verifyDomainWithFallback (clock d) (clock' d) d) <$> domains.
End verify.

Inductive TemplateOptionModifier :=
| TEMPLATE_OPTION_MODIFIER_UNSPECIFIED | TEMPLATE_OPTION_MODIFIER_MERGE
| TEMPLATE_OPTION_MODIFIER_REPLACE | TEMPLATE_OPTION_MODIFIER_DELETE.
Definition ParseTemplateOptionModifier (m : TemplateOptionModifier) : Modifier :=
  match m with
  | TEMPLATE_OPTION_MODIFIER_MERGE => ModifierMerge
  | TEMPLATE_OPTION_MODIFIER_REPLACE => ModifierReplace
  | TEMPLATE_OPTION_MODIFIER_DELETE => ModifierDelete
  | TEMPLATE_OPTION_MODIFIER_UNSPECIFIED => ModifierOther ""
  end.
Definition ParseModifierToTemplateOption (m : Modifier) : TemplateOptionModifier :=
  match m with
  | ModifierMerge => TEMPLATE_OPTION_MODIFIER_MERGE
  | ModifierReplace => TEMPLATE_OPTION_MODIFIER_REPLACE
  | ModifierDelete => TEMPLATE_OPTION_MODIFIER_DELETE
  | ModifierOther _ => TEMPLATE_OPTION_MODIFIER_UNSPECIFIED
  end.

(** ** Properties *)
Section listing.
Context {A B : Type} (key : B → string) (step : A → result (option B)).
(** The shape of every listing: collect, then sort by name. *)
Lemma listing_spec order items :
  (list ← collect step order; Ok (sort_by_key key list)) = Ok items →
  (∀ i, i ∈ items ↔ ∃ v, v ∈ order ∧ step v = Ok (Some i)) ∧ StronglySorted (key_le key) items.
Proof.
  intros (l & Hl & [= <-])%bind_Ok_inv. split; [|apply sort_by_key_sorted].
  intros i. rewrite sort_by_key_perm. by apply elem_of_collect.
Qed.
(** With distinct keys the result does not depend on the order of the visit. *)
Lemma listing_order order order' items :
  order ≡ₚ order' → (list ← collect step order; Ok (sort_by_key key list)) = Ok items →
  NoDup (key <$> items) → (list ← collect step order'; Ok (sort_by_key key list)) = Ok items.
Proof.
  intros Hp (l & Hl & [= <-])%bind_Ok_inv Hnd. destruct (collect_perm _ _ _ _ Hp Hl) as (l' & -> & Hll). cbn.
  f_equal. symmetry. apply sort_by_key_unique; [done|]. revert Hnd. by rewrite (sort_by_key_perm key l).
Qed.
End listing.

Lemma if_allowed_Some {B} r (item i : B) : if_allowed r item = Ok (Some i) ↔ r = Ok true ∧ i = item.
Proof. destruct r as [[]|]; cbn; naive_solver. Qed.
Lemma in_group_true ag g : in_group ag g = true ↔ ag = g ∨ ag = GeneralAccessGroup.
Proof. unfold in_group. by rewrite orb_true_iff, !bool_decide_eq_true. Qed.

(** The listing of routes shows exactly the routes of the requested group and
    of the general one that the user may see, sorted by name, and with distinct
    names in an order that does not depend on how the store's map is visited. *)
Theorem ListRoutes_spec `{GL : GrpcLib} info accessGroup order items :
  ListRoutes info accessGroup order = Ok items →
  (∀ i, i ∈ items ↔ ∃ v, v ∈ order ∧ (Api.GetAccessGroup v = accessGroup ∨ Api.GetAccessGroup v = GeneralAccessGroup) ∧
     Authorize (GetAuthorizerFromContext info) (Api.GetAccessGroup v) (Name (meta v)) = Ok true ∧
     i = mkItem (uid v) (Name (meta v)) (Api.GetDescription v) (Route_Raw v)) ∧
  StronglySorted (key_le iName) items ∧
  (NoDup (iName <$> items) → ∀ order', order ≡ₚ order' → ListRoutes info accessGroup order' = Ok items).
Proof.
  intros H. destruct (listing_spec _ _ _ _ H) as [Hin Hs]. split_and!; [|done|intros; by eapply listing_order].
  intros i. rewrite Hin. split; intros (v & Hv & Hi); exists v; split; [done| |done|].
  - cbv zeta in Hi. destruct (in_group (Api.GetAccessGroup v) accessGroup) eqn:Hg; [|done].
    apply in_group_true in Hg. by apply if_allowed_Some in Hi as [? ->].
  - destruct Hi as (Hg & Ha & ->). apply in_group_true in Hg. cbv zeta. rewrite Hg. by apply if_allowed_Some.
Qed.

(** A domain is reported as covered exactly when the certificate of the secret
    the index chooses for it parses, has not expired and is for that host. *)
Theorem VerifyDomains_spec pem parse verify store clock clock' domains r :
  r ∈ VerifyDomains pem parse verify store clock clock' domains →
  ValidCertificate r = true ↔
  ∃ secret crt block rest cert,
    Store.lSecret (Store.GetDomainSecretWithWildcardFallbackInfo (clock (Domain r)) store (Domain r) "") = Some secret ∧
    nilmap_get (s_data secret) "tls.crt" = Some crt ∧ pem crt = Some (block, rest) ∧
    parse (DomainSecrets.BlockBytes block) = Ok cert ∧
    (clock' (Domain r) <= NotAfter cert)%Z ∧ verify cert (Domain r) = None.
Proof.
  intros (d & -> & _)%list_elem_of_fmap. assert (Domain (verifyDomainWithFallback pem parse verify store (clock d) (clock' d) d) = d) as ->.
  { unfold verifyDomainWithFallback. repeat case_match; done. }
  unfold verifyDomainWithFallback. split.
  - repeat (case_match; try done). intros _. repeat eexists; eauto. lia.
  - intros (secret & crt & block & rest & cert & -> & -> & -> & -> & Hna & ->). by case_decide; [lia|].
Qed.

(** The modifiers of template options survive the trip to the API and back;
    on the way from a resource every value outside the known ones becomes
    unspecified. *)
Theorem modifier_roundtrip :
  (∀ m, ParseModifierToTemplateOption (ParseTemplateOptionModifier m) = m) ∧
  ∀ m, ParseTemplateOptionModifier (ParseModifierToTemplateOption m) = m ∨ ∃ w, m = ModifierOther w.
Proof. split; intros []; cbn; eauto. Qed.
End GrpcLists.
