(* ===== verification/GrpcVirtualService.v ===== *)
(** * [internal/grpcapi/virtualservice]: the virtual services of the UI

    The five handlers of the service ([create.go], [update.go], [get.go],
    [list.go], [delete.go]) and the validation of names and domains.  A handler
    that writes returns its answer, the call it made to the Kubernetes API and the
    store it leaves: [UpdateVirtualService] edits the object the store shares, also
    when it fails later. *)

From Stdlib Require Import Ascii.
From S2P Require Import Prelude GoStrings Types Merge StringPool Api DomainSecrets ResUtils Store.
From S2P Require Import SnapshotCache Mixer Updater GrpcAuth GrpcLists.

Module GrpcVirtualService.
Import Envoy GrpcAuth GrpcLists.

(** ** Names and domains *)
Definition in_range (lo hi c : ascii) : bool :=
  (nat_of_ascii lo <=? nat_of_ascii c)%nat && (nat_of_ascii c <=? nat_of_ascii hi)%nat.
Definition is_lower (c : ascii) : bool := in_range "a" "z" c.
Definition is_upper (c : ascii) : bool := in_range "A" "Z" c.
Definition is_digit (c : ascii) : bool := in_range "0" "9" c.
Definition is_hyphen (c : ascii) : bool := bool_decide (c = GoStrings.dash).

(** The pattern [^[a-z0-9][a-z0-9-]*[a-z0-9]$], from its second character on. *)
Definition alnum (c : ascii) : bool := is_lower c || is_digit c.
Fixpoint matches_tail (s : string) : bool :=
  match s with
  | "" => false
  | String c "" => alnum c
  | String c s => (alnum c || is_hyphen c) && matches_tail s
  end.
Definition matches_name (s : string) : bool :=
  match s with "" => false | String c s => alnum c && matches_tail s end.

Definition validateName (name : string) : result unit :=
  if decide (200 < String.length name) then Err (ErrNew "name cannot be longer than 200 characters")
  else if negb (matches_name name) then
    Err (ErrNew "name must contain only lowercase letters, numbers and hyphens, and must start and end with alphanumeric character")
  else Ok tt.

(** [strings.TrimPrefix(domain, "*.")] *)
Definition trim_wildcard (domain : string) : string :=
  match domain with
  | String c (String d rest) => if decide (c = GoStrings.star ∧ d = GoStrings.dot) then rest else domain
  | _ => domain
  end.

(** The loop over the characters of a label of [len] bytes, from index [i]; every
    byte of a character outside ASCII is refused like the character. *)
Fixpoint label_chars (len i : nat) (part : string) : result unit :=
  match part with
  | "" => Ok tt
  | String char rest =>
      if decide ((i = 0 ∨ i = len - 1) ∧ char = GoStrings.dash) then
        Err (ErrNew "domain label cannot start or end with hyphen")
      else if negb (is_lower char || is_upper char || is_digit char || is_hyphen char) then
        Err (ErrNew "invalid character in domain name")
      else label_chars len (S i) rest
  end.
Definition validate_label (part : string) : result unit :=
  if decide (String.length part = 0) then Err (ErrNew "empty label in domain name")
  else if decide (63 < String.length part) then Err (ErrNew "domain label too long")
  else label_chars (String.length part) 0 part.
Definition validateDomain (domain : string) : result unit :=
  if decide (domain = "") then Err (ErrNew "domain cannot be empty")
  else if decide (255 < String.length domain) then Err (ErrNew "domain name too long")
  else if decide (domain = "*") then Ok tt
  else _ ← map_result validate_label (GoStrings.Split GoStrings.dot (trim_wildcard domain)); Ok tt.

(** ** Requests *)
Record TemplateOption := mkOption { oField : string; oModifier : TemplateOptionModifier }.
(** A virtual host is its domains; [UIDS] is a list of identifiers. *)
Record CreateVirtualServiceRequest := mkCreate {
  crName : string; crNodeIds : list string; crAccessGroup : string; crTemplateUid : string;
  crListenerUid : string; crVirtualHost : option (list string); crAccessLogConfigUids : option (list string);
  crAdditionalRouteUids : list string; crAdditionalHttpFilterUids : list string;
  crUseRemoteAddress : option bool; crTemplateOptions : list TemplateOption; crDescription : string;
  crExtraFields : gmap string string
}.
Record UpdateVirtualServiceRequest := mkUpdate {
  upUid : string; upNodeIds : list string; upTemplateUid : string; upListenerUid : string;
  upVirtualHost : option (list string); upAccessLogConfigUids : option (list string);
  upAdditionalRouteUids : list string; upAdditionalHttpFilterUids : list string;
  upUseRemoteAddress : option bool; upTemplateOptions : list TemplateOption; upDescription : string;
  upExtraFields : gmap string string
}.

Definition validate_domains (vh : option (list string)) : result unit :=
  match vh with
  | None => Ok tt
  | Some domains =>
      _ ← map_result (λ d, wrap_err ("domain " +:+ d +:+ " is invalid") (validateDomain d)) domains; Ok tt
  end.
Definition validateCreateVirtualServiceRequest (req : CreateVirtualServiceRequest) : result unit :=
  _ ← fail_if (bool_decide (length (crNodeIds req) = 0)) (ErrNew "nodeIDs is required");
  _ ← fail_if (bool_decide (crAccessGroup req = "")) (ErrNew "access group is required");
  _ ← fail_if (bool_decide (crAccessGroup req = GeneralAccessGroup))
        (ErrNew "forbidden to create virtual service in general access group");
  _ ← fail_if (bool_decide (crTemplateUid req = "")) (ErrNew "template uid is required");
  _ ← fail_if (bool_decide (crName req = "")) (ErrNew "name is required");
  _ ← wrap_err "name is invalid" (validateName (crName req));
  validate_domains (crVirtualHost req).
Definition validateUpdateVirtualServiceRequest (req : UpdateVirtualServiceRequest) : result unit :=
  _ ← fail_if (bool_decide (upUid req = "")) (ErrNew "uid is required");
  _ ← fail_if (bool_decide (upTemplateUid req = "")) (ErrNew "template uid is required");
  validate_domains (upVirtualHost req).

(** ** Editing a virtual service *)
Definition edit {S} (f : S → S) : stM S unit := λ s, (Ok tt, f s).
Fixpoint for_each {S A} (f : A → stM S unit) (l : list A) : stM S unit :=
  match l with [] => mret tt | x :: l => _ ← f x; for_each f l end.

Definition set_common (f : CommonSpec → CommonSpec) (vs : VirtualService) : VirtualService :=
  let sp := vs_spec vs in
  mkVS (vs_meta vs) (mkVSSpec (f (Common sp)) (Template sp) (TemplateOptions sp) (ExtraFields sp)) (vs_status vs).
Definition set_template (t : option ResourceRef) (vs : VirtualService) : VirtualService :=
  let sp := vs_spec vs in
  mkVS (vs_meta vs) (mkVSSpec (Common sp) t (TemplateOptions sp) (ExtraFields sp)) (vs_status vs).
Definition set_templateOptions (o : list TemplateOpts) (vs : VirtualService) : VirtualService :=
  let sp := vs_spec vs in
  mkVS (vs_meta vs) (mkVSSpec (Common sp) (Template sp) o (ExtraFields sp)) (vs_status vs).
Definition set_extraFields (e : gmap string string) (vs : VirtualService) : VirtualService :=
  let sp := vs_spec vs in
  mkVS (vs_meta vs) (mkVSSpec (Common sp) (Template sp) (TemplateOptions sp) e) (vs_status vs).
Definition set_namespace (ns : string) (vs : VirtualService) : VirtualService :=
  with_meta vs (rename_meta (meta vs) (Name (meta vs)) ns).
Definition set_vstatus (st : VSObjStatus) (vs : VirtualService) : VirtualService :=
  mkVS (vs_meta vs) (vs_spec vs) st.

Definition with_virtualHost (v : option RawExtension) (c : CommonSpec) : CommonSpec :=
  mkCommon v (ListenerRef c) (TlsCfg c) (AccessLog c) (AccessLogs c) (AccessLogConfigRef c)
    (AccessLogConfigRefs c) (AdditionalHttpFilters c) (AdditionalRoutes c) (HTTPFilters c) (UseRemoteAddress c)
    (UpgradeConfigs c) (RBAC c) (XFFNumTrustedHops c) (TracingRef c) (TracingRaw c) (Http2ProtocolOptions c).
Definition with_useRemoteAddress (b : option bool) (c : CommonSpec) : CommonSpec :=
  mkCommon (VirtualHostRaw c) (ListenerRef c) (TlsCfg c) (AccessLog c) (AccessLogs c) (AccessLogConfigRef c)
    (AccessLogConfigRefs c) (AdditionalHttpFilters c) (AdditionalRoutes c) (HTTPFilters c) b
    (UpgradeConfigs c) (RBAC c) (XFFNumTrustedHops c) (TracingRef c) (TracingRaw c) (Http2ProtocolOptions c).
Definition with_listener (l : option ResourceRef) (c : CommonSpec) : CommonSpec :=
  Api.set_refs c l (AccessLogConfigRef c) (AccessLogConfigRefs c) (AdditionalHttpFilters c) (AdditionalRoutes c)
    (TracingRef c).
Definition with_accessLogConfigs (l : list ResourceRef) (c : CommonSpec) : CommonSpec :=
  Api.set_refs c (ListenerRef c) (AccessLogConfigRef c) l (AdditionalHttpFilters c) (AdditionalRoutes c) (TracingRef c).
Definition with_filters (l : list ResourceRef) (c : CommonSpec) : CommonSpec :=
  Api.set_refs c (ListenerRef c) (AccessLogConfigRef c) (AccessLogConfigRefs c) l (AdditionalRoutes c) (TracingRef c).
Definition with_routes (l : list ResourceRef) (c : CommonSpec) : CommonSpec :=
  Api.set_refs c (ListenerRef c) (AccessLogConfigRef c) (AccessLogConfigRefs c) (AdditionalHttpFilters c) l (TracingRef c).

(** [&v1alpha1.ResourceRef{Name: obj.Name, Namespace: &obj.Namespace}] *)
Definition ref_to {R} `{!HasMeta R} (r : R) : ResourceRef :=
  mkRef (Name (meta r)) (Some (Namespace (meta r))).
(** The lookup of an object by UID and the check that the user may list it in the
    access group. *)
Definition permitted_object {R} `{!HasMeta R} (authorizer : IAuthorizer) (action accessGroup : string)
    (found : option R) (missing denied : string) : result R :=
  match found with
  | None => Err (ErrNew missing)
  | Some r =>
      isAllowed ← AuthorizeCommonObjectWithAction authorizer accessGroup (Name (meta r)) action;
      _ ← fail_if (negb isAllowed) (ErrNew denied);
      Ok r
  end.

(** [protoutil.Marshaler.Marshal] of a virtual host. *)
Class VHostMarshal := vhost_Marshal : VirtualHost → result string.

Section process.
Context (store : Store.OptimizedStore) (authorizer : IAuthorizer) (accessGroup : string).

Definition convert_option (opt : TemplateOption) : TemplateOpts :=
  mkTOpt (oField opt) (ParseTemplateOptionModifier (oModifier opt)).
Definition processTemplate (templateUID : string) (templateOpts : list TemplateOption) : stM VirtualService unit :=
  vst ← lift (permitted_object authorizer ActionListVirtualServiceTemplates accessGroup
                (Store.GetVirtualServiceTemplateByUID store templateUID)
                ("template uid '" +:+ templateUID +:+ "' not found")
                ("template uid '" +:+ templateUID +:+ "' not allowed"));
  _ ← edit (set_template (Some (ref_to vst)));
  if decide (0 < length templateOpts) then edit (set_templateOptions (convert_option <$> templateOpts))
  else mret tt.
Definition processListener (listenerUID : string) : stM VirtualService unit :=
  if decide (listenerUID = "") then mret tt
  else
    listener ← lift (permitted_object authorizer ActionListListeners accessGroup
                       (Store.GetListenerByUID store listenerUID)
                       ("listener uid '" +:+ listenerUID +:+ "' not found")
                       ("listener '" +:+ listenerUID +:+ "' not allowed"));
    edit (set_common (with_listener (Some (ref_to listener)))).
Definition processVirtualHost `{!VHostMarshal} (vh : option (list string)) : stM VirtualService unit :=
  match vh with
  | None => mret tt
  | Some domains => λ vs,
      (vhData ← lift (wrap_err "failed to marshal virtual host"
                        (vhost_Marshal (mkVH (Name (meta vs) +:+ "-virtual-host") domains [] "")));
       edit (set_common (with_virtualHost (Some (mkRaw (Some vhData) None))))) vs
  end.
Definition processAccessLogConfigs (uids : option (list string)) : stM VirtualService unit :=
  let uids := default [] uids in
  if decide (length uids = 0) then mret tt
  else
    _ ← edit (set_common (with_accessLogConfigs []));
    for_each (λ uid,
      alc ← lift (permitted_object authorizer ActionListAccessLogConfigs accessGroup (Store.GetAccessLogByUID store uid)
                    ("access log config uid '" +:+ uid +:+ "' not found")
                    ("access log config '" +:+ uid +:+ "' not allowed"));
      edit (set_common (λ c, with_accessLogConfigs (AccessLogConfigRefs c ++ [ref_to alc]) c))) uids.
Definition processAdditionalRoutes (additionalRouteUIDs : list string) : stM VirtualService unit :=
  for_each (λ uid,
    route ← lift (permitted_object authorizer ActionListRoutes accessGroup (Store.GetRouteByUID store uid)
                    ("route uid '" +:+ uid +:+ "' not found") ("route '" +:+ uid +:+ "' not allowed"));
    edit (set_common (λ c, with_routes (AdditionalRoutes c ++ [ref_to route]) c))) additionalRouteUIDs.
Definition processAdditionalHTTPFilters (additionalHttpFilterUIDs : list string) : stM VirtualService unit :=
  for_each (λ uid,
    filter ← lift (permitted_object authorizer ActionListHTTPFilters accessGroup (Store.GetHTTPFilterByUID store uid)
                     ("http filter uid '" +:+ uid +:+ "' not found")
                     ("http filter '" +:+ uid +:+ "' is not allowed"));
    edit (set_common (λ c, with_filters (AdditionalHttpFilters c ++ [ref_to filter]) c))) additionalHttpFilterUIDs.
End process.

(** The assignment to a nil annotations map panics. *)
Definition set_nodeIDs (nodeIDs : list string) : stM VirtualService unit :=
  λ vs, match Api.SetNodeIDs vs nodeIDs with
        | Some vs => (Ok tt, vs)
        | None => (Err (ErrPanic "assignment to entry in nil map"), vs)
        end.

(** ** The handlers *)
(** What the Kubernetes client answers; a successful update returns the object the
    server stored. *)
Record Client := mkClient {
  Create : VirtualService → option error;
  Update : VirtualService → result VirtualService;
  Delete : VirtualService → option error
}.
Inductive ApiCall := CallCreate (vs : VirtualService) | CallUpdate (vs : VirtualService) | CallDelete (vs : VirtualService).
Definition of_error (e : option error) : result unit := match e with None => Ok tt | Some e => Err e end.

Definition new_vs : VirtualService :=
  mkVS (mkMeta "" "" "" 0 None None) (mkVSSpec empty_common None [] ∅) (mkVSObjStatus "" false).
Definition set_name (n : string) (vs : VirtualService) : VirtualService :=
  with_meta vs (rename_meta (meta vs) n (Namespace (meta vs))).
Definition initializeVirtualService (targetNs : string) (req : CreateVirtualServiceRequest)
  : result unit * VirtualService :=
  (_ ← edit (set_name (crAccessGroup req +:+ "-" +:+ crName req));
   _ ← edit (λ vs, Api.SetEditable vs true);
   _ ← edit (λ vs, Api.SetLabelName vs (crName req));
   _ ← edit (set_namespace (crName req));
   _ ← edit (λ vs, Api.SetAccessGroup vs (crAccessGroup req));
   _ ← set_nodeIDs (crNodeIds req);
   _ ← edit (set_namespace targetNs);
   edit (set_extraFields (crExtraFields req))) new_vs.

(** [build vs store] is the outcome of [resbuilder.BuildResources] and the status
    it leaves on the service. *)
Section handlers.
Context `{!VHostMarshal} (build : VirtualService → Store.OptimizedStore → result Updater.Resources * VSObjStatus).
Context (store : Store.OptimizedStore) (client : Client) (targetNs : string) (info : option Authorizer).

Definition create_service (req : CreateVirtualServiceRequest) : stM VirtualService unit :=
  let authorizer := GetAuthorizerFromContext info in
  let accessGroup := crAccessGroup req in
  _ ← processTemplate store authorizer accessGroup (crTemplateUid req) (crTemplateOptions req);
  _ ← processListener store authorizer accessGroup (crListenerUid req);
  _ ← processVirtualHost (crVirtualHost req);
  _ ← processAccessLogConfigs store authorizer accessGroup (crAccessLogConfigUids req);
  _ ← processAdditionalRoutes store authorizer accessGroup (crAdditionalRouteUids req);
  _ ← processAdditionalHTTPFilters store authorizer accessGroup (crAdditionalHttpFilterUids req);
  _ ← edit (λ vs, Api.SetDescription vs (crDescription req));
  edit (set_common (with_useRemoteAddress (crUseRemoteAddress req))).
Definition buildAndCreateVirtualService (tmpStore : Store.OptimizedStore) (vs : VirtualService)
  : result unit * option ApiCall :=
  match build vs tmpStore with
  | (Err e, _) => (Err e, None)
  | (Ok _, st) => let vs := set_vstatus st vs in (of_error (Create client vs), Some (CallCreate vs))
  end.
Definition CreateVirtualService (copyStore : Store.OptimizedStore) (req : option CreateVirtualServiceRequest)
  : result unit * option ApiCall :=
  match req with
  | None => (Err (ErrNew "request or message cannot be nil"), None)
  | Some req =>
      let ready :=
        _ ← validateCreateVirtualServiceRequest req;
        isAllowed ← Authorize (GetAuthorizerFromContext info) (crAccessGroup req) (crName req);
        _ ← fail_if (negb isAllowed)
              (ErrNew ("access group '" +:+ crAccessGroup req +:+ "' is not allowed to create virtual service '"
                       +:+ crName req +:+ "'"));
        let '(r, vs) := initializeVirtualService targetNs req in
        _ ← r;
        let '(r, vs) := create_service req vs in
        _ ← r; Ok vs in
      match ready with
      | Err e => (Err e, None)
      | Ok vs => buildAndCreateVirtualService copyStore vs
      end
  end.

(** The object found by UID, [old] when the call starts, is the one every index of
    the store points to: what is done to it is seen there. *)
Definition write_back (s : Store.OptimizedStore) (old vs : VirtualService) : Store.OptimizedStore :=
  let put o := if decide (uid o = uid old) then vs else o in
  Store.set_templateToVS (fmap (M := list) put <$> Store.templateToVS s)
    (Store.set_virtualServices (Store.Index.mkIdx (put <$> Store.Index.items (Store.virtualServices s))
                                  (put <$> Store.Index.byUID (Store.virtualServices s))) s).

Definition update_references (accessGroup : string) (req : UpdateVirtualServiceRequest) : stM VirtualService unit :=
  let authorizer := GetAuthorizerFromContext info in
  _ ← processTemplate store authorizer accessGroup (upTemplateUid req) (upTemplateOptions req);
  _ ← processListener store authorizer accessGroup (upListenerUid req);
  _ ← processVirtualHost (upVirtualHost req);
  _ ← processAccessLogConfigs store authorizer accessGroup (upAccessLogConfigUids req);
  _ ← edit (λ vs, Api.SetDescription vs (upDescription req));
  _ ← edit (set_common (with_routes []));
  _ ← (if decide (0 < length (upAdditionalRouteUids req))
       then processAdditionalRoutes store authorizer accessGroup (upAdditionalRouteUids req) else mret tt);
  _ ← edit (set_common (with_filters []));
  _ ← (if decide (0 < length (upAdditionalHttpFilterUids req))
       then processAdditionalHTTPFilters store authorizer accessGroup (upAdditionalHttpFilterUids req) else mret tt);
  match upUseRemoteAddress req with
  | Some b => edit (set_common (with_useRemoteAddress (Some b)))
  | None => mret tt
  end.
Definition update_service (req : UpdateVirtualServiceRequest) : stM VirtualService unit :=
  _ ← set_nodeIDs (upNodeIds req);
  _ ← edit (set_namespace targetNs);
  _ ← edit (set_extraFields (upExtraFields req));
  accessGroup ← (λ vs, (Ok (Api.GetAccessGroup vs), vs)) : stM VirtualService string;
  update_references accessGroup req.

(** The answer, the call and the store left behind. *)
Definition UpdateVirtualService (req : option UpdateVirtualServiceRequest)
  : result unit * option ApiCall * Store.OptimizedStore :=
  match req with
  | None => (Err (ErrNew "request or message cannot be nil"), None, store)
  | Some req =>
      match (_ ← validateUpdateVirtualServiceRequest req;
             match Store.GetVirtualServiceByUID store (upUid req) with
             | None => Err (ErrNew ("virtual service uid '" +:+ upUid req +:+ "' not found"))
             | Some vs =>
                 _ ← fail_if (negb (Api.IsEditable vs))
                       (ErrNew ("virtual service uid '" +:+ upUid req +:+ "' is not editable"));
                 Ok vs
             end) with
      | Err e => (Err e, None, store)
      | Ok old =>
          match update_service req old with
          | (Err e, vs) => (Err e, None, write_back store old vs)
          | (Ok _, vs) =>
              let '(r, st) := build vs (write_back store old vs) in
              let vs := set_vstatus st vs in
              match r with
              | Err e => (Err e, None, write_back store old vs)
              | Ok _ =>
                  match Update client vs with
                  | Err e => (Err e, Some (CallUpdate vs), write_back store old vs)
                  | Ok vs' => (Ok tt, Some (CallUpdate vs), write_back store old vs')
                  end
              end
          end
      end
  end.

Definition DeleteVirtualService (reqUid : string) : result unit * option ApiCall :=
  match (_ ← fail_if (bool_decide (reqUid = "")) (ErrNew "uid is required");
         match Store.GetVirtualServiceByUID store reqUid with
         | None => Err (ErrNew ("virtual service uid '" +:+ reqUid +:+ "' not found"))
         | Some vs =>
             _ ← fail_if (negb (Api.IsEditable vs))
                   (ErrNew ("virtual service uid '" +:+ reqUid +:+ "' is not editable"));
             ok ← Authorize (GetAuthorizerFromContext info) (Api.GetAccessGroup vs) (Name (meta vs));
             _ ← fail_if (negb ok) (ErrNew "user is not authorized to delete virtual service");
             Ok vs
         end) with
  | Err e => (Err e, None)
  | Ok vs => (of_error (Delete client vs), Some (CallDelete vs))
  end.
End handlers.

(** ** Reading *)
Record ObjRef := mkObjRef { oUid : string; oName : string }.
Definition obj_ref {R} `{!HasMeta R} (r : R) : ObjRef := mkObjRef (uid r) (Name (meta r)).
Inductive AccessLogOneof := LogConfigs (refs : list ObjRef) | LogRaw (s : string).
(** The TLS part carries the name of the secret only. *)
Record TLSResponse := mkTLSResponse { tlsSecretName : option string; tlsAutoDiscovery : option bool }.
Record GetVirtualServiceResponse := mkGet {
  gUid : string; gName : string; gNodeIds : list string; gAccessGroup : string; gIsEditable : bool;
  gDescription : string; gRaw : string; gStatus : VSObjStatus; gExtraFields : gmap string string;
  gTemplate : option ObjRef; gTemplateOptions : list TemplateOption; gListener : option ObjRef;
  gVirtualHost : option (list string); gAccessLog : option AccessLogOneof;
  gAdditionalRoutes : list ObjRef; gAdditionalHttpFilters : list ObjRef;
  gUseRemoteAddress : option bool; gTlsConfig : option TLSResponse
}.
(** A reference to an object that is not in the store is dereferenced all the same. *)
Definition resolve {R} `{!HasMeta R} (get : NN → option R) (ns : string) (ref : ResourceRef) : result ObjRef :=
  match get (Helpers.mkNN (Helpers.GetNamespace (refNamespace ref) ns) (refName ref)) with
  | None => Err nil_deref
  | Some r => Ok (obj_ref r)
  end.
(** [if x != nil { y := f(x); resp.Y = &y }] *)
Definition if_present {A B} (f : A → result B) (x : option A) : result (option B) :=
  match x with None => Ok None | Some a => b ← f a; Ok (Some b) end.

Section get.
Context {GL : GrpcLib} {JL : Api.JsonLib} `{PV : !ProtoMessage VirtualHost}.
Context (store : Store.OptimizedStore).

Definition rawJSONString (r : result string) : string := or_empty r.
Definition back_option (o : TemplateOpts) : TemplateOption :=
  mkOption (Field o) (ParseModifierToTemplateOption (Mod o)).
(** The fields of the oneof are assigned one after the other: the last one wins. *)
Definition access_log (ns : string) (c : CommonSpec) : result (option AccessLogOneof) :=
  one ← if_present (λ ref, o ← resolve (Store.GetAccessLog store) ns ref; Ok (LogConfigs [o])) (AccessLogConfigRef c);
  many ← map_result (resolve (Store.GetAccessLog store) ns) (AccessLogConfigRefs c);
  let r := if decide (0 < length (AccessLogConfigRefs c)) then Some (LogConfigs many) else one in
  let r := match AccessLog c with Some raw => Some (LogRaw (rawJSONString (json_Marshal_raw raw))) | None => r end in
  Ok (if decide (0 < length (AccessLogs c)) then Some (LogRaw (rawJSONString (json_Marshal_raws (AccessLogs c)))) else r).
Definition GetVirtualService (reqUid : string) : result GetVirtualServiceResponse :=
  _ ← fail_if (bool_decide (reqUid = "")) (ErrNew "uid is required");
  match Store.GetVirtualServiceByUID store reqUid with
  | None => Err (ErrNew ("virtual service uid '" +:+ reqUid +:+ "' not found"))
  | Some vs =>
      let ns := Namespace (meta vs) in
      let c := Common (vs_spec vs) in
      template ← if_present (resolve (Store.GetVirtualServiceTemplate store) ns) (Template (vs_spec vs));
      listener ← if_present (resolve (Store.GetListener store) ns) (ListenerRef c);
      virtualHost ← if_present (λ r, wrap_err "failed to unmarshal virtual host"
                                       (vh ← pb_unmarshal (raw_bytes r); Ok (vhDomains vh))) (VirtualHostRaw c);
      accessLog ← access_log ns c;
      routes ← map_result (resolve (Store.GetRoute store) ns) (AdditionalRoutes c);
      filters ← map_result (resolve (Store.GetHTTPFilter store) ns) (AdditionalHttpFilters c);
      Ok (mkGet (uid vs) (Api.GetLabelName vs) (Api.GetNodeIDs vs) (Api.GetAccessGroup vs) (Api.IsEditable vs)
            (Api.GetDescription vs) (VS_Raw vs) (vs_status vs) (ExtraFields (vs_spec vs))
            template (if template is Some _ then back_option <$> TemplateOptions (vs_spec vs) else []) listener virtualHost
            accessLog routes filters (UseRemoteAddress c)
            ((λ t, mkTLSResponse (refName <$> SecretRef t) (AutoDiscovery t)) <$> TlsCfg c))
  end.

Record VirtualServiceListItem := mkVSItem {
  vUid : string; vName : string; vNodeIds : list string; vAccessGroup : string; vDescription : string;
  vStatus : VSObjStatus; vExtraFields : gmap string string; vTemplate : option ObjRef; vIsEditable : bool
}.
Definition list_item (accessGroup : string) (v : VirtualService) (template : option ObjRef) : VirtualServiceListItem :=
  mkVSItem (uid v) (Api.GetLabelName v) (Api.GetNodeIDs v) accessGroup (Api.GetDescription v) (vs_status v)
    (ExtraFields (vs_spec v)) template (Api.IsEditable v).
Definition list_step (authorizer : IAuthorizer) (accessGroup : string) (v : VirtualService)
  : result (option VirtualServiceListItem) :=
  let ag := Api.GetAccessGroup v in
  let vsAccessGroup := if decide (ag = "") then GeneralAccessGroup else ag in
  isAllowed ← Authorize authorizer vsAccessGroup (Name (meta v));
  if negb isAllowed then Ok None
  else if decide (accessGroup ≠ vsAccessGroup) then Ok None
  else match Template (vs_spec v) with
       | None => Ok (Some (list_item vsAccessGroup v None))
       | Some ref =>
           match Store.GetVirtualServiceTemplate store
                   (Helpers.mkNN (Helpers.GetNamespace (refNamespace ref) (Namespace (meta v))) (refName ref)) with
           | None => Ok None
           | Some template => Ok (Some (list_item vsAccessGroup v (Some (obj_ref template))))
           end
       end.
(** [order] is the order in which Go visits the map of services. *)
Definition ListVirtualServices (info : option Authorizer) (accessGroup : string) (order : list VirtualService)
  : result (list VirtualServiceListItem) :=
  if decide (accessGroup = "") then Err (ErrNew "access group is required")
  else list ← collect (list_step (GetAuthorizerFromContext info) accessGroup) order; Ok (sort_by_key vName list).
End get.

(** ** Names and domains *)
Definition chars (s : string) : list ascii := String.list_ascii_of_string s.
Lemma length_chars s : length (chars s) = String.length s.
Proof. induction s as [|c s IH]; cbn; [done|]. by f_equal. Qed.

Definition name_char (c : ascii) : Prop := alnum c || is_hyphen c = true.
Definition ends_alnum (o : option ascii) : Prop := ∃ c, o = Some c ∧ alnum c = true.

Lemma matches_tail_spec s :
  matches_tail s = true ↔ Forall name_char (chars s) ∧ ends_alnum (last (chars s)).
Proof.
  induction s as [|c [|d s] IH].
  - cbn. split; [done|]. by intros [_ (c & [=] & _)].
  - cbn. split.
    + intros Hc. split; [|by exists c]. constructor; [|constructor]. unfold name_char. by rewrite Hc.
    + by intros [_ (? & [= <-] & ?)].
  - cbn [matches_tail]. rewrite andb_true_iff. setoid_rewrite IH.
    change (chars (String c (String d s))) with (c :: chars (String d s)). rewrite Forall_cons.
    change (last (c :: chars (String d s))) with (last (chars (String d s))). tauto.
Qed.

(** A name is accepted exactly when it has between two and two hundred bytes,
    all of them lowercase letters, digits or hyphens, and neither the first nor the
    last is a hyphen. *)
Theorem validateName_spec name :
  validateName name = Ok tt ↔
  2 ≤ String.length name ≤ 200 ∧ Forall name_char (chars name) ∧
  ends_alnum (head (chars name)) ∧ ends_alnum (last (chars name)).
Proof.
  unfold validateName. case_decide as Hl; [split; [done|lia]|].
  destruct (matches_name name) eqn:Hm; cbn; (split; [intros Hv|intros (Hlen & Hall & Hh & Ht)]); try done.
  - destruct name as [|c s]; [done|]. cbn [matches_name] in Hm. apply andb_true_iff in Hm as [Hc Ht%matches_tail_spec].
    destruct s as [|d s]; [by destruct Ht as [_ (? & [=] & _)]|]. destruct Ht as [Ht1 Ht2].
    split_and!; [cbn; lia|lia| |by exists c|done].
    change (chars _) with (c :: chars (String d s)). constructor; [|done]. unfold name_char. by rewrite Hc.
  - exfalso. destruct name as [|c [|d s]]; [cbn in *; lia..|]. cbn [matches_name] in Hm.
    apply not_true_iff_false in Hm. apply Hm, andb_true_iff. split; [by destruct Hh as (? & [= <-] & ?)|].
    apply matches_tail_spec. apply Forall_cons in Hall as [_ Hall]. done.
Qed.

(** A label of a domain name: letters, digits and hyphens, at most 63 of them, no
    hyphen at the ends. *)
Definition ldh (c : ascii) : Prop := is_lower c || is_upper c || is_digit c || is_hyphen c = true.
Definition label_ok (part : string) : Prop :=
  1 ≤ String.length part ≤ 63 ∧ Forall ldh (chars part) ∧
  head (chars part) ≠ Some GoStrings.dash ∧ last (chars part) ≠ Some GoStrings.dash.

Lemma label_chars_spec len i part :
  len = i + String.length part →
  label_chars len i part = Ok tt ↔
  Forall ldh (chars part) ∧ (i = 0 → head (chars part) ≠ Some GoStrings.dash) ∧
  last (chars part) ≠ Some GoStrings.dash.
Proof.
  revert i. induction part as [|c s IH]; intros i Hlen; [by cbn|].
  cbn [label_chars]. change (chars (String c s)) with (c :: chars s). rewrite Forall_cons. cbn [head].
  assert (String.length s = 0 ↔ s = "") as Hs by (destruct s; cbn; naive_solver lia). cbn in Hlen.
  case_decide as Hd.
  - destruct Hd as [[Hi| Hi] ->]; (split; [done|]); intros (_ & Hhd & Hls).
    + by specialize (Hhd Hi).
    + assert (s = "") as -> by (apply Hs; lia). done.
  - destruct (is_lower c || is_upper c || is_digit c || is_hyphen c) eqn:Hc; cbn.
    2:{ split; [done|]. intros [[Hf _] _]. unfold ldh in Hf. congruence. }
    rewrite IH by lia. destruct s as [|d s].
    + cbn. split; [|naive_solver]. intros _. split_and!; [done|constructor|naive_solver|].
      intros [= ->]. apply Hd. split; [right; cbn in Hlen; lia|done].
    + change (last (c :: chars (String d s))) with (last (chars (String d s))).
      split; [intros (? & _ & ?); split_and!; [done..|naive_solver|done]|naive_solver].
Qed.
Lemma validate_label_spec part : validate_label part = Ok tt ↔ label_ok part.
Proof.
  unfold validate_label, label_ok. case_decide; [split; [done|lia]|]. case_decide; [split; [done|lia]|].
  rewrite label_chars_spec by lia. naive_solver lia.
Qed.

Lemma ldh_dot : ¬ ldh GoStrings.dot.
Proof. by vm_compute. Qed.
Lemma ldh_star : ¬ ldh GoStrings.star.
Proof. by vm_compute. Qed.
Lemma label_free part : Forall ldh (chars part) → GoStrings.free_of GoStrings.dot part.
Proof.
  induction part as [|c s IH]; [done|]. change (chars (String c s)) with (c :: chars s).
  intros [Hc Hs]%Forall_cons. apply GoStrings.free_of_cons. split; [|by apply IH].
  intros ->. by apply ldh_dot in Hc.
Qed.
Lemma trim_labels labels :
  Forall label_ok labels → trim_wildcard (GoStrings.Join GoStrings.dot labels) = GoStrings.Join GoStrings.dot labels.
Proof.
  intros Hall. destruct labels as [|[|c s] ls]; [done| |].
  { apply Forall_cons in Hall as [[? _] _]. cbn in *; lia. }
  apply Forall_cons in Hall as [(_ & [Hc _]%Forall_cons & _) _].
  assert (c ≠ GoStrings.star) as Hne.
  { intros ->. by apply ldh_star in Hc. }
  assert (∀ t, trim_wildcard (String c t) = String c t) as Ht.
  { intros [|d t]; cbn; [done|]. rewrite decide_False; [done|]. by intros [? _]. }
  destruct ls; cbn [GoStrings.Join]; rewrite ?GoStrings.str_app_cons; apply Ht.
Qed.

(** A domain is accepted exactly when it is the wildcard or, within 255 bytes,
    a sequence of well-formed labels joined by dots, with or without a leading
    wildcard label. *)
Theorem validateDomain_spec domain :
  validateDomain domain = Ok tt ↔
  domain = "*" ∨
  String.length domain ≤ 255 ∧ ∃ labels, labels ≠ [] ∧ Forall label_ok labels ∧
    (domain = GoStrings.Join GoStrings.dot labels ∨ domain = "*." +:+ GoStrings.Join GoStrings.dot labels).
Proof.
  assert (∀ d, (_ ← map_result validate_label (GoStrings.Split GoStrings.dot d); Ok tt) = Ok tt ↔
    Forall label_ok (GoStrings.Split GoStrings.dot d)) as Hlab.
  { intros d. split.
    - intros (us & Hus%Api.map_result_unit_Ok & _)%bind_Ok_inv. eapply Forall_impl; [exact Hus|].
      intros; by apply validate_label_spec.
    - intros Hall. rewrite Api.map_result_unit_Ok'; [done|]. eapply Forall_impl; [exact Hall|].
      intros; by apply validate_label_spec. }
  assert (∀ labels, labels ≠ [] → Forall label_ok labels →
    GoStrings.Split GoStrings.dot (GoStrings.Join GoStrings.dot labels) = labels) as Hsplit.
  { intros labels Hne Hall. apply GoStrings.Split_Join; [done|]. eapply Forall_impl; [exact Hall|].
    intros part Hp. by apply label_free, Hp. }
  unfold validateDomain. case_decide as He.
  { subst. split; [done|]. intros [?|(_ & [|[|] [|]] & Hne & Hall & [Hd|Hd])]; try done.
    all: apply Forall_cons in Hall as [[? _] _]; cbn in *; lia. }
  case_decide as Hl; [split; [done|intros [->|[? _]]; [cbn in Hl|]; lia]|].
  case_decide as Hw; [naive_solver|]. rewrite Hlab. split.
  - intros Hall. right. split; [lia|]. exists (GoStrings.Split GoStrings.dot (trim_wildcard domain)).
    split_and!; [apply GoStrings.Split_not_nil|done|]. rewrite GoStrings.Join_Split. unfold trim_wildcard.
    destruct domain as [|c [|d rest]]; [by left..|]. case_decide as Hc; [|by left]. right. by destruct Hc as [-> ->].
  - intros [?|(_ & labels & Hne & Hall & [->| ->])]; [done|..].
    + by rewrite trim_labels, Hsplit.
    + change (trim_wildcard _) with (GoStrings.Join GoStrings.dot labels). by rewrite Hsplit.
Qed.

Lemma validate_domains_Ok vh : validate_domains vh = Ok tt → ∀ d, d ∈ default [] vh → validateDomain d = Ok tt.
Proof.
  intros Hval d Hd. unfold validate_domains in Hval. destruct vh as [ds|]; [|by apply not_elem_of_nil in Hd].
  apply bind_Ok_inv in Hval as (us & Hus%Api.map_result_unit_Ok & _). rewrite Forall_forall in Hus.
  by apply Hus, wrap_err_Ok in Hd.
Qed.

(** ** What a request makes of a service *)
Section steps.
Context (authorizer : IAuthorizer) (accessGroup : string).
(** The object a UID names, which the user may list in the access group. *)
Definition may_use {R} `{!HasMeta R} (action : string) (get : string → option R) (u : string) (r : R) : Prop :=
  get u = Some r ∧ AuthorizeCommonObjectWithAction authorizer accessGroup (Name (meta r)) action = Ok true.

Lemma permitted_object_Ok {R} `{!HasMeta R} action (get : string → option R) u missing denied r :
  permitted_object authorizer action accessGroup (get u) missing denied = Ok r → may_use action get u r.
Proof.
  unfold permitted_object. destruct (get u) as [r'|] eqn:Hg; [|done].
  intros (ok & Ha & (? & Hf & [= ->])%bind_Ok_inv)%bind_Ok_inv. by destruct ok.
Qed.

Section append.
Context {R : Type} `{!HasMeta R} (action : string) (get : string → option R) (missing denied : string → string).
Context (sel : CommonSpec → list ResourceRef) (upd : list ResourceRef → CommonSpec → CommonSpec).
Context (sel_upd : ∀ l c, sel (upd l c) = l) (upd_upd : ∀ l l' c, upd l (upd l' c) = upd l c)
  (upd_sel : ∀ c, upd (sel c) c = c).
(** A loop that appends one permitted reference per UID. *)
Lemma append_refs_Ok uids vs vs' :
  for_each (λ u, r ← lift (permitted_object authorizer action accessGroup (get u) (missing u) (denied u));
                 edit (set_common (λ c, upd (sel c ++ [ref_to r]) c))) uids vs = (Ok tt, vs') →
  ∃ rs, Forall2 (may_use action get) uids rs ∧ vs' = set_common (λ c, upd (sel c ++ (ref_to <$> rs)) c) vs.
Proof.
  revert vs. induction uids as [|u uids IH]; intros vs; cbn [for_each].
  - intros [= <-]. exists []. split; [constructor|]. destruct vs as [m [c t o e] st]. unfold set_common. cbn.
    by rewrite app_nil_r, upd_sel.
  - intros (? & s1 & H1 & H)%stM_bind_Ok. apply stM_bind_Ok in H1 as (r & s2 & Hr & [= <- <-]).
    apply lift_Ok in Hr as [Hr ->]. apply permitted_object_Ok in Hr. apply IH in H as (rs & Hrs & ->).
    exists (r :: rs). split; [by constructor|]. destruct vs as [m [c t o e] st].
    unfold set_common. cbn [vs_spec vs_meta vs_status Common Template TemplateOptions ExtraFields].
    rewrite sel_upd, upd_upd, <-app_assoc. done.
Qed.
End append.

Context (store : Store.OptimizedStore).
Lemma processTemplate_Ok u opts vs vs' :
  processTemplate store authorizer accessGroup u opts vs = (Ok tt, vs') →
  ∃ t, may_use ActionListVirtualServiceTemplates (Store.GetVirtualServiceTemplateByUID store) u t ∧
    vs' = set_template (Some (ref_to t)) (set_templateOptions
            (if decide (opts = []) then TemplateOptions (vs_spec vs) else convert_option <$> opts) vs).
Proof.
  unfold processTemplate. intros (t & s1 & [Ht ->]%lift_Ok & (? & s2 & [= <- <-] & Hf)%stM_bind_Ok)%stM_bind_Ok.
  exists t. split; [by eapply permitted_object_Ok|].
  destruct opts; cbn in Hf; injection Hf as <-; by destruct vs as [? [] ?].
Qed.
(** A reference that is not given stays as it is. *)
Definition listener_after (u : string) (old new : option ResourceRef) : Prop :=
  if decide (u = "") then new = old
  else ∃ l, may_use ActionListListeners (Store.GetListenerByUID store) u l ∧ new = Some (ref_to l).
Lemma processListener_Ok u vs vs' :
  processListener store authorizer accessGroup u vs = (Ok tt, vs') →
  ∃ new, listener_after u (ListenerRef (Common (vs_spec vs))) new ∧ vs' = set_common (with_listener new) vs.
Proof.
  unfold processListener, listener_after. case_decide.
  - intros [= <-]. eexists. split; [done|]. by destruct vs as [? [[] ? ? ?] ?].
  - intros (l & s1 & [Hl ->]%lift_Ok & [= <-])%stM_bind_Ok. eexists. split; [|done].
    exists l. split; [by eapply permitted_object_Ok|done].
Qed.
Definition vhost_after {VM : VHostMarshal} (name : string) (vh : option (list string)) (old new : option RawExtension)
  : Prop :=
  match vh with
  | None => new = old
  | Some ds => ∃ s, vhost_Marshal (mkVH (name +:+ "-virtual-host") ds [] "") = Ok s ∧ new = Some (mkRaw (Some s) None)
  end.
Lemma processVirtualHost_Ok {VM : VHostMarshal} vh vs vs' :
  processVirtualHost vh vs = (Ok tt, vs') →
  ∃ new, vhost_after (Name (meta vs)) vh (VirtualHostRaw (Common (vs_spec vs))) new ∧
    vs' = set_common (with_virtualHost new) vs.
Proof.
  destruct vh as [ds|]; cbn.
  - intros (s & s1 & [Hs%wrap_err_Ok ->]%lift_Ok & [= <-])%stM_bind_Ok. eexists. split; [by exists s|done].
  - intros [= <-]. eexists. split; [done|]. by destruct vs as [? [[] ? ? ?] ?].
Qed.
Definition logs_after (uids : option (list string)) (old new : list ResourceRef) : Prop :=
  if decide (default [] uids = []) then new = old
  else ∃ als, Forall2 (may_use ActionListAccessLogConfigs (Store.GetAccessLogByUID store)) (default [] uids) als ∧
         new = ref_to <$> als.
Lemma processAccessLogConfigs_Ok uids vs vs' :
  processAccessLogConfigs store authorizer accessGroup uids vs = (Ok tt, vs') →
  ∃ new, logs_after uids (AccessLogConfigRefs (Common (vs_spec vs))) new ∧
    vs' = set_common (with_accessLogConfigs new) vs.
Proof.
  unfold processAccessLogConfigs, logs_after. destruct (default [] uids) as [|u us].
  - intros [= <-]. eexists. split; [done|]. by destruct vs as [? [[] ? ? ?] ?].
  - intros (? & s1 & [= <- <-] & Hf)%stM_bind_Ok.
    apply (append_refs_Ok _ _ _ _ AccessLogConfigRefs with_accessLogConfigs) in Hf as (als & Hals & ->);
      [|done|done|by intros []].
    eexists. split; [by exists als|done].
Qed.
Lemma processAdditionalRoutes_Ok uids vs vs' :
  processAdditionalRoutes store authorizer accessGroup uids vs = (Ok tt, vs') →
  ∃ rs, Forall2 (may_use ActionListRoutes (Store.GetRouteByUID store)) uids rs ∧
    vs' = set_common (λ c, with_routes (AdditionalRoutes c ++ (ref_to <$> rs)) c) vs.
Proof. intros H. eapply append_refs_Ok in H as (rs & Hrs & ->); [by exists rs|done|done|by intros []]. Qed.
Lemma processAdditionalHTTPFilters_Ok uids vs vs' :
  processAdditionalHTTPFilters store authorizer accessGroup uids vs = (Ok tt, vs') →
  ∃ fs, Forall2 (may_use ActionListHTTPFilters (Store.GetHTTPFilterByUID store)) uids fs ∧
    vs' = set_common (λ c, with_filters (AdditionalHttpFilters c ++ (ref_to <$> fs)) c) vs.
Proof. intros H. eapply append_refs_Ok in H as (fs & Hfs & ->); [by exists fs|done|done|by intros []]. Qed.
End steps.

(** *** Creation *)
Section created.
Context {VM : VHostMarshal} (store : Store.OptimizedStore) (targetNs : string) (info : option Authorizer).
Local Abbreviation uses req := (may_use (GetAuthorizerFromContext info) (crAccessGroup req)) (only parsing).

(** The service a creation request describes, its references being objects of the
    store the user may list in the access group. *)
Record describes (req : CreateVirtualServiceRequest) (vs : VirtualService) : Prop := {
  d_name : Name (meta vs) = crAccessGroup req +:+ "-" +:+ crName req;
  d_namespace : Namespace (meta vs) = targetNs;
  d_label : Api.GetLabelName vs = crName req;
  d_accessGroup : crAccessGroup req ≠ "" → Api.GetAccessGroup vs = crAccessGroup req;
  d_editable : Api.IsEditable vs = true;
  d_description : Api.GetDescription vs = crDescription req;
  d_nodeIDs : crNodeIds req ≠ [] →
    nilmap_get (Annotations (meta vs)) Api.AnnotationNodeIDs = Some (GoStrings.Join GoStrings.comma (crNodeIds req));
  d_extraFields : ExtraFields (vs_spec vs) = crExtraFields req;
  d_template : ∃ t, uses req ActionListVirtualServiceTemplates (Store.GetVirtualServiceTemplateByUID store) (crTemplateUid req) t ∧
    Template (vs_spec vs) = Some (ref_to t);
  d_options : TemplateOptions (vs_spec vs) = convert_option <$> crTemplateOptions req;
  d_listener : listener_after (GetAuthorizerFromContext info) (crAccessGroup req) store (crListenerUid req) None
    (ListenerRef (Common (vs_spec vs)));
  d_virtualHost : vhost_after (Name (meta vs)) (crVirtualHost req) None (VirtualHostRaw (Common (vs_spec vs)));
  d_accessLogs : logs_after (GetAuthorizerFromContext info) (crAccessGroup req) store (crAccessLogConfigUids req) []
    (AccessLogConfigRefs (Common (vs_spec vs)));
  d_routes : ∃ rs, Forall2 (uses req ActionListRoutes (Store.GetRouteByUID store)) (crAdditionalRouteUids req) rs ∧
    AdditionalRoutes (Common (vs_spec vs)) = ref_to <$> rs;
  d_filters : ∃ fs, Forall2 (uses req ActionListHTTPFilters (Store.GetHTTPFilterByUID store))
      (crAdditionalHttpFilterUids req) fs ∧ AdditionalHttpFilters (Common (vs_spec vs)) = ref_to <$> fs;
  d_useRemoteAddress : UseRemoteAddress (Common (vs_spec vs)) = crUseRemoteAddress req;
  d_rest : let c := Common (vs_spec vs) in
    c = mkCommon (VirtualHostRaw c) (ListenerRef c) None None [] None (AccessLogConfigRefs c) (AdditionalHttpFilters c)
          (AdditionalRoutes c) [] (UseRemoteAddress c) None None None None None None
}.

Lemma described_rest req vs : describes req vs →
  AccessLogConfigRef (Common (vs_spec vs)) = None ∧ AccessLog (Common (vs_spec vs)) = None ∧
  AccessLogs (Common (vs_spec vs)) = [] ∧ TlsCfg (Common (vs_spec vs)) = None.
Proof. intros Hd. pose proof (d_rest _ _ Hd) as ->. done. Qed.

(** The metadata of a new service before its description is set. *)
Definition new_annotations (req : CreateVirtualServiceRequest) : gmap string string :=
  if decide (length (crNodeIds req) = 0) then delete Api.AnnotationNodeIDs {[Api.AnnotationEditable := "true"]}
  else <[Api.AnnotationNodeIDs := GoStrings.Join GoStrings.comma (crNodeIds req)]> {[Api.AnnotationEditable := "true"]}.
Definition new_meta (req : CreateVirtualServiceRequest) : ObjectMeta :=
  mkMeta (crAccessGroup req +:+ "-" +:+ crName req) targetNs "" 0 (Some (new_annotations req))
    (Some (<[Api.LabelAccessGroup := crAccessGroup req]> {[Api.LabelName := crName req]})).
Lemma new_annotations_editable req : new_annotations req !! Api.AnnotationEditable = Some "true".
Proof.
  unfold new_annotations. case_decide; [rewrite lookup_delete_ne by done|rewrite lookup_insert_ne by done];
    apply lookup_singleton_eq.
Qed.
Lemma new_annotations_nodeIDs req :
  crNodeIds req ≠ [] →
  new_annotations req !! Api.AnnotationNodeIDs = Some (GoStrings.Join GoStrings.comma (crNodeIds req)).
Proof.
  intros Hne. unfold new_annotations. rewrite decide_False by (by destruct (crNodeIds req)). by rewrite lookup_insert_eq.
Qed.
Lemma initialize_Ok req :
  initializeVirtualService targetNs req =
  (Ok tt, mkVS (new_meta req) (mkVSSpec empty_common None [] (crExtraFields req)) (mkVSObjStatus "" false)).
Proof.
  unfold initializeVirtualService, new_meta, new_annotations, set_nodeIDs, Api.SetNodeIDs, mbind, stM_bind, edit. cbn -[GoStrings.Join].
  by case_decide.
Qed.

Lemma create_service_describes req vs :
  create_service store info req
    (mkVS (new_meta req) (mkVSSpec empty_common None [] (crExtraFields req)) (mkVSObjStatus "" false)) = (Ok tt, vs) →
  describes req vs.
Proof.
  unfold create_service. cbv zeta.
  intros (? & s1 & H1 & (? & s2 & H2 & (? & s3 & H3 & (? & s4 & H4 & H)%stM_bind_Ok)%stM_bind_Ok)%stM_bind_Ok)%stM_bind_Ok.
  apply stM_bind_Ok in H as (? & s5 & H5 & H). apply stM_bind_Ok in H as (? & s6 & H6 & H).
  apply stM_bind_Ok in H as (? & s7 & [= <- <-] & [= <-]).
  repeat match goal with u : unit |- _ => destruct u end.
  apply processTemplate_Ok in H1 as (t & Ht & ->). apply processListener_Ok in H2 as (lref & Hl & ->).
  apply processVirtualHost_Ok in H3 as (vh & Hv & ->). apply processAccessLogConfigs_Ok in H4 as (als & Ha & ->).
  apply processAdditionalRoutes_Ok in H5 as (rs & Hrs & ->). apply processAdditionalHTTPFilters_Ok in H6 as (fs & Hfs & ->).
  split; cbn -[new_annotations]; try done; try (by eauto).
  - intros Hag. unfold Api.GetAccessGroup. cbn. rewrite lookup_insert_eq. cbn. by rewrite decide_False.
  - unfold Api.IsEditable. cbn -[new_annotations]. rewrite lookup_insert_ne by done.
    by rewrite new_annotations_editable.
  - by rewrite lookup_insert_eq.
  - intros Hne. rewrite lookup_insert_ne by done. by apply new_annotations_nodeIDs.
  - by case_decide as Ho; [rewrite Ho|].
Qed.

Context (build : VirtualService → Store.OptimizedStore → result Updater.Resources * VSObjStatus) (client : Client).
Lemma create_call_inv copyStore req r call :
  CreateVirtualService build store client targetNs info copyStore (Some req) = (r, Some call) →
  ∃ vs res st, call = CallCreate (set_vstatus st vs) ∧ describes req vs ∧ build vs copyStore = (Ok res, st) ∧
    Authorize (GetAuthorizerFromContext info) (crAccessGroup req) (crName req) = Ok true ∧
    crAccessGroup req ≠ "" ∧ crAccessGroup req ≠ GeneralAccessGroup ∧ crNodeIds req ≠ [] ∧ crTemplateUid req ≠ "" ∧
    validateName (crName req) = Ok tt ∧
    ∀ d, d ∈ default [] (crVirtualHost req) → validateDomain d = Ok tt.
Proof.
  unfold CreateVirtualService. cbv zeta.
  match goal with |- context [match ?m with Ok _ => _ | Err _ => _ end] => destruct m as [vs|e] eqn:Hready; [|done] end.
  unfold buildAndCreateVirtualService. destruct (build vs copyStore) as [[res|e] st] eqn:Hb; [|done]. intros [= _ <-].
  apply bind_Ok_inv in Hready as ([] & Hval & Hready). apply bind_Ok_inv in Hready as (ok & Hauth & Hready).
  apply bind_Ok_inv in Hready as ([] & Hok & Hready). destruct ok; [|done]. rewrite initialize_Ok in Hready. cbn in Hready.
  destruct (create_service store info req _) as [[[]|e] vs1] eqn:Hc; [|done]. injection Hready as ->.
  apply create_service_describes in Hc. exists vs, res, st.
  unfold validateCreateVirtualServiceRequest in Hval.
  apply bind_Ok_inv in Hval as ([] & H1%Api.fail_if_Ok%bool_decide_eq_false & Hval).
  apply bind_Ok_inv in Hval as ([] & H2%Api.fail_if_Ok%bool_decide_eq_false & Hval).
  apply bind_Ok_inv in Hval as ([] & H3%Api.fail_if_Ok%bool_decide_eq_false & Hval).
  apply bind_Ok_inv in Hval as ([] & H5%Api.fail_if_Ok%bool_decide_eq_false & Hval).
  apply bind_Ok_inv in Hval as ([] & _ & Hval). apply bind_Ok_inv in Hval as ([] & H4%wrap_err_Ok & Hval).
  split_and!; try done; [by destruct (crNodeIds req)|by apply validate_domains_Ok].
Qed.

(** C14. A service is sent to Kubernetes only for a valid request, when the user may
    create it in the access group and every object it refers to is one of the store
    that the user may list there, and when its resources build; what is sent is the
    service the request describes. *)
Theorem CreateVirtualService_safe copyStore req r call :
  CreateVirtualService build store client targetNs info copyStore (Some req) = (r, Some call) →
  ∃ vs res st, call = CallCreate (set_vstatus st vs) ∧ describes req vs ∧ build vs copyStore = (Ok res, st) ∧
    Authorize (GetAuthorizerFromContext info) (crAccessGroup req) (crName req) = Ok true ∧
    crAccessGroup req ≠ "" ∧ crAccessGroup req ≠ GeneralAccessGroup ∧ crNodeIds req ≠ [] ∧ crTemplateUid req ≠ "" ∧
    validateName (crName req) = Ok tt ∧
    ∀ d, d ∈ default [] (crVirtualHost req) → validateDomain d = Ok tt.
Proof. apply create_call_inv. Qed.
End created.

(** *** Reading back what was created *)
Definition set_uid (u : string) (vs : VirtualService) : VirtualService :=
  let m := meta vs in with_meta vs (mkMeta (Name m) (Namespace m) u (Generation m) (Annotations m) (Labels m)).

Section roundtrip.
Context {GL : GrpcLib} {JL : Api.JsonLib} `{PV : !ProtoMessage VirtualHost} {VM : VHostMarshal}.
Context (targetNs : string) (info : option Authorizer).

Lemma resolve_ref_to {R} `{!HasMeta R} own (ix : Store.Index.t R) ns u (r : R) :
  Store.Index.wf own ix → Store.Index.byUID ix !! u = Some r →
  resolve (λ n, Store.Index.items ix !! n) ns (ref_to r) = Ok (mkObjRef u (Name (meta r))).
Proof.
  intros Hwf Hu. apply (Store.Index.wf_uid _ _ Hwf) in Hu as [Hi Hu]. unfold resolve, ref_to, obj_ref.
  cbn [refNamespace refName Helpers.GetNamespace]. change (Helpers.mkNN _ _) with (key r). rewrite Hi. by rewrite Hu.
Qed.
Lemma resolve_refs {R} `{!HasMeta R} own (ix : Store.Index.t R) ns (P : R → Prop) us (rs : list R) :
  Store.Index.wf own ix → Forall2 (λ u r, Store.Index.byUID ix !! u = Some r ∧ P r) us rs →
  ∃ os, map_result (resolve (λ n, Store.Index.items ix !! n) ns) (ref_to <$> rs) = Ok os ∧ oUid <$> os = us.
Proof.
  intros Hwf. induction 1 as [|u r us rs [Hu _] _ (os & Hos & Hus)]; [by exists []|].
  exists (mkObjRef u (Name (meta r)) :: os). cbn. rewrite (resolve_ref_to own ix ns u r), Hos; [|done..].
  cbn. by rewrite Hus.
Qed.

(** What the answer says, field by field. *)
Definition answers (req : CreateVirtualServiceRequest) (u : string) (resp : GetVirtualServiceResponse) : Prop :=
  gUid resp = u ∧ gName resp = crName req ∧ gNodeIds resp = crNodeIds req ∧ gAccessGroup resp = crAccessGroup req ∧
  gIsEditable resp = true ∧ gDescription resp = crDescription req ∧ gExtraFields resp = crExtraFields req ∧
  oUid <$> gTemplate resp = Some (crTemplateUid req) ∧ gTemplateOptions resp = crTemplateOptions req ∧
  oUid <$> gListener resp = (if decide (crListenerUid req = "") then None else Some (crListenerUid req)) ∧
  gVirtualHost resp = crVirtualHost req ∧
  (if decide (default [] (crAccessLogConfigUids req) = []) then gAccessLog resp = None
   else ∃ refs, gAccessLog resp = Some (LogConfigs refs) ∧ Some (oUid <$> refs) = crAccessLogConfigUids req) ∧
  oUid <$> gAdditionalRoutes resp = crAdditionalRouteUids req ∧
  oUid <$> gAdditionalHttpFilters resp = crAdditionalHttpFilterUids req ∧
  gUseRemoteAddress resp = crUseRemoteAddress req ∧ gTlsConfig resp = None.

Section parts.
Context (own : string → NN) (store : Store.OptimizedStore) (req : CreateVirtualServiceRequest) (vs : VirtualService).
Context (Hd : describes store targetNs info req vs).
Let c := Common (vs_spec vs).
Let ns := Namespace (meta vs).

Lemma template_part : Store.Index.wf own (Store.virtualServiceTemplates store) →
  ∃ n, if_present (resolve (Store.GetVirtualServiceTemplate store) ns) (Template (vs_spec vs)) =
    Ok (Some (mkObjRef (crTemplateUid req) n)).
Proof.
  intros Hwf. destruct (d_template _ _ _ _ _ Hd) as (t & [Ht _] & ->). eexists. unfold Store.GetVirtualServiceTemplate.
  cbn. by rewrite (resolve_ref_to own _ ns _ _ Hwf Ht).
Qed.
Lemma options_part : back_option <$> TemplateOptions (vs_spec vs) = crTemplateOptions req.
Proof.
  rewrite (d_options _ _ _ _ _ Hd), <-list_fmap_compose. etrans; [|apply list_fmap_id].
  apply list_fmap_ext. intros i [f m] _. cbn. by destruct m.
Qed.
Lemma listener_part : Store.Index.wf own (Store.listeners store) →
  ∃ o, if_present (resolve (Store.GetListener store) ns) (ListenerRef c) = Ok o ∧
    oUid <$> o = if decide (crListenerUid req = "") then None else Some (crListenerUid req).
Proof.
  intros Hwf. pose proof (d_listener _ _ _ _ _ Hd) as Hl. unfold listener_after in Hl. unfold c. case_decide.
  - rewrite Hl. by exists None.
  - destruct Hl as (l & [Hl _] & ->). eexists. unfold Store.GetListener. cbn.
    by rewrite (resolve_ref_to own _ ns _ _ Hwf Hl).
Qed.
Lemma vhost_part : (∀ vh s, vhost_Marshal vh = Ok s → pb_unmarshal s = Ok vh) →
  if_present (λ r, wrap_err "failed to unmarshal virtual host" (vh ← pb_unmarshal (raw_bytes r); Ok (vhDomains vh)))
    (VirtualHostRaw c) = Ok (crVirtualHost req).
Proof.
  intros Hlaw. pose proof (d_virtualHost _ _ _ _ _ Hd) as Hv. unfold vhost_after in Hv. unfold c.
  destruct (crVirtualHost req) as [ds|]; [|by rewrite Hv]. destruct Hv as (s & Hs & ->). cbn.
  by rewrite (Hlaw _ _ Hs).
Qed.
Lemma logs_part : Store.Index.wf own (Store.accessLogs store) →
  ∃ o, access_log store ns c = Ok o ∧
    if decide (default [] (crAccessLogConfigUids req) = []) then o = None
    else ∃ refs, o = Some (LogConfigs refs) ∧ Some (oUid <$> refs) = crAccessLogConfigUids req.
Proof.
  intros Hwf. destruct (described_rest _ _ _ _ _ Hd) as (H1 & H2 & H3 & _).
  pose proof (d_accessLogs _ _ _ _ _ Hd) as Hl. unfold logs_after in Hl. unfold access_log, c, Store.GetAccessLog.
  rewrite H1, H2, H3. case_decide as Hu.
  - rewrite Hl. by exists None.
  - destruct Hl as (als & Hals & ->). destruct (resolve_refs own _ ns _ _ _ Hwf Hals) as (os & Hos & Hus).
    assert (0 < length (ref_to <$> als)) as Hpos.
    { apply Forall2_length in Hals. rewrite length_fmap. destruct (default [] (crAccessLogConfigUids req)); [done|].
      cbn in Hals. lia. }
    cbn -[fmap]. rewrite Hos. cbn -[fmap]. rewrite (decide_True _ _ Hpos). eexists. split; [done|].
    exists os. split; [done|]. rewrite Hus. by destruct (crAccessLogConfigUids req).
Qed.
Lemma nodes_part :
  crNodeIds req ≠ [] → NoDup (crNodeIds req) → crNodeIds req ≠ [""] →
  Forall (λ e, GoStrings.TrimSpace e = e ∧ GoStrings.free_of GoStrings.comma e) (crNodeIds req) →
  Api.GetNodeIDs vs = crNodeIds req.
Proof.
  intros Hne Hnd Hne' Hall. unfold Api.GetNodeIDs. rewrite (d_nodeIDs _ _ _ _ _ Hd Hne). cbn [default].
  apply Forall_and in Hall as [Htrim Hfree].
  assert (GoStrings.Split GoStrings.comma (GoStrings.Join GoStrings.comma (crNodeIds req)) = crNodeIds req) as Hs
    by (by apply GoStrings.Split_Join).
  unfold id. rewrite decide_False; [|intros He; rewrite He in Hs; by apply Hne']. rewrite Hs. by apply Api.dedup_entries_id; [..|set_solver].
Qed.
End parts.

Context (build : VirtualService → Store.OptimizedStore → result Updater.Resources * VSObjStatus) (client : Client).
Context `{PC : !ProtoMessage ClusterV3} (pem : string → option (DomainSecrets.PemBlock * string)).
Context (parse : string → result DomainSecrets.Time) (own spec_own : string → NN).
(** C26. Reading a service back shows what its creation asked for: once the server has
    given the created object a UID (not the empty one) and the store has it, the
    answer carries the name, access group, node IDs, description, extra fields,
    options, domains and the UIDs of every object of the request. This is for a
    well-formed store, a marshaller of virtual hosts that its unmarshaller inverts,
    and node IDs that are pairwise distinct, free of commas and of surrounding
    blanks, and not a single empty one (creation accepts others, and the
    annotation they are written to is read back without duplicates and blanks). *)
Theorem create_get_roundtrip store copyStore req r vs u :
  Store.wf pem parse own spec_own store → (∀ vh s, vhost_Marshal vh = Ok s → pb_unmarshal s = Ok vh) →
  CreateVirtualService build store client targetNs info copyStore (Some req) = (r, Some (CallCreate vs)) →
  u ≠ "" → NoDup (crNodeIds req) → crNodeIds req ≠ [""] →
  Forall (λ e, GoStrings.TrimSpace e = e ∧ GoStrings.free_of GoStrings.comma e) (crNodeIds req) →
  ∃ resp, GetVirtualService (Store.SetVirtualService store (set_uid u vs)) u = Ok resp ∧ answers req u resp.
Proof.
  intros Hwf Hlaw (vs0 & res & st & [= ->] & Hd & _ & _ & Hag & _ & Hne & _)%create_call_inv Hu Hnd Hne' Hall.
  unfold GetVirtualService. rewrite bool_decide_eq_false_2 by done. cbn [fail_if mbind result_bind].
  set (vs' := set_uid u (set_vstatus st vs0)).
  unfold Store.SetVirtualService.
  destruct (Store.intern_obj_ok (Store.stringPool store) vs' (Store.wf_pool _ _ _ (Store.wf_base _ _ _ _ _ Hwf)))
    as (sp & -> & _).
  set (s1 := Store.set_stringPool _ _).
  assert (Store.GetVirtualServiceByUID s1 u = Some vs') as ->.
  { unfold s1, Store.GetVirtualServiceByUID. cbn. apply lookup_insert_eq. }
  change (Template (vs_spec vs')) with (Template (vs_spec vs0)).
  change (Common (vs_spec vs')) with (Common (vs_spec vs0)). change (Namespace (meta vs')) with (Namespace (meta vs0)).
  change (TemplateOptions (vs_spec vs')) with (TemplateOptions (vs_spec vs0)).
  destruct (template_part own store req vs0 Hd (Store.wf_vst _ _ _ _ _ Hwf)) as (n & Ht).
  destruct (listener_part own store req vs0 Hd (Store.wf_listeners _ _ _ _ _ Hwf)) as (l & Hl & Hlu).
  pose proof (vhost_part store req vs0 Hd Hlaw) as Hv.
  destruct (logs_part own store req vs0 Hd (Store.wf_accessLogs _ _ _ _ _ Hwf)) as (al & Hal & Halu).
  destruct (d_routes _ _ _ _ _ Hd) as (rs & Hrs & Hr).
  destruct (resolve_refs own _ (Namespace (meta vs0)) _ _ _ (Store.wf_routes _ _ _ _ _ Hwf) Hrs) as (ros & Hros & Hrou).
  destruct (d_filters _ _ _ _ _ Hd) as (fs & Hfs & Hf).
  destruct (resolve_refs own _ (Namespace (meta vs0)) _ _ _ (Store.wf_httpFilters _ _ _ _ _ Hwf) Hfs) as (fos & Hfos & Hfou).
  change (Store.GetVirtualServiceTemplate s1) with (Store.GetVirtualServiceTemplate store).
  change (Store.GetListener s1) with (Store.GetListener store). change (access_log s1) with (access_log store).
  change (Store.GetRoute s1) with (λ n, Store.Index.items (Store.routes store) !! n).
  change (Store.GetHTTPFilter s1) with (λ n, Store.Index.items (Store.httpFilters store) !! n).
  setoid_rewrite Ht. cbn [mbind result_bind]. setoid_rewrite Hl. cbn [mbind result_bind]. setoid_rewrite Hv.
  cbn [mbind result_bind]. setoid_rewrite Hal. cbn [mbind result_bind]. rewrite Hr, Hf. setoid_rewrite Hros.
  cbn [mbind result_bind]. setoid_rewrite Hfos. cbn [mbind result_bind].
  eexists. split; [done|]. unfold answers. cbn -[Api.GetNodeIDs Api.GetLabelName Api.GetAccessGroup Api.IsEditable].
  destruct (described_rest _ _ _ _ _ Hd) as (_ & _ & _ & Htls). split_and!; try done.
  - apply (d_label _ _ _ _ _ Hd).
  - by apply (nodes_part store req vs0 Hd).
  - by apply (d_accessGroup _ _ _ _ _ Hd).
  - apply (d_editable _ _ _ _ _ Hd).
  - apply (d_description _ _ _ _ _ Hd).
  - apply (d_extraFields _ _ _ _ _ Hd).
  - apply (options_part store req vs0 Hd).
  - apply (d_useRemoteAddress _ _ _ _ _ Hd).
  - by rewrite Htls.
Qed.
End roundtrip.

(** *** Update, deletion and listing *)
Section updated.
Context {VM : VHostMarshal} (build : VirtualService → Store.OptimizedStore → result Updater.Resources * VSObjStatus).
Context (store : Store.OptimizedStore) (client : Client) (targetNs : string) (info : option Authorizer).
Local Abbreviation uses old := (may_use (GetAuthorizerFromContext info) (Api.GetAccessGroup old)) (only parsing).

(** What an update makes of a service, every field of it: what the request does not
    give stays. *)
Record updates (req : UpdateVirtualServiceRequest) (old vs : VirtualService) : Prop := {
  u_meta : Name (meta vs) = Name (meta old) ∧ uid vs = uid old ∧ Labels (meta vs) = Labels (meta old) ∧
    Generation (meta vs) = Generation (meta old);
  u_nodeIDs : nilmap_get (Annotations (meta vs)) Api.AnnotationNodeIDs =
    if decide (upNodeIds req = []) then None else Some (GoStrings.Join GoStrings.comma (upNodeIds req));
  u_annotations : ∀ k, k ≠ Api.AnnotationNodeIDs → k ≠ Api.annotationDescription →
    nilmap_get (Annotations (meta vs)) k = nilmap_get (Annotations (meta old)) k;
  u_status : vs_status vs = vs_status old;
  u_namespace : Namespace (meta vs) = targetNs;
  u_description : Api.GetDescription vs = upDescription req;
  u_extraFields : ExtraFields (vs_spec vs) = upExtraFields req;
  u_template : ∃ t, uses old ActionListVirtualServiceTemplates (Store.GetVirtualServiceTemplateByUID store) (upTemplateUid req) t ∧
    Template (vs_spec vs) = Some (ref_to t);
  u_options : TemplateOptions (vs_spec vs) =
    if decide (upTemplateOptions req = []) then TemplateOptions (vs_spec old) else convert_option <$> upTemplateOptions req;
  u_listener : listener_after (GetAuthorizerFromContext info) (Api.GetAccessGroup old) store (upListenerUid req)
    (ListenerRef (Common (vs_spec old))) (ListenerRef (Common (vs_spec vs)));
  u_virtualHost : vhost_after (Name (meta old)) (upVirtualHost req)
    (VirtualHostRaw (Common (vs_spec old))) (VirtualHostRaw (Common (vs_spec vs)));
  u_accessLogs : logs_after (GetAuthorizerFromContext info) (Api.GetAccessGroup old) store (upAccessLogConfigUids req)
    (AccessLogConfigRefs (Common (vs_spec old))) (AccessLogConfigRefs (Common (vs_spec vs)));
  u_routes : ∃ rs, Forall2 (uses old ActionListRoutes (Store.GetRouteByUID store)) (upAdditionalRouteUids req) rs ∧
    AdditionalRoutes (Common (vs_spec vs)) = ref_to <$> rs;
  u_filters : ∃ fs, Forall2 (uses old ActionListHTTPFilters (Store.GetHTTPFilterByUID store))
      (upAdditionalHttpFilterUids req) fs ∧ AdditionalHttpFilters (Common (vs_spec vs)) = ref_to <$> fs;
  u_useRemoteAddress : UseRemoteAddress (Common (vs_spec vs)) =
    match upUseRemoteAddress req with Some b => Some b | None => UseRemoteAddress (Common (vs_spec old)) end;
  u_rest : let c := Common (vs_spec old) in let c' := Common (vs_spec vs) in
    c' = mkCommon (VirtualHostRaw c') (ListenerRef c') (TlsCfg c) (AccessLog c) (AccessLogs c) (AccessLogConfigRef c)
           (AccessLogConfigRefs c') (AdditionalHttpFilters c') (AdditionalRoutes c') (HTTPFilters c) (UseRemoteAddress c')
           (UpgradeConfigs c) (RBAC c) (XFFNumTrustedHops c) (TracingRef c) (TracingRaw c) (Http2ProtocolOptions c)
}.

Lemma routes_or_skip ag uids vs vs' :
  (if decide (0 < length uids) then processAdditionalRoutes store (GetAuthorizerFromContext info) ag uids else mret tt) vs
    = (Ok tt, vs') →
  ∃ rs, Forall2 (may_use (GetAuthorizerFromContext info) ag ActionListRoutes (Store.GetRouteByUID store)) uids rs ∧
    vs' = set_common (λ c, with_routes (AdditionalRoutes c ++ (ref_to <$> rs)) c) vs.
Proof.
  destruct uids; [|apply processAdditionalRoutes_Ok]. intros [= <-]. exists []. split; [constructor|].
  destruct vs as [? [[] ? ? ?] ?]. unfold set_common, with_routes, Api.set_refs. cbn. by rewrite app_nil_r.
Qed.
Lemma filters_or_skip ag uids vs vs' :
  (if decide (0 < length uids) then processAdditionalHTTPFilters store (GetAuthorizerFromContext info) ag uids
   else mret tt) vs = (Ok tt, vs') →
  ∃ fs, Forall2 (may_use (GetAuthorizerFromContext info) ag ActionListHTTPFilters (Store.GetHTTPFilterByUID store)) uids fs ∧
    vs' = set_common (λ c, with_filters (AdditionalHttpFilters c ++ (ref_to <$> fs)) c) vs.
Proof.
  destruct uids; [|apply processAdditionalHTTPFilters_Ok]. intros [= <-]. exists []. split; [constructor|].
  destruct vs as [? [[] ? ? ?] ?]. unfold set_common, with_filters, Api.set_refs. cbn. by rewrite app_nil_r.
Qed.

Lemma SetNodeIDs_meta vs ids vs' :
  Api.SetNodeIDs vs ids = Some vs' →
  vs_spec vs' = vs_spec vs ∧ Labels (meta vs') = Labels (meta vs) ∧ Name (meta vs') = Name (meta vs) ∧
  uid vs' = uid vs ∧ vs_status vs' = vs_status vs ∧ Generation (meta vs') = Generation (meta vs).
Proof. unfold Api.SetNodeIDs. repeat case_match; intros [= <-]; done. Qed.
Lemma SetNodeIDs_annotations vs ids vs' :
  Api.SetNodeIDs vs ids = Some vs' →
  nilmap_get (Annotations (meta vs')) Api.AnnotationNodeIDs =
    (if decide (ids = []) then None else Some (GoStrings.Join GoStrings.comma ids)) ∧
  ∀ k, k ≠ Api.AnnotationNodeIDs → nilmap_get (Annotations (meta vs')) k = nilmap_get (Annotations (meta vs)) k.
Proof.
  unfold Api.SetNodeIDs. destruct ids as [|i ids]; cbn [length].
  - rewrite (decide_True (P := [] = [])) by done.
    intros [= <-]. unfold nilmap_get. cbn. change (vs_meta vs) with (meta vs).
    destruct (Annotations (meta vs)) as [a|]; [|done].
    cbn. split; [apply lookup_delete_eq|]. intros k Hk. by apply lookup_delete_ne.
  - rewrite !decide_False by done. destruct (Annotations (meta vs)) as [a|]; [|done]. intros [= <-].
    cbn -[GoStrings.Join]. split; [apply lookup_insert_eq|]. intros k Hk. by apply lookup_insert_ne.
Qed.
(** Setting the description touches no other annotation. *)
Lemma set_description_other (a : option (gmap string string)) d k :
  k ≠ Api.annotationDescription → nilmap_get (Some (<[Api.annotationDescription := d]> (default ∅ a))) k = nilmap_get a k.
Proof. intros Hk. unfold nilmap_get. cbn. rewrite lookup_insert_ne by done. destruct a; cbn; [done|apply lookup_empty]. Qed.

Lemma update_service_updates req old vs :
  update_service store targetNs info req old = (Ok tt, vs) → updates req old vs.
Proof.
  unfold update_service. intros (? & s0 & Hn & HH)%stM_bind_Ok. unfold set_nodeIDs in Hn.
  destruct (Api.SetNodeIDs old (upNodeIds req)) as [vs0|] eqn:Hset; [|done]. injection Hn as <- <-.
  destruct (SetNodeIDs_annotations _ _ _ Hset) as [Hids Hann].
  apply SetNodeIDs_meta in Hset as (Hspec & Hlab & Hname & Huid & Hst & Hgen).
  apply stM_bind_Ok in HH as (? & s1 & [= <- <-] & HH). apply stM_bind_Ok in HH as (? & s2 & [= <- <-] & HH).
  apply stM_bind_Ok in HH as (ag & s3 & [= <- <-] & HH).
  assert (Api.GetAccessGroup (set_extraFields (upExtraFields req) (set_namespace targetNs vs0)) = Api.GetAccessGroup old)
    as Hag by (unfold Api.GetAccessGroup; cbn; by rewrite Hlab).
  rewrite Hag in HH. clear Hag. unfold update_references in HH. cbv zeta in HH.
  apply stM_bind_Ok in HH as ([] & s4 & (t & Ht & ->)%processTemplate_Ok & HH).
  apply stM_bind_Ok in HH as ([] & s5 & (l & Hl & ->)%processListener_Ok & HH).
  apply stM_bind_Ok in HH as ([] & s6 & (vh & Hv & ->)%processVirtualHost_Ok & HH).
  apply stM_bind_Ok in HH as ([] & s7 & (al & Ha & ->)%processAccessLogConfigs_Ok & HH).
  apply stM_bind_Ok in HH as (? & s8 & [= <- <-] & HH). apply stM_bind_Ok in HH as (? & s9 & [= <- <-] & HH).
  apply stM_bind_Ok in HH as ([] & s10 & (rs & Hrs & ->)%routes_or_skip & HH).
  apply stM_bind_Ok in HH as (? & s11 & [= <- <-] & HH).
  apply stM_bind_Ok in HH as ([] & s12 & (fs & Hfs & ->)%filters_or_skip & HH).
  cbn in Hl, Hv, Ha. rewrite Hspec in Hl, Hv, Ha. change (Name (vs_meta vs0)) with (Name (meta vs0)) in Hv. rewrite Hname in Hv.
  destruct vs0 as [m0 sp0 st0]. cbn in Hspec, Hlab, Hname, Huid, Hst, Hgen, Hids, Hann. subst sp0 st0.
  assert (∀ k, k ≠ Api.AnnotationNodeIDs → k ≠ Api.annotationDescription →
    nilmap_get (Some (<[Api.annotationDescription := upDescription req]> (default ∅ (Annotations m0)))) k =
    nilmap_get (Annotations (meta old)) k) as Hother.
  { intros k H1 H2. rewrite set_description_other by done. by apply Hann. }
  destruct (upUseRemoteAddress req) eqn:Hura; injection HH as <-.
  all: split; cbn -[nilmap_get]; rewrite ?Hura; try done; eauto.
  all: first [by rewrite set_description_other | by unfold Api.GetDescription; cbn; rewrite lookup_insert_eq].
Qed.

(** What the store holds once the object that was [old] has become [vs]: every
    lookup that gave the object gives [vs], every other service and every other
    part of the store is as before. *)
Definition holds_instead (old vs : VirtualService) (store' : Store.OptimizedStore) : Prop :=
  (∀ u, Store.GetVirtualServiceByUID store' u =
     (λ o, if decide (uid o = uid old) then vs else o) <$> Store.GetVirtualServiceByUID store u) ∧
  (∀ n, Store.GetVirtualService store' n =
     (λ o, if decide (uid o = uid old) then vs else o) <$> Store.GetVirtualService store n) ∧
  Store.set_templateToVS (Store.templateToVS store)
    (Store.set_virtualServices (Store.virtualServices store) store') = store.
Lemma write_back_holds old vs : holds_instead old vs (write_back store old vs).
Proof.
  unfold holds_instead, write_back, Store.GetVirtualServiceByUID, Store.GetVirtualService. split_and!.
  - intros u. cbn. apply lookup_fmap.
  - intros n. cbn. apply lookup_fmap.
  - by destruct store.
Qed.

(** C25. An update is sent to Kubernetes only for a service of the store that is
    editable, when every object the request names is one the user may list in the
    service's access group and the resources build from a store that holds the
    edited object; the object sent is the stored one with exactly the requested
    fields changed (node IDs, namespace, description, extra fields, references,
    domains; TLS, RBAC and every other field as they were) and the status of the
    build. The store then holds the server's reply when the call succeeds and the
    object sent when it fails, and nothing else of it changes. *)
Theorem UpdateVirtualService_safe req r call store' :
  UpdateVirtualService build store client targetNs info (Some req) = (r, Some call, store') →
  ∃ old vs res st store1, Store.GetVirtualServiceByUID store (upUid req) = Some old ∧ Api.IsEditable old = true ∧
    updates req old vs ∧ holds_instead old vs store1 ∧ build vs store1 = (Ok res, st) ∧ call = CallUpdate (set_vstatus st vs) ∧
    (∀ d, d ∈ default [] (upVirtualHost req) → validateDomain d = Ok tt) ∧
    match Update client (set_vstatus st vs) with
    | Ok reply => r = Ok tt ∧ holds_instead old reply store'
    | Err e => r = Err e ∧ holds_instead old (set_vstatus st vs) store'
    end.
Proof.
  unfold UpdateVirtualService.
  match goal with |- context [match ?m with Ok _ => _ | Err _ => _ end] => destruct m as [old|e] eqn:Hready; [|done] end.
  destruct (update_service _ _ _ _ _) as [[[]|e] vs] eqn:Hu; [|done].
  destruct (build vs _) as [[res|e] st] eqn:Hb; [|done]. intros Hout.
  apply bind_Ok_inv in Hready as ([] & Hval & Hready).
  destruct (Store.GetVirtualServiceByUID store (upUid req)) as [old'|]; [|done].
  apply bind_Ok_inv in Hready as ([] & He%Api.fail_if_Ok%negb_false_iff & [= ->]).
  apply update_service_updates in Hu.
  exists old, vs, res, st, (write_back store old vs). split_and!; try done.
  - apply write_back_holds.
  - by destruct (Update client _); simplify_eq.
  - unfold validateUpdateVirtualServiceRequest in Hval. apply bind_Ok_inv in Hval as ([] & _ & Hval).
    apply bind_Ok_inv in Hval as ([] & _ & Hval). by apply validate_domains_Ok.
  - destruct (Update client _); simplify_eq; (split; [done|apply write_back_holds]).
Qed.

(** A service is deleted exactly when it is found, editable, and the user is
    authorized for it in its access group. *)
Theorem DeleteVirtualService_spec reqUid r call :
  DeleteVirtualService store client info reqUid = (r, Some call) ↔
  ∃ vs, reqUid ≠ "" ∧ Store.GetVirtualServiceByUID store reqUid = Some vs ∧ Api.IsEditable vs = true ∧
    Authorize (GetAuthorizerFromContext info) (Api.GetAccessGroup vs) (Name (meta vs)) = Ok true ∧
    call = CallDelete vs ∧ r = of_error (Delete client vs).
Proof.
  unfold DeleteVirtualService. destruct (decide (reqUid = "")) as [->|Hne]; [cbn; naive_solver|].
  rewrite bool_decide_eq_false_2 by done. cbn. destruct (Store.GetVirtualServiceByUID store reqUid) as [vs|]; [|naive_solver].
  destruct (Api.IsEditable vs) eqn:He; cbn; [|split; [done|]; intros (? & _ & [= <-] & ? & _); congruence].
  destruct (Authorize _ (Api.GetAccessGroup vs) (Name (meta vs))) as [[]|e] eqn:Ha; cbn.
  - split; [intros [= <- <-]; by exists vs|]. by intros (? & _ & [= <-] & _ & _ & -> & ->).
  - split; [done|]. intros (? & _ & [= <-] & _ & ? & _). congruence.
  - split; [done|]. intros (? & _ & [= <-] & _ & ? & _). congruence.
Qed.
End updated.

(** The listing of services shows exactly those of the requested access group
    that the user may see and whose template, if they name one, is in the store. *)
Theorem ListVirtualServices_spec store info accessGroup order items :
  ListVirtualServices store info accessGroup order = Ok items →
  (∀ i, i ∈ items ↔ ∃ v t, v ∈ order ∧ Api.GetAccessGroup v = accessGroup ∧
     Authorize (GetAuthorizerFromContext info) accessGroup (Name (meta v)) = Ok true ∧
     if_present (resolve (Store.GetVirtualServiceTemplate store) (Namespace (meta v))) (Template (vs_spec v)) = Ok t ∧
     i = list_item accessGroup v t) ∧
  StronglySorted (key_le vName) items.
Proof.
  unfold ListVirtualServices. case_decide as Hne; [done|]. intros HH.
  destruct (listing_spec _ _ _ _ HH) as [Hin Hs]. split; [|done]. intros i. rewrite Hin.
  assert (∀ v : VirtualService, Api.GetAccessGroup v ≠ "") as Hag by (intros v; unfold Api.GetAccessGroup; by case_decide).
  unfold list_step. split.
  - intros (v & Hv & Hi). cbv zeta in Hi. rewrite (decide_False _ _ (Hag v)) in Hi.
    apply bind_Ok_inv in Hi as ([] & Ha & Hi); cbn in Hi; [|done]. case_decide as Hg; [done|].
    subst accessGroup. destruct (Template (vs_spec v)) as [ref|] eqn:Href.
    + destruct (Store.GetVirtualServiceTemplate _ _) as [t|] eqn:Ht; [|done]. injection Hi as <-.
      exists v, (Some (obj_ref t)). split_and!; [done..| |done]. rewrite Href. cbn. unfold resolve. by rewrite Ht.
    + injection Hi as <-. exists v, None. split_and!; [done..| |done]. by rewrite Href.
  - intros (v & t & Hv & <- & Ha & Ht & ->). exists v. split; [done|]. cbv zeta. rewrite (decide_False _ _ (Hag v)), Ha. cbn.
    rewrite decide_False by (intros Hx; by apply Hx). unfold if_present, resolve in Ht.
    destruct (Template (vs_spec v)) as [ref|]; [|by injection Ht as <-].
    destruct (Store.GetVirtualServiceTemplate _ _) as [t'|]; [|done]. by injection Ht as <-.
Qed.
End GrpcVirtualService.
