(* ===== verification/GrpcTemplate.v ===== *)
(** * [internal/grpcapi/virtualservicetemplate.go]: templates and their preview

    The listing of templates and [FillTemplate], which shows what a service filled
    from a template would contain: the setup of the service from the request, the
    fill, and the expansion of the references into the objects they name. *)

From S2P Require Import Prelude GoStrings Types Merge StringPool Api DomainSecrets ResUtils Store.
From S2P Require Import Updater GrpcAuth GrpcLists GrpcVirtualService.

Module GrpcTemplate.
Import Envoy GrpcAuth GrpcLists GrpcVirtualService.

(** ** Listing *)
Record VirtualServiceTemplateListItem := mkTItem { tItem : ListItem; tExtraFields : list ExtraField }.
Definition ListVirtualServiceTemplates `{GL : GrpcLib} (info : option Authorizer) (reqGroup : string)
    (order : list VirtualServiceTemplate) : result (list VirtualServiceTemplateListItem) :=
  let authorizer := GetAuthorizerFromContext info in
  let accessGroup := if decide (reqGroup = "") then GeneralAccessGroup else reqGroup in
  list ← collect (λ v,
    let item := mkTItem (mkItem (uid v) (Name (meta v)) (Api.GetDescription v) (VST_Raw v)) (vst_extraFields v) in
    if_allowed (Authorize authorizer accessGroup (Name (meta v))) item) order;
  Ok (sort_by_key (λ i, iName (tItem i)) list).

(** ** The request *)
Record TLSConfig := mkTLSConfig { tcSecretRef : option string; tcAutoDiscovery : option bool }.
Record FillTemplateRequest := mkFill {
  fTemplateUid : string; fListenerUid : string; fVirtualHost : option (list string);
  fAccessLogConfigUids : option (list string); fAdditionalRouteUids : list string;
  fAdditionalHttpFilterUids : list string; fUseRemoteAddress : option bool;
  fTemplateOptions : list TemplateOption; fName : string; fExpandReferences : bool;
  fExtraFields : gmap string string; fTlsConfig : option TLSConfig
}.

Definition validateTemplateAccess (store : Store.OptimizedStore) (info : option Authorizer) (templateUID : string)
  : result VirtualServiceTemplate :=
  _ ← fail_if (bool_decide (templateUID = "")) (ErrNew "template uid is required");
  match Store.GetVirtualServiceTemplateByUID store templateUID with
  | None => Err (ErrNew "template not found")
  | Some template =>
      ok ← Authorize (GetAuthorizerFromContext info) (Api.GetAccessGroup template) (Name (meta template));
      _ ← fail_if (negb ok) (ErrNew ("access group '" +:+ Api.GetAccessGroup template +:+
            "' is not allowed to fill template '" +:+ Name (meta template) +:+ "'"));
      Ok template
  end.

(** ** Setting up the service *)
Definition setupVirtualServiceName (requestName templateName : string) : stM VirtualService unit :=
  edit (set_name (if decide (requestName ≠ "") then requestName else templateName +:+ "-vs")).
(** [for _, uid := range uids { obj := get(uid); if obj == nil { return ... }; refs = append(refs, ...) }] *)
Definition find_object {R} (found : option R) (missing : string) : result R :=
  match found with None => Err (ErrNew missing) | Some r => Ok r end.
Section setup.
Context (store : Store.OptimizedStore).
Definition setupListenerRef (listenerUID : string) : stM VirtualService unit :=
  if decide (listenerUID = "") then mret tt
  else
    listener ← lift (find_object (Store.GetListenerByUID store listenerUID)
                       ("listener uid '" +:+ listenerUID +:+ "' not found"));
    edit (set_common (with_listener (Some (ref_to listener)))).
Definition setupVirtualHost `{!VHostMarshal} (virtualHost : option (list string)) : stM VirtualService unit :=
  match virtualHost with
  | None => mret tt
  | Some domains => λ vs,
      (vhData ← lift (wrap_err "failed to marshal virtual host"
                        (vhost_Marshal (mkVH (Name (meta vs) +:+ "-virtual-host") domains [] "")));
       edit (set_common (with_virtualHost (Some (mkRaw (Some vhData) None))))) vs
  end.
Definition setupAccessLogConfigs (uids : option (list string)) : stM VirtualService unit :=
  let uids := default [] uids in
  if decide (length uids = 0) then mret tt
  else
    _ ← edit (set_common (with_accessLogConfigs []));
    for_each (λ alcUID,
      if decide (alcUID = "") then mret tt
      else
        alc ← lift (find_object (Store.GetAccessLogByUID store alcUID)
                      ("access log config uid '" +:+ alcUID +:+ "' not found"));
        edit (set_common (λ c, with_accessLogConfigs (AccessLogConfigRefs c ++ [ref_to alc]) c))) uids.
Definition setupAdditionalRoutes (routeUIDs : list string) : stM VirtualService unit :=
  for_each (λ uid,
    route ← lift (find_object (Store.GetRouteByUID store uid) ("route uid '" +:+ uid +:+ "' not found"));
    edit (set_common (λ c, with_routes (AdditionalRoutes c ++ [ref_to route]) c))) routeUIDs.
Definition setupAdditionalHttpFilters (filterUIDs : list string) : stM VirtualService unit :=
  for_each (λ uid,
    filter ← lift (find_object (Store.GetHTTPFilterByUID store uid) ("http filter uid '" +:+ uid +:+ "' not found"));
    edit (set_common (λ c, with_filters (AdditionalHttpFilters c ++ [ref_to filter]) c))) filterUIDs.
End setup.
Definition setupTemplateOptions (templateOptions : list TemplateOption) : stM VirtualService unit :=
  if decide (length templateOptions = 0) then mret tt
  else edit (set_templateOptions (convert_option <$> templateOptions)).
Definition setupUseRemoteAddress (useRemoteAddress : option bool) : stM VirtualService unit :=
  match useRemoteAddress with Some b => edit (set_common (with_useRemoteAddress (Some b))) | None => mret tt end.
Definition setupExtraFields (extraFields : gmap string string) : stM VirtualService unit :=
  if decide (0 < size extraFields) then edit (set_extraFields extraFields) else mret tt.
Definition with_tls (t : option TlsConfig) (c : CommonSpec) : CommonSpec :=
  mkCommon (VirtualHostRaw c) (ListenerRef c) t (AccessLog c) (AccessLogs c) (AccessLogConfigRef c)
    (AccessLogConfigRefs c) (AdditionalHttpFilters c) (AdditionalRoutes c) (HTTPFilters c) (UseRemoteAddress c)
    (UpgradeConfigs c) (RBAC c) (XFFNumTrustedHops c) (TracingRef c) (TracingRaw c) (Http2ProtocolOptions c).
Definition setupTlsConfig (tlsConfig : option TLSConfig) : stM VirtualService unit :=
  match tlsConfig with
  | None => mret tt
  | Some t => edit (set_common (with_tls (Some (mkTls ((λ n, mkRef n None) <$> tcSecretRef t) (tcAutoDiscovery t)))))
  end.

(** ** Expansion of references *)
Section expand.
Context {GL : GrpcLib} {JL : Api.JsonLib} (store : Store.OptimizedStore).
(** The object a reference names; the namespace must be explicit. *)
Definition referenced {R} (get : NN → option R) (ref : ResourceRef) (no_namespace not_found : string) : result R :=
  match refNamespace ref with
  | None => Err (ErrNew no_namespace)
  | Some ns => match get (Helpers.mkNN ns (refName ref)) with None => Err (ErrNew not_found) | Some r => Ok r end
  end.
(** [yaml.Unmarshal(obj.Spec.Raw, &m)] with a specification that may be missing. *)
Definition spec_yaml (what : string) (spec : option RawExtension) : result Merge.json :=
  match spec with
  | None => Err nil_deref
  | Some r => wrap_err ("failed to unmarshal " +:+ what +:+ " spec") (yaml_Unmarshal (raw_bytes r))
  end.
Abbreviation jmap := (gmap string Merge.json).

Definition expandListenerReference (vs : VirtualService) (result : jmap) : Prelude.result jmap :=
  match ListenerRef (Common (vs_spec vs)) with
  | None => Ok result
  | Some listener =>
      l ← referenced (Store.GetListener store) listener "listener namespace is required"
            ("listener '" +:+ refName listener +:+ "' not found");
      listenerMap ← spec_yaml "listener" (l_spec l);
      Ok (<["listener" := listenerMap]> result)
  end.
Definition log_yaml (ref : ResourceRef) : Prelude.result Merge.json :=
  alc ← referenced (Store.GetAccessLog store) ref "access log config namespace is required"
          ("accessLogConfig '" +:+ refName ref +:+ "' not found");
  spec_yaml "accessLogConfig" (alc_spec alc).
Definition expandAccessLogConfigReference (vs : VirtualService) (result : jmap) : Prelude.result jmap :=
  match AccessLogConfigRef (Common (vs_spec vs)) with
  | None => Ok result
  | Some ref => accessLogConfigMap ← log_yaml ref; Ok (<["accessLogConfig" := accessLogConfigMap]> result)
  end.
Definition expandAccessLogConfigsReferences (vs : VirtualService) (result : jmap) : Prelude.result jmap :=
  if decide (length (AccessLogConfigRefs (Common (vs_spec vs))) = 0) then Ok result
  else maps ← map_result log_yaml (AccessLogConfigRefs (Common (vs_spec vs)));
       Ok (<["accessLogConfigs" := Merge.JArr maps]> result).
Definition specs_yaml (what : string) (specs : list RawExtension) : Prelude.result (list Merge.json) :=
  map_result (λ r, wrap_err ("failed to unmarshal " +:+ what +:+ " spec") (yaml_Unmarshal (raw_bytes r))) specs.
Definition expandAdditionalRoutesReferences (vs : VirtualService) (result : jmap) : Prelude.result jmap :=
  if decide (length (AdditionalRoutes (Common (vs_spec vs))) = 0) then Ok result
  else
    routes ← map_result (λ route,
      r ← referenced (Store.GetRoute store) route "route namespace is required"
            ("route '" +:+ refName route +:+ "' not found");
      specs_yaml "route" (r_spec r)) (AdditionalRoutes (Common (vs_spec vs)));
    Ok (<["additionalRoutes" := Merge.JArr (mjoin routes)]> result).
Definition expandAdditionalHttpFiltersReferences (vs : VirtualService) (result : jmap) : Prelude.result jmap :=
  if decide (length (AdditionalHttpFilters (Common (vs_spec vs))) = 0) then Ok result
  else
    httpFilters ← map_result (λ httpFilter,
      hf ← referenced (Store.GetHTTPFilter store) httpFilter "httpFilter namespace is required"
             ("httpFilter '" +:+ refName httpFilter +:+ "' not found");
      specs_yaml "httpFilter" (hf_spec hf)) (AdditionalHttpFilters (Common (vs_spec vs)));
    Ok (<["additionalHttpFilters" := Merge.JArr (mjoin httpFilters)]> result).

Definition expanded_map (vs : VirtualService) : Prelude.result jmap :=
  data ← wrap_err "failed to marshal to JSON" (Api.json_Marshal (Common (vs_spec vs)));
  result ← wrap_err "failed to unmarshal to map" (json_Unmarshal_map data);
  result ← expandListenerReference vs result;
  result ← expandAccessLogConfigReference vs result;
  result ← expandAccessLogConfigsReferences vs result;
  result ← expandAdditionalRoutesReferences vs result;
  expandAdditionalHttpFiltersReferences vs result.
Definition expandReferences (vs : VirtualService) : Prelude.result string :=
  result ← expanded_map vs;
  match json_MarshalIndent result with
  | Ok data => Ok data
  | Err e => Err (ErrNew ("failed to marshal virtual service map: " +:+ go_Error e))
  end.
Definition prepareResponse (vs : VirtualService) (expand : bool) : Prelude.result string :=
  if expand then expandReferences vs else json_Marshal_VSSpec (vs_spec vs).
End expand.

(** ** The handler *)
Section fill.
Context {GL : GrpcLib} {JL : Api.JsonLib} {VM : VHostMarshal}.
Context (store : Store.OptimizedStore) (info : option Authorizer).
Definition setup_service (req : FillTemplateRequest) (template : VirtualServiceTemplate) : stM VirtualService unit :=
  _ ← edit (set_template (Some (ref_to template)));
  _ ← setupVirtualServiceName (fName req) (Name (meta template));
  _ ← setupListenerRef store (fListenerUid req);
  _ ← setupVirtualHost (fVirtualHost req);
  _ ← setupAccessLogConfigs store (fAccessLogConfigUids req);
  _ ← setupAdditionalRoutes store (fAdditionalRouteUids req);
  _ ← setupAdditionalHttpFilters store (fAdditionalHttpFilterUids req);
  _ ← setupUseRemoteAddress (fUseRemoteAddress req);
  _ ← setupTemplateOptions (fTemplateOptions req);
  _ ← setupExtraFields (fExtraFields req);
  setupTlsConfig (fTlsConfig req).
(** [eord] is the order in which the extra fields are visited. *)
Definition FillTemplate (eord : gmap string string → list string) (req : FillTemplateRequest) : result string :=
  template ← validateTemplateAccess store info (fTemplateUid req);
  let '(r, vs) := setup_service req template new_vs in
  _ ← r;
  vs ← Api.FillFromTemplate vs template (TemplateOptions (vs_spec vs)) (eord (ExtraFields (vs_spec vs)));
  prepareResponse store vs (fExpandReferences req).
End fill.

(** ** A preview shows what is created *)
Section loops.
Context {R : Type} `{!HasMeta R} (get : string → option R) (missing : string → string).
Context (sel : CommonSpec → list ResourceRef) (upd : list ResourceRef → CommonSpec → CommonSpec).
Context (sel_upd : ∀ l c, sel (upd l c) = l) (upd_upd : ∀ l l' c, upd l (upd l' c) = upd l c)
  (upd_sel : ∀ c, upd (sel c) c = c).
Context (step : string → stM VirtualService unit).
Context (Hstep : ∀ u r vs, get u = Some r →
  step u vs = (Ok tt, set_common (λ c, upd (sel c ++ [ref_to r]) c) vs)).
Lemma append_found uids rs vs :
  Forall2 (λ u r, get u = Some r) uids rs →
  for_each step uids vs = (Ok tt, set_common (λ c, upd (sel c ++ (ref_to <$> rs)) c) vs).
Proof.
  intros Hall. revert vs. induction Hall as [|u r us rs Hu _ IH]; intros [m [c t o e] st]; cbn [for_each].
  - unfold set_common. cbn. by rewrite app_nil_r, upd_sel.
  - unfold mbind, stM_bind. rewrite (Hstep u r _ Hu), IH. unfold set_common.
    cbn [vs_spec vs_meta vs_status Common Template TemplateOptions ExtraFields].
    by rewrite sel_upd, upd_upd, <-app_assoc.
Qed.
End loops.

Lemma run_bind {S A B} (m : stM S A) (f : A → stM S B) s a s' r :
  m s = (Ok a, s') → f a s' = r → (m ≫= f) s = r.
Proof. intros Hm <-. unfold mbind, stM_bind. by rewrite Hm. Qed.
(** On a service whose field is still unset, a skipped step and an assignment of the
    unset value are the same. *)
Lemma setupUseRemoteAddress_run b vs : UseRemoteAddress (Common (vs_spec vs)) = None →
  setupUseRemoteAddress b vs = (Ok tt, set_common (with_useRemoteAddress b) vs).
Proof. destruct b; [done|]. cbn. intros Hn. destruct vs as [? [[] ? ? ?] ?]. cbn in *. by subst. Qed.
Lemma setupTemplateOptions_run o vs : TemplateOptions (vs_spec vs) = [] →
  setupTemplateOptions o vs = (Ok tt, set_templateOptions (convert_option <$> o) vs).
Proof. destruct o; [|done]. cbn. intros Hn. destruct vs as [? [[] ? ? ?] ?]. cbn in *. by subst. Qed.
Lemma setupExtraFields_run e vs : ExtraFields (vs_spec vs) = ∅ →
  setupExtraFields e vs = (Ok tt, set_extraFields e vs).
Proof.
  unfold setupExtraFields. case_decide as Hs; [done|]. assert (e = ∅) as -> by (apply map_size_empty_inv; lia).
  intros Hn. destruct vs as [? [[] ? ? ?] ?]. cbn in *. by subst.
Qed.

Section preview.
Context {GL : GrpcLib} {JL : Api.JsonLib} {VM : VHostMarshal}.
Context (store : Store.OptimizedStore) (targetNs : string) (info : option Authorizer).

(** The preview that corresponds to a creation request. *)
Definition preview_of (req : CreateVirtualServiceRequest) (expand : bool) : FillTemplateRequest :=
  mkFill (crTemplateUid req) (crListenerUid req) (crVirtualHost req) (crAccessLogConfigUids req)
    (crAdditionalRouteUids req) (crAdditionalHttpFilterUids req) (crUseRemoteAddress req) (crTemplateOptions req)
    (crAccessGroup req +:+ "-" +:+ crName req) expand (crExtraFields req) None.

Section steps.
Context (auth : IAuthorizer) (ag : string).
Lemma setupListener_found u new vs :
  listener_after auth ag store u (ListenerRef (Common (vs_spec vs))) new →
  setupListenerRef store u vs = (Ok tt, set_common (with_listener new) vs).
Proof.
  unfold listener_after, setupListenerRef. case_decide.
  - intros ->. by destruct vs as [? [[] ? ? ?] ?].
  - intros (l & [Hl _] & ->). unfold mbind, stM_bind, lift, find_object. by rewrite Hl.
Qed.
Lemma setupVirtualHost_found name vh new vs :
  Name (meta vs) = name → vhost_after name vh (VirtualHostRaw (Common (vs_spec vs))) new →
  setupVirtualHost vh vs = (Ok tt, set_common (with_virtualHost new) vs).
Proof.
  intros <-. destruct vh as [ds|]; cbn.
  - intros (s & Hs & ->). unfold mbind, stM_bind, lift. by rewrite Hs.
  - intros ->. by destruct vs as [? [[] ? ? ?] ?].
Qed.
Lemma setupAccessLogConfigs_found uids new vs :
  "" ∉ default [] uids → logs_after auth ag store uids (AccessLogConfigRefs (Common (vs_spec vs))) new →
  setupAccessLogConfigs store uids vs = (Ok tt, set_common (with_accessLogConfigs new) vs).
Proof.
  unfold logs_after, setupAccessLogConfigs. intros Hne. destruct (default [] uids) as [|u us].
  - intros ->. by destruct vs as [? [[] ? ? ?] ?].
  - intros (als & Hals & ->). rewrite decide_False by done. unfold mbind at 1, stM_bind at 1, edit at 1.
    cbv beta iota. rewrite (append_found (λ u, if decide (u = "") then None else Store.GetAccessLogByUID store u)
      AccessLogConfigRefs with_accessLogConfigs) with (rs := als); [done|done|done|by intros []| |].
    + intros u' r vs'. unfold mbind, stM_bind, lift, find_object. by case_decide; [|intros ->].
    + clear -Hals Hne. induction Hals as [|u' r us' rs [Hu _] _ IH]; constructor; [|apply IH; set_solver].
      rewrite decide_False by set_solver. done.
Qed.
Lemma setupRoutes_found uids rs vs :
  Forall2 (may_use auth ag ActionListRoutes (Store.GetRouteByUID store)) uids rs →
  setupAdditionalRoutes store uids vs = (Ok tt, set_common (λ c, with_routes (AdditionalRoutes c ++ (ref_to <$> rs)) c) vs).
Proof.
  intros Hall. apply (append_found (Store.GetRouteByUID store)); [done|done|by intros []| |].
  - intros u r vs'. unfold mbind, stM_bind, lift, find_object. by intros ->.
  - eapply Forall2_impl; [exact Hall|]. by intros u r [].
Qed.
Lemma setupFilters_found uids fs vs :
  Forall2 (may_use auth ag ActionListHTTPFilters (Store.GetHTTPFilterByUID store)) uids fs →
  setupAdditionalHttpFilters store uids vs =
  (Ok tt, set_common (λ c, with_filters (AdditionalHttpFilters c ++ (ref_to <$> fs)) c) vs).
Proof.
  intros Hall. apply (append_found (Store.GetHTTPFilterByUID store)); [done|done|by intros []| |].
  - intros u r vs'. unfold mbind, stM_bind, lift, find_object. by intros ->.
  - eapply Forall2_impl; [exact Hall|]. by intros u r [].
Qed.
End steps.

Lemma setup_describes req expand vs t :
  describes store targetNs info req vs → "" ∉ default [] (crAccessLogConfigUids req) →
  crAccessGroup req +:+ "-" +:+ crName req ≠ "" →
  Store.GetVirtualServiceTemplateByUID store (crTemplateUid req) = Some t →
  ∃ vs', setup_service store (preview_of req expand) t new_vs = (Ok tt, vs') ∧ vs_spec vs' = vs_spec vs.
Proof.
  intros Hd Hne Hname Ht. destruct (d_template _ _ _ _ _ Hd) as (t' & [Ht' _] & Htemplate).
  rewrite Ht in Ht'. injection Ht' as <-.
  destruct (d_routes _ _ _ _ _ Hd) as (rs & Hrs & Hr). destruct (d_filters _ _ _ _ _ Hd) as (fs & Hfs & Hf).
  pose proof (d_virtualHost _ _ _ _ _ Hd) as Hv. rewrite (d_name _ _ _ _ _ Hd) in Hv.
  eexists. split.
  { unfold setup_service, preview_of. cbn [fName fListenerUid fVirtualHost fAccessLogConfigUids fAdditionalRouteUids
      fAdditionalHttpFilterUids fUseRemoteAddress fTemplateOptions fExtraFields fTlsConfig].
    eapply run_bind; [done|]. eapply run_bind; [done|]. rewrite decide_True by done.
    eapply run_bind; [eapply setupListener_found; exact (d_listener _ _ _ _ _ Hd)|].
    eapply run_bind; [eapply setupVirtualHost_found; [done|exact Hv]|].
    eapply run_bind; [eapply setupAccessLogConfigs_found; [done|exact (d_accessLogs _ _ _ _ _ Hd)]|].
    eapply run_bind; [eapply setupRoutes_found, Hrs|].
    eapply run_bind; [eapply setupFilters_found, Hfs|].
    eapply run_bind; [by apply setupUseRemoteAddress_run|]. eapply run_bind; [by apply setupTemplateOptions_run|].
    eapply run_bind; [by apply setupExtraFields_run|]. done. }
  pose proof (d_rest _ _ _ _ _ Hd) as Hrest. cbn zeta in Hrest.
  destruct vs as [m [c t0 o e] st]. cbn in *. subst t0.
  pose proof (d_options _ _ _ _ _ Hd) as Ho. pose proof (d_extraFields _ _ _ _ _ Hd) as He.
  pose proof (d_useRemoteAddress _ _ _ _ _ Hd) as Hu. cbn in Ho, He, Hu. subst o e.
  rewrite Hrest, <-Hu, Hr, Hf. done.
Qed.

(** What is shown depends on the specification only. *)
Lemma FillFromTemplate_spec vs vs' t opts order :
  vs_spec vs = vs_spec vs' →
  match Api.FillFromTemplate vs t opts order, Api.FillFromTemplate vs' t opts order with
  | Ok a, Ok b => vs_spec a = vs_spec b
  | Err e, Err e' => e = e'
  | _, _ => False
  end.
Proof.
  intros Hs. unfold Api.FillFromTemplate. cbv zeta. rewrite Hs.
  repeat match goal with
    | |- context [?m ≫= _] => destruct m; cbn; [|done]
    end.
  done.
Qed.
Lemma prepareResponse_spec vs vs' expand :
  vs_spec vs = vs_spec vs' → prepareResponse store vs expand = prepareResponse store vs' expand.
Proof.
  intros Hs. unfold prepareResponse, expandReferences, expanded_map, expandListenerReference,
    expandAccessLogConfigReference, expandAccessLogConfigsReferences, expandAdditionalRoutesReferences,
    expandAdditionalHttpFiltersReferences. by rewrite Hs.
Qed.

(** C27. The preview of a template shows what a creation produces: for a creation
    request that is carried out, the preview of the same request under the name the
    service gets is the service sent to Kubernetes, filled from the template as the
    builder fills it; the errors of the fill are the same too. The preview is asked
    by [previewer], the same or another user, who must be allowed to fill the
    template in the template's own access group (the right to create the service
    does not give it), and the request has no empty UID among the access log
    configurations. *)
Theorem preview_matches_creation build client copyStore req r vs t eord expand previewer :
  CreateVirtualService build store client targetNs info copyStore (Some req) = (r, Some (CallCreate vs)) →
  Store.GetVirtualServiceTemplateByUID store (crTemplateUid req) = Some t →
  Authorize (GetAuthorizerFromContext previewer) (Api.GetAccessGroup t) (Name (meta t)) = Ok true →
  "" ∉ default [] (crAccessLogConfigUids req) →
  FillTemplate store previewer eord (preview_of req expand) =
  (filled ← Api.FillFromTemplate vs t (TemplateOptions (vs_spec vs)) (eord (ExtraFields (vs_spec vs)));
   prepareResponse store filled expand).
Proof.
  intros (vs0 & res & st & [= ->] & Hd & _ & _ & Hag & _ & _ & Hu & _)%create_call_inv Ht Ha Hne.
  assert (crAccessGroup req +:+ "-" +:+ crName req ≠ "") as Hname.
  { destruct (crAccessGroup req); [done|]. by rewrite GoStrings.str_app_cons. }
  destruct (setup_describes req expand vs0 t Hd Hne Hname Ht) as (vs' & Hs & Hspec).
  unfold FillTemplate, validateTemplateAccess. change (fTemplateUid (preview_of req expand)) with (crTemplateUid req).
  rewrite bool_decide_eq_false_2 by done. cbn [fail_if mbind result_bind]. rewrite Ht, Ha. cbn [fail_if negb mbind result_bind].
  rewrite Hs. cbn [mbind result_bind].
  change (vs_spec (set_vstatus st vs0)) with (vs_spec vs0).
  pose proof (FillFromTemplate_spec vs' (set_vstatus st vs0) t (TemplateOptions (vs_spec vs0))
    (eord (ExtraFields (vs_spec vs0))) Hspec) as Hfill. rewrite Hspec.
  destruct (Api.FillFromTemplate vs' _ _ _) as [a|e], (Api.FillFromTemplate (set_vstatus st vs0) _ _ _) as [b|e'];
    cbn; [|done..|by subst]. by apply prepareResponse_spec.
Qed.
End preview.

(** ** Expansion *)
Section expansion.
Context {GL : GrpcLib} {JL : Api.JsonLib} (store : Store.OptimizedStore).
Lemma referenced_Ok {R} (get : NN → option R) ref e1 e2 r :
  referenced get ref e1 e2 = Ok r ↔ ∃ ns, refNamespace ref = Some ns ∧ get (Helpers.mkNN ns (refName ref)) = Some r.
Proof. unfold referenced. destruct (refNamespace ref) as [ns|]; [|naive_solver]. case_match; naive_solver. Qed.

(** The YAML of the objects a list of references names, in order. *)
Definition expands {R} (get : NN → option R) (yaml : R → result (list Merge.json)) (refs : list ResourceRef)
    (items : list Merge.json) : Prop :=
  ∃ objs ys, Forall2 (λ ref r, ∃ ns, refNamespace ref = Some ns ∧ get (Helpers.mkNN ns (refName ref)) = Some r) refs objs ∧
    Forall2 (λ r y, yaml r = Ok y) objs ys ∧ items = mjoin ys.
Lemma expand_refs {R} (get : NN → option R) (yaml : R → result (list Merge.json)) e1 e2 refs yss :
  map_result (λ ref, r ← referenced get ref e1 (e2 ref); yaml r) refs = Ok yss → expands get yaml refs (mjoin yss).
Proof.
  intros Hm%map_result_Ok. cut (∃ objs, Forall2 (λ ref r, ∃ ns, refNamespace ref = Some ns ∧
    get (Helpers.mkNN ns (refName ref)) = Some r) refs objs ∧ Forall2 (λ r y, yaml r = Ok y) objs yss).
  { intros (objs & H1 & H2). by exists objs, yss. }
  induction Hm as [|ref ys refs yss Hy _ (objs & H1 & H2)]; [exists []; split; constructor|].
  apply bind_Ok_inv in Hy as (r & Hr%referenced_Ok & Hy). exists (r :: objs). by split; constructor.
Qed.
(** A step changes its own key only. *)
Definition only (k : string) (m m' : gmap string Merge.json) : Prop := ∀ k', k' ≠ k → m' !! k' = m !! k'.
Lemma only_insert k v m : only k m (<[k := v]> m).
Proof. intros k' Hne. by rewrite lookup_insert_ne. Qed.

Section steps.
Context (vs : VirtualService).
Let c := Common (vs_spec vs).
Lemma expandListener_Ok m m' :
  expandListenerReference store vs m = Ok m' → only "listener" m m' ∧
  ∀ ref, ListenerRef c = Some ref → ∃ ns l y, refNamespace ref = Some ns ∧
    Store.GetListener store (Helpers.mkNN ns (refName ref)) = Some l ∧
    spec_yaml "listener" (l_spec l) = Ok y ∧ m' !! "listener" = Some y.
Proof.
  unfold expandListenerReference. fold c. destruct (ListenerRef c) as [ref|]; [|by intros [= <-]].
  intros (l & (ns & Hns & Hl)%referenced_Ok & (y & Hy & [= <-])%bind_Ok_inv)%bind_Ok_inv.
  split; [apply only_insert|]. intros ? [= <-]. exists ns, l, y. by rewrite lookup_insert_eq.
Qed.
Lemma expandLog_only m m' : expandAccessLogConfigReference store vs m = Ok m' → only "accessLogConfig" m m'.
Proof.
  unfold expandAccessLogConfigReference. destruct (AccessLogConfigRef _) as [ref|]; [|by intros [= <-]].
  intros (y & _ & [= <-])%bind_Ok_inv. apply only_insert.
Qed.
Lemma expandLogs_only m m' : expandAccessLogConfigsReferences store vs m = Ok m' → only "accessLogConfigs" m m'.
Proof.
  unfold expandAccessLogConfigsReferences. case_decide; [by intros [= <-]|].
  intros (y & _ & [= <-])%bind_Ok_inv. apply only_insert.
Qed.
Lemma expandRoutes_Ok m m' :
  expandAdditionalRoutesReferences store vs m = Ok m' → only "additionalRoutes" m m' ∧
  (AdditionalRoutes c ≠ [] → ∃ items, m' !! "additionalRoutes" = Some (Merge.JArr items) ∧
     expands (Store.GetRoute store) (λ r, specs_yaml "route" (r_spec r)) (AdditionalRoutes c) items).
Proof.
  unfold expandAdditionalRoutesReferences. fold c. case_decide as Hl.
  - intros [= <-]. split; [done|]. intros []. by apply nil_length_inv.
  - intros (ys & Hys & [= <-])%bind_Ok_inv. split; [apply only_insert|]. intros _.
    exists (mjoin ys). rewrite lookup_insert_eq. split; [done|].
    exact (expand_refs _ _ "route namespace is required" (λ ref, "route '" +:+ refName ref +:+ "' not found") _ _ Hys).
Qed.
Lemma expandFilters_Ok m m' :
  expandAdditionalHttpFiltersReferences store vs m = Ok m' → only "additionalHttpFilters" m m' ∧
  (AdditionalHttpFilters c ≠ [] → ∃ items, m' !! "additionalHttpFilters" = Some (Merge.JArr items) ∧
     expands (Store.GetHTTPFilter store) (λ h, specs_yaml "httpFilter" (hf_spec h)) (AdditionalHttpFilters c) items).
Proof.
  unfold expandAdditionalHttpFiltersReferences. fold c. case_decide as Hl.
  - intros [= <-]. split; [done|]. intros []. by apply nil_length_inv.
  - intros (ys & Hys & [= <-])%bind_Ok_inv. split; [apply only_insert|]. intros _.
    exists (mjoin ys). rewrite lookup_insert_eq. split; [done|].
    exact (expand_refs _ _ "httpFilter namespace is required"
      (λ ref, "httpFilter '" +:+ refName ref +:+ "' not found") _ _ Hys).
Qed.
End steps.

Definition expanded_keys : gset string :=
  {["listener"; "accessLogConfig"; "accessLogConfigs"; "additionalRoutes"; "additionalHttpFilters"]}.

(** Expansion replaces the references of a service by the objects they name,
    routes and filters flattened in order, and keeps every other field; it succeeds
    only when every reference is explicit and found. *)
Theorem expanded_map_spec vs m :
  expanded_map store vs = Ok m →
  let c := Common (vs_spec vs) in
  ∃ data m0, Api.json_Marshal c = Ok data ∧ json_Unmarshal_map data = Ok m0 ∧
    (∀ k, k ∉ expanded_keys → m !! k = m0 !! k) ∧
    (∀ ref, ListenerRef c = Some ref → ∃ ns l y, refNamespace ref = Some ns ∧
       Store.GetListener store (Helpers.mkNN ns (refName ref)) = Some l ∧
       spec_yaml "listener" (l_spec l) = Ok y ∧ m !! "listener" = Some y) ∧
    (AdditionalRoutes c ≠ [] → ∃ items, m !! "additionalRoutes" = Some (Merge.JArr items) ∧
       expands (Store.GetRoute store) (λ r, specs_yaml "route" (r_spec r)) (AdditionalRoutes c) items) ∧
    (AdditionalHttpFilters c ≠ [] → ∃ items, m !! "additionalHttpFilters" = Some (Merge.JArr items) ∧
       expands (Store.GetHTTPFilter store) (λ h, specs_yaml "httpFilter" (hf_spec h)) (AdditionalHttpFilters c) items).
Proof.
  intros Hm c. unfold expanded_map in Hm. fold c in Hm.
  apply bind_Ok_inv in Hm as (data & Hdata%wrap_err_Ok & Hm). apply bind_Ok_inv in Hm as (m0 & Hm0%wrap_err_Ok & Hm).
  apply bind_Ok_inv in Hm as (m1 & H1 & Hm). apply bind_Ok_inv in Hm as (m2 & H2 & Hm).
  apply bind_Ok_inv in Hm as (m3 & H3 & Hm). apply bind_Ok_inv in Hm as (m4 & H4 & H5).
  exists data, m0. split; [done|]. split; [done|].
  apply expandListener_Ok in H1 as [O1 Hlis]. apply expandLog_only in H2 as O2. apply expandLogs_only in H3 as O3.
  apply expandRoutes_Ok in H4 as [O4 Hrou]. apply expandFilters_Ok in H5 as [O5 Hfil]. unfold only in *.
  split_and!.
  - intros k Hk. unfold expanded_keys in Hk. rewrite O5, O4, O3, O2, O1 by set_solver. done.
  - intros ref Href. destruct (Hlis ref Href) as (ns & l & y & ? & ? & ? & Hy). exists ns, l, y. split_and!; [done..|].
    by rewrite O5, O4, O3, O2.
  - intros Hne. destruct (Hrou Hne) as (items & Hi & He). exists items. by rewrite O5.
  - done.
Qed.
End expansion.
End GrpcTemplate.
