(* ===== verification/GrpcExamples.v ===== *)
(** * Concrete requests to the API

    A small store, a user and requests on which the theorems of [GrpcLists] and
    [GrpcVirtualService] are applied, and the behaviours of the handlers that
    surprise: an update that fails has already changed the store, an update is not
    authorized for the service itself, and a one-letter name is refused. *)

From S2P Require Import Prelude GoStrings Types Merge StringPool Api DomainSecrets ResUtils Store.
From S2P Require Import Updater GrpcAuth GrpcLists GrpcVirtualService GrpcTemplate.

Module GrpcExamples.
Import Envoy GrpcAuth GrpcLists GrpcVirtualService GrpcTemplate.

(** ** Libraries *)
Definition lib : GrpcLib :=
  {| yaml_Unmarshal s := Ok (Merge.JStr s); json_Unmarshal_map _ := Ok ∅; json_Marshal_items _ := Ok "[]"; json_Marshal_VSTSpec _ _ := Ok "{}";
     json_Marshal_VSSpec _ := Ok "{}"; json_Marshal_raw _ := Ok "{}"; json_Marshal_raws _ := Ok "[]";
     json_MarshalIndent _ := Ok "{}" |}.
Definition json : Api.JsonLib :=
  {| Api.json_Marshal _ := Ok "{}"; Api.json_value _ := None; Api.json_Unmarshal _ c := Ok c;
     Api.template_Parse s := Ok s; Api.template_Execute s _ := Ok s |}.
(** A virtual host as its name and domains, separated by commas. *)
Definition no_comma (s : string) : bool := bool_decide (GoStrings.Index GoStrings.comma s = None).
Definition marshal : VHostMarshal := λ vh,
  if decide (vhRoutes vh = [] ∧ vhRest vh = "" ∧ forallb no_comma (vhName vh :: vhDomains vh) = true)
  then Ok (GoStrings.Join GoStrings.comma (vhName vh :: vhDomains vh)) else Err (ErrNew "unsupported").
Definition vh_pb : ProtoMessage VirtualHost :=
  {| pb_unmarshal s := match GoStrings.Split GoStrings.comma s with
                       | n :: ds => Ok (mkVH n ds [] "") | [] => Err (ErrNew "empty") end;
     pb_validate _ := None |}.
Definition cluster_pb : ProtoMessage ClusterV3 := {| pb_unmarshal s := Ok (mkCV3 s ""); pb_validate _ := None |}.
#[local] Existing Instances lib json marshal vh_pb cluster_pb.

Lemma marshal_unmarshal vh s : vhost_Marshal vh = Ok s → pb_unmarshal s = Ok vh.
Proof.
  unfold vhost_Marshal, marshal. case_decide as Hok; [|done]. destruct Hok as (Hr & Hx & Hf). intros Hs.
  assert (s = GoStrings.Join GoStrings.comma (vhName vh :: vhDomains vh)) as -> by congruence. cbn [pb_unmarshal vh_pb].
  rewrite GoStrings.Split_Join; [destruct vh; cbn in *; by subst|done|].
  apply Is_true_true, forallb_True in Hf. eapply Forall_impl; [exact Hf|]. intros x Hx'.
  by apply bool_decide_unpack in Hx'.
Qed.

(** ** A store and a user *)
Definition template : VirtualServiceTemplate := mkVST (mkMeta "t" "ns" "ut" 1 None None) empty_common [].
Definition listener : Listener := mkListener (mkMeta "l" "ns" "ul" 1 None None) (Some (mkRaw (Some "l") None)).
Definition route : Route := mkRoute (mkMeta "r" "ns" "ur" 1 None None) [mkRaw (Some "r") None].
Definition log : AccessLogConfig := mkALC (mkMeta "a" "ns" "ua" 1 None None) (Some (mkRaw (Some "a") None)).
Definition history : list Store.op :=
  [Store.OSetVirtualServiceTemplate template; Store.OSetListener listener; Store.OSetRoute route; Store.OSetAccessLog log].
Definition pem (_ : string) : option (DomainSecrets.PemBlock * string) := Some (DomainSecrets.mkPem "CERTIFICATE" "", "").
Definition x509 (_ : string) : result DomainSecrets.Time := Ok 100%Z.
Definition store : Store.OptimizedStore := foldl (Store.exec pem x509) Store.NewOptimizedStore history.
Definition own (u : string) : NN :=
  if decide (u = "ut") then key template else if decide (u = "ul") then key listener
  else if decide (u = "ur") then key route else key log.
Lemma store_wf : Store.wf pem x509 own (λ _, key log) store.
Proof. apply Store.wf_history; [|apply Store.wf_new]. repeat (constructor; [vm_compute; reflexivity|]). constructor. Qed.

(** The user may do in the group "team" the things listed, on any object. *)
Definition user (action : string) (actions : list string) : Authorizer :=
  mkAuthorizer "bob" [] action
    (mkEnforcer (λ _ dom _ act, Ok (bool_decide (dom = "team" ∧ act ∈ actions))) (λ _, ["team"]) None
       (λ _ _, Ok []) (Ok 1) []).
Definition creator : Authorizer :=
  user ActionCreateVirtualService [ActionCreateVirtualService; ActionListVirtualServiceTemplates; ActionListListeners;
                                   ActionListRoutes; ActionListAccessLogConfigs].
Definition request : CreateVirtualServiceRequest :=
  mkCreate "web" ["n1"; "n2"] "team" "ut" "ul" (Some ["a.io"; "*.b.io"]) (Some ["ua"]) ["ur"] [] (Some true)
    [mkOption "routes" TEMPLATE_OPTION_MODIFIER_DELETE] "front end" {["k" := "v"]}.
Definition build (vs : VirtualService) (_ : Store.OptimizedStore) : result Updater.Resources * VSObjStatus :=
  (Ok (Updater.mkResources (Helpers.mkNN "ns" "l") [] None [] [] [] []), mkVSObjStatus "" false).
Definition client : Client := mkClient (λ _, None) (λ vs, Ok vs) (λ _, None).
Definition created : VirtualService :=
  match CreateVirtualService build store client "envoy" (Some creator) store (Some request) with
  | (_, Some (CallCreate vs)) => vs
  | _ => new_vs
  end.
Lemma created_call :
  CreateVirtualService build store client "envoy" (Some creator) store (Some request) = (Ok tt, Some (CallCreate created)).
Proof. vm_compute. reflexivity. Qed.

(** ** The theorems at work *)
Lemma CreateVirtualService_safe_witness :
  ∃ vs st, created = set_vstatus st vs ∧ describes store "envoy" (Some creator) request vs ∧ Name (meta vs) = "team-web".
Proof.
  destruct (CreateVirtualService_safe store "envoy" (Some creator) build client store request _ _ created_call)
    as (vs & res & st & Hc & Hd & _).
  exists vs, st. split; [congruence|]. split; [exact Hd|]. rewrite (d_name _ _ _ _ _ Hd). vm_compute. reflexivity.
Defined.
Lemma create_get_roundtrip_witness :
  ∃ resp, GetVirtualService (Store.SetVirtualService store (set_uid "uv" created)) "uv" = Ok resp ∧
    answers request "uv" resp ∧ gVirtualHost resp = Some ["a.io"; "*.b.io"].
Proof.
  destruct (create_get_roundtrip "envoy" (Some creator) build client pem x509 own (λ _, key log) store store request _ _ "uv"
    store_wf marshal_unmarshal created_call) as (resp & Hr & Ha).
  - discriminate.
  - apply (bool_decide_unpack _). vm_compute. exact I.
  - discriminate.
  - repeat constructor; vm_compute; reflexivity.
  - exists resp. split; [exact Hr|]. split; [exact Ha|]. by destruct Ha as (_ & _ & _ & _ & _ & _ & _ & _ & _ & _ & -> & _).
Defined.

(** The store after the service was created and read by the controller. *)
Definition store1 : Store.OptimizedStore := Store.SetVirtualService store (set_uid "uv" created).
Definition updater_user (actions : list string) : Authorizer := user ActionUpdateVirtualService actions.
Definition update (template : string) : UpdateVirtualServiceRequest :=
  mkUpdate "uv" ["n3"] template "" (Some ["c.io"]) None [] [] None [] "changed" ∅.
Definition allowed_user : Authorizer :=
  updater_user [ActionUpdateVirtualService; ActionListVirtualServiceTemplates].
Lemma UpdateVirtualService_safe_witness :
  ∃ old vs, Store.GetVirtualServiceByUID store1 "uv" = Some old ∧
    updates store1 "envoy" (Some allowed_user) (update "ut") old vs ∧ Api.GetDescription vs = "changed" ∧
    nilmap_get (Annotations (meta vs)) Api.AnnotationNodeIDs = Some "n3".
Proof.
  destruct (UpdateVirtualService build store1 client "envoy" (Some allowed_user) (Some (update "ut"))) as [[r o] s'] eqn:Hu.
  assert (is_Some o) as [call Hcall].
  { assert (o = (UpdateVirtualService build store1 client "envoy" (Some allowed_user) (Some (update "ut"))).1.2) as ->
      by (by rewrite Hu). eexists. vm_compute. reflexivity. }
  rewrite Hcall in Hu.
  destruct (UpdateVirtualService_safe build store1 client "envoy" (Some allowed_user) (update "ut") r call s' Hu)
    as (old & vs & res & st & s1 & Ho & _ & Hup & _).
  exists old, vs. split; [exact Ho|]. split; [exact Hup|]. split; [apply (u_description _ _ _ _ _ _ Hup)|].
  rewrite (u_nodeIDs _ _ _ _ _ _ Hup). reflexivity.
Defined.

(** The user may list the route, and it is in the general group. *)
Lemma ListRoutes_spec_witness :
  ∃ items, ListRoutes None "team" [route] = Ok items ∧ mkItem "ur" "r" "" "[]" ∈ items.
Proof.
  destruct (ListRoutes None "team" [route]) as [items|e] eqn:Hl; [|exfalso; revert Hl; by vm_compute].
  exists items. split; [reflexivity|]. apply (ListRoutes_spec None "team" [route] items Hl).
  exists route. split; [left|]. split; [by right|]. split; by vm_compute.
Defined.
Lemma ListVirtualServices_spec_witness :
  ∃ items i, ListVirtualServices store1 None "team" [set_uid "uv" created] = Ok items ∧ i ∈ items ∧ vName i = "web".
Proof.
  destruct (ListVirtualServices store1 None "team" [set_uid "uv" created]) as [items|e] eqn:Hl;
    [|exfalso; revert Hl; by vm_compute].
  exists items, (list_item "team" (set_uid "uv" created) (Some (mkObjRef "ut" "t"))). split; [reflexivity|].
  split; [|vm_compute; reflexivity]. apply (ListVirtualServices_spec store1 None "team" _ items Hl).
  eexists _, (Some _). split; [left|]. split_and!; [vm_compute; reflexivity..|reflexivity].
Defined.

(** A secret for a domain, with a certificate that has not expired. *)
Definition secret : Secret :=
  mkSecret (mkMeta "s" "ns" "us" 1 (Some {[Api.AnnotationSecretDomains := "a.io"]}) None)
    (Some {["tls.crt" := "crt"; "tls.key" := "key"]}).
Definition store2 : Store.OptimizedStore := Store.SetSecret pem x509 store secret.
Definition parse_cert (_ : string) : result Certificate := Ok (mkCert "ca" 100).
Definition host_ok (_ : Certificate) (h : string) : option error :=
  if decide (h = "a.io") then None else Some (ErrNew "name mismatch").
Lemma VerifyDomains_spec_witness :
  ∃ r, r ∈ VerifyDomains pem parse_cert host_ok store2 (λ _, 10%Z) (λ _, 11%Z) ["a.io"] ∧ ValidCertificate r = true.
Proof.
  eexists (verifyDomainWithFallback pem parse_cert host_ok store2 10 11 "a.io"). split; [left|].
  apply (VerifyDomains_spec pem parse_cert host_ok store2 (λ _, 10%Z) (λ _, 11%Z) ["a.io"]); [left|].
  exists secret. do 4 eexists. split; [vm_compute; reflexivity|]. split; [vm_compute; reflexivity|].
  split; [vm_compute; reflexivity|]. split; [vm_compute; reflexivity|]. split; [cbn; lia|vm_compute; reflexivity].
Defined.

(** A user who may create the service in the group "team" and fill templates of the
    general group, with the action of the call in progress. *)
Definition designer (action : string) : Authorizer :=
  mkAuthorizer "ann" [] action
    (mkEnforcer (λ _ dom _ act, Ok (bool_decide
         (dom = "team" ∧ act ∈ [ActionCreateVirtualService; ActionListVirtualServiceTemplates; ActionListListeners;
                                ActionListRoutes; ActionListAccessLogConfigs] ∨
          dom = GeneralAccessGroup ∧ act = ActionFillTemplate)))
       (λ _, ["team"; GeneralAccessGroup]) None (λ _ _, Ok []) (Ok 1) []).
Definition created0 : VirtualService :=
  match CreateVirtualService build store client "envoy" (Some (designer ActionCreateVirtualService)) store (Some request) with
  | (_, Some (CallCreate vs)) => vs
  | _ => new_vs
  end.
Definition eord (m : gmap string string) : list string := (map_to_list m).*1.
Lemma preview_matches_creation_witness :
  FillTemplate store (Some (designer ActionFillTemplate)) eord (preview_of request false) = Ok "{}" ∧
  VirtualHostRaw (Common (vs_spec created0)) = Some (mkRaw (Some "team-web-virtual-host,a.io,*.b.io") None).
Proof.
  split; [|vm_compute; reflexivity].
  rewrite (preview_matches_creation store "envoy" (Some (designer ActionCreateVirtualService)) build client store request
    (Ok tt) created0 template eord false (Some (designer ActionFillTemplate))).
  - vm_compute. reflexivity.
  - vm_compute. reflexivity.
  - vm_compute. reflexivity.
  - vm_compute. reflexivity.
  - apply (bool_decide_unpack _). vm_compute. exact I.
Defined.
(** The right to create a service from a template is not the right to preview it. *)
Example preview_needs_own_permission :
  CreateVirtualService build store client "envoy" (Some creator) store (Some request) = (Ok tt, Some (CallCreate created)) ∧
  is_ok (FillTemplate store (Some creator) eord (preview_of request false)) = false.
Proof. split; [apply created_call|]. vm_compute. reflexivity. Qed.
Lemma expanded_map_spec_witness :
  ∃ m, expanded_map store created0 = Ok m ∧ ∃ items, m !! "additionalRoutes" = Some (Merge.JArr items).
Proof.
  destruct (expanded_map store created0) as [m|e] eqn:Hm; [|exfalso; revert Hm; by vm_compute].
  exists m. split; [reflexivity|].
  destruct (expanded_map_spec store created0 m Hm) as (data & m0 & _ & _ & _ & _ & Hr & _).
  destruct Hr as (items & Hi & _); [vm_compute; discriminate|]. exists items. exact Hi.
Defined.

(** ** Behaviours that surprise *)
(** A refused update (its template does not exist) has already replaced the node
    IDs of the service in the store: the next rebuild serves the new nodes. *)
Example failed_update_edits_store :
  let '(r, call, store') := UpdateVirtualService build store1 client "envoy" (Some allowed_user) (Some (update "nope")) in
  is_ok r = false ∧ call = None ∧
  (Api.GetNodeIDs <$> Store.GetVirtualService store1 (Helpers.mkNN "envoy" "team-web")) = Some ["n1"; "n2"] ∧
  (Api.GetNodeIDs <$> Store.GetVirtualService store' (Helpers.mkNN "envoy" "team-web")) = Some ["n3"].
Proof. vm_compute. by split_and!. Qed.

(** A user without the permission to update the service may update it all the
    same: only the permission to list the template is asked for. *)
Example update_needs_no_permission :
  let bob := updater_user [ActionListVirtualServiceTemplates] in
  let '(r, call, _) := UpdateVirtualService build store1 client "envoy" (Some bob) (Some (update "ut")) in
  Authorize (GetAuthorizerFromContext (Some bob)) "team" "team-web" = Ok false ∧ r = Ok tt ∧
  match call with Some (CallUpdate vs) => Api.GetDescription vs = "changed" | _ => False end.
Proof. vm_compute. by split_and!. Qed.

(** Reading a service whose template is gone panics, while the listing skips it. *)
Example missing_template_panics :
  let gone := Store.DeleteVirtualServiceTemplate store1 (key template) in
  GetVirtualService gone "uv" = Err nil_deref ∧ ListVirtualServices gone None "team" [set_uid "uv" created] = Ok [].
Proof. vm_compute. by split. Qed.

(** A single letter is refused, although it starts and ends with a letter. *)
Example one_letter_name_refused : is_ok (validateName "a") = false ∧ validateName "ab" = Ok tt.
Proof. vm_compute. by split. Qed.
End GrpcExamples.
