(* ===== verification/Clients.v ===== *)
(** * [internal/xds/clients] and [internal/xds/callbacks.go]: the connected Envoys

    The registry of streams and the callbacks the xDS server makes.  Callbacks of
    different streams interleave: a history is the list of callbacks in the order
    their critical sections ran.  A callback that dereferences a missing node
    panics. *)

From S2P Require Import Prelude GoStrings.

Module Clients.

(** ** [registry.go] *)
Record Info := mkInfo { ID : Z; NodeID : string; Version : string; Address : string }.
Global Instance Info_eq_dec : EqDecision Info.
Proof. solve_decision. Defined.
Abbreviation Registry := (gmap Z Info).
Definition NewRegistry : Registry := ∅.
Definition Set_ (r : Registry) (id : Z) (ci : Info) : Registry := <[id := ci]> r.
Definition Update (r : Registry) (id : Z) (ci : Info) : Registry :=
  match r !! id with
  | None => <[id := ci]> r
  | Some prev => <[id := mkInfo (ID prev) (NodeID ci) (Version ci) (Address prev)]> r
  end.
Definition Delete (r : Registry) (id : Z) : Registry := delete id r.

Definition id_le (x y : Info) : Prop := (ID x <= ID y)%Z.
Global Instance id_le_dec : RelDecision id_le := λ x y, Z_le_dec (ID x) (ID y).
(** [order] is the order in which Go visits the map. *)
Definition List_ (order : Registry → list (Z * Info)) (r : Registry) : list Info := merge_sort id_le (order r).*2.

(** ** [callbacks.go] *)
(** [UserAgentBuildVersion.Version] may be missing. *)
Record SemanticVersion := mkSemver { MajorNumber : N; MinorNumber : N; Patch : N }.
Definition semver (ver : option SemanticVersion) : string :=
  match ver with
  | None => "-"
  | Some v => "v" +:+ pretty (MajorNumber v) +:+ "." +:+ pretty (MinorNumber v) +:+ "." +:+ pretty (Patch v)
  end.
Record Node := mkNode { nodeId : string; nodeVersion : option SemanticVersion }.

(** The signal is a channel, closed at most once; [Closed] counts the closings. *)
Record Callbacks := mkCallbacks {
  Signal : bool; Closed : nat;
  Fetches : Z; Requests : Z; Responses : Z; DeltaRequests : Z; DeltaResponses : Z;
  connectedClients : Registry
}.
Definition NewCallbacks (registry : Registry) : Callbacks := mkCallbacks false 0 0 0 0 0 0 registry.
Definition set_clients (cb : Callbacks) (r : Registry) : Callbacks :=
  mkCallbacks (Signal cb) (Closed cb) (Fetches cb) (Requests cb) (Responses cb) (DeltaRequests cb) (DeltaResponses cb) r.
(** [if cb.Signal != nil { close(cb.Signal); cb.Signal = nil }] *)
Definition close_signal (cb : Callbacks) : Callbacks :=
  mkCallbacks false (if Signal cb then S (Closed cb) else Closed cb)
    (Fetches cb) (Requests cb) (Responses cb) (DeltaRequests cb) (DeltaResponses cb) (connectedClients cb).
Definition inc (z : Z) : Z := GoStrings.wrap64 (z + 1).

Definition OnStreamOpen (cb : Callbacks) (id : Z) : Callbacks := cb.
Definition OnStreamClosed (cb : Callbacks) (id : Z) (node : option Node) : result Callbacks :=
  match node with
  | None => Err nil_deref
  | Some _ => Ok (set_clients cb (Delete (connectedClients cb) id))
  end.
Definition OnDeltaStreamOpen (cb : Callbacks) (id : Z) (addr : option string) : Callbacks :=
  set_clients cb (Set_ (connectedClients cb) id (mkInfo id "" "" (default "" addr))).
Definition OnDeltaStreamClosed (cb : Callbacks) (id : Z) (node : option Node) : result Callbacks :=
  match node with
  | None => Err nil_deref
  | Some _ => Ok (set_clients cb (Delete (connectedClients cb) id))
  end.
(** The client a request announces. *)
Definition announced (id : Z) (n : Node) : Info := mkInfo id (nodeId n) (semver (nodeVersion n)) "".
Definition OnStreamRequest (cb : Callbacks) (id : Z) (node : option Node) : result Callbacks :=
  let cb := close_signal (mkCallbacks (Signal cb) (Closed cb) (Fetches cb) (inc (Requests cb)) (Responses cb)
              (DeltaRequests cb) (DeltaResponses cb) (connectedClients cb)) in
  match node with
  | None => Err nil_deref
  | Some n => Ok (set_clients cb (Update (connectedClients cb) id (announced id n)))
  end.
Definition OnStreamResponse (cb : Callbacks) (node : option Node) : result Callbacks :=
  match node with
  | None => Err nil_deref
  | Some _ => Ok (mkCallbacks (Signal cb) (Closed cb) (Fetches cb) (Requests cb) (inc (Responses cb)) (DeltaRequests cb)
                    (DeltaResponses cb) (connectedClients cb))
  end.
Definition OnStreamDeltaResponse (cb : Callbacks) : Callbacks :=
  mkCallbacks (Signal cb) (Closed cb) (Fetches cb) (Requests cb) (Responses cb) (DeltaRequests cb)
    (inc (DeltaResponses cb)) (connectedClients cb).
Definition OnStreamDeltaRequest (cb : Callbacks) (id : Z) (node : option Node) : result Callbacks :=
  let cb := close_signal (mkCallbacks (Signal cb) (Closed cb) (Fetches cb) (Requests cb) (Responses cb)
              (inc (DeltaRequests cb)) (DeltaResponses cb) (connectedClients cb)) in
  match node with
  | None => Err nil_deref
  | Some n => Ok (set_clients cb (Update (connectedClients cb) id (announced id n)))
  end.
Definition OnFetchRequest (cb : Callbacks) : Callbacks :=
  close_signal (mkCallbacks (Signal cb) (Closed cb) (inc (Fetches cb)) (Requests cb) (Responses cb) (DeltaRequests cb)
    (DeltaResponses cb) (connectedClients cb)).
Definition OnFetchResponse (cb : Callbacks) : Callbacks := cb.

(** ** Histories *)
Inductive event :=
| EOpen (id : Z) | EClosed (id : Z) (node : option Node)
| EDeltaOpen (id : Z) (addr : option string) | EDeltaClosed (id : Z) (node : option Node)
| ERequest (id : Z) (node : option Node) | EResponse (id : Z) (node : option Node)
| EDeltaRequest (id : Z) (node : option Node) | EDeltaResponse (id : Z)
| EFetchRequest | EFetchResponse.
Inductive step : Callbacks → event → Callbacks → Prop :=
| step_open cb id : step cb (EOpen id) (OnStreamOpen cb id)
| step_closed cb id node cb' : OnStreamClosed cb id node = Ok cb' → step cb (EClosed id node) cb'
| step_delta_open cb id addr : step cb (EDeltaOpen id addr) (OnDeltaStreamOpen cb id addr)
| step_delta_closed cb id node cb' : OnDeltaStreamClosed cb id node = Ok cb' → step cb (EDeltaClosed id node) cb'
| step_request cb id node cb' : OnStreamRequest cb id node = Ok cb' → step cb (ERequest id node) cb'
| step_response cb id node cb' : OnStreamResponse cb node = Ok cb' → step cb (EResponse id node) cb'
| step_delta_request cb id node cb' : OnStreamDeltaRequest cb id node = Ok cb' → step cb (EDeltaRequest id node) cb'
| step_delta_response cb id : step cb (EDeltaResponse id) (OnStreamDeltaResponse cb)
| step_fetch_request cb : step cb EFetchRequest (OnFetchRequest cb)
| step_fetch_response cb : step cb EFetchResponse (OnFetchResponse cb).
(** [run h cb]: the callbacks of the history [h], oldest first, lead to [cb]. *)
Inductive run (cb0 : Callbacks) : list event → Callbacks → Prop :=
| run_nil : run cb0 [] cb0
| run_snoc h e cb cb' : run cb0 h cb → step cb e cb' → run cb0 (h ++ [e]) cb'.

(** The events that matter to the entry of a stream. *)
Inductive change := Opened (addr : string) | Announced (n : Node) | Ended.
Definition change_of (id : Z) (e : event) : option change :=
  match e with
  | EDeltaOpen i addr => if decide (i = id) then Some (Opened (default "" addr)) else None
  | EClosed i _ | EDeltaClosed i _ => if decide (i = id) then Some Ended else None
  | ERequest i (Some n) | EDeltaRequest i (Some n) => if decide (i = id) then Some (Announced n) else None
  | _ => None
  end.
Definition changes (id : Z) (h : list event) : list change := omap (M := list) (change_of id) h.

(** ** Properties *)
Definition apply_change (id : Z) (o : option Info) (c : change) : option Info :=
  match c with
  | Opened addr => Some (mkInfo id "" "" addr)
  | Announced n => Some (mkInfo id (nodeId n) (semver (nodeVersion n)) (default "" (Address <$> o)))
  | Ended => None
  end.
Definition ids_ok (r : Registry) : Prop := ∀ id i, r !! id = Some i → ID i = id.

Lemma step_entry cb e cb' id :
  ids_ok (connectedClients cb) → step cb e cb' →
  connectedClients cb' !! id =
    match change_of id e with Some c => apply_change id (connectedClients cb !! id) c | None => connectedClients cb !! id end.
Proof.
  assert (∀ r i n, ids_ok r → Update r i (announced i n) !! id =
    if decide (i = id) then apply_change id (r !! id) (Announced n) else r !! id) as Hup.
  { intros r i n Hr. unfold Update. case_decide as Hi.
    - subst i. destruct (r !! id) as [p|] eqn:Hp; rewrite lookup_insert_eq; cbn; [|done]. by rewrite (Hr _ _ Hp).
    - by case_match; rewrite lookup_insert_ne. }
  intros Hok Hs. destruct Hs as [| cb i node cb' Hc | cb i addr | cb i node cb' Hc | cb i node cb' Hc
    | cb i node cb' Hc | cb i node cb' Hc | | |]; cbn; try done.
  - destruct node; [|done]. injection Hc as <-. cbn. unfold Delete. case_decide as Hi.
    + subst. by rewrite lookup_delete_eq.
    + by rewrite lookup_delete_ne.
  - unfold Set_. case_decide as Hi; [subst; by rewrite lookup_insert_eq|by rewrite lookup_insert_ne].
  - destruct node; [|done]. injection Hc as <-. cbn. unfold Delete. case_decide as Hi.
    + subst. by rewrite lookup_delete_eq.
    + by rewrite lookup_delete_ne.
  - destruct node as [n|]; [|done]. injection Hc as <-. cbn. rewrite Hup by done. by case_decide.
  - destruct node; [|done]. by injection Hc as <-.
  - destruct node as [n|]; [|done]. injection Hc as <-. cbn. rewrite Hup by done. by case_decide.
Qed.

Lemma change_id id o c i : apply_change id o c = Some i → ID i = id.
Proof. destruct c; cbn; naive_solver. Qed.
Lemma run_ids cb0 h cb : ids_ok (connectedClients cb0) → run cb0 h cb → ids_ok (connectedClients cb).
Proof.
  intros H0. induction 1 as [|h e cb cb' _ IH Hs]; [done|]. intros id i. rewrite (step_entry _ _ _ id IH Hs).
  destruct (change_of id e); [apply change_id|apply IH].
Qed.
Lemma run_entry cb0 h cb id :
  ids_ok (connectedClients cb0) → run cb0 h cb →
  connectedClients cb !! id = foldl (apply_change id) (connectedClients cb0 !! id) (changes id h).
Proof.
  intros H0 Hr. induction Hr as [|h e cb cb' Hr IH Hs]; [done|].
  rewrite (step_entry _ _ _ id (run_ids _ _ _ H0 Hr) Hs). unfold changes in *. rewrite omap_app, foldl_app, <-IH. cbn.
  by destruct (change_of id e).
Qed.
Lemma announced_last id o ns n :
  foldl (apply_change id) o (Announced <$> (ns ++ [n])) =
  Some (mkInfo id (nodeId n) (semver (nodeVersion n)) (default "" (Address <$> o))).
Proof.
  rewrite fmap_app, foldl_app. cbn. do 2 f_equal. clear n. revert o. induction ns as [|n ns IH]; intros o; cbn; [done|].
  rewrite IH. done.
Qed.

(** The client of a stream, from its changes since it was opened. *)
Definition client_of (id : Z) (addr : option string) (ns : list Node) : option Info :=
  match last ns, addr with
  | Some n, _ => Some (mkInfo id (nodeId n) (semver (nodeVersion n)) (default "" addr))
  | None, Some a => Some (mkInfo id "" "" a)
  | None, None => None
  end.

(** C35. Whatever the other streams do in between, the registry holds for a stream
    that was opened and sent requests the node and version of the last one (and the
    peer's address on a delta stream), and nothing once the stream is closed. *)
Theorem registry_follows_streams h cb id h1 ns :
  run (NewCallbacks NewRegistry) h cb →
  (∀ addr, changes id h = h1 ++ Opened addr :: (Announced <$> ns) →
     connectedClients cb !! id = client_of id (Some addr) ns) ∧
  ((h1 = [] ∨ last h1 = Some Ended) → changes id h = h1 ++ (Announced <$> ns) →
     connectedClients cb !! id = client_of id None ns).
Proof.
  intros Hr. assert (ids_ok (connectedClients (NewCallbacks NewRegistry))) as H0 by (intros i j; cbn; unfold NewRegistry; by rewrite lookup_empty).
  pose proof (run_entry _ _ _ id H0 Hr) as He. split.
  - intros addr Hc. rewrite He, Hc, foldl_app. cbn. destruct ns as [|n ns _] using rev_ind; [done|].
    rewrite announced_last. unfold client_of. by rewrite last_snoc.
  - intros Hend Hc. rewrite He, Hc, foldl_app.
    assert (foldl (apply_change id) (connectedClients (NewCallbacks NewRegistry) !! id) h1 = None) as ->.
    { destruct Hend as [->|Hl]; [cbn; unfold NewRegistry; by rewrite lookup_empty|].
      destruct h1 as [|c h1 _] using rev_ind; [done|]. rewrite last_snoc in Hl. injection Hl as ->.
      by rewrite foldl_app. }
    destruct ns as [|n ns _] using rev_ind; [done|]. rewrite announced_last. unfold client_of. by rewrite last_snoc.
Qed.

(** The histories that run are those on which no callback panics. *)
Definition exec (cb : Callbacks) (e : event) : result Callbacks :=
  match e with
  | EOpen id => Ok (OnStreamOpen cb id)
  | EClosed id node => OnStreamClosed cb id node
  | EDeltaOpen id addr => Ok (OnDeltaStreamOpen cb id addr)
  | EDeltaClosed id node => OnDeltaStreamClosed cb id node
  | ERequest id node => OnStreamRequest cb id node
  | EResponse _ node => OnStreamResponse cb node
  | EDeltaRequest id node => OnStreamDeltaRequest cb id node
  | EDeltaResponse _ => Ok (OnStreamDeltaResponse cb)
  | EFetchRequest => Ok (OnFetchRequest cb)
  | EFetchResponse => Ok (OnFetchResponse cb)
  end.
Lemma exec_step cb e cb' : step cb e cb' ↔ exec cb e = Ok cb'.
Proof.
  split; [by intros []|]. destruct e; cbn; intros He; try (by constructor); injection He as <-; constructor.
Qed.
Lemma run_exec cb0 h cb : run cb0 h cb ↔ fold_result exec cb0 h = Ok cb.
Proof.
  split.
  - induction 1 as [|h e cb cb' _ IH Hs]; [done|]. rewrite fold_result_app, IH. cbn.
    apply exec_step in Hs. by rewrite Hs.
  - revert cb. induction h as [|e h IH] using rev_ind; intros cb; cbn.
    + intros [= <-]. constructor.
    + rewrite fold_result_app. intros (cb1 & H1%IH & H2)%bind_Ok_inv. cbn in H2.
      apply bind_Ok_inv in H2 as (cb2 & H2%exec_step & [= <-]). by econstructor.
Qed.

Definition ex_history : list event :=
  [EDeltaOpen 1 (Some "10.0.0.1"); EOpen 2; EDeltaRequest 1 (Some (mkNode "n1" None)); ERequest 2 (Some (mkNode "n2" None));
   EDeltaRequest 1 (Some (mkNode "n1" (Some (mkSemver 1 31 2)))); EClosed 2 (Some (mkNode "n2" None))].
Lemma registry_follows_streams_witness :
  ∃ cb, fold_result exec (NewCallbacks NewRegistry) ex_history = Ok cb ∧
    connectedClients cb !! 1%Z = Some (mkInfo 1 "n1" "v1.31.2" "10.0.0.1") ∧ connectedClients cb !! 2%Z = None.
Proof.
  destruct (fold_result exec (NewCallbacks NewRegistry) ex_history) as [cb|e] eqn:Hr; [|exfalso; revert Hr; by vm_compute].
  exists cb. split; [reflexivity|]. apply run_exec in Hr. split.
  - rewrite (proj1 (registry_follows_streams ex_history cb 1 [] [mkNode "n1" None; mkNode "n1" (Some (mkSemver 1 31 2))] Hr)
      "10.0.0.1"); vm_compute; reflexivity.
  - rewrite (proj2 (registry_follows_streams ex_history cb 2 [Announced (mkNode "n2" None); Ended] [] Hr));
      [vm_compute; reflexivity|right; vm_compute; reflexivity|vm_compute; reflexivity].
Defined.

(** The listing shows every registered client once, in the order of the streams. *)
Lemma List_spec order r :
  (∀ r, order r ≡ₚ map_to_list r) → ids_ok r →
  (∀ i, i ∈ List_ order r ↔ r !! ID i = Some i) ∧ StronglySorted id_le (List_ order r) ∧ NoDup (ID <$> List_ order r).
Proof.
  intros Hord Hok. unfold List_.
  assert (merge_sort id_le (order r).*2 ≡ₚ (map_to_list r).*2) as Hp by (by rewrite merge_sort_Permutation, Hord).
  split_and!.
  - intros i. rewrite Hp, list_elem_of_fmap. split.
    + intros ([id j] & -> & Hj%elem_of_map_to_list). cbn. by rewrite (Hok _ _ Hj).
    + intros Hi. exists (ID i, i). split; [done|]. by apply elem_of_map_to_list.
  - apply StronglySorted_merge_sort; [intros x y z; unfold id_le; lia|intros x y; unfold id_le; lia].
  - rewrite Hp, <-list_fmap_compose.
    assert ((ID ∘ snd) <$> map_to_list r = (map_to_list r).*1) as ->; [|apply NoDup_fst_map_to_list].
    apply list_fmap_ext. intros k [id j] Hj%list_elem_of_lookup_2%elem_of_map_to_list. cbn. by apply Hok.
Qed.

(** The signal is closed by the first request only. *)
Lemma signal_closed_once cb0 h cb : Closed cb0 = 0 → run cb0 h cb →
  Closed cb ≤ 1 ∧ (Closed cb = 1 → Signal cb = false).
Proof.
  intros H0. induction 1 as [|h e cb cb' _ IH Hs]; [lia|].
  destruct Hs; cbn; repeat match goal with H : _ = Ok _ |- _ => unfold OnStreamClosed, OnDeltaStreamClosed,
    OnStreamRequest, OnStreamResponse, OnStreamDeltaRequest in H; destruct node; [injection H as <-|done] end; cbn; try done;
    destruct (Signal cb); cbn; naive_solver lia.
Qed.
End Clients.
