(* ===== verification/Rest.v ===== *)
(** * [internal/xds/api/v1]: the REST view of the snapshot cache

    The access control list ([middlewares/auth.go]) and the read-only handlers of
    [handlers/]: nodes, listeners, clusters, route configurations, secrets, filters
    and domains.  A handler answers with a body, or with a status and a message;
    [Crash] is a panic, which the framework turns into a 500.  The snapshot cache is
    the one of [SnapshotCache], behind its interface. *)

From Stdlib Require Import Ascii.
From S2P Require Import Prelude GoStrings Types DomainSecrets SnapshotCache.

Module Rest.
Import Envoy.

(** ** Replies *)
Inductive reply (B : Type) : Type :=
| Json (b : B) | Fail (code : Z) (msg : string) | NoBody (code : Z) | Crash (what : string)
(** The answer of the authentication: a message and, in development mode, the error and details. *)
| Refused (code : Z) (message : string) (err details : option string).
Arguments Json {B} b.
Arguments Fail {B} code msg.
Arguments NoBody {B} code.
Arguments Crash {B} what.
Arguments Refused {B} code message err details.
Global Instance reply_ret : MRet reply := λ A a, Json a.
Global Instance reply_bind : MBind reply := λ A B f m,
  match m with Json a => f a | Fail c e => Fail c e | NoBody c => NoBody c | Crash w => Crash w
  | Refused c m e d => Refused c m e d end.
(** [if err != nil { ctx.JSON(code, gin.H{"error": err.Error()}); return }] *)
Definition or_reply {A} (code : Z) (r : result A) : reply A :=
  match r with Ok a => Json a | Err (ErrPanic w) => Crash w | Err e => Fail code (go_Error e) end.

(** ** [middlewares/auth.go] *)
Record aclStore := mkACL { enabled : bool; fullAccess : gset string; nodeIDsByGroup : gmap string (list string) }.
Definition newACLStore (acl : gmap string (list string)) : aclStore :=
  if decide (size acl = 0) then mkACL false ∅ ∅
  else map_fold (λ group nodeIDs store,
         if decide ("*" ∈ nodeIDs) then mkACL true ({[group]} ∪ fullAccess store) (nodeIDsByGroup store)
         else mkACL true (fullAccess store) (<[group := nodeIDs]> (nodeIDsByGroup store))) (mkACL true ∅ ∅) acl.

(** The loop over the groups of the token: [None] is full access. *)
Fixpoint collect_nodes (store : aclStore) (available : gset string) (groups : list string) : option (gset string) :=
  match groups with
  | [] => Some available
  | group :: groups =>
      if decide (group ∈ fullAccess store) then None
      else collect_nodes store
             (match nodeIDsByGroup store !! group with
              | Some nodeIds => list_to_set nodeIds ∪ available | None => available end) groups
  end.
(** What [HandlerFunc] leaves in the context: [None] restricts nothing. *)
Definition available_nodes (store : aclStore) (groups : list string) : option (gset string) :=
  if enabled store then collect_nodes store ∅ groups else None.
(** [c.JSON(401, respMessage(message, details, err))] with an error and details. *)
Definition respMessage {B} (devMode : bool) (message details : string) (err : error) : reply B :=
  if devMode then Refused 401 message (Some (go_Error err)) (if decide (details ≠ "") then Some details else None)
  else Refused 401 message None None.
Definition HandlerFunc {Token} (verify : string → result Token) (claims : Token → result (list string))
    (devMode : bool) (store : aclStore) (token : result string) : reply (option (gset string)) :=
  match token with
  | Err err => respMessage devMode "Unauthorized" "failed to extract token" err
  | Ok token =>
      match verify token with
      | Err err => respMessage devMode "Unauthorized" "failed to verify token" err
      | Ok idToken =>
          match claims idToken with
          | Err err => respMessage devMode "Unauthorized" "failed to get claims" err
          | Ok groups => Json (available_nodes store groups)
          end
      end
  end.

(** ** [utils.go]: parameters *)
Definition nodeIDParamName : string := "node_id".
Definition listenerParamName : string := "listener_name".
Definition filterChainParamName : string := "filter_chain_name".
Definition filterParamName : string := "filter_name".
Definition httpFilterParamName : string := "http_filter_name".
Definition routeConfigurationParamName : string := "route_configuration_name".
Definition clustersParamName : string := "cluster_name".
Definition secretParamName : string := "secret_name".
Definition domainParamName : string := "domain_name".

(** [url.Values] *)
Abbreviation Values := (gmap string (list string)).
Definition getNotRequiredOnlyOneParam (q : Values) (param : string) : result string :=
  match q !! param with
  | None => Ok ""
  | Some [v] => Ok v
  | Some _ => Err (ErrNew ("only 1 " +:+ param +:+ " is allowed"))
  end.
Definition getRequiredOnlyOneParam (q : Values) (param : string) : result string :=
  match q !! param with
  | None => Err (ErrNew ("param " +:+ param +:+ " is required"))
  | Some [v] => Ok v
  | Some _ => Err (ErrNew ("only 1 " +:+ param +:+ " is allowed"))
  end.
Record getParam := mkParam { pName : string; required : bool }.
(** The values are slices of length one; the map holds their element. *)
Definition getParams (q : Values) (params : list getParam) : result (gmap string string) :=
  fold_result (λ m p,
    v ← (if required p then getRequiredOnlyOneParam q (pName p) else getNotRequiredOnlyOneParam q (pName p));
    Ok (<[pName p := v]> m)) ∅ params.
(** [params[name][0]] *)
Definition param (m : gmap string string) (name : string) : string := default "" (m !! name).

(** ** Libraries *)
Inductive RouteSpecifier :=
| Rds (routeConfigName : string) | InlineRoutes (vhs : list VirtualHost) | ScopedRoutes | NoRoutes.
(** A connection manager as the handlers read it, with the message they print. *)
Record Manager := mkManager { mRoutes : RouteSpecifier; mHttpFilters : list HttpFilterV3; mMessage : string }.
Class RestLib := {
  (** [resourcev3.GetHTTPConnectionManager]; nil for another filter *)
  GetHTTPConnectionManager : Filter → option Manager;
  (** [typedConfig.UnmarshalTo] of a TCP proxy, a router and an RBAC message *)
  to_TcpProxy : AnyPb → result string;
  to_Router : AnyPb → result string;
  to_RBAC : AnyPb → result string
}.
(** [x509.Certificate] as the handlers read it; the strings are its renderings. *)
Record X509 := mkX509 {
  SerialNumber : string; Subject : string; Issuer : string; NotBefore : DomainSecrets.Time;
  NotAfter : DomainSecrets.Time; RawBytes : string; DNSNames : list string
}.
(** PEM and X.509: the next block of the input, certificates, PKCS#1 keys, the
    encoding of a block; [%q] and the two formats of a time. *)
Class CertLib := {
  pem_Decode : string → option (DomainSecrets.PemBlock * string);
  pem_EncodeToMemory : string → string → string;
  x509_ParseCertificate : string → result X509;
  x509_ParsePKCS1PrivateKey : string → option error;
  sprintf_q : string → string;
  Time_String : DomainSecrets.Time → string;
  Time_RFC3339 : DomainSecrets.Time → string
}.

Section handlers.
Context {RL : RestLib} `{CA : CacheAPI}.
Context (c : SnapshotCache.t) (available : option (gset string)).

Definition getAvailableNodeIDs : list string :=
  let allNodeIDs := SnapshotCache.GetNodeIDs c in
  match available with Some s => filter (.∈ s) allNodeIDs | None => allNodeIDs end.
(** [if !slices.Contains(nodeIDs, nodeID) { ctx.JSON(400, ...); return }] *)
Definition check_node (nodeID : string) : reply unit :=
  if decide (nodeID ∈ getAvailableNodeIDs) then Json tt else Fail 400 "node_id not found in cache".

(** The first of a list with the name. *)
Definition by_name {A} (name_of : A → string) (name : string) (l : list A) : option A :=
  snd <$> list_find (λ x, name_of x = name) l.
Definition getListenerByName (nodeID listenerName : string) : result ListenerV3 :=
  listeners ← SnapshotCache.GetListeners c nodeID;
  match by_name lName listenerName listeners with
  | Some l => Ok l | None => Err (ErrNew ("listener " +:+ listenerName +:+ " not found")) end.
Definition getListenersAll (nodeID : string) : result (list ListenerV3) := SnapshotCache.GetListeners c nodeID.
Definition getRouteConfigurationByName (nodeID name : string) : result RouteConfiguration :=
  resources ← SnapshotCache.GetRouteConfigurations c nodeID;
  match by_name rcName name resources with
  | Some rc => Ok rc | None => Err (ErrNew ("RouteConfiguration " +:+ name +:+ " not found")) end.
Definition getRouteConfigurationsAll (nodeID : string) := SnapshotCache.GetRouteConfigurations c nodeID.
Definition getClusterByName (nodeID clusterName : string) : result ClusterV3 :=
  resources ← SnapshotCache.GetClusters c nodeID;
  match by_name cName clusterName resources with
  | Some cl => Ok cl | None => Err (ErrNew ("cluster " +:+ clusterName +:+ " not found")) end.
Definition getClustersAll (nodeID : string) := SnapshotCache.GetClusters c nodeID.
(** The wrapper returns clones: emptying them leaves the cache as it is. *)
Definition clearSecretData (secret : SecretV3) : SecretV3 := mkSV3 (sName secret) "" "".
Definition getSecretByName (nodeID secretName : string) : result SecretV3 :=
  secrets ← SnapshotCache.GetSecrets c nodeID;
  match by_name sName secretName secrets with
  | Some s => Ok (clearSecretData s) | None => Err (ErrNew ("cluster " +:+ secretName +:+ " not found")) end.
Definition getSecretsAll (nodeID : string) (clearSecret : bool) : result (list SecretV3) :=
  resources ← SnapshotCache.GetSecrets c nodeID;
  Ok (fmap (M := list) (λ s, if clearSecret then clearSecretData s else s) resources).
Definition getFilterChainByName (listener : ListenerV3) (filterChainName : string) : result FilterChain :=
  match by_name fcName filterChainName (lFilterChains listener) with
  | Some fc => Ok fc | None => Err (ErrNew ("filter chain " +:+ filterChainName +:+ " not found")) end.
Definition getFilterByName (filterChain : FilterChain) (name : string) : result Filter :=
  match by_name filterName name (fcFilters filterChain) with
  | Some f => Ok f | None => Err (ErrNew ("filter " +:+ name +:+ " not found")) end.
Definition getRDSNameForFilter (filter : Filter) : string :=
  match mRoutes <$> GetHTTPConnectionManager filter with Some (Rds name) => name | _ => "" end.

(** ** Nodes *)
Definition getNodeIDs : list string := sort_by_key id getAvailableNodeIDs.
Definition getNodeIDsWithResourceVersions : reply (list (string * gmap string string)) :=
  or_reply 500 (map_result (λ nodeID, versionsMap ← SnapshotCache.GetVersions c nodeID; Ok (nodeID, versionsMap))
                  (sort_by_key id getAvailableNodeIDs)).
(** [ctx.Query] is the first value, or the empty string. *)
Definition getResourceVersions (marshal : Resource → result string) (sha : string → string) (q : Values)
  : reply SnapshotCache.ResourceVersions :=
  let nodeID := default "" (q !! "nodeID" ≫= head) in
  if decide (nodeID = "") then Fail 400 "nodeID query parameter is required"
  else or_reply 500 (SnapshotCache.GetResourceVersions marshal sha c nodeID).

(** ** Listeners, clusters, route configurations *)
Definition node_params (names : list string) : list getParam :=
  mkParam nodeIDParamName true :: ((λ n, mkParam n false) <$> names).
(** The parameters, once the node is known to be available. *)
Definition with_node (q : Values) (names : list string) : reply (gmap string string) :=
  params ← or_reply 400 (getParams q (node_params names));
  _ ← check_node (param params nodeIDParamName);
  Json params.
Definition getListeners (q : Values) : reply (list ListenerV3) :=
  params ← with_node q [listenerParamName];
  listeners ← or_reply 500 (SnapshotCache.GetListeners c (param params nodeIDParamName));
  let name := param params listenerParamName in
  if decide (name = "") then Json listeners
  else match by_name lName name listeners with
       | Some l => Json [l] | None => Fail 500 "listener not found" end.
Definition getClusters (q : Values) : reply (list ClusterV3) :=
  params ← with_node q [clustersParamName];
  let nodeID := param params nodeIDParamName in
  if decide (param params clustersParamName = "") then or_reply 500 (getClustersAll nodeID)
  else cl ← or_reply 500 (getClusterByName nodeID (param params clustersParamName)); Json [cl].
Definition getRouteConfigurations (q : Values) : reply (list RouteConfiguration) :=
  params ← with_node q [routeConfigurationParamName];
  let nodeID := param params nodeIDParamName in
  if decide (param params routeConfigurationParamName = "") then or_reply 500 (getRouteConfigurationsAll nodeID)
  else rc ← or_reply 500 (getRouteConfigurationByName nodeID (param params routeConfigurationParamName)); Json [rc].

(** ** Secrets *)
Definition getSecrets (q : Values) : reply (list SecretV3) :=
  params ← with_node q [secretParamName];
  let nodeID := param params nodeIDParamName in
  if decide (param params secretParamName = "") then or_reply 500 (getSecretsAll nodeID true)
  else s ← or_reply 500 (getSecretByName nodeID (param params secretParamName)); Json [s].

(** *** One secret by its namespaced name *)
Section certificates.
Context {CL : CertLib}.
(** [for block, rest := pem.Decode(data); block != nil; ...]: [None] when the fuel
    runs out. *)
Fixpoint parsePEM_loop (fuel : nat) (rest : string) (certs : list X509) : option (result (list X509)) :=
  match fuel with
  | 0 => None
  | S fuel =>
      match pem_Decode rest with
      | None => Some (Ok certs)
      | Some (block, rest) =>
          if decide (DomainSecrets.BlockType block = "CERTIFICATE") then
            match x509_ParseCertificate (DomainSecrets.BlockBytes block) with
            | Err e => Some (Err e)
            | Ok cert => parsePEM_loop fuel rest (certs ++ [cert])
            end
          else if decide (DomainSecrets.BlockType block = "PRIVATE KEY") then
            match x509_ParsePKCS1PrivateKey (DomainSecrets.BlockBytes block) with
            | Some e => Some (Err e)
            | None => parsePEM_loop fuel rest certs
            end
          else Some (Err (ErrNew ("unknown block type " +:+ sprintf_q (DomainSecrets.BlockType block))))
      end
  end.
Definition parsePEM (data : string) : option (result (list X509)) := parsePEM_loop (S (String.length data)) data [].

Record CertResponse := mkCertResponse {
  crSerial : string; crSubject : string; crNotBefore : string; crNotAfter : string; crIssuer : string;
  crRaw : string; crDNSNames : list string
}.
Definition cert_response (cert : X509) : CertResponse :=
  mkCertResponse (SerialNumber cert) (Subject cert) (Time_String (NotBefore cert)) (Time_String (NotAfter cert))
    (Issuer cert) (pem_EncodeToMemory "CERTIFICATE" (RawBytes cert)) (DNSNames cert).
Record secretResponse := mkSecretResponse { srName : string; srNamespace : string; srType : string; srCerts : list CertResponse }.
Definition slash : ascii := "/"%char.
Definition is_named (namespace name : string) (secret : SecretV3) : Prop :=
  GoStrings.Split slash (sName secret) = [namespace; name].
Global Instance is_named_dec namespace name secret : Decision (is_named namespace name secret).
Proof. unfold is_named. apply _. Defined.
(** One node: the first secret with the name; its certificates are appended. *)
Definition secret_on_node (namespace name : string) (acc : option secretResponse) (nodeID : string)
  : result (option secretResponse) :=
  secrets ← getSecretsAll nodeID false;
  match list_find (is_named namespace name) secrets with
  | None => Ok acc
  | Some (_, secret) =>
      match parsePEM (sCertificateChain secret) with
      | None => Err (ErrPanic "out of fuel")
      | Some r =>
          certs ← r;
          let before := match acc with Some resp => srCerts resp | None => [] end in
          Ok (Some (mkSecretResponse name namespace "tls_certificate" (before ++ (cert_response <$> certs))))
      end
  end.
Definition getSecretByNamespacedName (namespace name : string) : reply secretResponse :=
  acc ← or_reply 500 (fold_result (secret_on_node namespace name) None getAvailableNodeIDs);
  match acc with None => NoBody 404 | Some resp => Json resp end.
End certificates.

(** ** Filters *)
Definition filter_params : list string := [listenerParamName; filterChainParamName; filterParamName].
(** Every error of this part is a 500. *)
Definition getRequestFilters (q : Values) : result (list Filter) :=
  params ← getParams q (node_params filter_params);
  let nodeID := param params nodeIDParamName in
  _ ← fail_if (bool_decide (nodeID ∉ getAvailableNodeIDs))
        (ErrNew ("node_id not found in cache. node_id: " +:+ nodeID));
  listener ← getListenerByName nodeID (param params listenerParamName);
  filterChain ←
    (if decide (param params filterChainParamName ≠ "")
     then getFilterChainByName listener (param params filterChainParamName)
     else match lFilterChains listener with
          | [fc] => Ok fc
          | _ => Err (ErrNew "filter_chain_name is required if listener have more than one filter_chain")
          end);
  if decide (param params filterParamName ≠ "")
  then f ← getFilterByName filterChain (param params filterParamName); Ok [f]
  else Ok (fcFilters filterChain).
Definition one_filter (filters : list Filter) : reply Filter :=
  match filters with
  | [f] => Json f
  | _ => Fail 500 "filter_name is required if filter_chain have more than one filter"
  end.
Definition getFilterType (q : Values) : reply string :=
  filters ← or_reply 500 (getRequestFilters q);
  f ← one_filter filters;
  Json (filterName f).
Definition getFilter (q : Values) : reply (list string) :=
  filters ← or_reply 500 (getRequestFilters q);
  or_reply 500 (map_result (λ f, match GetHTTPConnectionManager f with
                                 | Some m => Ok (mMessage m)
                                 | None => Err (ErrNew "filter is not http_connection_manager") end) filters).
Definition getTCPProxyFilters (q : Values) : reply (list string) :=
  filters ← or_reply 500 (getRequestFilters q);
  or_reply 500 (ys ← map_result (λ f, match filterTypedConfig f with
                     | None => Ok None
                     | Some tc => match to_TcpProxy tc with
                                  | Ok p => Ok (Some p) | Err _ => Err (ErrNew "filter is not tcp_proxy") end
                     end) filters; Ok (omap (M := list) id ys)).
(** A filter that is no connection manager is dereferenced all the same. *)
Definition getHTTPFilters (q : Values) : reply (list HttpFilterV3) :=
  filters ← or_reply 500 (getRequestFilters q);
  hfs ← or_reply 500 (map_result (λ f, match GetHTTPConnectionManager f with
                         | Some m => Ok (mHttpFilters m) | None => Err nil_deref end) filters);
  Json (mjoin (M := list) hfs).
Definition getRequestHTTPFilter (filter : Filter) (name : string) : result HttpFilterV3 :=
  match GetHTTPConnectionManager filter with
  | None => Err (ErrNew "filter is not http_connection_manager")
  | Some m =>
      if decide (name = "") then
        match mHttpFilters m with
        | [hf] => Ok hf
        | _ => Err (ErrNew "http_filter_name is required if http_filters have more than one filter")
        end
      else match by_name hfName name (mHttpFilters m) with
           | Some hf => Ok hf | None => Err (ErrNew ("http_filter not found, name: " +:+ name)) end
  end.
(** Without a typed configuration nothing is written: an empty 200. *)
Definition http_filter_config (decode : AnyPb → result string) (wrong : string) (q : Values) : reply string :=
  filters ← or_reply 500 (getRequestFilters q);
  f ← one_filter filters;
  hfName ← or_reply 500 (getNotRequiredOnlyOneParam q httpFilterParamName);
  hf ← or_reply 500 (getRequestHTTPFilter f hfName);
  match hfTypedConfig hf with
  | None => NoBody 200
  | Some tc => match decode tc with Ok m => Json m | Err _ => Fail 500 wrong end
  end.
Definition getHTTPFilterRouter (q : Values) : reply string := http_filter_config to_Router "filter is not router" q.
Definition getHTTPFilterRBAC (q : Values) : reply string := http_filter_config to_RBAC "filter is not RBAC" q.

(** ** Domains *)
(** The loop over the parts of one server name: a [*] records the name, and so does
    the last part; a part that differs ends the loop. *)
Fixpoint scan_parts (serverName : string) (found : string) (parts domain : list string) : string :=
  match parts, domain with
  | part :: parts, d :: domain =>
      let found := if decide (part = "*" ∧ String.length found ≤ String.length serverName) then serverName else found in
      if decide (part ≠ d) then found
      else
        let found := if decide (parts = [] ∧ String.length found ≤ String.length serverName) then serverName else found in
        scan_parts serverName found parts domain
  | _, _ => found
  end.
Definition findServerNameForDomain (serverNames : list string) (domain : string) : string :=
  let domainParts := rev (GoStrings.Split GoStrings.dot domain) in
  foldl (λ found serverName,
    let serverNameParts := rev (GoStrings.Split GoStrings.dot serverName) in
    if decide (length domainParts < length serverNameParts) then found
    else scan_parts serverName found serverNameParts domainParts) "" serverNames.
Definition getFilterChainForDomainByServerName (listener : ListenerV3) (domain : string) : option FilterChain :=
  (foldl (λ (acc : string * option FilterChain) filterChain,
     match fcServerNames filterChain with
     | None | Some [] => acc
     | Some serverNames =>
         let findServerName := findServerNameForDomain serverNames domain in
         if decide (findServerName = "") then acc
         else if decide (String.length acc.1 ≤ String.length findServerName) then (findServerName, Some filterChain)
         else acc
     end) ("", None) (lFilterChains listener)).2.
Definition existDomainInVirtualHosts (vhs : list VirtualHost) (domain : string) : bool :=
  existsb (λ vh, bool_decide ("*" ∈ vhDomains vh) || bool_decide (domain ∈ vhDomains vh)) vhs.
Fixpoint find_filter (nodeid domain : string) (filters : list Filter) : result Filter :=
  match filters with
  | [] => Err (ErrNew ("filter for domain " +:+ domain +:+ " not found"))
  | filter :: filters =>
      match mRoutes <$> GetHTTPConnectionManager filter with
      | None | Some NoRoutes => find_filter nodeid domain filters
      | Some (Rds name) =>
          rc ← getRouteConfigurationByName nodeid name;
          if existDomainInVirtualHosts (rcVirtualHosts rc) domain then Ok filter else find_filter nodeid domain filters
      | Some (InlineRoutes vhs) =>
          if existDomainInVirtualHosts vhs domain then Ok filter else find_filter nodeid domain filters
      | Some ScopedRoutes => Err (ErrNew "ScopedRoutes not supported")
      end
  end.
Definition findFilterByDomain (nodeid : string) (filterChain : FilterChain) (domain : string) : result Filter :=
  find_filter nodeid domain (fcFilters filterChain).
Record Location := mkLocation { locListener : string; locChain : string; locFilter : string; locRoute : string }.
(** All listeners of the node, or the one named. *)
Definition domain_listeners (params : gmap string string) : reply (list ListenerV3) :=
  let nodeID := param params nodeIDParamName in
  if decide (param params listenerParamName = "") then or_reply 500 (getListenersAll nodeID)
  else l ← or_reply 500 (getListenerByName nodeID (param params listenerParamName)); Json [l].
Definition getDomainLocations (q : Values) : reply (list Location) :=
  params ← or_reply 400 (getParams q (node_params [listenerParamName]));
  domainName ← or_reply 400 (getRequiredOnlyOneParam q domainParamName);
  let nodeID := param params nodeIDParamName in
  _ ← check_node nodeID;
  listeners ← domain_listeners params;
  locations ← or_reply 500 (map_result (λ listener,
    match getFilterChainForDomainByServerName listener domainName with
    | None => Ok None
    | Some filterChain =>
        filter ← findFilterByDomain nodeID filterChain domainName;
        Ok (Some (mkLocation (lName listener) (fcName filterChain) (filterName filter) (getRDSNameForFilter filter)))
    end) listeners);
  let locations := omap (M := list) id locations in
  if decide (length locations = 0) then Fail 500 "domain not found" else Json locations.
Definition getDomains (q : Values) : reply (list string) :=
  params ← with_node q [listenerParamName];
  listeners ← domain_listeners params;
  let names (l : ListenerV3) := mjoin ((λ fc, default [] (fcServerNames fc)) <$> lFilterChains l) in
  let domains := mjoin (fmap (M := list) names listeners) in
  if decide (length domains = 0) then Fail 500 "domains not found" else Json domains.
End handlers.

(** ** Access control *)
Definition grants_all (acl : Values) (g : string) : Prop := ∃ ns, acl !! g = Some ns ∧ "*" ∈ ns.
Lemma newACLStore_spec acl : acl ≠ ∅ →
  enabled (newACLStore acl) = true ∧ (∀ g, g ∈ fullAccess (newACLStore acl) ↔ grants_all acl g) ∧
  ∀ g ns, nodeIDsByGroup (newACLStore acl) !! g = Some ns ↔ acl !! g = Some ns ∧ "*" ∉ ns.
Proof.
  intros Hne. unfold newACLStore. rewrite decide_False by (by intros ?%map_size_empty_inv). clear Hne.
  apply (map_fold_weak_ind (λ store acl, enabled store = true ∧ (∀ g, g ∈ fullAccess store ↔ grants_all acl g) ∧
    ∀ g ns, nodeIDsByGroup store !! g = Some ns ↔ acl !! g = Some ns ∧ "*" ∉ ns)); unfold grants_all.
  - split_and!; cbn; [done| |]; intros; setoid_rewrite lookup_empty; set_solver.
  - intros group nodeIDs m store Hm (_ & Hf & Hn). case_decide as Hs; cbn; (split; [done|]); split.
    + intros g. rewrite elem_of_union, elem_of_singleton, Hf. destruct (decide (g = group)) as [->|Hg].
      * rewrite lookup_insert_eq. naive_solver.
      * rewrite lookup_insert_ne by done. naive_solver.
    + intros g ns. rewrite Hn. destruct (decide (g = group)) as [->|Hg].
      * rewrite lookup_insert_eq, Hm. naive_solver.
      * by rewrite lookup_insert_ne.
    + intros g. rewrite Hf. destruct (decide (g = group)) as [->|Hg].
      * rewrite lookup_insert_eq, Hm. naive_solver.
      * by rewrite lookup_insert_ne.
    + intros g ns. destruct (decide (g = group)) as [->|Hg].
      * rewrite !lookup_insert_eq. naive_solver.
      * rewrite !lookup_insert_ne by done. apply Hn.
Qed.

Definition node_allowed (available : option (gset string)) (n : string) : Prop :=
  match available with Some s => n ∈ s | None => True end.
(** A group of the user lists the node or the wildcard. *)
Definition acl_allows (acl : Values) (groups : list string) (n : string) : Prop :=
  ∃ g ns, g ∈ groups ∧ acl !! g = Some ns ∧ ("*" ∈ ns ∨ n ∈ ns).
Lemma available_nodes_spec acl groups n : acl ≠ ∅ →
  node_allowed (available_nodes (newACLStore acl) groups) n ↔ acl_allows acl groups n.
Proof.
  intros Hne. destruct (newACLStore_spec acl Hne) as (He & Hf & Hn). unfold available_nodes. rewrite He.
  assert (∀ av, node_allowed (collect_nodes (newACLStore acl) av groups) n ↔ n ∈ av ∨ acl_allows acl groups n) as Hgen.
  { unfold acl_allows. induction groups as [|g groups IH]; intros av; cbn.
    - split; [by left|]. intros [?|(? & ? & ?%not_elem_of_nil & _)]; done.
    - setoid_rewrite elem_of_cons. case_decide as Hg.
      + apply Hf in Hg as (ns & Hg & Hs). split; [|done]. intros _. right. exists g, ns. naive_solver.
      + rewrite IH. assert (∀ ns, acl !! g = Some ns → "*" ∉ ns) as Hstar.
        { intros ns Hg' Hs. apply Hg, Hf. by exists ns. }
        destruct (nodeIDsByGroup (newACLStore acl) !! g) as [ns|] eqn:Hg'.
        * apply Hn in Hg' as [Hg' _]. rewrite elem_of_union, elem_of_list_to_set. split.
          -- intros [[?|?]|(g' & ns' & ? & ? & ?)]; [right; exists g, ns; naive_solver|by left|right; exists g', ns'; naive_solver].
          -- intros [?|(g' & ns' & [->|?] & Ha & Hx)]; [by left; right| |right; exists g', ns'; naive_solver].
             rewrite Hg' in Ha. injection Ha as <-. destruct Hx as [Hx|Hx]; [by apply Hstar in Hg'|by left; left].
        * assert (acl !! g = None) as Hnone.
          { destruct (acl !! g) as [ns|] eqn:Ha; [|done]. exfalso. specialize (Hn g ns). rewrite Hg', Ha in Hn.
            destruct Hn as [_ Hn]. by specialize (Hn (conj eq_refl (Hstar ns eq_refl))). }
          split; [intros [?|(g' & ns' & ? & ? & ?)]; [by left|right; exists g', ns'; naive_solver]|].
          intros [?|(g' & ns' & [->|?] & Ha & Hx)]; [by left|congruence|right; exists g', ns'; naive_solver]. }
  rewrite Hgen. set_solver.
Qed.

Lemma reply_bind_Json {A B} (f : A → reply B) (m : reply A) b :
  (m ≫= f) = Json b → ∃ a, m = Json a ∧ f a = Json b.
Proof. destruct m; try done. by eauto. Qed.
Lemma or_reply_Json {A} code (r : result A) a : or_reply code r = Json a → r = Ok a.
Proof. destruct r as [|[]]; cbn; naive_solver. Qed.

Section access.
Context {RL : RestLib} {CL : CertLib} `{CA : CacheAPI} (c : SnapshotCache.t) (available : option (gset string)).
Lemma getAvailableNodeIDs_spec n :
  n ∈ getAvailableNodeIDs c available ↔ n ∈ SnapshotCache.nodeIDs c ∧ node_allowed available n.
Proof.
  unfold getAvailableNodeIDs, node_allowed.
  destruct available as [s|]; rewrite ?list_elem_of_filter, SnapshotCache.elem_of_GetNodeIDs; naive_solver.
Qed.
Lemma getParams_node q names m :
  nodeIDParamName ∉ names → getParams q (node_params names) = Ok m → q !! nodeIDParamName = Some [param m nodeIDParamName].
Proof.
  unfold getParams, node_params. cbn [fold_result required pName]. intros Hnin Hp.
  apply bind_Ok_inv in Hp as (m1 & H1 & Hp). apply bind_Ok_inv in H1 as (v & Hv & [= <-]).
  assert (q !! nodeIDParamName = Some [v]) as Hq.
  { unfold getRequiredOnlyOneParam in Hv. destruct (q !! nodeIDParamName) as [[|w []]|]; naive_solver. }
  assert (m !! nodeIDParamName = Some v) as Hm; [|by unfold param; rewrite Hm].
  clear Hq Hv. assert (<[nodeIDParamName := v]> (∅ : gmap string string) !! nodeIDParamName = Some v) as H0
    by apply lookup_insert_eq. revert H0 Hp. generalize (<[nodeIDParamName := v]> (∅ : gmap string string)) as m0.
  induction names as [|n names IH]; intros m0 H0 Hp; cbn in Hp; [by injection Hp as <-|].
  apply bind_Ok_inv in Hp as (m1 & H1 & Hp). apply bind_Ok_inv in H1 as (w & _ & [= <-]).
  eapply IH; [set_solver| |exact Hp]. rewrite lookup_insert_ne; [done|set_solver].
Qed.
Lemma check_node_Json n u : check_node c available n = Json u → n ∈ SnapshotCache.nodeIDs c ∧ node_allowed available n.
Proof. unfold check_node. case_decide as Hn; [|done]. intros _. by apply getAvailableNodeIDs_spec. Qed.
(** The node a query names is known and allowed. *)
Definition node_ok (q : Values) : Prop :=
  ∃ n, q !! nodeIDParamName = Some [n] ∧ n ∈ SnapshotCache.nodeIDs c ∧ node_allowed available n.
Lemma with_node_Json q names m : nodeIDParamName ∉ names → with_node c available q names = Json m → node_ok q.
Proof.
  intros Hnin (m' & Hp%or_reply_Json & Hm)%reply_bind_Json. apply reply_bind_Json in Hm as (u & Hn%check_node_Json & [= ->]).
  exists (param m nodeIDParamName). split; [by apply (getParams_node q names)|done].
Qed.
Lemma getRequestFilters_Ok q fs : getRequestFilters c available q = Ok fs → node_ok q.
Proof.
  intros (m & Hp & Hm)%bind_Ok_inv. cbv zeta in Hm. apply bind_Ok_inv in Hm as (u & Hn & _).
  exists (param m nodeIDParamName). split; [apply (getParams_node q filter_params); [vm_compute; set_solver|done]|].
  apply getAvailableNodeIDs_spec. unfold fail_if in Hn. by case_bool_decide as Hb.
Qed.

(** The requests about one node. *)
Inductive request :=
| QListeners | QClusters | QRouteConfigurations | QSecrets | QFilterType | QFilters | QTCPProxyFilters | QHTTPFilters
| QHTTPFilterRouter | QHTTPFilterRBAC | QDomainLocations | QDomains.
Definition answered (r : request) (q : Values) : Prop :=
  match r with
  | QListeners => ∃ b, getListeners c available q = Json b
  | QClusters => ∃ b, getClusters c available q = Json b
  | QRouteConfigurations => ∃ b, getRouteConfigurations c available q = Json b
  | QSecrets => ∃ b, getSecrets c available q = Json b
  | QFilterType => ∃ b, getFilterType c available q = Json b
  | QFilters => ∃ b, getFilter c available q = Json b
  | QTCPProxyFilters => ∃ b, getTCPProxyFilters c available q = Json b
  | QHTTPFilters => ∃ b, getHTTPFilters c available q = Json b
  | QHTTPFilterRouter => ∃ b, getHTTPFilterRouter c available q = Json b
  | QHTTPFilterRBAC => ∃ b, getHTTPFilterRBAC c available q = Json b
  | QDomainLocations => ∃ b, getDomainLocations c available q = Json b
  | QDomains => ∃ b, getDomains c available q = Json b
  end.
Lemma answered_node_ok r q : answered r q → node_ok q.
Proof.
  destruct r; cbn; intros [b Hb].
  all: try (by apply reply_bind_Json in Hb as (x & Hx%with_node_Json & _); [|vm_compute; set_solver]).
  all: try (by apply reply_bind_Json in Hb as (x & Hx%or_reply_Json%getRequestFilters_Ok & _)).
  unfold getDomainLocations in Hb. apply reply_bind_Json in Hb as (m & Hp%or_reply_Json & Hb).
  apply reply_bind_Json in Hb as (d & _ & Hb). cbv zeta in Hb. apply reply_bind_Json in Hb as (u & Hn%check_node_Json & _).
  exists (param m nodeIDParamName). split; [|done]. apply (getParams_node q [listenerParamName]); [vm_compute; set_solver|done].
Qed.

(** A request about a node is answered only when the node is in the cache and
    the access control list gives it to one of the user's groups. *)
Theorem answers_respect_acl acl groups r q :
  acl ≠ ∅ → available = available_nodes (newACLStore acl) groups → answered r q →
  ∃ n, q !! nodeIDParamName = Some [n] ∧ n ∈ SnapshotCache.nodeIDs c ∧ acl_allows acl groups n.
Proof.
  intros Hne Hav (n & Hq & Hn & Ha)%answered_node_ok. exists n. split_and!; [done..|].
  rewrite Hav in Ha. by apply available_nodes_spec in Ha.
Qed.

(** The secrets shown carry neither certificate nor key. *)
Lemma getSecrets_cleared q ss s : getSecrets c available q = Json ss → s ∈ ss → sCertificateChain s = "" ∧ sPrivateKey s = "".
Proof.
  intros (m & _ & Hs)%reply_bind_Json Hin. cbv zeta in Hs. case_decide.
  - apply or_reply_Json in Hs. apply bind_Ok_inv in Hs as (rs & _ & [= <-]).
    by apply list_elem_of_fmap in Hin as (x & -> & _).
  - apply reply_bind_Json in Hs as (x & Hx%or_reply_Json & [= <-]). apply list_elem_of_singleton in Hin as ->.
    apply bind_Ok_inv in Hx as (rs & _ & Hx). destruct (by_name _ _ _); [|done]. by injection Hx as <-.
Qed.
End access.

(** ** Domains *)
(** The parts of a server name and of the domain from the right; [*] matches what
    is left. *)
Fixpoint parts_match (serverName domain : list string) : bool :=
  match serverName, domain with
  | [], _ => true
  | s :: serverName, d :: domain => bool_decide (s = "*") || (bool_decide (s = d) && parts_match serverName domain)
  | _ :: _, [] => false
  end.
Definition covers (serverName domain : string) : Prop :=
  let sp := rev (GoStrings.Split GoStrings.dot serverName) in
  let dp := rev (GoStrings.Split GoStrings.dot domain) in
  length sp ≤ length dp ∧ parts_match sp dp = true.
Global Instance covers_dec sn d : Decision (covers sn d).
Proof. unfold covers. apply _. Defined.

(** The longer of two names, the new one on a tie. *)
Definition longer (found sn : string) : string :=
  if decide (String.length found ≤ String.length sn) then sn else found.
Lemma longer_idem f sn : longer (longer f sn) sn = longer f sn.
Proof. unfold longer. repeat case_decide; done || lia. Qed.
Lemma decide_longer (P : Prop) `{!Decision P} f sn :
  (if decide (P ∧ String.length f ≤ String.length sn) then sn else f) = if decide P then longer f sn else f.
Proof. unfold longer. repeat case_decide; tauto. Qed.
Lemma scan_parts_spec sn found parts domain :
  parts ≠ [] → length parts ≤ length domain →
  scan_parts sn found parts domain = if parts_match parts domain then longer found sn else found.
Proof.
  revert found domain. induction parts as [|p parts IH]; intros found [|d domain] Hne Hlen; cbn in Hlen; [done|done|lia|].
  cbn [scan_parts parts_match]. cbv zeta. rewrite !decide_longer.
  assert (∀ f, p = d → (if decide (p ≠ d) then f else
      scan_parts sn (if decide (parts = []) then longer f sn else f) parts domain) =
    if parts_match parts domain then longer f sn else f) as Hstep.
  { intros f ->. rewrite decide_False by (intros Hx; by apply Hx). case_decide as Hp; [by subst|]. apply IH; [done|lia]. }
  destruct (decide (p = "*")) as [->|Hs].
  - rewrite bool_decide_eq_true_2 by done. cbn [orb]. destruct (decide ("*" = d)) as [Hd|Hd].
    + rewrite Hstep, longer_idem by done. by destruct (parts_match _ _).
    + by rewrite decide_True.
  - rewrite bool_decide_eq_false_2 by done. cbn [orb]. destruct (decide (p = d)) as [Hd|Hd].
    + rewrite Hstep by done. by rewrite bool_decide_eq_true_2.
    + rewrite bool_decide_eq_false_2 by done. by rewrite decide_True.
Qed.

(** The server name found for a domain is one of the list that covers the domain
    (label by label from the right, a wildcard covering the rest) and no other
    covering name is longer; nothing is found exactly when no name covers it. *)
Theorem findServerNameForDomain_spec serverNames domain :
  let r := findServerNameForDomain serverNames domain in
  let fits sn := covers sn domain in
  (r = "" ∧ ∀ sn, sn ∈ serverNames → fits sn → sn = "") ∨
  (r ∈ serverNames ∧ fits r ∧ ∀ sn, sn ∈ serverNames → fits sn → String.length sn ≤ String.length r).
Proof.
  intros r fits. unfold r, findServerNameForDomain. cbv zeta.
  induction serverNames as [|sn names IH] using rev_ind; [left; split; [done|]; by intros ? ?%not_elem_of_nil|].
  rewrite foldl_app. cbn [foldl]. set (found := foldl _ "" names) in *.
  assert (∀ f, (if decide (length (rev (GoStrings.Split GoStrings.dot domain)) < length (rev (GoStrings.Split GoStrings.dot sn)))
      then f else scan_parts sn f (rev (GoStrings.Split GoStrings.dot sn)) (rev (GoStrings.Split GoStrings.dot domain))) =
    if decide (covers sn domain) then longer f sn else f) as ->.
  { intros f. assert (rev (GoStrings.Split GoStrings.dot sn) ≠ []) as Hne.
    { intros Hn%(f_equal (@rev string)). rewrite rev_involutive in Hn. by apply GoStrings.Split_not_nil in Hn. }
    destruct (decide (covers sn domain)) as [[Hl Hm]|Hc].
    - rewrite decide_False by lia. rewrite scan_parts_spec by done. by rewrite Hm.
    - case_decide as Hl; [done|]. rewrite scan_parts_spec by (done || lia).
      destruct (parts_match _ _) eqn:Hm; [|done]. destruct Hc. split; [lia|done]. }
  setoid_rewrite elem_of_app. setoid_rewrite list_elem_of_singleton. unfold fits in *. case_decide as Hc.
  - unfold longer. case_decide as Hl.
    + destruct (decide (sn = "")) as [->|Hne].
      * destruct IH as [[Hf IH]|(Hin & Hf & IH)]; [left; naive_solver|]. right. split; [by right|]. split; [done|].
        cbn in Hl. naive_solver lia.
      * right. split; [by right|]. split; [done|]. destruct IH as [[Hf IH]|(Hin & Hf & IH)]; [|naive_solver lia].
        intros x [Hx| ->] Hfx; [rewrite (IH x) by done; cbn; lia|done].
    + destruct IH as [[Hf IH]|(Hin & Hf & IH)]; [rewrite Hf in Hl; cbn in Hl; lia|]. right.
      split; [by left|]. split; [done|]. naive_solver lia.
  - destruct IH as [[Hf IH]|(Hin & Hf & IH)]; [left; naive_solver|right; naive_solver].
Qed.

(** An exact name and a wildcard of the same length: the one that comes last wins,
    although Envoy prefers the exact one. *)
Example wildcard_beats_exact_name :
  findServerNameForDomain ["a.example.com"; "*.example.com"] "a.example.com" = "*.example.com" ∧
  findServerNameForDomain ["*.example.com"; "a.example.com"] "a.example.com" = "a.example.com".
Proof. vm_compute. by split. Qed.

(** ** Certificates *)
Section parse.
Context {CL : CertLib}.
(** [pem.Decode] returns the unconsumed suffix of its input. *)
Hypothesis pem_Decode_shorter : ∀ s b r, pem_Decode s = Some (b, r) → String.length r < String.length s.
(** The loop of [parsePEM] ends on every input. *)
Lemma parsePEM_total data : is_Some (parsePEM data).
Proof.
  assert (∀ fuel rest certs, String.length rest < fuel → is_Some (parsePEM_loop fuel rest certs)) as Hloop;
    [|apply Hloop; lia].
  induction fuel as [|fuel IH]; intros rest certs Hl; [lia|]. cbn.
  destruct (pem_Decode rest) as [[b r]|] eqn:Hd; [|by eexists]. apply pem_Decode_shorter in Hd.
  repeat case_decide; repeat case_match; (by eexists) || (apply IH; lia).
Qed.
End parse.

(** ** Examples *)
Module Examples.
Definition manager : Manager := mkManager (Rds "ns/vs") [mkHF3 "envoy.filters.http.router" None ""] "hcm".
Definition lib : RestLib :=
  {| GetHTTPConnectionManager f := if decide (filterName f = "hcm") then Some manager else None;
     to_TcpProxy _ := Ok "tcp"; to_Router _ := Ok "router"; to_RBAC _ := Err (ErrNew "mismatched message type") |}.
Definition certs : CertLib :=
  {| pem_Decode s := match s with "" => None | String _ r => Some (DomainSecrets.mkPem "CERTIFICATE" s, r) end;
     pem_EncodeToMemory _ s := s;
     x509_ParseCertificate s := Ok (mkX509 "1" "CN=a.io" "CN=ca" 0 100 s ["a.io"]);
     x509_ParsePKCS1PrivateKey _ := None; sprintf_q s := s; Time_String _ := "t"; Time_RFC3339 _ := "t" |}.
#[local] Existing Instances lib certs MapCache.api MapCache.cache.

Definition chain (domain filter : string) : FilterChain :=
  mkFC "fc" [mkFilter filter None] (Some [domain]) None "".
Definition snapshot : Snapshot :=
  SetResources (SetResources (SetResources EmptySnapshot ListenerType "1"
    [ResListener (mkLV3 "ns/l" None [] [chain "a.io" "hcm"] ""); ResListener (mkLV3 "ns/tcp" None [] [chain "b.io" "tcp"] "")])
    SecretType "1" [ResSecret (mkSV3 "ns/s" "c" "private")])
    RouteType "1" [ResRoute (mkRC "ns/vs" [mkVH "vs" ["*.io"] [] ""])].
Definition c : SnapshotCache.t :=
  SnapshotCache.mkSC (cache_set (cache_set NewCache "n1" snapshot).1 "n2" snapshot).1 {["n1"; "n2"]}.
Definition acl : Values := {["team" := ["n1"]; "admins" := ["*"]]}.
Definition query (nodeID : string) (more : Values) : Values := <[nodeIDParamName := [nodeID]]> more.
Definition team : option (gset string) := available_nodes (newACLStore acl) ["team"].
End Examples.
#[local] Existing Instances Examples.lib Examples.certs MapCache.api MapCache.cache.

Lemma answers_respect_acl_witness :
  answered Examples.c Examples.team QSecrets (Examples.query "n1" ∅) ∧ acl_allows Examples.acl ["team"] "n1" ∧
  ¬ answered Examples.c Examples.team QSecrets (Examples.query "n2" ∅).
Proof.
  assert (answered Examples.c Examples.team QSecrets (Examples.query "n1" ∅)) as Ha by (eexists; vm_compute; reflexivity).
  split; [exact Ha|]. split.
  - destruct (answers_respect_acl Examples.c Examples.team Examples.acl ["team"] QSecrets (Examples.query "n1" ∅))
      as (n & Hq & _ & Hn); [vm_compute; discriminate|reflexivity|exact Ha|].
    vm_compute in Hq. injection Hq as <-. exact Hn.
  - intros [b Hb]. revert Hb. vm_compute. discriminate.
Defined.

(** The versions of the resources of a node are shown to users who may not see the
    node: this handler does not consult the list of available nodes. *)
Example resource_versions_ignore_acl :
  (∃ b, getResourceVersions Examples.c (λ _, Ok "m") (λ s, s) {["nodeID" := ["n2"]]} = Json b) ∧
  ¬ acl_allows Examples.acl ["team"] "n2".
Proof.
  split; [eexists; vm_compute; reflexivity|]. intros (g & ns & Hg & Ha & Hn). apply list_elem_of_singleton in Hg as ->.
  vm_compute in Ha. injection Ha as <-. set_solver.
Qed.
(** The HTTP filters of a filter that is no connection manager: a nil dereference. *)
Example http_filters_of_tcp_panic :
  ∃ w, getHTTPFilters Examples.c None (Examples.query "n1" {[listenerParamName := ["ns/tcp"]]}) = Crash w.
Proof. eexists. vm_compute. reflexivity. Qed.
(** A virtual host with a wildcard domain serves the domain, but its location is not
    found. *)
Example wildcard_host_not_located :
  ∃ e, getDomainLocations Examples.c None (Examples.query "n1" {[domainParamName := ["a.io"]; listenerParamName := ["ns/l"]]})
       = Fail 500 e.
Proof. eexists. vm_compute. reflexivity. Qed.
(** The certificates of a secret that two nodes use are listed twice. *)
Example certificates_repeated_per_node :
  ∃ r, getSecretByNamespacedName Examples.c None "ns" "s" = Json r ∧ length (srCerts r) = 2.
Proof. eexists. vm_compute. by split. Qed.
End Rest.
