(* ===== verification/Overview.v ===== *)
(** * [handlers/overview.go] and [handlers/overview_cache.go]

    The overview of a node: its endpoints (listener, filter chain, server name), its
    certificates with the domains that use them, and counts; and the cache in front
    of it, whose entries expire.  The days until a certificate expires are computed
    in double precision, as [int(time.Until(t).Hours() / 24)] is. *)

From Stdlib Require Import Ascii SpecFloat.
From S2P Require Import Prelude GoStrings Types DomainSecrets SnapshotCache Rest.

Module Overview.
Import Envoy Rest.

(** ** Durations in double precision *)
Local Open Scope Z_scope.
(** [int(f)]: towards zero. *)
Definition int_of (f : spec_float) : Z :=
  match f with
  | S754_finite s m e =>
      let v := if decide (0 ≤ e) then Zpos m * 2 ^ e else Zpos m `div` 2 ^ (- e) in if s then - v else v
  | _ => 0
  end.
Definition Hour : Z := 3600 * 10 ^ 9.
Definition Hours (d : Z) : spec_float :=
  SFadd 53 1024 (GoStrings.float64 (d `quot` Hour)) (SFdiv 53 1024 (GoStrings.float64 (d `rem` Hour)) (GoStrings.float64 Hour)).
(** [t.Sub(now)] saturates. *)
Definition Until (now t : DomainSecrets.Time) : Z := GoStrings.clamp64 (t - now).
Definition days_until (now t : DomainSecrets.Time) : Z := int_of (SFdiv 53 1024 (Hours (Until now t)) (GoStrings.float64 24)).

Definition CertStatusOK : string := "ok".
Definition CertStatusWarning : string := "warning".
Definition CertStatusCritical : string := "critical".
Definition CertStatusExpired : string := "expired".
Definition CertWarningThresholdDays : Z := 30.
Definition CertCriticalThresholdDays : Z := 7.
Definition calculateCertStatus (daysUntilExpiry : Z) : string :=
  if decide (daysUntilExpiry ≤ 0) then CertStatusExpired
  else if decide (daysUntilExpiry ≤ CertCriticalThresholdDays) then CertStatusCritical
  else if decide (daysUntilExpiry ≤ CertWarningThresholdDays) then CertStatusWarning
  else CertStatusOK.
Local Close Scope Z_scope.

(** ** The response *)
Record CertificateInfo := mkCertInfo {
  ciName : string; ciNamespace : string; ciSubject : string; ciIssuer : string; ciNotBefore : string;
  ciNotAfter : string; ciDays : Z; ciStatus : string; ciDNSNames : list string; ciUsedByDomains : list string
}.
Record CertificateBrief := mkBrief { cbName : string; cbExpiresAt : string; cbDays : Z; cbStatus : string }.
Record EndpointInfo := mkEndpoint {
  epDomain : string; epPort : Z; epProtocol : string; epListener : string; epRouteConfig : string;
  epCertificate : option CertificateBrief
}.
Record OverviewSummary := mkSummary {
  TotalDomains : nat; TotalEndpoints : nat; TotalCertificates : nat;
  CertificatesWarning : nat; CertificatesCritical : nat; CertificatesExpired : nat
}.
Record NodeOverviewResponse := mkOverview {
  ovNodeID : string; ovSummary : OverviewSummary; ovVersions : string * string * string * string;
  ovEndpoints : list EndpointInfo; ovCertificates : list CertificateInfo
}.

(** ** [overview_cache.go] *)
(** [ttl] and the entries; an entry expires strictly after its instant. *)
Record OverviewCache := mkOC { ocEntries : gmap string (NodeOverviewResponse * DomainSecrets.Time); ocTTL : Z }.
Definition NewOverviewCache (ttl : Z) : OverviewCache := mkOC ∅ ttl.
Definition expired (now : DomainSecrets.Time) (e : NodeOverviewResponse * DomainSecrets.Time) : bool :=
  bool_decide (e.2 < now)%Z.
(** The read-locked part of [Get]: the answer, and whether the entry has expired. *)
Definition get_read (now : DomainSecrets.Time) (c : OverviewCache) (nodeID : string) : option NodeOverviewResponse * bool :=
  match ocEntries c !! nodeID with
  | None => (None, false)
  | Some e => if expired now e then (None, true) else (Some e.1, false)
  end.
(** The write-locked part: the entry is checked again. *)
Definition get_expire (now : DomainSecrets.Time) (c : OverviewCache) (nodeID : string) : OverviewCache :=
  match ocEntries c !! nodeID with
  | Some e => if expired now e then mkOC (delete nodeID (ocEntries c)) (ocTTL c) else c
  | None => c
  end.
Definition Get (now now' : DomainSecrets.Time) (c : OverviewCache) (nodeID : string)
  : option NodeOverviewResponse * OverviewCache :=
  let '(r, stale) := get_read now c nodeID in (r, if stale then get_expire now' c nodeID else c).
Definition Set_ (now : DomainSecrets.Time) (c : OverviewCache) (nodeID : string) (response : NodeOverviewResponse)
  : OverviewCache := mkOC (<[nodeID := (response, now + ocTTL c)%Z]> (ocEntries c)) (ocTTL c).
Definition Invalidate (c : OverviewCache) (nodeID : string) : OverviewCache :=
  mkOC (delete nodeID (ocEntries c)) (ocTTL c).
Definition InvalidateAll (c : OverviewCache) : OverviewCache := mkOC ∅ (ocTTL c).
Definition Cleanup (now : DomainSecrets.Time) (c : OverviewCache) : OverviewCache :=
  mkOC (filter (λ p, expired now p.2 = false) (ocEntries c)) (ocTTL c).

(** ** [overview.go] *)
Class OverviewLib := {
  (** [GetTransportSocket().Name] *)
  transport_socket_name : FilterChain → string;
  (** The SDS names of a [DownstreamTlsContext], if it has a common context. *)
  to_DownstreamTls : string → result (option (list string))
}.

Section overview.
Context {RL : RestLib} {CL : CertLib} {OL : OverviewLib}.

Definition parseSecretName (secretName : string) : string * string :=
  match GoStrings.Split slash secretName with [namespace; name] => (namespace, name) | _ => ("", secretName) end.
(** [clock name] is the instant at which the secret is looked at. *)
Definition cert_info (now : DomainSecrets.Time) (secret : SecretV3) (cert : X509) : CertificateInfo :=
  let '(namespace, name) := parseSecretName (sName secret) in
  let daysUntilExpiry := days_until now (NotAfter cert) in
  mkCertInfo name namespace (Subject cert) (Issuer cert) (Time_RFC3339 (NotBefore cert)) (Time_RFC3339 (NotAfter cert))
    daysUntilExpiry (calculateCertStatus daysUntilExpiry) (DNSNames cert) [].
Definition add_cert (clock : string → DomainSecrets.Time) (certMap : gmap string CertificateInfo) (secret : SecretV3)
  : gmap string CertificateInfo :=
  if decide (sCertificateChain secret = "") then certMap
  else match parsePEM (sCertificateChain secret) with
       | Some (Ok (cert :: _)) => <[sName secret := cert_info (clock (sName secret)) secret cert]> certMap
       | _ => certMap
       end.
Definition buildCertificateInfoMap (clock : string → DomainSecrets.Time) (secrets : list SecretV3)
  : gmap string CertificateInfo := foldl (add_cert clock) ∅ secrets.

Definition extractPort (listener : ListenerV3) : Z :=
  match lAddress listener ≫= GetSocketAddress with Some sa => PortValue sa | None => 0%Z end.
Definition getDomainsFromFilterChain (fc : FilterChain) : list string := default [] (fcServerNames fc).
Definition extractSecretName (fc : FilterChain) : string :=
  match fcTransportSocket fc with
  | None => ""
  | Some typedConfig =>
      if decide (transport_socket_name fc ≠ "envoy.transport_sockets.tls") then ""
      else match to_DownstreamTls (Value typedConfig) with
           | Ok (Some (name :: _)) => name
           | _ => ""
           end
  end.
Definition determineProtocol (fc : FilterChain) (hasTLS : bool) : string :=
  if existsb (λ f, bool_decide (is_Some (GetHTTPConnectionManager f))) (fcFilters fc)
  then (if hasTLS then "HTTPS" else "HTTP") else "TCP".
Fixpoint getRouteConfigNameFromFilters (filters : list Filter) : string :=
  match filters with
  | [] => ""
  | f :: filters => if decide (getRDSNameForFilter f ≠ "") then getRDSNameForFilter f else getRouteConfigNameFromFilters filters
  end.
Definition getRouteConfigNameFromFilterChain (fc : FilterChain) : string := getRouteConfigNameFromFilters (fcFilters fc).

(** The domains of a chain, or the wildcard. *)
Definition chain_domains (fc : FilterChain) : list string :=
  match getDomainsFromFilterChain fc with [] => ["*"] | ds => ds end.
Definition chain_secret (fc : FilterChain) : string :=
  if decide (is_Some (fcTransportSocket fc)) then extractSecretName fc else "".
Definition set_used (i : CertificateInfo) (ds : list string) : CertificateInfo :=
  mkCertInfo (ciName i) (ciNamespace i) (ciSubject i) (ciIssuer i) (ciNotBefore i) (ciNotAfter i) (ciDays i) (ciStatus i)
    (ciDNSNames i) ds.
Definition brief (i : CertificateInfo) : CertificateBrief := mkBrief (ciName i) (ciNotAfter i) (ciDays i) (ciStatus i).
(** What the three loops visit, in order. *)
Definition targets (listeners : list ListenerV3) : list (ListenerV3 * FilterChain * string) :=
  mjoin ((λ l, mjoin ((λ fc, (λ d, (l, fc, d)) <$> chain_domains fc) <$> lFilterChains l)) <$> listeners).
Definition endpoint_step (acc : list EndpointInfo * gmap string CertificateInfo) (t : ListenerV3 * FilterChain * string)
  : list EndpointInfo * gmap string CertificateInfo :=
  let '(l, fc, domain) := t in
  let hasTLS := bool_decide (is_Some (fcTransportSocket fc)) in
  let endpoint cert := mkEndpoint domain (extractPort l) (determineProtocol fc hasTLS) (lName l)
                         (getRouteConfigNameFromFilterChain fc) cert in
  let secretName := chain_secret fc in
  if decide (secretName = "") then (acc.1 ++ [endpoint None], acc.2)
  else match acc.2 !! secretName with
       | None => (acc.1 ++ [endpoint None], acc.2)
       | Some certInfo =>
           (acc.1 ++ [endpoint (Some (brief certInfo))],
            <[secretName := set_used certInfo (ciUsedByDomains certInfo ++ [domain])]> acc.2)
       end.
Definition extractEndpoints (listeners : list ListenerV3) (certInfoMap : gmap string CertificateInfo)
  : list EndpointInfo * gmap string CertificateInfo := foldl endpoint_step ([], certInfoMap) (targets listeners).
(** [cord] is the order in which Go visits the map. *)
Definition buildCertificatesList (cord : gmap string CertificateInfo → list CertificateInfo)
    (certInfoMap : gmap string CertificateInfo) : list CertificateInfo := cord certInfoMap.
Definition has_status (s : string) (i : CertificateInfo) : Prop := ciStatus i = s.
Definition calculateSummary (endpoints : list EndpointInfo) (certificates : list CertificateInfo) : OverviewSummary :=
  let uniqueDomains : gset string := list_to_set (filter (λ d, d ≠ "*") (epDomain <$> endpoints)) in
  let count s := length (filter (λ i, ciStatus i = s) certificates) in
  mkSummary (size uniqueDomains) (length endpoints) (length certificates)
    (count CertStatusWarning) (count CertStatusCritical) (count CertStatusExpired).

(** ** The handler *)
Section handler.
Context `{CA : CacheAPI} (c : SnapshotCache.t) (available : option (gset string)).
Context (cord : gmap string CertificateInfo → list CertificateInfo).
Definition build_overview (clock : string → DomainSecrets.Time) (nodeID : string) : result NodeOverviewResponse :=
  versions ← SnapshotCache.GetVersions c nodeID;
  let v k := default "" ((versions : gmap string string) !! k) in
  listeners ← SnapshotCache.GetListeners c nodeID;
  secrets ← SnapshotCache.GetSecrets c nodeID;
  let certInfoMap := buildCertificateInfoMap clock secrets in
  let '(endpoints, certInfoMap) := extractEndpoints listeners certInfoMap in
  let certificates := buildCertificatesList cord certInfoMap in
  Ok (mkOverview nodeID (calculateSummary endpoints certificates)
        (v "listeners", v "clusters", v "routes", v "secrets") endpoints certificates).
(** [now1], [now2] are the instants of the two checks of the cached entry, [now3]
    the one of the store. *)
Definition getOverview (now1 now2 now3 : DomainSecrets.Time) (clock : string → DomainSecrets.Time) (oc : OverviewCache)
    (q : Values) : reply NodeOverviewResponse * OverviewCache :=
  match (nodeID ← or_reply 400 (getRequiredOnlyOneParam q nodeIDParamName);
         _ ← check_node c available nodeID; Json nodeID) with
  | Json nodeID =>
      match Get now1 now2 oc nodeID with
      | (Some cached, oc) => (Json cached, oc)
      | (None, oc) =>
          match or_reply 500 (build_overview clock nodeID) with
          | Json response => (Json response, Set_ now3 oc nodeID response)
          | Fail code e => (Fail code e, oc)
          | NoBody code => (NoBody code, oc)
          | Crash w => (Crash w, oc)
          | Refused code m e d => (Refused code m e d, oc)
          end
      end
  | Fail code e => (Fail code e, oc)
  | NoBody code => (NoBody code, oc)
  | Crash w => (Crash w, oc)
  | Refused code m e d => (Refused code m e d, oc)
  end.
End handler.
End overview.

(** ** Endpoints and certificates *)
Section consistency.
Context {RL : RestLib} {CL : CertLib} {OL : OverviewLib}.
(** The endpoint of a target, given the certificates known. *)
Definition endpoint_of (certs : gmap string CertificateInfo) (t : ListenerV3 * FilterChain * string) : EndpointInfo :=
  let '(l, fc, domain) := t in
  mkEndpoint domain (extractPort l) (determineProtocol fc (bool_decide (is_Some (fcTransportSocket fc)))) (lName l)
    (getRouteConfigNameFromFilterChain fc)
    (if decide (chain_secret fc = "") then None else brief <$> certs !! chain_secret fc).
(** The domains, in order, of the targets that present the secret. *)
Definition users (s : string) (ts : list (ListenerV3 * FilterChain * string)) : list string :=
  if decide (s = "") then [] else snd <$> filter (λ t, chain_secret t.1.2 = s) ts.

Lemma users_cons s t ts :
  users s (t :: ts) = (if decide (s ≠ "" ∧ chain_secret t.1.2 = s) then [t.2] else []) ++ users s ts.
Proof.
  unfold users. case_decide as Hs; [by rewrite decide_False by naive_solver|]. rewrite filter_cons.
  repeat case_decide; naive_solver.
Qed.
Definition used_by (s : string) (ds : list string) (i : CertificateInfo) : CertificateInfo :=
  set_used i (ciUsedByDomains i ++ ds).
Lemma used_by_nil s (o : option CertificateInfo) : used_by s [] <$> o = o.
Proof. destruct o as [[]|]; [|done]. unfold used_by, set_used. cbn. by rewrite app_nil_r. Qed.
Lemma endpoint_step_spec eps m t :
  let '(eps', m') := endpoint_step (eps, m) t in
  eps' = eps ++ [endpoint_of m t] ∧ ∀ s, m' !! s = used_by s (users s [t]) <$> m !! s.
Proof.
  destruct t as [[l fc] d]. unfold endpoint_step, endpoint_of, users. cbn [fst snd].
  assert (∀ s, chain_secret fc ≠ s → (if decide (s = "") then [] else
    snd <$> filter (λ t : ListenerV3 * FilterChain * string, chain_secret t.1.2 = s) [(l, fc, d)]) = []) as Hother.
  { intros s Hs. case_decide; [done|]. rewrite filter_cons_False by done. done. }
  destruct (decide (chain_secret fc = "")) as [He|He].
  - split; [done|]. intros s. destruct (decide (chain_secret fc = s)) as [<-|Hs].
    + rewrite decide_True by done. by rewrite used_by_nil.
    + by rewrite Hother, used_by_nil.
  - destruct (m !! chain_secret fc) as [i|] eqn:Hi.
    + split; [done|]. intros s. destruct (decide (chain_secret fc = s)) as [<-|Hs].
      * rewrite lookup_insert_eq, Hi, decide_False by done. rewrite filter_cons_True by done. done.
      * rewrite lookup_insert_ne by done. by rewrite Hother, used_by_nil.
    + split; [done|]. intros s. destruct (decide (chain_secret fc = s)) as [<-|Hs]; [by rewrite Hi|].
      by rewrite Hother, used_by_nil.
Qed.
Lemma endpoint_of_used m m' ds t : (∀ s, m' !! s = used_by s (ds s) <$> m !! s) → endpoint_of m' t = endpoint_of m t.
Proof.
  intros Hm. destruct t as [[l fc] d]. unfold endpoint_of. f_equal. case_decide; [done|]. rewrite Hm.
  by destruct (m !! chain_secret fc).
Qed.
Lemma endpoint_steps ts eps m :
  let '(eps', m') := foldl endpoint_step (eps, m) ts in
  eps' = eps ++ (endpoint_of m <$> ts) ∧ ∀ s, m' !! s = used_by s (users s ts) <$> m !! s.
Proof.
  revert eps m. induction ts as [|t ts IH]; intros eps m; cbn [foldl].
  - rewrite app_nil_r. split; [done|]. intros s. unfold users. case_decide; by rewrite used_by_nil.
  - pose proof (endpoint_step_spec eps m t) as Hstep. destruct (endpoint_step (eps, m) t) as [eps1 m1].
    destruct Hstep as [-> Hm1]. specialize (IH (eps ++ [endpoint_of m t]) m1).
    destruct (foldl endpoint_step _ ts) as [eps' m']. destruct IH as [-> Hm']. split.
    + rewrite <-app_assoc. cbn. do 2 f_equal. apply list_fmap_ext. intros k t' _. apply (endpoint_of_used m m1 (λ s, users s [t]) t' Hm1).
    + intros s. rewrite Hm', Hm1, (users_cons s t ts), (users_cons s t []).
      destruct (m !! s) as [[]|]; [|done]. cbn. unfold used_by, set_used. cbn. do 2 f_equal.
      rewrite <-!app_assoc. do 2 f_equal. unfold users. cbn. by case_decide.
Qed.

Lemma buildCertificateInfoMap_unused clock secrets s i :
  buildCertificateInfoMap clock secrets !! s = Some i → ciUsedByDomains i = [].
Proof.
  unfold buildCertificateInfoMap. assert (∀ m, (∀ s i, m !! s = Some i → ciUsedByDomains i = []) →
    foldl (add_cert clock) m secrets !! s = Some i → ciUsedByDomains i = []) as Hgen.
  { induction secrets as [|x secrets IH]; intros m Hm; cbn; [apply Hm|]. apply IH.
    intros s' i'. unfold add_cert. case_decide; [apply Hm|]. repeat case_match; try apply Hm.
    rewrite lookup_insert_Some. intros [[_ <-]|[_ Hi]]; [|by eapply Hm]. unfold cert_info. by case_match. }
  apply Hgen. intros ? ?. by rewrite lookup_empty.
Qed.

(** The overview of a node is consistent: one endpoint per listener, filter chain
    and server name of the node (or the wildcard), with the certificate of the
    chain's secret; every certificate of the node once, used by exactly the domains
    of the endpoints that present it; and counts that are those of the lists. *)
Theorem overview_consistent `{CA : CacheAPI} c cord clock nodeID r :
  (∀ m, cord m ≡ₚ (map_to_list m).*2) → build_overview c cord clock nodeID = Ok r →
  ∃ listeners secrets, SnapshotCache.GetListeners c nodeID = Ok listeners ∧ SnapshotCache.GetSecrets c nodeID = Ok secrets ∧
    let certs := buildCertificateInfoMap clock secrets in
    ovEndpoints r = endpoint_of certs <$> targets listeners ∧
    (∀ i, i ∈ ovCertificates r ↔ ∃ s i0, certs !! s = Some i0 ∧ i = set_used i0 (users s (targets listeners))) ∧
    TotalEndpoints (ovSummary r) = length (targets listeners) ∧ TotalCertificates (ovSummary r) = size certs ∧
    TotalDomains (ovSummary r) = size (list_to_set (filter (λ d, d ≠ "*") ((targets listeners).*2)) : gset string).
Proof.
  intros Hord Hb. unfold build_overview in Hb. apply bind_Ok_inv in Hb as (versions & _ & Hb). cbv zeta in Hb.
  apply bind_Ok_inv in Hb as (listeners & Hl & Hb). apply bind_Ok_inv in Hb as (secrets & Hs & Hb).
  exists listeners, secrets. split; [done|]. split; [done|]. intros certs. fold certs in Hb. unfold extractEndpoints in Hb.
  pose proof (endpoint_steps (targets listeners) [] certs) as Hsteps.
  destruct (foldl endpoint_step ([], certs) (targets listeners)) as [eps m']. destruct Hsteps as [-> Hm']. cbn in Hb.
  injection Hb as <-. cbn [ovEndpoints ovCertificates ovSummary]. unfold buildCertificatesList, calculateSummary. cbn.
  assert (∀ s i, m' !! s = Some i ↔ ∃ i0, certs !! s = Some i0 ∧ i = set_used i0 (users s (targets listeners))) as Hlook.
  { intros s i. rewrite Hm'. destruct (certs !! s) as [i0|] eqn:Hi0; [|naive_solver].
    apply buildCertificateInfoMap_unused in Hi0. cbn. unfold used_by. rewrite Hi0. cbn. naive_solver. }
  split_and!; [done| | | |].
  - intros i. rewrite Hord, list_elem_of_fmap. split.
    + intros ([s j] & -> & (i0 & ? & ?)%elem_of_map_to_list%Hlook). by exists s, i0.
    + intros (s & i0 & H0 & ->). eexists (s, _). split; [|apply elem_of_map_to_list, Hlook; by exists i0]. done.
  - by rewrite length_fmap.
  - rewrite Hord, length_fmap, length_map_to_list. rewrite <-!size_dom. f_equal. apply set_eq. intros s.
    rewrite !elem_of_dom. split; [intros [i (i0 & ? & _)%Hlook]|intros [i0 Hi]]; [by eexists|]. eexists. apply Hlook. eauto.
  - do 3 f_equal. rewrite <-list_fmap_compose. apply list_fmap_ext. by intros k [[l fc] d] _.
Qed.
End consistency.

(** ** Freshness of the cache *)
(** The critical sections that change the cache; the read-locked part of [Get] does
    not. *)
Inductive op :=
| OSet (now : DomainSecrets.Time) (n : string) (r : NodeOverviewResponse) | OExpire (now : DomainSecrets.Time) (n : string)
| OInvalidate (n : string) | OInvalidateAll | OCleanup (now : DomainSecrets.Time).
Definition exec (c : OverviewCache) (o : op) : OverviewCache :=
  match o with
  | OSet now n r => Set_ now c n r
  | OExpire now n => get_expire now c n
  | OInvalidate n => Invalidate c n
  | OInvalidateAll => InvalidateAll c
  | OCleanup now => Cleanup now c
  end.
(** The operation replaces or removes the entry of the node on purpose. *)
Definition touches (n : string) (o : op) : Prop :=
  match o with OSet _ n' _ => n' = n | OInvalidate n' => n' = n | OInvalidateAll => True | _ => False end.

Lemma exec_ttl c o : ocTTL (exec c o) = ocTTL c.
Proof. destruct o; cbn; try done. unfold get_expire. by repeat case_match. Qed.
Lemma run_ttl h c : ocTTL (foldl exec c h) = ocTTL c.
Proof. revert c. induction h as [|o h IH]; intros c; cbn; [done|]. by rewrite IH, exec_ttl. Qed.
Lemma exec_entry c o n e :
  ocEntries (exec c o) !! n = Some e →
  (∃ now r, o = OSet now n r ∧ e = (r, now + ocTTL c)%Z) ∨ (¬ touches n o ∧ ocEntries c !! n = Some e).
Proof.
  destruct o as [now n' r|now n'|n'| |now]; cbn.
  - rewrite lookup_insert_Some. intros [[-> <-]|[Hne He]]; [left; by exists now, r|by right].
  - unfold get_expire. intros He. right. split; [tauto|]. destruct (ocEntries c !! n') as [e'|] eqn:Hn'; [|done].
    destruct (expired now e'); [|done]. cbn in He. by apply lookup_delete_Some in He as [_ ?].
  - rewrite lookup_delete_Some. intros [Hne He]. by right.
  - by rewrite lookup_empty.
  - intros [He _]%map_lookup_filter_Some. right. by split; [tauto|].
Qed.

(** In every interleaving of the cache's operations, a cached overview that is
    returned is the one last stored for the node, not invalidated since, and at most
    the time to live old. *)
Theorem overview_cache_fresh ttl h now n r stale :
  get_read now (foldl exec (NewOverviewCache ttl) h) n = (Some r, stale) →
  ∃ h1 t h2, h = h1 ++ OSet t n r :: h2 ∧ (now <= t + ttl)%Z ∧ Forall (λ o, ¬ touches n o) h2.
Proof.
  unfold get_read. destruct (ocEntries _ !! n) as [e|] eqn:He; [|done].
  unfold expired. case_bool_decide as Hx; [done|]. intros [= <- _].
  assert (∃ h1 t h2, h = h1 ++ OSet t n e.1 :: h2 ∧ e.2 = (t + ttl)%Z ∧ Forall (λ o, ¬ touches n o) h2)
    as (h1 & t & h2 & Hh & Ht & Hf); [|exists h1, t, h2; split_and!; [done|lia|done]].
  clear Hx. revert e He. induction h as [|o h IH] using rev_ind; intros e He; cbn in He.
  - by rewrite lookup_empty in He.
  - rewrite foldl_app in He. cbn in He. apply exec_entry in He as [(t & r & -> & ->)|[Ht He]].
    + exists h, t, []. cbn. by rewrite run_ttl.
    + destruct (IH e He) as (h1 & t & h2 & -> & He2 & Hf). exists h1, t, (h2 ++ [o]). rewrite <-app_assoc.
      split_and!; [done..|]. apply Forall_app. by split; [|constructor].
Qed.

(** *** Examples *)
Module Examples.
Definition olib : OverviewLib :=
  {| transport_socket_name _ := "envoy.transport_sockets.tls"; to_DownstreamTls s := Ok (Some [s]) |}.
Definition tls_chain : FilterChain :=
  mkFC "fc" [mkFilter "hcm" None] (Some ["a.io"; "b.io"]) (Some (mkAny "tls" "ns/s")) "".
#[local] Existing Instances MapCache.api MapCache.cache.
Definition snapshot : Snapshot :=
  SetResources (SetResources EmptySnapshot ListenerType "1" [ResListener (mkLV3 "ns/l" None [] [tls_chain] "")])
    SecretType "1" [ResSecret (mkSV3 "ns/s" "c" "private")].
Definition c : SnapshotCache.t := SnapshotCache.mkSC (cache_set NewCache "n1" snapshot).1 {["n1"]}.
Definition cord (m : gmap string CertificateInfo) : list CertificateInfo := (map_to_list m).*2.
End Examples.
#[local] Existing Instances Rest.Examples.lib Rest.Examples.certs Examples.olib MapCache.api MapCache.cache.
Lemma overview_consistent_witness :
  ∃ r i, build_overview Examples.c Examples.cord (λ _, 0%Z) "n1" = Ok r ∧ i ∈ ovCertificates r ∧
    ciUsedByDomains i = ["a.io"; "b.io"] ∧ TotalEndpoints (ovSummary r) = 2.
Proof.
  destruct (build_overview Examples.c Examples.cord (λ _, 0%Z) "n1") as [r|e] eqn:Hr; [|exfalso; revert Hr; by vm_compute].
  destruct (overview_consistent Examples.c Examples.cord (λ _, 0%Z) "n1" r) as (ls & ss & Hl & Hs & _ & Hc & He & _);
    [reflexivity|exact Hr|].
  vm_compute in Hl, Hs. injection Hl as <-. injection Hs as <-. eexists r, _. split; [reflexivity|]. split.
  - apply Hc. eexists "ns/s", _. split; vm_compute; reflexivity.
  - split; [vm_compute; reflexivity|]. rewrite He. vm_compute. reflexivity.
Defined.
Lemma overview_cache_fresh_witness :
  let r := mkOverview "n" (mkSummary 0 0 0 0 0 0) ("", "", "", "") [] [] in
  let h := [OSet 0 "n" r; OExpire 5 "n"; OSet 7 "m" r] in
  get_read 10 (foldl exec (NewOverviewCache 10) h) "n" = (Some r, false) ∧
  ∃ h1 t h2, h = h1 ++ OSet t "n" r :: h2 ∧ (10 <= t + 10)%Z ∧ Forall (λ o, ¬ touches "n" o) h2.
Proof. split; [vm_compute; reflexivity|]. apply (overview_cache_fresh 10 _ 10 "n" _ false). vm_compute. reflexivity. Defined.

(** A certificate that is valid for another 23 hours is shown as expired, and one
    with exactly seven days left as critical. *)
Example last_day_shown_expired :
  calculateCertStatus (days_until 0 (23 * Hour)) = CertStatusExpired ∧
  calculateCertStatus (days_until 0 (7 * 24 * Hour)) = CertStatusCritical.
Proof. vm_compute. by split. Qed.
(** The division in double precision can gain a day: one nanosecond short of 240000
    hours a day is still counted as whole days. *)
Example days_rounded_up : days_until 0 (100000 * 24 * Hour - 1) = 100000%Z.
Proof. vm_compute. reflexivity. Qed.
End Overview.
