(* ===== verification/FileWatcher.v ===== *)
(** * [internal/filewatcher/filewatcher.go]

    The watcher follows files through the directories they are in, because a file
    mounted from a config map is a symbolic link whose target is swapped.  Module
    [GoPath] has the functions of [path/filepath]; the file system is the function
    that resolves links at the moment of a call. *)

From Stdlib Require Import Ascii.
From S2P Require Import Prelude GoStrings Types.

(** ** [path/filepath] *)
Module GoPath.
Definition slash : ascii := "/"%char.
Definition IsAbs (path : string) : bool := match path with String a _ => bool_decide (a = slash) | EmptyString => false end.
(** One element of the path; the elements kept so far, last first. *)
Definition clean_elem (rooted : bool) (out : list string) (e : string) : list string :=
  if decide (e = "" ∨ e = ".") then out
  else if decide (e = "..") then
    match out with
    | [] => if rooted then [] else [".."]
    | top :: rest => if decide (top = "..") then ".." :: out else rest
    end
  else e :: out.
Definition render (rooted : bool) (out : list string) : string :=
  let s := GoStrings.Join slash (reverse out) in
  if rooted then String slash s else if decide (s = "") then "." else s.
Definition Clean (path : string) : string :=
  render (IsAbs path) (foldl (clean_elem (IsAbs path)) [] (GoStrings.Split slash path)).
(** [Dir]: everything up to the last separator, cleaned. *)
Definition Dir (path : string) : string :=
  match reverse (GoStrings.Split slash path) with
  | _ :: ((_ :: _) as parts) => Clean (GoStrings.Join slash (reverse parts) +:+ "/")
  | _ => "."
  end.

(** The elements of a cleaned path. *)
Fixpoint clean (rooted : bool) (out : list string) : Prop :=
  match out with
  | [] => True
  | e :: out => clean rooted out ∧ e ≠ "" ∧ e ≠ "." ∧ GoStrings.free_of slash e ∧
      (e = ".." → rooted = false ∧ Forall (.= "..") out)
  end.
Lemma clean_elem_clean rooted out e : clean rooted out → GoStrings.free_of slash e → clean rooted (clean_elem rooted out e).
Proof.
  intros Hc Hf. unfold clean_elem. case_decide as H1; [done|]. case_decide as H2.
  - subst e. destruct out as [|top rest].
    + destruct rooted; [done|]. cbn. split_and!; try done; intros _; by split; [|constructor].
    + destruct Hc as (Hc & ? & ? & ? & Hd). case_decide as E; [|done]. subst top. destruct (Hd eq_refl). cbn.
      split_and!; try done; intros _; by split; [|constructor].
  - cbn. split_and!; try done; naive_solver.
Qed.
Lemma clean_fold rooted es : Forall (GoStrings.free_of slash) es → clean rooted (foldl (clean_elem rooted) [] es).
Proof.
  intros Hf. assert (∀ out, clean rooted out → clean rooted (foldl (clean_elem rooted) out es)) as H; [|by apply H].
  induction Hf as [|e es He Hes IH]; intros out Hc; [done|]. cbn. apply IH. by apply clean_elem_clean.
Qed.
Lemma clean_id rooted out : clean rooted out → foldl (clean_elem rooted) [] (reverse out) = out.
Proof.
  induction out as [|e out IH]; [done|]. intros (Hc & H1 & H2 & _ & Hd). rewrite reverse_cons, foldl_app, IH by done. cbn.
  unfold clean_elem. rewrite decide_False by tauto. case_decide as E; [|done]. destruct (Hd E) as [-> Hall]. subst e.
  destruct out as [|top rest]; [done|]. inversion Hall; subst. by rewrite decide_True.
Qed.
Lemma clean_free rooted out : clean rooted out → Forall (GoStrings.free_of slash) out.
Proof. induction out as [|e out IH]; [done|]. intros (? & _ & _ & ? & _). constructor; auto. Qed.
Lemma render_clean rooted out : clean rooted out →
  IsAbs (render rooted out) = rooted ∧ foldl (clean_elem rooted) [] (GoStrings.Split slash (render rooted out)) = out.
Proof.
  intros Hc. destruct (decide (out = [])) as [->|Hne].
  { destruct rooted; by vm_compute. }
  assert (reverse out ≠ []) as Hr by (intros E; apply Hne; rewrite <-(reverse_involutive out), E; done).
  assert (GoStrings.Split slash (GoStrings.Join slash (reverse out)) = reverse out) as Hs.
  { apply GoStrings.Split_Join; [done|]. apply Forall_reverse. by eapply clean_free. }
  assert (∃ a s, GoStrings.Join slash (reverse out) = String a s ∧ a ≠ slash) as (a & s & Hj & Ha).
  { destruct (reverse out) as [|e es] eqn:E; [done|]. assert (e ∈ out) as Hin by (rewrite <-(reverse_involutive out), E, elem_of_reverse; left).
    assert (e ≠ "" ∧ GoStrings.free_of slash e) as [H1 H2].
    { clear -Hc Hin. induction out as [|x out IH]; [by apply not_elem_of_nil in Hin|]. destruct Hc as (? & ? & _ & ? & _).
      apply elem_of_cons in Hin as [->|?]; [done|by apply IH]. }
    destruct e as [|a e]; [done|]. apply GoStrings.free_of_cons in H2 as [? _]. exists a. destruct es; cbn; eauto. }
  unfold render. destruct rooted.
  - split; [done|]. change (String slash (GoStrings.Join slash (reverse out))) with ("" +:+ String slash (GoStrings.Join slash (reverse out))).
    rewrite GoStrings.Split_app, Hs by done. cbn. by apply clean_id.
  - rewrite decide_False by (by rewrite Hj). split; [rewrite Hj; cbn; by rewrite bool_decide_eq_false|]. rewrite Hs. by apply clean_id.
Qed.
Lemma Clean_idempotent path : Clean (Clean path) = Clean path.
Proof.
  unfold Clean at 1 3. set (out := foldl _ [] (GoStrings.Split slash path)).
  assert (clean (IsAbs path) out) as Hc by (apply clean_fold, GoStrings.Split_free).
  unfold Clean. fold out. destruct (render_clean (IsAbs path) out Hc) as [-> ->]. done.
Qed.
Example clean_paths : Clean "/etc/exc/../exc//config.json" = "/etc/exc/config.json" ∧ Clean "a/../../b/." = "../b" ∧ Clean "/.." = "/" ∧
  Dir "/etc/exc/config.json" = "/etc/exc" ∧ Dir "config.json" = "." ∧ Dir "/config.json" = "/".
Proof. by vm_compute. Qed.
End GoPath.

Module FileWatcher.
Import GoPath.

(** [callback]: what is called; [A] names the callbacks. *)
Record fileEntry (A : Type) := mkEntry { realPath : string; callback : A }.
Arguments mkEntry {A} realPath callback.
Arguments realPath {A} _.
Arguments callback {A} _.
(** [wDirs] is what the library watches. *)
Record FileWatcher (A : Type) := mkFW { files : gmap string (fileEntry A); dirs : gset string; wDirs : gset string; stopped : bool }.
Arguments mkFW {A} files dirs wDirs stopped.
Arguments files {A} _.
Arguments dirs {A} _.
Arguments wDirs {A} _.
Arguments stopped {A} _.
(** [fsnotify.Event]: a name and the bits of the operation. *)
Record Event := mkEvent { evName : string; evOp : Z }.
Definition Create : Z := 1.
Definition Write_ : Z := 2.
Definition Remove_ : Z := 4.
Definition Rename : Z := 8.
Definition Chmod : Z := 16.

Section watcher.
Context {A : Type}.
(** The file system when a call is made: where a path leads to, and whether the
    library can watch a directory. *)
Implicit Types (EvalSymlinks : string → result string) (watch : string → option error) (fw : FileWatcher A).

Definition NewFileWatcher (err : option error) : result (FileWatcher A) :=
  match err with
  | Some e => Err (ErrWrap "failed to create watcher" e)
  | None => Ok (mkFW ∅ ∅ ∅ false)
  end.
Definition Add EvalSymlinks watch fw (file : string) (cb : A) : FileWatcher A * option error :=
  let absPath := Clean file in
  let real := match EvalSymlinks absPath with Ok p => p | Err _ => absPath end in
  let fw := mkFW (<[absPath := mkEntry real cb]> (files fw)) (dirs fw) (wDirs fw) (stopped fw) in
  let dir := Dir absPath in
  if decide (dir ∈ dirs fw) then (fw, None)
  else match watch dir with
       | Some e => (fw, Some (ErrWrap ("failed to watch directory " +:+ dir) e))
       | None => (mkFW (files fw) ({[ dir ]} ∪ dirs fw) ({[ dir ]} ∪ wDirs fw) (stopped fw), None)
       end.
Definition Remove fw (file : string) : FileWatcher A := mkFW (delete (Clean file) (files fw)) (dirs fw) (wDirs fw) (stopped fw).
Definition Cancel fw : FileWatcher A := mkFW (files fw) (dirs fw) ∅ true.

(** The event is about the file itself. *)
Definition direct (ev : Event) (original : string) : bool :=
  bool_decide (Clean (evName ev) = original) &&
  negb (bool_decide (Z.land (evOp ev) (Z.lor Write_ (Z.lor Create (Z.lor Remove_ Rename))) = 0%Z)).
(** One round of the loop over [fw.files]: the watcher and the callbacks made so far. *)
Definition handle_file EvalSymlinks (ev : Event) (st : FileWatcher A * list (A * string)) (p : string * fileEntry A)
  : FileWatcher A * list (A * string) :=
  let '(fw, calls) := st in
  let '(original, entry) := p in
  if direct ev original then (fw, calls ++ [(callback entry, original)])
  else
    match EvalSymlinks original with
    | Err _ => (fw, calls)
    | Ok currentReal =>
        if decide (currentReal ≠ realPath entry) then
          (mkFW (<[original := mkEntry currentReal (callback entry)]> (files fw)) (dirs fw) (wDirs fw) (stopped fw),
           calls ++ [(callback entry, original)])
        else (fw, calls)
    end.
(** One event, the files in the order [order] of the iteration. *)
Definition run_event EvalSymlinks (ev : Event) (order : list (string * fileEntry A)) fw : FileWatcher A * list (A * string) :=
  foldl (handle_file EvalSymlinks ev) (fw, []) order.

(** ** What an event does *)
Definition retargeted EvalSymlinks (original : string) (entry : fileEntry A) : Prop :=
  ∃ p, EvalSymlinks original = Ok p ∧ p ≠ realPath entry.
(** The entry after the event: the new target is recorded unless the event was about
    the file itself. *)
Definition entry_after EvalSymlinks (ev : Event) (original : string) (entry : fileEntry A) : fileEntry A :=
  if direct ev original then entry
  else match EvalSymlinks original with Ok p => mkEntry p (callback entry) | Err _ => entry end.
Definition called EvalSymlinks (ev : Event) (p : string * fileEntry A) : Prop :=
  direct ev p.1 = true ∨ retargeted EvalSymlinks p.1 p.2.
Global Instance called_dec EvalSymlinks ev p : Decision (called EvalSymlinks ev p).
Proof.
  unfold called, retargeted. destruct (EvalSymlinks p.1) as [q|e] eqn:E.
  - destruct (decide (direct ev p.1 = true ∨ q ≠ realPath p.2)) as [H|H]; [left|right]; naive_solver.
  - destruct (decide (direct ev p.1 = true)) as [H|H]; [left; by left|right]; naive_solver.
Defined.
Lemma handle_file_spec EvalSymlinks ev fw calls original entry : files fw !! original = Some entry →
  handle_file EvalSymlinks ev (fw, calls) (original, entry) =
  (mkFW (<[original := entry_after EvalSymlinks ev original entry]> (files fw)) (dirs fw) (wDirs fw) (stopped fw),
   calls ++ (if decide (called EvalSymlinks ev (original, entry)) then [(callback entry, original)] else [])).
Proof.
  intros He. destruct (decide (called EvalSymlinks ev (original, entry))) as [Hc|Hc]; unfold called, retargeted in Hc; cbn in Hc;
    unfold handle_file, entry_after; destruct fw as [fs ds ws b]; cbn in *; destruct (direct ev original).
  - by rewrite insert_id.
  - destruct Hc as [?|(q & -> & Hq)]; [done|]. by rewrite decide_True.
  - tauto.
  - rewrite app_nil_r. destruct (EvalSymlinks original) as [q|e]; [|by rewrite insert_id].
    case_decide as Hq; [naive_solver|]. rewrite Hq. destruct entry. cbn. by rewrite insert_id.
Qed.

(** An event calls back, once each, for exactly the files it is about and those whose
    link leads elsewhere than when it was last looked at; these are then recorded. *)
Theorem run_event_spec EvalSymlinks ev order fw : order ≡ₚ map_to_list (files fw) →
  let '(fw', calls) := run_event EvalSymlinks ev order fw in
  calls = (λ p, (callback p.2, p.1)) <$> filter (called EvalSymlinks ev) order ∧
  files fw' = map_imap (λ original entry, Some (entry_after EvalSymlinks ev original entry)) (files fw) ∧
  dirs fw' = dirs fw ∧ wDirs fw' = wDirs fw ∧ stopped fw' = stopped fw.
Proof.
  intros Hord. destruct (run_event EvalSymlinks ev order fw) as [fw' calls] eqn:Hrun. unfold run_event in Hrun.
  assert (NoDup order.*1) as Hnd by (rewrite Hord; apply NoDup_fst_map_to_list).
  assert (∀ p, p ∈ order → files fw !! p.1 = Some p.2) as Hin.
  { intros [k e] Hp. rewrite Hord in Hp. by apply elem_of_map_to_list. }
  assert (∀ l g cs, NoDup l.*1 → (∀ p, p ∈ l → files g !! p.1 = Some p.2) →
    foldl (handle_file EvalSymlinks ev) (g, cs) l =
    (mkFW (foldl (λ m p, <[p.1 := entry_after EvalSymlinks ev p.1 p.2]> m) (files g) l) (dirs g) (wDirs g) (stopped g),
     cs ++ ((λ p, (callback p.2, p.1)) <$> filter (called EvalSymlinks ev) l))) as Hfold.
  { clear. induction l as [|[k e] l IH]; intros g cs Hnd Hin; [cbn; rewrite app_nil_r; by destruct g|].
    apply NoDup_cons in Hnd as [Hk Hnd]. cbn [foldl]. rewrite handle_file_spec by (apply (Hin (k, e)); left). rewrite IH.
    - cbn [files dirs wDirs stopped fst snd]. f_equal. rewrite <-app_assoc. f_equal. rewrite filter_cons. by case_decide.
    - done.
    - intros p Hp. cbn. rewrite lookup_insert_ne; [apply Hin; by right|]. intros E. apply Hk. apply list_elem_of_fmap. by exists p. }
  rewrite Hfold in Hrun by done. injection Hrun as <- <-. split; [done|]. split; [|done]. cbn. apply map_eq. intros k.
  rewrite map_lookup_imap.
  assert (∀ l (m : gmap string (fileEntry A)), NoDup l.*1 → foldl (λ m p, <[p.1 := entry_after EvalSymlinks ev p.1 p.2]> m) m l !! k =
    match list_to_map (M := gmap string (fileEntry A)) l !! k with Some e => Some (entry_after EvalSymlinks ev k e) | None => m !! k end) as Hlook.
  { clear. induction l as [|[k' e] l IH]; intros m Hnd; [cbn; by rewrite lookup_empty|]. apply NoDup_cons in Hnd as [Hk Hnd]. cbn [foldl fst snd].
    rewrite IH by done. rewrite list_to_map_cons. destruct (decide (k' = k)) as [->|Hne].
    - rewrite lookup_insert_eq. assert (list_to_map (M := gmap string (fileEntry A)) l !! k = None) as -> by (by apply not_elem_of_list_to_map_1).
      by rewrite lookup_insert_eq.
    - rewrite (lookup_insert_ne (list_to_map l)) by done. case_match; [done|]. by rewrite lookup_insert_ne. }
  rewrite Hlook by done. assert (list_to_map (M := gmap string (fileEntry A)) order = files fw) as ->.
  { apply map_eq. intros j. apply option_eq. intros e. rewrite <-elem_of_list_to_map by done. rewrite Hord. apply elem_of_map_to_list. }
  by destruct (files fw !! k).
Qed.
(** A registered file is found under its cleaned name, however it was written, and its
    directory is watched if the call reports no error. *)
Theorem Add_watches EvalSymlinks watch fw file cb : dirs fw ⊆ wDirs fw →
  let '(fw', err) := Add EvalSymlinks watch fw file cb in
  (callback <$> files fw' !! Clean file) = Some cb ∧ dirs fw' ⊆ wDirs fw' ∧
  (∀ other, other ≠ Clean file → files fw' !! other = files fw !! other) ∧
  (err = None → Dir (Clean file) ∈ wDirs fw') ∧
  files (Remove fw' (Clean file)) = delete (Clean file) (files fw).
Proof.
  intros Hd. unfold Add, Remove. cbn [files dirs wDirs stopped]. case_decide as Hin; [|destruct (watch _)]; cbn [files dirs wDirs];
    (split_and!; [by rewrite lookup_insert_eq|set_solver|intros o Ho; by rewrite lookup_insert_ne|set_solver|]);
    by rewrite Clean_idempotent, delete_insert_eq.
Qed.
End watcher.

(** A config map is swapped: one event makes one callback, later events make none; but
    an event about the file itself leaves the old target recorded, so the next event
    in the directory calls back again. *)
Module Examples.
Definition path : string := "/etc/exc/config.json".
Definition links (v : string) (p : string) : result string := Ok ("/etc/exc/" +:+ v +:+ "/config.json").
Definition fw0 : FileWatcher nat := (Add (links "..1") (λ _, None) (mkFW ∅ ∅ ∅ false) "/etc/exc//config.json" 7).1.
Definition swap : Event := mkEvent "/etc/exc/..data" Create.
Definition step (v : string) (ev : Event) (fw : FileWatcher nat) : FileWatcher nat * list (nat * string) :=
  run_event (links v) ev (map_to_list (files fw)) fw.
End Examples.
Example swap_calls_once :
  let '(fw1, calls1) := Examples.step "..2" Examples.swap Examples.fw0 in
  let '(_, calls2) := Examples.step "..2" (mkEvent "/etc/exc/..1" Remove_) fw1 in
  calls1 = [(7, Examples.path)] ∧ calls2 = [].
Proof. by vm_compute. Qed.
Example direct_event_calls_twice :
  let '(fw1, calls1) := Examples.step "..2" (mkEvent Examples.path Create) Examples.fw0 in
  let '(_, calls2) := Examples.step "..2" Examples.swap fw1 in
  calls1 = [(7, Examples.path)] ∧ calls2 = [(7, Examples.path)].
Proof. by vm_compute. Qed.
End FileWatcher.
