(* ===== verification/Manifests.v ===== *)
(** * [cmd/client]: the validation of manifests

    The command walks a directory ([filepath.Walk], over a tree of files as the
    calls find it), decodes every YAML file and looks for manifests that define the
    same object twice.  The YAML decoder is a class. *)

From Stdlib Require Import Ascii.
From S2P Require Import Prelude GoStrings Types FileWatcher.

Module Manifests.
Import GoPath.

(** ** More of [path/filepath] and [strings] *)
Definition HasSuffix (s suffix : string) : bool :=
  String.prefix (GoStrings.rev_string suffix) (GoStrings.rev_string s).
(** The elements of a path, from the root on. *)
Definition elems (p : string) : list string := reverse (foldl (clean_elem (IsAbs p)) [] (GoStrings.Split slash p)).
(** [Join] of two elements; an empty one is ignored. *)
Definition Join (dir name : string) : string :=
  if decide (dir = "") then if decide (name = "") then "" else Clean name
  else if decide (name = "") then Clean dir else Clean (dir +:+ String slash name).
Fixpoint strip_common (b t : list string) : list string * list string :=
  match b, t with
  | x :: b', y :: t' => if decide (x = y) then strip_common b' t' else (b, t)
  | _, _ => (b, t)
  end.
Definition Rel (basepath targpath : string) : result string :=
  let fail := Err (ErrNew ("Rel: can't make " +:+ targpath +:+ " relative to " +:+ basepath)) in
  if decide (IsAbs (Clean basepath) ≠ IsAbs (Clean targpath)) then fail
  else
    let '(b, t) := strip_common (elems basepath) (elems targpath) in
    match b with
    | ".." :: _ => fail
    | _ => match replicate (length b) ".." ++ t with [] => Ok "." | l => Ok (GoStrings.Join slash l) end
    end.

(** ** The tree of files *)
(** A file with what reading it gives; a directory with the error of listing it, if
    any, and its entries in the order of their names, each with what [lstat] gives. *)
Inductive node :=
| NFile (read : result string)
| NDir (list_err : option error) (entries : list (string * result node)).
Definition is_dir (n : node) : bool := match n with NDir _ _ => true | NFile _ => false end.

(** What the function of [Walk] returns: nil, [SkipDir] or an error. *)
Inductive walked := Continue | SkipDir | Stop (e : error).

Section walk.
Context {S : Type} (fn : string → result (string * node) → S → S * walked).
(** [fn path info err]: the name and the node are the information, [Err] the error. *)
Definition entry_path (path name : string) : string := Join path name.
Fixpoint walk (path name : string) (n : node) (s : S) : S * walked :=
  match n with
  | NFile _ => fn path (Ok (name, n)) s
  | NDir (Some e) _ => fn path (Err e) s
  | NDir None entries =>
      match fn path (Ok (name, n)) s with
      | (s, Continue) =>
          (fix loop (entries : list (string * result node)) (s : S) : S * walked :=
             match entries with
             | [] => (s, Continue)
             | (name, Err e) :: entries =>
                 match fn (entry_path path name) (Err e) s with
                 | (s, Stop e) => (s, Stop e)
                 | (s, _) => loop entries s
                 end
             | (name, Ok n) :: entries =>
                 match walk (entry_path path name) name n s with
                 | (s, Continue) => loop entries s
                 | (s, SkipDir) => if is_dir n then loop entries s else (s, SkipDir)
                 | (s, Stop e) => (s, Stop e)
                 end
             end) entries s
      | (s, w) => (s, w)
      end
  end.
Definition Walk (root : string) (lstat : result (string * node)) (s : S) : S * option error :=
  let '(s, w) := match lstat with Err e => fn root (Err e) s | Ok (name, n) => walk root name n s end in
  (s, match w with Stop e => Some e | _ => None end).
End walk.

(** ** [validators.go] *)
Record Manifest := mkManifest { APIVersion : string; Kind : string; mName : string; mNamespace : string }.
Record ValidationResult := mkResult { Valid : bool; Errors : list string }.
Record manifestInfo := mkInfo { iKey : string; iPath : string }.
Abbreviation tracker := (gmap string (gmap string (gmap string manifestInfo))).
(** [Func] may change the result and the data, which is a map. *)
Record Validator := mkValidator {
  vName : string; vFunc : Manifest → string → ValidationResult → tracker → ValidationResult * tracker; vData : tracker
}.
(** The documents of a file up to the end or to one that does not decode. *)
Class YamlLib := { yaml_Decode : string → list Manifest * option error }.

Definition nl : string := String (ascii_of_nat 10) "".
Definition checkDuplicateManifests (m : Manifest) (path : string) (result : ValidationResult) (data : tracker)
  : ValidationResult * tracker :=
  let ns := if decide (mNamespace m = "") then "default" else mNamespace m in
  let apiKind := APIVersion m +:+ "/" +:+ Kind m in
  let data := if decide (is_Some (data !! apiKind)) then data else <[apiKind := ∅]> data in
  let byNs := map_get_default ∅ data apiKind in
  let byNs := if decide (is_Some (byNs !! ns)) then byNs else <[ns := ∅]> byNs in
  let byName := map_get_default ∅ byNs ns in
  let key := mName m in
  match byName !! key with
  | Some existing =>
      (mkResult false (Errors result ++
         ["Error: duplicate manifest found:" +:+ nl +:+ "- First occurrence: " +:+ iPath existing +:+ nl +:+ "- Duplicate: " +:+ path +:+
          nl +:+ "For: " +:+ apiKind +:+ "/" +:+ ns +:+ "/" +:+ key]), <[apiKind := byNs]> data)
  | None => (result, <[apiKind := <[ns := <[key := mkInfo key path]> byName]> byNs]> data)
  end.
Definition NewDuplicateValidator : Validator := mkValidator "duplicate-checker" checkDuplicateManifests ∅.

Section validate.
Context `{Yaml : !YamlLib}.
(** The variables of [Validate]: the result, the validators with their data, the
    relative paths printed. *)
Record vstate := mkV { vResult : ValidationResult; vValidators : list Validator; vPrinted : list string }.
Definition run_validator (m : Manifest) (path : string) (acc : ValidationResult * list Validator) (v : Validator)
  : ValidationResult * list Validator :=
  let '(r, vs) := acc in
  let '(r, d) := vFunc v m path r (vData v) in (r, vs ++ [mkValidator (vName v) (vFunc v) d]).
Definition validate_doc (path : string) (st : ValidationResult * list Validator) (m : Manifest) : ValidationResult * list Validator :=
  if decide (APIVersion m ≠ "") then foldl (run_validator m path) (st.1, []) st.2 else st.
Definition walkFunc (path : string) (recursive : bool) (currentPath : string) (info : result (string * node)) (st : vstate)
  : vstate * walked :=
  match info with
  | Err e => (st, Stop e)
  | Ok (name, n) =>
      if is_dir n && bool_decide (currentPath ≠ path) && negb recursive then (st, SkipDir)
      else match n with
           | NFile read =>
               if HasSuffix name ".yaml" then
                 match read with
                 | Err e => (st, Stop (ErrWrap ("error reading " +:+ currentPath) e))
                 | Ok data =>
                     let '(docs, err) := yaml_Decode data in
                     let '(r, vs) := foldl (validate_doc currentPath) (vResult st, vValidators st) docs in
                     let st := mkV r vs (vPrinted st) in
                     match err with
                     | Some e => (st, Stop (ErrWrap ("error parsing " +:+ currentPath) e))
                     | None =>
                         match Rel path currentPath with
                         | Err e => (st, Stop e)
                         | Ok relPath => (mkV (vResult st) (vValidators st) (vPrinted st ++ [relPath]), Continue)
                         end
                     end
                 end
               else (st, Continue)
           | NDir _ _ => (st, Continue)
           end
  end.
Definition Validate (path : string) (recursive : bool) (lstat : result (string * node)) (validators : list Validator)
  : option error * list string :=
  let st := mkV (mkResult true []) validators [] in
  let '(st, err) := Walk (walkFunc path recursive) path lstat st in
  match err with
  | Some e => (Some e, vPrinted st)
  | None =>
      if Valid (vResult st) then (None, vPrinted st)
      else (Some (ErrNew ("validation failed: " +:+ String.concat "; " (Errors (vResult st)))), vPrinted st)
  end.

(** [main.go]: the exit status of the command. *)
Definition validateCmd (path : string) (recursive : bool) (lstat : result (string * node)) : Z :=
  if decide (path = "") then 1
  else match (Validate path recursive lstat [NewDuplicateValidator]).1 with Some _ => 1 | None => 0 end.
End validate.

(** ** Paths below the root *)
Definition plain (name : string) : Prop := GoStrings.free_of slash name ∧ name ≠ "" ∧ name ≠ "." ∧ name ≠ "..".
Lemma Split_app_gen c s t : GoStrings.Split c (s +:+ String c t) = GoStrings.Split c s ++ GoStrings.Split c t.
Proof.
  induction s as [|a s IH]; [by rewrite GoStrings.Split_app|]. rewrite GoStrings.str_app_cons. cbn. rewrite IH. case_decide; [done|].
  destruct (GoStrings.Split c s) eqn:E; [by apply GoStrings.Split_not_nil in E|done].
Qed.
Lemma Clean_elems p : IsAbs (Clean p) = IsAbs p ∧ elems (Clean p) = elems p.
Proof.
  unfold elems, Clean. set (out := foldl _ [] (GoStrings.Split slash p)).
  assert (clean (IsAbs p) out) as Hc by (apply clean_fold, GoStrings.Split_free).
  destruct (render_clean (IsAbs p) out Hc) as [H1 H2]. by rewrite H1, H2.
Qed.
Lemma Join_elems dir name : dir ≠ "" → plain name →
  IsAbs (Join dir name) = IsAbs dir ∧ elems (Join dir name) = elems dir ++ [name] ∧ Join dir name ≠ "".
Proof.
  intros Hd (Hf & H1 & H2 & H3). unfold Join. rewrite !decide_False by done. destruct (Clean_elems (dir +:+ String slash name)) as [-> ->].
  assert (IsAbs (dir +:+ String slash name) = IsAbs dir) as Ha by (by destruct dir). split; [done|]. split.
  - unfold elems. rewrite Ha, Split_app_gen, (GoStrings.Split_free_id _ name) by done. rewrite foldl_app. cbn [foldl].
    assert (∀ r out, clean_elem r out name = name :: out) as ->; [|by rewrite reverse_cons].
    intros r out. unfold clean_elem. rewrite decide_False by tauto. by rewrite decide_False.
  - unfold Clean, render. destruct (IsAbs _); [done|]. by case_decide.
Qed.
Lemma strip_common_prefix a l : strip_common a (a ++ l) = ([], l).
Proof. induction a as [|x a IH]; [by destruct l|]. cbn. by rewrite decide_True. Qed.
Lemma Rel_under root p l : IsAbs p = IsAbs root → elems p = elems root ++ l → is_ok (Rel root p) = true.
Proof.
  intros Ha He. unfold Rel. rewrite (proj1 (Clean_elems root)), (proj1 (Clean_elems p)), Ha, decide_False by tauto.
  rewrite He, strip_common_prefix. cbn. by destruct l.
Qed.

(** ** The manifests found *)
Section gathered.
Context `{Yaml : !YamlLib} (root : string) (recursive : bool).
(** The reference: the manifests of the tree with the files they are in, or [None] if
    something cannot be read. *)
Fixpoint gather (path name : string) (n : node) : option (list (string * Manifest)) :=
  match n with
  | NFile read =>
      if HasSuffix name ".yaml" then
        match read with
        | Ok data => match yaml_Decode data with (docs, None) => Some ((path,.) <$> docs) | (_, Some _) => None end
        | Err _ => None
        end
      else Some []
  | NDir (Some _) _ => None
  | NDir None entries =>
      if bool_decide (path ≠ root) && negb recursive then Some []
      else
        (fix all (entries : list (string * result node)) : option (list (string * Manifest)) :=
           match entries with
           | [] => Some []
           | (_, Err _) :: _ => None
           | (name, Ok n) :: entries =>
               match gather (Join path name) name n, all entries with Some l, Some l' => Some (l ++ l') | _, _ => None end
           end) entries
  end.
(** Names are those of a file system. *)
Fixpoint named (n : node) : Prop :=
  match n with
  | NFile _ => True
  | NDir _ entries =>
      (fix all (entries : list (string * result node)) : Prop :=
         match entries with
         | [] => True
         | (name, Err _) :: entries => plain name ∧ all entries
         | (name, Ok n) :: entries => plain name ∧ named n ∧ all entries
         end) entries
  end.
Definition process (st : ValidationResult * list Validator) (docs : list (string * Manifest)) : ValidationResult * list Validator :=
  foldl (λ st d, validate_doc d.1 st d.2) st docs.
Definition pair_of (st : vstate) : ValidationResult * list Validator := (vResult st, vValidators st).

Definition walk_ok (n : node) : Prop := ∀ path name st l, path ≠ "" → IsAbs path = IsAbs root → elems path = elems root ++ l → named n →
  match gather path name n with
  | Some docs => ∃ st' w, walk (walkFunc root recursive) path name n st = (st', w) ∧ pair_of st' = process (pair_of st) docs ∧
      (w = Continue ∨ w = SkipDir ∧ is_dir n = true)
  | None => ∃ st' e, walk (walkFunc root recursive) path name n st = (st', Stop e)
  end.
Lemma walk_file read : walk_ok (NFile read).
Proof.
  intros path name st l _ Ha He _. cbn. destruct (HasSuffix name ".yaml"); [|by exists st, Continue; split_and!; [..|left]].
  destruct read as [data|e]; [|by eexists _, _]. destruct (yaml_Decode data) as [docs err].
  destruct (foldl (validate_doc path) (vResult st, vValidators st) docs) as [r vs] eqn:Hf.
  destruct err as [e|]; [by eexists _, _|]. pose proof (Rel_under root path l Ha He) as Hrel. destruct (Rel root path) as [rel|]; [|done].
  eexists _, Continue. split; [reflexivity|]. split; [|by left]. unfold pair_of, process. cbn. rewrite foldl_fmap. cbn. by rewrite <-Hf.
Qed.
Lemma walk_dir le entries : Forall (λ e, match e.2 with Ok n => walk_ok n | Err _ => True end) entries → walk_ok (NDir le entries).
Proof.
  intros Hall path name st l Hp Ha He Hn. destruct le as [e|]; [by exists st, e|]. cbn [walk gather].
  assert (walkFunc root recursive path (Ok (name, NDir None entries)) st =
    (st, if bool_decide (path ≠ root) && negb recursive then SkipDir else Continue)) as ->.
  { unfold walkFunc. cbn [is_dir andb]. by destruct (_ && _). }
  destruct (bool_decide (path ≠ root) && negb recursive).
  { exists st, SkipDir. split_and!; [done..|]. right. done. }
  revert st Hn. induction Hall as [|[nm [n|e]] entries Hx Hall IH]; intros st Hn.
  - exists st, Continue. split_and!; [done..|by left].
  - cbn in Hx. destruct Hn as (Hplain & Hnn & Hn). destruct (Join_elems path nm Hp Hplain) as (Ha' & He' & Hne').
    specialize (Hx (Join path nm) nm st (l ++ [nm]) Hne' ltac:(congruence) ltac:(rewrite He', He; by rewrite app_assoc) Hnn).
    destruct (gather (Join path nm) nm n) as [docs|].
    + destruct Hx as (st' & w & Hw & Hpair & Hcont). unfold entry_path. rewrite Hw. specialize (IH st' Hn).
      assert (∀ X Y : vstate * walked, match w with Continue => X | SkipDir => if is_dir n then X else Y | Stop e => (st', Stop e) end = X) as Hskip
        by (intros; destruct Hcont as [->|[-> ->]]; done). rewrite Hskip.
      match goal with |- match (match ?a with Some _ => _ | None => _ end) with _ => _ end => destruct a as [docs'|] end; [|exact IH].
      destruct IH as (st'' & w' & Hw' & Hpair' & Hcont'). exists st'', w'. split; [exact Hw'|]. split; [|exact Hcont'].
      rewrite Hpair', Hpair. unfold process. by rewrite foldl_app.
    + destruct Hx as (st' & e & Hw). unfold entry_path. rewrite Hw. by exists st', e.
  - eexists _, _. reflexivity.
Qed.
Lemma walk_gather n : walk_ok n.
Proof.
  revert n. fix IH 1. intros [read|le entries]; [apply walk_file|]. apply walk_dir.
  induction entries as [|[nm [n|e]] entries IHe]; constructor; [exact (IH n)|exact IHe|exact I|exact IHe].
Qed.
End gathered.

(** ** The tracker *)
Definition identity (m : Manifest) : string * string * string :=
  (APIVersion m +:+ "/" +:+ Kind m, if decide (mNamespace m = "") then "default" else mNamespace m, mName m).
Definition look (d : tracker) (i : string * string * string) : option manifestInfo :=
  byNs ← d !! i.1.1; byName ← byNs !! i.1.2; byName !! i.2.
Definition seen (d : tracker) (i : string * string * string) : Prop := is_Some (look d i).
Lemma check_spec m path r d :
  let '(r', d') := checkDuplicateManifests m path r d in
  (∀ i, seen d' i ↔ seen d i ∨ i = identity m) ∧ (Valid r' = true ↔ Valid r = true ∧ ¬ seen d (identity m)).
Proof.
  unfold checkDuplicateManifests, identity. set (ns := if decide (mNamespace m = "") then "default" else mNamespace m).
  set (a := APIVersion m +:+ "/" +:+ Kind m). set (k := mName m).
  set (d1 := if decide (is_Some (d !! a)) then d else <[a := ∅]> d). set (byNs := map_get_default ∅ d1 a).
  set (byNs1 := if decide (is_Some (byNs !! ns)) then byNs else <[ns := ∅]> byNs). set (byName := map_get_default ∅ byNs1 ns).
  assert (byNs = default ∅ (d !! a)) as HbyNs.
  { unfold byNs, d1, map_get_default. case_decide as Hs; [done|]. rewrite lookup_insert_eq. by apply eq_None_not_Some in Hs as ->. }
  assert (byName = default ∅ (byNs !! ns)) as HbyName.
  { unfold byName, byNs1, map_get_default. case_decide as Hs; [done|]. rewrite lookup_insert_eq. by apply eq_None_not_Some in Hs as ->. }
  assert (byName !! k = look d (a, ns, k)) as Hk.
  { unfold look. cbn. rewrite HbyName, HbyNs. destruct (d !! a) as [x|]; cbn; [|by rewrite !lookup_empty].
    destruct (x !! ns); cbn; [done|by rewrite lookup_empty]. }
  assert (∀ b i, look (<[a := b]> d1) i = if decide (i.1.1 = a) then b !! i.1.2 ≫= (λ n, n !! i.2) else look d i) as Hins.
  { intros b [[a' ns'] k']. unfold look. cbn. case_decide as E; [subst a'; by rewrite lookup_insert_eq|].
    rewrite lookup_insert_ne by done. unfold d1. case_decide; [done|]. by rewrite lookup_insert_ne. }
  assert (∀ i, i.1.1 = a → look d i = byNs1 !! i.1.2 ≫= (λ n, n !! i.2)) as Hd.
  { intros [[a' ns'] k'] E. cbn in E. subst a'. unfold look. cbn. unfold byNs1. rewrite HbyNs. destruct (d !! a) as [x|]; cbn.
    - case_decide as Hs; [done|]. destruct (decide (ns' = ns)) as [->|]; [rewrite lookup_insert_eq; cbn|by rewrite lookup_insert_ne].
      apply eq_None_not_Some in Hs as ->. cbn. by rewrite lookup_empty.
    - rewrite decide_False by (rewrite lookup_empty; by intros [? ?]). destruct (decide (ns' = ns)) as [->|].
      + rewrite lookup_insert_eq. cbn. by rewrite lookup_empty.
      + rewrite lookup_insert_ne, lookup_empty by done. done. }
  destruct (byName !! k) as [ex|] eqn:Hex; symmetry in Hk.
  - split; [|cbn; unfold seen; rewrite Hk; split; [done|intros [_ []]; eauto]]. intros i. unfold seen. rewrite Hins. case_decide as E.
    + rewrite <-(Hd i E). split; [by left|]. intros [?| ->]; [done|]. rewrite Hk. eauto.
    + split; [by left|]. intros [?| ->]; [done|]. by destruct E.
  - split; [|unfold seen; rewrite Hk; split; [intros ?; split; [done|by intros [? ?]]|tauto]]. intros i. unfold seen. rewrite Hins. case_decide as E.
    + rewrite (Hd i E). destruct i as [[a' ns'] k']. cbn in *. subst a'. destruct (decide (ns' = ns)) as [->|Hne].
      * rewrite lookup_insert_eq. cbn. rewrite lookup_insert_is_Some. assert (byNs1 !! ns = Some byName) as ->.
        { unfold byName, byNs1, map_get_default. case_decide as Hs; [by destruct Hs as [? ->]|by rewrite lookup_insert_eq]. }
        cbn. destruct (decide (k = k')) as [->|]; naive_solver congruence.
      * rewrite lookup_insert_ne by done. split; [by left|]. intros [?|[= ? ?]]; [done|congruence].
    + split; [by left|]. intros [?| ->]; [done|]. by destruct E.
Qed.

(** The objects the manifests define; a document without an API version defines none. *)
Definition defined (docs : list (string * Manifest)) : list (string * string * string) :=
  identity <$> filter (λ m, APIVersion m ≠ "") (docs.*2).
Lemma process_spec `{Yaml : !YamlLib} docs : ∀ r d, ∃ r' d',
  process (r, [mkValidator "duplicate-checker" checkDuplicateManifests d]) docs =
    (r', [mkValidator "duplicate-checker" checkDuplicateManifests d']) ∧
  (Valid r' = true ↔ Valid r = true ∧ NoDup (defined docs) ∧ ∀ i, i ∈ defined docs → ¬ seen d i).
Proof.
  induction docs as [|[p m] docs IH]; intros r d.
  { exists r, d. split; [done|]. split; [|tauto]. intros Hv. split; [done|]. split; [constructor|]. intros i Hi. by apply not_elem_of_nil in Hi. }
  change (process ?s ((p, m) :: docs)) with (process (validate_doc p s m) docs). unfold validate_doc, defined.
  rewrite fmap_cons. cbn [snd]. case_decide as Hv.
  - rewrite filter_cons_True by done. rewrite fmap_cons. cbn. pose proof (check_spec m p r d) as Hc.
    destruct (checkDuplicateManifests m p r d) as [r1 d1]. destruct Hc as [Hseen Hvalid]. destruct (IH r1 d1) as (r' & d' & Hrun & Hr').
    exists r', d'. split; [exact Hrun|]. rewrite Hr', Hvalid, NoDup_cons. fold (defined docs). split.
    + intros ((? & ?) & ? & Hni). split; [done|]. split; [split; [|done]|].
      * intros Hin. apply (Hni _ Hin), Hseen. by right.
      * intros i [->|Hin]%elem_of_cons; [done|]. intros ?. apply (Hni i Hin), Hseen. by left.
    + intros (? & [? ?] & Hni). split; [split; [done|]; apply Hni; left|]. split; [done|]. intros i Hin [Hs| ->]%Hseen; [|done].
      by apply (Hni i); [right|].
  - rewrite filter_cons_False by tauto. apply IH.
Qed.


(** ** Witness *)
Module Examples.
(** A document per line: "kind name". *)
Definition yaml : YamlLib := {| yaml_Decode s :=
  ((λ l, match GoStrings.Split " "%char l with [k; n] => mkManifest "v1" k n "" | _ => mkManifest "" "" "" "" end)
    <$> GoStrings.Split ","%char s, None) |}.
Definition tree : node :=
  NDir None [("a.yaml", Ok (NFile (Ok "Cluster a,Cluster b"))); ("notes.txt", Ok (NFile (Err (ErrNew "no permission"))));
             ("sub", Ok (NDir None [("b.yaml", Ok (NFile (Ok "Route a,Cluster a")))]))].
End Examples.
End Manifests.
