(* ===== verification/RestServer.v ===== *)
(** * [internal/xds/api/server.go] ([Run]) and [handlers.go]: the REST server

    The engine of the REST API: the middleware for requests from other origins, the authentication middleware
    behind it, which is installed
    only when authentication is enabled, the table of routes and the handlers of
    [Rest] and [Overview] behind both.  The router of the framework and the middleware for
    other origins, which is a library, are parameters.
    The theorem of the file is about the whole request: what a user is answered does
    not depend on nodes that the access control list keeps from the user. *)

From S2P Require Import Prelude GoStrings Types DomainSecrets SnapshotCache Rest Overview.

Module RestServer.
Import Envoy Rest Overview.

(** ** [internal/buildinfo] *)
Record Info := mkInfo { Version : string; CommitHash : string; BuildDate : string }.
(** The values before the linker sets them. *)
Definition defaultInfo : Info := mkInfo "dev" "unknown" "unknown".
Definition GetInfo (vars : Info) : Info := mkInfo (Version vars) (CommitHash vars) (BuildDate vars).

(** ** The routes *)
Inductive endpoint :=
| ENodeIDs | ENodeIDsVersions | EResourceVersions | EListeners | EFilterType | EFilter | EHTTPFilters | EHTTPFilterRouter
| EHTTPFilterRBAC | ETCPProxyFilters | ERouteConfigurations | EClusters | ESecrets | ESecretByName | EDomainLocations
| EDomains | EOverview | EBuildInfo | ESwagger.
Global Instance endpoint_eq_dec : EqDecision endpoint.
Proof. solve_decision. Defined.
Definition version : string := "/api/v1".
Definition overviewCacheTTL : Z := 30 * 10 ^ 9.
(** The routes of the group, each [GET]. *)
Definition group_routes : list (string * endpoint) :=
  [("/nodeIDs", ENodeIDs); ("/nodeIDs/versions", ENodeIDsVersions); ("/resourceVersions", EResourceVersions);
   ("/listeners", EListeners); ("/filterType", EFilterType); ("/filters", EFilter); ("/filtersHCM", EFilter);
   ("/httpFilters", EHTTPFilters); ("/httpFilterRouter", EHTTPFilterRouter); ("/httpFilterRBAC", EHTTPFilterRBAC);
   ("/filtersTCPProxy", ETCPProxyFilters); ("/routeConfigurations", ERouteConfigurations); ("/clusters", EClusters);
   ("/secrets", ESecrets); ("/secrets/:namespace/:name", ESecretByName); ("/domainLocations", EDomainLocations);
   ("/domains", EDomains); ("/overview", EOverview); ("/buildinfo", EBuildInfo)].

(** The router of the framework: the route of the table that a method and a path
    select, with the values of the path's parameters. *)
Class Router := {
  find_route : list (string * endpoint) → string → string → option (endpoint * gmap string string);
  find_route_registered table method path e ps :
    find_route table method path = Some (e, ps) → method = "GET" ∧ e ∈ table.*2
}.

(** ** Requests, and those from other origins *)
(** [rqOrigin] is the header [Origin], empty when it is missing. *)
Record Request := mkRequest { rqMethod : string; rqPath : string; rqQuery : Values; rqToken : result string; rqOrigin : string }.
(** [gincors.Config], the durations in nanoseconds. *)
Record CorsConfig := mkCors {
  AllowOrigins : list string; AllowMethods : list string; AllowHeaders : list string; AllowCredentials : bool; MaxAge : Z
}.
(** The middleware [gincors.New(config)]: the status with which it answers a request itself and ends it, if it does.
    It does so for requests from other origins only; when all origins are allowed, only for a preflight,
    a request of the method OPTIONS, with 204. *)
Class Cors := {
  cors_reply : CorsConfig → Request → option Z;
  cors_origin cfg rq code : cors_reply cfg rq = Some code → rqOrigin rq ≠ "";
  cors_all cfg rq code : AllowOrigins cfg = ["*"] → cors_reply cfg rq = Some code → rqMethod rq = "OPTIONS" ∧ code = 204%Z
}.

(** ** The engine *)
Record Auth := mkAuth { aclStoreOf : aclStore; authDevMode : bool }.
(** [oidc.NewProvider]: the error, if the issuer cannot be reached. *)
Definition NewAuth (oidc_NewProvider : string → option error) (issuerURL clientID : string) (acl : Values) (devMode : bool)
  : result Auth :=
  match oidc_NewProvider issuerURL with
  | Some e => Err e
  | None => Ok (mkAuth (newACLStore acl) devMode)
  end.
(** The handlers of an engine run behind its middleware; the overview cache is the
    state of the handlers. *)
Record Engine := mkEngine { cors : CorsConfig; middleware : option Auth; routes : list (string * endpoint); overviewCache : OverviewCache }.
Definition RegisterRoutes (e : Engine) : Engine :=
  mkEngine (cors e) (middleware e) (routes e ++ ((λ r, (version +:+ r.1, r.2)) <$> group_routes)) (NewOverviewCache overviewCacheTTL).
(** The settings of [api.Config] that [Run] reads. *)
Record AuthConfig := mkAuthConfig {
  Enabled : bool; IssuerURL : string; ClientID : string; ACL : Values; AccessControlModel : string; AccessControlPolicy : string
}.
(** [Run] up to [server.Run]. *)
Definition Run (oidc_NewProvider : string → option error) (EnableDevMode : bool) (auth : AuthConfig) : result Engine :=
  m ← (if Enabled auth then
         a ← wrap_err "failed to create auth middleware"
               (NewAuth oidc_NewProvider (IssuerURL auth) (ClientID auth) (ACL auth) EnableDevMode);
         Ok (Some a)
       else Ok None);
  let e := RegisterRoutes (mkEngine (mkCors ["*"] ["GET"] ["*"] true (12 * 3600 * 10 ^ 9)) m [] (NewOverviewCache overviewCacheTTL)) in
  Ok (mkEngine (cors e) (middleware e) (routes e ++ [("/swagger/*any", ESwagger)]) (overviewCache e)).

(** ** A request *)
Inductive body :=
| BNodeIDs (ns : list string) | BVersions (vs : list (string * gmap string string)) | BResourceVersions (v : SnapshotCache.ResourceVersions)
| BListeners (ls : list ListenerV3) | BText (s : string) | BTexts (ss : list string) | BHttpFilters (hs : list HttpFilterV3)
| BRoutes (rs : list RouteConfiguration) | BClusters (cs : list ClusterV3) | BSecrets (ss : list SecretV3)
| BSecret (s : secretResponse) | BLocations (ls : list Location) | BOverview (o : NodeOverviewResponse) | BInfo (i : Info)
| BSwagger.
Definition reply_map {A B} (f : A → B) (r : reply A) : reply B := a ← r; Json (f a).
(** The instants, the order of map iterations and the build variables of a run. *)
Record Oracle := mkOracle {
  now1 : DomainSecrets.Time; now2 : DomainSecrets.Time; now3 : DomainSecrets.Time; clock : string → DomainSecrets.Time;
  cord : gmap string CertificateInfo → list CertificateInfo; marshal : Resource → result string; sha256_hex : string → string;
  buildVars : Info
}.

Section serve.
Context {RL : RestLib} {CL : CertLib} {OL : OverviewLib} {RT : Router} {CO : Cors} `{CA : CacheAPI}.
Context {Token : Type} (verify : string → result Token) (claims : Token → result (list string)) (o : Oracle).

(** A handler, with the overview cache after it. *)
Definition handle (e : endpoint) (ps : gmap string string) (q : Values) (c : SnapshotCache.t) (available : option (gset string))
    (oc : OverviewCache) : reply body * OverviewCache :=
  match e with
  | ENodeIDs => (Json (BNodeIDs (getNodeIDs c available)), oc)
  | ENodeIDsVersions => (reply_map BVersions (getNodeIDsWithResourceVersions c available), oc)
  | EResourceVersions => (reply_map BResourceVersions (getResourceVersions c (marshal o) (sha256_hex o) q), oc)
  | EListeners => (reply_map BListeners (getListeners c available q), oc)
  | EFilterType => (reply_map BText (getFilterType c available q), oc)
  | EFilter => (reply_map BTexts (getFilter c available q), oc)
  | EHTTPFilters => (reply_map BHttpFilters (getHTTPFilters c available q), oc)
  | EHTTPFilterRouter => (reply_map BText (getHTTPFilterRouter c available q), oc)
  | EHTTPFilterRBAC => (reply_map BText (getHTTPFilterRBAC c available q), oc)
  | ETCPProxyFilters => (reply_map BTexts (getTCPProxyFilters c available q), oc)
  | ERouteConfigurations => (reply_map BRoutes (getRouteConfigurations c available q), oc)
  | EClusters => (reply_map BClusters (getClusters c available q), oc)
  | ESecrets => (reply_map BSecrets (getSecrets c available q), oc)
  | ESecretByName => (reply_map BSecret (getSecretByNamespacedName c available (default "" (ps !! "namespace")) (default "" (ps !! "name"))), oc)
  | EDomainLocations => (reply_map BLocations (getDomainLocations c available q), oc)
  | EDomains => (reply_map BTexts (getDomains c available q), oc)
  | EBuildInfo => (Json (BInfo (GetInfo (buildVars o))), oc)
  | ESwagger => (Json BSwagger, oc)
  | EOverview =>
      let '(r, oc) := getOverview c available (cord o) (now1 o) (now2 o) (now3 o) (clock o) oc q in (reply_map BOverview r, oc)
  end.
(** The middleware: without it nothing is left in the context. *)
Definition authenticate (e : Engine) (token : result string) : reply (option (gset string)) :=
  match middleware e with
  | None => Json None
  | Some a => HandlerFunc verify claims (authDevMode a) (aclStoreOf a) token
  end.
(** The middlewares run for unknown paths too, the one for other origins first. *)
Definition serve (e : Engine) (c : SnapshotCache.t) (rq : Request) : reply body * OverviewCache :=
  match cors_reply (cors e) rq with
  | Some code => (NoBody code, overviewCache e)
  | None =>
      match authenticate e (rqToken rq) with
      | Json available =>
          match find_route (routes e) (rqMethod rq) (rqPath rq) with
          | None => (NoBody 404, overviewCache e)
          | Some (ep, ps) => handle ep ps (rqQuery rq) c available (overviewCache e)
          end
      | Fail code msg => (Fail code msg, overviewCache e)
      | NoBody code => (NoBody code, overviewCache e)
      | Crash w => (Crash w, overviewCache e)
      | Refused code m err d => (Refused code m err d, overviewCache e)
      end
  end.
End serve.

(** ** Two caches that look the same to a user *)
Lemma reply_bind_ext {A B} (m : reply A) (f g : A → reply B) : (∀ a, m = Json a → f a = g a) → m ≫= f = m ≫= g.
Proof. destruct m; cbn; auto. Qed.
Lemma reply_bind_cong {A B} (m m' : reply A) (f g : A → reply B) :
  m = m' → (∀ a, m = Json a → f a = g a) → m ≫= f = m' ≫= g.
Proof. intros <-. apply reply_bind_ext. Qed.

Section view.
Context {RL : RestLib} {CL : CertLib} {OL : OverviewLib} `{CA : CacheAPI}.
Context (c1 c2 : SnapshotCache.t) (available : option (gset string)).
Hypothesis Hnodes : getAvailableNodeIDs c1 available = getAvailableNodeIDs c2 available.
Hypothesis Hsnap : ∀ n, n ∈ getAvailableNodeIDs c1 available → SnapshotCache.GetSnapshot c1 n = SnapshotCache.GetSnapshot c2 n.
Local Abbreviation avail := (getAvailableNodeIDs c1 available).

Lemma view_resources n t : n ∈ avail → SnapshotCache.resources_of c1 n t = SnapshotCache.resources_of c2 n t.
Proof using Hsnap. intros Hn. unfold SnapshotCache.resources_of. by rewrite Hsnap. Qed.
Lemma view_listeners n : n ∈ avail → SnapshotCache.GetListeners c1 n = SnapshotCache.GetListeners c2 n.
Proof using Hsnap. intros Hn. unfold SnapshotCache.GetListeners. by rewrite Hsnap. Qed.
Lemma view_clusters n : n ∈ avail → SnapshotCache.GetClusters c1 n = SnapshotCache.GetClusters c2 n.
Proof using Hsnap. intros Hn. unfold SnapshotCache.GetClusters. by rewrite view_resources. Qed.
Lemma view_secrets n : n ∈ avail → SnapshotCache.GetSecrets c1 n = SnapshotCache.GetSecrets c2 n.
Proof using Hsnap. intros Hn. unfold SnapshotCache.GetSecrets. by rewrite view_resources. Qed.
Lemma view_routes n : n ∈ avail → SnapshotCache.GetRouteConfigurations c1 n = SnapshotCache.GetRouteConfigurations c2 n.
Proof using Hsnap. intros Hn. unfold SnapshotCache.GetRouteConfigurations. by rewrite view_resources. Qed.
Lemma view_versions n : n ∈ avail → SnapshotCache.GetVersions c1 n = SnapshotCache.GetVersions c2 n.
Proof using Hsnap. intros Hn. unfold SnapshotCache.GetVersions. by rewrite Hsnap. Qed.
Lemma view_check_node n : check_node c1 available n = check_node c2 available n.
Proof using Hnodes. unfold check_node. by rewrite Hnodes. Qed.
Lemma check_node_avail n u : check_node c1 available n = Json u → n ∈ avail.
Proof using Type. unfold check_node. by case_decide. Qed.
Lemma view_with_node q names : with_node c1 available q names = with_node c2 available q names.
Proof using Hnodes. unfold with_node. apply reply_bind_ext. intros m _. by rewrite view_check_node. Qed.
Lemma with_node_avail q names m : with_node c1 available q names = Json m → param m nodeIDParamName ∈ avail.
Proof using Type.
  intros (m' & _ & Hm)%reply_bind_Json. apply reply_bind_Json in Hm as (u & Hn%check_node_avail & [= ->]). done.
Qed.
Lemma view_domain_listeners params : param params nodeIDParamName ∈ avail →
  domain_listeners c1 params = domain_listeners c2 params.
Proof using Hsnap.
  intros Hn. unfold domain_listeners, getListenersAll, getListenerByName. by rewrite view_listeners.
Qed.
Lemma view_find_filter n domain filters : n ∈ avail → find_filter c1 n domain filters = find_filter c2 n domain filters.
Proof using Hsnap.
  intros Hn. induction filters as [|f filters IH]; [done|]. cbn [find_filter]. rewrite IH.
  unfold getRouteConfigurationByName. by rewrite view_routes.
Qed.
Lemma view_requestFilters q : getRequestFilters c1 available q = getRequestFilters c2 available q.
Proof using Hnodes Hsnap.
  unfold getRequestFilters. destruct (getParams q (node_params filter_params)) as [params|]; [|done]. cbn [mbind result_bind].
  rewrite <-Hnodes. unfold fail_if. case_bool_decide as Hn; [done|].
  cbn [mbind result_bind]. unfold getListenerByName. by rewrite view_listeners.
Qed.
Lemma view_secret_on_node ns name acc n : n ∈ avail → secret_on_node c1 ns name acc n = secret_on_node c2 ns name acc n.
Proof using Hsnap. intros Hn. unfold secret_on_node, getSecretsAll. by rewrite view_secrets. Qed.
Lemma view_secretByName ns name : getSecretByNamespacedName c1 available ns name = getSecretByNamespacedName c2 available ns name.
Proof using Hnodes Hsnap.
  unfold getSecretByNamespacedName. do 2 f_equal. rewrite <-Hnodes.
  assert (∀ l acc, l ⊆ avail → fold_result (secret_on_node c1 ns name) acc l = fold_result (secret_on_node c2 ns name) acc l) as Hfold; [|by apply Hfold].
  induction l as [|n l IH]; intros acc Hl; [done|]. cbn [fold_result]. rewrite view_secret_on_node by set_solver.
  destruct (secret_on_node c2 ns name acc n); cbn; [|done]. apply IH. set_solver.
Qed.
Lemma view_nodeVersions : getNodeIDsWithResourceVersions c1 available = getNodeIDsWithResourceVersions c2 available.
Proof using Hnodes Hsnap.
  unfold getNodeIDsWithResourceVersions. f_equal. rewrite <-Hnodes.
  apply map_result_ext. intros n Hn. rewrite sort_by_key_perm in Hn. by rewrite view_versions.
Qed.
Lemma view_build_overview cord clock n : n ∈ avail → build_overview c1 cord clock n = build_overview c2 cord clock n.
Proof using Hsnap. intros Hn. unfold build_overview. by rewrite view_versions, view_listeners, view_secrets. Qed.

(** Every handler but the one of the resource versions answers the same. *)
Lemma view_handle o e ps q oc : e ≠ EResourceVersions → e ≠ EOverview →
  handle o e ps q c1 available oc = handle o e ps q c2 available oc.
Proof using Hnodes Hsnap.
  intros Hr Ho. destruct e; try done; cbn [handle]; do 2 f_equal.
  all: try (unfold getHTTPFilterRouter, getHTTPFilterRBAC, getFilterType, getFilter, getHTTPFilters, getTCPProxyFilters, http_filter_config;
            by rewrite view_requestFilters).
  - unfold getNodeIDs. by rewrite Hnodes.
  - apply view_nodeVersions.
  - apply reply_bind_cong; [apply view_with_node|]. intros m Hm%with_node_avail. by rewrite view_listeners.
  - apply reply_bind_cong; [apply view_with_node|]. intros m Hm%with_node_avail.
    unfold getRouteConfigurationsAll, getRouteConfigurationByName. by rewrite view_routes.
  - apply reply_bind_cong; [apply view_with_node|]. intros m Hm%with_node_avail.
    unfold getClustersAll, getClusterByName. by rewrite view_clusters.
  - apply reply_bind_cong; [apply view_with_node|]. intros m Hm%with_node_avail.
    unfold getSecretsAll, getSecretByName. by rewrite view_secrets.
  - apply view_secretByName.
  - apply reply_bind_ext. intros m _. apply reply_bind_ext. intros d _. cbv zeta.
    apply reply_bind_cong; [apply view_check_node|]. intros u Hn%check_node_avail. rewrite view_domain_listeners by done.
    apply reply_bind_ext. intros ls _. do 2 f_equal. apply map_result_ext. intros l _. case_match; [|done].
    unfold findFilterByDomain. by rewrite view_find_filter.
  - apply reply_bind_cong; [apply view_with_node|]. intros m Hm%with_node_avail. by rewrite view_domain_listeners.
Qed.
End view.

(** *** The overview and its cache *)
Section overviews.
Context {RL : RestLib} {CL : CertLib} {OL : OverviewLib} `{CA : CacheAPI}.
(** Two overview caches with the same entry for a node. *)
Definition same_entry (n : string) (oc1 oc2 : OverviewCache) : Prop :=
  ocTTL oc1 = ocTTL oc2 ∧ ocEntries oc1 !! n = ocEntries oc2 !! n.
Lemma same_entry_expire n n' now oc1 oc2 : same_entry n oc1 oc2 → same_entry n (get_expire now oc1 n') (get_expire now oc2 n').
Proof.
  intros [Ht He]. unfold get_expire, same_entry. destruct (decide (n' = n)) as [->|Hne].
  - rewrite He. repeat case_match; cbn; rewrite ?lookup_delete_eq; split; congruence.
  - repeat case_match; cbn; rewrite ?lookup_delete_ne by done; done.
Qed.
Lemma same_entry_Set n n' now r oc1 oc2 : same_entry n oc1 oc2 → same_entry n (Set_ now oc1 n' r) (Set_ now oc2 n' r).
Proof.
  intros [Ht He]. split; [done|]. cbn. destruct (decide (n' = n)) as [->|Hne].
  - by rewrite !lookup_insert_eq, Ht.
  - by rewrite !lookup_insert_ne.
Qed.
Lemma same_entry_Cleanup n now oc1 oc2 : same_entry n oc1 oc2 → same_entry n (Cleanup now oc1) (Cleanup now oc2).
Proof. intros [Ht He]. split; [done|]. cbn. by rewrite !map_lookup_filter, He. Qed.

(** The node of a query whose other nodes do not matter. *)
Definition query_node (q : Values) : string := match q !! nodeIDParamName with Some [n] => n | _ => "" end.
Lemma overview_param q n : getRequiredOnlyOneParam q nodeIDParamName = Ok n → n = query_node q.
Proof. unfold getRequiredOnlyOneParam, query_node. repeat case_match; naive_solver. Qed.

Context (c1 c2 : SnapshotCache.t) (available : option (gset string)).
Local Abbreviation ask o c oc q := (getOverview c available (cord o) (now1 o) (now2 o) (now3 o) (clock o) oc q).
(** The entries of other nodes are left alone. *)
Lemma overview_frame o c oc q n : n ≠ query_node q → same_entry n (ask o c oc q).2 oc.
Proof.
  intros Hne. unfold getOverview.
  destruct (getRequiredOnlyOneParam q nodeIDParamName) as [n'|[]] eqn:Hq; [|done..]. apply overview_param in Hq as ->.
  cbn [or_reply mbind reply_bind]. destruct (check_node c available (query_node q)); [|done..]. cbn [mbind reply_bind].
  assert (same_entry n (get_expire (now2 o) oc (query_node q)) oc) as Hexp.
  { unfold get_expire, same_entry. repeat case_match; cbn; by rewrite ?lookup_delete_ne by done. }
  assert (∀ r oc', same_entry n oc' oc → same_entry n (Set_ (now3 o) oc' (query_node q) r) oc) as Hset.
  { intros r oc' [? ?]. split; [done|]. cbn. by rewrite lookup_insert_ne. }
  unfold Get, get_read. repeat case_match; simplify_eq/=; try (apply Hset); done.
Qed.
(** The node of the query looks the same in both. *)
Lemma overview_local o oc1 oc2 q : let n := query_node q in
  (n ∈ SnapshotCache.nodeIDs c1 ↔ n ∈ SnapshotCache.nodeIDs c2) →
  SnapshotCache.GetSnapshot c1 n = SnapshotCache.GetSnapshot c2 n → same_entry n oc1 oc2 →
  (ask o c1 oc1 q).1 = (ask o c2 oc2 q).1 ∧ same_entry n (ask o c1 oc1 q).2 (ask o c2 oc2 q).2.
Proof.
  intros n Hin Hsnap He. unfold getOverview.
  destruct (getRequiredOnlyOneParam q nodeIDParamName) as [n'|[]] eqn:Hq; [|done..]. apply overview_param in Hq as ->. fold n.
  cbn [or_reply mbind reply_bind].
  assert (check_node c1 available n = check_node c2 available n) as ->.
  { unfold check_node. apply decide_ext. by rewrite !getAvailableNodeIDs_spec, Hin. }
  destruct (check_node c2 available n); [|done..]. cbn [mbind reply_bind].
  assert (build_overview c1 (cord o) (clock o) n = build_overview c2 (cord o) (clock o) n) as Hb.
  { unfold build_overview, SnapshotCache.GetVersions, SnapshotCache.GetListeners, SnapshotCache.GetSecrets, SnapshotCache.resources_of.
    by rewrite Hsnap. }
  assert (∀ oc1 oc2, same_entry n oc1 oc2 →
    let k oc := λ c, match or_reply 500 (build_overview c (cord o) (clock o) n) with
      | Json response => (Json response, Set_ (now3 o) oc n response) | Fail code e => (Fail code e, oc)
      | NoBody code => (NoBody code, oc) | Crash w => (Crash w, oc) | Refused code m e d => (Refused code m e d, oc) end in
    (k oc1 c1).1 = (k oc2 c2).1 ∧ same_entry n (k oc1 c1).2 (k oc2 c2).2) as Hk.
  { intros oc1' oc2' He' k. unfold k. rewrite Hb. destruct (or_reply 500 _); cbn; auto using same_entry_Set. }
  unfold Get, get_read. destruct He as [Ht He]. rewrite He. destruct (ocEntries oc2 !! n) as [e|] eqn:Hn; [|apply Hk; by split; [|rewrite Hn]].
  destruct (expired (now1 o) e); [apply Hk, same_entry_expire; by split; [|rewrite Hn]|]. cbn. split; [done|]. by split; [|rewrite Hn].
Qed.
End overviews.

(** ** Histories of requests *)
Global Instance acl_allows_dec acl groups n : Decision (acl_allows acl groups n).
Proof.
  destruct (decide (Exists (λ g, "*" ∈ default [] (acl !! g) ∨ n ∈ default [] (acl !! g)) groups)) as [Hx|Hx].
  - left. apply Exists_exists in Hx as (g & Hg & Hns). destruct (acl !! g) as [ns|] eqn:E; [by exists g, ns|set_solver].
  - right. intros (g & ns & Hg & E & Hns). apply Hx, Exists_exists. exists g. by rewrite E.
Defined.

Section histories.
Context {RL : RestLib} {CL : CertLib} {OL : OverviewLib} {RT : Router} {CO : Cors} `{CA : CacheAPI}.
Context {Token : Type} (verify : string → result Token) (claims : Token → result (list string)).

(** A request, with the snapshot cache and the instants of the moment, or a round of
    the goroutine that removes expired overviews. *)
Inductive hevent := HRequest (o : Oracle) (c : SnapshotCache.t) (rq : Request) | HCleanup (now : DomainSecrets.Time).
Definition with_cache (e : Engine) (oc : OverviewCache) : Engine := mkEngine (cors e) (middleware e) (routes e) oc.
Definition hstep (e : Engine) (ev : hevent) : option (reply body) * Engine :=
  match ev with
  | HRequest o c rq => let '(r, oc) := serve verify claims o e c rq in (Some r, with_cache e oc)
  | HCleanup now => (None, with_cache e (Cleanup now (overviewCache e)))
  end.
Fixpoint replies (e : Engine) (h : list hevent) : list (option (reply body)) :=
  match h with [] => [] | ev :: h => let '(r, e) := hstep e ev in r :: replies e h end.

(** The groups a request proves, none if the token is missing or rejected. *)
Definition groups_of (token : result string) : list string :=
  match (t ← token; idToken ← verify t; claims idToken) with Ok groups => groups | Err _ => [] end.
(** The nodes with [P] are the same, visited in the same order, with the same snapshots. *)
Record same_view (P : string → Prop) `{∀ n, Decision (P n)} (c1 c2 : SnapshotCache.t) : Prop := mkSameView {
  sv_nodes : filter P (SnapshotCache.GetNodeIDs c1) = filter P (SnapshotCache.GetNodeIDs c2);
  sv_snapshots n : P n → SnapshotCache.GetSnapshot c1 n = SnapshotCache.GetSnapshot c2 n
}.
Definition same_event (P : string → Prop) `{∀ n, Decision (P n)} (ev1 ev2 : hevent) : Prop :=
  match ev1, ev2 with
  | HRequest o1 c1 rq1, HRequest o2 c2 rq2 => o1 = o2 ∧ rq1 = rq2 ∧ same_view P c1 c2
  | HCleanup t1, HCleanup t2 => t1 = t2
  | _, _ => False
  end.

Section related.
Context (P : string → Prop) `{HP : ∀ n, Decision (P n)}.
Lemma same_view_node c1 c2 n : same_view P c1 c2 → P n → n ∈ SnapshotCache.nodeIDs c1 ↔ n ∈ SnapshotCache.nodeIDs c2.
Proof.
  intros [Hn _] Hp. rewrite <-!SnapshotCache.elem_of_GetNodeIDs.
  assert (∀ c, n ∈ SnapshotCache.GetNodeIDs c ↔ n ∈ filter P (SnapshotCache.GetNodeIDs c)) as Hf
    by (intros c; rewrite list_elem_of_filter; tauto). by rewrite !Hf, Hn.
Qed.
(** A user who may see nodes with [P] only has the same nodes available. *)
Lemma same_view_available c1 c2 available : same_view P c1 c2 → (∀ n, node_allowed available n → P n) →
  getAvailableNodeIDs c1 available = getAvailableNodeIDs c2 available ∧
  ∀ n, n ∈ getAvailableNodeIDs c1 available → SnapshotCache.GetSnapshot c1 n = SnapshotCache.GetSnapshot c2 n.
Proof.
  intros [Hn Hs] Hsub. split; [|intros n [_ Ha]%getAvailableNodeIDs_spec; auto]. unfold getAvailableNodeIDs.
  assert (∀ l : list string, match available with Some s => filter (.∈ s) l | None => l end =
               match available with Some s => filter (.∈ s) (filter P l) | None => filter P l end) as Hf.
  { intros l. destruct available as [s|]; cbn in Hsub.
    - induction l as [|x l IH]; [done|]. rewrite (filter_cons P). case_decide as Hx.
      + rewrite !filter_cons. case_decide; by rewrite IH.
      + rewrite filter_cons_False by auto. done.
    - induction l as [|x l IH]; [done|]. rewrite filter_cons_True by auto. by rewrite <-IH. }
  rewrite (Hf (SnapshotCache.GetNodeIDs c1)), (Hf (SnapshotCache.GetNodeIDs c2)). by rewrite Hn.
Qed.
Definition same_overviews (oc1 oc2 : OverviewCache) : Prop := ∀ n, P n → same_entry n oc1 oc2.

Lemma handle_related o e ps q c1 c2 available oc1 oc2 : same_view P c1 c2 → same_overviews oc1 oc2 →
  same_overviews (handle o e ps q c1 available oc1).2 (handle o e ps q c2 available oc2).2 ∧
  (e ≠ EResourceVersions → (∀ n, node_allowed available n → P n) →
   (handle o e ps q c1 available oc1).1 = (handle o e ps q c2 available oc2).1).
Proof.
  intros Hv Hoc. destruct (decide (e = EOverview)) as [->|Ho].
  2:{ assert (∀ c oc, (handle o e ps q c available oc).2 = oc) as Hkeep by (by intros; destruct e).
      split; [by rewrite !Hkeep|]. intros He Hsub. destruct (same_view_available c1 c2 available Hv Hsub) as [Hn Hs].
      rewrite (view_handle c1 c2 available Hn Hs) by done. by destruct e. }
  cbn [handle]. pose proof (overview_local c1 c2 available o oc1 oc2 q) as Hl. cbv zeta in Hl.
  pose proof (λ n, overview_frame available o c1 oc1 q n) as Hf1. pose proof (λ n, overview_frame available o c2 oc2 q n) as Hf2.
  destruct (getOverview c1 _ _ _ _ _ _ oc1 q) as [r1 oc1'] eqn:E1, (getOverview c2 _ _ _ _ _ _ oc2 q) as [r2 oc2'] eqn:E2.
  cbn in Hl, Hf1, Hf2. destruct (decide (P (query_node q))) as [Hp|Hp].
  - destruct Hl as [-> He]; [by apply same_view_node|by apply Hv|by apply Hoc|]. split; [|done].
    intros n Hn. destruct (decide (n = query_node q)) as [->|Hne]; [done|]. cbn.
    destruct (Hf1 n Hne), (Hf2 n Hne), (Hoc n Hn). split; congruence.
  - split.
    + intros n Hn. assert (n ≠ query_node q) as Hne by congruence. cbn. destruct (Hf1 n Hne), (Hf2 n Hne), (Hoc n Hn). split; congruence.
    + intros _ Hsub. cbn. f_equal. revert E1 E2. unfold getOverview.
      destruct (getRequiredOnlyOneParam q nodeIDParamName) as [n'|[]] eqn:Hq; cbn; [|congruence..]. apply overview_param in Hq as ->.
      assert (∀ c, check_node c available (query_node q) = Fail 400 "node_id not found in cache") as Hc.
      { intros c. unfold check_node. rewrite decide_False; [done|]. rewrite getAvailableNodeIDs_spec. intros [_ ?]. auto. }
      rewrite !Hc. cbn. congruence.
Qed.
Lemma hstep_related e1 e2 ev1 ev2 : cors e1 = cors e2 → middleware e1 = middleware e2 → routes e1 = routes e2 →
  same_overviews (overviewCache e1) (overviewCache e2) → same_event P ev1 ev2 →
  let '(r1, e1') := hstep e1 ev1 in let '(r2, e2') := hstep e2 ev2 in
  (cors e1' = cors e1 ∧ cors e2' = cors e1 ∧ middleware e1' = middleware e1 ∧ routes e1' = routes e1 ∧ middleware e2' = middleware e1 ∧ routes e2' = routes e1 ∧
   same_overviews (overviewCache e1') (overviewCache e2')) ∧
  ∀ o c rq, ev1 = HRequest o c rq → (∀ ps, find_route (routes e1) (rqMethod rq) (rqPath rq) ≠ Some (EResourceVersions, ps)) →
    (∀ available, authenticate verify claims e1 (rqToken rq) = Json available → ∀ n, node_allowed available n → P n) → r1 = r2.
Proof.
  intros Hco Hm Hr Hoc Hev. destruct ev1 as [o c1 rq|t], ev2 as [o' c2 rq'|t']; try done.
  2:{ cbn in Hev. subst t'. cbn. split; [|done]. split_and!; try congruence. intros n Hn. by apply same_entry_Cleanup, Hoc. }
  destruct Hev as (<- & <- & Hv). cbn [hstep]. unfold serve. unfold authenticate. rewrite <-Hm, <-Hr, <-Hco.
  fold (authenticate verify claims e1 (rqToken rq)).
  destruct (cors_reply (cors e1) rq) as [code|]; [cbn; split; [split_and!; first [congruence | exact Hoc]|by intros]|].
  destruct (authenticate verify claims e1 (rqToken rq)) as [available| | | |] eqn:Hauth; [|cbn; split; [split_and!; first [congruence | exact Hoc]|by intros]..].
  destruct (find_route (routes e1) (rqMethod rq) (rqPath rq)) as [[ep ps]|] eqn:Hf; [|cbn; split; [split_and!; first [congruence | exact Hoc]|by intros]].
  destruct (handle_related o ep ps (rqQuery rq) c1 c2 available _ _ Hv Hoc) as [Hoc' Heq].
  destruct (handle o ep ps _ c1 _ _) as [r1 oc1'], (handle o ep ps _ c2 _ _) as [r2 oc2']. cbn in *.
  split; [split_and!; congruence || done|]. intros ? ? ? [= <- <- <-] Hne Hsub. f_equal. apply Heq; [congruence|]. exact (Hsub _ Hauth).
Qed.
Lemma replies_related e1 e2 h1 h2 i o c rq : cors e1 = cors e2 → middleware e1 = middleware e2 → routes e1 = routes e2 →
  same_overviews (overviewCache e1) (overviewCache e2) → Forall2 (same_event P) h1 h2 → h1 !! i = Some (HRequest o c rq) →
  (∀ ps, find_route (routes e1) (rqMethod rq) (rqPath rq) ≠ Some (EResourceVersions, ps)) →
  (∀ available, authenticate verify claims e1 (rqToken rq) = Json available → ∀ n, node_allowed available n → P n) →
  replies e1 h1 !! i = replies e2 h2 !! i.
Proof.
  intros Hco Hm Hr Hoc Hh. revert e1 e2 i Hco Hm Hr Hoc.
  induction Hh as [|ev1 ev2 h1 h2 Hev Hh IH]; intros e1 e2 i Hco Hm Hr Hoc Hi Hne Hsub; [done|].
  pose proof (hstep_related e1 e2 ev1 ev2 Hco Hm Hr Hoc Hev) as Hstep. cbn [replies].
  destruct (hstep e1 ev1) as [r1 e1'], (hstep e2 ev2) as [r2 e2']. destruct Hstep as ((Hco1 & Hco2 & Hm1 & Hr1 & Hm2 & Hr2 & Hoc') & Heq).
  destruct i as [|i]; cbn in Hi |- *; [injection Hi as ->; f_equal; by apply (Heq o c rq)|].
  apply IH; try congruence; [done|done|]. intros av. unfold authenticate. rewrite Hm1. apply Hsub.
Qed.
End related.

(** Only reads are answered, and only by the handlers of the table. *)
Lemma serve_only_get o e c rq b oc : serve verify claims o e c rq = (Json b, oc) →
  rqMethod rq = "GET" ∧ ∃ ep ps, ep ∈ (routes e).*2 ∧ find_route (routes e) (rqMethod rq) (rqPath rq) = Some (ep, ps).
Proof.
  unfold serve. destruct (cors_reply (cors e) rq); [done|]. destruct (authenticate verify claims e (rqToken rq)); [|done..].
  destruct (find_route (routes e) (rqMethod rq) (rqPath rq)) as [[ep ps]|] eqn:Hf; [|done]. intros _.
  destruct (find_route_registered _ _ _ _ _ Hf) as [-> Hin]. split; [done|]. by exists ep, ps.
Qed.
Lemma Run_auth oidc dev auth e : Run oidc dev auth = Ok e → Enabled auth = true →
  AllowOrigins (cors e) = ["*"] ∧
  ∃ a, middleware e = Some a ∧ aclStoreOf a = newACLStore (ACL auth) ∧ authDevMode a = dev.
Proof.
  unfold Run. intros Hrun Hen. rewrite Hen in Hrun. unfold NewAuth in Hrun. destruct (oidc (IssuerURL auth)) as [[]|]; try done.
  cbn in Hrun. injection Hrun as <-. split; [done|]. by eexists.
Qed.
(** What the middleware leaves in the context is what the list gives to the groups. *)
Lemma authenticate_acl e a acl token available n : middleware e = Some a → aclStoreOf a = newACLStore acl → acl ≠ ∅ →
  authenticate verify claims e token = Json available → node_allowed available n ↔ acl_allows acl (groups_of token) n.
Proof.
  intros Hm Ha Hne. unfold authenticate. rewrite Hm, Ha. unfold HandlerFunc, respMessage, groups_of.
  destruct token as [t|]; [|by destruct (authDevMode a)]. cbn. destruct (verify t) as [idToken|]; [|by destruct (authDevMode a)].
  cbn. destruct (claims idToken) as [groups|]; [|by destruct (authDevMode a)].
  intros [= <-]. by apply available_nodes_spec.
Qed.
(** C13. With an access control list, what a user of the REST API is answered depends only
    on the nodes that the list gives to the groups of the user's token: two runs in
    which these nodes have the same snapshots, with any other requests between, give
    the user the same answers, whatever the snapshots of the other nodes; a request
    without a valid token learns nothing.  The one exception is the route of the
    resource versions. *)
Theorem rest_noninterference oidc dev auth e token h1 h2 i o c rq :
  Run oidc dev auth = Ok e → Enabled auth = true → ACL auth ≠ ∅ → rqToken rq = token →
  Forall2 (same_event (acl_allows (ACL auth) (groups_of token))) h1 h2 →
  h1 !! i = Some (HRequest o c rq) →
  (∀ ps, find_route (routes e) (rqMethod rq) (rqPath rq) ≠ Some (EResourceVersions, ps)) →
  replies e h1 !! i = replies e h2 !! i.
Proof.
  intros Hrun Hen Hne <- Hh Hi Hroute. destruct (Run_auth _ _ _ _ Hrun Hen) as (_ & a & Hm & Ha & _).
  eapply replies_related; try done. intros available Hav n Hn. by eapply (authenticate_acl e a).
Qed.
End histories.

(** ** Examples *)
Module Examples.
(** A router for paths without parameters. *)
Definition exact (table : list (string * endpoint)) (method path : string) : option (endpoint * gmap string string) :=
  if decide (method = "GET") then (λ p : nat * (string * endpoint), (p.2.2, ∅)) <$> list_find (λ r, r.1 = path) table else None.
Lemma exact_registered table method path e ps : exact table method path = Some (e, ps) → method = "GET" ∧ e ∈ table.*2.
Proof.
  unfold exact. case_decide; [|done]. intros ([j r] & (Hj & _)%list_find_Some & [= -> _])%fmap_Some. split; [done|].
  apply list_elem_of_fmap. exists r. by split; [|eapply list_elem_of_lookup_2].
Qed.
(** A middleware that answers the preflights of other origins. *)
Definition preflights (cfg : CorsConfig) (rq : Request) : option Z :=
  if decide (rqOrigin rq ≠ "" ∧ rqMethod rq = "OPTIONS") then Some 204%Z else None.
Lemma preflights_origin cfg rq code : preflights cfg rq = Some code → rqOrigin rq ≠ "".
Proof. unfold preflights. case_decide; naive_solver. Qed.
Lemma preflights_all cfg rq code : AllowOrigins cfg = ["*"] → preflights cfg rq = Some code → rqMethod rq = "OPTIONS" ∧ code = 204%Z.
Proof. unfold preflights. case_decide; naive_solver. Qed.
Definition cors_lib : Cors := {| cors_reply := preflights; cors_origin := preflights_origin; cors_all := preflights_all |}.
Definition router : Router := {| find_route := exact; find_route_registered := exact_registered |}.
#[local] Existing Instances Rest.Examples.lib Rest.Examples.certs Overview.Examples.olib MapCache.api MapCache.cache router cors_lib.
Definition oracle : Oracle := mkOracle 0 0 0 (λ _, 0%Z) (λ m, (map_to_list m).*2) (λ _, Ok "m") (λ s, s) defaultInfo.
Definition auth : AuthConfig := mkAuthConfig true "https://issuer" "exc" Rest.Examples.acl "model" "policy".
Definition nocors : CorsConfig := mkCors [] [] [] false 0.
Definition engine : Engine := match Run (λ _, None) false auth with Ok e => e | Err _ => mkEngine nocors None [] (NewOverviewCache 0) end.
(** The same node for the team, another one for the administrators. *)
Definition other : SnapshotCache.t :=
  SnapshotCache.mkSC (cache_set (cache_set NewCache "n1" Rest.Examples.snapshot).1 "n2" EmptySnapshot).1 {["n1"; "n2"]}.
Definition team : string → result (list string) := λ t, if decide (t = "t") then Ok ["team"] else Err (ErrNew "bad token").
Definition admin : string → result (list string) := λ t, if decide (t = "a") then Ok ["admins"] else team t.
Definition request (path node token : string) : Request := mkRequest "GET" ("/api/v1/" +:+ path) (Rest.Examples.query node ∅) (Ok token) "".
Definition history (c : SnapshotCache.t) : list hevent :=
  [HRequest oracle c (request "overview" "n2" "a"); HRequest oracle c (request "nodeIDs/versions" "n1" "t"); HCleanup 5;
   HRequest oracle c (request "overview" "n1" "t")].
Lemma same_for_team : same_view (acl_allows Rest.Examples.acl ["team"]) Rest.Examples.c other.
Proof.
  split; [vm_compute; reflexivity|]. intros n (g & ns & Hg & Ha & Hn). apply list_elem_of_singleton in Hg as ->.
  vm_compute in Ha. injection Ha as <-. assert (n = "n1") as -> by set_solver. vm_compute. reflexivity.
Qed.
End Examples.
#[local] Existing Instances Rest.Examples.lib Rest.Examples.certs Overview.Examples.olib MapCache.api MapCache.cache Examples.router Examples.cors_lib.
Lemma rest_noninterference_witness :
  replies Examples.admin Ok Examples.engine (Examples.history Rest.Examples.c) !! 3 =
  replies Examples.admin Ok Examples.engine (Examples.history Examples.other) !! 3 ∧
  replies Examples.admin Ok Examples.engine (Examples.history Rest.Examples.c) !! 0 ≠
  replies Examples.admin Ok Examples.engine (Examples.history Examples.other) !! 0.
Proof.
  split; [|vm_compute; discriminate].
  apply (rest_noninterference Examples.admin Ok (λ _, None) false Examples.auth Examples.engine (Ok "t") _ _ 3
    Examples.oracle Rest.Examples.c (Examples.request "overview" "n1" "t")).
  - reflexivity.
  - reflexivity.
  - vm_compute. discriminate.
  - reflexivity.
  - pose proof (λ o rq, conj eq_refl (conj eq_refl Examples.same_for_team) :
      same_event (acl_allows Rest.Examples.acl ["team"]) (HRequest o Rest.Examples.c rq) (HRequest o Examples.other rq)) as Hrq.
    do 4 (apply Forall2_cons; split; [first [apply Hrq | exact eq_refl]|]). apply Forall2_nil.
    exact I.
  - reflexivity.
  - intros ps. vm_compute. discriminate.
Defined.
(** Without authentication, or with an empty list, every node is shown to everyone. *)
Example no_auth_shows_all :
  (serve Examples.admin Ok Examples.oracle (mkEngine Examples.nocors None (routes Examples.engine) (overviewCache Examples.engine)) Rest.Examples.c
     (mkRequest "GET" "/api/v1/nodeIDs" ∅ (Err (ErrNew "no token")) "")).1 = Json (BNodeIDs ["n1"; "n2"]) ∧
  (serve Examples.admin Ok Examples.oracle Examples.engine Rest.Examples.c
     (mkRequest "GET" "/api/v1/nodeIDs" ∅ (Ok "t") "")).1 = Json (BNodeIDs ["n1"]) ∧
  (serve Examples.admin Ok Examples.oracle Examples.engine Rest.Examples.c
     (mkRequest "GET" "/api/v1/nodeIDs" ∅ (Ok "forged") "")).1 = Refused 401 "Unauthorized" None None ∧
  (serve Examples.admin Ok Examples.oracle Examples.engine Rest.Examples.c
     (mkRequest "OPTIONS" "/api/v1/nodeIDs" ∅ (Err (ErrNew "no token")) "https://ui")).1 = NoBody 204.
Proof. vm_compute. by split_and!. Qed.
End RestServer.
