(* ===== verification/StaticConfig.v ===== *)
(** * [internal/xds/api/server.go]: the static resources of the API server

    The lists of node IDs and access groups that [New] keeps up to date with a file.
    [encoding/json] decodes into the slices the program already holds: the backing
    arrays are reused, so the memory they live in is part of the model.  The theorem
    of the file ties the watcher, the decoder and the getters together. *)

From Stdlib Require Import Ascii.
From S2P Require Import Prelude GoStrings FileWatcher.

(** ** [encoding/json] into a struct with two string slices *)
Module GoJson.
(** A parsed document; the members of an object in order, repeated keys included. *)
Inductive json :=
| JNull | JBool (b : bool) | JNumber (text : string) | JString (s : string) | JArray (l : list json)
| JObject (kvs : list (string * json)).

Definition upper (a : ascii) : ascii :=
  let n := nat_of_ascii a in if decide (97 ≤ n ∧ n ≤ 122) then ascii_of_nat (n - 32) else a.
(** [foldName], for comparison with names in ASCII: besides the letters, the long s
    and the Kelvin sign fold to ASCII letters; every other character stays outside. *)
Fixpoint foldName (s : string) : string :=
  match s with
  | "" => ""
  | String a r =>
      match r with
      | String b r' =>
          if decide (nat_of_ascii a = 197 ∧ nat_of_ascii b = 191) then String "S"%char (foldName r')
          else match r' with
               | String c r'' =>
                   if decide (nat_of_ascii a = 226 ∧ nat_of_ascii b = 132 ∧ nat_of_ascii c = 170)
                   then String "K"%char (foldName r'') else String (upper a) (foldName r)
               | "" => String (upper a) (foldName r)
               end
      | "" => String (upper a) (foldName r)
      end
  end.

(** Memory: the backing arrays of slices of strings, each of its capacity. *)
Abbreviation memory := (list (list string)).
(** A slice that starts at the beginning of its array; [None] is the nil slice. *)
Record slice := mkSlice { arr : option nat; len : nat }.
Definition nil_slice : slice := mkSlice None 0.
Definition array (h : memory) (s : slice) : list string := match arr s with Some p => default [] (h !! p) | None => [] end.
Definition read (h : memory) (s : slice) : list string := take (len s) (array h s).
(** [cannot unmarshal ... into Go value]: the decoder goes on and reports the first. *)
Definition type_error : error := ErrNew "json: cannot unmarshal".

Section decode.
(** The capacity after [Grow(1)] of a full slice. *)
Context (grow : nat → nat).
Definition Grow (h : memory) (s : slice) : memory * slice :=
  let cap := length (array h s) in
  (h ++ [read h s ++ replicate (grow cap - len s) ""], mkSlice (Some (length h)) (len s)).
Definition write (h : memory) (s : slice) (i : nat) (x : string) : memory :=
  match arr s with Some p => alter (<[i := x]>) p h | None => h end.
(** The [i]-th element of the document's array. *)
Definition decode_elem (h : memory) (s : slice) (i : nat) (v : json) : memory * slice * option error :=
  let '(h, s) := if decide (length (array h s) ≤ i) then Grow h s else (h, s) in
  let s := if decide (len s ≤ i) then mkSlice (arr s) (S i) else s in
  match v with
  | JString x => (write h s i x, s, None)
  | JNull => (h, s, None)
  | _ => (h, s, Some type_error)
  end.
Definition saveError (saved e : option error) : option error := match saved with Some _ => saved | None => e end.
Fixpoint decode_elems (h : memory) (s : slice) (i : nat) (saved : option error) (l : list json)
  : memory * slice * option error :=
  match l with
  | [] => (h, s, saved)
  | v :: l => let '(h, s, e) := decode_elem h s i v in decode_elems h s (S i) (saveError saved e) l
  end.
Definition decode_strings (h : memory) (s : slice) (v : json) : memory * slice * option error :=
  match v with
  | JNull => (h, nil_slice, None)
  | JArray l =>
      let '(h, s, e) := decode_elems h s 0 None l in
      if decide (length l = 0) then (h ++ [[]], mkSlice (Some (length h)) 0, e)
      else (h, mkSlice (arr s) (length l), e)
  | _ => (h, s, Some type_error)
  end.

(** ** What decoding an array of strings leaves *)
Hypothesis Hgrow : ∀ n, n < grow n.
Definition slice_ok (h : memory) (s : slice) : Prop :=
  match arr s with Some p => ∃ a, h !! p = Some a ∧ len s ≤ length a | None => len s = 0 end.
(** The memory changes at most in the array of the slice, or in new ones. *)
Definition framed (h : memory) (s : slice) (h' : memory) (s' : slice) : Prop :=
  length h ≤ length h' ∧ (∀ p, p < length h → arr s ≠ Some p → h' !! p = h !! p) ∧
  (arr s' = arr s ∨ ∀ p, arr s' = Some p → length h ≤ p).
Lemma framed_refl h s s' : arr s' = arr s → framed h s h s'.
Proof. intros Ha. unfold framed. split_and!; auto. Qed.
Lemma framed_trans h1 s1 h2 s2 h3 s3 : framed h1 s1 h2 s2 → framed h2 s2 h3 s3 → framed h1 s1 h3 s3.
Proof.
  intros (L1 & F1 & A1) (L2 & F2 & A2). unfold framed. split_and!; [lia| |].
  - intros p Hp Hne. rewrite F2; [by apply F1|lia|]. destruct A1 as [->|Hq]; [done|]. intros Hp2. apply Hq in Hp2. lia.
  - destruct A2 as [->|Hq]; [done|]. right. intros p Hp. apply Hq in Hp. lia.
Qed.

Lemma slice_ok_len h s : slice_ok h s → len s ≤ length (array h s).
Proof. unfold slice_ok, array. destruct (arr s); [intros (a & -> & ?); done|]. lia. Qed.
Lemma decode_elem_string h s i x : slice_ok h s → i ≤ len s →
  let '(h', s', e) := decode_elem h s i (JString x) in
  slice_ok h' s' ∧ framed h s h' s' ∧ e = None ∧ S i ≤ len s' ∧ take (S i) (array h' s') = take i (array h s) ++ [x].
Proof using Hgrow.
  intros Hok Hi. pose proof (slice_ok_len h s Hok) as Hlen. unfold decode_elem.
  assert (∃ h1 s1 p a, (if decide (length (array h s) ≤ i) then Grow h s else (h, s)) = (h1, s1) ∧ arr s1 = Some p ∧ h1 !! p = Some a ∧
    len s1 ≤ length a ∧ i < length a ∧ len s1 = len s ∧ take i a = take i (array h s) ∧ framed h s h1 s1)
    as (h1 & s1 & p & a & -> & Hp & Ha & Hl1 & Hia & Hls & Ht & Hf).
  { case_decide as Hc.
    - eexists _, _, (length h), _. split; [reflexivity|]. split; [done|]. pose proof (Hgrow i).
      assert (len s = i ∧ length (array h s) = i) as [Hs Hal] by lia. unfold read. rewrite Hs, Hal.
      rewrite (firstn_all2 (array h s)) by lia. split_and!.
      + rewrite lookup_app_r, Nat.sub_diag by lia. reflexivity.
      + cbn. rewrite length_app, length_replicate. lia.
      + rewrite length_app, length_replicate. lia.
      + cbn. lia.
      + rewrite take_app_le by lia. by rewrite firstn_all2 by lia.
      + unfold framed. rewrite length_app. split_and!; [cbn; lia|intros q Hq _; by rewrite lookup_app_l|].
        right. by intros q [= <-].
    - unfold slice_ok in Hok. unfold array in *. destruct (arr s) as [p|] eqn:Hp; [|cbn in *; lia]. destruct Hok as (a & Ha & Hla).
      rewrite Ha in *. cbn in *. exists h, s, p, a. split_and!; try done; [lia|]. by apply framed_refl. }
  assert (∃ s2, (if decide (len s1 ≤ i) then mkSlice (arr s1) (S i) else s1) = s2 ∧ arr s2 = Some p ∧ S i ≤ len s2 ∧ len s2 ≤ length a)
    as (s2 & -> & Hp2 & Hi2 & Hl2).
  { case_decide; eexists; (split; [reflexivity|]); cbn; split_and!; try done; lia. }
  unfold write. rewrite Hp2. assert (p < length h1) as Hpl by (by eapply lookup_lt_Some).
  split_and!; [| |done|done|].
  - unfold slice_ok. rewrite Hp2. eexists. rewrite list_lookup_alter_eq, Ha. cbn. split; [done|]. by rewrite length_insert.
  - eapply framed_trans; [exact Hf|]. unfold framed. split_and!; [by rewrite length_alter| |left; congruence].
    intros q Hq Hne. apply list_lookup_alter_ne. congruence.
  - unfold array at 1. rewrite Hp2, list_lookup_alter_eq, Ha. change (take (S i) (<[i:=x]> a) = take i (array h s) ++ [x]).
    rewrite <-Ht, (take_S_r _ i x) by (by apply list_lookup_insert_eq). by rewrite take_insert_ge.
Qed.
Lemma decode_elems_strings vs h s i : slice_ok h s → i ≤ len s →
  let '(h', s', e) := decode_elems h s i None (JString <$> vs) in
  slice_ok h' s' ∧ framed h s h' s' ∧ e = None ∧ i + length vs ≤ len s' ∧
  take (i + length vs) (array h' s') = take i (array h s) ++ vs.
Proof using Hgrow.
  revert h s i. induction vs as [|x vs IH]; intros h s i Hok Hi; cbn [fmap list_fmap decode_elems].
  { rewrite Nat.add_0_r, app_nil_r. split_and!; try done. by apply framed_refl. }
  pose proof (decode_elem_string h s i x Hok Hi) as H1. destruct (decode_elem h s i (JString x)) as [[h1 s1] e1].
  destruct H1 as (Hok1 & Hf1 & -> & Hi1 & Ht1). cbn [saveError].
  specialize (IH h1 s1 (S i) Hok1 Hi1). destruct (decode_elems h1 s1 (S i) None (JString <$> vs)) as [[h2 s2] e2].
  destruct IH as (Hok2 & Hf2 & -> & Hi2 & Ht2). cbn [length]. rewrite <-Nat.add_succ_comm. split_and!; try done.
  - by eapply framed_trans.
  - rewrite Ht2, Ht1, <-app_assoc. done.
Qed.
(** The list a value stands for. *)
Definition string_of (v : json) : option string := match v with JString x => Some x | _ => None end.
Definition strings_of (v : json) : option (list string) :=
  match v with JNull => Some [] | JArray l => mapM string_of l | _ => None end.
Lemma decode_strings_spec h s v xs : slice_ok h s → strings_of v = Some xs →
  let '(h', s', e) := decode_strings h s v in slice_ok h' s' ∧ framed h s h' s' ∧ e = None ∧ read h' s' = xs.
Proof using Hgrow.
  intros Hok Hv. destruct v as [| | | |l|]; try done; cbn in Hv.
  { injection Hv as <-. cbn. split_and!; try done. unfold framed. split_and!; try done. by right. }
  assert (l = JString <$> xs) as ->.
  { apply mapM_Some in Hv. induction Hv as [|v x l xs Hv _ IH]; [done|]. rewrite IH. by destruct v; simplify_eq/=. }
  unfold decode_strings. pose proof (decode_elems_strings xs h s 0 Hok (Nat.le_0_l _)) as H1.
  destruct (decode_elems h s 0 None (JString <$> xs)) as [[h1 s1] e1]. destruct H1 as (Hok1 & Hf1 & -> & Hl & Ht). cbn in Hl, Ht.
  rewrite length_fmap. case_decide as Hx.
  - apply nil_length_inv in Hx as ->. split_and!; try done.
    + unfold slice_ok. cbn. exists []. rewrite lookup_app_r, Nat.sub_diag by lia. by split; [|cbn; lia].
    + destruct Hf1 as (L & F & _). unfold framed. rewrite length_app. cbn. split_and!; [lia| |].
      * intros p Hp Hne. rewrite lookup_app_l by lia. by apply F.
      * right. intros p [= <-]. lia.
  - split_and!; try done.
    unfold slice_ok in *. cbn. destruct (arr s1); [|lia]. destruct Hok1 as (a & ? & ?). exists a. split; [done|lia].
Qed.
End decode.
End GoJson.

(** ** The static resources *)
Module StaticConfig.
Import GoJson.

Record StaticResources := mkStatic { AccessGroups : slice; NodeIDs : slice }.
Definition noResources : StaticResources := mkStatic nil_slice nil_slice.
Inductive field := FAccessGroups | FNodeIDs.
Global Instance field_eq_dec : EqDecision field.
Proof. solve_decision. Defined.
(** The field of a member: the name of the tag, or one that differs in case. *)
Definition field_of (key : string) : option field :=
  if decide (key = "accessGroups") then Some FAccessGroups
  else if decide (key = "nodeIds") then Some FNodeIDs
  else if decide (foldName key = foldName "accessGroups") then Some FAccessGroups
  else if decide (foldName key = foldName "nodeIds") then Some FNodeIDs
  else None.
Definition get_field (f : field) (r : StaticResources) : slice := match f with FAccessGroups => AccessGroups r | FNodeIDs => NodeIDs r end.
Definition set_field (f : field) (s : slice) (r : StaticResources) : StaticResources :=
  match f with FAccessGroups => mkStatic s (NodeIDs r) | FNodeIDs => mkStatic (AccessGroups r) s end.

Section unmarshal.
Context (grow : nat → nat).
(** [parse]: the syntax check and the tree of a document. *)
Context (parse : string → result json).
Definition decode_member (st : memory * StaticResources * option error) (kv : string * json)
  : memory * StaticResources * option error :=
  let '(h, r, saved) := st in
  match field_of kv.1 with
  | None => st
  | Some f => let '(h, s, e) := decode_strings grow h (get_field f r) kv.2 in (h, set_field f s r, saveError saved e)
  end.
(** [json.Unmarshal(data, &cfg.StaticResources)] *)
Definition Unmarshal (data : string) (h : memory) (r : StaticResources) : memory * StaticResources * option error :=
  match parse data with
  | Err e => (h, r, Some e)
  | Ok (JObject kvs) => foldl decode_member (h, r, None) kvs
  | Ok JNull => (h, r, None)
  | Ok _ => (h, r, Some type_error)
  end.

Hypothesis Hgrow : ∀ n, n < grow n.
(** The two slices are good and share no array. *)
Definition resources_ok (h : memory) (r : StaticResources) : Prop :=
  slice_ok h (AccessGroups r) ∧ slice_ok h (NodeIDs r) ∧
  ∀ p, arr (AccessGroups r) = Some p → arr (NodeIDs r) ≠ Some p.
(** A member names the field whose name it is, up to case. *)
Definition names (key : string) (f : field) : Prop :=
  foldName key = foldName (match f with FAccessGroups => "accessGroups" | FNodeIDs => "nodeIds" end).
Global Instance names_dec key f : Decision (names key f).
Proof. unfold names. apply _. Defined.
Lemma field_of_names key f : field_of key = Some f ↔ names key f.
Proof using Type.
  clear grow parse Hgrow.
  unfold field_of, names. case_decide as H1; [subst; destruct f; vm_compute; naive_solver|].
  case_decide as H2; [subst; destruct f; vm_compute; naive_solver|].
  case_decide as H3; [rewrite H3; destruct f; vm_compute; naive_solver|].
  case_decide as H4; [rewrite H4; destruct f; vm_compute; naive_solver|]. destruct f; naive_solver.
Qed.
(** The value of a field after the members of an object: the last one that names it,
    or the old. *)
Definition assigned (f : field) (kvs : list (string * json)) (old : list string) : list string :=
  foldl (λ acc kv, if decide (names kv.1 f) then default acc (strings_of kv.2) else acc) old kvs.
(** Every member that names a field is null or an array of strings. *)
Definition string_lists (kvs : list (string * json)) : Prop :=
  Forall (λ kv, ∀ f, names kv.1 f → is_Some (strings_of kv.2)) kvs.

Lemma framed_other h s h' s' t : slice_ok h s → slice_ok h t → (∀ p, arr s = Some p → arr t ≠ Some p) → framed h s h' s' →
  slice_ok h' t ∧ read h' t = read h t ∧ ∀ p, arr s' = Some p → arr t ≠ Some p.
Proof.
  intros Hs Ht Hd (L & F & A). unfold slice_ok, read, array in *. destruct (arr t) as [q|] eqn:Hq; [|done].
  destruct Ht as (a & Ha & Hl). assert (q < length h) as Hlt by (by eapply lookup_lt_Some).
  assert (arr s ≠ Some q) as Hne by (intros E; by apply (Hd q)). rewrite (F q Hlt Hne). split; [by exists a|]. split; [done|].
  intros p Hp [= ->]. destruct A as [E|A]; [congruence|]. apply A in Hp. lia.
Qed.
Lemma decode_member_spec h r kv : resources_ok h r → (∀ f, names kv.1 f → is_Some (strings_of kv.2)) →
  let '(h', r', e) := decode_member (h, r, None) kv in
  resources_ok h' r' ∧ e = None ∧ ∀ f, read h' (get_field f r') = assigned f [kv] (read h (get_field f r)).
Proof using Hgrow.
  intros (Ha & Hn & Hd) Hkv. unfold decode_member, assigned. cbn [foldl].
  destruct (field_of kv.1) as [f|] eqn:Hf.
  2:{ split_and!; try done. intros f. rewrite decide_False; [done|]. rewrite <-field_of_names. congruence. }
  assert (∀ g, names kv.1 g ↔ g = f) as Hnames by (intros g; rewrite <-field_of_names; naive_solver).
  destruct (Hkv f) as [xs Hxs]; [by apply Hnames|]. rewrite Hxs. cbn [default].
  assert (slice_ok h (get_field f r)) as Hok by (by destruct f).
  pose proof (decode_strings_spec grow Hgrow h (get_field f r) kv.2 xs Hok Hxs) as Hdec.
  destruct (decode_strings grow h (get_field f r) kv.2) as [[h' s'] e]. destruct Hdec as (Hok' & Hfr & -> & Hread).
  destruct f; cbn in Hok, Hfr |- *.
  - destruct (framed_other h _ h' s' (NodeIDs r) Ha Hn Hd Hfr) as (Ho & Hr & Hd').
    split_and!; try done. intros []; cbn; [by rewrite decide_True by (by apply Hnames)|by rewrite decide_False by (by rewrite Hnames)].
  - destruct (framed_other h _ h' s' (AccessGroups r) Hn Ha (λ p Hp Hq, Hd p Hq Hp) Hfr) as (Ho & Hr & Hd').
    unfold resources_ok. split_and!; [done|done|intros p Hp Hq; by apply (Hd' p)|done|]. intros []; cbn; [by rewrite decide_False by (by rewrite Hnames)|by rewrite decide_True by (by apply Hnames)].
Qed.
Lemma Unmarshal_spec data h r kvs : resources_ok h r → parse data = Ok (JObject kvs) → string_lists kvs →
  let '(h', r', e) := Unmarshal data h r in
  resources_ok h' r' ∧ e = None ∧ ∀ f, read h' (get_field f r') = assigned f kvs (read h (get_field f r)).
Proof using Hgrow.
  intros Hok Hp Hkvs. unfold Unmarshal. rewrite Hp. clear Hp. revert h r Hok.
  induction Hkvs as [|kv kvs Hkv _ IH]; intros h r Hok; [by split_and!|]. cbn [foldl].
  pose proof (decode_member_spec h r kv Hok Hkv) as H1. destruct (decode_member (h, r, None) kv) as [[h1 r1] e1].
  destruct H1 as (Hok1 & -> & Hr1). specialize (IH h1 r1 Hok1).
  destruct (foldl decode_member (h1, r1, None) kvs) as [[h2 r2] e2]. destruct IH as (? & ? & Hr2). split_and!; try done.
  intros f. rewrite Hr2, Hr1. done.
Qed.
End unmarshal.

(** ** The client and its watcher *)
(** The callbacks the API server registers. *)
Inductive apiCallback := ReloadStatic (path : string) | ReloadRBAC.
Record Client := mkClient { cMem : memory; cfg : StaticResources }.
Definition GetNodeIDs (c : Client) : slice := NodeIDs (cfg c).
Definition GetAccessGroups (c : Client) : slice := AccessGroups (cfg c).
(** What a caller that keeps the slice reads from it. *)
Definition contents (c : Client) (s : slice) : list string := read (cMem c) s.

Section client.
Context (grow : nat → nat) (parse : string → result json).
(** The callback: both errors are logged, the data are decoded in any case. *)
Definition reload (ReadFile : string → string * option error) (path : string) (c : Client) : Client :=
  let '(data, _) := ReadFile path in
  let '(h, r, _) := Unmarshal grow parse data (cMem c) (cfg c) in mkClient h r.
Definition New (EvalSymlinks : string → result string) (watch : string → option error)
    (watcher : FileWatcher.FileWatcher apiCallback) (staticResourcesPath : string) (c : Client)
  : FileWatcher.FileWatcher apiCallback * result Client :=
  match FileWatcher.Add EvalSymlinks watch watcher staticResourcesPath (ReloadStatic staticResourcesPath) with
  | (watcher, Some e) => (watcher, Err e)
  | (watcher, None) => (watcher, Ok c)
  end.
Definition run_callback (ReadFile : string → string * option error) (c : Client) (call : apiCallback * string) : Client :=
  match call.1 with ReloadStatic path => reload ReadFile path c | ReloadRBAC => c end.
(** An event of the file system, with the callbacks it makes. *)
Definition on_event (EvalSymlinks : string → result string) (ReadFile : string → string * option error) (ev : FileWatcher.Event)
    (order : list (string * FileWatcher.fileEntry apiCallback)) (watcher : FileWatcher.FileWatcher apiCallback) (c : Client)
  : FileWatcher.FileWatcher apiCallback * Client :=
  let '(watcher, calls) := FileWatcher.run_event EvalSymlinks ev order watcher in
  (watcher, foldl (run_callback ReadFile) c calls).

Hypothesis Hgrow : ∀ n, n < grow n.
Implicit Types order : list (string * FileWatcher.fileEntry apiCallback).
(** The entry of the static resources is the only one that changes the client. *)
Lemma calls_once ReadFile path (called : string * FileWatcher.fileEntry apiCallback → Prop) `{!∀ p, Decision (called p)} order entry c :
  NoDup order.*1 → (GoPath.Clean path, entry) ∈ order → FileWatcher.callback entry = ReloadStatic path →
  (∀ p, p ∈ order → p.1 ≠ GoPath.Clean path → FileWatcher.callback p.2 = ReloadRBAC) →
  foldl (run_callback ReadFile) c ((λ p, (FileWatcher.callback p.2, p.1)) <$> filter called order) =
  if decide (called (GoPath.Clean path, entry)) then reload ReadFile path c else c.
Proof using Type.
  clear Hgrow.
  intros Hnd (l1 & l2 & ->)%list_elem_of_split He Hother.
  assert (∀ l c, (∀ p, p ∈ l → FileWatcher.callback p.2 = ReloadRBAC) →
    foldl (run_callback ReadFile) c ((λ p, (FileWatcher.callback p.2, p.1)) <$> filter called l) = c) as Hskip.
  { clear. intros l. induction l as [|p l IH]; intros c Hl; [done|]. rewrite filter_cons. case_decide; [|apply IH; set_solver].
    cbn. unfold run_callback at 2. cbn. rewrite (Hl p) by left. apply IH. set_solver. }
  rewrite fmap_app, fmap_cons in Hnd. apply NoDup_app in Hnd as (_ & Hd1 & [Hd2 _]%NoDup_cons). cbn in Hd1, Hd2.
  assert (∀ p, p ∈ l1 ∨ p ∈ l2 → FileWatcher.callback p.2 = ReloadRBAC) as Hrbac.
  { intros p Hp. apply Hother; [set_solver|]. intros E. destruct Hp as [Hp|Hp].
    - apply (Hd1 p.1); [by apply list_elem_of_fmap_2|]. rewrite E. left.
    - apply Hd2. rewrite <-E. by apply list_elem_of_fmap_2. }
  rewrite filter_app, fmap_app, foldl_app, (Hskip l1) by (intros; apply Hrbac; by left). rewrite filter_cons.
  case_decide; [|apply Hskip; intros; apply Hrbac; by right].
  cbn. unfold run_callback at 2. cbn. rewrite He. apply Hskip. intros; apply Hrbac; by right.
Qed.

(** The watcher looks after the file: its directory is watched, it is registered with
    the reload, [real] is where its path led last, and every other registered file is
    one of the access policy. *)
Record watching (fw : FileWatcher.FileWatcher apiCallback) (path real : string) : Prop := {
  w_dir : GoPath.Dir (GoPath.Clean path) ∈ FileWatcher.wDirs fw;
  w_entry : FileWatcher.files fw !! GoPath.Clean path = Some (FileWatcher.mkEntry real (ReloadStatic path));
  w_other : ∀ k e, FileWatcher.files fw !! k = Some e → k ≠ GoPath.Clean path → FileWatcher.callback e = ReloadRBAC
}.
Lemma New_watching EvalSymlinks watch fw0 path c fw :
  FileWatcher.dirs fw0 ⊆ FileWatcher.wDirs fw0 →
  (∀ k e, FileWatcher.files fw0 !! k = Some e → FileWatcher.callback e = ReloadRBAC) →
  New EvalSymlinks watch fw0 path c = (fw, Ok c) →
  watching fw path (match EvalSymlinks (GoPath.Clean path) with Ok p => p | Err _ => GoPath.Clean path end).
Proof using Type.
  intros Hdirs Hfw Hnew. unfold New in Hnew.
  pose proof (FileWatcher.Add_watches EvalSymlinks watch fw0 path (ReloadStatic path) Hdirs) as Hadd.
  destruct (FileWatcher.Add EvalSymlinks watch fw0 path (ReloadStatic path)) as [fw1 [e|]] eqn:E; [done|]. injection Hnew as ->.
  destruct Hadd as (_ & _ & Hother & Hdir & _).
  split; [by apply Hdir| |intros k e He Hne; rewrite Hother in He by done; by eapply Hfw].
  unfold FileWatcher.Add in E. cbn [FileWatcher.files] in E. repeat case_match; simplify_eq/=; apply lookup_insert_eq.
Qed.

(** The event is the creation, a write, the removal or the renaming of the file: one of
    the first four bits of the operation. *)
Definition touches (ev : FileWatcher.Event) (path : string) : Prop :=
  GoPath.Clean (FileWatcher.evName ev) = GoPath.Clean path ∧
  (Z.testbit (FileWatcher.evOp ev) 0 || Z.testbit (FileWatcher.evOp ev) 1 ||
   Z.testbit (FileWatcher.evOp ev) 2 || Z.testbit (FileWatcher.evOp ev) 3) = true.
(** The path leads elsewhere now. *)
Definition moved (EvalSymlinks : string → result string) (path real : string) : Prop :=
  ∃ p, EvalSymlinks (GoPath.Clean path) = Ok p ∧ p ≠ real.
Lemma low_bits_zero op : Z.land op 15 = 0%Z ↔
  Z.testbit op 0 || Z.testbit op 1 || Z.testbit op 2 || Z.testbit op 3 = false.
Proof using Type.
  rewrite !orb_false_iff. split.
  - intros H. assert (∀ i, Z.testbit op i && Z.testbit 15 i = false) as Hi by (intros i; by rewrite <-Z.land_spec, H, Z.bits_0).
    pose proof (Hi 0%Z) as H0. pose proof (Hi 1%Z) as H1. pose proof (Hi 2%Z) as H2. pose proof (Hi 3%Z) as H3.
    rewrite andb_true_r in H0, H1, H2, H3. done.
  - intros [[[H0 H1] H2] H3]. apply Z.bits_inj_0. intros i. rewrite Z.land_spec.
    destruct (decide (i < 0)%Z); [by rewrite Z.testbit_neg_r by done|].
    destruct (decide (i < 4)%Z) as [Hi|Hi].
    + assert (i = 0 ∨ i = 1 ∨ i = 2 ∨ i = 3)%Z as [->|[->|[->| ->]]] by lia; by rewrite ?H0, ?H1, ?H2, ?H3.
    + rewrite (Z.bits_above_log2 15 i), andb_false_r; [done|lia|vm_compute Z.log2; lia].
Qed.
Lemma direct_touches ev path : FileWatcher.direct ev (GoPath.Clean path) = true ↔ touches ev path.
Proof using Type.
  unfold FileWatcher.direct, touches. rewrite andb_true_iff, bool_decide_eq_true, negb_true_iff, bool_decide_eq_false.
  change (Z.lor _ _) with 15%Z. rewrite low_bits_zero, not_false_iff_true. done.
Qed.
Lemma called_iff EvalSymlinks ev path real :
  FileWatcher.called EvalSymlinks ev (GoPath.Clean path, FileWatcher.mkEntry real (ReloadStatic path)) ↔
  touches ev path ∨ moved EvalSymlinks path real.
Proof using Type. unfold FileWatcher.called. cbn. by rewrite direct_touches. Qed.

(** What one event makes of the watcher and the client. *)
Lemma on_event_spec fw path real EvalSymlinks ReadFile ev order c :
  watching fw path real → order ≡ₚ map_to_list (FileWatcher.files fw) →
  let '(fw', c') := on_event EvalSymlinks ReadFile ev order fw c in
  (∃ real', watching fw' path real' ∧ (touches ev path → real' = real) ∧
     (¬ touches ev path → ∀ p, EvalSymlinks (GoPath.Clean path) = Ok p → real' = p)) ∧
  (touches ev path ∨ moved EvalSymlinks path real → c' = reload ReadFile path c) ∧
  (¬ (touches ev path ∨ moved EvalSymlinks path real) → c' = c).
Proof using Type.
  intros [Hdir Hentry Hother] Hord. unfold on_event.
  pose proof (FileWatcher.run_event_spec EvalSymlinks ev order fw Hord) as Hrun.
  destruct (FileWatcher.run_event EvalSymlinks ev order fw) as [fw' calls]. destruct Hrun as (-> & Hfiles & _ & Hw & _).
  set (entry := FileWatcher.mkEntry real (ReloadStatic path)) in *.
  assert (foldl (run_callback ReadFile) c ((λ p, (FileWatcher.callback p.2, p.1)) <$> filter (FileWatcher.called EvalSymlinks ev) order) =
    if decide (FileWatcher.called EvalSymlinks ev (GoPath.Clean path, entry)) then reload ReadFile path c else c) as ->.
  { apply calls_once; [rewrite Hord; apply NoDup_fst_map_to_list| |done|].
    - rewrite Hord. by apply elem_of_map_to_list.
    - intros [k e] Hp Hne. rewrite Hord in Hp. apply elem_of_map_to_list in Hp. by apply (Hother k). }
  rewrite <-(called_iff EvalSymlinks ev path real). fold entry. split; [|split; intros; by case_decide].
  exists (FileWatcher.realPath (FileWatcher.entry_after EvalSymlinks ev (GoPath.Clean path) entry)).
  rewrite <-direct_touches. unfold FileWatcher.entry_after. split.
  - split; [by rewrite Hw| |].
    + rewrite Hfiles, map_lookup_imap, Hentry. cbn. unfold FileWatcher.entry_after. by repeat case_match.
    + intros k e He Hne. rewrite Hfiles, map_lookup_imap in He. destruct (FileWatcher.files fw !! k) as [e0|] eqn:Hk; [|done].
      cbn in He. injection He as <-. specialize (Hother k e0 Hk Hne). unfold FileWatcher.entry_after. by repeat case_match.
  - destruct (FileWatcher.direct ev (GoPath.Clean path)); (split; [done|]); [done|]. intros _ p ->. done.
Qed.

(** C39. The API server follows its file. [New] leaves it with a watcher that looks after
    the file, and every event keeps it so. An event that creates, writes, removes or
    renames the file, or finds its path leading elsewhere than when that was last
    recorded, makes the getters return the lists of the file when it parses as an
    object whose fields are null or arrays of strings, a list that the file does not
    mention being kept; a file that does not parse (or cannot be read, which reads as
    the empty text, when that does not parse) changes nothing, and neither does any
    other event. A file that parses with fields of other types is decoded in part.
    The conditions: the only other files the watcher has are those of the access
    policy, the watcher's directories are watched when [New] is called, a full slice
    grows, and the two lists share no memory. *)
Theorem static_resources_follow_file path :
  (∀ EvalSymlinks watch fw0 c fw, FileWatcher.dirs fw0 ⊆ FileWatcher.wDirs fw0 →
     (∀ k e, FileWatcher.files fw0 !! k = Some e → FileWatcher.callback e = ReloadRBAC) →
     New EvalSymlinks watch fw0 path c = (fw, Ok c) →
     watching fw path (match EvalSymlinks (GoPath.Clean path) with Ok p => p | Err _ => GoPath.Clean path end)) ∧
  ∀ fw c real EvalSymlinks ReadFile ev order fw' c', watching fw path real → resources_ok (cMem c) (cfg c) →
    order ≡ₚ map_to_list (FileWatcher.files fw) → on_event EvalSymlinks ReadFile ev order fw c = (fw', c') →
    (∃ real', watching fw' path real' ∧ (touches ev path → real' = real) ∧
       (¬ touches ev path → ∀ p, EvalSymlinks (GoPath.Clean path) = Ok p → real' = p)) ∧
    (¬ touches ev path → ¬ moved EvalSymlinks path real → c' = c) ∧
    (is_ok (parse (ReadFile path).1) = false → c' = c) ∧
    ∀ kvs, touches ev path ∨ moved EvalSymlinks path real → parse (ReadFile path).1 = Ok (JObject kvs) → string_lists kvs →
      resources_ok (cMem c') (cfg c') ∧
      contents c' (GetNodeIDs c') = assigned FNodeIDs kvs (contents c (GetNodeIDs c)) ∧
      contents c' (GetAccessGroups c') = assigned FAccessGroups kvs (contents c (GetAccessGroups c)).
Proof using Hgrow.
  split; [intros; by eapply New_watching|]. intros fw c real EvalSymlinks ReadFile ev order fw' c' Hw Hok Hord Hev.
  pose proof (on_event_spec fw path real EvalSymlinks ReadFile ev order c Hw Hord) as Hspec. rewrite Hev in Hspec.
  destruct Hspec as (Hw' & Hcalled & Hnot).
  assert (is_ok (parse (ReadFile path).1) = false → reload ReadFile path c = c) as Hbad.
  { unfold reload, Unmarshal. destruct (ReadFile path) as [data err]. cbn. destruct (parse data); [done|]. by destruct c. }
  split; [done|]. split; [intros ? ?; apply Hnot; tauto|]. split.
  - intros Hp. destruct (decide (FileWatcher.called EvalSymlinks ev (GoPath.Clean path, FileWatcher.mkEntry real (ReloadStatic path))))
      as [H|H]; rewrite called_iff in H; [rewrite Hcalled by done; by apply Hbad|by apply Hnot].
  - intros kvs Hc Hp Hkvs. rewrite (Hcalled Hc). unfold reload. destruct (ReadFile path) as [data err]. cbn in Hp.
    pose proof (Unmarshal_spec grow parse Hgrow data (cMem c) (cfg c) kvs Hok Hp Hkvs) as Hun.
    destruct (Unmarshal grow parse data (cMem c) (cfg c)) as [[h r] e]. destruct Hun as (? & _ & Hr). split; [done|].
    split; [apply (Hr FNodeIDs)|apply (Hr FAccessGroups)].
Qed.
End client.

(** ** Examples *)
Module Examples.
Definition strings (l : list string) : json := JArray (JString <$> l).
Definition docs : list (string * json) :=
  [("v1", JObject [("accessGroups", strings ["dev"]); ("nodeIds", strings ["n1"; "n2"])]);
   ("v2", JObject [("NodeIDs", strings ["n3"])]); ("empty", JObject [])].
Definition parse (data : string) : result json :=
  match list_find (λ p : string * json, p.1 = data) docs with
  | Some (_, (_, j)) => Ok j | None => Err (ErrNew "unexpected end of JSON input") end.
Definition grow (n : nat) : nat := S (n + n).
Definition load (data : string) (c : Client) : Client := reload grow parse (λ _, (data, None)) "" c.
(** The client after [main] has read the first version. *)
Definition c1 : Client := load "v1" (mkClient [] noResources).
Definition path : string := FileWatcher.Examples.path.
Definition links : string → string → result string := FileWatcher.Examples.links.
Definition fw : FileWatcher.FileWatcher apiCallback := (New (links "..1") (λ _, None) (FileWatcher.mkFW ∅ ∅ ∅ false) path c1).1.
Definition swap : FileWatcher.Event := FileWatcher.Examples.swap.
Definition after (data : string) : Client :=
  (on_event grow parse (links "..2") (λ _, (data, None)) swap (map_to_list (FileWatcher.files fw)) fw c1).2.
End Examples.
(** The config map is swapped, then the file is written in place. *)
Lemma static_resources_follow_file_witness :
  let '(fw', c') := on_event Examples.grow Examples.parse (Examples.links "..2") (λ _, ("v2", None)) Examples.swap
                      (map_to_list (FileWatcher.files Examples.fw)) Examples.fw Examples.c1 in
  contents c' (GetNodeIDs c') = ["n3"] ∧ contents c' (GetAccessGroups c') = ["dev"] ∧
  let c'' := (on_event Examples.grow Examples.parse (Examples.links "..2") (λ _, ("v1", None))
                (FileWatcher.mkEvent Examples.path FileWatcher.Write_) (map_to_list (FileWatcher.files fw')) fw' c').2 in
  contents c'' (GetNodeIDs c'') = ["n1"; "n2"].
Proof.
  destruct (static_resources_follow_file Examples.grow Examples.parse ltac:(intros n; unfold Examples.grow; lia) Examples.path)
    as [Hnew Hstep].
  destruct (on_event _ _ _ _ _ _ Examples.fw Examples.c1) as [fw' c'] eqn:Hev.
  assert (watching Examples.fw Examples.path "/etc/exc/..1/config.json") as Hw0.
  { apply (Hnew (Examples.links "..1") (λ _, None) (FileWatcher.mkFW ∅ ∅ ∅ false) Examples.c1); [done| |reflexivity].
    intros k e He. cbn in He. rewrite lookup_empty in He. discriminate He. }
  assert (resources_ok (cMem Examples.c1) (cfg Examples.c1)) as Hok0.
  { unfold resources_ok. split; [eexists; split; [reflexivity|vm_compute; lia]|].
    split; [eexists; split; [reflexivity|vm_compute; lia]|]. vm_compute. intros p [= <-]. discriminate. }
  destruct (Hstep _ _ _ _ _ _ _ _ _ Hw0 Hok0 (reflexivity _) Hev) as ((real' & Hw & _ & Hreal) & _ & _ & Hc).
  destruct (Hc [("NodeIDs", Examples.strings ["n3"])]) as (Hok & Hn & Ha).
  - right. eexists. split; [reflexivity|]. vm_compute. discriminate.
  - reflexivity.
  - constructor; [intros _ _; by eexists|constructor].
  - split; [exact Hn|]. split; [exact Ha|].
    destruct (on_event _ _ _ _ (FileWatcher.mkEvent _ _) _ fw' c') as [fw'' c''] eqn:Hev2.
    destruct (Hstep _ _ _ _ _ _ _ _ _ Hw Hok (reflexivity _) Hev2) as (_ & _ & _ & Hc2).
    destruct (Hc2 [("accessGroups", Examples.strings ["dev"]); ("nodeIds", Examples.strings ["n1"; "n2"])]) as (_ & Hn2 & _).
    + left. split; vm_compute; reflexivity.
    + reflexivity.
    + constructor; [intros _ _; by eexists|]. constructor; [intros _ _; by eexists|constructor].
    + exact Hn2.
Defined.
(** A list that is removed from the file stays, and so does one in a file that is gone. *)
Example removed_list_stays :
  (∀ d, d ∈ ["empty"; ""] → let c := Examples.load d Examples.c1 in contents c (GetNodeIDs c) = ["n1"; "n2"]).
Proof. intros d Hd. repeat (apply elem_of_cons in Hd as [->|Hd]; [vm_compute; reflexivity|]). by apply not_elem_of_nil in Hd. Qed.
(** The decoder writes into the array that callers of the getter still read: a list
    obtained before the reload is afterwards neither the old nor the new one. *)
Example returned_list_overwritten :
  let before := GetNodeIDs Examples.c1 in
  contents Examples.c1 before = ["n1"; "n2"] ∧ contents (Examples.load "v2" Examples.c1) before = ["n3"; "n2"].
Proof. vm_compute. by split. Qed.
End StaticConfig.
