(* ===== verification/ApiServer.v ===== *)
(** * [internal/xds/api/server.go] ([RunGRPC]), [internal/xds/server.go] and the
    servers of [cmd/main.go]

    The multiplexer of the gRPC services with the authentication in front of it, and in front of both
    the middleware that answers preflights (a library, and so a parameter), the
    assembly of the API server from the environment, the files and the flags, the
    services of the xDS server and the handlers of the debug server.  The service
    handlers are those of the generated code: the path of a service and the switch
    over its procedures. *)

From S2P Require Import Prelude GoStrings Types StringPool Api DomainSecrets ResUtils Store SnapshotCache Mixer Updater.
From S2P Require Import GrpcAuth Clients Startup Rest Overview FileWatcher RestServer StaticConfig.

Module ApiServer.
Import GoJson GrpcAuth.

(** ** The services *)
(** The name of a service and its methods, in the order of the switch. *)
Record Service := mkService { svcName : string; svcMethods : list string }.
Definition procedure (s : Service) (m : string) : string := "/" +:+ svcName s +:+ "/" +:+ m.
Definition procedures (s : Service) : list string := procedure s <$> svcMethods s.
Definition VirtualServiceStoreService : Service :=
  mkService "virtual_service.v1.VirtualServiceStoreService"
    ["CreateVirtualService"; "UpdateVirtualService"; "DeleteVirtualService"; "GetVirtualService"; "ListVirtualServices"].
Definition VirtualServiceTemplateStoreService : Service :=
  mkService "virtual_service_template.v1.VirtualServiceTemplateStoreService" ["ListVirtualServiceTemplates"; "FillTemplate"].
Definition ListenerStoreService : Service := mkService "listener.v1.ListenerStoreService" ["ListListeners"].
Definition AccessLogConfigStoreService : Service :=
  mkService "access_log_config.v1.AccessLogConfigStoreService" ["ListAccessLogConfigs"].
Definition RouteStoreService : Service := mkService "route.v1.RouteStoreService" ["ListRoutes"].
Definition HTTPFilterStoreService : Service := mkService "http_filter.v1.HTTPFilterStoreService" ["ListHTTPFilters"].
Definition PolicyStoreService : Service := mkService "policy.v1.PolicyStoreService" ["ListPolicies"].
Definition ClusterStoreService : Service := mkService "cluster.v1.ClusterStoreService" ["ListCluster"].
Definition NodeStoreService : Service := mkService "node.v1.NodeStoreService" ["ListNodes"].
Definition AccessGroupStoreService : Service := mkService "access_group.v1.AccessGroupStoreService" ["ListAccessGroups"].
Definition UtilsService : Service := mkService "util.v1.UtilsService" ["VerifyDomains"].
Definition PermissionsService : Service := mkService "permissions.v1.PermissionsService" ["ListPermissions"].
(** The reflection services of [grpcreflect]. *)
Definition reflection (v : string) : Service := mkService ("grpc.reflection." +:+ v +:+ ".ServerReflection") ["ServerReflectionInfo"].
(** The handler of a service: the procedure whose path the request has, or a 404. *)
Definition service_handler (s : Service) (path : string) : option string :=
  snd <$> list_find (λ p, p = path) (procedures s).

(** ** [RunGRPC] *)
(** [http.ServeMux] with patterns that end in a slash: the longest one that is a
    prefix of the path. *)
Definition mux_find (mux : list Service) (path : string) : option Service :=
  foldl (λ best s,
    if String.prefix ("/" +:+ svcName s +:+ "/") path then
      match best with
      | Some b => if decide (String.length (svcName b) < String.length (svcName s)) then Some s else best
      | None => Some s
      end
    else best) None mux.
Definition dispatch (mux : list Service) (path : string) : option string :=
  s ← mux_find mux path; service_handler s path.
(** The services that are always there. *)
Definition base_services : list Service :=
  [VirtualServiceStoreService; VirtualServiceTemplateStoreService; ListenerStoreService; AccessLogConfigStoreService;
   RouteStoreService; HTTPFilterStoreService; PolicyStoreService; ClusterStoreService; NodeStoreService;
   AccessGroupStoreService; UtilsService; reflection "v1"; reflection "v1alpha"].
Record GrpcServer := mkGrpc { mux : list Service; wrapped : option Enforcer }.
Definition RunGRPC (NewEnforcer : string → string → result Enforcer) (oidc_NewProvider : string → option error)
    (EvalSymlinks : string → result string) (watch : string → option error)
    (fWatcher : FileWatcher.FileWatcher StaticConfig.apiCallback) (auth : RestServer.AuthConfig)
  : FileWatcher.FileWatcher StaticConfig.apiCallback * result GrpcServer :=
  if RestServer.Enabled auth then
    match NewEnforcer (RestServer.AccessControlModel auth) (RestServer.AccessControlPolicy auth) with
    | Err e => (fWatcher, Err e)
    | Ok enforcer =>
        match FileWatcher.Add EvalSymlinks watch fWatcher (RestServer.AccessControlModel auth) StaticConfig.ReloadRBAC with
        | (fWatcher, Some e) => (fWatcher, Err e)
        | (fWatcher, None) =>
            match oidc_NewProvider (RestServer.IssuerURL auth) with
            | Some e => (fWatcher, Err e)
            | None => (fWatcher, Ok (mkGrpc (base_services ++ [PermissionsService]) (Some enforcer)))
            end
        end
    end
  else (fWatcher, Ok (mkGrpc base_services None)).
(** The callback of the access control model; the policy is loaded only after the
    model, and an error of either ends it. *)
Definition reload_rbac {E} (LoadModel LoadPolicy : E → E * option error) (e : E) : E :=
  let '(e, err) := LoadModel e in
  match err with Some _ => e | None => (LoadPolicy e).1 end.

(** [authn]: the procedure inferred from a URL is the last two segments of its path. *)
Class Authn := {
  InferProcedure : string → string;
  InferProcedure_procedure svc m : svc ≠ "" → m ≠ "" → GoStrings.free_of GoPath.slash svc → GoStrings.free_of GoPath.slash m →
    InferProcedure ("/" +:+ svc +:+ "/" +:+ m) = "/" +:+ svc +:+ "/" +:+ m
}.
Inductive outcome := Preflight | Denied (e : error) | NotFound | Called (procedure : string) (info : option Authorizer).
(** A call: the method of the HTTP request, the header [Access-Control-Request-Method], the token and the path. *)
Record Call := mkCall { clMethod : string; clRequestMethod : string; clToken : option string; clPath : string }.
(** [cors.AllowAll().Handler]: the requests that it answers itself, which are preflights: requests of
    the method OPTIONS that ask for a method. *)
Class GrpcCors := {
  is_preflight : Call → bool;
  is_preflight_options c : is_preflight c = true → clMethod c = "OPTIONS" ∧ clRequestMethod c ≠ ""
}.
Definition found (o : option string) (info : option Authorizer) : outcome :=
  match o with Some p => Called p info | None => NotFound end.
Definition grpc_serve {AU : Authn} {GC : GrpcCors} {Token} (verify : string → result Token) (claims_of : Token → result Claims)
    (srv : GrpcServer) (c : Call) : outcome :=
  if is_preflight c then Preflight
  else
    match wrapped srv with
    | None => found (dispatch (mux srv) (clPath c)) None
    | Some enforcer =>
        match authFunc verify claims_of enforcer (clToken c) (InferProcedure (clPath c)) with
        | Err e => Denied e
        | Ok a => found (dispatch (mux srv) (clPath c)) (Some a)
        end
    end.

(** ** The API server of [main] *)
(** [strconv.ParseBool] *)
Definition ParseBool (str : string) : result bool :=
  if decide (str ∈ ["1"; "t"; "T"; "true"; "TRUE"; "True"]) then Ok true
  else if decide (str ∈ ["0"; "f"; "F"; "false"; "FALSE"; "False"]) then Ok false
  else Err (ErrNew ("strconv.ParseBool: parsing " +:+ str +:+ ": invalid syntax")).
(** [json.Unmarshal] into a nil map of string lists: an element that is null is the
    empty string, a value that is null the nil slice; of a repeated key the last. *)
Definition acl_elem (v : json) : result string :=
  match v with JString s => Ok s | JNull => Ok "" | _ => Err type_error end.
Definition acl_value (v : json) : result (list string) :=
  match v with JNull => Ok [] | JArray l => map_result acl_elem l | _ => Err type_error end.
Definition decode_acl (v : json) : result (gmap string (list string)) :=
  match v with
  | JNull => Ok ∅
  | JObject kvs => fold_result (λ m kv, l ← acl_value kv.2; Ok (<[kv.1 := l]> m)) ∅ kvs
  | _ => Err type_error
  end.
Record ApiPlatform := mkApiPlatform {
  getenv : string → string; readFile : string → result string; parse : string → result json; grow : nat → nat;
  newEnforcer : string → string → result Enforcer; oidc : string → option error;
  evalSymlinks : string → result string; watchDir : string → option error
}.
Definition api_auth (p : ApiPlatform) (fl : Startup.Flags) : result RestServer.AuthConfig :=
  let Enabled := match ParseBool (getenv p "OIDC_ENABLED") with Ok b => b | Err _ => false end in
  let aclEnv := getenv p "ACL_CONFIG" in
  acl ← (if decide (aclEnv ≠ "") then wrap_err "failed to parse ACL config" (v ← parse p aclEnv; decode_acl v) else Ok ∅);
  Ok (RestServer.mkAuthConfig Enabled (getenv p "OIDC_ISSUER_URL") (getenv p "OIDC_CLIENT_ID") acl
        (Startup.accessControlModelPath fl) (Startup.accessControlPolicyPath fl)).
Record ApiServer := mkApiServer { aClient : StaticConfig.Client; aGrpc : GrpcServer; aRest : RestServer.Engine }.
(** The goroutine under [enableAPI]; every error ends the process. *)
Definition startAPI (p : ApiPlatform) (fl : Startup.Flags) (fw : FileWatcher.FileWatcher StaticConfig.apiCallback)
  : FileWatcher.FileWatcher StaticConfig.apiCallback * result ApiServer :=
  match (auth ← api_auth p fl;
         data ← wrap_err "failed to read config" (readFile p (Startup.configPath fl));
         let '(h, r, e) := StaticConfig.Unmarshal (grow p) (parse p) data [] StaticConfig.noResources in
         _ ← Startup.or_exit "failed to parse static resources config" e;
         Ok (auth, StaticConfig.mkClient h r)) with
  | Err e => (fw, Err e)
  | Ok (auth, c) =>
      match StaticConfig.New (evalSymlinks p) (watchDir p) fw (Startup.configPath fl) c with
      | (fw, Err e) => (fw, Err (ErrWrap "failed to create api server" e))
      | (fw, Ok c) =>
          match RunGRPC (newEnforcer p) (oidc p) (evalSymlinks p) (watchDir p) fw auth with
          | (fw, Err e) => (fw, Err (ErrWrap "cannot run grpc xDS server" e))
          | (fw, Ok grpc) =>
              (fw, rest ← wrap_err "cannot run http xDS server" (RestServer.Run (oidc p) (Startup.devMode fl) auth);
                   Ok (mkApiServer c grpc rest))
          end
      end
  end.

(** ** [internal/xds/server.go] *)
Local Open Scope Z_scope.
Definition Second : Z := 10 ^ 9.
Definition grpcKeepaliveTime : Z := 30 * Second.
Definition grpcKeepaliveTimeout : Z := 5 * Second.
Definition grpcKeepaliveMinTime : Z := 30 * Second.
Definition grpcMaxConcurrentStreams : Z := 1000000.
Local Close Scope Z_scope.
Record XdsServer := mkXds {
  maxStreams : Z; keepaliveTime : Z; keepaliveTimeout : Z; minTime : Z; permitWithoutStream : bool;
  listen : string; discovery : list string
}.
(** The discovery services, all answered by the one snapshot cache. *)
Definition registerServer : list string :=
  ["AggregatedDiscoveryService"; "EndpointDiscoveryService"; "ClusterDiscoveryService"; "RouteDiscoveryService";
   "ListenerDiscoveryService"; "SecretDiscoveryService"; "RuntimeDiscoveryService"].
(** [RunServer] up to [Serve]. *)
Definition RunServer (net_Listen : string → option error) (port : Z) : result XdsServer :=
  let addr := ":" +:+ GoStrings.Itoa port in
  match net_Listen addr with
  | Some e => Err e
  | None => Ok (mkXds grpcMaxConcurrentStreams grpcKeepaliveTime grpcKeepaliveTimeout grpcKeepaliveMinTime true addr registerServer)
  end.

(** ** The debug server *)
Section debug.
Context `{CA : CacheAPI}.
(** [w.WriteHeader(500)] when the value cannot be printed. *)
Definition or_500 (r : result string) : Rest.reply string := match r with Ok s => Rest.Json s | Err _ => Rest.NoBody 500 end.
(** [json.MarshalIndent] of the values the handlers print. *)
Class DebugPrinter := {
  print_store : Updater.StoreDump → result string;
  print_xds : gmap string (option Snapshot) → result string;
  print_strings : gmap string string → result string;
  print_clients : list Clients.Info → result string;
  print_info : RestServer.Info → result string
}.
Context {DP : DebugPrinter}.
(** An error of [GetSnapshot] leaves nil. *)
Definition xds_dump (c : SnapshotCache.t) : gmap string (option Snapshot) :=
  set_to_map (λ n, (n, match SnapshotCache.GetSnapshot c n with Ok s => Some s | Err _ => None end)) (SnapshotCache.GetNodeIDsAsMap c).
Definition used_secrets (u : Updater.CacheUpdater) : gmap string string :=
  map_fold (λ k v m, <[Helpers.String k := Helpers.String v]> m) ∅ (Updater.GetUsedSecrets u).
Definition debug_handler (path : string) (now : DomainSecrets.Time) (order : Clients.Registry → list (Z * Clients.Info))
    (vars : RestServer.Info) (u : Updater.CacheUpdater) (c : SnapshotCache.t) (clients : Clients.Registry) : Rest.reply string :=
  if decide (path = "/debug/store") then or_500 (Updater.GetMarshaledStore print_store now u)
  else if decide (path = "/debug/xds") then or_500 (print_xds (xds_dump c))
  else if decide (path = "/debug/used-secrets") then or_500 (print_strings (used_secrets u))
  else if decide (path = "/debug/connected-clients") then or_500 (print_clients (Clients.List_ order clients))
  else if decide (path = "/debug/buildinfo") then or_500 (print_info (RestServer.GetInfo vars))
  else Rest.NoBody 404.

(** The dump shows, for every node of the cache and no other, its snapshot. *)
Lemma xds_dump_spec c n : xds_dump c !! n =
  if decide (n ∈ SnapshotCache.nodeIDs c)
  then Some (match SnapshotCache.GetSnapshot c n with Ok s => Some s | Err _ => None end) else None.
Proof.
  unfold xds_dump. apply option_eq. intros x. rewrite lookup_set_to_map by done. unfold SnapshotCache.GetNodeIDsAsMap.
  case_decide as Hn; naive_solver.
Qed.
(** Two secrets never print the same, so the dump loses none of them. *)
Lemma used_secrets_spec u k v : Updater.GetUsedSecrets u !! k = Some v →
  (∀ k', is_Some (Updater.GetUsedSecrets u !! k') → Helpers.String k' = Helpers.String k → k' = k) →
  used_secrets u !! Helpers.String k = Some (Helpers.String v).
Proof.
  unfold used_secrets. generalize (Updater.GetUsedSecrets u) as m. intros m. revert k v.
  apply (map_fold_weak_ind (λ r m, ∀ k v, m !! k = Some v →
    (∀ k', is_Some (m !! k') → Helpers.String k' = Helpers.String k → k' = k) → r !! Helpers.String k = Some (Helpers.String v))).
  - intros k v. by rewrite lookup_empty.
  - intros i x m' r Hi IH k v Hk Hinj. destruct (decide (i = k)) as [->|Hne].
    + rewrite lookup_insert_eq in Hk. rewrite lookup_insert_eq. by injection Hk as ->.
    + rewrite lookup_insert_ne in Hk by done. rewrite lookup_insert_ne.
      * apply IH; [done|]. intros k' [y Hk'] He. apply Hinj; [|done]. exists y. rewrite lookup_insert_ne; [done|]. intros ->. congruence.
      * intros He. apply Hne. apply Hinj; [|done]. by rewrite lookup_insert_eq.
Qed.
End debug.

(** ** What the servers let through *)
Section guarded.
Context {AU : Authn} {GC : GrpcCors}.
Context {Token : Type} (verify : string → result Token) (claims_of : Token → result Claims).

Lemma dispatch_exact mux path proc : dispatch mux path = Some proc → proc = path.
Proof.
  unfold dispatch, service_handler. destruct (mux_find mux path); [|done]. cbn.
  intros ([i p] & (Hp & -> & _)%list_find_Some & ->)%fmap_Some. done.
Qed.
(** The procedures that a mounted service answers. *)
Definition mounted (mux : list Service) : list string := mux ≫= procedures.
Definition service_ok (s : Service) : Prop :=
  Forall (λ x, x ≠ "" ∧ GoStrings.free_of GoPath.slash x) (svcName s :: svcMethods s).
Lemma services_ok : Forall service_ok (base_services ++ [PermissionsService]).
Proof. repeat first [apply Forall_cons; split | apply Forall_nil_2]; by vm_compute. Qed.
Lemma infer_mounted mux proc : Forall service_ok mux → proc ∈ mounted mux → InferProcedure proc = proc.
Proof.
  intros Hok (s & Hp & Hs)%list_elem_of_bind. rewrite Forall_forall in Hok. specialize (Hok s Hs).
  apply Forall_cons in Hok as [[? ?] Hok]. apply list_elem_of_fmap in Hp as (m & -> & Hm).
  rewrite Forall_forall in Hok. destruct (Hok m Hm). by apply InferProcedure_procedure.
Qed.
Lemma mux_find_elem mux path s : mux_find mux path = Some s → s ∈ mux.
Proof.
  unfold mux_find. assert (∀ best, foldl (λ best s, if String.prefix ("/" +:+ svcName s +:+ "/") path then
      match best with
      | Some b => if decide (String.length (svcName b) < String.length (svcName s)) then Some s else best
      | None => Some s end else best) best mux = Some s → best = Some s ∨ s ∈ mux) as Hgen.
  { induction mux as [|x mux IH]; intros best Hb; cbn in Hb; [by left|].
    apply IH in Hb as [Hb|Hb]; [|right; by right]. destruct (String.prefix _ _); [|by left].
    destruct best as [b|]; [|injection Hb as <-; right; left]. case_decide; [|by left]. injection Hb as <-. right. left. }
  intros [?|?]%Hgen; done.
Qed.
Lemma dispatch_mounted mux path proc : dispatch mux path = Some proc → proc = path ∧ proc ∈ mounted mux.
Proof.
  intros Hd. split; [by apply dispatch_exact in Hd|]. unfold dispatch in Hd. destruct (mux_find mux path) as [s|] eqn:Hs; [|done].
  cbn in Hd. apply mux_find_elem in Hs. apply fmap_Some in Hd as ([i p] & (Hp & _)%list_find_Some & ->).
  apply list_elem_of_bind. exists s. split; [by eapply list_elem_of_lookup_2|done].
Qed.
(** Every procedure is found behind its own path: no service hides another. *)
Lemma dispatch_complete proc : proc ∈ mounted (base_services ++ [PermissionsService]) →
  dispatch (base_services ++ [PermissionsService]) proc = Some proc.
Proof. revert proc. apply Forall_forall. repeat first [apply Forall_cons; split | apply Forall_nil_2]; vm_compute; reflexivity. Qed.
(** The procedures without an action: listing the clusters, and the reflection. *)
Lemma procedures_with_action proc : proc ∈ mounted (base_services ++ [PermissionsService]) →
  lookupAction proc ≠ "" ∨ proc ∈ "/cluster.v1.ClusterStoreService/ListCluster" ::
    mounted [reflection "v1"; reflection "v1alpha"].
Proof.
  revert proc. apply Forall_forall. repeat first [apply Forall_cons; split | apply Forall_nil_2];
    first [left; vm_compute; discriminate | right; vm_compute; repeat constructor].
Qed.

Lemma startAPI_guarded p fl fw fw' a : startAPI p fl fw = (fw', Ok a) → ParseBool (getenv p "OIDC_ENABLED") = Ok true →
  (RestServer.AllowOrigins (RestServer.cors (aRest a)) = ["*"] ∧
   ∃ m, RestServer.middleware (aRest a) = Some m ∧ RestServer.authDevMode m = Startup.devMode fl) ∧ mux (aGrpc a) = base_services ++ [PermissionsService] ∧
  ∃ enforcer, newEnforcer p (Startup.accessControlModelPath fl) (Startup.accessControlPolicyPath fl) = Ok enforcer ∧
    wrapped (aGrpc a) = Some enforcer.
Proof.
  unfold startAPI. intros Hs Hb. destruct (api_auth p fl) as [auth|] eqn:Hauth; [|done]. cbn [mbind result_bind] in Hs.
  assert (RestServer.Enabled auth = true ∧ RestServer.AccessControlModel auth = Startup.accessControlModelPath fl ∧
    RestServer.AccessControlPolicy auth = Startup.accessControlPolicyPath fl) as (He & Hm & Hp).
  { unfold api_auth in Hauth. cbv zeta in Hauth. rewrite Hb in Hauth. apply bind_Ok_inv in Hauth as (acl & _ & [= <-]). done. }
  destruct (wrap_err "failed to read config" _) as [data|]; [|done]. cbn [mbind result_bind] in Hs.
  destruct (StaticConfig.Unmarshal _ _ data [] _) as [[h r] e]. destruct (Startup.or_exit _ e); [|done]. cbn [mbind result_bind] in Hs.
  destruct (StaticConfig.New _ _ fw _ _) as [fw1 [c|]]; [|done].
  destruct (RunGRPC _ _ _ _ fw1 auth) as [fw2 [grpc|]] eqn:Hg; [|done]. injection Hs as <- Hr.
  apply bind_Ok_inv in Hr as (rest & Hrest & [= <-]). cbn [aRest aGrpc]. split.
  - destruct (RestServer.Run (oidc p) (Startup.devMode fl) auth) as [e'|[]] eqn:Hrun; try done. injection Hrest as ->.
    destruct (RestServer.Run_auth _ _ _ _ Hrun He) as (Hco & x & Hx & _ & Hdev). split; [done|]. by exists x.
  - unfold RunGRPC in Hg. rewrite He, Hm, Hp in Hg. destruct (newEnforcer p _ _) as [enforcer|]; [|done].
    repeat case_match; simplify_eq/=. split; [done|]. by exists enforcer.
Qed.

(** C24. When OIDC_ENABLED is true, both servers are behind authentication.  A REST request
    whose token is missing, rejected or without readable claims is answered,
    whatever its path, with 401 and the message Unauthorized, without the error and details unless the program runs in development mode; only the
    preflight of another origin, a request of the method OPTIONS, is answered with 204 and no body.
    A gRPC request reaches a procedure only with a verified token
    and under the action of that very procedure, and every procedure that has an action
    is reached by such a request that is a POST. *)
Theorem api_servers_guarded {RL : Rest.RestLib} {CL : Rest.CertLib} {OL : Overview.OverviewLib} {RT : RestServer.Router}
    {CO : RestServer.Cors} `{CA : CacheAPI} (groups : Token → result (list string)) p fl fw fw' a :
  startAPI p fl fw = (fw', Ok a) → ParseBool (getenv p "OIDC_ENABLED") = Ok true →
  (∀ o oc c rq, is_ok (t ← RestServer.rqToken rq; idToken ← verify t; groups idToken) = false →
    ∃ r, RestServer.serve verify groups o (RestServer.with_cache (aRest a) oc) c rq = (r, oc) ∧
    ((RestServer.rqMethod rq = "OPTIONS" ∧ RestServer.rqOrigin rq ≠ "" ∧ r = Rest.NoBody 204) ∨
     ∃ err details, r = Rest.Refused 401 "Unauthorized" err details ∧ (Startup.devMode fl = false → err = None ∧ details = None))) ∧
  ∃ enforcer, newEnforcer p (Startup.accessControlModelPath fl) (Startup.accessControlPolicyPath fl) = Ok enforcer ∧
  ∀ c proc info,
    let entitled := proc = clPath c ∧ proc ∈ mounted (base_services ++ [PermissionsService]) ∧ lookupAction proc ≠ "" ∧
      ∃ t idToken cl, clToken c = Some t ∧ verify t = Ok idToken ∧ claims_of idToken = Ok cl ∧
        info = Some (mkAuthorizer (claim_name cl) (claim_groups cl) (lookupAction proc) enforcer) in
    (grpc_serve verify claims_of (aGrpc a) c = Called proc info → entitled) ∧
    (clMethod c = "POST" → entitled → grpc_serve verify claims_of (aGrpc a) c = Called proc info).
Proof.
  intros Hs Hb. destruct (startAPI_guarded p fl fw fw' a Hs Hb) as ((Hco & m & Hm & Hdev) & Hmux & enforcer & Hen & Hw). split.
  - intros o oc c rq Hbad. unfold RestServer.serve, RestServer.authenticate.
    cbn [RestServer.cors RestServer.middleware RestServer.with_cache RestServer.overviewCache].
    destruct (RestServer.cors_reply (RestServer.cors (aRest a)) rq) as [code|] eqn:Hc.
    { eexists. split; [done|]. left. destruct (RestServer.cors_all _ _ _ Hco Hc) as [-> ->].
      split; [done|]. split; [|done]. by eapply RestServer.cors_origin. }
    rewrite Hm. unfold Rest.HandlerFunc, Rest.respMessage. rewrite Hdev.
    destruct (RestServer.rqToken rq) as [t|]; cbn in Hbad; [destruct (verify t) as [idToken|]; cbn in Hbad; [destruct (groups idToken) as [g|]; [done|]|]|];
      (destruct (Startup.devMode fl); eexists; (split; [done|]); right; eexists _, _; (split; [done|]); done).
  - exists enforcer. split; [done|]. intros c proc info. cbn zeta. unfold grpc_serve. rewrite Hw, Hmux. split.
    + destruct (is_preflight c); [done|]. destruct (authFunc _ _ _ _ _) as [au|] eqn:Hau; [|done]. unfold found.
      destruct (dispatch _ (clPath c)) as [q|] eqn:Hd; [|done]. intros [= <- <-]. apply dispatch_mounted in Hd as [-> Hin].
      unfold authFunc in Hau. rewrite (infer_mounted _ _ services_ok Hin) in Hau. cbv zeta in Hau.
      repeat case_match; simplify_eq. split_and!; try done. by eexists _, _, _.
    + intros Hpost (-> & Hin & Ha & t & idToken & cl & Ht & Hv & Hcl & ->).
      destruct (is_preflight c) eqn:Hp; [apply is_preflight_options in Hp as [? _]; congruence|]. unfold authFunc.
      rewrite Ht, Hv, Hcl, (infer_mounted _ _ services_ok Hin). cbv zeta. rewrite decide_False by done. by rewrite dispatch_complete.
Qed.
End guarded.

(** ** Examples *)
Module Examples.
Definition infer (path : string) : string :=
  match reverse (GoStrings.Split GoPath.slash path) with
  | m :: svc :: _ => "/" +:+ svc +:+ "/" +:+ m
  | _ => path
  end.
Lemma infer_procedure svc m : svc ≠ "" → m ≠ "" → GoStrings.free_of GoPath.slash svc → GoStrings.free_of GoPath.slash m →
  infer ("/" +:+ svc +:+ "/" +:+ m) = "/" +:+ svc +:+ "/" +:+ m.
Proof.
  intros _ _ Hs Hm. unfold infer. change ("/" +:+ svc +:+ "/" +:+ m) with ("" +:+ String GoPath.slash (svc +:+ String GoPath.slash m)).
  rewrite GoStrings.Split_app by done. rewrite GoStrings.Split_app by done. by rewrite GoStrings.Split_free_id.
Qed.
Definition authn : Authn := {| InferProcedure := infer; InferProcedure_procedure := infer_procedure |}.
Definition platform (oidc_enabled : string) : ApiPlatform :=
  mkApiPlatform (λ k, if decide (k = "OIDC_ENABLED") then oidc_enabled else "") (λ _, Ok "v1") StaticConfig.Examples.parse
    StaticConfig.Examples.grow (λ _ _, Ok ex_enforcer) (λ _, None) Ok (λ _, None).
Definition fw0 : FileWatcher.FileWatcher StaticConfig.apiCallback := FileWatcher.mkFW ∅ ∅ ∅ false.
Definition noServer : ApiServer :=
  mkApiServer (StaticConfig.mkClient [] StaticConfig.noResources) (mkGrpc [] None) (RestServer.mkEngine RestServer.Examples.nocors None [] (Overview.NewOverviewCache 0)).
Definition server (oidc_enabled : string) : ApiServer :=
  match (startAPI (platform oidc_enabled) Startup.defaultFlags fw0).2 with Ok a => a | Err _ => noServer end.
Definition create : string := procedure VirtualServiceStoreService "CreateVirtualService".
Definition claims_of (t : string) : result Claims := Ok (mkClaims t []).
Definition preflight (c : Call) : bool := bool_decide (clMethod c = "OPTIONS" ∧ clRequestMethod c ≠ "").
Lemma preflight_options c : preflight c = true → clMethod c = "OPTIONS" ∧ clRequestMethod c ≠ "".
Proof. apply bool_decide_eq_true. Qed.
Definition grpc_cors : GrpcCors := {| is_preflight := preflight; is_preflight_options := preflight_options |}.
Definition post (token : option string) (path : string) : Call := mkCall "POST" "" token path.
End Examples.
#[local] Existing Instances Rest.Examples.lib Rest.Examples.certs Overview.Examples.olib MapCache.api MapCache.cache
  RestServer.Examples.router RestServer.Examples.cors_lib Examples.authn Examples.grpc_cors.
Lemma api_servers_guarded_witness :
  grpc_serve Ok Examples.claims_of (aGrpc (Examples.server "true")) (Examples.post (Some "user") Examples.create) =
    Called Examples.create (Some (mkAuthorizer "user" [] ActionCreateVirtualService ex_enforcer)) ∧
  (∀ info, grpc_serve Ok Examples.claims_of (aGrpc (Examples.server "true")) (Examples.post None Examples.create) ≠ Called Examples.create info).
Proof.
  destruct (api_servers_guarded Ok Examples.claims_of (λ t, Ok [t]) (Examples.platform "true") Startup.defaultFlags Examples.fw0
    (startAPI (Examples.platform "true") Startup.defaultFlags Examples.fw0).1 (Examples.server "true")) as (_ & enf & He & Hc).
  - vm_compute. reflexivity.
  - reflexivity.
  - cbn in He. injection He as <-. split.
    + apply Hc; [reflexivity|]. split; [reflexivity|]. split; [vm_compute; left|]. split; [vm_compute; discriminate|].
      exists "user", "user", (mkClaims "user" []). split_and!; reflexivity.
    + intros info (_ & _ & _ & t & _ & _ & Ht & _)%Hc. discriminate Ht.
Defined.
(** A value of OIDC_ENABLED that is no Boolean is taken for false: the servers start
    without authentication, and anyone may create virtual services. *)
Example unparsable_flag_disables_auth :
  is_ok (ParseBool "yes") = false ∧ is_ok (startAPI (Examples.platform "yes") Startup.defaultFlags Examples.fw0).2 = true ∧
  grpc_serve Ok Examples.claims_of (aGrpc (Examples.server "yes")) (Examples.post None Examples.create) = Called Examples.create None ∧
  RestServer.middleware (aRest (Examples.server "yes")) = None.
Proof. vm_compute. by split_and!. Qed.
(** The file of the policy is not watched: only the model's is. *)
Example policy_file_not_watched :
  let fw := (startAPI (Examples.platform "true") Startup.defaultFlags Examples.fw0).1 in
  FileWatcher.files fw !! Startup.accessControlPolicyPath Startup.defaultFlags = None ∧
  is_Some (FileWatcher.files fw !! Startup.accessControlModelPath Startup.defaultFlags).
Proof. vm_compute. split; [reflexivity|by eexists]. Qed.
End ApiServer.
