(* ===== verification/GrpcClients.v ===== *)
(** * The generated clients of the gRPC API

    [pkg/api/grpc/*/v1/*connect/*.connect.go], generated from the protobuf files: the
    names of the procedures, a client for every service, which keeps one URL per method,
    and a handler that implements no method.  The handlers that the server mounts are in
    [ApiServer]; the theorem is that clients and handlers fit together. *)
From S2P Require Import Prelude GoStrings FileWatcher ApiServer.

Module GrpcClients.
Import ApiServer.

Abbreviation slash := GoPath.slash.
(** [strings.TrimRight(s, "/")] *)
Fixpoint TrimRight (s : string) : string :=
  match s with
  | EmptyString => EmptyString
  | String a s' =>
      match TrimRight s' with
      | EmptyString => if decide (a = slash) then EmptyString else String a EmptyString
      | t => String a t
      end
  end.

(** A client: the URL that [connect.NewClient] is given for each method. *)
Abbreviation client := (list (string * string)).

(** ** The services *)
Definition VirtualServiceStoreServiceCreateVirtualServiceProcedure : string :=
  "/virtual_service.v1.VirtualServiceStoreService/CreateVirtualService".
Definition VirtualServiceStoreServiceUpdateVirtualServiceProcedure : string :=
  "/virtual_service.v1.VirtualServiceStoreService/UpdateVirtualService".
Definition VirtualServiceStoreServiceDeleteVirtualServiceProcedure : string :=
  "/virtual_service.v1.VirtualServiceStoreService/DeleteVirtualService".
Definition VirtualServiceStoreServiceGetVirtualServiceProcedure : string :=
  "/virtual_service.v1.VirtualServiceStoreService/GetVirtualService".
Definition VirtualServiceStoreServiceListVirtualServicesProcedure : string :=
  "/virtual_service.v1.VirtualServiceStoreService/ListVirtualServices".
Definition NewVirtualServiceStoreServiceClient (baseURL : string) : client :=
  let baseURL := TrimRight baseURL in
  [("CreateVirtualService", baseURL +:+ VirtualServiceStoreServiceCreateVirtualServiceProcedure);
   ("UpdateVirtualService", baseURL +:+ VirtualServiceStoreServiceUpdateVirtualServiceProcedure);
   ("DeleteVirtualService", baseURL +:+ VirtualServiceStoreServiceDeleteVirtualServiceProcedure);
   ("GetVirtualService", baseURL +:+ VirtualServiceStoreServiceGetVirtualServiceProcedure);
   ("ListVirtualServices", baseURL +:+ VirtualServiceStoreServiceListVirtualServicesProcedure)].
Definition UnimplementedVirtualServiceStoreServiceHandler : list (string * error) :=
  [("CreateVirtualService", ErrNew "virtual_service.v1.VirtualServiceStoreService.CreateVirtualService is not implemented");
   ("UpdateVirtualService", ErrNew "virtual_service.v1.VirtualServiceStoreService.UpdateVirtualService is not implemented");
   ("DeleteVirtualService", ErrNew "virtual_service.v1.VirtualServiceStoreService.DeleteVirtualService is not implemented");
   ("GetVirtualService", ErrNew "virtual_service.v1.VirtualServiceStoreService.GetVirtualService is not implemented");
   ("ListVirtualServices", ErrNew "virtual_service.v1.VirtualServiceStoreService.ListVirtualServices is not implemented")].

Definition VirtualServiceTemplateStoreServiceListVirtualServiceTemplatesProcedure : string :=
  "/virtual_service_template.v1.VirtualServiceTemplateStoreService/ListVirtualServiceTemplates".
Definition VirtualServiceTemplateStoreServiceFillTemplateProcedure : string :=
  "/virtual_service_template.v1.VirtualServiceTemplateStoreService/FillTemplate".
Definition NewVirtualServiceTemplateStoreServiceClient (baseURL : string) : client :=
  let baseURL := TrimRight baseURL in
  [("ListVirtualServiceTemplates", baseURL +:+ VirtualServiceTemplateStoreServiceListVirtualServiceTemplatesProcedure);
   ("FillTemplate", baseURL +:+ VirtualServiceTemplateStoreServiceFillTemplateProcedure)].
Definition UnimplementedVirtualServiceTemplateStoreServiceHandler : list (string * error) :=
  [("ListVirtualServiceTemplates", ErrNew "virtual_service_template.v1.VirtualServiceTemplateStoreService.ListVirtualServiceTemplates is not implemented");
   ("FillTemplate", ErrNew "virtual_service_template.v1.VirtualServiceTemplateStoreService.FillTemplate is not implemented")].

Definition ListenerStoreServiceListListenersProcedure : string :=
  "/listener.v1.ListenerStoreService/ListListeners".
Definition NewListenerStoreServiceClient (baseURL : string) : client :=
  let baseURL := TrimRight baseURL in
  [("ListListeners", baseURL +:+ ListenerStoreServiceListListenersProcedure)].
Definition UnimplementedListenerStoreServiceHandler : list (string * error) :=
  [("ListListeners", ErrNew "listener.v1.ListenerStoreService.ListListeners is not implemented")].

Definition AccessLogConfigStoreServiceListAccessLogConfigsProcedure : string :=
  "/access_log_config.v1.AccessLogConfigStoreService/ListAccessLogConfigs".
Definition NewAccessLogConfigStoreServiceClient (baseURL : string) : client :=
  let baseURL := TrimRight baseURL in
  [("ListAccessLogConfigs", baseURL +:+ AccessLogConfigStoreServiceListAccessLogConfigsProcedure)].
Definition UnimplementedAccessLogConfigStoreServiceHandler : list (string * error) :=
  [("ListAccessLogConfigs", ErrNew "access_log_config.v1.AccessLogConfigStoreService.ListAccessLogConfigs is not implemented")].

Definition RouteStoreServiceListRoutesProcedure : string :=
  "/route.v1.RouteStoreService/ListRoutes".
Definition NewRouteStoreServiceClient (baseURL : string) : client :=
  let baseURL := TrimRight baseURL in
  [("ListRoutes", baseURL +:+ RouteStoreServiceListRoutesProcedure)].
Definition UnimplementedRouteStoreServiceHandler : list (string * error) :=
  [("ListRoutes", ErrNew "route.v1.RouteStoreService.ListRoutes is not implemented")].

Definition HTTPFilterStoreServiceListHTTPFiltersProcedure : string :=
  "/http_filter.v1.HTTPFilterStoreService/ListHTTPFilters".
Definition NewHTTPFilterStoreServiceClient (baseURL : string) : client :=
  let baseURL := TrimRight baseURL in
  [("ListHTTPFilters", baseURL +:+ HTTPFilterStoreServiceListHTTPFiltersProcedure)].
Definition UnimplementedHTTPFilterStoreServiceHandler : list (string * error) :=
  [("ListHTTPFilters", ErrNew "http_filter.v1.HTTPFilterStoreService.ListHTTPFilters is not implemented")].

Definition PolicyStoreServiceListPoliciesProcedure : string :=
  "/policy.v1.PolicyStoreService/ListPolicies".
Definition NewPolicyStoreServiceClient (baseURL : string) : client :=
  let baseURL := TrimRight baseURL in
  [("ListPolicies", baseURL +:+ PolicyStoreServiceListPoliciesProcedure)].
Definition UnimplementedPolicyStoreServiceHandler : list (string * error) :=
  [("ListPolicies", ErrNew "policy.v1.PolicyStoreService.ListPolicies is not implemented")].

Definition ClusterStoreServiceListClusterProcedure : string :=
  "/cluster.v1.ClusterStoreService/ListCluster".
Definition NewClusterStoreServiceClient (baseURL : string) : client :=
  let baseURL := TrimRight baseURL in
  [("ListCluster", baseURL +:+ ClusterStoreServiceListClusterProcedure)].
Definition UnimplementedClusterStoreServiceHandler : list (string * error) :=
  [("ListCluster", ErrNew "cluster.v1.ClusterStoreService.ListCluster is not implemented")].

Definition NodeStoreServiceListNodesProcedure : string :=
  "/node.v1.NodeStoreService/ListNodes".
Definition NewNodeStoreServiceClient (baseURL : string) : client :=
  let baseURL := TrimRight baseURL in
  [("ListNodes", baseURL +:+ NodeStoreServiceListNodesProcedure)].
Definition UnimplementedNodeStoreServiceHandler : list (string * error) :=
  [("ListNodes", ErrNew "node.v1.NodeStoreService.ListNodes is not implemented")].

Definition AccessGroupStoreServiceListAccessGroupsProcedure : string :=
  "/access_group.v1.AccessGroupStoreService/ListAccessGroups".
Definition NewAccessGroupStoreServiceClient (baseURL : string) : client :=
  let baseURL := TrimRight baseURL in
  [("ListAccessGroups", baseURL +:+ AccessGroupStoreServiceListAccessGroupsProcedure)].
Definition UnimplementedAccessGroupStoreServiceHandler : list (string * error) :=
  [("ListAccessGroups", ErrNew "access_group.v1.AccessGroupStoreService.ListAccessGroups is not implemented")].

Definition UtilsServiceVerifyDomainsProcedure : string :=
  "/util.v1.UtilsService/VerifyDomains".
Definition NewUtilsServiceClient (baseURL : string) : client :=
  let baseURL := TrimRight baseURL in
  [("VerifyDomains", baseURL +:+ UtilsServiceVerifyDomainsProcedure)].
Definition UnimplementedUtilsServiceHandler : list (string * error) :=
  [("VerifyDomains", ErrNew "util.v1.UtilsService.VerifyDomains is not implemented")].

Definition PermissionsServiceListPermissionsProcedure : string :=
  "/permissions.v1.PermissionsService/ListPermissions".
Definition NewPermissionsServiceClient (baseURL : string) : client :=
  let baseURL := TrimRight baseURL in
  [("ListPermissions", baseURL +:+ PermissionsServiceListPermissionsProcedure)].
Definition UnimplementedPermissionsServiceHandler : list (string * error) :=
  [("ListPermissions", ErrNew "permissions.v1.PermissionsService.ListPermissions is not implemented")].

(** A service as the server mounts it, its client and the handler that implements nothing. *)
Definition generated : list (Service * (string → client) * list (string * error)) := [
  (VirtualServiceStoreService, NewVirtualServiceStoreServiceClient, UnimplementedVirtualServiceStoreServiceHandler);
  (VirtualServiceTemplateStoreService, NewVirtualServiceTemplateStoreServiceClient, UnimplementedVirtualServiceTemplateStoreServiceHandler);
  (ListenerStoreService, NewListenerStoreServiceClient, UnimplementedListenerStoreServiceHandler);
  (AccessLogConfigStoreService, NewAccessLogConfigStoreServiceClient, UnimplementedAccessLogConfigStoreServiceHandler);
  (RouteStoreService, NewRouteStoreServiceClient, UnimplementedRouteStoreServiceHandler);
  (HTTPFilterStoreService, NewHTTPFilterStoreServiceClient, UnimplementedHTTPFilterStoreServiceHandler);
  (PolicyStoreService, NewPolicyStoreServiceClient, UnimplementedPolicyStoreServiceHandler);
  (ClusterStoreService, NewClusterStoreServiceClient, UnimplementedClusterStoreServiceHandler);
  (NodeStoreService, NewNodeStoreServiceClient, UnimplementedNodeStoreServiceHandler);
  (AccessGroupStoreService, NewAccessGroupStoreServiceClient, UnimplementedAccessGroupStoreServiceHandler);
  (UtilsService, NewUtilsServiceClient, UnimplementedUtilsServiceHandler);
  (PermissionsService, NewPermissionsServiceClient, UnimplementedPermissionsServiceHandler)].

(** ** Clients and handlers *)
Fixpoint slashes (n : nat) : string :=
  match n with 0 => "" | S n => String slash (slashes n) end.
Lemma TrimRight_only n : TrimRight (slashes n) = "".
Proof. induction n as [|n IH]; [done|]. cbn. by rewrite IH. Qed.
Lemma TrimRight_slashes s n : TrimRight (s +:+ slashes n) = TrimRight s.
Proof.
  induction s as [|a s IH]; [apply TrimRight_only|].
  change (String a s +:+ slashes n) with (String a (s +:+ slashes n)). cbn. by rewrite IH.
Qed.

Lemma generated_shape svc new unimplemented : (svc, new, unimplemented) ∈ generated →
  (∀ base, new base = (λ m, (m, TrimRight base +:+ procedure svc m)) <$> svcMethods svc) ∧
  (∀ m, m ∈ svcMethods svc →
     dispatch (base_services ++ [PermissionsService]) (procedure svc m) = Some (procedure svc m)) ∧
  unimplemented = (λ m, (m, ErrNew (svcName svc +:+ "." +:+ m +:+ " is not implemented"))) <$> svcMethods svc.
Proof.
  unfold generated. intros Hin.
  repeat (apply elem_of_cons in Hin as [[= -> -> ->]|Hin];
    [split; [intros base; reflexivity|]; split; [|reflexivity]; apply Forall_forall;
     repeat first [apply Forall_cons; split | apply Forall_nil_2]; vm_compute; reflexivity|]).
  by apply elem_of_nil in Hin.
Qed.

(** Clients and handlers fit together, for all twelve services: however many slashes
    the base URL ends in, the client of a service has one URL for every method of the
    service, the origin followed by the path of the procedure; the server finds exactly
    this procedure behind the path; and the handler that implements nothing answers
    every method with an error that names it. *)
Theorem clients_reach_handlers svc new unimplemented :
  (svc, new, unimplemented) ∈ generated → ∀ origin n, TrimRight origin = origin →
  new (origin +:+ slashes n) = (λ m, (m, origin +:+ procedure svc m)) <$> svcMethods svc ∧
  (∀ m, m ∈ svcMethods svc →
     dispatch (base_services ++ [PermissionsService]) (procedure svc m) = Some (procedure svc m)) ∧
  unimplemented = (λ m, (m, ErrNew (svcName svc +:+ "." +:+ m +:+ " is not implemented"))) <$> svcMethods svc.
Proof.
  intros Hin origin n Ho. destruct (generated_shape _ _ _ Hin) as (Hnew & Hd & Hu).
  rewrite Hnew, TrimRight_slashes, Ho. done.
Qed.

Lemma clients_reach_handlers_witness :
  TrimRight "http://controller:10000" = "http://controller:10000" ∧
  NewNodeStoreServiceClient "http://controller:10000//" =
    [("ListNodes", "http://controller:10000/node.v1.NodeStoreService/ListNodes")].
Proof.
  split; [vm_compute; reflexivity|].
  refine (proj1 (clients_reach_handlers NodeStoreService NewNodeStoreServiceClient
    UnimplementedNodeStoreServiceHandler _ "http://controller:10000" 2 _)); [|vm_compute; reflexivity].
  unfold generated. by repeat (apply elem_of_cons; first [by left|right]).
Defined.
End GrpcClients.
